(* ===== verification/_CoqProject ===== *)
-Q . S2P
Prelude.v
GoStd.v
GoFloat.v
Coinselect.v
CoinselectSearch.v
CoinselectSpec.v
Sha2.v
Aes.v
Blob.v
ClaimId.v
Script.v
Tx.v
Multihash.v
Json.v
SdBlob.v
SdBlobSpec.v
Encoder.v
EncoderSpec.v
Creator.v
Tracking.v
Errors.v
Trace.v
Store.v
Memory.v
StoreSpec.v
Disk.v
DiskLogic.v
DiskSpec.v
DiskStore.v
StoreEquiv.v
Factory.v
HdKey.v
Wordlist.v
Mnemonic.v
Wallet.v
GoNet.v
Request.v
RequestSpec.v
Race.v
RaceInv.v
RaceFail.v
RaceLive.v
RaceSpec.v
Discovery.v
Connection.v
Transfer.v
Downloader.v
JsonFrame.v
PeerMsg.v
Wire.v
PeerServer.v
PeerClient.v
Dial.v
Origin.v
PeerSpec.v
PeerStream.v
Reflector.v
ReflectorSpec.v
ReflectorUpload.v
Claim.v
StreamReader.v
ClientError.v
StreamReaderSpec.v
StreamReaderLive.v
StreamAcquirer.v
StreamAcquirerSpec.v
ReaderInfo.v
Watchdog.v
DhtNode.v
DhtNodeSpec.v
Manager.v
ManagerSpec.v
Server.v
ServerSpec.v
DhtBuilder.v
ServerBuilder.v
ServerBuilderSpec.v
Electrum.v
ElectrumSpec.v
Hosting.v
