(* ===== verification/Prelude.v ===== *)
(** * liblbry: a verification development

    liblbry is a Go library for the LBRY network.  Files are cut into chunks, each
    encrypted into a blob named by its SHA-384 hash; a stream descriptor (an SD blob,
    JSON text) lists the blobs of a stream with their IVs and the key; blobs live in
    stores; claims that point at streams are published as scripts in transactions of
    a Bitcoin-like chain, funded by coin selection over the wallet's outputs; peers
    exchange blobs over a small protocol.

    ** How the code is modelled

    A Go function is a function into [result]: a value, an error value or a run-time
    panic ([Ok], [Err], [Panic]), so that a theorem saying a result is [Ok] also says
    that no index, slice or nil dereference of the modelled code fails.  [int] and
    [int64] are integers with the wrap-around written out ([+i], [-i], [*i]); strings
    and byte slices are lists of bytes.  A method that changes its receiver returns the new
    receiver.  An error made with a format string is kept by that string, and an
    error wrapped with %w by the string and its cause.  Code outside src/ is a type
    class of operations with, where a theorem relies on it, a class of laws stating
    the documented behaviour; each such class has a concrete instance in the file
    that declares it, to which the theorems are applied.  Loops that are not
    structural carry fuel, and running out of it is a panic or an error of its own,
    so that a theorem about a result also shows that the fuel suffices.

    ** Files

    - [Prelude], [GoStd]: results, bytes, machine integers, shared lists and tactics;
      what the sources use of Go's standard library (stable sorting, encoding/hex,
      strconv, encoding/binary, io.Reader as a list of reads that deliver any part of
      what was asked for).
    - [GoFloat]: float64 on the standard library's executable IEEE 754 numbers, with the
      conversions and divisions the sources use and where they are exact.
    - [Coinselect], [CoinselectSearch], [CoinselectSpec]: coinselect/coinselect.go.
      The strategies with their loops and 64-bit sums; the invariant of the
      branch-and-bound search (which masks are explored, which are still pending, the
      best so far); optimality and soundness of the search, completeness of
      [Standard] and [PreferConfirmed], [ClosestMatch], and [randomDraw] for every
      outcome of the random numbers.
    - [Sha2], [Aes], [Blob]: crypto/ and blob/blob.go.  SHA-2 and AES-CBC as Go's
      standard library implements them, executable; padding, encryption, hashing and
      verification of blobs; the round trip of encryption through the real cipher.
    - [ClaimId], [Script], [Tx]: chain/.  Claim IDs with their reversed hexadecimal
      form; the claim scripts, and the reader of data pushes that takes them apart
      again; transaction building and signing over an interface of btcd.
    - [Multihash]: stream/multihash.go, over an interface of the CID library.
    - [Json], [SdBlob], [SdBlobSpec]: stream/sdblob.go.  encoding/json as a parser and
      a printer on documents; the two field orders a descriptor may be written in,
      their detection, validation, and the text that round trips.
    - [Encoder], [EncoderSpec], [Creator]: stream/encoder.go, config.go, creator.go,
      manifest.go.  The encoder as a state threaded through [Next], [Stream] and
      [Encode]; decoding; streams and manifests from readers, files and paths.
    - [Tracking]: the reader of stream/creator.go that reports progress, and the fractions
      it reports.
    - [Errors], [Trace]: errors/common.go, the classification of errors by identity and
      text; errors/errors.go, errors wrapped with stack traces.
    - [Store], [Memory], [StoreSpec]: storage/blob.go and storage/memory/memory.go.
      The interface as a class with its laws against an abstract map; the in-memory
      store as an instance; what a client gets from any instance.
    - [Disk], [DiskLogic], [DiskSpec], [DiskStore], [StoreEquiv]:
      storage/disk/disk.go.  Paths, a file system in which any system call may fail,
      and the store's operations in a monad that records every state of the files; a
      Hoare logic with error postconditions; crash safety of writes; the store as an
      instance of the interface on an operating system without faults; its
      equivalence with the in-memory store.
    - [Factory]: store.go, the generic function that makes a factory of stores, over a class of
      what it finds out about the type by reflection and type assertions.
    - [HdKey], [Wordlist], [Mnemonic], [Wallet]: wallet/.  BIP32 keys over an interface
      of btcec, addresses; the word list, the normalisation of phrases and their
      numbers; the wallet's derivations and the address manager with its gap.
    - [GoNet], [Request], [RequestSpec]: host and port texts of Go's net package;
      blob/transfer/peer_transfer/blob and coordinator/request_coordinator.go: the
      request callers share, its completion, and the coordinator's backlog over a heap
      of requests; the answers of the coordinator as functions of the calls made on it.
    - [Race], [RaceInv], [RaceFail], [RaceLive], [RaceSpec]: phase/phase_manager.go,
      coordinator/peer_race_coordinator.go and executor/peer_task_executor.go.  One
      download as a machine whose steps are the atomic actions of its goroutines (the
      owner, the tasks, the callers that join) and what others may do to it (cancel,
      time out, stop, restart, reconfigure), in any order; invariants by induction over
      the reachable states; a measure, and endless executions, in which the owner polls;
      a write-once cell as its specification.
    - [Discovery], [Connection], [Transfer]: discovery/, connection/, downloader/ and
      peer_transfer.go: retries with backoff, fixed peers, the pool of clients, options,
      and one request per hash.
    - [Downloader]: the objects of the downloader (executor, race coordinator, phase manager)
      with their worker pools; [Transfer] and [Race] are what is left when the objects
      are forgotten.
    - [JsonFrame], [PeerMsg], [Wire], [PeerServer], [PeerClient], [PeerSpec],
      [PeerStream]: protocol/peer_messages.go, peer.go, peer_client.go, protector.go,
      notifier.go and storage/access.go.  Messages and their JSON, connections with
      faults at any deadline or write, the framing of messages in a byte stream, the
      server's handlers and loop over any store, the client's calls; the two ends
      together.
    - [Dial], [Origin]: protocol/peer_client.go with the clock: the dial functions and the
      deadlines of a request; protocol/protocol.go: the source and the address of a peer in
      the context of its connection.
    - [Reflector], [ReflectorSpec], [ReflectorUpload]: protocol/reflector.go,
      reflector_client.go and reflector_messages.go.  The server that receives blobs, the
      client that uploads them, and the two ends together.
    - [Claim]: claim/claim.go over interfaces of the protocol buffers and of btcec: claims,
      their signatures and their values.
    - [StreamReader], [StreamReaderSpec], [StreamReaderLive], [StreamAcquirer],
      [StreamAcquirerSpec]: client/stream_acquirer.go and client/errors.go.  The reader with
      its cache, its prefetcher as steps that come in between, retries; the acquirer with
      its fallback from the store to the network, options, builder and factory.
    - [ClientError], [ReaderInfo]: the stream errors found in a chain of wrapped errors; the
      size a reader reports before all blobs are known, and its progress.
    - [Watchdog], [DhtNode], [DhtNodeSpec]: protocol/watchdog/dht_watchdog.go, protocol/dht.go,
      dht_node.go and network_crawler.go.  Caches with the clock as an argument; the options
      of a node and its lifecycle, in which the goroutines that wait for the join, the parts
      of a shutdown outside the lock and the callers that wait are steps of a history, around
      a wait group that may panic.
    - [Manager], [ManagerSpec], [Server], [ServerSpec]: acquirer.go, protocol/dht_announcer.go,
      dht_notifier.go and server/server.go.  Acquiring, adding and removing blobs and what
      the DHT is told; the sockets and goroutines of a server over its starts and stops.
    - [DhtBuilder], [ServerBuilder], [ServerBuilderSpec]: server/dht_builder.go and
      server/builder.go.  The fluent calls as functions on the builders, the validation of
      addresses, and what is built and started after any sequence of calls.
    - [Hosting]: encoder, blob manager, DHT node and peer protocol together.
    - [Electrum], [ElectrumSpec]: electrum/.  Requests, responses, the typed calls over a
      transport of the caller, and script hashes; a hub as their specification.

    ** What the theorems show

    Streams: encoding any source and decoding the stream gives the source back;
    encoding again with the descriptor's key and IVs gives the same blobs; the result
    of [Encode] and of the creator describes the stream exactly; descriptors survive
    serialisation in both orders, and validation decides a written-out specification.
    Blobs: encryption and decryption are inverse and padded chunks fit the size limit.
    Chain: scripts give back the value they were built with, transactions carry what
    was asked for and are signed at every input, claim IDs print and parse.
    Coin selection: the search is optimal when its tries cover the tree, sound always,
    and the strategies fund a target exactly when it can be funded.
    Stores: a successful write is readable until its hash is written again, listings
    are complete, disk writes are atomic under faults and cancellation, paths stay
    below the base, and the two stores are interchangeable on lower-case hashes; where
    their answers differ is stated.
    Errors: wrapping an error that is not one of pkg/errors with a stack trace changes
    neither its text nor what it matches, and unwrapping ends; a factory of stores is made
    with its options applied and a logger.
    Wallet: deriving from the public part of a key gives the public part of the child,
    phrases carry their number, and marking an address used keeps the gap.
    Downloads: whatever the schedule, callers that are given data are given the same
    verified data; an error comes only after every peer within the limit was tried; the
    goroutines take a bounded number of steps, the polls of the owner apart, and undisturbed
    and fairly scheduled ones reach the end; every step is a step of a write-once cell; the
    coordinator of the requests answers by the history of calls; no client is shared or lost, no two downloads run for one hash;
    discovery retries as configured and its delays are bounded; the objects of a downloader
    behave as the settings they are abstracted to, and every worker of a pool is accounted
    for.
    Peer protocol: no proper prefix of a message is a message, so messages are framed
    exactly; a session returns what the server's store, protector and access control
    say; a server tells nothing else, whatever it is sent; an encoded stream held by a
    server is fetched whole and decodes to its source; with the
    times forgotten a request under deadlines is that request, and each of its writes and
    reads is under the sooner of the context's deadline and the client's, worked out anew
    for each of them.
    Reflector: a server stores only verified blobs, whatever it is sent; a client's uploads
    to it leave every blob in its store.
    Claims: signed claims verify with the channel's key after a round trip through a script.
    Client: reads return the plaintext in order whatever the world and the other goroutines
    do; what is acquired with verification matches its hashes; an encoded stream is read
    back whole; the size a reader reports is the content's once all blobs are known and
    exceeds it by less than a chunk before, and its progress goes from 0 to 1.
    DHT: the watchdog answers from its history and leaves failed contacts alone; no history
    of a node closes a channel twice, its wait group panics only when a restart or a start
    overtakes calls under way, and a shutdown lets go all who wait; configurations are sound.
    Server: a start opens all its ports or none, or panics at a protocol with settings that
    are refused; the node announces what the store holds; a blob is acquired from the store
    first; whatever was called on a builder, what it builds starts, or panics because the DHT
    is to announce a port above 65535.
    Together: a stream that is added to a server is announced to the DHT and fetched by a
    peer, who decodes it to the source.
    Electrum: the typed calls return what the hub has, values and errors; a script hash is
    the reversed hash of the script.
    Some theorems state defects: the fixed peers are not tried after the others have
    failed ([no_fallback_after_failure]), callers are left waiting
    ([orphaned_callers_hang]), discarded tasks are waited for for ever
    ([abandoned_blocks_completion]), delays overflow ([backoff_overflow]), a limit is
    truncated ([max_peers_truncated]), a peer can make the client panic
    ([hostile_length_panics]), a seek into the padding of a blob makes the next read panic
    ([seek_into_padding_panics]), a restarted node has a dead watchdog
    ([restart_keeps_dead_watchdog]), a shutdown forgets a later join
    ([late_shutdown_forgets_join]), a restart that overtakes a shutdown makes the wait group
    panic ([early_restart_panics]), a waiter misses the join of a restarted node
    ([stale_waiter_misses_join]), a dead port is kept ([dead_port_kept]), a second start
    orphans the sockets of the first ([second_start_orphans]), a server with a given
    node cannot be started twice ([existing_node_no_restart]), the DHT announces the default
    peer port whatever was configured ([announced_port_ignored]), a DHT port out of range
    makes the start panic ([bad_dht_port_panics]), a fixed peer port is lost
    ([fixed_port_lost]) and seed nodes come back ([seedless_node_joins]); decoding a descriptor without blobs panics, the
    pagination of a listing overflows, a dial function is never called
    ([dial_func_unused]), a client with a time-out of zero can ask for nothing
    ([zero_timeout_expires]), stopping a downloader leaves workers behind
    ([stop_leaves_workers]), a cause loses its identity ([causer_identity_lost]), a failed address derivation is reported as a
    nil address without an error, and ([stream_type_colon_changes]) a stream type with
    a colon is changed by serialisation.

    ** Bounds and fuel

    Sources are shorter than 2^63 - 1 bytes, so that the 64-bit counters of the
    encoder do not wrap; the amounts of a coin selection are bounded so that their sum
    fits 64 bits ([inRange]).  The reading loops take one round per event of the
    source, the JSON parser the length of the text, the chunked disk writes and reads
    the number of bytes, a mnemonic the bits of its number; the search takes the
    code's own number of tries.  The loops over a connection take a byte of the input in
    every turn but the last, so its length is enough fuel; messages are at most
    64 KiB long, the code's own limit.  Reading a stream to its end takes at most a read for
    every byte and every blob; announcing a store a turn for every blob and one more.  A schedule of the download machine is a list of
    events of any length, or an endless sequence: its theorems are about all of them.
    A history of a coordinator has fewer than 2^31 calls, so that its 32-bit counters do
    not wrap.  The numbers of contacts
    are below 2^31 where the code counts them in 32 bits, and the retries below 2^63 - 1.
    The search for a new seed has no bound in the code:
    its lemma says what it returns when it ends, and that it never ends in an error of
    its own.

    ** Not modelled

    Logging and the adapters between logging libraries; generated protocol buffers, generated
    mocks and test support; the values of the network parameters; the interfaces of
    stream/reader.go, which have no code.  Except in
    the watchdog, the reader and [Dial] the clock does not occur: a context is cancelled from the
    n-th time it is asked on, for any n, and a time-out is an event that may happen at any
    moment.  Locks: an operation
    that runs under one is atomic; where the code shares state without one (the download
    machine, the DHT node around its lock), every access is a step of its own, except that stopping an executor and
    replacing its pool are one step each, as is the owner's look at the executor before
    it submits.  The worker pool and sync.Pool behave as documented: a stopped pool runs
    no queued task, and sync.Pool returns any pooled client or makes one.
    The stack traces that errors are wrapped with are left out, except in [Trace], whose
    theorems say what they change.
    The tickers and the concrete clock of the watchdog and the reader: the times at which
    operations run are arguments.  The textual dumps of a node's routing table. *)
From stdpp Require Import base tactics list numbers strings countable gmap.
From Stdlib Require Import ZArith Lia Strings.Byte.

(** ** Go values

    A Go [byte] is [Byte.byte]; a Go [string] and a Go [[]byte] are both
    [list byte] (a Go string is an immutable byte sequence; [nil] and the empty
    slice have the same length, elements and comparisons in the modelled code).
    Machine integers are [Z] with the wrap-around written out. *)
Abbreviation bytes := (list byte).

Declare Scope go_scope.
Delimit Scope go_scope with go.

(** *** Results: a value, an error value, or a run-time panic *)

(** The package-level error variables the modelled code compares against. *)
Inductive sentinel :=
  | ErrBlobNotFound | ErrBlobExists | ErrInvalidHash | ErrInvalidSize
  | ErrStreamCorrupted | ErrAccessDenied | ErrInvalidManifest | ErrHashMismatch
  | ErrConnectionFailed | ErrTimeout | ErrInvalidConfig | ErrRequestTooLarge
  | ErrInvalidData | ErrInvalidHashLen | ErrBlobProtected | ErrNoBlobData
  | ErrAlreadyConnected | ErrServerValidation | ErrAcquisitionFailed
  | ErrInvalidOffset | ErrInvalidLimit | ErrEndOfList
  | ErrBlobTooBig | ErrBlobEmpty
  | ErrInvalidSDBlob
  | EOF | ErrUnexpectedEOF | Canceled | DeadlineExceeded | ErrClosedPipe
  | Client_ErrStreamNotFound | Client_ErrBlobAcquisition | Client_ErrStreamCorrupted
  | Client_ErrInvalidHash | Client_ErrDecryptionFailed | Client_ErrContextCancelled | Client_ErrNotSDBlob.

#[export] Instance sentinel_eq_dec : EqDecision sentinel.
Proof. solve_decision. Defined.

(** An error built on the spot is kept by its format string ([EMsg]); an error
    wrapped with [%w] keeps its cause ([EWrap]).  The arguments interpolated in
    the text are not modelled: no modelled code branches on them. *)
Inductive error :=
  | ESent (s : sentinel)
  | EMsg (fmt : string)
  | EWrap (fmt : string) (cause : error).

#[export] Instance error_eq_dec : EqDecision error.
Proof. solve_decision. Defined.

Inductive result (A : Type) :=
  | Ok (a : A)
  | Err (e : error)
  | Panic (why : string).
Arguments Ok {A} a.
Arguments Err {A} e.
Arguments Panic {A} why.

#[export] Instance result_eq_dec `{EqDecision A} : EqDecision (result A).
Proof. solve_decision. Defined.

#[export] Instance result_ret : MRet result := fun A a => Ok a.
#[export] Instance result_bind : MBind result := fun A B f m =>
  match m with Ok a => f a | Err e => Err e | Panic w => Panic w end.

Definition is_ok {A} (m : result A) : bool :=
  match m with Ok _ => true | _ => false end.

(** Wrap the error of a fallible call with a format string ([fmt.Errorf] and [%w]). *)
Definition wrap_err {A} (fmt : string) (m : result A) : result A :=
  match m with Err e => Err (EWrap fmt e) | _ => m end.

(** [errors.Is] on the chain of [%w] causes. *)
Fixpoint error_is (e : error) (s : sentinel) : bool :=
  match e with
  | ESent t => bool_decide (t = s)
  | EMsg _ => false
  | EWrap _ c => error_is c s
  end.

Lemma bind_Ok {A B} (f : A -> result B) m b :
  (m ≫= f) = Ok b <-> exists a, m = Ok a /\ f a = Ok b.
Proof. destruct m; split; naive_solver. Qed.

Lemma wrap_err_Ok {A} fmt (m : result A) a : wrap_err fmt m = Ok a <-> m = Ok a.
Proof. destruct m; split; naive_solver. Qed.

Lemma is_ok_true {A} (m : result A) : is_ok m = true <-> exists a, m = Ok a.
Proof. destruct m; split; naive_solver. Qed.

(** *** Bytes as numbers *)

Section bytes_Z.
Local Open Scope Z_scope.

Definition Z_of_byte (b : byte) : Z := Z.of_N (Byte.to_N b).

(** [byte(z)]: conversion to an 8-bit unsigned integer. *)
Definition byte_of_Z (z : Z) : byte :=
  match Byte.of_N (Z.to_N (z mod 256)) with Some b => b | None => x00 end.

Lemma Z_of_byte_range b : 0 <= Z_of_byte b < 256.
Proof.
  unfold Z_of_byte. pose proof (Byte.to_N_bounded b). lia.
Qed.

Lemma byte_of_Z_of_byte b : byte_of_Z (Z_of_byte b) = b.
Proof.
  unfold byte_of_Z. rewrite Z.mod_small by apply Z_of_byte_range.
  unfold Z_of_byte. by rewrite N2Z.id, Byte.of_to_N.
Qed.

Lemma Z_of_byte_of_Z z : Z_of_byte (byte_of_Z z) = z mod 256.
Proof.
  unfold byte_of_Z, Z_of_byte.
  pose proof (Z.mod_pos_bound z 256 ltac:(lia)).
  destruct (Byte.of_N _) eqn:E.
  - apply Byte.to_of_N in E. rewrite E. lia.
  - apply Byte.of_N_None_iff in E. lia.
Qed.

Lemma Z_of_byte_of_Z_small z : 0 <= z < 256 -> Z_of_byte (byte_of_Z z) = z.
Proof. intros. by rewrite Z_of_byte_of_Z, Z.mod_small. Qed.

Lemma Z_of_byte_inj b c : Z_of_byte b = Z_of_byte c -> b = c.
Proof. intros E. by rewrite <- (byte_of_Z_of_byte b), E, byte_of_Z_of_byte. Qed.
End bytes_Z.

#[export] Instance byte_eq_dec : EqDecision byte := Byte.byte_eq_dec.
#[export] Instance byte_countable : Countable byte :=
  inj_countable Byte.to_N Byte.of_N Byte.of_to_N.

(** Go string literals. *)
Definition go (s : string) : bytes := String.list_byte_of_string s.

(** *** Machine integers *)

Section ints.
Local Open Scope Z_scope.

(** [int] and [int64] are 64 bits wide and signed. *)
Definition int64 (z : Z) : Z := (z + 2 ^ 63) mod 2 ^ 64 - 2 ^ 63.
Definition uint32 (z : Z) : Z := z mod 2 ^ 32.
Definition int32 (z : Z) : Z := (z + 2 ^ 31) mod 2 ^ 32 - 2 ^ 31.

Definition in_int64 (z : Z) : Prop := - 2 ^ 63 <= z < 2 ^ 63.

Lemma int64_id z : in_int64 z -> int64 z = z.
Proof. unfold in_int64, int64. intros. rewrite Z.mod_small; lia. Qed.

Lemma int64_range z : in_int64 (int64 z).
Proof.
  unfold in_int64, int64.
  pose proof (Z.mod_pos_bound (z + 2 ^ 63) (2 ^ 64) ltac:(lia)). lia.
Qed.

Lemma int64_add_mod a b : int64 (int64 a + b) = int64 (a + b).
Proof.
  unfold int64. f_equal.
  replace ((a + 2 ^ 63) mod 2 ^ 64 - 2 ^ 63 + b + 2 ^ 63)
    with ((a + 2 ^ 63) mod 2 ^ 64 + b) by lia.
  rewrite Zplus_mod_idemp_l. f_equal. lia.
Qed.

Lemma int32_id z : - 2 ^ 31 <= z < 2 ^ 31 -> int32 z = z.
Proof. unfold int32. intros. rewrite Z.mod_small; lia. Qed.

Lemma uint32_id z : 0 <= z < 2 ^ 32 -> uint32 z = z.
Proof. unfold uint32. intros. by rewrite Z.mod_small. Qed.
End ints.

Notation "a +i b" := (int64 (a + b)%Z) (at level 50, left associativity) : go_scope.
Notation "a -i b" := (int64 (a - b)%Z) (at level 50, left associativity) : go_scope.
Notation "a *i b" := (int64 (a * b)%Z) (at level 40, left associativity) : go_scope.
Open Scope go_scope.

(** ** Automation *)

(** The lemmas that close the routine obligations of the components. *)
Create HintDb golib.
Create Rewrite HintDb golib.
#[export] Hint Resolve Z_of_byte_range int64_range : golib.
#[export] Hint Rewrite @bind_Ok @wrap_err_Ok : golib.

(** Invert a chain of binds that returned [Ok]. *)
Ltac inv_ok :=
  repeat match goal with
  | H : (_ ≫= _) = Ok _ |- _ => apply bind_Ok in H; destruct H as (? & ? & ?)
  | H : wrap_err _ _ = Ok _ |- _ => apply wrap_err_Ok in H
  | H : Ok _ = Ok _ |- _ => injection H as H
  | H : Err _ = Ok _ |- _ => discriminate H
  | H : Panic _ = Ok _ |- _ => discriminate H
  end; simplify_eq/=.

(** Case analysis on the boolean comparisons of the code. *)
Ltac bool_cases :=
  repeat match goal with
  | |- context [ (?a <=? ?b)%Z ] => destruct (Z.leb_spec a b)
  | |- context [ (?a <? ?b)%Z ] => destruct (Z.ltb_spec a b)
  | |- context [ (?a =? ?b)%Z ] => destruct (Z.eqb_spec a b)
  | H : context [ (?a <=? ?b)%Z ] |- _ => destruct (Z.leb_spec a b)
  | H : context [ (?a <? ?b)%Z ] |- _ => destruct (Z.ltb_spec a b)
  | H : context [ (?a =? ?b)%Z ] |- _ => destruct (Z.eqb_spec a b)
  end.

Lemma pow2_pos k : (1 <= 2 ^ k)%nat.
Proof. pose proof (Nat.pow_nonzero 2 k). lia. Qed.

(** ** Shared list operations *)

Section lists.
Local Open Scope Z_scope.
Context {A : Type}.

Definition sumZ (f : A -> Z) (l : list A) : Z := foldr (fun x s => f x + s) 0 l.

Lemma sumZ_app f l k : sumZ f (l ++ k) = sumZ f l + sumZ f k.
Proof. induction l as [|x l IH]; simpl; lia. Qed.

Lemma sumZ_nonneg f l : Forall (fun x => 0 <= f x) l -> 0 <= sumZ f l.
Proof. induction 1; simpl; lia. Qed.

Lemma sumZ_mono (f g : A -> Z) l : (forall x, f x <= g x) -> sumZ f l <= sumZ g l.
Proof. intros H. induction l as [|x l IH]; simpl; [done|]. specialize (H x). lia. Qed.

Lemma sumZ_perm f l k : l ≡ₚ k -> sumZ f l = sumZ f k.
Proof. induction 1; simpl; lia. Qed.

Lemma sumZ_sublist_le f l k :
  Forall (fun x => 0 <= f x) k -> l `sublist_of` k -> sumZ f l <= sumZ f k.
Proof.
  intros Hk Hs. induction Hs; simpl; [lia| |]; inversion Hk; subst.
  - specialize (IHHs ltac:(done)). lia.
  - specialize (IHHs ltac:(done)). lia.
Qed.

Lemma sublist_filter_all (P : A -> Prop) `{!forall x, Decision (P x)} l k :
  l `sublist_of` k -> Forall P l -> l `sublist_of` filter P k.
Proof.
  induction 1 as [|x l k Hs IH|x l k Hs IH]; intros Hf; [apply sublist_nil_l| |].
  - inversion Hf; subst. rewrite filter_cons_True by done. apply sublist_skip; auto.
  - rewrite filter_cons. case_decide; [apply sublist_cons|]; auto.
Qed.

Lemma submseteq_filter_all (P : A -> Prop) `{!forall x, Decision (P x)} l k :
  l ⊆+ k -> Forall P l -> l ⊆+ filter P k.
Proof.
  intros (l' & Hp & Hs)%submseteq_sublist_r Hf. rewrite Hp in Hf |- *.
  apply sublist_submseteq. by apply sublist_filter_all.
Qed.
End lists.

#[export] Hint Resolve sumZ_nonneg : golib.
