(* ===== verification/GoStd.v ===== *)
(** * The parts of Go's standard library the modelled code calls

    [sort.SliceStable], [encoding/hex], [encoding/binary], [strconv.Itoa] and
    [strconv.ParseInt], slice indexing, as executable functions with the lemmas
    the components use. *)
From stdpp Require Import base tactics list numbers sorting strings.
From Stdlib Require Import ZArith Lia Init.Byte.
From S2P Require Import Prelude.

(** ** Slices *)

(** [s[i]]: a run-time panic out of range. *)
Definition index {A} (l : list A) (i : nat) : result A :=
  match l !! i with Some x => Ok x | None => Panic "index out of range" end.

Lemma index_Ok {A} (l : list A) i x : index l i = Ok x <-> l !! i = Some x.
Proof. unfold index. destruct (l !! i); naive_solver. Qed.

(** ** [io.Reader]

    A reader is the finite sequence of what its [Read] calls deliver: data
    together with an error or none.  A chunk longer than the buffer is delivered
    in pieces; after the last event [Read] returns [0, io.EOF]. *)
Record event := mkEvent { ev_data : bytes; ev_err : option error }.
Abbreviation reader := (list event).

Definition Read (r : reader) (cap : Z) : bytes * option error * reader :=
  match r with
  | [] => ([], Some (ESent EOF), [])
  | e :: r' =>
      if (Z.of_nat (length (ev_data e)) <=? cap)%Z then (ev_data e, ev_err e, r')
      else (take (Z.to_nat cap) (ev_data e), None,
            mkEvent (drop (Z.to_nat cap) (ev_data e)) (ev_err e) :: r')
  end.

(** [io.ReadAll], [io.Copy]: everything up to [io.EOF], or the first other error. *)
Fixpoint readAll (r : reader) : result bytes :=
  match r with
  | [] => Ok []
  | e :: r' =>
      match ev_err e with
      | None => rest ← readAll r'; Ok (ev_data e ++ rest)
      | Some err => if decide (err = ESent EOF) then Ok (ev_data e) else Err err
      end
  end.

(** A source that delivers [data] in one piece and then ends ([bytes.NewReader]). *)
Definition bytesReader (data : bytes) : reader := [mkEvent data None].

(** ** [sort.SliceStable] *)

Section sort_stable.
Context {A : Type} (less : A -> A -> bool).

Fixpoint insert_stable (x : A) (l : list A) : list A :=
  match l with
  | [] => [x]
  | y :: ys => if less y x then y :: insert_stable x ys else x :: y :: ys
  end.

Definition sort_stable (l : list A) : list A := foldr insert_stable [] l.

Lemma insert_stable_perm x l : insert_stable x l ≡ₚ x :: l.
Proof.
  induction l as [|y l IH]; simpl; [done|].
  destruct (less y x); [|done]. rewrite IH. constructor.
Qed.

Lemma sort_stable_perm l : sort_stable l ≡ₚ l.
Proof. induction l as [|x l IH]; simpl; [done|]. by rewrite insert_stable_perm, IH. Qed.

(** No later element is strictly before an earlier one. *)
Definition ordered : list A -> Prop := StronglySorted (fun x y => less y x = false).

Hypothesis less_asym : forall x y, less x y = true -> less y x = false.
Hypothesis less_neg_trans :
  forall x y z, less y x = false -> less z y = false -> less z x = false.

Lemma insert_stable_ordered x l : ordered l -> ordered (insert_stable x l).
Proof.
  induction 1 as [|y l Hs IH Hf]; simpl.
  { repeat constructor. }
  destruct (less y x) eqn:E; constructor.
  - exact IH.
  - rewrite insert_stable_perm. constructor; [by apply less_asym|done].
  - by constructor.
  - constructor; [done|]. eapply Forall_impl; [exact Hf|].
    intros z Hz. simpl in *. by eapply less_neg_trans.
Qed.

Lemma sort_stable_ordered l : ordered (sort_stable l).
Proof.
  induction l as [|x l IH]; simpl; [constructor|]. by apply insert_stable_ordered.
Qed.
End sort_stable.

(** ** [encoding/hex] *)

Section hex.
Local Open Scope Z_scope.

(** The lower-case digit of a value in [0..15]. *)
Definition hex_digit (d : Z) : byte :=
  if d <? 10 then byte_of_Z (48 + d) else byte_of_Z (87 + d).

(** The value of a hexadecimal digit of either case. *)
Definition hex_value (c : byte) : option Z :=
  let z := Z_of_byte c in
  if (48 <=? z) && (z <=? 57) then Some (z - 48)
  else if (97 <=? z) && (z <=? 102) then Some (z - 87)
  else if (65 <=? z) && (z <=? 70) then Some (z - 55)
  else None.

Definition EncodeToString (b : bytes) : bytes :=
  b ≫= fun c => [hex_digit (Z_of_byte c / 16); hex_digit (Z_of_byte c mod 16)].

(** [hex.DecodeString]: an odd length or a character that is not a digit is an error. *)
Fixpoint DecodeString (s : bytes) : result bytes :=
  match s with
  | [] => Ok []
  | [c] => Err (EMsg "encoding/hex")
  | c :: d :: s' =>
      match hex_value c, hex_value d with
      | Some h, Some l => r ← DecodeString s'; Ok (byte_of_Z (16 * h + l) :: r)
      | _, _ => Err (EMsg "encoding/hex")
      end
  end.

Definition is_lower_hex (c : byte) : bool :=
  let z := Z_of_byte c in
  ((48 <=? z) && (z <=? 57)) || ((97 <=? z) && (z <=? 102)).

Lemma hex_value_digit d : 0 <= d < 16 -> hex_value (hex_digit d) = Some d.
Proof.
  intros Hd. unfold hex_digit, hex_value.
  destruct (Z.ltb_spec d 10); rewrite Z_of_byte_of_Z_small by lia;
    repeat (case_match; try lia; try (f_equal; lia)).
Qed.

Lemma is_lower_hex_digit d : 0 <= d < 16 -> is_lower_hex (hex_digit d) = true.
Proof.
  intros Hd. unfold is_lower_hex, hex_digit.
  destruct (Z.ltb_spec d 10); rewrite Z_of_byte_of_Z_small by lia; lia.
Qed.

Lemma nibbles b : let z := Z_of_byte b in
  0 <= z / 16 < 16 /\ 0 <= z mod 16 < 16 /\ 16 * (z / 16) + z mod 16 = z.
Proof.
  pose proof (Z_of_byte_range b). simpl.
  pose proof (Z.div_mod (Z_of_byte b) 16 ltac:(lia)).
  pose proof (Z.mod_pos_bound (Z_of_byte b) 16 ltac:(lia)). lia.
Qed.

Lemma DecodeString_EncodeToString b : DecodeString (EncodeToString b) = Ok b.
Proof.
  induction b as [|c b IH]; [done|].
  change (EncodeToString (c :: b)) with
    (hex_digit (Z_of_byte c / 16) :: hex_digit (Z_of_byte c mod 16) :: EncodeToString b).
  simpl. destruct (nibbles c) as (? & ? & E).
  rewrite !hex_value_digit by done. rewrite IH. simpl.
  by rewrite E, byte_of_Z_of_byte.
Qed.

Lemma length_EncodeToString b : length (EncodeToString b) = (2 * length b)%nat.
Proof. induction b as [|c b IH]; [done|]. simpl in *. lia. Qed.

Lemma EncodeToString_lower b : Forall (fun c => is_lower_hex c = true) (EncodeToString b).
Proof.
  induction b as [|c b IH]; [constructor|].
  destruct (nibbles c) as (? & ? & _).
  simpl. repeat constructor; try (by apply is_lower_hex_digit). exact IH.
Qed.

Lemma EncodeToString_nil b : EncodeToString b = [] <-> b = [].
Proof. destruct b; naive_solver. Qed.

(** Decoding yields half as many bytes as there are digits. *)
Lemma DecodeString_length s b :
  DecodeString s = Ok b -> length s = (2 * length b)%nat.
Proof.
  revert b. induction s as [s IH] using (induction_ltof1 _ (@length byte)).
  destruct s as [|c [|d s]]; simpl; intros b Hb; [by inv_ok|done|].
  repeat case_match; try discriminate. inv_ok.
  simpl. rewrite (IH s) with (b := x); [lia| |done].
  unfold ltof. simpl. lia.
Qed.

Lemma DecodeString_no_panic s w : DecodeString s <> Panic w.
Proof.
  induction s as [s IH] using (induction_ltof1 _ (@length byte)).
  destruct s as [|c [|d s]]; simpl; [done|done|].
  repeat case_match; try done. specialize (IH s ltac:(unfold ltof; simpl; lia)).
  destruct (DecodeString s); simpl; congruence.
Qed.

(** Lower-case digits of even number decode, and encode back to themselves. *)
Lemma hex_digit_value c : is_lower_hex c = true ->
  exists d, hex_value c = Some d /\ 0 <= d < 16 /\ hex_digit d = c.
Proof.
  unfold is_lower_hex, hex_value. intros H. pose proof (Z_of_byte_range c).
  destruct ((48 <=? Z_of_byte c) && (Z_of_byte c <=? 57)) eqn:E1.
  - eexists. split; [done|]. split; [lia|]. unfold hex_digit.
    rewrite (proj2 (Z.ltb_lt _ _)) by lia.
    replace (48 + (Z_of_byte c - 48)) with (Z_of_byte c) by lia. apply byte_of_Z_of_byte.
  - rewrite orb_false_l in H. rewrite H. eexists. split; [done|]. split; [lia|]. unfold hex_digit.
    rewrite (proj2 (Z.ltb_ge _ _)) by lia.
    replace (87 + (Z_of_byte c - 87)) with (Z_of_byte c) by lia. apply byte_of_Z_of_byte.
Qed.

Lemma DecodeString_lower s :
  Forall (fun c => is_lower_hex c = true) s -> (exists n, length s = (2 * n)%nat) ->
  exists b, DecodeString s = Ok b.
Proof.
  induction s as [s IH] using (induction_ltof1 _ (@length byte)). intros Hf [n Hn].
  destruct s as [|c [|d s]]; simpl in *; [eauto|lia|].
  apply Forall_cons in Hf as [Hc Hf]. apply Forall_cons in Hf as [Hd Hf].
  destruct (hex_digit_value c Hc) as (h & -> & _). destruct (hex_digit_value d Hd) as (l & -> & _).
  destruct (IH s) as [b ->]; [unfold ltof; simpl; lia|done|exists (n - 1)%nat; lia|].
  simpl. eauto.
Qed.

Lemma EncodeToString_DecodeString s b :
  Forall (fun c => is_lower_hex c = true) s -> DecodeString s = Ok b -> EncodeToString b = s.
Proof.
  revert b. induction s as [s IH] using (induction_ltof1 _ (@length byte)). intros b Hf E.
  destruct s as [|c [|d s]]; simpl in E; [by inv_ok|done|].
  apply Forall_cons in Hf as [Hc Hf]. apply Forall_cons in Hf as [Hd Hf].
  destruct (hex_digit_value c Hc) as (h & Eh & Hh & <-).
  destruct (hex_digit_value d Hd) as (l & El & Hl & <-).
  rewrite Eh, El in E. inv_ok.
  change (EncodeToString (?b :: ?r)) with
    (hex_digit (Z_of_byte b / 16) :: hex_digit (Z_of_byte b mod 16) :: EncodeToString r).
  rewrite (IH s) by (done || unfold ltof; simpl; lia).
  rewrite Z_of_byte_of_Z_small by lia.
  rewrite (Z.mul_comm 16), Z.div_add_l, (Z.div_small l), Z.add_0_r by lia.
  rewrite Z.add_comm, Z_mod_plus_full, Z.mod_small by lia. done.
Qed.
End hex.

#[export] Hint Rewrite DecodeString_EncodeToString length_EncodeToString : golib.

(** ** [encoding/binary] *)

Section binary.
Local Open Scope Z_scope.

(** Big-endian, [n] bytes. *)
Fixpoint be_bytes (n : nat) (z : Z) : bytes :=
  match n with
  | O => []
  | S n' => be_bytes n' (z / 256) ++ [byte_of_Z z]
  end.

Definition be_Z (b : bytes) : Z := foldl (fun acc c => 256 * acc + Z_of_byte c) 0 b.
Definition le_Z (b : bytes) : Z := foldr (fun c acc => Z_of_byte c + 256 * acc) 0 b.

Definition PutUint32BE (v : Z) : bytes := be_bytes 4 v.

Lemma length_be_bytes n z : length (be_bytes n z) = n.
Proof. revert z. induction n; intros z; simpl; [done|]. rewrite length_app, IHn. simpl. lia. Qed.

Lemma be_Z_snoc b c : be_Z (b ++ [c]) = 256 * be_Z b + Z_of_byte c.
Proof. unfold be_Z. by rewrite foldl_app. Qed.

Lemma be_Z_be_bytes n z : 0 <= z -> be_Z (be_bytes n z) = z mod 256 ^ Z.of_nat n.
Proof.
  revert z. induction n as [|n IH]; intros z Hz.
  { simpl. by rewrite Z.mod_1_r. }
  simpl be_bytes. rewrite be_Z_snoc, IH by (apply Z.div_pos; lia).
  rewrite Z_of_byte_of_Z, Nat2Z.inj_succ, Z.pow_succ_r by lia.
  rewrite Z.rem_mul_r by (try apply Z.pow_nonzero; lia). lia.
Qed.

Lemma be_Z_range b : 0 <= be_Z b < 256 ^ Z.of_nat (length b).
Proof.
  induction b as [|c b IH] using rev_ind; [done|].
  rewrite be_Z_snoc, length_app. simpl length.
  rewrite Nat2Z.inj_add, Z.pow_add_r by lia.
  pose proof (Z_of_byte_range c). simpl (256 ^ Z.of_nat 1). lia.
Qed.

Lemma be_bytes_be_Z b : be_bytes (length b) (be_Z b) = b.
Proof.
  induction b as [|c b IH] using rev_ind; [done|].
  rewrite length_app, Nat.add_comm, be_Z_snoc. simpl be_bytes.
  pose proof (Z_of_byte_range c).
  rewrite (Z.mul_comm 256), Z.div_add_l, (Z.div_small (Z_of_byte c)) by lia.
  rewrite Z.add_0_r, IH. f_equal. f_equal.
  apply Z_of_byte_inj. rewrite Z_of_byte_of_Z.
  rewrite Z.add_comm, Z_mod_plus_full. by rewrite Z.mod_small.
Qed.

Lemma le_Z_range b : 0 <= le_Z b < 256 ^ Z.of_nat (length b).
Proof.
  induction b as [|c b IH]; [done|]. simpl length.
  rewrite Nat2Z.inj_succ, Z.pow_succ_r by lia.
  unfold le_Z in *; simpl. pose proof (Z_of_byte_range c). lia.
Qed.
End binary.

(** ** [strconv] *)

Section strconv.
Local Open Scope Z_scope.

Definition dec_digit (d : Z) : byte := byte_of_Z (48 + d).

Definition is_digit (c : byte) : bool :=
  let z := Z_of_byte c in (48 <=? z) && (z <=? 57).

(** The decimal digits of [n], most significant first, in front of [acc]. *)
Fixpoint digits (fuel : nat) (n : Z) (acc : bytes) : bytes :=
  match fuel with
  | O => acc
  | S fuel' =>
      let acc := dec_digit (n mod 10) :: acc in
      if n <? 10 then acc else digits fuel' (n / 10) acc
  end.

(** [strconv.Itoa]: an [int] has at most nineteen decimal digits. *)
Definition Itoa (n : Z) : bytes :=
  if n <? 0 then x2d :: digits 19 (- n) [] else digits 19 n [].

Definition decimal (s : bytes) : Z := foldl (fun acc c => 10 * acc + (Z_of_byte c - 48)) 0 s.

(** [strconv.ParseInt(s, 10, 64)] *)
Definition ParseInt (s : bytes) : result Z :=
  let '(neg, ds) :=
    match s with
    | c :: s' => if decide (c = x2d) then (true, s') else if decide (c = x2b) then (false, s') else (false, s)
    | [] => (false, s)
    end in
  if decide (ds = []) then Err (EMsg "strconv.ParseInt: invalid syntax")
  else if negb (forallb is_digit ds) then Err (EMsg "strconv.ParseInt: invalid syntax")
  else
    let n := if neg then - decimal ds else decimal ds in
    if (- 2 ^ 63 <=? n) && (n <? 2 ^ 63) then Ok n
    else Err (EMsg "strconv.ParseInt: value out of range").

Lemma is_digit_dec d : 0 <= d < 10 -> is_digit (dec_digit d) = true.
Proof. intros. unfold is_digit, dec_digit. rewrite Z_of_byte_of_Z_small by lia. lia. Qed.

Lemma digits_spec fuel n acc :
  0 <= n < 10 ^ Z.of_nat fuel -> (0 < fuel)%nat ->
  exists ds, digits fuel n acc = ds ++ acc /\ forallb is_digit ds = true /\ decimal ds = n
    /\ (exists c ds', ds = c :: ds' /\ (c = x30 -> ds' = [])).
Proof.
  revert n acc. induction fuel as [|fuel IH]; intros n acc Hn Hf; [lia|].
  pose proof (Z.mod_pos_bound n 10 ltac:(lia)). simpl digits.
  destruct (Z.ltb_spec n 10) as [Hlt|Hge].
  - exists [dec_digit (n mod 10)]. rewrite Z.mod_small by lia. split_and!; [done| | |].
    + simpl. rewrite is_digit_dec by lia. done.
    + unfold decimal, dec_digit. simpl. rewrite Z_of_byte_of_Z_small; lia.
    + by eexists _, [].
  - rewrite Nat2Z.inj_succ, Z.pow_succ_r in Hn by lia.
    destruct fuel as [|fuel]; [simpl in Hn; lia|].
    destruct (IH (n / 10) (dec_digit (n mod 10) :: acc)) as (ds & E & Hd & Hv & c & ds' & -> & H0).
    { split; [apply Z.div_pos; lia|apply Z.div_lt_upper_bound; lia]. } { lia. }
    exists ((c :: ds') ++ [dec_digit (n mod 10)]). rewrite E, <- app_assoc. split_and!; [done| | |].
    + rewrite forallb_app, Hd. simpl. rewrite is_digit_dec by lia. done.
    + unfold decimal in *. rewrite foldl_app, Hv. simpl. unfold dec_digit.
      rewrite Z_of_byte_of_Z_small by lia. pose proof (Z.div_mod n 10). lia.
    + eexists _, _. split; [reflexivity|]. intros ->. exfalso.
      rewrite H0 in Hv by done. unfold decimal in Hv. simpl in Hv.
      change (Z_of_byte x30) with 48 in Hv.
      pose proof (Z.div_le_lower_bound n 10 1 ltac:(lia) ltac:(lia)). lia.
Qed.

Lemma is_digit_range c : is_digit c = true -> 48 <= Z_of_byte c <= 57.
Proof. unfold is_digit. lia. Qed.

(** The shape of a printed number: a sign, then digits without a leading zero. *)
Lemma Itoa_shape n :
  in_int64 n ->
  exists c ds, Itoa n = (if n <? 0 then [x2d] else []) ++ c :: ds
    /\ forallb is_digit (c :: ds) = true /\ decimal (c :: ds) = Z.abs n /\ (c = x30 -> ds = []).
Proof.
  unfold in_int64. intros Hn. unfold Itoa.
  destruct (digits_spec 19 (Z.abs n) []) as (ds & E & Hd & Hv & c & ds' & -> & H0).
  { change (10 ^ Z.of_nat 19) with (10000000000000000000). lia. } { lia. }
  rewrite app_nil_r in E. exists c, ds'.
  destruct (Z.ltb_spec n 0).
  - rewrite Z.abs_neq in E by lia. by rewrite E.
  - rewrite Z.abs_eq in E by lia. by rewrite E.
Qed.

Lemma ParseInt_Itoa n : in_int64 n -> ParseInt (Itoa n) = Ok n.
Proof.
  intros Hn. destruct (Itoa_shape n Hn) as (c & ds & -> & Hd & Hv & _). unfold ParseInt.
  unfold in_int64 in Hn.
  assert (c <> x2d /\ c <> x2b) as [Hc1 Hc2].
  { simpl in Hd. apply andb_true_iff in Hd as [Hc%is_digit_range _].
    split; intros ->; vm_compute in Hc; destruct Hc; congruence. }
  destruct (Z.ltb_spec n 0); simpl app.
  - cbv beta iota. rewrite decide_True by done. rewrite decide_False by done. rewrite Hd, Hv. simpl.
    rewrite Z.abs_neq by lia. rewrite (proj2 (andb_true_iff _ _)) by lia. f_equal. lia.
  - cbv beta iota. rewrite !decide_False by done. rewrite Hd, Hv. simpl.
    rewrite Z.abs_eq by lia. by rewrite (proj2 (andb_true_iff _ _)) by lia.
Qed.

(** ** [strings.Replace(s, old, new, -1)] for an [old] of one byte *)

Definition replaceByte (old : byte) (new s : bytes) : bytes :=
  s ≫= fun b => if decide (b = old) then new else [b].

Lemma replaceByte_app old new s t :
  replaceByte old new (s ++ t) = replaceByte old new s ++ replaceByte old new t.
Proof. apply bind_app. Qed.

Lemma replaceByte_id old new s : old ∉ s -> replaceByte old new s = s.
Proof.
  induction s as [|b s IH]; intros Hn; [done|]. apply not_elem_of_cons in Hn as [Hb Hs].
  change (replaceByte old new (b :: s))
    with ((if decide (b = old) then new else [b]) ++ replaceByte old new s).
  rewrite decide_False by done. by rewrite IH.
Qed.
End strconv.

#[export] Hint Rewrite ParseInt_Itoa using done : golib.
