(* ===== verification/GoFloat.v ===== *)
(** * float64

    Conversions between 64-bit integers and floats, division and multiplication, on the
    specification of IEEE 754 arithmetic in Rocq's library.  Lemmas: integers below [2 ^ 53]
    are represented exactly, and so are products and quotients that are such integers. *)
From stdpp Require Import base tactics numbers.
From Stdlib Require Import ZArith Lia Floats.SpecFloat.
From S2P Require Import Prelude.
Local Open Scope Z_scope.

(** [float64(z)] *)
Definition float64 (z : Z) : spec_float := binary_normalize 53 1024 z 0 false.
Definition fdiv (x y : spec_float) : spec_float := SFdiv 53 1024 x y.
Definition fmul (x y : spec_float) : spec_float := SFmul 53 1024 x y.

(** [int64(f)]: the integer part; what is out of range becomes the least integer, as the
    amd64 instruction has it. *)
Definition truncate (f : spec_float) : Z :=
  let z :=
    match f with
    | S754_zero _ => 0
    | S754_finite s m e =>
        let v := if 0 <=? e then Zpos m * 2 ^ e else Zpos m / 2 ^ (- e) in
        if s then - v else v
    | _ => - 2 ^ 63
    end in
  if (- 2 ^ 63 <=? z) && (z <? 2 ^ 63) then z else - 2 ^ 63.

(** ** Exactness *)

Lemma digits_log2 p : Zpos (digits2_pos p) = Z.log2 (Zpos p) + 1.
Proof.
  induction p as [p IH|p IH|]; [| |done]; simpl digits2_pos; rewrite Pos2Z.inj_succ, IH.
  - change (Zpos p~1) with (2 * Zpos p + 1). rewrite Z.log2_succ_double by lia. lia.
  - change (Zpos p~0) with (2 * Zpos p). rewrite Z.log2_double by lia. lia.
Qed.

Lemma digits_scaled m p n : 0 < m -> 0 <= n -> Zpos p = m * 2 ^ n -> Zpos (digits2_pos p) = Z.log2 m + 1 + n.
Proof. intros Hm Hn E. rewrite digits_log2, E, Z.log2_mul_pow2 by lia. lia. Qed.

Lemma iter_pos_nat {A} (f : A -> A) p x : iter_pos f p x = Nat.iter (Pos.to_nat p) f x.
Proof.
  revert x. induction p as [p IH|p IH|]; intros x; simpl iter_pos.
  - rewrite !IH, Pos2Nat.inj_xI, <- Nat.iter_add, Nat.iter_succ_r.
    f_equal. lia.
  - rewrite !IH, Pos2Nat.inj_xO, <- Nat.iter_add. f_equal. lia.
  - done.
Qed.

(** Shifting out zero bits loses nothing. *)
Lemma shr_1_double m : 0 < m -> shr_1 (Build_shr_record (2 * m) false false) = Build_shr_record m false false.
Proof. destruct m; [lia|done|lia]. Qed.

Lemma shr_exact m n e :
  0 < m -> 0 <= n ->
  shr (Build_shr_record (m * 2 ^ n) false false) e n = (Build_shr_record m false false, e + n).
Proof.
  intros Hm Hn. destruct n as [|p|p]; [|simpl|lia].
  - simpl. by rewrite Z.mul_1_r, Z.add_0_r.
  - f_equal. rewrite iter_pos_nat.
    replace (2 ^ Zpos p) with (2 ^ Z.of_nat (Pos.to_nat p)) by (f_equal; lia).
    induction (Pos.to_nat p) as [|k IH]; [by rewrite Z.mul_1_r|].
    rewrite Nat.iter_succ_r. replace (m * 2 ^ Z.of_nat (S k)) with (2 * (m * 2 ^ Z.of_nat k)).
    + rewrite shr_1_double by nia. apply IH.
    + rewrite Nat2Z.inj_succ, Z.pow_succ_r by lia. lia.
Qed.

(** The float of a positive integer below [2 ^ 53]: 53 bits of mantissa. *)
Definition exact (z : Z) : spec_float :=
  S754_finite false (Z.to_pos (z * 2 ^ (52 - Z.log2 z))) (Z.log2 z - 52).

Section Exact.
Variable z : Z.
Hypothesis Hz : 0 < z < 2 ^ 53.

Lemma log2_small : 0 <= Z.log2 z <= 52.
Proof. split; [apply Z.log2_nonneg|]. assert (Z.log2 z < 53) by (apply Z.log2_lt_pow2; lia). lia. Qed.

(** A value that is the integer [z], on a grid that is fine enough, is rounded to it. *)
Lemma round_exact p e :
  e <= Z.log2 z - 52 -> Zpos p = z * 2 ^ (- e) ->
  binary_round_aux 53 1024 false (Zpos p) e loc_Exact = exact z.
Proof.
  intros He Ep. pose proof log2_small as Hl.
  assert (Hd : Zpos (digits2_pos p) = Z.log2 z + 1 - e) by (rewrite (digits_scaled z p (- e)); lia).
  unfold binary_round_aux, shr_fexp. cbn [Zdigits2 shr_record_of_loc].
  rewrite Hd. replace (fexp 53 1024 (Z.log2 z + 1 - e + e) - e) with (Z.log2 z - 52 - e)
    by (unfold fexp, emin; lia).
  rewrite Ep. replace (z * 2 ^ (- e)) with (z * 2 ^ (52 - Z.log2 z) * 2 ^ (Z.log2 z - 52 - e))
    by (rewrite <- Z.mul_assoc, <- Z.pow_add_r by lia; f_equal; f_equal; lia).
  assert (Hm : 0 < z * 2 ^ (52 - Z.log2 z)) by (apply Z.mul_pos_pos; [lia|apply Z.pow_pos_nonneg; lia]).
  rewrite shr_exact by lia. cbn [shr_m loc_of_shr_record round_nearest_even].
  set (m := z * 2 ^ (52 - Z.log2 z)) in *.
  assert (Hm' : Zdigits2 m = 53).
  { unfold m. destruct (z * 2 ^ (52 - Z.log2 z)) as [|q|q] eqn:Eq; [lia| |lia].
    simpl. rewrite (digits_scaled z q (52 - Z.log2 z)); lia. }
  rewrite Hm'. replace (e + (Z.log2 z - 52 - e)) with (Z.log2 z - 52) by lia.
  replace (fexp 53 1024 (53 + (Z.log2 z - 52)) - (Z.log2 z - 52)) with 0 by (unfold fexp, emin; lia).
  cbn [shr]. unfold exact. fold m. destruct m as [|q|q]; [lia| |lia]. cbn [shr_m Z.to_pos].
  destruct (Z.leb_spec (Z.log2 z - 52) (1024 - 53)); [done|lia].
Qed.

Lemma truncate_exact : truncate (exact z) = z.
Proof.
  pose proof log2_small as Hl. unfold truncate, exact.
  assert (Hm : 0 < z * 2 ^ (52 - Z.log2 z)) by (apply Z.mul_pos_pos; [lia|apply Z.pow_pos_nonneg; lia]).
  rewrite Z2Pos.id by done.
  assert (E : (if 0 <=? Z.log2 z - 52 then z * 2 ^ (52 - Z.log2 z) * 2 ^ (Z.log2 z - 52)
             else z * 2 ^ (52 - Z.log2 z) / 2 ^ (- (Z.log2 z - 52))) = z).
  { destruct (Z.leb_spec 0 (Z.log2 z - 52)).
    - assert (Z.log2 z = 52) as -> by lia. lia.
    - replace (- (Z.log2 z - 52)) with (52 - Z.log2 z) by lia.
      apply Z.div_mul, Z.pow_nonzero; lia. }
  rewrite E. destruct (Z.leb_spec (- 2 ^ 63) z), (Z.ltb_spec z (2 ^ 63)); simpl; lia.
Qed.
End Exact.

Lemma iter_double p q : Zpos (Pos.iter xO p q) = Zpos p * 2 ^ Zpos q.
Proof.
  induction q as [|q IH] using Pos.peano_ind; [simpl; lia|].
  rewrite Pos.iter_succ, Pos2Z.inj_succ, Z.pow_succ_r by lia.
  change (Zpos (Pos.iter xO p q)~0) with (2 * Zpos (Pos.iter xO p q)). rewrite IH. lia.
Qed.

Lemma float64_exact z : 0 < z < 2 ^ 53 -> float64 z = exact z.
Proof.
  intros Hz. pose proof (log2_small z Hz) as Hl. unfold float64, binary_normalize.
  destruct z as [|p|p]; [lia| |lia]. unfold binary_round. rewrite digits_log2.
  replace (fexp 53 1024 (Z.log2 (Zpos p) + 1 + 0)) with (Z.log2 (Zpos p) - 52)
    by (unfold fexp, emin; lia).
  unfold shl_align. rewrite Z.sub_0_r.
  destruct (Z.log2 (Zpos p) - 52) as [|q|q] eqn:Eq; [|lia|].
  - apply round_exact; [done|lia|]. simpl. lia.
  - apply round_exact; [done|lia|]. rewrite iter_double. done.
Qed.

Lemma log2_mul_small a b : 0 < a -> 0 < b -> Z.log2 a + Z.log2 b <= Z.log2 (a * b) <= Z.log2 a + Z.log2 b + 1.
Proof. intros. split; [by apply Z.log2_mul_below|]. apply Z.log2_mul_above; lia. Qed.

Lemma mantissa_pos z : 0 < z < 2 ^ 53 -> Zpos (Z.to_pos (z * 2 ^ (52 - Z.log2 z))) = z * 2 ^ (52 - Z.log2 z).
Proof.
  intros Hz. pose proof (log2_small z Hz). apply Z2Pos.id, Z.mul_pos_pos; [lia|apply Z.pow_pos_nonneg; lia].
Qed.

Lemma mantissa_digits z : 0 < z < 2 ^ 53 -> Zdigits2 (z * 2 ^ (52 - Z.log2 z)) = 53.
Proof.
  intros Hz. pose proof (log2_small z Hz). rewrite <- (mantissa_pos z Hz). simpl.
  rewrite (digits_scaled z _ (52 - Z.log2 z)); [lia|lia|lia|by apply mantissa_pos].
Qed.

Lemma mantissa_range z : 0 < z < 2 ^ 53 -> 2 ^ 52 <= z * 2 ^ (52 - Z.log2 z) < 2 ^ 53.
Proof.
  intros Hz. pose proof (log2_small z Hz). destruct (Z.log2_spec z ltac:(lia)) as [Hl Hu].
  replace (2 ^ 52) with (2 ^ Z.log2 z * 2 ^ (52 - Z.log2 z)) by (rewrite <- Z.pow_add_r by lia; f_equal; lia).
  replace (2 ^ 53) with (2 ^ Z.succ (Z.log2 z) * 2 ^ (52 - Z.log2 z))
    by (rewrite <- Z.pow_add_r by lia; f_equal; lia).
  split; [apply Z.mul_le_mono_nonneg_r; lia|apply Z.mul_lt_mono_pos_r; [apply Z.pow_pos_nonneg; lia|done]].
Qed.

(** A product of integers that is below [2 ^ 53] is exact. *)
Lemma fmul_exact a b : 0 < a -> 0 < b -> a * b < 2 ^ 53 -> fmul (float64 a) (float64 b) = float64 (a * b).
Proof.
  intros Ha Hb Hab. assert (0 < a < 2 ^ 53 /\ 0 < b < 2 ^ 53) as [Ha' Hb'] by nia.
  rewrite !float64_exact by nia. unfold fmul, exact, SFmul. cbn [xorb].
  pose proof (log2_mul_small a b Ha Hb). pose proof (log2_small a Ha'). pose proof (log2_small b Hb').
  apply round_exact; [nia|lia|]. rewrite Pos2Z.inj_mul, !mantissa_pos by done.
  replace (- (Z.log2 a - 52 + (Z.log2 b - 52))) with ((52 - Z.log2 a) + (52 - Z.log2 b)) by lia.
  rewrite Z.pow_add_r by lia. lia.
Qed.

(** So is a quotient that comes out even. *)
Lemma fdiv_exact a b : 0 < a -> 0 < b -> a * b < 2 ^ 53 -> fdiv (float64 (a * b)) (float64 b) = float64 a.
Proof.
  intros Ha Hb Hab. assert (0 < a < 2 ^ 53 /\ 0 < b < 2 ^ 53) as [Ha' Hb'] by nia.
  rewrite !float64_exact by nia. unfold fdiv, exact at 1 2, SFdiv. cbn [xorb].
  pose proof (log2_mul_small a b Ha Hb) as Hl. pose proof (log2_small a Ha'). pose proof (log2_small b Hb').
  assert (Hab' : 0 < a * b < 2 ^ 53) by nia. pose proof (log2_small _ Hab').
  unfold SFdiv_core_binary. rewrite !mantissa_pos by done.
  rewrite !mantissa_digits by done.
  set (la := Z.log2 a) in *. set (lb := Z.log2 b) in *. set (lab := Z.log2 (a * b)) in *.
  replace (Z.min (fexp 53 1024 (53 + (lab - 52) - (53 + (lb - 52)))) (lab - 52 - (lb - 52)))
    with (lab - lb - 53) by (unfold fexp, emin; lia).
  replace (lab - 52 - (lb - 52) - (lab - lb - 53)) with 53 by lia. cbn iota.
  rewrite Z.shiftl_mul_pow2 by lia.
  assert (Hm : a * b * 2 ^ (52 - lab) * 2 ^ 53 = (a * 2 ^ (53 - lab + lb)) * (b * 2 ^ (52 - lb))).
  { replace (a * 2 ^ (53 - lab + lb) * (b * 2 ^ (52 - lb))) with (a * b * (2 ^ (53 - lab + lb) * 2 ^ (52 - lb))) by lia.
    rewrite <- !Z.mul_assoc. do 2 f_equal. rewrite <- !Z.pow_add_r by lia. f_equal. lia. }
  rewrite Hm. assert (Hb2 : 0 < b * 2 ^ (52 - lb)) by (apply Z.mul_pos_pos; [lia|apply Z.pow_pos_nonneg; lia]).
  pose proof (Z.div_mul (a * 2 ^ (53 - lab + lb)) (b * 2 ^ (52 - lb)) ltac:(lia)) as Hq.
  pose proof (Z.mod_mul (a * 2 ^ (53 - lab + lb)) (b * 2 ^ (52 - lb)) ltac:(lia)) as Hr.
  unfold Z.div, Z.modulo in Hq, Hr.
  destruct (Z.div_eucl _ _) as [q r]. subst q r.
  replace (new_location (b * 2 ^ (52 - lb)) 0) with loc_Exact by (unfold new_location; by destruct (Z.even _)).
  assert (Ha2 : 0 < a * 2 ^ (53 - lab + lb)) by (apply Z.mul_pos_pos; [lia|apply Z.pow_pos_nonneg; lia]).
  rewrite <- (Z2Pos.id (a * 2 ^ (53 - lab + lb))) by done.
  apply round_exact; [done|lia|]. rewrite Z2Pos.id by done. f_equal. f_equal. lia.
Qed.

Lemma truncate_float64 z : 0 < z < 2 ^ 53 -> truncate (float64 z) = z.
Proof. intros Hz. rewrite float64_exact by done. by apply truncate_exact. Qed.

(** ** Quotients below one *)

(** Rounding a mantissa of 53 or 54 bits: the result is finite, and its exponent grows by
    one more than the bits shifted out only if all the bits that are kept are set. *)
Lemma round_exponent q e l :
  2 ^ 52 <= q < 2 ^ 54 -> -1000 <= e <= 0 ->
  let n := if q <? 2 ^ 53 then 0 else 1 in
  exists m E, binary_round_aux 53 1024 false q e l = S754_finite false m E
    /\ (E = e + n \/ E = e + n + 1 /\ q / 2 ^ n = 2 ^ 53 - 1).
Proof.
  intros Hq He n. unfold binary_round_aux, shr_fexp.
  assert (Hd : Zdigits2 q = 53 + n).
  { destruct q as [|p|p]; [lia| |lia]. simpl. rewrite digits_log2. subst n.
    destruct (Z.ltb_spec (Zpos p) (2 ^ 53)).
    - rewrite (Z.log2_unique (Zpos p) 52); lia.
    - rewrite (Z.log2_unique (Zpos p) 53); lia. }
  rewrite Hd. assert (Hn : n = 0 \/ n = 1) by (subst n; destruct (q <? 2 ^ 53); auto).
  replace (fexp 53 1024 (53 + n + e) - e) with n by (unfold fexp, emin; lia).
  set (k := q / 2 ^ n).
  assert (Hk : 2 ^ 52 <= k < 2 ^ 53).
  { subst k n. destruct (Z.ltb_spec q (2 ^ 53)); [rewrite Z.pow_0_r, Z.div_1_r; lia|].
    change (2 ^ 1) with 2. split; [apply Z.div_le_lower_bound; lia|apply Z.div_lt_upper_bound; lia]. }
  destruct (shr (shr_record_of_loc q l) e n) as [mrs e1] eqn:Es.
  assert (Hs : shr_m mrs = k /\ e1 = e + n).
  { assert (Hm : shr_m (shr_record_of_loc q l) = q) by (destruct l as [|[]]; done).
    destruct Hn as [Hn|Hn]; rewrite Hn in *; simpl in Es; injection Es as <- <-; subst k; rewrite Hn.
    - by rewrite Hm, Z.add_0_r, Z.pow_0_r, Z.div_1_r.
    - split; [|done]. destruct (shr_record_of_loc q l) as [m r s]; simpl in Hm; subst m.
      change (2 ^ 1) with 2. destruct q as [|[p|p|]|]; try lia; simpl.
      + rewrite Pos2Z.inj_xI. apply Z.div_unique_pos with 1; lia.
      + rewrite Pos2Z.inj_xO. apply Z.div_unique_pos with 0; lia. }
  destruct Hs as [Hm ->].
  set (j := round_nearest_even (shr_m mrs) (loc_of_shr_record mrs)).
  assert (Hj : j = k \/ j = k + 1).
  { subst j. rewrite Hm. destruct (loc_of_shr_record mrs) as [|[]]; simpl; auto. destruct (Z.even k); auto. }
  destruct (Z.eq_dec j (2 ^ 53)) as [E53|Hj53].
  - rewrite E53. replace (Zdigits2 (2 ^ 53)) with 54 by done.
    replace (fexp 53 1024 (54 + (e + n)) - (e + n)) with 1 by (unfold fexp, emin; lia).
    change (2 ^ 53) with (2 ^ 52 * 2 ^ 1). cbn [shr_record_of_loc]. rewrite (shr_exact (2 ^ 52) 1) by lia.
    cbn [shr_m]. change (2 ^ 52) with (Zpos (2 ^ 52)%positive). cbn iota.
    destruct (Z.leb_spec (e + n + 1) (1024 - 53)); [|lia]. eexists _, _. split; [done|].
    right. split; [done|]. subst k. lia.
  - assert (Hj' : 2 ^ 52 <= j < 2 ^ 53) by lia.
    assert (Hdj : Zdigits2 j = 53).
    { destruct j as [|p|p]; [lia| |lia]. simpl. rewrite digits_log2, (Z.log2_unique (Zpos p) 52); lia. }
    rewrite Hdj. replace (fexp 53 1024 (53 + (e + n)) - (e + n)) with 0 by (unfold fexp, emin; lia).
    cbn [shr shr_record_of_loc shr_m]. destruct j as [|p|p]; [lia| |lia].
    destruct (Z.leb_spec (e + n) (1024 - 53)); [|lia]. eexists _, _. split; [done|by left].
Qed.

(** A proper fraction of integers below [2 ^ 53] is positive and does not round up to one. *)
Lemma fdiv_below_one a b :
  0 < a < b -> b < 2 ^ 53 ->
  exists m E, fdiv (float64 a) (float64 b) = S754_finite false m E /\ E <= -53.
Proof.
  intros Ha Hb. rewrite !float64_exact by lia. unfold fdiv, exact, SFdiv. cbn [xorb].
  pose proof (log2_small a ltac:(lia)) as Hla. pose proof (log2_small b ltac:(lia)) as Hlb.
  pose proof (Z.log2_le_mono a b ltac:(lia)) as Hab.
  pose proof (Z.log2_spec a ltac:(lia)) as Hsa. pose proof (Z.log2_spec b ltac:(lia)) as Hsb.
  unfold SFdiv_core_binary. rewrite !mantissa_pos, !mantissa_digits by lia.
  set (la := Z.log2 a) in *. set (lb := Z.log2 b) in *.
  replace (Z.min (fexp 53 1024 (53 + (la - 52) - (53 + (lb - 52)))) (la - 52 - (lb - 52)))
    with (la - lb - 53) by (unfold fexp, emin; lia).
  replace (la - 52 - (lb - 52) - (la - lb - 53)) with 53 by lia. cbn iota.
  rewrite Z.shiftl_mul_pow2 by lia.
  pose proof (mantissa_range a ltac:(lia)) as Hma. pose proof (mantissa_range b ltac:(lia)) as Hmb.
  fold la in Hma. fold lb in Hmb.
  set (q := a * 2 ^ (52 - la) * 2 ^ 53 / (b * 2 ^ (52 - lb))).
  assert (Hq : 2 ^ 52 <= q < 2 ^ 54).
  { split; [apply Z.div_le_lower_bound; lia|apply Z.div_lt_upper_bound; lia]. }
  assert (Hqb : q * b <= a * 2 ^ (53 + (lb - la))).
  { apply (Z.mul_le_mono_pos_r _ _ (2 ^ (52 - lb))); [apply Z.pow_pos_nonneg; lia|].
    replace (a * 2 ^ (53 + (lb - la)) * 2 ^ (52 - lb)) with (a * 2 ^ (52 - la) * 2 ^ 53)
      by (rewrite <- !Z.mul_assoc, <- !Z.pow_add_r by lia; f_equal; f_equal; lia).
    rewrite <- Z.mul_assoc, Z.mul_comm. apply Z.mul_div_le. lia. }
  assert (Hd : exists r, Z.div_eucl (a * 2 ^ (52 - la) * 2 ^ 53) (b * 2 ^ (52 - lb)) = (q, r)).
  { unfold q, Z.div. destruct (Z.div_eucl _ _); eauto. }
  destruct Hd as [r ->].
  destruct (round_exponent q (la - lb - 53) (new_location (b * 2 ^ (52 - lb)) r) Hq ltac:(lia))
    as (m & E & HE & Hcase).
  exists m, E. split; [done|]. clear HE.
  destruct (Z.ltb_spec q (2 ^ 53)) as [Hlt|Hge]; rewrite ?Z.pow_0_r, ?Z.pow_1_r, ?Z.div_1_r in Hcase.
  - assert (lb = la -> q <> 2 ^ 53 - 1); [|lia].
    intros -> ->. rewrite Z.sub_diag in Hqb. nia.
  - assert (lb <> la).
    { intros ->. rewrite Z.sub_diag in Hqb. nia. }
    assert (lb = la + 1 -> q / 2 <> 2 ^ 53 - 1); [|lia].
    intros El Eq. replace (53 + (lb - la)) with 54 in Hqb by lia.
    pose proof (Z.mul_div_le q 2 ltac:(lia)). nia.
Qed.

Definition fle (x y : spec_float) : bool := SFleb x y.
Definition flt (x y : spec_float) : bool := SFltb x y.

Lemma float64_one : float64 1 = S754_finite false (2 ^ 52)%positive (-52).
Proof. by vm_compute. Qed.

Lemma fdiv_fraction a b :
  0 < a < b -> b < 2 ^ 53 ->
  flt (float64 0) (fdiv (float64 a) (float64 b)) = true /\ flt (fdiv (float64 a) (float64 b)) (float64 1) = true.
Proof.
  intros Ha Hb. destruct (fdiv_below_one a b Ha Hb) as (m & E & -> & HE). split; [done|].
  rewrite float64_one. unfold flt, SFltb, SFcompare. by replace (E ?= -52) with Lt by (symmetry; apply Z.compare_lt_iff; lia).
Qed.

Lemma fdiv_self a : 0 < a < 2 ^ 53 -> fdiv (float64 a) (float64 a) = float64 1.
Proof. intros Ha. rewrite <- (Z.mul_1_l a) at 1. apply fdiv_exact; lia. Qed.

Lemma fdiv_zero b : 0 < b < 2 ^ 53 -> fdiv (float64 0) (float64 b) = float64 0.
Proof. intros Hb. by rewrite (float64_exact b). Qed.

Lemma flt_le x y : flt x y = true -> fle x y = true.
Proof. unfold flt, fle, SFltb, SFleb. by destruct (SFcompare x y) as [[]|]. Qed.

(** A fraction is between zero and one. *)
Lemma fdiv_range a b :
  0 <= a <= b -> 0 < b < 2 ^ 53 ->
  fle (float64 0) (fdiv (float64 a) (float64 b)) = true /\ fle (fdiv (float64 a) (float64 b)) (float64 1) = true.
Proof.
  intros Ha Hb. destruct (Z.eq_dec a 0) as [->|]; [by rewrite fdiv_zero|].
  destruct (Z.eq_dec a b) as [->|]; [by rewrite fdiv_self by lia|].
  destruct (fdiv_fraction a b) as [H1 H2]; [lia..|]. split; by apply flt_le.
Qed.
