(* ===== verification/Coinselect.v ===== *)
(** * coinselect/coinselect.go: choosing the outputs that fund a transaction

    The selection strategies with their int64 arithmetic, the branch-and-bound
    loop as a step function on an explicit search state, and the tiered
    [Standard] strategy. *)
From stdpp Require Import base tactics list numbers sorting strings.
From Stdlib Require Import ZArith Lia.
From S2P Require Import Prelude GoStd.
Local Open Scope Z_scope.

(** ** Data *)

Definition MaximumTries : Z := 100000.
Definition DefaultInputSize : Z := 148.
Definition DefaultOutputSize : Z := 34.

Record UTXO := mkUTXO {
  TxID : bytes;
  Vout : Z;
  Amount : Z;
  EffectiveAmount : Z;
  Fee : Z;
  Height : Z
}.

#[export] Instance UTXO_eq_dec : EqDecision UTXO.
Proof. solve_decision. Defined.

Definition IsConfirmed (u : UTXO) : bool := 0 <? Height u.
Definition IsEffectivelyZero (u : UTXO) : bool := EffectiveAmount u <=? 0.

Record SelectionResult := mkResult {
  UTXOs : list UTXO;
  Total : Z;
  Effective : Z;
  Waste : Z;
  ExactMatch : bool;
  Tries : Z
}.

(** [SelectionResult{}] *)
Definition emptyResult : SelectionResult := mkResult [] 0 0 0 false 0.

Record Selector := mkSelector { Target : Z; CostOfChange : Z; MaxTries : Z }.

Definition NewSelector (target costOfChange : Z) : Selector :=
  mkSelector target costOfChange MaximumTries.

(** Strictly larger effective amounts first. *)
Definition byEffectiveDesc (x y : UTXO) : bool := EffectiveAmount y <? EffectiveAmount x.

(** A [for _, u := range] loop that accumulates [sum += f(u)] in an int64. *)
Definition sum64 (f : UTXO -> Z) (us : list UTXO) : Z :=
  foldl (fun acc u => acc +i f u) 0 us.

Definition Available (utxos : list UTXO) : Z := sum64 EffectiveAmount utxos.

(** ** Branch and bound *)

(** The variables of the search loop.  [currentSelection] is kept last element
    first, so that the end of the slice is the head of the list. *)
Record bnb := mkBnb {
  currentValue : Z;
  currentAvailable : Z;
  currentSelection : list bool;
  bestWaste : Z;
  bestSelection : list bool
}.

(** [for len(currentSelection) > 0 && !currentSelection[len(currentSelection)-1]] *)
Fixpoint unwind (filtered : list UTXO) (sel : list bool) (avail : Z)
    : result (list bool * Z) :=
  match sel with
  | false :: sel' =>
      u ← index filtered (length sel');
      unwind filtered sel' (avail +i EffectiveAmount u)
  | _ => Ok (sel, avail)
  end.

(** [idx > 0 && !currentSelection[idx-1]] and the previous output equal to [u]. *)
Definition duplicateOfUnselected (filtered : list UTXO) (sel : list bool) (u : UTXO)
    : result bool :=
  match sel with
  | false :: sel' =>
      prev ← index filtered (length sel');
      Ok ((EffectiveAmount u =? EffectiveAmount prev) && (Fee u =? Fee prev))
  | _ => Ok false
  end.

(** One iteration of the loop body; the boolean says that it left by [break]. *)
Definition bnbStep (s : Selector) (filtered : list UTXO) (st : bnb) : result (bnb * bool) :=
  let bound := (currentValue st +i currentAvailable st <? Target s)
               || (Target s +i CostOfChange s <? currentValue st) in
  let reached := negb bound && (Target s <=? currentValue st) in
  let newWaste := currentValue st -i Target s in
  let improves := reached && (newWaste <=? bestWaste st) in
  let bw := if improves then newWaste else bestWaste st in
  let bs := if improves then reverse (currentSelection st) else bestSelection st in
  if bound || reached then
    '(sel, avail) ← unwind filtered (currentSelection st) (currentAvailable st);
    match sel with
    | [] => Ok (mkBnb (currentValue st) avail [] bw bs, true)
    | _ :: sel' =>
        u ← index filtered (length sel');
        Ok (mkBnb (currentValue st -i EffectiveAmount u) avail (false :: sel') bw bs, false)
    end
  else
    u ← index filtered (length (currentSelection st));
    let avail := currentAvailable st -i EffectiveAmount u in
    dup ← duplicateOfUnselected filtered (currentSelection st) u;
    if (dup : bool)
    then Ok (mkBnb (currentValue st) avail (false :: currentSelection st) bw bs, false)
    else Ok (mkBnb (currentValue st +i EffectiveAmount u) avail
                   (true :: currentSelection st) bw bs, false).

(** [for tries < maxTries]: the fuel is the number of tries left. *)
Fixpoint bnbLoop (s : Selector) (filtered : list UTXO) (fuel : nat) (tries : Z) (st : bnb)
    : result (Z * bnb) :=
  match fuel with
  | O => Ok (tries, st)
  | S fuel' =>
      '(st', stop) ← bnbStep s filtered st;
      if (stop : bool) then Ok (tries + 1, st')
      else bnbLoop s filtered fuel' (tries + 1) st'
  end.

(** [for i, include := range bestSelection]: [filtered[i]] is read when included. *)
Fixpoint selected (mask : list bool) (filtered : list UTXO) : result (list UTXO) :=
  match mask, filtered with
  | [], _ => Ok []
  | true :: mask', u :: filtered' => us ← selected mask' filtered'; Ok (u :: us)
  | true :: _, [] => Panic "index out of range"
  | false :: mask', _ => selected mask' (tail filtered)
  end.

Definition maxTriesOf (s : Selector) : Z :=
  if MaxTries s <=? 0 then MaximumTries else MaxTries s.

(** The filtered, sorted candidate list of the search. *)
Definition candidates (utxos : list UTXO) : list UTXO :=
  sort_stable byEffectiveDesc (filter (fun u => IsEffectivelyZero u = false) utxos).

Definition BranchAndBound (s : Selector) (utxos : list UTXO) : result SelectionResult :=
  let filtered := candidates utxos in
  if decide (filtered = []) then Ok emptyResult else
  let available := sum64 EffectiveAmount filtered in
  if available <? Target s then Ok emptyResult else
  '(tries, st) ← bnbLoop s filtered (Z.to_nat (maxTriesOf s)) 0
                   (mkBnb 0 available [] (CostOfChange s) []);
  if decide (bestSelection st = []) then Ok emptyResult else
  us ← selected (bestSelection st) filtered;
  Ok (mkResult us (sum64 Amount us) (sum64 EffectiveAmount us) (bestWaste st) true tries).

(** ** The other strategies *)

(** The loop of [ClosestMatch]: [best] is the match so far with its change. *)
Definition closestStep (target : Z) (best : option (UTXO * Z)) (u : UTXO) : option (UTXO * Z) :=
  if EffectiveAmount u <? target then best else
  let change := EffectiveAmount u -i target in
  match best with
  | None => Some (u, change)
  | Some (_, smallest) => if change <? smallest then Some (u, change) else best
  end.

Definition ClosestMatch (s : Selector) (utxos : list UTXO) : SelectionResult :=
  let target := Target s +i CostOfChange s in
  match foldl (closestStep target) None utxos with
  | None => emptyResult
  | Some (u, _) =>
      mkResult [u] (Amount u) (EffectiveAmount u) (EffectiveAmount u -i Target s) false 0
  end.

(** The loop of [Accumulator]: the outputs taken and their running total. *)
Fixpoint accumulate (target : Z) (sorted : list UTXO) (total : Z) : list UTXO * Z :=
  match sorted with
  | [] => ([], total)
  | u :: rest =>
      if IsEffectivelyZero u then accumulate target rest total
      else let total' := total +i EffectiveAmount u in
           if target <=? total' then ([u], total')
           else let '(us, t) := accumulate target rest total' in (u :: us, t)
  end.

Definition Accumulator (s : Selector) (utxos : list UTXO) : SelectionResult :=
  let '(us, total) := accumulate (Target s) (sort_stable byEffectiveDesc utxos) 0 in
  if total <? Target s then emptyResult
  else mkResult us (sum64 Amount us) total (total -i Target s) false 0.

Definition Standard (s : Selector) (utxos : list UTXO) : result SelectionResult :=
  r ← BranchAndBound s utxos;
  if decide (UTXOs r = []) then
    let r := ClosestMatch s utxos in
    if decide (UTXOs r = []) then Ok (Accumulator s utxos) else Ok r
  else Ok r.

Definition PreferConfirmed (s : Selector) (utxos : list UTXO) : result SelectionResult :=
  let confirmed := filter (fun u => IsConfirmed u = true) utxos in
  if decide (confirmed = []) then Standard s utxos else
  r ← Standard s confirmed;
  if decide (UTXOs r = []) then Standard s utxos else Ok r.

Definition Select (s : Selector) (utxos : list UTXO) : result (list UTXO) :=
  r ← Standard s utxos; Ok (UTXOs r).

(** ** Fees *)

Definition EstimateFee (inputSize feePerByte : Z) : Z := inputSize *i feePerByte.
Definition EstimateFeeP2PKH (feePerByte : Z) : Z := EstimateFee DefaultInputSize feePerByte.

Definition Estimate (utxos : list UTXO) (feePerByte : Z) : list UTXO :=
  (fun u => let fee := EstimateFeeP2PKH feePerByte in
            mkUTXO (TxID u) (Vout u) (Amount u) (Amount u -i fee) fee (Height u)) <$> utxos.

(** ** Random draw

    [Intn k n] stands for the [k]-th call of [rand.Intn], with argument [n]. *)
Section random_draw.
Variable Intn : nat -> Z -> Z.

(** [shuffled[i], shuffled[j] = shuffled[j], shuffled[i]] *)
Definition swap (l : list UTXO) (i j : nat) : result (list UTXO) :=
  x ← index l i; y ← index l j; Ok (<[j := x]> (<[i := y]> l)).

(** [for i := len(shuffled)-1; i > 0; i--]; [call] counts the draws made. *)
Fixpoint shuffle (i call : nat) (l : list UTXO) : result (list UTXO) :=
  match i with
  | O => Ok l
  | S i' => l' ← swap l i (Z.to_nat (Intn call (Z.of_nat i + 1))); shuffle i' (S call) l'
  end.

(** The accumulating loop: [None] when the end is reached without [t]. *)
Fixpoint drawUntil (t : Z) (shuffled : list UTXO) (total : Z) : option (list UTXO * Z) :=
  match shuffled with
  | [] => None
  | u :: rest =>
      let total' := total +i EffectiveAmount u in
      if t <=? total' then Some ([u], total')
      else '(us, tot) ← drawUntil t rest total'; Some (u :: us, tot)
  end.

Definition randomDraw (utxos : list UTXO) (target costOfChange : Z) : result SelectionResult :=
  if decide (utxos = []) then Ok emptyResult else
  shuffled ← shuffle (length utxos - 1) 0 utxos;
  match drawUntil (target +i costOfChange) shuffled 0 with
  | None => Ok emptyResult
  | Some (us, total) =>
      Ok (mkResult us (sum64 Amount us) (sum64 EffectiveAmount us) (total -i target) false 0)
  end.
End random_draw.

(** ** Sums without overflow *)

(** The int64 sum is the sum, when every partial sum fits. *)
Lemma sum64_acc (f : UTXO -> Z) us acc :
  foldl (fun a u => a +i f u) acc us = int64 (acc + sumZ f us) \/ us = [].
Proof.
  revert acc. induction us as [|u us IH]; intros acc; [by right|]. left. simpl.
  destruct (IH (int64 (acc + f u))) as [-> | ->].
  - rewrite int64_add_mod. f_equal. lia.
  - simpl. f_equal. lia.
Qed.

Lemma sum64_spec (f : UTXO -> Z) us : sum64 f us = int64 (sumZ f us).
Proof. unfold sum64. by destruct (sum64_acc f us 0) as [-> | ->]. Qed.

Lemma sum64_exact (f : UTXO -> Z) us : in_int64 (sumZ f us) -> sum64 f us = sumZ f us.
Proof. intros. by rewrite sum64_spec, int64_id. Qed.

Lemma byEffectiveDesc_asym x y : byEffectiveDesc x y = true -> byEffectiveDesc y x = false.
Proof. unfold byEffectiveDesc. lia. Qed.

Lemma byEffectiveDesc_neg_trans x y z :
  byEffectiveDesc y x = false -> byEffectiveDesc z y = false -> byEffectiveDesc z x = false.
Proof. unfold byEffectiveDesc. lia. Qed.

(** The candidates are the outputs with a positive effective amount, largest first. *)
Lemma candidates_perm utxos :
  candidates utxos ≡ₚ filter (fun u => IsEffectivelyZero u = false) utxos.
Proof. apply sort_stable_perm. Qed.

Lemma candidates_submseteq utxos : candidates utxos ⊆+ utxos.
Proof. rewrite candidates_perm. apply sublist_submseteq, sublist_filter. Qed.

Lemma candidates_pos utxos : Forall (fun u => 0 < EffectiveAmount u) (candidates utxos).
Proof.
  rewrite candidates_perm. apply Forall_forall. intros u [Hu _]%list_elem_of_filter.
  unfold IsEffectivelyZero in Hu. lia.
Qed.

(** The total a selection can reach: the sum of the positive effective amounts. *)
Definition spendable (utxos : list UTXO) : Z :=
  sumZ EffectiveAmount (filter (fun u => IsEffectivelyZero u = false) utxos).

Lemma spendable_candidates utxos : sumZ EffectiveAmount (candidates utxos) = spendable utxos.
Proof. apply sumZ_perm, candidates_perm. Qed.

Lemma spendable_nonneg utxos : 0 <= spendable utxos.
Proof.
  rewrite <- spendable_candidates. apply sumZ_nonneg.
  eapply Forall_impl; [apply candidates_pos|]. simpl. lia.
Qed.
