(* ===== verification/CoinselectSearch.v ===== *)
(** * The branch-and-bound search of coinselect: safety, soundness, optimality

    A selection is a boolean mask over the candidate list.  The loop walks the
    masks in depth-first order; the invariant says that every mask it has
    already passed is no better than the recorded one. *)
From stdpp Require Import base tactics list numbers sorting strings.
From Stdlib Require Import ZArith Lia.
From S2P Require Import Prelude GoStd Coinselect.
Local Open Scope Z_scope.

(** ** Masks *)

(** The effective amount a mask selects. *)
Fixpoint maskSum (mask : list bool) (us : list UTXO) : Z :=
  match mask, us with
  | b :: mask', u :: us' => (if b : bool then EffectiveAmount u else 0) + maskSum mask' us'
  | _, _ => 0
  end.

Lemma maskSum_app p q us : maskSum (p ++ q) us = maskSum p us + maskSum q (drop (length p) us).
Proof.
  revert us. induction p as [|b p IH]; intros [|u us]; simpl; try done.
  - by destruct q.
  - rewrite IH. lia.
Qed.

Lemma maskSum_bounds q us :
  Forall (fun u => 0 < EffectiveAmount u) us -> 0 <= maskSum q us <= sumZ EffectiveAmount us.
Proof.
  intros H. revert q. induction H as [|u us Hu Hus IH]; intros [|b q]; simpl; try lia.
  - specialize (IH []). simpl in IH. lia.
  - specialize (IH q). destruct b; lia.
Qed.

Lemma selected_Ok mask us :
  (length mask <= length us)%nat ->
  exists sel, selected mask us = Ok sel /\ sel `sublist_of` us
              /\ sumZ EffectiveAmount sel = maskSum mask us.
Proof.
  revert us. induction mask as [|b mask IH]; intros us Hlen.
  { exists []. split_and!; [by destruct us|apply sublist_nil_l|by destruct us]. }
  destruct us as [|u us]; simpl in Hlen; [lia|].
  destruct (IH us ltac:(lia)) as (sel & E & Hs & Hv).
  destruct b; simpl; rewrite E; simpl; eexists; (split; [done|]); simpl.
  - split; [by apply sublist_skip|lia].
  - split; [by apply sublist_cons|lia].
Qed.

(** Every sub-list of the candidates is selected by a full-length mask. *)
Lemma sublist_mask sel us :
  sel `sublist_of` us ->
  exists mask, length mask = length us /\ maskSum mask us = sumZ EffectiveAmount sel.
Proof.
  induction 1 as [|u l1 l2 _ (m & Hl & Hv)|u l1 l2 _ (m & Hl & Hv)].
  - by exists [].
  - exists (true :: m). simpl. split; lia.
  - exists (false :: m). simpl. split; lia.
Qed.

(** ** Depth-first positions *)

(** [m] continues the prefix [p]. *)
Definition extends (m p : list bool) : Prop :=
  forall j, (j < length p)%nat -> m !! j = p !! j.

(** [m] comes after every mask that continues [p]. *)
Definition comesAfter (m p : list bool) : Prop :=
  exists i, m !! i = Some false /\ p !! i = Some true /\ forall j, (j < i)%nat -> m !! j = p !! j.

Lemma extends_app m p : extends m p -> (length p <= length m)%nat -> exists q, m = p ++ q.
Proof.
  intros He Hl. exists (drop (length p) m).
  rewrite <- (take_drop (length p) m) at 1. f_equal.
  apply list_eq. intros j. destruct (decide (j < length p)%nat).
  - rewrite lookup_take_lt by done. auto.
  - rewrite (proj2 (lookup_ge_None p j)) by lia.
    apply lookup_ge_None. rewrite length_take. lia.
Qed.

Lemma extends_snoc m p b :
  extends m (p ++ [b]) <-> extends m p /\ m !! length p = Some b.
Proof.
  split.
  - intros He. split.
    + intros j Hj. rewrite He by (rewrite length_app; simpl; lia). by rewrite lookup_app_l.
    + rewrite He by (rewrite length_app; simpl; lia). by rewrite list_lookup_middle.
  - intros [He Hb] j Hj. rewrite length_app in Hj. simpl in Hj.
    destruct (decide (j < length p)%nat).
    + rewrite lookup_app_l by done. auto.
    + replace j with (length p) by lia. by rewrite Hb, list_lookup_middle.
Qed.

(** Extending the prefix by [true] leaves the masks with [false] there for later. *)
Lemma extends_branch m p :
  (length p < length m)%nat -> extends m p ->
  extends m (p ++ [true]) \/ comesAfter m (p ++ [true]).
Proof.
  intros Hl He. destruct (lookup_lt_is_Some_2 m (length p) Hl) as [b Hb]. destruct b.
  - left. by apply extends_snoc.
  - right. exists (length p). rewrite list_lookup_middle by done. split_and!; [done..|].
    intros j Hj. rewrite lookup_app_l by done. auto.
Qed.

Lemma comesAfter_snoc m p b : comesAfter m p -> comesAfter m (p ++ [b]).
Proof.
  intros (i & Hm & Hp & Hj). pose proof (lookup_lt_Some _ _ _ Hp).
  exists i. rewrite lookup_app_l by done. split_and!; [done..|].
  intros j Hlt. rewrite lookup_app_l by lia. auto.
Qed.

(** Backtracking from [p ++ true :: false*] to [p ++ [false]] skips no later mask. *)
Lemma comesAfter_backtrack m p k :
  comesAfter m (p ++ true :: replicate k false) ->
  comesAfter m (p ++ [false]) \/ extends m (p ++ [false]).
Proof.
  intros (i & Hm & Hp & Hj). destruct (decide (i < length p)%nat) as [Hi|Hi].
  - left. exists i. rewrite lookup_app_l in Hp by done. rewrite lookup_app_l by done.
    split_and!; [done..|]. intros j Hlt. rewrite Hj by done.
    rewrite !lookup_app_l by lia. done.
  - destruct (decide (i = length p)) as [->|Hne].
    + right. apply extends_snoc. split; [|done].
      intros j Hlt. rewrite Hj by done. by rewrite lookup_app_l.
    + exfalso. replace i with (length p + S (i - length p - 1))%nat in Hp by lia.
      rewrite lookup_app_r in Hp by lia.
      replace (length p + S (i - length p - 1) - length p)%nat
        with (S (i - length p - 1)) in Hp by lia.
      simpl in Hp. apply lookup_replicate in Hp. by destruct Hp.
Qed.

Lemma comesAfter_all_false m k : ~ comesAfter m (replicate k false).
Proof. intros (i & _ & Hp & _). apply lookup_replicate in Hp. by destruct Hp. Qed.

(** ** The invariant of the loop *)

Section search.
Context (s : Selector) (filtered : list UTXO).
Hypothesis Htarget : 0 < Target s.
Hypothesis Hcost : 0 <= CostOfChange s.
Hypothesis Hwindow : Target s + CostOfChange s < 2 ^ 63.
Hypothesis Hpos : Forall (fun u => 0 < EffectiveAmount u) filtered.
Hypothesis Hsum : sumZ EffectiveAmount filtered < 2 ^ 63.

Let n := length filtered.
Let rest k := sumZ EffectiveAmount (drop k filtered).

(** A mask whose value is in the window [Target, Target + CostOfChange]. *)
Definition inWindow (m : list bool) : Prop :=
  length m = n /\ Target s <= maskSum m filtered <= Target s + CostOfChange s.

(** The best selection recorded is no worse than [m]. *)
Definition covered (st : bnb) (m : list bool) : Prop :=
  bestSelection st <> [] /\ bestWaste st <= maskSum m filtered - Target s.

Record goodBest (st : bnb) : Prop := {
  gb_len : (length (bestSelection st) <= n)%nat;
  gb_none : bestSelection st = [] -> bestWaste st = CostOfChange s;
  gb_some : bestSelection st <> [] ->
    bestWaste st = maskSum (bestSelection st) filtered - Target s
    /\ 0 <= bestWaste st <= CostOfChange s
}.

Record searchInv (st : bnb) : Prop := {
  si_len : (length (currentSelection st) <= n)%nat;
  si_value : currentValue st = maskSum (reverse (currentSelection st)) filtered;
  si_avail : currentAvailable st = rest (length (currentSelection st));
  si_best : goodBest st;
  si_cover : forall m, inWindow m ->
    extends m (reverse (currentSelection st)) \/ comesAfter m (reverse (currentSelection st))
    \/ covered st m
}.

(** The search is over: every mask in the window has been accounted for. *)
Definition searchDone (st : bnb) : Prop :=
  goodBest st /\ forall m, inWindow m -> covered st m.

(** Nodes of the search tree not visited yet, the current one included. *)
Fixpoint pending (sel : list bool) : nat :=
  match sel with
  | [] => 0
  | b :: sel' => (if b : bool then 2 ^ (n - length sel') - 1 else 0) + pending sel'
  end.
Definition nodesLeft (st : bnb) : nat :=
  2 ^ (n - length (currentSelection st) + 1) - 1 + pending (currentSelection st).

Lemma rest_le k : 0 <= rest k <= sumZ EffectiveAmount filtered.
Proof.
  unfold rest. rewrite <- (take_drop k filtered) at 3. rewrite sumZ_app.
  assert (Forall (fun u => 0 <= EffectiveAmount u) filtered) as H
    by (eapply Forall_impl; [exact Hpos|simpl; lia]).
  pose proof (sumZ_nonneg _ _ (Forall_take _ k _ H)).
  pose proof (sumZ_nonneg _ _ (Forall_drop _ k _ H)). lia.
Qed.

Lemma rest_succ k u : filtered !! k = Some u -> rest k = EffectiveAmount u + rest (S k).
Proof. intros E. unfold rest. by rewrite (drop_S _ _ _ E). Qed.

Lemma maskSum_le m : 0 <= maskSum m filtered < 2 ^ 63.
Proof. pose proof (maskSum_bounds m filtered Hpos). lia. Qed.

(** A prefix and everything after it never exceed the whole. *)
Lemma maskSum_rest p : maskSum p filtered + rest (length p) <= sumZ EffectiveAmount filtered.
Proof.
  pose proof (maskSum_app p [] filtered) as E. rewrite app_nil_r in E.
  replace (maskSum p filtered) with (maskSum p (take (length p) filtered)).
  - rewrite <- (take_drop (length p) filtered) at 2. rewrite sumZ_app. unfold rest.
    pose proof (maskSum_bounds p _ (Forall_take _ (length p) _ Hpos)). lia.
  - clear. generalize filtered. induction p as [|b p IH]; intros [|u l]; simpl; try done.
    by rewrite IH.
Qed.

Lemma maskSum_extends m p :
  (length p <= length m)%nat -> extends m p ->
  maskSum p filtered <= maskSum m filtered <= maskSum p filtered + rest (length p).
Proof.
  intros Hl He. destruct (extends_app m p He Hl) as [q ->]. rewrite maskSum_app.
  pose proof (maskSum_bounds q (drop (length p) filtered) (Forall_drop _ _ _ Hpos)).
  unfold rest. lia.
Qed.

Lemma maskSum_snoc p b u :
  filtered !! length p = Some u ->
  maskSum (p ++ [b]) filtered = maskSum p filtered + (if b : bool then EffectiveAmount u else 0).
Proof.
  intros E. rewrite maskSum_app, (drop_S _ _ _ E). simpl. lia.
Qed.

Lemma pending_false k sel : pending (replicate k false ++ sel) = pending sel.
Proof. by induction k. Qed.

Lemma maskSum_false_tail p k :
  maskSum (p ++ replicate k false) filtered = maskSum p filtered.
Proof.
  rewrite maskSum_app. generalize (drop (length p) filtered).
  intros l. enough (maskSum (replicate k false) l = 0) by lia.
  revert l. induction k as [|k IH]; intros [|u l]; simpl; try done. by rewrite IH.
Qed.

(** *** Unwinding the trailing [false]s *)
Lemma unwind_spec sel :
  (length sel <= n)%nat ->
  exists k sel', sel = replicate k false ++ sel'
    /\ unwind filtered sel (rest (length sel)) = Ok (sel', rest (length sel'))
    /\ (sel' = [] \/ exists sel'', sel' = true :: sel'').
Proof.
  induction sel as [|b sel IH]; intros Hl.
  { exists 0%nat, []. auto. }
  destruct b; simpl in Hl.
  { exists 0%nat, (true :: sel). simpl. eauto. }
  destruct (IH ltac:(lia)) as (k & sel' & -> & E & Hs).
  destruct (lookup_lt_is_Some_2 filtered (length (replicate k false ++ sel')))
    as [u Hu]; [unfold n in Hl; lia|].
  exists (S k), sel'. split_and!; [done| |done].
  simpl. rewrite (proj2 (index_Ok _ _ _) Hu). simpl.
  rewrite int64_id; [|pose proof (rest_le (length (replicate k false ++ sel')));
                      rewrite (rest_succ _ _ Hu) in *; unfold in_int64; lia].
  rewrite <- E. f_equal. rewrite (rest_succ _ _ Hu). simpl. lia.
Qed.

(** *** One iteration *)

(** The bookkeeping of the best selection at the top of the loop body. *)
Definition recordBest (st : bnb) : bnb :=
  let improves := (Target s <=? currentValue st) && (currentValue st - Target s <=? bestWaste st) in
  mkBnb (currentValue st) (currentAvailable st) (currentSelection st)
    (if improves then currentValue st - Target s else bestWaste st)
    (if improves then reverse (currentSelection st) else bestSelection st).

Lemma goodBest_waste st : goodBest st -> bestWaste st <= CostOfChange s.
Proof. intros [_ H0 H1]. destruct (decide (bestSelection st = [])); [rewrite H0 by done; lia|]. by apply H1. Qed.

(** A selection that reaches the (positive) target is not empty. *)
Lemma reached_nonempty st :
  searchInv st -> Target s <= currentValue st -> reverse (currentSelection st) <> [].
Proof. intros [_ Hv _ _ _] H E. rewrite E in Hv. simpl in Hv. lia. Qed.

(** Recording keeps the best selection good, and what was covered covered. *)
Lemma recordBest_good st : searchInv st -> goodBest (recordBest st).
Proof.
  intros Hinv. pose proof (goodBest_waste st (si_best _ Hinv)).
  pose proof (reached_nonempty st Hinv). destruct Hinv as [Hl Hv _ Hgb _]. unfold recordBest.
  destruct (Z.leb_spec (Target s) (currentValue st)); simpl; [|by destruct Hgb].
  destruct (Z.leb_spec (currentValue st - Target s) (bestWaste st)); [|by destruct Hgb].
  constructor; simpl; [by rewrite length_reverse|naive_solver|].
  rewrite <- Hv. lia.
Qed.

Lemma recordBest_covered st m : covered st m -> searchInv st -> covered (recordBest st) m.
Proof.
  intros [Hne Hle] Hinv. unfold covered, recordBest. pose proof (reached_nonempty st Hinv).
  destruct (Z.leb_spec (Target s) (currentValue st)); simpl; [|done].
  destruct (Z.leb_spec (currentValue st - Target s) (bestWaste st)); simpl; [|done].
  split; [auto|lia].
Qed.

(** When the body backtracks, every mask below the current node is covered. *)
Lemma backtrack_covers st m :
  searchInv st ->
  currentValue st + currentAvailable st < Target s
  \/ Target s + CostOfChange s < currentValue st \/ Target s <= currentValue st ->
  inWindow m -> extends m (reverse (currentSelection st)) -> covered (recordBest st) m.
Proof.
  intros Hinv Hb [Hlm Hwin] He. pose proof Hinv as [Hl Hv Ha [_ Hb0 _] _].
  pose proof (maskSum_extends m (reverse (currentSelection st))) as Hm.
  rewrite length_reverse in Hm. specialize (Hm ltac:(lia) He).
  rewrite <- Hv, <- Ha in Hm. pose proof (reached_nonempty st Hinv).
  unfold covered, recordBest. destruct (Z.leb_spec (Target s) (currentValue st)); [|lia].
  simpl. destruct (Z.leb_spec (currentValue st - Target s) (bestWaste st)); simpl.
  - split; [auto|lia].
  - split; [|lia]. intros E. specialize (Hb0 E). lia.
Qed.

(** The backtracking branch of the body. *)
Lemma backtrack_step st :
  searchInv st ->
  currentValue st + currentAvailable st < Target s
  \/ Target s + CostOfChange s < currentValue st \/ Target s <= currentValue st ->
  exists st' stop,
    ('(sel, avail) ← unwind filtered (currentSelection st) (currentAvailable st);
     match sel with
     | [] => Ok (mkBnb (currentValue st) avail [] (bestWaste (recordBest st))
                       (bestSelection (recordBest st)), true)
     | _ :: sel' =>
         u ← index filtered (length sel');
         Ok (mkBnb (currentValue st -i EffectiveAmount u) avail (false :: sel')
                   (bestWaste (recordBest st)) (bestSelection (recordBest st)), false)
     end) = Ok (st', stop)
    /\ (if stop : bool then searchDone st'
        else searchInv st' /\ (nodesLeft st' < nodesLeft st)%nat).
Proof.
  intros Hinv Hb. pose proof (recordBest_good st Hinv) as Hgood.
  assert (forall m, inWindow m ->
    comesAfter m (reverse (currentSelection st)) \/ covered (recordBest st) m) as Hcov.
  { intros m Hm. destruct (si_cover _ Hinv m Hm) as [He|[Ha|Hc]].
    - right. by apply backtrack_covers.
    - by left.
    - right. by apply recordBest_covered. }
  destruct Hinv as [Hl Hv Ha _ _].
  destruct (unwind_spec (currentSelection st) Hl) as (k & sel' & E & Hu & Hs).
  rewrite Ha, Hu. simpl. rewrite E, reverse_app, reverse_replicate in Hcov.
  destruct Hs as [->|[sel'' ->]].
  - do 2 eexists. split; [done|]. simpl. split; [by destruct Hgood|].
    intros m Hm. destruct (Hcov m Hm) as [Haft|?]; [|done].
    by destruct (comesAfter_all_false m k).
  - assert (length sel'' < n)%nat as Hlt.
    { rewrite E, length_app, length_replicate in Hl. simpl in Hl. lia. }
    destruct (lookup_lt_is_Some_2 filtered (length sel'') Hlt) as [u Eu].
    rewrite (proj2 (index_Ok _ _ _) Eu). simpl. do 2 eexists. split; [done|]. simpl.
    rewrite E, reverse_app, reverse_replicate, reverse_cons, maskSum_false_tail in Hv.
    rewrite (maskSum_snoc _ true u) in Hv by (by rewrite length_reverse).
    pose proof (maskSum_le (reverse sel'')).
    split.
    + constructor; simpl; [lia| | |by destruct Hgood|].
      * rewrite reverse_cons, (maskSum_snoc _ false u) by (by rewrite length_reverse).
        rewrite int64_id by (unfold in_int64; lia). lia.
      * done.
      * intros m Hm. rewrite reverse_cons in Hcov |- *.
        destruct (Hcov m Hm) as [Haft|?]; [|auto].
        rewrite <- app_assoc in Haft.
        destruct (comesAfter_backtrack m (reverse sel'') k Haft); auto.
    + unfold nodesLeft. rewrite E, pending_false. simpl.
      replace (n - S (length sel'') + 1)%nat with (n - length sel'')%nat by lia.
      pose proof (pow2_pos (n - length sel'')).
      rewrite Nat.add_1_r, (Nat.pow_succ_r' 2 (n - length (replicate k false ++ true :: sel''))).
      pose proof (pow2_pos (n - length (replicate k false ++ true :: sel''))). lia.
Qed.

(** Including the next candidate. *)
Lemma include_inv st u :
  searchInv st -> filtered !! length (currentSelection st) = Some u ->
  let st' := mkBnb (currentValue st + EffectiveAmount u) (currentAvailable st - EffectiveAmount u)
                   (true :: currentSelection st) (bestWaste st) (bestSelection st) in
  searchInv st' /\ (nodesLeft st' < nodesLeft st)%nat.
Proof.
  intros [Hl Hv Ha Hgb Hcov] Eu st'. pose proof (lookup_lt_Some _ _ _ Eu) as Hlt. split.
  - constructor; simpl.
    + unfold n. lia.
    + rewrite reverse_cons, (maskSum_snoc _ true u), Hv by (by rewrite length_reverse). lia.
    + rewrite Ha, (rest_succ _ _ Eu). lia.
    + by destruct Hgb.
    + intros m Hm. rewrite reverse_cons. destruct (Hcov m Hm) as [He|[Haft|?]]; [| |auto].
      * destruct (extends_branch m (reverse (currentSelection st))); [|done|auto..].
        rewrite length_reverse. destruct Hm. unfold n in *. lia.
      * right. left. by apply comesAfter_snoc.
  - unfold nodesLeft. simpl. fold n in Hlt.
    replace (n - S (length (currentSelection st)) + 1)%nat
      with (n - length (currentSelection st))%nat by lia.
    rewrite Nat.add_1_r, Nat.pow_succ_r'.
    pose proof (pow2_pos (n - length (currentSelection st))). lia.
Qed.

(** Moving a selected output to its equal, unselected predecessor keeps the sum. *)
Lemma maskSum_exchange p q u prev :
  filtered !! length p = Some prev -> filtered !! S (length p) = Some u ->
  EffectiveAmount u = EffectiveAmount prev ->
  maskSum (p ++ true :: false :: q) filtered = maskSum (p ++ false :: true :: q) filtered.
Proof.
  intros Ep Eu Heq. rewrite !maskSum_app, (drop_S _ _ _ Ep), (drop_S _ _ _ Eu). simpl. lia.
Qed.

(** Skipping a duplicate of an unselected candidate loses no mask: the
    exchanged mask was passed earlier and has the same value. *)
Lemma skip_cover st sel' u prev m :
  searchInv st -> currentSelection st = false :: sel' ->
  filtered !! length sel' = Some prev ->
  filtered !! length (currentSelection st) = Some u ->
  EffectiveAmount u = EffectiveAmount prev ->
  inWindow m -> extends m (reverse (currentSelection st)) ->
  m !! length (currentSelection st) = Some true -> covered st m.
Proof.
  intros Hinv Esel Ep Eu Heq Hm He Htrue. rewrite Esel in *. simpl in Eu, Htrue.
  destruct (extends_app _ _ He) as [q Eq].
  { rewrite length_reverse. destruct Hm as [-> _]. apply lookup_lt_Some in Eu. unfold n. simpl. lia. }
  subst m. rewrite reverse_cons in *.
  rewrite lookup_app_r, length_app, length_reverse in Htrue
    by (rewrite length_app, length_reverse; simpl; lia).
  replace (S (length sel') - (length sel' + length [false]))%nat with 0%nat in Htrue by (simpl; lia).
  destruct q as [|b q]; simplify_eq/=. rewrite <- app_assoc in *. simpl in *.
  pose proof (maskSum_exchange (reverse sel') q u prev) as Hx.
  rewrite length_reverse in Hx. specialize (Hx Ep Eu Heq).
  assert (inWindow (reverse sel' ++ true :: false :: q)) as Hm'.
  { destruct Hm as [Hlm Hw]. split; [|lia]. rewrite length_app in *. done. }
  destruct (si_cover _ Hinv _ Hm') as [He'|[(i & Hi1 & Hi2 & Hi3)|[Hne Hc]]].
  - rewrite Esel, reverse_cons, extends_snoc in He'. destruct He' as [_ He'].
    by rewrite list_lookup_middle in He'.
  - exfalso. rewrite Esel, reverse_cons in Hi2.
    destruct (decide (i < length (reverse sel'))%nat) as [Hi|Hi].
    + rewrite lookup_app_l in Hi1, Hi2 by done. congruence.
    + pose proof (lookup_lt_Some _ _ _ Hi2) as Hi4. rewrite length_app in Hi4. simpl in Hi4.
      rewrite list_lookup_middle in Hi2 by lia. done.
  - split; [done|]. lia.
Qed.

Lemma skip_inv st sel' u prev :
  searchInv st -> currentSelection st = false :: sel' ->
  filtered !! length sel' = Some prev ->
  filtered !! length (currentSelection st) = Some u ->
  EffectiveAmount u = EffectiveAmount prev ->
  let st' := mkBnb (currentValue st) (currentAvailable st - EffectiveAmount u)
                   (false :: currentSelection st) (bestWaste st) (bestSelection st) in
  searchInv st' /\ (nodesLeft st' < nodesLeft st)%nat.
Proof.
  intros Hinv Esel Ep Eu Heq st'. pose proof Hinv as [Hl Hv Ha Hgb Hcov].
  pose proof (lookup_lt_Some _ _ _ Eu) as Hlt. split.
  - constructor; simpl.
    + unfold n. lia.
    + rewrite reverse_cons, (maskSum_snoc _ false u), Hv by (by rewrite length_reverse). lia.
    + rewrite Ha, (rest_succ _ _ Eu). lia.
    + by destruct Hgb.
    + intros m Hm. rewrite reverse_cons. destruct (Hcov m Hm) as [He|[Haft|?]]; [| |auto].
      * destruct (m !! length (currentSelection st)) as [b|] eqn:Eb.
        -- destruct b; [right; right; by apply (skip_cover st sel' u prev m)|].
           left. apply extends_snoc. by rewrite length_reverse.
        -- apply lookup_ge_None in Eb. destruct Hm as [Hlm _]. unfold n in Hlm. lia.
      * right. left. by apply comesAfter_snoc.
  - unfold nodesLeft. simpl. fold n in Hlt.
    replace (n - S (length (currentSelection st)) + 1)%nat
      with (n - length (currentSelection st))%nat by lia.
    rewrite Nat.add_1_r, Nat.pow_succ_r'.
    pose proof (pow2_pos (n - length (currentSelection st))). lia.
Qed.

(** The forward branch of the body. *)
Lemma forward_step st :
  searchInv st ->
  Target s <= currentValue st + currentAvailable st -> currentValue st < Target s ->
  exists st',
    (u ← index filtered (length (currentSelection st));
     let avail := currentAvailable st -i EffectiveAmount u in
     dup ← duplicateOfUnselected filtered (currentSelection st) u;
     if (dup : bool)
     then Ok (mkBnb (currentValue st) avail (false :: currentSelection st)
                    (bestWaste st) (bestSelection st), false)
     else Ok (mkBnb (currentValue st +i EffectiveAmount u) avail
                    (true :: currentSelection st) (bestWaste st) (bestSelection st), false))
    = Ok (st', false)
    /\ searchInv st' /\ (nodesLeft st' < nodesLeft st)%nat.
Proof.
  intros Hinv Hreach Hlow. pose proof Hinv as [Hl Hv Ha _ _].
  assert (length (currentSelection st) < n)%nat as Hlt.
  { destruct (decide (length (currentSelection st) < n)%nat); [done|].
    rewrite Ha in Hreach. unfold rest in Hreach. rewrite drop_ge in Hreach by lia.
    simpl in Hreach. lia. }
  destruct (lookup_lt_is_Some_2 filtered _ Hlt) as [u Eu].
  rewrite (proj2 (index_Ok _ _ _) Eu). simpl. pose proof (rest_succ _ _ Eu) as Hrest.
  pose proof (rest_le (length (currentSelection st))).
  pose proof (rest_le (S (length (currentSelection st)))).
  pose proof (maskSum_le (reverse (true :: currentSelection st))) as Hms.
  rewrite reverse_cons, (maskSum_snoc _ true u), <- Hv in Hms by (by rewrite length_reverse).
  pose proof (maskSum_le (reverse (currentSelection st))) as Hcv. rewrite <- Hv in Hcv.
  rewrite (int64_id (currentAvailable st - EffectiveAmount u)) by (unfold in_int64; lia).
  rewrite (int64_id (currentValue st + EffectiveAmount u)) by (unfold in_int64; lia).
  pose proof (include_inv st u Hinv Eu) as Hinc. simpl in Hinc.
  unfold duplicateOfUnselected.
  destruct (currentSelection st) as [|[] sel'] eqn:Esel; simpl; [by eauto..|].
  destruct (lookup_lt_is_Some_2 filtered (length sel')) as [prev Ep];
    [simpl in Hl; unfold n in *; lia|].
  rewrite (proj2 (index_Ok _ _ _) Ep). simpl.
  destruct (Z.eqb_spec (EffectiveAmount u) (EffectiveAmount prev)) as [Heq|]; simpl;
    [|by eauto].
  destruct (Fee u =? Fee prev); [|by eauto].
  eexists. split; [done|]. rewrite <- Esel in Eu |- *.
  by apply (skip_inv st sel' u prev).
Qed.

(** One iteration never panics, keeps the invariant and makes progress. *)
Lemma bnbStep_inv st :
  searchInv st ->
  exists st' stop, bnbStep s filtered st = Ok (st', stop)
    /\ (if stop : bool then searchDone st'
        else searchInv st' /\ (nodesLeft st' < nodesLeft st)%nat).
Proof.
  intros Hinv. pose proof (si_value _ Hinv) as Hv. pose proof (si_avail _ Hinv) as Ha.
  pose proof (maskSum_le (reverse (currentSelection st))) as Hm. rewrite <- Hv in Hm.
  pose proof (maskSum_rest (reverse (currentSelection st))) as Hva.
  rewrite length_reverse, <- Hv, <- Ha in Hva.
  pose proof (rest_le (length (currentSelection st))) as Hr. rewrite <- Ha in Hr.
  pose proof (goodBest_waste st (si_best _ Hinv)) as Hbw.
  unfold bnbStep. rewrite !(int64_id (_ + _)), (int64_id (currentValue st - Target s))
    by (unfold in_int64; lia).
  set (bound := (currentValue st + currentAvailable st <? Target s)
                || (Target s + CostOfChange s <? currentValue st)).
  assert (negb bound && (Target s <=? currentValue st)
            && (currentValue st - Target s <=? bestWaste st)
          = (Target s <=? currentValue st) && (currentValue st - Target s <=? bestWaste st))
    as Himp by (subst bound; lia).
  destruct (decide (currentValue st + currentAvailable st < Target s
    \/ Target s + CostOfChange s < currentValue st \/ Target s <= currentValue st)) as [Hb|Hb].
  - replace (bound || _) with true by (subst bound; lia).
    rewrite Himp. exact (backtrack_step st Hinv Hb).
  - destruct (forward_step st Hinv) as (st' & E & Hok); [lia..|].
    replace (bound || _) with false by (subst bound; lia).
    rewrite (proj2 (Z.leb_gt (Target s) _)), andb_false_r by lia. simpl. eauto.
Qed.

(** The loop never panics; its best selection is good, and when the tries
    suffice for the whole tree it has covered every mask in the window. *)
Lemma bnbLoop_inv fuel tries st :
  searchInv st ->
  exists tries' st', bnbLoop s filtered fuel tries st = Ok (tries', st')
    /\ goodBest st' /\ tries + Z.of_nat (Nat.min 1 fuel) <= tries' <= tries + Z.of_nat fuel
    /\ ((nodesLeft st <= fuel)%nat -> searchDone st').
Proof.
  revert tries st. induction fuel as [|fuel IH]; intros tries st Hinv; simpl.
  { exists tries, st. split_and!; [done|apply Hinv|lia..|]. unfold nodesLeft.
    intros Hz. pose proof (pow2_pos (n - length (currentSelection st))).
    rewrite Nat.add_1_r, Nat.pow_succ_r' in Hz. lia. }
  destruct (bnbStep_inv st Hinv) as (st' & stop & -> & Hst). simpl. destruct stop.
  - eexists _, _. split; [done|]. split_and!; [apply Hst|lia..|done].
  - destruct Hst as [Hinv' Hdec].
    destruct (IH (tries + 1) st' Hinv') as (t & st'' & -> & Hg & Ht & Hd).
    eexists _, _. split; [done|]. split_and!; [done|lia..|]. intros. apply Hd. lia.
Qed.

(** The initial state of the search. *)
Lemma searchInv_init :
  searchInv (mkBnb 0 (sumZ EffectiveAmount filtered) [] (CostOfChange s) []).
Proof.
  constructor; simpl; [lia|done|done| |].
  - constructor; simpl; [lia|done|done].
  - intros m _. left. intros j Hj. simpl in Hj. lia.
Qed.
End search.
