(* ===== verification/CoinselectSpec.v ===== *)
(** * What the coin selection strategies promise

    The properties of [BranchAndBound], [ClosestMatch], [Accumulator],
    [Standard], [PreferConfirmed] and [randomDraw] against the outputs they were
    given. *)
From stdpp Require Import base tactics list numbers sorting strings sets.
From Stdlib Require Import ZArith Lia.
From S2P Require Import Prelude GoStd Coinselect CoinselectSearch.
Local Open Scope Z_scope.

(** The amounts for which no int64 operation of the search wraps around. *)
Record inRange (s : Selector) (utxos : list UTXO) : Prop := {
  ir_target : 0 < Target s;
  ir_cost : 0 <= CostOfChange s;
  ir_window : Target s + CostOfChange s < 2 ^ 63;
  ir_sum : spendable utxos < 2 ^ 63;
  ir_fields : Forall (fun u => in_int64 (Amount u) /\ in_int64 (EffectiveAmount u)) utxos
}.

(** A selection that pays for the target out of [utxos], with consistent totals. *)
Record funds (s : Selector) (utxos : list UTXO) (r : SelectionResult) : Prop := {
  fd_from : UTXOs r ⊆+ utxos;
  fd_nonempty : UTXOs r <> [];
  fd_effective : Effective r = sumZ EffectiveAmount (UTXOs r);
  fd_total : Total r = int64 (sumZ Amount (UTXOs r));
  fd_covers : Target s <= Effective r;
  fd_waste : Waste r = Effective r - Target s
}.

(** An exact match of branch and bound: the overshoot is at most the cost of change. *)
Definition exactMatch (s : Selector) (utxos : list UTXO) (r : SelectionResult) : Prop :=
  funds s utxos r /\ ExactMatch r = true /\ Waste r <= CostOfChange s
  /\ 0 < Tries r <= maxTriesOf s.

(** ** Branch and bound *)

Lemma maxTriesOf_pos s : 0 < maxTriesOf s.
Proof. unfold maxTriesOf, MaximumTries. case_match; lia. Qed.

(** The search from the start of [BranchAndBound]. *)
Lemma search_from_start s utxos :
  inRange s utxos ->
  exists tries st,
    bnbLoop s (candidates utxos) (Z.to_nat (maxTriesOf s)) 0
      (mkBnb 0 (sum64 EffectiveAmount (candidates utxos)) [] (CostOfChange s) []) = Ok (tries, st)
    /\ goodBest s (candidates utxos) st
    /\ 0 < tries <= maxTriesOf s
    /\ (2 ^ (Z.of_nat (length (candidates utxos)) + 1) <= maxTriesOf s ->
        searchDone s (candidates utxos) st).
Proof.
  intros [Ht Hc Hw Hs _]. rewrite <- spendable_candidates in Hs.
  pose proof (candidates_pos utxos) as Hp. pose proof (spendable_nonneg utxos) as Hn.
  rewrite <- spendable_candidates in Hn.
  rewrite sum64_exact by (unfold in_int64; lia).
  pose proof (maxTriesOf_pos s).
  destruct (bnbLoop_inv s (candidates utxos) Ht Hc Hw Hp Hs (Z.to_nat (maxTriesOf s)) 0 _
              (searchInv_init s (candidates utxos))) as (tries & st & E & Hg & Htr & Hd).
  exists tries, st. split_and!; [done|done|lia|lia|].
  intros Hpow. apply Hd. unfold nodesLeft. simpl. rewrite Nat.sub_0_r, Nat.add_0_r.
  apply Nat2Z.inj_le. rewrite Z2Nat.id by lia.
  rewrite Nat2Z.inj_sub by apply pow2_pos. rewrite Nat2Z.inj_pow, Nat2Z.inj_add. simpl. lia.
Qed.

(** The result of [BranchAndBound] in terms of the final search state. *)
Lemma BranchAndBound_cases s utxos :
  inRange s utxos ->
  exists r, BranchAndBound s utxos = Ok r
    /\ (r = emptyResult \/ exactMatch s utxos r)
    /\ (2 ^ (Z.of_nat (length (candidates utxos)) + 1) <= maxTriesOf s ->
        forall mask, inWindow s (candidates utxos) mask ->
          UTXOs r <> [] /\ Waste r <= maskSum mask (candidates utxos) - Target s).
Proof.
  intros Hir. destruct (search_from_start s utxos Hir) as (tries & st & E & Hg & Ht & Hd).
  destruct Hir as [Htp Hc Hw Hs _]. pose proof (candidates_pos utxos) as Hp.
  rewrite <- spendable_candidates in Hs.
  unfold BranchAndBound. case_decide as Hnil.
  { exists emptyResult. split_and!; [done|by left|]. intros _ mask [_ [Hm _]].
    rewrite Hnil in Hm. destruct mask; simpl in Hm; lia. }
  rewrite sum64_exact in E |- *
    by (pose proof (maskSum_bounds [] _ Hp); unfold in_int64; simpl in *; lia).
  destruct (Z.ltb_spec (sumZ EffectiveAmount (candidates utxos)) (Target s)) as [Hlt|Hge].
  { exists emptyResult. split_and!; [done|by left|]. intros _ mask [_ [Hm _]].
    pose proof (maskSum_bounds mask _ Hp). lia. }
  rewrite E. simpl. case_decide as Hbest.
  { exists emptyResult. split_and!; [done|by left|]. intros Hpow mask Hm.
    destruct (Hd Hpow) as [_ Hcov]. by destruct (Hcov mask Hm). }
  destruct Hg as [Hlen _ Hval]. destruct (Hval Hbest) as [Hbw Hbr].
  destruct (selected_Ok (bestSelection st) (candidates utxos) Hlen) as (sel & -> & Hsub & Hsum).
  simpl. eexists. split; [done|]. simpl.
  assert (sel <> []) as Hsel.
  { intros ->. simpl in Hsum. lia. }
  pose proof (maskSum_bounds (bestSelection st) _ Hp).
  rewrite (sum64_exact EffectiveAmount sel), (sum64_spec Amount sel) by (unfold in_int64; lia).
  split.
  - right. unfold exactMatch. simpl. split_and!; [|done|lia|lia|lia].
    constructor; simpl; [|done..|lia|lia].
    etransitivity; [by apply sublist_submseteq|apply candidates_submseteq].
  - intros Hpow mask Hm. destruct (Hd Hpow) as [_ Hcov]. destruct (Hcov mask Hm). done.
Qed.

Lemma bnb_cases s utxos :
  inRange s utxos ->
  exists r, BranchAndBound s utxos = Ok r /\ (r = emptyResult \/ exactMatch s utxos r).
Proof.
  intros Hir. destruct (BranchAndBound_cases s utxos Hir) as (r & E & Hr & _). eauto.
Qed.

(** C23. Optimality of branch and bound: when the allowed number of tries covers
    the search tree (2^(n+1) for n candidates, so 15 candidates for the default
    of 100000), the search returns a match whenever some set of outputs with
    positive effective amounts lands in [Target, Target + CostOfChange], and no
    such set wastes less than the one returned. *)
Theorem bnb_optimal s utxos sel :
  inRange s utxos ->
  2 ^ (Z.of_nat (length (candidates utxos)) + 1) <= maxTriesOf s ->
  sel ⊆+ utxos -> Forall (fun u => 0 < EffectiveAmount u) sel ->
  Target s <= sumZ EffectiveAmount sel <= Target s + CostOfChange s ->
  exists r, BranchAndBound s utxos = Ok r /\ exactMatch s utxos r
    /\ Waste r <= sumZ EffectiveAmount sel - Target s.
Proof.
  intros Hir Hpow Hsub Hpos Hwin.
  destruct (BranchAndBound_cases s utxos Hir) as (r & E & Hr & Hopt).
  assert (sel ⊆+ candidates utxos) as Hc.
  { rewrite candidates_perm. apply submseteq_filter_all; [done|].
    eapply Forall_impl; [exact Hpos|]. unfold IsEffectivelyZero. simpl. lia. }
  apply submseteq_sublist_r in Hc as (sel' & Hp & Hs).
  destruct (sublist_mask sel' _ Hs) as (mask & Hl & Hv).
  rewrite <- (sumZ_perm _ _ _ Hp) in Hv.
  destruct (Hopt Hpow mask) as [Hne Hw].
  { split; [done|]. by rewrite Hv. }
  exists r. split; [done|]. split; [|lia].
  destruct Hr as [->|]; [by destruct Hne|done].
Qed.

(** Soundness of branch and bound, for any number of tries: it never indexes
    out of range, and what it returns is empty or an exact match: outputs taken
    from the input without repetition, totals that are the sums over them, an
    effective total in [Target, Target + CostOfChange], and the overshoot as
    [Waste]. *)
Theorem bnb_sound s utxos :
  inRange s utxos ->
  exists r, BranchAndBound s utxos = Ok r /\ (r = emptyResult \/ exactMatch s utxos r).
Proof. apply bnb_cases. Qed.

(** ** Closest match *)

(** What the loop of [ClosestMatch] knows after the outputs [seen]. *)
Definition closestSoFar (target : Z) (seen : list UTXO) (best : option (UTXO * Z)) : Prop :=
  match best with
  | None => forall v, v ∈ seen -> EffectiveAmount v < target
  | Some (u, c) => u ∈ seen /\ target <= EffectiveAmount u /\ c = EffectiveAmount u - target
      /\ forall v, v ∈ seen -> target <= EffectiveAmount v -> EffectiveAmount u <= EffectiveAmount v
  end.

Lemma closest_loop target us :
  0 <= target -> Forall (fun u => in_int64 (EffectiveAmount u)) us ->
  closestSoFar target us (foldl (closestStep target) None us).
Proof.
  intros Ht. induction us as [|u us IH] using rev_ind; intros Hf.
  { simpl. intros v Hv. by apply elem_of_nil in Hv. }
  apply Forall_app in Hf as [Hf Hu]. apply Forall_cons in Hu as [Hu _]. specialize (IH Hf).
  rewrite foldl_app. simpl. unfold closestStep at 1. unfold in_int64 in Hu.
  destruct (Z.ltb_spec (EffectiveAmount u) target) as [Hlt|Hge].
  - destruct (foldl _ _ us) as [[w c]|]; simpl in *; set_solver by lia.
  - rewrite int64_id by (unfold in_int64; lia).
    destruct (foldl _ _ us) as [[w c]|]; simpl in *; [|set_solver by lia].
    destruct IH as (Hw & Hge' & -> & Hmin).
    destruct (Z.ltb_spec (EffectiveAmount u - target) (EffectiveAmount w - target)); simpl.
    + split_and!; [set_solver|done|done|].
      intros v [Hv|Hv%list_elem_of_singleton]%elem_of_app ?; [|by subst].
      specialize (Hmin v Hv). lia.
    + split_and!; [set_solver|done|done|].
      intros v [Hv|Hv%list_elem_of_singleton]%elem_of_app ?; [auto|subst; lia].
Qed.

Lemma elem_of_pos_spendable u utxos :
  u ∈ utxos -> 0 < EffectiveAmount u -> EffectiveAmount u <= spendable utxos.
Proof.
  intros Hu Hp. unfold spendable.
  assert (u ∈ filter (fun u => IsEffectivelyZero u = false) utxos) as Hin.
  { apply list_elem_of_filter. split; [unfold IsEffectivelyZero; lia|done]. }
  apply list_elem_of_split in Hin as (l1 & l2 & E). rewrite E.
  assert (Forall (fun u => 0 <= EffectiveAmount u) (l1 ++ u :: l2)) as Hf.
  { rewrite <- E. apply Forall_forall. intros v [Hv _]%list_elem_of_filter.
    unfold IsEffectivelyZero in Hv. lia. }
  apply Forall_app in Hf as [Hf1 Hf2]. apply Forall_cons in Hf2 as [_ Hf2].
  rewrite sumZ_app. simpl. pose proof (sumZ_nonneg _ _ Hf1). pose proof (sumZ_nonneg _ _ Hf2). lia.
Qed.

Lemma fields_effective s utxos :
  inRange s utxos -> Forall (fun u => in_int64 (EffectiveAmount u)) utxos.
Proof. intros Hir. eapply Forall_impl; [apply (ir_fields _ _ Hir)|]. by intros u [_ ?]. Qed.

Lemma ClosestMatch_cases s utxos :
  inRange s utxos ->
  let r := ClosestMatch s utxos in
  (r = emptyResult /\ forall v, v ∈ utxos -> EffectiveAmount v < Target s + CostOfChange s)
  \/ (funds s utxos r /\ exists u, UTXOs r = [u]
       /\ Target s + CostOfChange s <= EffectiveAmount u
       /\ forall v, v ∈ utxos -> Target s + CostOfChange s <= EffectiveAmount v ->
            EffectiveAmount u <= EffectiveAmount v).
Proof.
  intros Hir. pose proof (fields_effective s utxos Hir) as Hf.
  pose proof Hir as [Ht Hc Hw Hs Hfs]. unfold ClosestMatch.
  rewrite (int64_id (Target s + _)) by (unfold in_int64; lia).
  pose proof (closest_loop (Target s + CostOfChange s) utxos ltac:(lia) Hf) as Hl.
  destruct (foldl _ _ _) as [[u c]|]; simpl in *; [right|by left].
  destruct Hl as (Hu & Hge & -> & Hmin).
  destruct (proj1 (Forall_forall _ _) Hfs u Hu) as [Ha He]. unfold in_int64 in He.
  split; [|eauto].
  constructor; simpl; [|done|lia| |lia|by rewrite int64_id by (unfold in_int64; lia)].
  - by apply singleton_submseteq_l.
  - by rewrite Z.add_0_r, int64_id.
Qed.

(** [ClosestMatch] returns nothing exactly when no single output reaches
    [Target + CostOfChange]; otherwise it returns one output that does, and no
    output of the input that does is smaller. *)
Theorem closest_match_spec s utxos :
  inRange s utxos ->
  let r := ClosestMatch s utxos in
  (r = emptyResult /\ forall v, v ∈ utxos -> EffectiveAmount v < Target s + CostOfChange s)
  \/ (funds s utxos r /\ exists u, UTXOs r = [u]
       /\ Target s + CostOfChange s <= EffectiveAmount u
       /\ forall v, v ∈ utxos -> Target s + CostOfChange s <= EffectiveAmount v ->
            EffectiveAmount u <= EffectiveAmount v).
Proof. apply ClosestMatch_cases. Qed.

(** ** Accumulator *)

(** The greedy loop takes positive outputs in order, keeps their exact total,
    and stops early only once the target is reached. *)
Lemma accumulate_spec target sorted total us t :
  0 <= total -> total + sumZ EffectiveAmount (filter (fun u => IsEffectivelyZero u = false) sorted) < 2 ^ 63 ->
  accumulate target sorted total = (us, t) ->
  us `sublist_of` filter (fun u => IsEffectivelyZero u = false) sorted
  /\ t = total + sumZ EffectiveAmount us
  /\ (target <= t \/ us = filter (fun u => IsEffectivelyZero u = false) sorted).
Proof.
  revert total us t. induction sorted as [|u sorted IH]; intros total us t H0 Hr E; simpl in E.
  { simplify_eq/=. split_and!; [apply sublist_nil_l|lia|by right]. }
  rewrite filter_cons in Hr |- *. destruct (IsEffectivelyZero u) eqn:Ez; simpl in Hr.
  { destruct (IH _ _ _ H0 Hr E) as (Hs & -> & Hd). split_and!; done. }
  assert (0 < EffectiveAmount u) as Hpu by (unfold IsEffectivelyZero in Ez; lia).
  assert (0 <= spendable sorted) as Hnn by apply spendable_nonneg. unfold spendable in Hnn.
  rewrite int64_id in E by (unfold in_int64; lia).
  destruct (Z.leb_spec target (total + EffectiveAmount u)).
  { simplify_eq/=. split_and!; [apply sublist_skip, sublist_nil_l|lia|by left]. }
  destruct (accumulate target sorted _) as [us' t'] eqn:E'. simplify_eq/=.
  destruct (IH (total + EffectiveAmount u) us' t ltac:(lia) ltac:(lia) E') as (Hs & -> & Hd).
  split_and!; [by apply sublist_skip|simpl; lia|].
  destruct Hd as [|Hd]; [by left|right; by rewrite Hd].
Qed.

Lemma Accumulator_spec s utxos :
  inRange s utxos ->
  (Target s <= spendable utxos /\ funds s utxos (Accumulator s utxos))
  \/ (spendable utxos < Target s /\ Accumulator s utxos = emptyResult).
Proof.
  intros [Ht Hc Hw Hs Hf]. unfold Accumulator.
  pose proof (sort_stable_perm byEffectiveDesc utxos) as Hp.
  assert (filter (fun u => IsEffectivelyZero u = false) (sort_stable byEffectiveDesc utxos)
          ≡ₚ filter (fun u => IsEffectivelyZero u = false) utxos) as Hpf by by rewrite Hp.
  pose proof (sumZ_perm EffectiveAmount _ _ Hpf) as Hsum. fold (spendable utxos) in Hsum.
  destruct (accumulate _ _ _) as [us t] eqn:E.
  destruct (accumulate_spec (Target s) (sort_stable byEffectiveDesc utxos) 0 us t
              ltac:(lia) ltac:(lia) E) as (Hsub & Hteq & Hd).
  destruct (Z.ltb_spec t (Target s)) as [Hlt|Hge].
  - right. split; [|done]. destruct Hd as [Hd|Hd]; [lia|]. rewrite Hd, Hsum in Hteq. lia.
  - left. assert (us ⊆+ utxos) as Hsm.
    { rewrite <- Hp. etransitivity; [by apply sublist_submseteq|].
      apply sublist_submseteq, sublist_filter. }
    assert (t <= spendable utxos) as Hle.
    { rewrite Hteq, <- Hsum. apply sumZ_sublist_le; [|done].
      apply Forall_forall. intros v [Hv _]%list_elem_of_filter.
      unfold IsEffectivelyZero in Hv. lia. }
    split; [lia|]. constructor; simpl; [done| |lia|apply sum64_spec|done|].
    + intros ->. simpl in Hteq. lia.
    + rewrite int64_id by (unfold in_int64; lia). lia.
Qed.

(** ** The tiered strategies *)

(** No selection is worth more than the spendable total. *)
Lemma spendable_mono us utxos : us ⊆+ utxos -> spendable us <= spendable utxos.
Proof.
  intros (l & Hp & Hs)%submseteq_sublist_r. unfold spendable.
  rewrite (sumZ_perm EffectiveAmount _ _ (filter_Permutation _ _ _ Hp)).
  apply sumZ_sublist_le.
  - apply Forall_forall. intros v [Hv _]%list_elem_of_filter. unfold IsEffectivelyZero in Hv. lia.
  - apply sublist_filter_all; [|apply Forall_forall; by intros v [? _]%list_elem_of_filter].
    etransitivity; [apply sublist_filter|done].
Qed.

Lemma sum_le_spendable us : sumZ EffectiveAmount us <= spendable us.
Proof.
  unfold spendable. induction us as [|u us IH]; [done|]. rewrite filter_cons.
  case_decide as Hz; simpl; unfold IsEffectivelyZero in Hz; lia.
Qed.

Lemma funds_spendable s utxos r : funds s utxos r -> Target s <= spendable utxos.
Proof.
  intros [Hsub _ He _ Hc _]. pose proof (spendable_mono _ _ Hsub).
  pose proof (sum_le_spendable (UTXOs r)). lia.
Qed.

Lemma Standard_cases s utxos :
  inRange s utxos ->
  exists r, Standard s utxos = Ok r
    /\ ((Target s <= spendable utxos /\ funds s utxos r)
        \/ (spendable utxos < Target s /\ r = emptyResult)).
Proof.
  intros Hir. unfold Standard.
  destruct (bnb_cases s utxos Hir) as (r & -> & Hr). simpl. case_decide as Hne.
  2: { destruct Hr as [->|[Hr _]]; [done|]. exists r. split; [done|]. left. eauto using funds_spendable. }
  case_decide as Hne'; eexists; (split; [done|]).
  - by apply Accumulator_spec.
  - destruct (ClosestMatch_cases s utxos Hir) as [[E _]|[Hf _]]; [by rewrite E in Hne'|].
    left. eauto using funds_spendable.
Qed.

(** C36. [Standard] funds the target whenever the outputs with a positive effective
    amount can: it returns outputs taken from the input, none twice, whose
    effective amounts sum to [Effective] and cover the target; when they cannot,
    it returns the empty selection.  It never panics. *)
Theorem standard_funds s utxos :
  inRange s utxos ->
  exists r, Standard s utxos = Ok r
    /\ ((Target s <= spendable utxos /\ funds s utxos r)
        \/ (spendable utxos < Target s /\ r = emptyResult)).
Proof. apply Standard_cases. Qed.

Lemma inRange_confirmed s utxos :
  inRange s utxos -> inRange s (filter (fun u => IsConfirmed u = true) utxos).
Proof.
  intros [Ht Hc Hw Hs Hf]. constructor; [done..| |].
  - eapply Z.le_lt_trans; [|exact Hs]. apply spendable_mono, sublist_submseteq, sublist_filter.
  - apply Forall_forall. intros u [_ Hu]%list_elem_of_filter.
    by apply (proj1 (Forall_forall _ _) Hf).
Qed.

(** [PreferConfirmed] spends confirmed outputs only, whenever they suffice for
    the target; otherwise it is [Standard] on all the outputs. *)
Theorem prefer_confirmed s utxos :
  inRange s utxos ->
  let confirmed := filter (fun u => IsConfirmed u = true) utxos in
  exists r, PreferConfirmed s utxos = Ok r
    /\ (Target s <= spendable confirmed ->
          funds s utxos r /\ Forall (fun u => IsConfirmed u = true) (UTXOs r))
    /\ (spendable confirmed < Target s -> Standard s utxos = Ok r).
Proof.
  intros Hir confirmed. unfold PreferConfirmed. fold confirmed.
  destruct (Standard_cases s utxos Hir) as (ra & Ea & _).
  destruct (Standard_cases s confirmed (inRange_confirmed s utxos Hir)) as (rc & Ec & Hc).
  case_decide as Hnil.
  { exists ra. split_and!; [done| |done]. rewrite Hnil. unfold spendable. simpl.
    destruct Hir. lia. }
  rewrite Ec. simpl. destruct Hc as [[Hle [Hsub Hne He Ht Hcov Hw]]|[Hlt ->]]; simpl.
  - rewrite decide_False by done. exists rc. split_and!; [done| |lia]. intros _. split.
    + constructor; try done. etransitivity; [exact Hsub|]. apply sublist_submseteq, sublist_filter.
    + apply Forall_forall. intros u Hu.
      eapply elem_of_submseteq in Hu; [|exact Hsub]. by apply list_elem_of_filter in Hu as [? _].
  - exists ra. split_and!; [done|lia|done].
Qed.

(** ** Random draw *)

Section random_draw.
Context (Intn : nat -> Z -> Z).
(** [rand.Intn(n)] returns a number in [[0, n)]. *)
Hypothesis Intn_range : forall k n, 0 < n -> 0 <= Intn k n < n.

Lemma swap_perm l i j : (i < length l)%nat -> (j < length l)%nat ->
  exists l', swap l i j = Ok l' /\ l' ≡ₚ l /\ length l' = length l.
Proof.
  intros Hi Hj. unfold swap.
  destruct (lookup_lt_is_Some_2 _ _ Hi) as [x Hx].
  destruct (lookup_lt_is_Some_2 _ _ Hj) as [y Hy].
  rewrite (proj2 (index_Ok _ _ _) Hx), (proj2 (index_Ok _ _ _) Hy). simpl.
  eexists. split; [done|]. split; [|by rewrite !length_insert].
  by apply Permutation_insert_swap.
Qed.

Lemma shuffle_perm i call l : (i < length l)%nat \/ i = 0%nat ->
  exists l', shuffle Intn i call l = Ok l' /\ l' ≡ₚ l.
Proof.
  revert call l. induction i as [|i IH]; intros call l Hi; simpl; [eauto|].
  destruct Hi as [Hi|]; [|done].
  pose proof (Intn_range call (Z.of_nat (S i) + 1) ltac:(lia)).
  destruct (swap_perm l (S i) (Z.to_nat (Intn call (Z.of_nat (S i) + 1))))
    as (l1 & -> & Hp & Hl); [lia..|]. simpl.
  destruct (IH (S call) l1) as (l2 & -> & Hp2); [lia|].
  exists l2. split; [done|]. by rewrite Hp2.
Qed.

(** The draw takes a prefix of the shuffled outputs and keeps its exact total. *)
Lemma drawUntil_spec t l total us tot :
  Z.abs total + sumZ (fun u => Z.abs (EffectiveAmount u)) l < 2 ^ 63 ->
  drawUntil t l total = Some (us, tot) ->
  us `prefix_of` l /\ us <> [] /\ tot = total + sumZ EffectiveAmount us /\ t <= tot.
Proof.
  revert total us tot. induction l as [|u l IH]; intros total us tot Hr E; simpl in *; [done|].
  assert (0 <= sumZ (fun u => Z.abs (EffectiveAmount u)) l).
  { apply sumZ_nonneg, Forall_true. simpl. lia. }
  rewrite int64_id in E by (unfold in_int64; lia).
  destruct (Z.leb_spec t (total + EffectiveAmount u)); simplify_eq/=.
  { split_and!; [|done|lia|done]. by apply prefix_cons, prefix_nil. }
  destruct (drawUntil t l _) as [[us' tot']|] eqn:E'; simplify_eq/=.
  destruct (IH (total + EffectiveAmount u) us' tot ltac:(lia) E') as (? & ? & -> & ?).
  split_and!; [by apply prefix_cons|done|lia|done].
Qed.

(** [randomDraw] is a selection from the input for every outcome of the
    random numbers: the shuffle is a permutation (no index out of range, no
    output lost or repeated), and what is returned is empty or covers
    [target + costOfChange] with exact totals. *)
Theorem random_draw_sound utxos target costOfChange :
  0 <= target -> 0 <= costOfChange -> target + costOfChange < 2 ^ 63 ->
  sumZ (fun u => Z.abs (EffectiveAmount u)) utxos < 2 ^ 63 ->
  exists r, randomDraw Intn utxos target costOfChange = Ok r
    /\ (r = emptyResult \/
        (UTXOs r ⊆+ utxos /\ UTXOs r <> [] /\ Effective r = sumZ EffectiveAmount (UTXOs r)
         /\ Total r = int64 (sumZ Amount (UTXOs r))
         /\ target + costOfChange <= Effective r /\ Waste r = Effective r - target)).
Proof.
  intros Ht Hc Hw Hs. unfold randomDraw. case_decide as Hnil; [eauto|].
  assert (length utxos <> 0)%nat by (by destruct utxos).
  destruct (shuffle_perm (length utxos - 1) 0 utxos) as (l & -> & Hp); [lia|]. simpl.
  rewrite (int64_id (target + _)) by (unfold in_int64; lia).
  destruct (drawUntil _ l 0) as [[us tot]|] eqn:E; [|eauto].
  rewrite <- (sumZ_perm _ _ _ Hp) in Hs.
  destruct (drawUntil_spec (target + costOfChange) l 0 us tot Hs E) as (Hpre & Hne & -> & Hge).
  eexists. split; [done|]. right. simpl.
  assert (us ⊆+ l) as Hsub by (destruct Hpre as [k ->]; apply submseteq_inserts_r; done).
  assert (sumZ EffectiveAmount us < 2 ^ 63).
  { destruct Hpre as [k ->]. rewrite sumZ_app in Hs.
    pose proof (sumZ_mono EffectiveAmount (fun u => Z.abs (EffectiveAmount u)) us ltac:(simpl; lia)).
    pose proof (sumZ_nonneg (fun u => Z.abs (EffectiveAmount u)) k
                  ltac:(apply Forall_true; simpl; lia)). lia. }
  rewrite (sum64_exact EffectiveAmount us), (sum64_spec Amount us), (int64_id (_ - target))
    by (unfold in_int64; lia).
  rewrite <- Hp. split_and!; try done; lia.
Qed.
End random_draw.

(** ** Concrete instances *)

(** A wallet of five outputs, one of them dust and one unconfirmed. *)
Definition sampleUTXOs : list UTXO :=
  [ mkUTXO (go "a0") 0 5148 5000 148 10; mkUTXO (go "a1") 1 3148 3000 148 0;
    mkUTXO (go "a2") 0 100 (-48) 148 12; mkUTXO (go "a3") 2 2148 2000 148 14;
    mkUTXO (go "a4") 0 2148 2000 148 15 ].
Definition sampleSelector : Selector := mkSelector 6900 200 100.

Lemma sample_inRange : inRange sampleSelector sampleUTXOs.
Proof.
  constructor; [reflexivity|discriminate|reflexivity|reflexivity|].
  repeat (constructor; [split; split; (reflexivity || discriminate)|]). constructor.
Qed.

Lemma bnb_optimal_witness :
  exists r, BranchAndBound sampleSelector sampleUTXOs = Ok r
    /\ exactMatch sampleSelector sampleUTXOs r /\ Waste r <= 100.
Proof.
  apply (bnb_optimal sampleSelector sampleUTXOs
           [mkUTXO (go "a0") 0 5148 5000 148 10; mkUTXO (go "a3") 2 2148 2000 148 14]).
  - exact sample_inRange.
  - discriminate.
  - unfold sampleUTXOs. solve_submseteq.
  - repeat constructor.
  - split; discriminate.
Defined.

Lemma bnb_sound_witness :
  exists r, BranchAndBound sampleSelector sampleUTXOs = Ok r
    /\ (r = emptyResult \/ exactMatch sampleSelector sampleUTXOs r).
Proof. apply bnb_sound. exact sample_inRange. Defined.

Lemma closest_match_spec_witness :
  let r := ClosestMatch sampleSelector sampleUTXOs in
  (r = emptyResult /\ forall v, v ∈ sampleUTXOs -> EffectiveAmount v < 7100)
  \/ (funds sampleSelector sampleUTXOs r /\ exists u, UTXOs r = [u]
       /\ 7100 <= EffectiveAmount u
       /\ forall v, v ∈ sampleUTXOs -> 7100 <= EffectiveAmount v ->
            EffectiveAmount u <= EffectiveAmount v).
Proof. exact (closest_match_spec sampleSelector sampleUTXOs sample_inRange). Defined.

Lemma standard_funds_witness :
  exists r, Standard sampleSelector sampleUTXOs = Ok r
    /\ ((6900 <= spendable sampleUTXOs /\ funds sampleSelector sampleUTXOs r)
        \/ (spendable sampleUTXOs < 6900 /\ r = emptyResult)).
Proof. exact (standard_funds sampleSelector sampleUTXOs sample_inRange). Defined.

Lemma prefer_confirmed_witness :
  exists r, PreferConfirmed sampleSelector sampleUTXOs = Ok r
    /\ funds sampleSelector sampleUTXOs r /\ Forall (fun u => IsConfirmed u = true) (UTXOs r).
Proof.
  destruct (prefer_confirmed sampleSelector sampleUTXOs sample_inRange) as (r & E & H & _).
  exists r. split; [exact E|]. apply H. vm_compute. discriminate.
Defined.

Lemma random_draw_sound_witness :
  exists r, randomDraw (fun _ _ => 0) sampleUTXOs 4000 100 = Ok r
    /\ (r = emptyResult \/
        (UTXOs r ⊆+ sampleUTXOs /\ UTXOs r <> [] /\ Effective r = sumZ EffectiveAmount (UTXOs r)
         /\ Total r = int64 (sumZ Amount (UTXOs r))
         /\ 4000 + 100 <= Effective r /\ Waste r = Effective r - 4000)).
Proof.
  apply (random_draw_sound (fun _ _ => 0)); [intros k n Hn; lia|lia|lia|lia|reflexivity].
Defined.

(** Among the selections of equal waste (5000 + 2000, 3000 + 2000 + 2000) the search
    keeps the last one it meets. *)
Example bnb_sample :
  (fun r => (Waste r, length (UTXOs r), Effective r)) <$>
    (match BranchAndBound sampleSelector sampleUTXOs with Ok r => Some r | _ => None end)
  = Some (100, 3%nat, 7000).
Proof. vm_compute. reflexivity. Qed.
