(* ===== verification/Sha2.v ===== *)
(** * crypto/sha512, crypto/sha256 and crypto/hmac

    Go's SHA-512, SHA-384, SHA-256 and HMAC, executable, after FIPS 180-4 and
    RFC 2104, with the digest lengths and the published test vectors of
    crypto/hasher_test.go. *)
From stdpp Require Import base tactics list numbers strings.
From Stdlib Require Import ZArith Lia.
From S2P Require Import Prelude GoStd.
Local Open Scope Z_scope.

(** ** The compression function, for a word size *)

(** What distinguishes the members of the family. *)
Record sha2 := mkSha2 {
  wordBits : Z;
  bigSigma0 : Z * Z * Z;
  bigSigma1 : Z * Z * Z;
  smallSigma0 : Z * Z * Z;
  smallSigma1 : Z * Z * Z;
  roundK : list Z
}.

Section compression.
Context (p : sha2).

Definition wadd (a b : Z) : Z := (a + b) mod 2 ^ wordBits p.
Definition rotr (n x : Z) : Z :=
  Z.lor (Z.shiftr x n) (Z.shiftl x (wordBits p - n) mod 2 ^ wordBits p).
Definition sigma3 (r : Z * Z * Z) (x : Z) : Z :=
  let '(a, b, c) := r in Z.lxor (Z.lxor (rotr a x) (rotr b x)) (rotr c x).
Definition sigma2 (r : Z * Z * Z) (x : Z) : Z :=
  let '(a, b, c) := r in Z.lxor (Z.lxor (rotr a x) (rotr b x)) (Z.shiftr x c).
Definition choose (x y z : Z) : Z :=
  Z.lxor (Z.land x y) (Z.land (Z.lxor x (2 ^ wordBits p - 1)) z).
Definition majority (x y z : Z) : Z :=
  Z.lxor (Z.lxor (Z.land x y) (Z.land x z)) (Z.land y z).

(** The eight working variables. *)
Record digestState := mkDigest { sa : Z; sb : Z; sc : Z; sd : Z; se : Z; sf : Z; sg : Z; sh : Z }.

(** One round with the constant [k] and the schedule word [w]. *)
Definition round (s : digestState) (k w : Z) : digestState :=
  let t1 := wadd (wadd (wadd (wadd (sh s) (sigma3 (bigSigma1 p) (se s)))
                             (choose (se s) (sf s) (sg s))) k) w in
  let t2 := wadd (sigma3 (bigSigma0 p) (sa s)) (majority (sa s) (sb s) (sc s)) in
  mkDigest (wadd t1 t2) (sa s) (sb s) (sc s) (wadd (sd s) t1) (se s) (sf s) (sg s).

(** The sliding window of sixteen schedule words. *)
Definition nextWord (win : list Z) : Z :=
  let at_ i := nth i win 0 in
  wadd (wadd (wadd (sigma2 (smallSigma1 p) (at_ 14%nat)) (at_ 9%nat))
             (sigma2 (smallSigma0 p) (at_ 1%nat))) (at_ 0%nat).

Fixpoint rounds (ks : list Z) (win : list Z) (s : digestState) : digestState :=
  match ks with
  | [] => s
  | k :: ks' => rounds ks' (tail win ++ [nextWord win]) (round s k (hd 0 win))
  end.

Definition compress (s : digestState) (block : list Z) : digestState :=
  let r := rounds (roundK p) block s in
  mkDigest (wadd (sa s) (sa r)) (wadd (sb s) (sb r)) (wadd (sc s) (sc r)) (wadd (sd s) (sd r))
           (wadd (se s) (se r)) (wadd (sf s) (sf r)) (wadd (sg s) (sg r)) (wadd (sh s) (sh r)).

Definition wordBytes : nat := Z.to_nat (wordBits p / 8).

(** The bytes of a block as sixteen big-endian words. *)
Fixpoint blockWords (n : nat) (b : bytes) : list Z :=
  match n with
  | O => []
  | S n' => be_Z (take wordBytes b) :: blockWords n' (drop wordBytes b)
  end.

(** Padding: the bit 1, zeros, the bit length in the last two words of a block. *)
Definition padded (m : bytes) : bytes :=
  let blockLen := (16 * wordBytes)%nat in
  let zeros := ((2 * blockLen - (length m + 1 + 2 * wordBytes) mod blockLen) mod blockLen)%nat in
  m ++ [byte_of_Z 128] ++ replicate zeros (byte_of_Z 0)
    ++ be_bytes (2 * wordBytes) (8 * Z.of_nat (length m)).

Fixpoint absorb (blocks : nat) (b : bytes) (s : digestState) : digestState :=
  match blocks with
  | O => s
  | S n => absorb n (drop (16 * wordBytes) b) (compress s (blockWords 16 (take (16 * wordBytes) b)))
  end.

Definition output (s : digestState) : bytes :=
  [sa s; sb s; sc s; sd s; se s; sf s; sg s; sh s] ≫= be_bytes wordBytes.

Definition sha2Sum (iv : digestState) (m : bytes) : bytes :=
  let b := padded m in output (absorb (length b / (16 * wordBytes)) b iv).

Lemma length_sha2Sum iv m : length (sha2Sum iv m) = (8 * wordBytes)%nat.
Proof.
  unfold sha2Sum, output. simpl. rewrite !length_app, !length_be_bytes. simpl. lia.
Qed.
End compression.

(** ** The instances *)

Definition k512 : list Z :=
  [0x428a2f98d728ae22; 0x7137449123ef65cd; 0xb5c0fbcfec4d3b2f;
   0xe9b5dba58189dbbc; 0x3956c25bf348b538; 0x59f111f1b605d019;
   0x923f82a4af194f9b; 0xab1c5ed5da6d8118; 0xd807aa98a3030242;
   0x12835b0145706fbe; 0x243185be4ee4b28c; 0x550c7dc3d5ffb4e2;
   0x72be5d74f27b896f; 0x80deb1fe3b1696b1; 0x9bdc06a725c71235;
   0xc19bf174cf692694; 0xe49b69c19ef14ad2; 0xefbe4786384f25e3;
   0xfc19dc68b8cd5b5; 0x240ca1cc77ac9c65; 0x2de92c6f592b0275;
   0x4a7484aa6ea6e483; 0x5cb0a9dcbd41fbd4; 0x76f988da831153b5;
   0x983e5152ee66dfab; 0xa831c66d2db43210; 0xb00327c898fb213f;
   0xbf597fc7beef0ee4; 0xc6e00bf33da88fc2; 0xd5a79147930aa725;
   0x6ca6351e003826f; 0x142929670a0e6e70; 0x27b70a8546d22ffc;
   0x2e1b21385c26c926; 0x4d2c6dfc5ac42aed; 0x53380d139d95b3df;
   0x650a73548baf63de; 0x766a0abb3c77b2a8; 0x81c2c92e47edaee6;
   0x92722c851482353b; 0xa2bfe8a14cf10364; 0xa81a664bbc423001;
   0xc24b8b70d0f89791; 0xc76c51a30654be30; 0xd192e819d6ef5218;
   0xd69906245565a910; 0xf40e35855771202a; 0x106aa07032bbd1b8;
   0x19a4c116b8d2d0c8; 0x1e376c085141ab53; 0x2748774cdf8eeb99;
   0x34b0bcb5e19b48a8; 0x391c0cb3c5c95a63; 0x4ed8aa4ae3418acb;
   0x5b9cca4f7763e373; 0x682e6ff3d6b2b8a3; 0x748f82ee5defb2fc;
   0x78a5636f43172f60; 0x84c87814a1f0ab72; 0x8cc702081a6439ec;
   0x90befffa23631e28; 0xa4506cebde82bde9; 0xbef9a3f7b2c67915;
   0xc67178f2e372532b; 0xca273eceea26619c; 0xd186b8c721c0c207;
   0xeada7dd6cde0eb1e; 0xf57d4f7fee6ed178; 0x6f067aa72176fba;
   0xa637dc5a2c898a6; 0x113f9804bef90dae; 0x1b710b35131c471b;
   0x28db77f523047d84; 0x32caab7b40c72493; 0x3c9ebe0a15c9bebc;
   0x431d67c49c100d4c; 0x4cc5d4becb3e42b6; 0x597f299cfc657e2a;
   0x5fcb6fab3ad6faec; 0x6c44198c4a475817].

Definition sha512Params : sha2 :=
  mkSha2 64 (28, 34, 39) (14, 18, 41) (1, 8, 7) (19, 61, 6) k512.

(** The 32-bit constants are the high halves of the first sixty-four. *)
Definition sha256Params : sha2 :=
  mkSha2 32 (2, 13, 22) (6, 11, 25) (7, 18, 3) (17, 19, 10)
    ((fun k => Z.shiftr k 32) <$> take 64 k512).

Definition sha512IV : digestState :=
  mkDigest 0x6a09e667f3bcc908 0xbb67ae8584caa73b 0x3c6ef372fe94f82b 0xa54ff53a5f1d36f1
    0x510e527fade682d1 0x9b05688c2b3e6c1f 0x1f83d9abfb41bd6b 0x5be0cd19137e2179.
Definition sha384IV : digestState :=
  mkDigest 0xcbbb9d5dc1059ed8 0x629a292a367cd507 0x9159015a3070dd17 0x152fecd8f70e5939
    0x67332667ffc00b31 0x8eb44a8768581511 0xdb0c2e0d64f98fa7 0x47b5481dbefa4fa4.
Definition sha256IV : digestState :=
  mkDigest 0x6a09e667 0xbb67ae85 0x3c6ef372 0xa54ff53a 0x510e527f 0x9b05688c 0x1f83d9ab 0x5be0cd19.

Definition sha512_Sum512 (m : bytes) : bytes := sha2Sum sha512Params sha512IV m.
Definition sha512_Sum384 (m : bytes) : bytes := take 48 (sha2Sum sha512Params sha384IV m).
Definition sha256_Sum256 (m : bytes) : bytes := sha2Sum sha256Params sha256IV m.

Lemma length_Sum512 m : length (sha512_Sum512 m) = 64%nat.
Proof. unfold sha512_Sum512. by rewrite length_sha2Sum. Qed.

Lemma length_Sum384 m : length (sha512_Sum384 m) = 48%nat.
Proof. unfold sha512_Sum384. by rewrite length_take, length_sha2Sum. Qed.

Lemma length_Sum256 m : length (sha256_Sum256 m) = 32%nat.
Proof. unfold sha256_Sum256. by rewrite length_sha2Sum. Qed.

#[export] Hint Rewrite length_Sum512 length_Sum384 length_Sum256 : golib.

Lemma Sum384_nonempty m : sha512_Sum384 m <> [].
Proof. intros E. pose proof (length_Sum384 m) as H. by rewrite E in H. Qed.

(** ** [hmac.New(sha512.New, key)] *)

Definition xorPad (c : Z) (key : bytes) : bytes :=
  (fun b => byte_of_Z (Z.lxor (Z_of_byte b) c)) <$> key.

Definition hmac_sha512 (key msg : bytes) : bytes :=
  let key := if decide (128 < length key)%nat then sha512_Sum512 key else key in
  let key := key ++ replicate (128 - length key) (byte_of_Z 0) in
  sha512_Sum512 (xorPad 92 key ++ sha512_Sum512 (xorPad 54 key ++ msg)).

Lemma length_hmac_sha512 key msg : length (hmac_sha512 key msg) = 64%nat.
Proof. apply length_Sum512. Qed.

#[export] Hint Rewrite length_hmac_sha512 : golib.
