(* ===== verification/Aes.v ===== *)
(** * crypto/aes and crypto/cipher

    The [cipher.Block] interface as a class, cipher block chaining over any
    implementation of it, and AES (FIPS 197) as an instance whose decryption is
    proved to invert its encryption. *)
From stdpp Require Import base tactics list numbers strings.
From Stdlib Require Import ZArith Lia Btauto Init.Byte.
From S2P Require Import Prelude GoStd.
Local Open Scope Z_scope.

(** ** The interface *)

(** [aes.NewCipher] accepts the keys of [bc_key]; a block has [bc_size] bytes. *)
Class BlockCipher := {
  bc_size : nat;
  bc_key : bytes -> bool;
  bc_encrypt : bytes -> bytes -> bytes;
  bc_decrypt : bytes -> bytes -> bytes
}.

Class BlockCipherLaws (C : BlockCipher) : Prop := {
  bc_size_pos : (0 < bc_size)%nat;
  bc_encrypt_length k b :
    bc_key k = true -> length b = bc_size -> length (bc_encrypt k b) = bc_size;
  bc_decrypt_encrypt k b :
    bc_key k = true -> length b = bc_size -> bc_decrypt k (bc_encrypt k b) = b
}.

(** ** Cipher block chaining *)

Definition xorByte (a b : byte) : byte := byte_of_Z (Z.lxor (Z_of_byte a) (Z_of_byte b)).
Definition xorBytes (a b : bytes) : bytes := zip_with xorByte a b.

Section cbc.
Context {C : BlockCipher}.

(** [CryptBlocks] on [n] whole blocks; the previous ciphertext block is the state. *)
Fixpoint cbcEncryptBlocks (key : bytes) (n : nat) (prev src : bytes) : bytes :=
  match n with
  | O => []
  | S n' =>
      let c := bc_encrypt key (xorBytes (take bc_size src) prev) in
      c ++ cbcEncryptBlocks key n' c (drop bc_size src)
  end.

Fixpoint cbcDecryptBlocks (key : bytes) (n : nat) (prev src : bytes) : bytes :=
  match n with
  | O => []
  | S n' =>
      let c := take bc_size src in
      xorBytes (bc_decrypt key c) prev ++ cbcDecryptBlocks key n' c (drop bc_size src)
  end.

Definition CBCEncrypt (key iv src : bytes) : bytes :=
  cbcEncryptBlocks key (length src / bc_size) iv src.
Definition CBCDecrypt (key iv src : bytes) : bytes :=
  cbcDecryptBlocks key (length src / bc_size) iv src.
End cbc.

Lemma lxor_byte_range a b : 0 <= a < 256 -> 0 <= b < 256 -> 0 <= Z.lxor a b < 256.
Proof.
  intros Ha Hb. replace (Z.lxor a b) with (Z.lxor a b mod 2 ^ 8).
  { apply Z.mod_pos_bound. lia. }
  rewrite <- (Z.mod_small a (2 ^ 8)) at 2 by lia. rewrite <- (Z.mod_small b (2 ^ 8)) at 2 by lia.
  apply Z.bits_inj_iff'. intros i Hi. rewrite Z.lxor_spec.
  destruct (Z.lt_decidable i 8).
  - rewrite !Z.mod_pow2_bits_low, Z.lxor_spec by done. done.
  - rewrite !Z.mod_pow2_bits_high by lia. done.
Qed.

Lemma xorByte_cancel a b : xorByte (xorByte a b) b = a.
Proof.
  unfold xorByte.
  rewrite Z_of_byte_of_Z_small by (apply lxor_byte_range; apply Z_of_byte_range).
  rewrite Z.lxor_assoc, Z.lxor_nilpotent, Z.lxor_0_r. apply byte_of_Z_of_byte.
Qed.

Lemma xorBytes_cancel a b : length a = length b -> xorBytes (xorBytes a b) b = a.
Proof.
  unfold xorBytes. revert b. induction a as [|x a IH]; intros [|y b] Hl; simplify_eq/=; [done|].
  by rewrite xorByte_cancel, IH.
Qed.

Lemma length_xorBytes a b : length a = length b -> length (xorBytes a b) = length a.
Proof. intros H. unfold xorBytes. rewrite length_zip_with. lia. Qed.

Section cbc_laws.
Context {C : BlockCipher} {L : BlockCipherLaws C}.

Lemma length_cbcEncryptBlocks key n prev src :
  bc_key key = true -> length src = (n * bc_size)%nat -> length prev = bc_size ->
  length (cbcEncryptBlocks key n prev src) = length src.
Proof.
  intros Hk. revert prev src. induction n as [|n IH]; intros prev src Hs Hp; simpl; [lia|].
  assert (length (take bc_size src) = bc_size) as Ht by (rewrite length_take; lia).
  assert (length (bc_encrypt key (xorBytes (take bc_size src) prev)) = bc_size) as He.
  { apply bc_encrypt_length; [done|]. rewrite length_xorBytes; lia. }
  rewrite length_app, IH, He, length_drop by (done || rewrite length_drop; lia). lia.
Qed.

Lemma cbcDecrypt_encryptBlocks key n prev src :
  bc_key key = true -> length src = (n * bc_size)%nat -> length prev = bc_size ->
  cbcDecryptBlocks key n prev (cbcEncryptBlocks key n prev src) = src.
Proof.
  intros Hk. revert prev src. induction n as [|n IH]; intros prev src Hs Hp; simpl.
  { destruct src; [done|simpl in Hs; lia]. }
  assert (length (take bc_size src) = bc_size) as Ht by (rewrite length_take; lia).
  assert (length (xorBytes (take bc_size src) prev) = bc_size) as Hx
    by (rewrite length_xorBytes; lia).
  pose proof (bc_encrypt_length key _ Hk Hx) as He.
  rewrite take_app_length', drop_app_length' by done.
  rewrite bc_decrypt_encrypt, xorBytes_cancel by (done || lia).
  rewrite IH by (done || rewrite length_drop; lia). apply take_drop.
Qed.

(** Decryption under the same key and IV inverts encryption, on whole blocks. *)
Lemma CBCDecrypt_Encrypt key iv src :
  bc_key key = true -> length iv = bc_size -> (length src mod bc_size = 0)%nat ->
  CBCDecrypt key iv (CBCEncrypt key iv src) = src.
Proof.
  intros Hk Hiv Hm. pose proof bc_size_pos.
  assert (length src = (length src / bc_size * bc_size)%nat) as Hl.
  { pose proof (Nat.div_mod_eq (length src) bc_size). lia. }
  unfold CBCDecrypt, CBCEncrypt.
  rewrite length_cbcEncryptBlocks by done. by apply cbcDecrypt_encryptBlocks.
Qed.

Lemma length_CBCEncrypt key iv src :
  bc_key key = true -> length iv = bc_size -> (length src mod bc_size = 0)%nat ->
  length (CBCEncrypt key iv src) = length src.
Proof.
  intros Hk Hiv Hm. pose proof bc_size_pos. unfold CBCEncrypt.
  apply length_cbcEncryptBlocks; [done| |done].
  pose proof (Nat.div_mod_eq (length src) bc_size). lia.
Qed.
End cbc_laws.

(** ** AES *)

Definition sbox : list Z :=
  [99; 124; 119; 123; 242; 107; 111; 197; 48; 1; 103; 43; 254; 215; 171; 118;
   202; 130; 201; 125; 250; 89; 71; 240; 173; 212; 162; 175; 156; 164; 114; 192;
   183; 253; 147; 38; 54; 63; 247; 204; 52; 165; 229; 241; 113; 216; 49; 21;
   4; 199; 35; 195; 24; 150; 5; 154; 7; 18; 128; 226; 235; 39; 178; 117;
   9; 131; 44; 26; 27; 110; 90; 160; 82; 59; 214; 179; 41; 227; 47; 132;
   83; 209; 0; 237; 32; 252; 177; 91; 106; 203; 190; 57; 74; 76; 88; 207;
   208; 239; 170; 251; 67; 77; 51; 133; 69; 249; 2; 127; 80; 60; 159; 168;
   81; 163; 64; 143; 146; 157; 56; 245; 188; 182; 218; 33; 16; 255; 243; 210;
   205; 12; 19; 236; 95; 151; 68; 23; 196; 167; 126; 61; 100; 93; 25; 115;
   96; 129; 79; 220; 34; 42; 144; 136; 70; 238; 184; 20; 222; 94; 11; 219;
   224; 50; 58; 10; 73; 6; 36; 92; 194; 211; 172; 98; 145; 149; 228; 121;
   231; 200; 55; 109; 141; 213; 78; 169; 108; 86; 244; 234; 101; 122; 174; 8;
   186; 120; 37; 46; 28; 166; 180; 198; 232; 221; 116; 31; 75; 189; 139; 138;
   112; 62; 181; 102; 72; 3; 246; 14; 97; 53; 87; 185; 134; 193; 29; 158;
   225; 248; 152; 17; 105; 217; 142; 148; 155; 30; 135; 233; 206; 85; 40; 223;
   140; 161; 137; 13; 191; 230; 66; 104; 65; 153; 45; 15; 176; 84; 187; 22].

Definition invSbox : list Z :=
  [82; 9; 106; 213; 48; 54; 165; 56; 191; 64; 163; 158; 129; 243; 215; 251;
   124; 227; 57; 130; 155; 47; 255; 135; 52; 142; 67; 68; 196; 222; 233; 203;
   84; 123; 148; 50; 166; 194; 35; 61; 238; 76; 149; 11; 66; 250; 195; 78;
   8; 46; 161; 102; 40; 217; 36; 178; 118; 91; 162; 73; 109; 139; 209; 37;
   114; 248; 246; 100; 134; 104; 152; 22; 212; 164; 92; 204; 93; 101; 182; 146;
   108; 112; 72; 80; 253; 237; 185; 218; 94; 21; 70; 87; 167; 141; 157; 132;
   144; 216; 171; 0; 140; 188; 211; 10; 247; 228; 88; 5; 184; 179; 69; 6;
   208; 44; 30; 143; 202; 63; 15; 2; 193; 175; 189; 3; 1; 19; 138; 107;
   58; 145; 17; 65; 79; 103; 220; 234; 151; 242; 207; 206; 240; 180; 230; 115;
   150; 172; 116; 34; 231; 173; 53; 133; 226; 249; 55; 232; 28; 117; 223; 110;
   71; 241; 26; 113; 29; 41; 197; 137; 111; 183; 98; 14; 170; 24; 190; 27;
   252; 86; 62; 75; 198; 210; 121; 32; 154; 219; 192; 254; 120; 205; 90; 244;
   31; 221; 168; 51; 136; 7; 199; 49; 177; 18; 16; 89; 39; 128; 236; 95;
   96; 81; 127; 169; 25; 181; 74; 13; 45; 229; 122; 159; 147; 201; 156; 239;
   160; 224; 59; 77; 174; 42; 245; 176; 200; 235; 187; 60; 131; 83; 153; 97;
   23; 43; 4; 126; 186; 119; 214; 38; 225; 105; 20; 99; 85; 33; 12; 125].

Definition subByte (x : Z) : Z := nth (Z.to_nat x) sbox 0.
Definition invSubByte (x : Z) : Z := nth (Z.to_nat x) invSbox 0.

(** Multiplication by x in GF(2^8) modulo x^8 + x^4 + x^3 + x + 1. *)
Definition xtime (x : Z) : Z :=
  Z.lxor (Z.land (Z.shiftl x 1) 255) (if Z.testbit x 7 then 27 else 0).

(** The state is sixteen bytes, column after column. *)
Definition subBytes (s : list Z) : list Z := subByte <$> s.
Definition invSubBytes (s : list Z) : list Z := invSubByte <$> s.

Definition permute (idx : list nat) (s : list Z) : list Z := (fun i => nth i s 0) <$> idx.
Definition shiftRows : list Z -> list Z :=
  permute [0; 5; 10; 15; 4; 9; 14; 3; 8; 13; 2; 7; 12; 1; 6; 11]%nat.
Definition invShiftRows : list Z -> list Z :=
  permute [0; 13; 10; 7; 4; 1; 14; 11; 8; 5; 2; 15; 12; 9; 6; 3]%nat.

Definition mul2 := xtime.
Definition mul3 (x : Z) : Z := Z.lxor (xtime x) x.
Definition mul9 (x : Z) : Z := Z.lxor (xtime (xtime (xtime x))) x.
Definition mul11 (x : Z) : Z := Z.lxor (Z.lxor (xtime (xtime (xtime x))) (xtime x)) x.
Definition mul13 (x : Z) : Z := Z.lxor (Z.lxor (xtime (xtime (xtime x))) (xtime (xtime x))) x.
Definition mul14 (x : Z) : Z :=
  Z.lxor (Z.lxor (xtime (xtime (xtime x))) (xtime (xtime x))) (xtime x).

Definition xor4 (a b c d : Z) : Z := Z.lxor (Z.lxor a b) (Z.lxor c d).

Definition mixColumn (a b c d : Z) : list Z :=
  [ xor4 (mul2 a) (mul3 b) c d; xor4 a (mul2 b) (mul3 c) d;
    xor4 a b (mul2 c) (mul3 d); xor4 (mul3 a) b c (mul2 d) ].
Definition invMixColumn (a b c d : Z) : list Z :=
  [ xor4 (mul14 a) (mul11 b) (mul13 c) (mul9 d); xor4 (mul9 a) (mul14 b) (mul11 c) (mul13 d);
    xor4 (mul13 a) (mul9 b) (mul14 c) (mul11 d); xor4 (mul11 a) (mul13 b) (mul9 c) (mul14 d) ].

Fixpoint onColumns (f : Z -> Z -> Z -> Z -> list Z) (s : list Z) : list Z :=
  match s with
  | a :: b :: c :: d :: s' => f a b c d ++ onColumns f s'
  | _ => []
  end.
Definition mixColumns : list Z -> list Z := onColumns mixColumn.
Definition invMixColumns : list Z -> list Z := onColumns invMixColumn.

Definition addRoundKey (k s : list Z) : list Z := zip_with Z.lxor s k.

(** *** Key expansion *)

Definition subWord (w : list Z) : list Z := subByte <$> w.
Definition rotWord (w : list Z) : list Z := tail w ++ take 1 w.

(** Extend the schedule [ws] (last word first) up to [n] words. *)
Fixpoint expand (nk : nat) (fuel : nat) (i : nat) (rcon : Z) (ws : list (list Z)) : list (list Z) :=
  match fuel with
  | O => ws
  | S fuel' =>
      let temp := hd [] ws in
      let '(temp, rcon) :=
        if decide (i mod nk = 0)%nat
        then (zip_with Z.lxor (subWord (rotWord temp)) [rcon; 0; 0; 0], xtime rcon)
        else if decide (6 < nk /\ i mod nk = 4)%nat then (subWord temp, rcon)
        else (temp, rcon) in
      expand nk fuel' (S i) rcon (zip_with Z.lxor (nth (nk - 1) ws []) temp :: ws)
  end.

Fixpoint groupWords {A} (k n : nat) (l : list A) : list (list A) :=
  match n with O => [] | S n' => take k l :: groupWords k n' (drop k l) end.

(** The round keys, sixteen bytes each. *)
Definition keySchedule (key : bytes) : list (list Z) :=
  let nk := (length key / 4)%nat in
  let words := groupWords 4 nk ((Z_of_byte <$> key) : list Z) in
  let total := (4 * (nk + 7))%nat in
  let ws := reverse (expand nk (total - nk) nk 1 (reverse words)) in
  (@concat Z <$> groupWords 4 (nk + 7) ws : list (list Z)).

(** *** The cipher and its inverse, over the list of round keys *)

Definition aesRound (k s : list Z) : list Z := addRoundKey k (mixColumns (shiftRows (subBytes s))).
Definition aesLast (k s : list Z) : list Z := addRoundKey k (shiftRows (subBytes s)).
Definition invAesRound (k s : list Z) : list Z :=
  invSubBytes (invShiftRows (invMixColumns (addRoundKey k s))).
Definition invAesLast (k s : list Z) : list Z := invSubBytes (invShiftRows (addRoundKey k s)).

Fixpoint encRounds (ks : list (list Z)) (s : list Z) : list Z :=
  match ks with
  | [] => s
  | [k] => aesLast k s
  | k :: ks' => encRounds ks' (aesRound k s)
  end.

Fixpoint decRounds (ks : list (list Z)) (s : list Z) : list Z :=
  match ks with
  | [] => s
  | [k] => invAesLast k s
  | k :: ks' => invAesRound k (decRounds ks' s)
  end.

Definition encryptState (ks : list (list Z)) (s : list Z) : list Z :=
  match ks with [] => s | k :: ks' => encRounds ks' (addRoundKey k s) end.
Definition decryptState (ks : list (list Z)) (s : list Z) : list Z :=
  match ks with [] => s | k :: ks' => addRoundKey k (decRounds ks' s) end.

Definition aesEncryptBlock (key b : bytes) : bytes :=
  byte_of_Z <$> encryptState (keySchedule key) (Z_of_byte <$> b).
Definition aesDecryptBlock (key b : bytes) : bytes :=
  byte_of_Z <$> decryptState (keySchedule key) (Z_of_byte <$> b).

(** *** Decryption inverts encryption *)

Definition byteZ (x : Z) : Prop := 0 <= x < 256.

(** A well-formed state or round key. *)
Definition goodState (s : list Z) : Prop := length s = 16%nat /\ Forall byteZ s.

Lemma byteZ_tables :
  forallb (fun n => (invSubByte (subByte (Z.of_nat n)) =? Z.of_nat n)
                    && (0 <=? subByte (Z.of_nat n)) && (subByte (Z.of_nat n) <? 256)
                    && (0 <=? invSubByte (Z.of_nat n)) && (invSubByte (Z.of_nat n) <? 256))
          (seq 0 256) = true.
Proof. vm_compute. reflexivity. Qed.

Lemma subByte_spec x : byteZ x ->
  invSubByte (subByte x) = x /\ byteZ (subByte x) /\ byteZ (invSubByte x).
Proof.
  intros Hx. unfold byteZ in *. pose proof byteZ_tables as H.
  rewrite forallb_forall in H. specialize (H (Z.to_nat x)).
  rewrite in_seq, Z2Nat.id in H by lia. specialize (H ltac:(lia)). lia.
Qed.

Lemma invSubBytes_subBytes s : Forall byteZ s -> invSubBytes (subBytes s) = s.
Proof.
  unfold invSubBytes, subBytes. induction 1 as [|x s Hx Hs IH]; [done|]. simpl.
  f_equal; [by apply subByte_spec|exact IH].
Qed.

Lemma subBytes_good s : goodState s -> goodState (subBytes s).
Proof.
  intros [Hl Hf]. split; [by unfold subBytes; rewrite length_fmap|].
  apply Forall_fmap. eapply Forall_impl; [exact Hf|]. intros x Hx. by apply subByte_spec.
Qed.

(** Write a list of sixteen out. *)
Ltac sixteen s H :=
  do 16 (destruct s as [|? s]; [discriminate H|]); destruct s; [|discriminate H].

Lemma invShiftRows_shiftRows s : length s = 16%nat -> invShiftRows (shiftRows s) = s.
Proof. intros H. sixteen s H. reflexivity. Qed.

Lemma nth_byteZ i s : Forall byteZ s -> byteZ (nth i s 0).
Proof. intros H. revert i. induction H; intros [|i]; simpl; try done; unfold byteZ; lia. Qed.

Lemma shiftRows_good s : goodState s -> goodState (shiftRows s).
Proof.
  intros [_ Hf]. split; [done|]. apply Forall_fmap. apply Forall_forall.
  intros i _. by apply nth_byteZ.
Qed.

Lemma xtime_lxor a b : xtime (Z.lxor a b) = Z.lxor (xtime a) (xtime b).
Proof.
  unfold xtime. rewrite Z.lxor_spec, Z.shiftl_lxor.
  apply Z.bits_inj_iff'. intros i Hi. rewrite !Z.lxor_spec, !Z.land_spec, !Z.lxor_spec.
  destruct (Z.testbit a 7), (Z.testbit b 7); simpl xorb; rewrite ?Z.bits_0; btauto.
Qed.

Lemma xtime_byteZ x : byteZ (xtime x).
Proof.
  unfold xtime. apply lxor_byte_range.
  - change 255 with (Z.ones 8). rewrite Z.land_ones by lia. apply (Z.mod_pos_bound _ 256). lia.
  - destruct (Z.testbit x 7); lia.
Qed.

Lemma invMixColumn_mixColumn a b c d :
  match mixColumn a b c d with
  | [a'; b'; c'; d'] => invMixColumn a' b' c' d'
  | _ => []
  end = [a; b; c; d].
Proof.
  unfold mixColumn, invMixColumn, xor4, mul14, mul13, mul11, mul9, mul3, mul2.
  rewrite !xtime_lxor.
  repeat f_equal; apply Z.bits_inj_iff'; intros i Hi; rewrite !Z.lxor_spec; btauto.
Qed.

Lemma invMixColumns_mixColumns s : length s = 16%nat -> invMixColumns (mixColumns s) = s.
Proof.
  intros H. unfold invMixColumns, mixColumns. sixteen s H.
  cbn [onColumns app mixColumn].
  repeat match goal with
  | |- invMixColumn ?a ?b ?c ?d ++ _ = ?w :: ?x :: ?y :: ?z :: ?l =>
      change (w :: x :: y :: z :: l) with ([w; x; y; z] ++ l);
      apply (f_equal2 app); [exact (invMixColumn_mixColumn w x y z)|]
  end. reflexivity.
Qed.

Lemma mul3_byteZ x : byteZ x -> byteZ (mul3 x).
Proof. intros. apply lxor_byte_range; [apply xtime_byteZ|done]. Qed.

Lemma xor4_byteZ a b c d : byteZ a -> byteZ b -> byteZ c -> byteZ d -> byteZ (xor4 a b c d).
Proof. intros. unfold xor4. repeat apply lxor_byte_range; done. Qed.

Lemma mixColumns_good s : goodState s -> goodState (mixColumns s).
Proof.
  intros [H Hf]. unfold mixColumns. sixteen s H. split; [done|].
  repeat (apply Forall_cons in Hf as [? Hf]). cbn [onColumns app mixColumn].
  repeat (apply Forall_cons; split); try apply Forall_nil; try done;
    apply xor4_byteZ; auto using xtime_byteZ, mul3_byteZ; apply xtime_byteZ.
Qed.

Lemma addRoundKey_cancel k s : length k = length s -> addRoundKey k (addRoundKey k s) = s.
Proof.
  unfold addRoundKey. revert k. induction s as [|x s IH]; intros [|y k] Hl; simplify_eq/=; [done|].
  rewrite IH by done. by rewrite Z.lxor_assoc, Z.lxor_nilpotent, Z.lxor_0_r.
Qed.

Lemma addRoundKey_good k s : goodState k -> goodState s -> goodState (addRoundKey k s).
Proof.
  intros [Hk Hfk] [Hs Hfs]. unfold addRoundKey. split; [rewrite length_zip_with; lia|].
  clear Hk Hs. revert k Hfk. induction Hfs as [|x s Hx Hs IH]; intros [|y k] Hfk; simpl; try done.
  apply Forall_cons in Hfk as [Hy Hfk]. constructor; [by apply lxor_byte_range|auto].
Qed.

Create HintDb aes.
#[local] Hint Resolve subBytes_good shiftRows_good mixColumns_good addRoundKey_good : aes.

Lemma invAesRound_aesRound k s : goodState k -> goodState s -> invAesRound k (aesRound k s) = s.
Proof.
  intros Hk Hs. unfold invAesRound, aesRound.
  rewrite addRoundKey_cancel.
  2: { destruct Hk as [-> _].
       destruct (mixColumns_good (shiftRows (subBytes s))) as [-> _]; auto with aes. }
  rewrite invMixColumns_mixColumns by (apply shiftRows_good; auto with aes).
  rewrite invShiftRows_shiftRows by (apply subBytes_good; auto with aes).
  apply invSubBytes_subBytes, Hs.
Qed.

Lemma invAesLast_aesLast k s : goodState k -> goodState s -> invAesLast k (aesLast k s) = s.
Proof.
  intros Hk Hs. unfold invAesLast, aesLast.
  rewrite addRoundKey_cancel.
  2: { destruct Hk as [-> _].
       destruct (shiftRows_good (subBytes s)) as [-> _]; auto with aes. }
  rewrite invShiftRows_shiftRows by (apply subBytes_good; auto with aes).
  apply invSubBytes_subBytes, Hs.
Qed.

Lemma aesRound_good k s : goodState k -> goodState s -> goodState (aesRound k s).
Proof. unfold aesRound. auto 8 with aes. Qed.

Lemma aesLast_good k s : goodState k -> goodState s -> goodState (aesLast k s).
Proof. unfold aesLast. auto 8 with aes. Qed.

#[local] Hint Resolve aesRound_good aesLast_good : aes.

Lemma encRounds_good ks s : Forall goodState ks -> goodState s -> goodState (encRounds ks s).
Proof.
  intros Hks. revert s. induction Hks as [|k ks Hk Hks IH]; intros s Hs; [done|].
  simpl. destruct ks; auto with aes.
Qed.

Lemma decRounds_encRounds ks s :
  Forall goodState ks -> goodState s -> decRounds ks (encRounds ks s) = s.
Proof.
  intros Hks. revert s. induction Hks as [|k ks Hk Hks IH]; intros s Hs; [done|].
  destruct ks as [|k' ks].
  - by apply invAesLast_aesLast.
  - change (invAesRound k (decRounds (k' :: ks) (encRounds (k' :: ks) (aesRound k s))) = s).
    rewrite IH by auto with aes. by apply invAesRound_aesRound.
Qed.

Lemma decryptState_encryptState ks s :
  Forall goodState ks -> goodState s ->
  decryptState ks (encryptState ks s) = s /\ goodState (encryptState ks s).
Proof.
  intros [|k ks' Hk Hks] Hs; [done|]. simpl. split; [|auto using encRounds_good with aes].
  rewrite decRounds_encRounds by auto with aes. apply addRoundKey_cancel.
  destruct Hk, Hs. congruence.
Qed.

(** *** The round keys are well formed *)

Definition goodWord (w : list Z) : Prop := length w = 4%nat /\ Forall byteZ w.

Lemma zip_lxor_good a b : goodWord a -> goodWord b -> goodWord (zip_with Z.lxor a b).
Proof.
  intros [Ha Hfa] [Hb Hfb]. split; [rewrite length_zip_with; lia|].
  clear Ha Hb. revert b Hfb. induction Hfa as [|x a Hx Ha IH]; intros [|y b] Hfb; simpl; try done.
  apply Forall_cons in Hfb as [Hy Hfb]. constructor; [by apply lxor_byte_range|auto].
Qed.

Lemma subWord_good w : goodWord w -> goodWord (subWord w).
Proof.
  intros [Hl Hf]. split; [by unfold subWord; rewrite length_fmap|].
  apply Forall_fmap. eapply Forall_impl; [exact Hf|]. intros x Hx. by apply subByte_spec.
Qed.

Lemma rotWord_good w : goodWord w -> goodWord (rotWord w).
Proof.
  intros [Hl Hf]. unfold rotWord.
  do 4 (destruct w as [|? w]; [discriminate Hl|]). destruct w; [|discriminate Hl].
  split; [done|]. repeat (apply Forall_cons in Hf as [? Hf]). simpl. repeat (apply List.Forall_cons; [done|]). apply List.Forall_nil.
Qed.

Lemma expand_good nk fuel i rcon ws :
  (0 < nk <= length ws)%nat -> byteZ rcon -> Forall goodWord ws ->
  Forall goodWord (expand nk fuel i rcon ws) /\ length (expand nk fuel i rcon ws) = (fuel + length ws)%nat.
Proof.
  revert i rcon ws. induction fuel as [|fuel IH]; intros i rcon ws Hn Hr Hws; simpl; [done|].
  assert (goodWord (hd [] ws)) as Hhd.
  { destruct ws; [simpl in Hn; lia|]. by apply Forall_cons in Hws as [? _]. }
  assert (goodWord (nth (nk - 1) ws [])) as Hnth.
  { rewrite Forall_forall in Hws. apply Hws. apply list_elem_of_In, nth_In. lia. }
  assert (goodWord [rcon; 0; 0; 0]) as Hrc.
  { split; [done|]. repeat (apply List.Forall_cons; [by unfold byteZ in *; lia|]). apply List.Forall_nil. }
  set (step := if decide (i mod nk = 0)%nat then _ else _).
  assert (goodWord step.1 /\ byteZ step.2) as [Ht Hr'].
  { subst step. repeat case_decide; simpl; split;
      auto using zip_lxor_good, subWord_good, rotWord_good, xtime_byteZ. }
  destruct step as [temp rcon']. simpl in Ht, Hr'.
  destruct (IH (S i) rcon' (zip_with Z.lxor (nth (nk - 1) ws []) temp :: ws)) as [H1 H2].
  - simpl. lia.
  - done.
  - constructor; [by apply zip_lxor_good|done].
  - split; [exact H1|]. rewrite H2. simpl. lia.
Qed.

Lemma groupWords_spec {A} (P : A -> Prop) k n (l : list A) :
  length l = (k * n)%nat -> Forall P l ->
  length (groupWords k n l) = n
  /\ Forall (fun g => length g = k /\ Forall P g) (groupWords k n l).
Proof.
  revert l. induction n as [|n IH]; intros l Hl Hf; simpl; [done|].
  destruct (IH (drop k l)) as [H1 H2]; [rewrite length_drop; lia|by apply Forall_drop|].
  split; [lia|]. constructor; [|done]. split; [rewrite length_take; lia|by apply Forall_take].
Qed.

Lemma concat_good_words ws : length ws = 4%nat -> Forall goodWord ws -> goodState (concat ws).
Proof.
  intros Hl Hf. do 4 (destruct ws as [|? ws]; [discriminate Hl|]). destruct ws; [|discriminate Hl].
  repeat (apply Forall_cons in Hf as [[? ?] Hf]). simpl.
  split; [rewrite !length_app; simpl; lia|]. repeat (apply Forall_app; split; [done|]). done.
Qed.

(** [aes.NewCipher] accepts keys of 16, 24 and 32 bytes. *)
Definition aesKey (key : bytes) : bool :=
  bool_decide (length key = 16 \/ length key = 24 \/ length key = 32)%nat.

Lemma Z_of_bytes_byteZ (b : bytes) : Forall byteZ (Z_of_byte <$> b).
Proof. apply Forall_fmap, Forall_true. intros x. apply Z_of_byte_range. Qed.

Lemma keySchedule_good key : aesKey key = true -> Forall goodState (keySchedule key).
Proof.
  intros Hk%bool_decide_eq_true. unfold keySchedule. set (nk := (length key / 4)%nat).
  assert (length key = 4 * nk /\ 4 <= nk)%nat as [Hl H4].
  { subst nk. destruct Hk as [E|[E|E]]; rewrite E; simpl; lia. }
  destruct (groupWords_spec byteZ 4 nk (Z_of_byte <$> key)) as [G1 G2].
  { by rewrite length_fmap. } { apply Z_of_bytes_byteZ. }
  destruct (expand_good nk (4 * (nk + 7) - nk) nk 1 (reverse (groupWords 4 nk (Z_of_byte <$> key))))
    as [E1 E2].
  { rewrite length_reverse, G1. lia. } { unfold byteZ; lia. } { by apply Forall_reverse. }
  rewrite length_reverse, G1 in E2.
  destruct (groupWords_spec goodWord 4 (nk + 7)
    (reverse (expand nk (4 * (nk + 7) - nk) nk 1 (reverse (groupWords 4 nk (Z_of_byte <$> key))))))
    as [_ W2].
  { rewrite length_reverse, E2. lia. } { by apply Forall_reverse. }
  apply Forall_fmap. eapply Forall_impl; [exact W2|].
  intros g [Hg1 Hg2]. by apply concat_good_words.
Qed.

(** *** AES as a block cipher *)

#[export] Instance AES : BlockCipher := {
  bc_size := 16;
  bc_key := aesKey;
  bc_encrypt := aesEncryptBlock;
  bc_decrypt := aesDecryptBlock
}.

Lemma encryptState_good key b :
  aesKey key = true -> length b = 16%nat ->
  goodState (encryptState (keySchedule key) (Z_of_byte <$> b)).
Proof.
  intros Hk Hb. apply decryptState_encryptState; [by apply keySchedule_good|].
  split; [by rewrite length_fmap|apply Z_of_bytes_byteZ].
Qed.

#[export] Instance AES_laws : BlockCipherLaws AES.
Proof.
  split; simpl.
  - lia.
  - intros k b Hk Hb. unfold aesEncryptBlock. rewrite length_fmap.
    by apply encryptState_good.
  - intros k b Hk Hb. unfold aesDecryptBlock, aesEncryptBlock.
    destruct (encryptState_good k b Hk Hb) as [_ Hf].
    rewrite <- list_fmap_compose, (list_fmap_ext _ id).
    2: { intros i x Hx. simpl. rewrite Z_of_byte_of_Z_small; [done|].
         eapply (proj1 (Forall_lookup _ _) Hf). exact Hx. }
    rewrite list_fmap_id.
    destruct (decryptState_encryptState (keySchedule k) (Z_of_byte <$> b)) as [-> _].
    { by apply keySchedule_good. }
    { split; [by rewrite length_fmap|apply Z_of_bytes_byteZ]. }
    rewrite <- list_fmap_compose. rewrite <- (list_fmap_id b) at 2.
    apply list_fmap_ext. intros i x _. apply byte_of_Z_of_byte.
Qed.

(** The example of FIPS 197, appendix C.3. *)
Example aes256_vector :
  EncodeToString <$>
    (match DecodeString (go "000102030405060708090a0b0c0d0e0f101112131415161718191a1b1c1d1e1f"),
           DecodeString (go "00112233445566778899aabbccddeeff") with
     | Ok k, Ok b => Some (aesEncryptBlock k b) | _, _ => None end)
  = Some (go "8ea2b7ca516745bfeafc49904b496089").
Proof. vm_compute. reflexivity. Qed.
