(* ===== verification/Blob.v ===== *)
(** * crypto/hasher.go and blob/blob.go: blobs and their encryption

    The hasher, PKCS#7 padding, and encryption of a blob with a block cipher in
    CBC mode.  The cipher is used through the [BlockCipher] interface; [AES] is
    the implementation the code instantiates it with. *)
From stdpp Require Import base tactics list numbers strings.
From Stdlib Require Import ZArith Lia Init.Byte.
From S2P Require Import Prelude GoStd Sha2 Aes.
Local Open Scope Z_scope.

#[global] Opaque sha512_Sum384 aesEncryptBlock aesDecryptBlock.

(** ** crypto: the SHA-384 hasher *)

Definition AES128KeySize : nat := 16.
Definition AES192KeySize : nat := 24.
Definition AES256KeySize : nat := 32.
Definition SHA384HexLength : nat := 96.

Definition encodeHash (hash : bytes) : bytes := EncodeToString hash.

Definition Hash (data : bytes) : bytes := encodeHash (sha512_Sum384 data).

(** [HashReader]: [io.Copy] up to the end of the reader, or its error. *)
Definition HashReader (r : reader) : result bytes :=
  data ← readAll r; Ok (encodeHash (sha512_Sum384 data)).

(** [IsValid]: ninety-six lower-case hexadecimal digits. *)
Definition IsValid (hash : bytes) : bool :=
  if negb (Nat.eqb (length hash) SHA384HexLength) then false
  else forallb is_lower_hex hash.

(** ** blob *)

Definition MaxBlobSize : Z := 2097152.
Definition BlobHashSize : nat := 48.
Definition BlobHashHexLength : nat := BlobHashSize * 2.

Definition ComputeBlobHashBytes (data : bytes) : result bytes :=
  wrap_err "invalid hex hash from hasher" (DecodeString (Hash data)).

Definition ComputeBlobHash (b : bytes) : result bytes :=
  wrap_err "invalid hex hash from hasher" (DecodeString (Hash b)).

Definition VerifyBlobHash (data expectedHash : bytes) : result unit :=
  if decide (data = []) then Err (EMsg "empty blob data") else
  computed ← wrap_err "failed to compute blob hash" (ComputeBlobHashBytes data);
  expected ← wrap_err "invalid expected hash format" (DecodeString expectedHash);
  if decide (computed = expected) then Ok tt else Err (EMsg "hash mismatch").

(** [Blob] is a byte slice. *)
Definition Size (b : bytes) : nat := length b.

(** [Blob.Hash]: the empty blob has a nil hash. *)
Definition BlobHash (b : bytes) : bytes := if decide (b = []) then [] else sha512_Sum384 b.
Definition HashHex (b : bytes) : bytes := EncodeToString (BlobHash b).

Definition ValidForSend (b : bytes) : result unit :=
  if MaxBlobSize <? Z.of_nat (Size b) then Err (ESent ErrBlobTooBig)
  else if decide (Size b = 0%nat) then Err (ESent ErrBlobEmpty)
  else Ok tt.

(** [blockLen] is positive wherever it is called; [data] fits in memory. *)
Definition pkcs7Pad (data : bytes) (blockLen : nat) : result bytes :=
  if decide (blockLen < 1)%nat then Err (EMsg "invalid block length") else
  let padLen := (blockLen - length data mod blockLen)%nat in
  let padLen := if decide (padLen = 0)%nat then blockLen else padLen in
  Ok (data ++ replicate padLen (byte_of_Z (Z.of_nat padLen))).

Definition pkcs7Unpad (data : bytes) (blockLen : nat) : result bytes :=
  if decide (blockLen < 1)%nat then Err (EMsg "invalid block length") else
  if decide (length data mod blockLen <> 0 \/ length data = 0)%nat
  then Err (EMsg "invalid data length") else
  lastByte ← index data (length data - 1);
  let padLen := Z.to_nat (Z_of_byte lastByte) in
  if decide (padLen < 1)%nat then Err (EMsg "invalid padding length, must be at least 1") else
  if decide (blockLen < padLen)%nat
  then Err (EMsg "invalid padding length, must be <= block size") else
  if decide (length data < padLen)%nat
  then Err (EMsg "invalid padding length, must be <= data length") else
  let pad := drop (length data - padLen) data in
  if forallb (fun p => bool_decide (p = byte_of_Z (Z.of_nat padLen))) pad
  then Ok (take (length data - padLen) data)
  else Err (EMsg "invalid padding").

Section encryption.
Context {C : BlockCipher}.

(** The key lengths the code accepts before it asks for a cipher. *)
Definition validKeyLength (key : bytes) : bool :=
  bool_decide (length key = AES128KeySize \/ length key = AES192KeySize
               \/ length key = AES256KeySize).

(** [aes.NewCipher(key)] *)
Definition newCipher (key : bytes) : result unit :=
  if bc_key key then Ok tt else Err (EMsg "crypto/aes: invalid key size").

Definition encryptData (data key iv : bytes) : result bytes :=
  if negb (validKeyLength key) then Err (EMsg "invalid key length") else
  newCipher key ;;
  let blockSize := bc_size in
  if decide (length iv <> blockSize) then Err (EMsg "IV length must equal block size") else
  plaintext ← pkcs7Pad data blockSize;
  if decide (length plaintext = 0 \/ length plaintext mod blockSize <> 0)%nat
  then Err (EMsg "invalid plaintext length") else
  Ok (CBCEncrypt key iv plaintext).

Definition decryptData (data key iv : bytes) : result bytes :=
  if negb (validKeyLength key) then Err (EMsg "invalid key length") else
  newCipher key ;;
  let blockSize := bc_size in
  if decide (length iv <> blockSize) then Err (EMsg "IV length must equal block size") else
  if decide (length data <= 0 \/ length data mod blockSize <> 0)%nat
  then Err (EMsg "ciphertext length is not a valid multiple of block size") else
  pkcs7Unpad (CBCDecrypt key iv data) blockSize.

Definition NewBlob (data key iv : bytes) : result bytes :=
  if decide (data = []) then Err (EMsg "cannot encrypt empty slice")
  else encryptData data key iv.

Definition Plaintext (b key iv : bytes) : result bytes := decryptData b key iv.
Definition DecryptBlob (b key iv : bytes) : result bytes := Plaintext b key iv.

Definition Encrypt (b key iv : bytes) : result bytes :=
  if decide (b = []) then Err (EMsg "plaintext data must not be empty")
  else encryptData b key iv.

Definition Decrypt (b key iv : bytes) : result bytes :=
  if decide (b = []) then Err (EMsg "ciphertext data must not be empty")
  else decryptData b key iv.
End encryption.

(** ** Hashes *)

Lemma IsValid_spec h :
  IsValid h = true <-> length h = SHA384HexLength /\ Forall (fun c => is_lower_hex c = true) h.
Proof.
  unfold IsValid. destruct (Nat.eqb_spec (length h) SHA384HexLength); simpl; [|naive_solver].
  rewrite forallb_forall, Forall_forall. setoid_rewrite <- list_elem_of_In. naive_solver.
Qed.

Lemma Hash_valid data : IsValid (Hash data) = true.
Proof.
  apply IsValid_spec. split; [|apply EncodeToString_lower].
  unfold Hash, encodeHash. by rewrite length_EncodeToString, length_Sum384.
Qed.

Lemma ComputeBlobHash_spec b : ComputeBlobHash b = Ok (sha512_Sum384 b).
Proof. unfold ComputeBlobHash, Hash, encodeHash. by rewrite DecodeString_EncodeToString. Qed.

Lemma BlobHash_length b : b <> [] -> length (BlobHash b) = BlobHashSize.
Proof. intros. unfold BlobHash. rewrite decide_False by done. apply length_Sum384. Qed.

(** ** Padding *)

Lemma pad_length len n :
  (0 < n)%nat -> let p := (n - len mod n)%nat in
  (1 <= p <= n)%nat /\ ((len + p) mod n = 0)%nat /\ (len + p = n * (len / n + 1))%nat.
Proof.
  intros Hn p. pose proof (Nat.mod_upper_bound len n ltac:(lia)).
  pose proof (Nat.div_mod_eq len n).
  assert (len + p = (len / n + 1) * n)%nat as E by (subst p; nia).
  split_and!; [subst p; lia..| |lia]. rewrite E. apply Nat.Div0.mod_mul.
Qed.

Lemma pkcs7Pad_eq data n :
  (0 < n)%nat ->
  let p := (n - length data mod n)%nat in
  pkcs7Pad data n = Ok (data ++ replicate p (byte_of_Z (Z.of_nat p))).
Proof.
  intros Hn p. destruct (pad_length (length data) n Hn) as [Hp _]. unfold pkcs7Pad.
  rewrite (decide_False (P := (n < 1)%nat)) by lia. fold p in Hp |- *.
  by rewrite decide_False by lia.
Qed.

Lemma unpad_of_padded q p n :
  (1 <= p <= n)%nat -> (n < 256)%nat -> ((length q + p) mod n = 0)%nat ->
  pkcs7Unpad (q ++ replicate p (byte_of_Z (Z.of_nat p))) n = Ok q.
Proof.
  intros Hp Hn Hm. unfold pkcs7Unpad. set (d := q ++ _).
  assert (length d = (length q + p)%nat) as Hl by (subst d; by rewrite length_app, length_replicate).
  rewrite <- Hl in Hm. rewrite !decide_False by lia.
  assert (index d (length d - 1) = Ok (byte_of_Z (Z.of_nat p))) as ->.
  { apply index_Ok. subst d. rewrite lookup_app_r by (rewrite Hl; lia).
    apply lookup_replicate_2. lia. }
  simpl. rewrite Z_of_byte_of_Z_small, Nat2Z.id by lia. rewrite !decide_False by lia.
  replace (length d - p)%nat with (length q) by lia. subst d.
  rewrite drop_app_length, take_app_length.
  assert (forallb (fun b => bool_decide (b = byte_of_Z (Z.of_nat p)))
            (replicate p (byte_of_Z (Z.of_nat p))) = true) as ->; [|done].
  apply forallb_forall. intros b [-> _]%list_elem_of_In%elem_of_replicate.
  by apply bool_decide_eq_true.
Qed.

Lemma unpad_inv d n q :
  pkcs7Unpad d n = Ok q ->
  exists p, (1 <= p <= n)%nat /\ (length d mod n = 0)%nat
    /\ d = q ++ replicate p (byte_of_Z (Z.of_nat p)).
Proof.
  unfold pkcs7Unpad. intros E. repeat case_decide; try done. inv_ok.
  set (p := Z.to_nat (Z_of_byte x)) in *. repeat case_decide; try done.
  destruct (forallb _ _) eqn:Hf; simplify_eq/=.
  exists p. split_and!; [lia..|lia|].
  rewrite <- (take_drop (length d - p) d) at 1. f_equal.
  symmetry. apply replicate_as_elem_of. split; [rewrite length_drop; lia|].
  rewrite forallb_forall in Hf. intros b Hb%list_elem_of_In.
  by apply (bool_decide_eq_true_1 _ (Hf b Hb)).
Qed.

(** The padding is read back exactly, and nothing else is accepted: for a block
    length below 256, unpadding succeeds with [q] precisely on the padding of [q]. *)
Theorem pkcs7_unpad_iff d q n :
  (0 < n < 256)%nat -> pkcs7Unpad d n = Ok q <-> pkcs7Pad q n = Ok d.
Proof.
  intros Hn. destruct (pad_length (length q) n ltac:(lia)) as (Hp & Hm & _).
  rewrite pkcs7Pad_eq by lia. split.
  - intros (p & Hp' & Hmod & ->)%unpad_inv. rewrite length_app, length_replicate in Hmod.
    replace (n - length q mod n)%nat with p; [done|].
    apply Nat.Div0.mod_divides in Hmod as [k Hk]. destruct k as [|k]; [lia|].
    rewrite <- (Nat.mod_unique (length q) n k (n - p)); lia.
  - intros [= <-]. apply unpad_of_padded; lia.
Qed.

(** ** Encryption *)

Section encryption_laws.
Context {C : BlockCipher} {L : BlockCipherLaws C}.
(** The inputs the code can encrypt. *)
Definition encryptable (data key iv : bytes) : Prop :=
  data <> [] /\ validKeyLength key = true /\ bc_key key = true /\ length iv = bc_size.

(** Encryption fails, with an error value, exactly on the inputs it cannot encrypt. *)
Lemma NewBlob_inv data key iv b : NewBlob data key iv = Ok b -> encryptable data key iv.
Proof.
  unfold NewBlob, encryptData, newCipher. intros E. case_decide; [done|].
  destruct (validKeyLength key) eqn:Hv; simpl in E; [|done].
  destruct (bc_key key) eqn:Hk; simpl in E; [|done].
  case_decide as Hiv; [done|]. split_and!; [done..|]. lia.
Qed.
Hypothesis block_small : (bc_size < 256)%nat.

Lemma encryptData_Ok data key iv :
  validKeyLength key = true -> bc_key key = true -> length iv = bc_size ->
  exists b, encryptData data key iv = Ok b
    /\ length b = (bc_size * (length data / bc_size + 1))%nat
    /\ decryptData b key iv = Ok data.
Proof.
  intros Hv Hk Hiv. pose proof bc_size_pos as Hpos.
  destruct (pad_length (length data) bc_size Hpos) as (Hp & Hm & Hl).
  unfold encryptData. rewrite Hv. unfold newCipher. rewrite Hk. simpl.
  rewrite decide_False by lia. rewrite pkcs7Pad_eq by done. simpl.
  set (p := (bc_size - length data mod bc_size)%nat) in *.
  set (pt := data ++ replicate p _).
  assert (length pt = (length data + p)%nat) as Hpt
    by (subst pt; by rewrite length_app, length_replicate).
  rewrite <- Hpt in Hm, Hl. rewrite decide_False by lia.
  eexists. split; [done|].
  assert (length (CBCEncrypt key iv pt) = length pt) as Hc
    by (apply length_CBCEncrypt; [done|done|lia]).
  split; [lia|]. rewrite <- Hc in Hm. unfold decryptData. rewrite Hv. unfold newCipher. rewrite Hk. simpl.
  rewrite (decide_False (P := length iv <> bc_size)) by lia.
  rewrite decide_False by lia.
  rewrite Hc in Hm. rewrite CBCDecrypt_Encrypt by (done || lia).
  apply unpad_of_padded; [lia|done|]. by rewrite <- Hpt.
Qed.

Lemma NewBlob_Ok data key iv :
  encryptable data key iv ->
  exists b, NewBlob data key iv = Ok b
    /\ length b = (bc_size * (length data / bc_size + 1))%nat
    /\ Plaintext b key iv = Ok data.
Proof.
  intros (Hd & Hv & Hk & Hiv). unfold NewBlob. rewrite decide_False by done.
  by apply encryptData_Ok.
Qed.

End encryption_laws.

(** ** The blob operations with AES *)

Lemma aes_encryptable data key iv :
  data <> [] -> validKeyLength key = true -> length iv = 16%nat -> encryptable (C := AES) data key iv.
Proof.
  intros Hd Hk Hiv. split_and!; [done|done| |done]. exact Hk.
Qed.

(** C33. Encryption round trip: exactly the non-empty data with a key of 16, 24 or 32
    bytes and an IV of one block can be encrypted; the blob is the data padded up
    to the next whole block, and decrypting it with the same key and IV returns
    the data.  Every other input is an error value, not a panic. *)
Theorem blob_roundtrip data key iv :
  match NewBlob (C := AES) data key iv with
  | Ok b => (data <> [] /\ validKeyLength key = true /\ length iv = 16%nat)
            /\ length b = (16 * (length data / 16 + 1))%nat
            /\ DecryptBlob (C := AES) b key iv = Ok data
  | Err _ => ~ (data <> [] /\ validKeyLength key = true /\ length iv = 16%nat)
  | Panic _ => False
  end.
Proof.
  destruct (decide (data <> [] /\ validKeyLength key = true /\ length iv = 16%nat))
    as [(Hd & Hk & Hiv)|Hn].
  - destruct (NewBlob_Ok (C := AES) ltac:(simpl; lia) data key iv
                (aes_encryptable data key iv Hd Hk Hiv)) as (b & -> & Hl & Hp). done.
  - destruct (NewBlob (C := AES) data key iv) as [b|e|w] eqn:E; [|done|].
    + apply NewBlob_inv in E as (? & ? & ? & ?). by destruct Hn.
    + unfold NewBlob, encryptData, newCipher, pkcs7Pad in E.
      repeat (case_decide || case_match); simplify_eq/=; repeat (case_decide; simplify_eq/=).
Qed.

Lemma NewBlob_AES_length data key iv b :
  NewBlob (C := AES) data key iv = Ok b -> length b = (16 * (length data / 16 + 1))%nat.
Proof.
  intros E. pose proof (NewBlob_inv _ _ _ _ E) as He.
  destruct (NewBlob_Ok (C := AES) ltac:(simpl; lia) data key iv He) as (b' & E' & Hl & _).
  rewrite E in E'. injection E' as <-. exact Hl.
Qed.

Lemma NewBlob_fits data key iv b :
  Z.of_nat (length data) < MaxBlobSize -> NewBlob (C := AES) data key iv = Ok b -> ValidForSend b = Ok tt.
Proof.
  intros Hsize E%NewBlob_AES_length. unfold ValidForSend, Size, MaxBlobSize in *.
  assert (Z.of_nat (length b) = 16 * (Z.of_nat (length data) / 16 + 1))
    by (rewrite E, Nat2Z.inj_mul, Nat2Z.inj_add, Nat2Z.inj_div; done).
  pose proof (Z.div_mod (Z.of_nat (length data)) 16).
  pose proof (Z.mod_pos_bound (Z.of_nat (length data)) 16).
  rewrite (proj2 (Z.ltb_ge _ _)) by lia. by rewrite decide_False by lia.
Qed.

(** The padding never pushes a chunk over the size limit: data below
    [MaxBlobSize] bytes (the encoder's chunks have at most [MaxBlobSize - 1])
    encrypts to a blob that is valid to send. *)
Theorem encrypted_chunk_fits data key iv b :
  Z.of_nat (length data) < MaxBlobSize -> NewBlob (C := AES) data key iv = Ok b ->
  ValidForSend b = Ok tt /\ Z.of_nat (length b) <= MaxBlobSize.
Proof.
  intros Hsize E. pose proof (NewBlob_fits data key iv b Hsize E) as Hv.
  split; [done|]. unfold ValidForSend, Size in Hv. case_match eqn:Hlt; [done|]. lia.
Qed.

(** [VerifyBlobHash] accepts a hash in the canonical form (ninety-six lower-case
    digits) exactly when it is the hash the hasher computes for the (non-empty)
    data; a mismatch is an error, never a panic. *)
Theorem verify_blob_hash data h :
  IsValid h = true ->
  (VerifyBlobHash data h = Ok tt <-> data <> [] /\ h = Hash data)
  /\ (forall w, VerifyBlobHash data h <> Panic w).
Proof.
  intros [Hl Hf]%IsValid_spec.
  destruct (DecodeString_lower h) as [b Hb]; [done|by exists 48%nat|].
  assert (EncodeToString b = h) as Eb by (by apply EncodeToString_DecodeString).
  unfold VerifyBlobHash, ComputeBlobHashBytes. unfold Hash, encodeHash.
  rewrite DecodeString_EncodeToString. case_decide as Hd.
  { split; [split; [discriminate|by intros [? _]]|discriminate]. }
  simpl. rewrite Hb. simpl. generalize dependent (sha512_Sum384 data).
  intros hash. rewrite <- Eb. case_decide as He; (split; [|discriminate]); split.
  - intros _. split; [exact Hd|by rewrite He].
  - reflexivity.
  - discriminate.
  - intros [_ E]. apply (f_equal DecodeString) in E.
    rewrite !DecodeString_EncodeToString in E. congruence.
Qed.

(** ** Concrete instances *)

(** The vectors of crypto/hasher_test.go. *)
Example hash_hello_world :
  Hash (go "hello world")
  = go "fdbd8e75a67f29f701a4e040385e2e23986303ea10239211af907fcbb83578b3e417cb71ce646efd0819dd8c088de1bd".
Proof. vm_compute. reflexivity. Qed.

Example hash_empty :
  Hash []
  = go "38b060a751ac96384cd9327eb1b1e36a21fdb71114be07434c0cc7bf63f6e1da274edebfe76f65fbd51ad2f14898b95b".
Proof. vm_compute. reflexivity. Qed.

Definition sampleKey : bytes := replicate 32 x07.
Definition sampleIV : bytes := replicate 16 x01.

Lemma pkcs7_unpad_iff_witness :
  pkcs7Unpad (go "abc" ++ [x01]) 4 = Ok (go "abc").
Proof. apply (pkcs7_unpad_iff _ _ 4); [lia|]. reflexivity. Defined.

Lemma encrypted_chunk_fits_witness :
  exists b, NewBlob (C := AES) (go "abc") sampleKey sampleIV = Ok b /\ ValidForSend b = Ok tt.
Proof.
  destruct (NewBlob (C := AES) (go "abc") sampleKey sampleIV) as [b|e|w] eqn:E.
  - exists b. split; [reflexivity|].
    apply (encrypted_chunk_fits (go "abc") sampleKey sampleIV b); [reflexivity|exact E].
  - discriminate E.
  - discriminate E.
Defined.

Lemma verify_blob_hash_witness :
  (VerifyBlobHash (go "x") (Hash (go "x")) = Ok tt
   <-> go "x" <> [] /\ Hash (go "x") = Hash (go "x"))
  /\ (forall w, VerifyBlobHash (go "x") (Hash (go "x")) <> Panic w).
Proof. apply (verify_blob_hash (go "x") (Hash (go "x"))). apply Hash_valid. Defined.
