(* ===== verification/ClaimId.v ===== *)
(** * chain/claimid.go: claim identifiers

    A claim ID is an array of twenty bytes, printed with its bytes reversed.
    RIPEMD-160 (golang.org/x/crypto) and the transaction-hash parser
    (lbcd/chaincfg/chainhash) are parameters. *)
From stdpp Require Import base tactics list numbers strings.
From Stdlib Require Import ZArith Lia Init.Byte.
From S2P Require Import Prelude GoStd Sha2.
Local Open Scope Z_scope.

#[global] Opaque sha256_Sum256.

Definition ClaimIDSize : nat := 20.

(** [copy(dst[:], src)] into a zeroed array of [n] bytes. *)
Definition copyArray (n : nat) (src : bytes) : bytes :=
  take n src ++ replicate (n - length src) x00.

(** [wire.OutPoint]: a 32-byte hash and an output index. *)
Record OutPoint := mkOutPoint { op_Hash : bytes; op_Index : Z }.

(** A value of the array type [ClaimID]. *)
Definition wfClaimID (id : bytes) : Prop := length id = ClaimIDSize.

(** The zero value [ClaimID{}]. *)
Definition zeroClaimID : bytes := replicate ClaimIDSize x00.

(** [for i, j := 0, ClaimIDSize-1; i < j; i, j = i+1, j-1]:
    [dst[i], dst[j] = src[j], src[i]].  The fuel is the length of the array. *)
Fixpoint reverseLoop (fuel i j : nat) (src dst : bytes) : result bytes :=
  match fuel with
  | O => Ok dst
  | S fuel' =>
      if decide (i < j)%nat then
        x ← index src j; y ← index src i;
        reverseLoop fuel' (S i) (j - 1) src (<[j := y]> (<[i := x]> dst))
      else Ok dst
  end.

Definition NewClaimIDFromBytes (b : bytes) : result bytes :=
  if decide (length b <> ClaimIDSize) then Err (EMsg "invalid claim ID length")
  else Ok (copyArray ClaimIDSize b).

Definition NewClaimIDFromString (s : bytes) : result bytes :=
  if decide (length s <> 40)%nat then Err (EMsg "invalid claim ID hex length") else
  b ← wrap_err "decode claim ID hex" (DecodeString s);
  reverseLoop ClaimIDSize 0 (ClaimIDSize - 1) b zeroClaimID.

Definition ClaimID_String (id : bytes) : result bytes :=
  reversed ← reverseLoop ClaimIDSize 0 (ClaimIDSize - 1) id zeroClaimID;
  Ok (EncodeToString reversed).

Definition ClaimID_Bytes (id : bytes) : bytes := id.
Definition ClaimID_Equal (id other : bytes) : bool := bool_decide (id = other).
Definition ClaimID_IsZero (id : bytes) : bool := forallb (fun b => bool_decide (b = x00)) id.

Section derivation.
Context (ripemd160 : bytes -> bytes).
Context (NewHashFromStr : bytes -> result bytes).

Definition hash160Claim (data : bytes) : bytes :=
  copyArray ClaimIDSize (ripemd160 (sha256_Sum256 data)).

(** The thirty-six bytes hashed for an output: its hash, then the index, big endian. *)
Definition claimPreimage (op : OutPoint) : bytes :=
  copyArray 32 (op_Hash op) ++ PutUint32BE (op_Index op).

Definition NewClaimID (op : OutPoint) : bytes := hash160Claim (claimPreimage op).

Definition NewClaimIDFromTxVout (txidHex : bytes) (vout : Z) : result bytes :=
  hash ← wrap_err "parse txid" (NewHashFromStr txidHex);
  Ok (NewClaimID (mkOutPoint hash vout)).
End derivation.

(** ** Properties *)

Lemma length_copyArray n src : length (copyArray n src) = n.
Proof. unfold copyArray. rewrite length_app, length_take, length_replicate. lia. Qed.

Lemma copyArray_id n src : length src = n -> copyArray n src = src.
Proof.
  intros <-. unfold copyArray. rewrite Nat.sub_diag, take_ge by lia. apply app_nil_r.
Qed.

(** The in-place loop reverses an array of twenty bytes. *)
Lemma reverseLoop_spec b :
  length b = ClaimIDSize ->
  reverseLoop ClaimIDSize 0 (ClaimIDSize - 1) b zeroClaimID = Ok (reverse b).
Proof.
  intros H. unfold ClaimIDSize in *.
  do 20 (destruct b as [|? b]; [discriminate H|]). destruct b; [|discriminate H].
  reflexivity.
Qed.

Lemma ClaimID_String_spec id : wfClaimID id -> ClaimID_String id = Ok (EncodeToString (reverse id)).
Proof. intros H. unfold ClaimID_String. by rewrite reverseLoop_spec. Qed.

Lemma parse_hex_claim s b :
  length s = 40%nat -> DecodeString s = Ok b -> NewClaimIDFromString s = Ok (reverse b).
Proof.
  intros Hs E. unfold NewClaimIDFromString. rewrite decide_False by lia. rewrite E. simpl.
  apply reverseLoop_spec. apply DecodeString_length in E. unfold ClaimIDSize. lia.
Qed.

(** Printing and parsing a claim ID are inverse: every ID prints to forty
    lower-case digits that parse back to it, and every string of forty lower-case
    digits is the printed form of the ID it parses to. *)
Theorem claim_id_roundtrip :
  (forall id, wfClaimID id -> exists s, ClaimID_String id = Ok s /\ length s = 40%nat
     /\ NewClaimIDFromString s = Ok id)
  /\ (forall s, length s = 40%nat -> Forall (fun c => is_lower_hex c = true) s ->
     exists id, NewClaimIDFromString s = Ok id /\ wfClaimID id /\ ClaimID_String id = Ok s).
Proof.
  split.
  - intros id H. rewrite ClaimID_String_spec by done. unfold wfClaimID in H.
    exists (EncodeToString (reverse id)).
    rewrite length_EncodeToString, length_reverse, H. split_and!; [done|done|].
    rewrite (parse_hex_claim _ (reverse id)), reverse_involutive; [done| |].
    + by rewrite length_EncodeToString, length_reverse, H.
    + apply DecodeString_EncodeToString.
  - intros s Hs Hf. destruct (DecodeString_lower s Hf) as [b Hb]; [by exists 20%nat|].
    pose proof (DecodeString_length _ _ Hb) as Hl.
    assert (wfClaimID (reverse b)) as Hwf
      by (unfold wfClaimID, ClaimIDSize; rewrite length_reverse; lia).
    exists (reverse b). rewrite (parse_hex_claim s b) by done. split_and!; [done|done|].
    rewrite ClaimID_String_spec, reverse_involutive by done.
    by rewrite (EncodeToString_DecodeString s b).
Qed.

(** A string is refused exactly when it is not forty hexadecimal digits, and a
    slice exactly when it does not have twenty bytes; no input makes the parsers
    panic, and what they return is a claim ID. *)
Theorem claim_id_parse_total s b :
  match NewClaimIDFromString s with
  | Ok id => wfClaimID id /\ length s = 40%nat
  | Err _ => length s <> 40%nat \/ is_ok (DecodeString s) = false
  | Panic _ => False
  end
  /\ match NewClaimIDFromBytes b with
     | Ok id => id = b /\ wfClaimID id
     | Err _ => length b <> ClaimIDSize
     | Panic _ => False
     end.
Proof.
  split.
  - destruct (decide (length s = 40%nat)) as [Hs|Hs].
    + destruct (DecodeString s) as [d|e|w] eqn:E.
      * rewrite (parse_hex_claim s d) by done. split; [|done].
        apply DecodeString_length in E. unfold wfClaimID, ClaimIDSize. rewrite length_reverse. lia.
      * unfold NewClaimIDFromString. rewrite decide_False by lia. rewrite E. simpl. by right.
      * by apply DecodeString_no_panic in E.
    + unfold NewClaimIDFromString. rewrite decide_True by done. by left.
  - unfold NewClaimIDFromBytes, wfClaimID. case_decide as H; [done|].
    rewrite copyArray_id by lia. split; [done|lia].
Qed.

(** Claim IDs of different outputs hash different preimages: the derived ID is
    twenty bytes for any hash function, and the hashed preimage determines the
    outpoint. *)
Theorem claim_id_preimage ripemd160 op1 op2 :
  length (op_Hash op1) = 32%nat -> length (op_Hash op2) = 32%nat ->
  0 <= op_Index op1 < 2 ^ 32 -> 0 <= op_Index op2 < 2 ^ 32 ->
  wfClaimID (NewClaimID ripemd160 op1)
  /\ (claimPreimage op1 = claimPreimage op2 <-> op1 = op2).
Proof.
  intros H1 H2 I1 I2. split; [apply length_copyArray|].
  split; [|by intros ->]. unfold claimPreimage. rewrite !copyArray_id by done.
  intros [Eh Ei]%app_inj_1; [|congruence].
  apply (f_equal be_Z) in Ei. unfold PutUint32BE in Ei. rewrite !be_Z_be_bytes in Ei by lia.
  change (256 ^ Z.of_nat 4) with (2 ^ 32) in Ei. rewrite !Z.mod_small in Ei by lia.
  destruct op1, op2. simpl in *. by subst.
Qed.

Lemma claim_id_preimage_witness :
  wfClaimID (NewClaimID id (mkOutPoint (replicate 32 x01) 7))
  /\ (claimPreimage (mkOutPoint (replicate 32 x01) 7)
      = claimPreimage (mkOutPoint (replicate 32 x01) 8)
      <-> mkOutPoint (replicate 32 x01) 7 = mkOutPoint (replicate 32 x01) 8).
Proof. apply (claim_id_preimage id); simpl; lia. Defined.
