(* ===== verification/Script.v ===== *)
(** * chain/script.go and chain/params.go: claim scripts

    The script builders, on top of lbcd's txscript and lbcutil (an interface with
    its documented behaviour as laws), and the push reader that recovers the
    claim value. *)
From stdpp Require Import base tactics list numbers strings.
From Stdlib Require Import ZArith Lia Init.Byte.
From S2P Require Import Prelude GoStd ClaimId.
Local Open Scope Z_scope.

(** ** Opcodes *)

Definition OP_0 : byte := x00.
Definition OP_DATA_1 : byte := x01.
Definition OP_DATA_75 : byte := x4b.
Definition OP_PUSHDATA1 : byte := x4c.
Definition OP_PUSHDATA2 : byte := x4d.
Definition OP_PUSHDATA4 : byte := x4e.
Definition OP_1NEGATE : byte := x4f.
Definition OP_1 : byte := x51.
Definition OP_TRUE : byte := OP_1.
Definition OP_16 : byte := x60.
Definition OP_2DROP : byte := x6d.
Definition OP_DROP : byte := x75.
Definition OP_CLAIMNAME : byte := xb5.
Definition OP_SUPPORTCLAIM : byte := xb6.
Definition OP_UPDATECLAIM : byte := xb7.

(** ** Reading the pushes of a script *)

(** [data[i : i+n]] of the bytes left: a run-time panic out of range. *)
Definition sliceTo (rest : bytes) (n : nat) : result bytes :=
  if decide (n <= length rest)%nat then Ok (take n rest) else Panic "slice bounds out of range".

(** The common tail of the four data-push cases: the bound check with its
    message, then the copy. *)
Definition pushBytes (fmt : string) (n : Z) (rest : bytes) : result (bytes * bytes) :=
  if Z.of_nat (length rest) <? n then Err (EMsg fmt) else
  push ← sliceTo rest (Z.to_nat n);
  Ok (push, drop (Z.to_nat n) rest).

(** One push starting at the opcode [op]; [None] when [op] is not a push. *)
Definition readPush (op : byte) (rest : bytes) : result (option (bytes * bytes)) :=
  let z := Z_of_byte op in
  if decide (op = OP_0) then Ok (Some ([], rest))
  else if (Z_of_byte OP_1 <=? z) && (z <=? Z_of_byte OP_16)
  then Ok (Some ([byte_of_Z (z - (Z_of_byte OP_1 - 1))], rest))
  else if decide (op = OP_1NEGATE) then Ok (Some ([x81], rest))
  else if (Z_of_byte OP_DATA_1 <=? z) && (z <=? Z_of_byte OP_DATA_75)
  then r ← pushBytes "push %d exceeds script length" (z - (Z_of_byte OP_DATA_1 - 1)) rest;
       Ok (Some r)
  else if decide (op = OP_PUSHDATA1) then
    match rest with
    | [] => Err (EMsg "truncated OP_PUSHDATA1")
    | l :: rest' =>
        r ← pushBytes "OP_PUSHDATA1 length %d exceeds script" (Z_of_byte l) rest'; Ok (Some r)
    end
  else if decide (op = OP_PUSHDATA2) then
    if decide (length rest < 2)%nat then Err (EMsg "truncated OP_PUSHDATA2") else
    l ← sliceTo rest 2;
    r ← pushBytes "OP_PUSHDATA2 length %d exceeds script" (le_Z l) (drop 2 rest);
    Ok (Some r)
  else if decide (op = OP_PUSHDATA4) then
    if decide (length rest < 4)%nat then Err (EMsg "truncated OP_PUSHDATA4") else
    l ← sliceTo rest 4;
    r ← pushBytes "OP_PUSHDATA4 length %d exceeds script" (le_Z l) (drop 4 rest);
    Ok (Some r)
  else Ok None.

(** [for i < len(data)]: every iteration consumes at least one byte, so the
    length of the data is enough fuel. *)
Fixpoint readPushesLoop (fuel : nat) (rest : bytes) : result (list bytes) :=
  match fuel, rest with
  | S fuel', op :: rest' =>
      p ← readPush op rest';
      match p with
      | None => Ok []
      | Some (push, rest'') => pushes ← readPushesLoop fuel' rest''; Ok (push :: pushes)
      end
  | _, _ => Ok []
  end.

Definition readPushes (data : bytes) : result (list bytes) := readPushesLoop (length data) data.

Definition ExtractClaimValue (script : bytes) : result bytes :=
  match script with
  | [] => Err (EMsg "empty script")
  | op :: rest =>
      valueIndex ←
        (if decide (op = OP_CLAIMNAME) then Ok 1%nat
         else if decide (op = OP_UPDATECLAIM) then Ok 2%nat
         else Err (EMsg "unexpected opcode 0x%02x in claim script"));
      pushes ← wrap_err "parse script pushes" (readPushes rest);
      if decide (length pushes <= valueIndex)%nat
      then Err (EMsg "expected at least %d pushes in claim script, got %d")
      else index pushes valueIndex
  end.

Definition IsClaimScript (script : bytes) : bool :=
  match script with
  | [] => false
  | op :: _ => bool_decide (op = OP_CLAIMNAME) || bool_decide (op = OP_UPDATECLAIM)
               || bool_decide (op = OP_SUPPORTCLAIM)
  end.

(** ** The script library *)

(** lbcd/txscript and lbcutil, as used here. *)
Class Txscript := {
  Params : Type;
  Address : Type;
  DecodeAddress : bytes -> Params -> result Address;
  PayToAddrScript : Address -> result bytes;
  ClaimNameScript : bytes -> bytes -> result bytes;
  ClaimUpdateScript : bytes -> bytes -> bytes -> result bytes;
  ClaimSupportScript : bytes -> bytes -> bytes -> result bytes;
  StripClaimScriptPrefix : bytes -> bytes;
  MaxClaimNameSize : Z
}.

(** ** Building scripts *)

Section build.
Context {T : Txscript}.

(** Strip a trailing OP_TRUE: the address script replaces it. *)
Definition stripTrue (prefix : bytes) : bytes :=
  match last prefix with
  | Some b => if decide (b = OP_TRUE) then take (length prefix - 1) prefix else prefix
  | None => prefix
  end.

(** The length checks on the claim name that open every builder. *)
Definition checkName (name : bytes) : result unit :=
  if decide (name = []) then Err (EMsg "claim name cannot be empty")
  else if MaxClaimNameSize <? Z.of_nat (length name) then Err (EMsg "claim name too long: %d > %d")
  else Ok tt.

Definition BuildP2PKHScript (address : bytes) (params : Params) : result bytes :=
  addr ← wrap_err "decode address %q" (DecodeAddress address params);
  PayToAddrScript addr.

Definition BuildClaimNameScript (name value address : bytes) (params : Params) : result bytes :=
  checkName name ;;
  addr ← wrap_err "decode address %q" (DecodeAddress address params);
  pkScript ← wrap_err "build P2PKH script" (PayToAddrScript addr);
  prefix ← wrap_err "build claim name prefix" (ClaimNameScript name value);
  Ok (stripTrue prefix ++ pkScript).

Definition BuildUpdateClaimScript (name claimID value address : bytes) (params : Params)
    : result bytes :=
  checkName name ;;
  addr ← wrap_err "decode address %q" (DecodeAddress address params);
  pkScript ← wrap_err "build P2PKH script" (PayToAddrScript addr);
  prefix ← wrap_err "build update claim prefix" (ClaimUpdateScript name claimID value);
  Ok (stripTrue prefix ++ pkScript).

Definition BuildSupportClaimScript (name claimID value address : bytes) (params : Params)
    : result bytes :=
  checkName name ;;
  addr ← wrap_err "decode address %q" (DecodeAddress address params);
  pkScript ← wrap_err "build P2PKH script" (PayToAddrScript addr);
  prefix ← wrap_err "build support claim prefix" (ClaimSupportScript name claimID value);
  Ok (stripTrue prefix ++ pkScript).
End build.

(** ** The push forms of a script *)

(** The seven ways to push [d]: OP_0, the small integers, OP_1NEGATE, a direct
    push, and the three forms with an explicit little-endian length. *)
Inductive encodesPush : bytes -> bytes -> Prop :=
  | ep_empty : encodesPush [] [OP_0]
  | ep_small n : 1 <= n <= 16 -> encodesPush [byte_of_Z n] [byte_of_Z (80 + n)]
  | ep_negate : encodesPush [x81] [OP_1NEGATE]
  | ep_direct d : (1 <= length d <= 75)%nat ->
      encodesPush d (byte_of_Z (Z.of_nat (length d)) :: d)
  | ep_data1 d l : Z_of_byte l = Z.of_nat (length d) -> encodesPush d (OP_PUSHDATA1 :: l :: d)
  | ep_data2 d l : length l = 2%nat -> le_Z l = Z.of_nat (length d) ->
      encodesPush d (OP_PUSHDATA2 :: l ++ d)
  | ep_data4 d l : length l = 4%nat -> le_Z l = Z.of_nat (length d) ->
      encodesPush d (OP_PUSHDATA4 :: l ++ d).

(** The documented shape of the claim scripts: the opcode, the pushes in order,
    then the drops and OP_TRUE.  [AddData] encodes the single byte 0 as OP_0, so
    the pushed data are other than [[0x00]]. *)
Class TxscriptLaws (T : Txscript) : Prop := {
  claim_name_shape name value s :
    name <> [x00] -> value <> [x00] -> ClaimNameScript name value = Ok s ->
    exists en ev, encodesPush name en /\ encodesPush value ev
      /\ s = OP_CLAIMNAME :: (en ++ ev) ++ [OP_2DROP; OP_DROP; OP_TRUE];
  claim_update_shape name id value s :
    name <> [x00] -> id <> [x00] -> value <> [x00] -> ClaimUpdateScript name id value = Ok s ->
    exists en ei ev, encodesPush name en /\ encodesPush id ei /\ encodesPush value ev
      /\ s = OP_UPDATECLAIM :: (en ++ ei ++ ev) ++ [OP_2DROP; OP_2DROP; OP_TRUE];
  claim_support_shape name id value s :
    ClaimSupportScript name id value = Ok s -> exists s', s = OP_SUPPORTCLAIM :: s'
}.

(** ** Reading back what was pushed *)

Lemma pushBytes_app fmt d rest :
  pushBytes fmt (Z.of_nat (length d)) (d ++ rest) = Ok (d, rest).
Proof.
  unfold pushBytes, sliceTo. rewrite length_app, (proj2 (Z.ltb_ge _ _)) by lia.
  rewrite Nat2Z.id, decide_True by lia. simpl. by rewrite take_app_length, drop_app_length.
Qed.

Lemma byte_of_Z_ne a b : 0 <= a < 256 -> a <> Z_of_byte b -> byte_of_Z a <> b.
Proof. intros Ha Hne E. apply Hne. by rewrite <- E, Z_of_byte_of_Z_small. Qed.

Lemma readPush_data2 l d rest :
  length l = 2%nat -> le_Z l = Z.of_nat (length d) ->
  readPush OP_PUSHDATA2 (l ++ d ++ rest) = Ok (Some (d, rest)).
Proof.
  intros Hl Hd.
  change (readPush OP_PUSHDATA2 (l ++ d ++ rest)) with
    (if decide (length (l ++ d ++ rest) < 2)%nat then Err (EMsg "truncated OP_PUSHDATA2") else
     l' ← sliceTo (l ++ d ++ rest) 2;
     r ← pushBytes "OP_PUSHDATA2 length %d exceeds script" (le_Z l') (drop 2 (l ++ d ++ rest));
     Ok (Some r)).
  rewrite decide_False by (rewrite length_app; lia). unfold sliceTo at 1.
  rewrite decide_True by (rewrite length_app; lia). cbn [mbind result_bind].
  rewrite take_app_length', drop_app_length' by done. by rewrite Hd, pushBytes_app.
Qed.

Lemma readPush_data4 l d rest :
  length l = 4%nat -> le_Z l = Z.of_nat (length d) ->
  readPush OP_PUSHDATA4 (l ++ d ++ rest) = Ok (Some (d, rest)).
Proof.
  intros Hl Hd.
  change (readPush OP_PUSHDATA4 (l ++ d ++ rest)) with
    (if decide (length (l ++ d ++ rest) < 4)%nat then Err (EMsg "truncated OP_PUSHDATA4") else
     l' ← sliceTo (l ++ d ++ rest) 4;
     r ← pushBytes "OP_PUSHDATA4 length %d exceeds script" (le_Z l') (drop 4 (l ++ d ++ rest));
     Ok (Some r)).
  rewrite decide_False by (rewrite length_app; lia). unfold sliceTo at 1.
  rewrite decide_True by (rewrite length_app; lia). cbn [mbind result_bind].
  rewrite take_app_length', drop_app_length' by done. by rewrite Hd, pushBytes_app.
Qed.

(** The reader recovers the data of every push form, and the bytes after it. *)
Lemma readPush_encoded d e rest :
  encodesPush d e -> exists op e', e = op :: e' /\ readPush op (e' ++ rest) = Ok (Some (d, rest)).
Proof.
  intros H. destruct H as [|n Hn| |d Hd|d l Hl|d l Hl Hd|d l Hl Hd];
    eexists _, _; (split; [done|]); unfold readPush; simpl app.
  - by rewrite decide_True.
  - rewrite decide_False by (apply byte_of_Z_ne; [lia|unfold OP_0; vm_compute Z_of_byte; lia]).
    rewrite Z_of_byte_of_Z_small by lia. change (Z_of_byte OP_1) with 81.
    change (Z_of_byte OP_16) with 96. rewrite (proj2 (andb_true_iff _ _)) by lia.
    by replace (80 + n - (81 - 1)) with n by lia.
  - reflexivity.
  - rewrite !decide_False by (apply byte_of_Z_ne; [lia|vm_compute Z_of_byte; lia]).
    rewrite Z_of_byte_of_Z_small by lia. change (Z_of_byte OP_1) with 81.
    change (Z_of_byte OP_16) with 96. rewrite (proj2 (andb_false_iff (81 <=? _) _)) by lia.
    change (Z_of_byte OP_DATA_1) with 1. change (Z_of_byte OP_DATA_75) with 75.
    rewrite (proj2 (andb_true_iff _ _)) by lia. rewrite Z.sub_0_r, pushBytes_app. done.
  - change (readPush OP_PUSHDATA1 (l :: d ++ rest) = Ok (Some (d, rest))).
    unfold readPush. cbn -[pushBytes]. by rewrite Hl, pushBytes_app.
  - rewrite <- app_assoc. exact (readPush_data2 l d rest Hl Hd).
  - rewrite <- app_assoc. exact (readPush_data4 l d rest Hl Hd).
Qed.

(** A byte at which the scan stops. *)
Definition stopsScan (suffix : bytes) : Prop :=
  match suffix with [] => True | op :: _ => forall rest, readPush op rest = Ok None end.

Lemma encodesPush_nonempty d e : encodesPush d e -> (1 <= length e)%nat.
Proof. destruct 1; simpl; lia. Qed.

Lemma readPushesLoop_encoded fuel ds es suffix :
  Forall2 encodesPush ds es -> stopsScan suffix ->
  (length (concat es ++ suffix) <= fuel)%nat ->
  readPushesLoop fuel (concat es ++ suffix) = Ok ds.
Proof.
  intros H Hs. revert fuel. induction H as [|d e ds es He Hes IH]; intros fuel Hf.
  - simpl in *. destruct fuel as [|fuel], suffix as [|op suffix]; simpl; try done.
    by rewrite (Hs suffix).
  - simpl in *. pose proof (encodesPush_nonempty _ _ He).
    destruct (readPush_encoded d e (concat es ++ suffix) He) as (op & e' & -> & Hr).
    rewrite <- app_assoc in *. simpl in *. destruct fuel as [|fuel]; [lia|]. simpl. rewrite Hr. simpl.
    rewrite IH; [done|]. rewrite length_app in Hf. lia.
Qed.

Lemma readPushes_encoded ds es suffix :
  Forall2 encodesPush ds es -> stopsScan suffix -> readPushes (concat es ++ suffix) = Ok ds.
Proof. intros. by apply readPushesLoop_encoded. Qed.

(** ** Totality of the reader *)

Lemma pushBytes_cases fmt n rest :
  0 <= n ->
  match pushBytes fmt n rest with
  | Ok (push, rest') => rest = push ++ rest' | Err _ => True | Panic _ => False
  end.
Proof.
  intros Hn. unfold pushBytes, sliceTo.
  destruct (Z.ltb_spec (Z.of_nat (length rest)) n); [done|].
  rewrite decide_True by lia. simpl. by rewrite take_drop.
Qed.

(** What one step of the reader may return: never a panic, and a push takes its
    data from the bytes it consumes (one byte more for the small integers, whose
    data is the opcode itself). *)
Definition pushStep (rest : bytes) (r : result (option (bytes * bytes))) : Prop :=
  match r with
  | Ok (Some (push, rest')) => (length push + length rest' <= length rest + 1)%nat
                               /\ (length rest' <= length rest)%nat
  | Ok None | Err _ => True
  | Panic _ => False
  end.

Lemma pushStep_pushBytes fmt n r rest :
  0 <= n -> (length r <= length rest)%nat -> pushStep rest (r0 ← pushBytes fmt n r; Ok (Some r0)).
Proof.
  intros Hn Hr. pose proof (pushBytes_cases fmt n r Hn) as Hp.
  destruct (pushBytes fmt n r) as [[push rest']|e|w]; simpl; [|done|done].
  subst r. rewrite length_app in Hr. lia.
Qed.

Lemma pushStep_sized fmt k r e rest :
  (length r <= length rest)%nat ->
  pushStep rest (if decide (length r < k)%nat then Err e else
                 l ← sliceTo r k; r0 ← pushBytes fmt (le_Z l) (drop k r); Ok (Some r0)).
Proof.
  intros Hr. case_decide; [done|]. unfold sliceTo. rewrite decide_True by lia. simpl.
  apply pushStep_pushBytes; [apply le_Z_range|]. rewrite length_drop. lia.
Qed.

Lemma readPush_cases op rest : pushStep rest (readPush op rest).
Proof.
  unfold readPush. pose proof (Z_of_byte_range op).
  case_decide; [simpl; lia|].
  case_match; [simpl; lia|].
  case_decide; [simpl; lia|].
  case_match eqn:E.
  { apply pushStep_pushBytes; [|done]. change (Z_of_byte OP_DATA_1) with 1 in *. lia. }
  case_decide.
  { destruct rest as [|l rest]; [done|].
    apply pushStep_pushBytes; [apply Z_of_byte_range|simpl; lia]. }
  case_decide; [by apply pushStep_sized|].
  case_decide; [by apply pushStep_sized|done].
Qed.

Lemma readPushesLoop_total fuel rest :
  match readPushesLoop fuel rest with
  | Ok pushes => (sum_list_with length pushes <= length rest)%nat
  | Err _ => True
  | Panic _ => False
  end.
Proof.
  revert rest. induction fuel as [|fuel IH]; intros [|op rest]; simpl; try lia.
  pose proof (readPush_cases op rest) as Hp. unfold pushStep in Hp.
  destruct (readPush op rest) as [[[push rest']|]|e|w]; simpl; try done; [|lia].
  specialize (IH rest'). destruct (readPushesLoop fuel rest') as [ps|e|w]; simpl; try done.
  lia.
Qed.

(** ** Theorems *)

(** The push reader is total: on any bytes it returns a list of pushes or an
    error, never an out-of-range slice, and the pushes it returns hold no more
    bytes than the data. *)
Theorem read_pushes_total data :
  match readPushes data with
  | Ok pushes => (sum_list_with length pushes <= length data)%nat
  | Err _ => True
  | Panic _ => False
  end.
Proof. apply readPushesLoop_total. Qed.

Lemma stops_2DROP s : stopsScan (OP_2DROP :: s).
Proof. intros rest. vm_compute. reflexivity. Qed.

Lemma stripTrue_app s p : stripTrue (s ++ [OP_TRUE]) ++ p = s ++ p.
Proof.
  unfold stripTrue. rewrite last_snoc, decide_True by done.
  by rewrite length_app, Nat.add_sub, take_app_length.
Qed.

Section extract.
Context {T : Txscript} {L : TxscriptLaws T}.

Lemma BuildClaimNameScript_inv name value address params s :
  BuildClaimNameScript name value address params = Ok s ->
  name <> [] /\ Z.of_nat (length name) <= MaxClaimNameSize /\
  exists addr pk prefix, DecodeAddress address params = Ok addr /\ PayToAddrScript addr = Ok pk
    /\ ClaimNameScript name value = Ok prefix /\ s = stripTrue prefix ++ pk.
Proof.
  unfold BuildClaimNameScript, checkName. intros H. case_decide; [by inv_ok|].
  destruct (Z.ltb_spec MaxClaimNameSize (Z.of_nat (length name))); inv_ok. eauto 10.
Qed.

Lemma BuildUpdateClaimScript_inv name id value address params s :
  BuildUpdateClaimScript name id value address params = Ok s ->
  name <> [] /\ Z.of_nat (length name) <= MaxClaimNameSize /\
  exists addr pk prefix, DecodeAddress address params = Ok addr /\ PayToAddrScript addr = Ok pk
    /\ ClaimUpdateScript name id value = Ok prefix /\ s = stripTrue prefix ++ pk.
Proof.
  unfold BuildUpdateClaimScript, checkName. intros H. case_decide; [by inv_ok|].
  destruct (Z.ltb_spec MaxClaimNameSize (Z.of_nat (length name))); inv_ok. eauto 10.
Qed.

Lemma BuildSupportClaimScript_inv name id value address params s :
  BuildSupportClaimScript name id value address params = Ok s ->
  name <> [] /\ Z.of_nat (length name) <= MaxClaimNameSize /\
  exists addr pk prefix, DecodeAddress address params = Ok addr /\ PayToAddrScript addr = Ok pk
    /\ ClaimSupportScript name id value = Ok prefix /\ s = stripTrue prefix ++ pk.
Proof.
  unfold BuildSupportClaimScript, checkName. intros H. case_decide; [by inv_ok|].
  destruct (Z.ltb_spec MaxClaimNameSize (Z.of_nat (length name))); inv_ok. eauto 10.
Qed.

Lemma claim_name_extracts name value address params s :
  name <> [x00] -> value <> [x00] -> BuildClaimNameScript name value address params = Ok s ->
  ExtractClaimValue s = Ok value /\ IsClaimScript s = true.
Proof.
  intros Hn Hv Hb.
  destruct (BuildClaimNameScript_inv _ _ _ _ _ Hb) as (_ & _ & addr & pk & pre & Ha & Hpk & Hs & ->).
  destruct (claim_name_shape _ _ _ Hn Hv Hs) as (en & ev & He & Hev & ->).
  change [OP_2DROP; OP_DROP; OP_TRUE] with ([OP_2DROP; OP_DROP] ++ [OP_TRUE]).
  rewrite app_assoc, app_comm_cons, stripTrue_app. split; [|done].
  unfold ExtractClaimValue. simpl. rewrite <- app_assoc.
  replace (en ++ ev) with (concat [en; ev]) by (simpl; by rewrite app_nil_r).
  rewrite (readPushes_encoded [name; value]); [done|by repeat constructor|apply stops_2DROP].
Qed.

(** Round trip of a claim_name output: whatever script the builder returns for a
    name and a value (other than the single byte 0, which the script library
    pushes as OP_0), the extractor gives the value back, the script is recognised
    as a claim script and it ends with the pay-to-address script. *)
Theorem claim_name_roundtrip name value address params s
    (Hn : name <> [x00]) (Hv : value <> [x00])
    (Hb : BuildClaimNameScript name value address params = Ok s) :
  ExtractClaimValue s = Ok value /\ IsClaimScript s = true
  /\ exists prefix pk, BuildP2PKHScript address params = Ok pk /\ s = prefix ++ pk.
Proof.
  destruct (claim_name_extracts _ _ _ _ _ Hn Hv Hb) as [He Hi]. split_and!; [done..|].
  destruct (BuildClaimNameScript_inv _ _ _ _ _ Hb) as (_ & _ & addr & pk & pre & Ha & Hpk & Hs & ->).
  eexists _, pk. split; [|done]. unfold BuildP2PKHScript. by rewrite Ha.
Qed.

(** Round trip of an update_claim output: the extractor skips the claim ID and
    gives the value back. *)
Theorem update_claim_roundtrip name id value address params s
    (Hn : name <> [x00]) (Hi : wfClaimID id) (Hv : value <> [x00])
    (Hb : BuildUpdateClaimScript name id value address params = Ok s) :
  ExtractClaimValue s = Ok value /\ IsClaimScript s = true
  /\ exists prefix pk, BuildP2PKHScript address params = Ok pk /\ s = prefix ++ pk.
Proof.
  destruct (BuildUpdateClaimScript_inv _ _ _ _ _ _ Hb)
    as (_ & _ & addr & pk & pre & Ha & Hpk & Hs & ->).
  assert (id <> [x00]) as Hid by (intros ->; discriminate Hi).
  destruct (claim_update_shape _ _ _ _ Hn Hid Hv Hs) as (en & ei & ev & He & Hei & Hev & ->).
  change [OP_2DROP; OP_2DROP; OP_TRUE] with ([OP_2DROP; OP_2DROP] ++ [OP_TRUE]).
  rewrite app_assoc, app_comm_cons, stripTrue_app. split_and!.
  - unfold ExtractClaimValue. simpl. rewrite <- app_assoc.
    replace (en ++ ei ++ ev) with (concat [en; ei; ev]) by (simpl; by rewrite app_nil_r).
    rewrite (readPushes_encoded [name; id; value]); [done|by repeat constructor|apply stops_2DROP].
  - done.
  - eexists _, pk. split; [|done]. unfold BuildP2PKHScript. by rewrite Ha.
Qed.

(** A support carries no value to extract: its script is a claim script, and the
    extractor refuses its opcode. *)
Lemma support_claim_no_value name id value address params s :
  BuildSupportClaimScript name id value address params = Ok s ->
  IsClaimScript s = true
  /\ ExtractClaimValue s = Err (EMsg "unexpected opcode 0x%02x in claim script").
Proof.
  intros Hb. destruct (BuildSupportClaimScript_inv _ _ _ _ _ _ Hb)
    as (_ & _ & addr & pk & pre & Ha & Hpk & Hs & ->).
  destruct (claim_support_shape _ _ _ _ Hs) as (s' & ->).
  unfold stripTrue. destruct (last _) as [b|] eqn:E; [|done].
  case_decide; [|done]. subst. destruct s' as [|b s']; [discriminate E|done].
Qed.
End extract.

(** ** An instance of the script library

    The canonical pushes (the shortest form of each datum) and claim scripts
    around a fixed address script; it satisfies the laws, so the hypotheses of
    the round trips can hold. *)

Definition le_bytes (n : nat) (z : Z) : bytes := rev (be_bytes n z).

Definition canonicalPush (d : bytes) : bytes :=
  match d with
  | [] => [OP_0]
  | [b] =>
      if decide (b = x81) then [OP_1NEGATE]
      else if (Z_of_byte b <=? 16) then [if decide (b = x00) then OP_0 else byte_of_Z (80 + Z_of_byte b)]
      else [OP_DATA_1; b]
  | _ =>
      if decide (length d <= 75)%nat then byte_of_Z (Z.of_nat (length d)) :: d
      else if decide (length d <= 255)%nat then OP_PUSHDATA1 :: byte_of_Z (Z.of_nat (length d)) :: d
      else if decide (Z.of_nat (length d) < 65536) then OP_PUSHDATA2 :: le_bytes 2 (Z.of_nat (length d)) ++ d
      else OP_PUSHDATA4 :: le_bytes 4 (Z.of_nat (length d)) ++ d
  end.

Lemma le_Z_rev b : le_Z (rev b) = be_Z b.
Proof.
  induction b as [|c b IH] using rev_ind; [done|].
  rewrite rev_app_distr, be_Z_snoc. simpl. rewrite <- IH. unfold le_Z. simpl. lia.
Qed.

Lemma le_bytes_spec n z :
  0 <= z < 256 ^ Z.of_nat n -> length (le_bytes n z) = n /\ le_Z (le_bytes n z) = z.
Proof.
  intros Hz. unfold le_bytes. rewrite length_rev, length_be_bytes, le_Z_rev, be_Z_be_bytes by lia.
  by rewrite Z.mod_small.
Qed.

Lemma canonicalPush_encodes d :
  d <> [x00] -> Z.of_nat (length d) < 2 ^ 32 -> encodesPush d (canonicalPush d).
Proof.
  intros Hd Hl. destruct d as [|b [|c d]]; [constructor| |].
  - unfold canonicalPush. case_decide; [subst; constructor|].
    assert (b <> x00) by congruence. rewrite (decide_False (P := b = x00)) by done.
    destruct (Z.leb_spec (Z_of_byte b) 16).
    + rewrite <- (byte_of_Z_of_byte b) at 1. constructor. pose proof (Z_of_byte_range b).
      assert (Z_of_byte b <> Z_of_byte x00) as Hne by (intros E%Z_of_byte_inj; done).
      change (Z_of_byte x00) with 0 in Hne. lia.
    + apply (ep_direct [b]). simpl. lia.
  - unfold canonicalPush. case_decide; [constructor; simpl in *; lia|].
    case_decide; [constructor; apply Z_of_byte_of_Z_small; lia|].
    case_decide; constructor; apply le_bytes_spec; simpl Z.of_nat in *; lia.
Qed.

(** [txscript.MaxScriptElementSize]-style bound: an oversized push is an error. *)
Definition claimScript (op : byte) (pushes : list bytes) (drops : bytes) : result bytes :=
  if decide (Forall (fun d => Z.of_nat (length d) < 2 ^ 32) pushes)
  then Ok (op :: concat (map canonicalPush pushes) ++ drops)
  else Err (EMsg "oversized push").

#[local] Instance exampleTxscript : Txscript := {|
  Params := unit;
  Address := bytes;
  DecodeAddress a _ := if decide (a = []) then Err (EMsg "decoded address is of unknown format") else Ok a;
  PayToAddrScript a := Ok (x76 :: xa9 :: canonicalPush a ++ [x88; xac]);
  ClaimNameScript n v := claimScript OP_CLAIMNAME [n; v] [OP_2DROP; OP_DROP; OP_TRUE];
  ClaimUpdateScript n i v := claimScript OP_UPDATECLAIM [n; i; v] [OP_2DROP; OP_2DROP; OP_TRUE];
  ClaimSupportScript n i v :=
    match v with
    | [] => claimScript OP_SUPPORTCLAIM [n; i] [OP_2DROP; OP_DROP; OP_TRUE]
    | _ => claimScript OP_SUPPORTCLAIM [n; i; v] [OP_2DROP; OP_2DROP; OP_TRUE]
    end;
  StripClaimScriptPrefix s := s;
  MaxClaimNameSize := 255
|}.

#[local] Instance exampleTxscript_laws : TxscriptLaws exampleTxscript.
Proof.
  split; simpl; unfold claimScript.
  - intros n v s Hn Hv. case_decide as Hf; [|done]. intros [= <-].
    apply Forall_cons in Hf as [? Hf]. apply Forall_cons in Hf as [? _].
    exists (canonicalPush n), (canonicalPush v). simpl. rewrite app_nil_r.
    auto using canonicalPush_encodes.
  - intros n i v s Hn Hi Hv. case_decide as Hf; [|done]. intros [= <-].
    apply Forall_cons in Hf as [? Hf]. apply Forall_cons in Hf as [? Hf].
    apply Forall_cons in Hf as [? _].
    exists (canonicalPush n), (canonicalPush i), (canonicalPush v). simpl. rewrite app_nil_r.
    auto 10 using canonicalPush_encodes.
  - intros n i v s. destruct v; case_decide; naive_solver.
Qed.

Lemma claim_name_roundtrip_witness :
  exists s, BuildClaimNameScript (T := exampleTxscript) (go "hi") [x01] (go "a") tt = Ok s /\ ExtractClaimValue s = Ok [x01].
Proof.
  destruct (BuildClaimNameScript (T := exampleTxscript) (go "hi") [x01] (go "a") tt) as [s| |] eqn:E; [|discriminate E..].
  exists s. split; [done|].
  exact (proj1 (claim_name_roundtrip (T := exampleTxscript) (go "hi") [x01] (go "a") tt s ltac:(done) ltac:(done) E)).
Defined.

Lemma update_claim_roundtrip_witness :
  exists s, BuildUpdateClaimScript (T := exampleTxscript) (go "hi") zeroClaimID (go "value") (go "a") tt = Ok s
            /\ ExtractClaimValue s = Ok (go "value").
Proof.
  destruct (BuildUpdateClaimScript (T := exampleTxscript) (go "hi") zeroClaimID (go "value") (go "a") tt)
    as [s| |] eqn:E; [|discriminate E..].
  exists s. split; [done|].
  exact (proj1 (update_claim_roundtrip (T := exampleTxscript) (go "hi") zeroClaimID (go "value") (go "a") tt s
    ltac:(done) eq_refl ltac:(done) E)).
Defined.
