(* ===== verification/Tx.v ===== *)
(** * chain/tx.go: building and signing transactions

    Inputs, outputs and [Builder.Build] with its three loops, over the wire format
    and signing of lbcd (an interface, with the documented fact that a signature
    does not cover the signature scripts as its law). *)
From stdpp Require Import base tactics list numbers sets strings.
From Stdlib Require Import ZArith Lia Init.Byte.
From S2P Require Import Prelude GoStd ClaimId Script.
Local Open Scope Z_scope.

(** ** Data *)

Record Input := mkInput { in_TxID : bytes; in_Vout : Z; in_Amount : Z; in_Script : bytes }.

(** [ClaimType] is a byte; these are its named values. *)
Definition ClaimTypeNone : byte := x00.
Definition ClaimTypeName : byte := x01.
Definition ClaimTypeUpdate : byte := x02.
Definition ClaimTypeSupport : byte := x03.

Record Output := mkOutput {
  out_Address : bytes;
  out_Amount : Z;
  out_Script : bytes;
  out_IsClaim : bool;
  out_ClaimName : bytes;
  out_ClaimValue : bytes;
  out_ClaimID : bytes;
  out_ClaimType : byte
}.

Definition SigHashAll : Z := 1.

(** [wire.TxIn], [wire.TxOut] and [wire.MsgTx]. *)
Record TxIn := mkTxIn { ti_PreviousOutPoint : OutPoint; ti_SignatureScript : bytes; ti_Sequence : Z }.
Record TxOut := mkTxOut { to_Value : Z; to_PkScript : bytes }.
Record MsgTx := mkMsgTx { tx_Version : Z; tx_In : list TxIn; tx_Out : list TxOut; tx_LockTime : Z }.

(** lbcd: btcec, wire, chainhash and the signing half of txscript. *)
Class Wire := {
  PrivateKey : Type;
  NewHashFromStr : bytes -> result bytes;
  TxVersion : Z;
  MaxTxInSequenceNum : Z;
  SignatureScript : MsgTx -> nat -> bytes -> Z -> PrivateKey -> bool -> result bytes;
  MsgTx_Serialize : MsgTx -> result bytes;
  TxHash_String : MsgTx -> bytes
}.

Definition NewMsgTx (version : Z) : MsgTx := mkMsgTx version [] [] 0.
Definition AddTxIn (tx : MsgTx) (ti : TxIn) : MsgTx :=
  mkMsgTx (tx_Version tx) (tx_In tx ++ [ti]) (tx_Out tx) (tx_LockTime tx).
Definition AddTxOut (tx : MsgTx) (to : TxOut) : MsgTx :=
  mkMsgTx (tx_Version tx) (tx_In tx) (tx_Out tx ++ [to]) (tx_LockTime tx).

(** [msgTx.TxIn[i].SignatureScript = sigScript], a panic out of range. *)
Definition setSig (s : bytes) (ti : TxIn) : TxIn :=
  mkTxIn (ti_PreviousOutPoint ti) s (ti_Sequence ti).
Definition setSignatureScript (tx : MsgTx) (i : nat) (s : bytes) : result MsgTx :=
  ti ← index (tx_In tx) i;
  Ok (mkMsgTx (tx_Version tx) (<[i := setSig s ti]> (tx_In tx)) (tx_Out tx) (tx_LockTime tx)).

(** ** The builder *)

Section builder.
Context {T : Txscript} {W : Wire}.

Definition KeyFunc : Type := nat -> Input -> result PrivateKey.

(** The body of the input loop: the outpoint an input spends. *)
Definition buildInput (inp : Input) : result TxIn :=
  txHash ← wrap_err "parse txid %s" (NewHashFromStr (in_TxID inp));
  Ok (mkTxIn (mkOutPoint txHash (in_Vout inp)) [] MaxTxInSequenceNum).

Fixpoint addInputs (inputs : list Input) (tx : MsgTx) : result MsgTx :=
  match inputs with
  | [] => Ok tx
  | inp :: inputs' => ti ← buildInput inp; addInputs inputs' (AddTxIn tx ti)
  end.

(** The body of the output loop: the script of an output. *)
Definition outputScript (params : Params) (out : Output) : result bytes :=
  if decide (0 < length (out_Script out))%nat then Ok (out_Script out)
  else if out_IsClaim out && bool_decide (out_ClaimType out = ClaimTypeName) then
    wrap_err "build output %d script"
      (BuildClaimNameScript (out_ClaimName out) (out_ClaimValue out) (out_Address out) params)
  else if out_IsClaim out && bool_decide (out_ClaimType out = ClaimTypeUpdate) then
    wrap_err "build output %d script"
      (BuildUpdateClaimScript (out_ClaimName out) (out_ClaimID out) (out_ClaimValue out)
         (out_Address out) params)
  else if out_IsClaim out && bool_decide (out_ClaimType out = ClaimTypeSupport) then
    wrap_err "build output %d script"
      (BuildSupportClaimScript (out_ClaimName out) (out_ClaimID out) (out_ClaimValue out)
         (out_Address out) params)
  else if out_IsClaim out then
    Err (EMsg "build output %d: IsClaim is true but ClaimType is unspecified or unknown")
  else wrap_err "build output %d script" (BuildP2PKHScript (out_Address out) params).

Fixpoint addOutputs (params : Params) (outputs : list Output) (tx : MsgTx) : result MsgTx :=
  match outputs with
  | [] => Ok tx
  | out :: outputs' =>
      pkScript ← outputScript params out;
      addOutputs params outputs' (AddTxOut tx (mkTxOut (out_Amount out) pkScript))
  end.

(** The signing loop, at input [i]: the transaction it signs carries the
    signatures of the earlier inputs. *)
Fixpoint signInputs (keyFn : KeyFunc) (i : nat) (inputs : list Input) (tx : MsgTx) : result MsgTx :=
  match inputs with
  | [] => Ok tx
  | inp :: inputs' =>
      privKey ← wrap_err "get key for input %d" (keyFn i inp);
      let signScript := StripClaimScriptPrefix (in_Script inp) in
      sigScript ← wrap_err "sign input %d" (SignatureScript tx i signScript SigHashAll privKey true);
      tx' ← setSignatureScript tx i sigScript;
      signInputs keyFn (S i) inputs' tx'
  end.

Definition Build (params : Params) (inputs : list Input) (outputs : list Output) (keyFn : KeyFunc)
    : result MsgTx :=
  tx1 ← addInputs inputs (NewMsgTx TxVersion);
  tx2 ← addOutputs params outputs tx1;
  signInputs keyFn 0 inputs tx2.

Definition Serialize (msgTx : MsgTx) : result bytes :=
  wrap_err "serialize tx" (MsgTx_Serialize msgTx).

Definition SerializeHex (msgTx : MsgTx) : result bytes :=
  raw ← Serialize msgTx; Ok (EncodeToString raw).

Definition TxID (msgTx : MsgTx) : bytes := TxHash_String msgTx.
End builder.

Definition EstimateFee (size feePerByte : Z) : Z := size *i feePerByte.
Definition EstimateTxSize (numInputs numOutputs : Z) : Z :=
  10 +i (numInputs *i 250) +i (numOutputs *i 40).

(** ** Properties *)

(** Two transactions that differ at most in their signature scripts. *)
Definition clearSigs (tx : MsgTx) : MsgTx :=
  mkMsgTx (tx_Version tx) (setSig [] <$> tx_In tx) (tx_Out tx) (tx_LockTime tx).

(** What signing relies on: the signature hash blanks the signature scripts. *)
Class WireLaws (W : Wire) : Prop := {
  sig_ignores_sigs tx1 tx2 i sub ht key c :
    clearSigs tx1 = clearSigs tx2 ->
    SignatureScript tx1 i sub ht key c = SignatureScript tx2 i sub ht key c
}.

Section properties.
Context {T : Txscript} {W : Wire}.

Lemma addInputs_spec inputs tx tx' :
  addInputs inputs tx = Ok tx' ->
  exists tis, Forall2 (fun inp ti => buildInput inp = Ok ti) inputs tis
    /\ tx' = mkMsgTx (tx_Version tx) (tx_In tx ++ tis) (tx_Out tx) (tx_LockTime tx).
Proof.
  revert tx. induction inputs as [|inp inputs IH]; intros tx H; simpl in H.
  - inv_ok. exists []. rewrite app_nil_r. split; [constructor|by destruct tx'].
  - apply bind_Ok in H as (ti & Hti & H). apply IH in H as (tis & Hf & ->).
    exists (ti :: tis). split; [by constructor|]. simpl. by rewrite <- app_assoc.
Qed.

Lemma addOutputs_spec params outputs tx tx' :
  addOutputs params outputs tx = Ok tx' ->
  exists tos,
    Forall2 (fun out to => outputScript params out = Ok (to_PkScript to)
                           /\ to_Value to = out_Amount out) outputs tos
    /\ tx' = mkMsgTx (tx_Version tx) (tx_In tx) (tx_Out tx ++ tos) (tx_LockTime tx).
Proof.
  revert tx. induction outputs as [|out outputs IH]; intros tx H; simpl in H.
  - inv_ok. exists []. rewrite app_nil_r. split; [constructor|by destruct tx'].
  - apply bind_Ok in H as (s & Hs & H). apply IH in H as (tos & Hf & ->).
    exists (mkTxOut (out_Amount out) s :: tos). split; [by constructor|].
    simpl. by rewrite <- app_assoc.
Qed.

Lemma clearSigs_insert tx i s ti :
  tx_In tx !! i = Some ti ->
  clearSigs (mkMsgTx (tx_Version tx) (<[i := setSig s ti]> (tx_In tx)) (tx_Out tx) (tx_LockTime tx))
  = clearSigs tx.
Proof.
  intros Hi. unfold clearSigs. simpl. f_equal. rewrite list_fmap_insert.
  apply list_insert_id. rewrite list_lookup_fmap, Hi. done.
Qed.

(** The signature an input must carry: the one its key makes on [tx]. *)
Definition signedBy (keyFn : KeyFunc) (tx : MsgTx) (i : nat) (inp : Input) (s : bytes) : Prop :=
  exists key, keyFn i inp = Ok key /\
    SignatureScript tx i (StripClaimScriptPrefix (in_Script inp)) SigHashAll key true = Ok s.

Context {L : WireLaws W}.

Lemma signedBy_clear keyFn tx1 tx2 i inp s :
  clearSigs tx1 = clearSigs tx2 -> signedBy keyFn tx1 i inp s -> signedBy keyFn tx2 i inp s.
Proof.
  intros E (key & Hk & Hs). exists key. split; [done|]. by rewrite <- (sig_ignores_sigs tx1 tx2).
Qed.

Lemma signInputs_spec keyFn inputs i tx tx' :
  signInputs keyFn i inputs tx = Ok tx' ->
  clearSigs tx' = clearSigs tx
  /\ (forall j, (j < i)%nat -> tx_In tx' !! j = tx_In tx !! j)
  /\ forall k inp, inputs !! k = Some inp ->
       exists ti, tx_In tx' !! (i + k)%nat = Some ti
                  /\ signedBy keyFn tx' (i + k) inp (ti_SignatureScript ti).
Proof.
  revert i tx. induction inputs as [|inp inputs IH]; intros i tx H; simpl in H.
  { inv_ok. done. }
  apply bind_Ok in H as (key & Hk%wrap_err_Ok & H).
  apply bind_Ok in H as (s & Hs%wrap_err_Ok & H).
  apply bind_Ok in H as (tx1 & H1 & H). unfold setSignatureScript in H1.
  apply bind_Ok in H1 as (ti & Hti%index_Ok & [= <-]).
  destruct (IH _ _ H) as (Hc & Hlt & Hk'). clear IH.
  rewrite clearSigs_insert in Hc by done. split_and!; [done|..].
  - intros j Hj. rewrite Hlt by lia. simpl. by rewrite list_lookup_insert_ne by lia.
  - intros [|k] inp' Hinp; simpl in Hinp.
    + injection Hinp as ->. rewrite Nat.add_0_r. exists (setSig s ti). split.
      * rewrite Hlt by lia. simpl. rewrite list_lookup_insert_eq; [done|]. by eapply lookup_lt_Some.
      * eapply signedBy_clear; [symmetry; exact Hc|]. exists key. done.
    + replace (i + S k)%nat with (S i + k)%nat by lia. eauto.
Qed.

Lemma clearSigs_In tx1 tx2 :
  clearSigs tx1 = clearSigs tx2 ->
  tx_Version tx1 = tx_Version tx2 /\ tx_Out tx1 = tx_Out tx2 /\ tx_LockTime tx1 = tx_LockTime tx2
  /\ setSig [] <$> tx_In tx1 = setSig [] <$> tx_In tx2.
Proof. unfold clearSigs. intros [= -> -> -> ->]. done. Qed.

(** A transaction the builder returns spends exactly the given inputs in order
    (outpoint parsed from the transaction ID and the index, final sequence
    number), creates exactly the given outputs in order (amount, and the script
    chosen by the output's fields), and carries at every input the signature its
    key makes on that very transaction, although the signatures are added one
    after the other. *)
Theorem build_spec params inputs outputs keyFn tx
    (H : Build params inputs outputs keyFn = Ok tx) :
  Forall2 (fun inp ti => buildInput inp = Ok (setSig [] ti)) inputs (tx_In tx)
  /\ Forall2 (fun out to => outputScript params out = Ok (to_PkScript to)
                            /\ to_Value to = out_Amount out) outputs (tx_Out tx)
  /\ forall i inp, inputs !! i = Some inp ->
       exists ti, tx_In tx !! i = Some ti /\ signedBy keyFn tx i inp (ti_SignatureScript ti).
Proof.
  unfold Build in H. apply bind_Ok in H as (tx1 & H1 & H).
  apply bind_Ok in H as (tx2 & H2 & H).
  apply addInputs_spec in H1 as (tis & Hi & ->). apply addOutputs_spec in H2 as (tos & Ho & ->).
  apply signInputs_spec in H as (Hc & _ & Hs).
  apply clearSigs_In in Hc as (_ & Hout & _ & Hin). simpl in *.
  split_and!; [|by rewrite Hout|exact Hs].
  assert (setSig [] <$> tis = tis) as Ht.
  { clear - Hi. induction Hi as [|inp ti inputs tis Hb _ IH]; [done|].
    rewrite fmap_cons, IH. f_equal. unfold buildInput in Hb. inv_ok. done. }
  rewrite Ht in Hin. rewrite <- Hin in Hi. by apply Forall2_fmap_r in Hi.
Qed.
End properties.

(** The size estimate grows with both counts and the fee is the product, as
    long as the numbers stay within 64 bits. *)
Lemma estimate_exact ni no rate :
  0 <= ni <= 2 ^ 20 -> 0 <= no <= 2 ^ 20 -> 0 <= rate <= 2 ^ 30 ->
  EstimateFee (EstimateTxSize ni no) rate = (10 + 250 * ni + 40 * no) * rate.
Proof.
  intros. unfold EstimateFee, EstimateTxSize.
  rewrite (int64_id (ni * 250)), (int64_id (no * 40)) by (unfold in_int64; lia).
  rewrite (int64_id (10 + _)) by (unfold in_int64; lia).
  rewrite (int64_id (10 + _ + _)) by (unfold in_int64; lia).
  rewrite int64_id by (unfold in_int64; nia). lia.
Qed.

(** Every output with [IsClaim] set and a type other than the three named ones
    is refused, whatever the inputs, so no claim is silently paid as a plain
    address output. *)
Theorem build_unknown_claim {T : Txscript} {W : Wire} params inputs outputs keyFn out
    (Hin : out ∈ outputs) (Hs : out_Script out = []) (Hc : out_IsClaim out = true)
    (Ht : out_ClaimType out ∉ [ClaimTypeName; ClaimTypeUpdate; ClaimTypeSupport]) :
  is_ok (Build params inputs outputs keyFn) = false.
Proof.
  destruct (Build params inputs outputs keyFn) as [tx| |] eqn:E; [exfalso|done|done].
  unfold Build in E. apply bind_Ok in E as (tx1 & _ & E).
  apply bind_Ok in E as (tx2 & (tos & Ho & _)%addOutputs_spec & _).
  apply list_elem_of_lookup in Hin as [i Hi].
  destruct (Forall2_lookup_l _ _ _ _ _ Ho Hi) as (to & _ & Hout & _).
  unfold outputScript in Hout. rewrite Hs, Hc in Hout. simpl in Hout.
  rewrite !bool_decide_eq_false_2 in Hout by (intros Heq; apply Ht; rewrite Heq; set_solver).
  discriminate Hout.
Qed.

(** ** An instance of the wire library

    A toy signature (the key, the index and the outpoints) that satisfies the law. *)

Definition toySignature (tx : MsgTx) (i : nat) (sub : bytes) (ht : Z) (key : byte) (c : bool)
    : result bytes :=
  Ok (key :: byte_of_Z (Z.of_nat i) :: sub ++ concat (op_Hash ∘ ti_PreviousOutPoint <$> tx_In tx)).

#[local] Instance exampleWire : Wire := {|
  PrivateKey := byte;
  NewHashFromStr s := b ← DecodeString s; Ok (copyArray 32 (rev b));
  TxVersion := 1;
  MaxTxInSequenceNum := 2 ^ 32 - 1;
  SignatureScript := toySignature;
  MsgTx_Serialize tx := Ok [];
  TxHash_String tx := []
|}.

#[local] Instance exampleWire_laws : WireLaws exampleWire.
Proof.
  split. intros tx1 tx2 i sub ht key c (_ & _ & _ & E)%clearSigs_In. simpl. unfold toySignature.
  assert (forall l : list TxIn, op_Hash ∘ ti_PreviousOutPoint <$> l
                    = op_Hash ∘ ti_PreviousOutPoint <$> (setSig [] <$> l)) as Hl.
  { intros l. rewrite <- list_fmap_compose. done. }
  by rewrite Hl, E, <- Hl.
Qed.

Definition exampleInputs : list Input := [mkInput (go "ab") 1 50 [x51]; mkInput (go "cd") 0 60 [x52]].
Definition exampleOutputs : list Output :=
  [mkOutput (go "addr") 100 [] false [] [] zeroClaimID ClaimTypeNone].

Lemma build_spec_witness :
  exists tx, Build (T := exampleTxscript) (W := exampleWire) tt exampleInputs exampleOutputs
               (fun i _ => Ok (byte_of_Z (Z.of_nat i))) = Ok tx /\ length (tx_In tx) = 2%nat.
Proof.
  destruct (Build (T := exampleTxscript) (W := exampleWire) tt exampleInputs exampleOutputs
              (fun i _ => Ok (byte_of_Z (Z.of_nat i)))) as [tx| |] eqn:E; [|discriminate E..].
  exists tx. split; [done|].
  destruct (build_spec (L := exampleWire_laws) _ _ _ _ _ E) as (H & _).
  apply Forall2_length in H. by rewrite <- H.
Defined.

Definition unknownClaim : Output :=
  mkOutput (go "addr") 100 [] true (go "name") [] zeroClaimID ClaimTypeNone.

Lemma build_unknown_claim_witness :
  is_ok (Build (T := exampleTxscript) (W := exampleWire) tt exampleInputs [unknownClaim]
           (fun i _ => Ok x00)) = false.
Proof.
  apply (build_unknown_claim (T := exampleTxscript) (W := exampleWire) tt exampleInputs
           [unknownClaim] _ unknownClaim); [by left|done|done|].
  intros H. apply (bool_decide_spec (_ ∈ _)) in H. vm_compute in H. exact H.
Defined.
