(* ===== verification/Multihash.v ===== *)
(** * stream/multihash.go and stream/hash.go: LBRY hashes as CIDs

    go-cid and go-multihash are an interface; the laws state the encoding of a
    SHA-384 multihash and that a CID string decodes to what it was made from. *)
From stdpp Require Import base tactics list numbers strings.
From Stdlib Require Import ZArith Lia Init.Byte.
From S2P Require Import Prelude GoStd Sha2 Blob.
Local Open Scope Z_scope.

Inductive HashType := HashTypeUnknown | HashTypeLBRY | HashTypeMultihash.

#[export] Instance HashType_eq_dec : EqDecision HashType.
Proof. solve_decision. Defined.

Definition SHA384MultihashCode : Z := 32.
Definition SHA384DigestLength : Z := 48.

(** What the code reads of a decoded CID. *)
Record Cid := mkCid { cid_Version : Z; cid_Type : Z; cid_Hash : bytes }.

(** github.com/ipfs/go-cid and github.com/multiformats/go-multihash *)
Class CidLib := {
  cid_Raw : Z;
  NewCidV1 : Z -> bytes -> Cid;
  cid_String : Cid -> bytes;
  cid_Decode : bytes -> result Cid;
  mh_Encode : bytes -> Z -> result bytes;
  mh_Decode : bytes -> result (Z * bytes)
}.

(** A SHA-384 multihash: the code, the length and the digest. *)
Definition sha384Multihash (digest : bytes) : bytes :=
  byte_of_Z SHA384MultihashCode :: byte_of_Z SHA384DigestLength :: digest.

Class CidLaws (L : CidLib) : Prop := {
  new_cid codec mh : NewCidV1 codec mh = mkCid 1 codec mh;
  cid_decode_string digest :
    length digest = BlobHashSize ->
    cid_Decode (cid_String (mkCid 1 cid_Raw (sha384Multihash digest)))
    = Ok (mkCid 1 cid_Raw (sha384Multihash digest));
  mh_encode_sha384 digest :
    length digest = BlobHashSize -> mh_Encode digest SHA384MultihashCode = Ok (sha384Multihash digest);
  mh_decode_sha384 digest :
    length digest = BlobHashSize ->
    mh_Decode (sha384Multihash digest) = Ok (SHA384MultihashCode, digest)
}.

Section multihash.
Context {L : CidLib}.

Definition ToMultihash (lbryHash : bytes) : result bytes :=
  if negb (IsValid lbryHash) then Err (EMsg "invalid LBRY hash: %s") else
  hashBytes ← wrap_err "failed to decode LBRY hash" (DecodeString lbryHash);
  mh ← wrap_err "failed to encode multihash" (mh_Encode hashBytes SHA384MultihashCode);
  Ok (cid_String (NewCidV1 cid_Raw mh)).

Definition FromMultihash (multihashStr : bytes) : result bytes :=
  c ← wrap_err "failed to decode CID" (cid_Decode multihashStr);
  if negb (cid_Version c =? 1) then Err (EMsg "unsupported CID version: %d") else
  if negb (cid_Type c =? cid_Raw) then Err (EMsg "unsupported codec: %d") else
  '(code, digest) ← wrap_err "failed to decode multihash" (mh_Decode (cid_Hash c));
  if negb (code =? SHA384MultihashCode) then Err (EMsg "unsupported multihash code: %d") else
  Ok (EncodeToString digest).

Definition IsValidMultihash (hash : bytes) : bool :=
  match cid_Decode hash with
  | Ok c =>
      if negb (cid_Version c =? 1) then false else
      if negb (cid_Type c =? cid_Raw) then false else
      match cid_Hash c with
      | m0 :: m1 :: _ =>
          if negb (Z_of_byte m0 =? SHA384MultihashCode) then false else
          if negb (Z_of_byte m1 =? SHA384DigestLength) then false else true
      | _ => false
      end
  | _ => false
  end.

Definition IdentifyHash (hash : bytes) : HashType :=
  if IsValid hash then HashTypeLBRY
  else if IsValidMultihash hash then HashTypeMultihash
  else HashTypeUnknown.

Definition ValidateHash (hash : bytes) : bool := negb (bool_decide (IdentifyHash hash = HashTypeUnknown)).
End multihash.

(** ** Properties *)

Section properties.
Context {L : CidLib} {Laws : CidLaws L}.

Lemma IsValid_digest h :
  IsValid h = true -> exists b, DecodeString h = Ok b /\ length b = BlobHashSize /\ EncodeToString b = h.
Proof.
  intros [Hl Hf]%IsValid_spec. destruct (DecodeString_lower h) as [b Hb]; [done|by exists 48%nat|].
  exists b. split_and!; [done| |by apply EncodeToString_DecodeString].
  apply DecodeString_length in Hb. rewrite Hl in Hb. unfold SHA384HexLength, BlobHashSize in *. lia.
Qed.

(** Every LBRY hash converts to a multihash CID that is recognised as such and
    converts back to the same hash; a string that is not a hash is refused. *)
Theorem multihash_roundtrip h :
  if IsValid h then
    exists m, ToMultihash h = Ok m /\ FromMultihash m = Ok h /\ IsValidMultihash m = true
  else ToMultihash h = Err (EMsg "invalid LBRY hash: %s").
Proof.
  destruct (IsValid h) eqn:Hv; unfold ToMultihash; rewrite Hv; [|done].
  destruct (IsValid_digest h Hv) as (b & Hb & Hl & He). simpl. rewrite Hb. simpl.
  rewrite mh_encode_sha384 by done. simpl. rewrite new_cid. eexists. split; [done|].
  unfold FromMultihash, IsValidMultihash. rewrite cid_decode_string by done. cbn [wrap_err mbind result_bind].
  cbn [cid_Version cid_Type cid_Hash]. rewrite !Z.eqb_refl. cbn [negb].
  rewrite mh_decode_sha384 by done. cbn [wrap_err mbind result_bind]. rewrite He. done.
Qed.

Lemma ValidateHash_digest b : length b = BlobHashSize -> ValidateHash (EncodeToString b) = true.
Proof.
  intros Hl. unfold ValidateHash, IdentifyHash.
  assert (IsValid (EncodeToString b) = true) as ->; [|done].
  apply IsValid_spec. split; [|apply EncodeToString_lower].
  rewrite length_EncodeToString, Hl. done.
Qed.
End properties.

(** ** An instance: the base-16 CID *)

#[local] Instance exampleCid : CidLib := {|
  cid_Raw := 85;
  NewCidV1 codec mh := mkCid 1 codec mh;
  cid_String c := x66 :: EncodeToString (byte_of_Z (cid_Version c) :: byte_of_Z (cid_Type c) :: cid_Hash c);
  cid_Decode s :=
    match s with
    | p :: s' =>
        if decide (p = x66) then
          b ← DecodeString s';
          match b with
          | v :: t :: mh => Ok (mkCid (Z_of_byte v) (Z_of_byte t) mh)
          | _ => Err (EMsg "cid too short")
          end
        else Err (EMsg "selected encoding not supported")
    | [] => Err (EMsg "cid too short")
    end;
  mh_Encode d code := Ok (byte_of_Z code :: byte_of_Z (Z.of_nat (length d)) :: d);
  mh_Decode mh :=
    match mh with
    | c :: l :: d => Ok (Z_of_byte c, d)
    | _ => Err (EMsg "multihash too short")
    end
|}.

#[local] Instance exampleCid_laws : CidLaws exampleCid.
Proof.
  split; simpl.
  - done.
  - intros d _. rewrite DecodeString_EncodeToString. done.
  - intros d ->. done.
  - done.
Qed.

Lemma multihash_roundtrip_witness :
  exists m, ToMultihash (Hash (go "x")) = Ok m /\ FromMultihash m = Ok (Hash (go "x")).
Proof.
  pose proof (multihash_roundtrip (L := exampleCid) (Hash (go "x"))) as H.
  rewrite Hash_valid in H. destruct H as (m & H1 & H2 & _). exact (ex_intro _ m (conj H1 H2)).
Defined.
