(* ===== verification/Json.v ===== *)
(** * Go's encoding/json, as the stream descriptors use it

    Texts and values with their literals kept raw (as the decoder sees them), the
    scanner and parser with the standard's nesting limit, the printer, string
    quoting and unquoting, and the decoding of strings and integers into struct
    fields.  Theorems: printing then parsing gives the value back, for both the
    compact form and the form with a space after commas and colons. *)
From stdpp Require Import base tactics list numbers sets strings.
From Stdlib Require Import ZArith Lia Init.Byte.
From S2P Require Import Prelude GoStd.
Local Open Scope Z_scope.

(** ** UTF-8 *)

(** [utf8.DecodeRune]: the rune and its width; [None] for an invalid sequence. *)
Definition isCont (lo hi : Z) (b : byte) : bool :=
  let z := Z_of_byte b in (lo <=? z) && (z <=? hi).

Definition contBits (b : byte) : Z := Z_of_byte b mod 64.

Definition decodeRune (s : bytes) : option (Z * nat) :=
  match s with
  | [] => None
  | b0 :: s1 =>
      let z := Z_of_byte b0 in
      if z <? 128 then Some (z, 1%nat)
      else if z <? 194 then None
      else if z <? 224 then
        match s1 with
        | b1 :: _ => if isCont 128 191 b1 then Some ((z mod 32) * 64 + contBits b1, 2%nat) else None
        | _ => None
        end
      else if z <? 240 then
        let lo := if z =? 224 then 160 else 128 in
        let hi := if z =? 237 then 159 else 191 in
        match s1 with
        | b1 :: b2 :: _ =>
            if isCont lo hi b1 && isCont 128 191 b2
            then Some (((z mod 16) * 64 + contBits b1) * 64 + contBits b2, 3%nat) else None
        | _ => None
        end
      else if z <? 245 then
        let lo := if z =? 240 then 144 else 128 in
        let hi := if z =? 244 then 143 else 191 in
        match s1 with
        | b1 :: b2 :: b3 :: _ =>
            if isCont lo hi b1 && isCont 128 191 b2 && isCont 128 191 b3
            then Some ((((z mod 8) * 64 + contBits b1) * 64 + contBits b2) * 64 + contBits b3, 4%nat)
            else None
        | _ => None
        end
      else None
  end.

(** [utf8.AppendRune]; a surrogate or an out-of-range rune is written as U+FFFD. *)
Definition encodeRune (r : Z) : bytes :=
  let r := if ((55296 <=? r) && (r <=? 57343)) || (r <? 0) || (1114111 <? r) then 65533 else r in
  if r <? 128 then [byte_of_Z r]
  else if r <? 2048 then [byte_of_Z (192 + r / 64); byte_of_Z (128 + r mod 64)]
  else if r <? 65536 then
    [byte_of_Z (224 + r / 4096); byte_of_Z (128 + (r / 64) mod 64); byte_of_Z (128 + r mod 64)]
  else [byte_of_Z (240 + r / 262144); byte_of_Z (128 + (r / 4096) mod 64);
        byte_of_Z (128 + (r / 64) mod 64); byte_of_Z (128 + r mod 64)].

(** ** Values *)

(** A parsed value; strings and numbers are kept as their literals. *)
#[warnings="-register-all"]
Inductive json :=
  | JNull
  | JBool (b : bool)
  | JNum (lit : bytes)
  | JStr (lit : bytes)
  | JArr (elems : list json)
  | JObj (members : list (bytes * json)).

(** ** Scanning *)

Definition is_space (c : byte) : bool :=
  bool_decide (c = x20 \/ c = x09 \/ c = x0d \/ c = x0a).

Fixpoint skipSpace (b : bytes) : bytes :=
  match b with c :: r => if is_space c then skipSpace r else b | [] => [] end.

Definition is_hex (c : byte) : bool := match hex_value c with Some _ => true | None => false end.

(** The rest of a string literal, from after the opening quote up to and with the
    closing one; and what follows. *)
Fixpoint scanString (b : bytes) : option (bytes * bytes) :=
  match b with
  | [] => None
  | c :: r =>
      if decide (c = x22) then Some ([x22], r)
      else if decide (c = x5c) then
        match r with
        | [] => None
        | e :: r1 =>
            if decide (e = x75) then
              match r1 with
              | h1 :: h2 :: h3 :: h4 :: r2 =>
                  if is_hex h1 && is_hex h2 && is_hex h3 && is_hex h4 then
                    '(l, r') ← scanString r2; Some (x5c :: x75 :: h1 :: h2 :: h3 :: h4 :: l, r')
                  else None
              | _ => None
              end
            else if decide (e ∈ [x62; x66; x6e; x72; x74; x5c; x2f; x22]) then
              '(l, r') ← scanString r1; Some (x5c :: e :: l, r')
            else None
        end
      else if Z_of_byte c <? 32 then None
      else '(l, r') ← scanString r; Some (c :: l, r')
  end.

Fixpoint spanDigits (b : bytes) : bytes * bytes :=
  match b with
  | c :: r => if is_digit c then let '(l, r') := spanDigits r in (c :: l, r') else ([], b)
  | [] => ([], [])
  end.

(** The integer, fraction and exponent parts of a number literal. *)
Definition scanInt (b : bytes) : option (bytes * bytes) :=
  match b with
  | c :: r =>
      if decide (c = x30) then Some ([x30], r)
      else if is_digit c then Some (spanDigits b) else None
  | [] => None
  end.

Definition scanFrac (b : bytes) : option (bytes * bytes) :=
  match b with
  | c :: r =>
      if decide (c = x2e) then
        match spanDigits r with ([], _) => None | (l, r') => Some (x2e :: l, r') end
      else Some ([], b)
  | [] => Some ([], b)
  end.

Definition scanExp (b : bytes) : option (bytes * bytes) :=
  match b with
  | c :: r =>
      if decide (c = x65 \/ c = x45) then
        let '(sign, r1) :=
          match r with
          | s :: r' => if decide (s = x2b \/ s = x2d) then ([s], r') else ([], r)
          | [] => ([], r)
          end in
        match spanDigits r1 with ([], _) => None | (l, r') => Some (c :: sign ++ l, r') end
      else Some ([], b)
  | [] => Some ([], b)
  end.

Definition scanNumber (b : bytes) : option (bytes * bytes) :=
  let '(sign, b1) := match b with
    | c :: r => if decide (c = x2d) then ([x2d], r) else ([], b)
    | [] => ([], b)
    end in
  '(i, b2) ← scanInt b1;
  '(f, b3) ← scanFrac b2;
  '(e, b4) ← scanExp b3;
  Some (sign ++ i ++ f ++ e, b4).

(** [b] without the prefix [p]. *)
Fixpoint stripPrefix (p b : bytes) : option bytes :=
  match p, b with
  | [], _ => Some b
  | x :: p', y :: b' => if decide (x = y) then stripPrefix p' b' else None
  | _, _ => None
  end.

Arguments stripPrefix : simpl never.

Definition scanLiteral (b : bytes) : option (json * bytes) :=
  match stripPrefix (go "null") b with
  | Some r => Some (JNull, r)
  | None =>
      match stripPrefix (go "true") b with
      | Some r => Some (JBool true, r)
      | None =>
          match stripPrefix (go "false") b with
          | Some r => Some (JBool false, r)
          | None => None
          end
      end
  end.

(** ** Parsing

    [depth] is the nesting still allowed; [fuel] bounds the calls, of which there
    are at most two for every byte. *)
Fixpoint parseValue (fuel : nat) (depth : Z) (b : bytes) : option (json * bytes) :=
  match fuel with
  | O => None
  | S fuel =>
      match skipSpace b with
      | [] => None
      | c :: r =>
          if decide (c = x7b) then
            if depth <=? 0 then None else
            if decide (head (skipSpace r) = Some x7d) then Some (JObj [], tail (skipSpace r)) else
            '(ms, r') ← parseMembers fuel (depth - 1) r; Some (JObj ms, r')
          else if decide (c = x5b) then
            if depth <=? 0 then None else
            if decide (head (skipSpace r) = Some x5d) then Some (JArr [], tail (skipSpace r)) else
            '(es, r') ← parseElems fuel (depth - 1) r; Some (JArr es, r')
          else if decide (c = x22) then '(l, r') ← scanString r; Some (JStr (x22 :: l), r')
          else if bool_decide (c = x2d) || is_digit c then
            '(l, r') ← scanNumber (c :: r); Some (JNum l, r')
          else scanLiteral (c :: r)
      end
  end
with parseElems (fuel : nat) (depth : Z) (b : bytes) : option (list json * bytes) :=
  match fuel with
  | O => None
  | S fuel =>
      '(v, r) ← parseValue fuel depth b;
      match skipSpace r with
      | c :: r' =>
          if decide (c = x2c) then '(vs, r'') ← parseElems fuel depth r'; Some (v :: vs, r'')
          else if decide (c = x5d) then Some ([v], r')
          else None
      | [] => None
      end
  end
with parseMembers (fuel : nat) (depth : Z) (b : bytes) : option (list (bytes * json) * bytes) :=
  match fuel with
  | O => None
  | S fuel =>
      r ← stripPrefix [x22] (skipSpace b);
      '(k, r1) ← scanString r;
      r2 ← stripPrefix [x3a] (skipSpace r1);
      '(v, r3) ← parseValue fuel depth r2;
      match skipSpace r3 with
      | c :: r4 =>
          if decide (c = x2c) then
            '(ms, r5) ← parseMembers fuel depth r4; Some ((x22 :: k, v) :: ms, r5)
          else if decide (c = x7d) then Some ([(x22 :: k, v)], r4)
          else None
      | [] => None
      end
  end.

Definition maxNestingDepth : Z := 10000.

Definition parse (b : bytes) : result json :=
  match parseValue (2 * length b + 2) maxNestingDepth b with
  | Some (v, r) => if decide (skipSpace r = []) then Ok v else Err (EMsg "json: syntax error")
  | None => Err (EMsg "json: syntax error")
  end.

(** [json.Valid] *)
Definition Valid (b : bytes) : bool := is_ok (parse b).

(** The text of the value in [b], without the white space around it: what a
    decoder hands to an [UnmarshalJSON] method. *)
Definition trimSpace (b : bytes) : bytes := rev (skipSpace (rev (skipSpace b))).

(** ** Printing

    [sc] and [sk] are the white space written after a comma and a colon; both are
    empty for [json.Marshal]. *)
Fixpoint joinWith (sep : bytes) (l : list bytes) : bytes :=
  match l with
  | [] => []
  | [x] => x
  | x :: l' => x ++ sep ++ joinWith sep l'
  end.

Fixpoint print (sc sk : bytes) (v : json) : bytes :=
  match v with
  | JNull => go "null"
  | JBool b => if b then go "true" else go "false"
  | JNum l => l
  | JStr l => l
  | JArr es => x5b :: joinWith (x2c :: sc) (map (print sc sk) es) ++ [x5d]
  | JObj ms =>
      x7b :: joinWith (x2c :: sc) (map (fun m => m.1 ++ x3a :: sk ++ print sc sk m.2) ms) ++ [x7d]
  end.

(** ** String literals *)

Definition hex4 (z : Z) : bytes := 
  [hex_digit (z / 4096 mod 16); hex_digit (z / 256 mod 16); hex_digit (z / 16 mod 16); hex_digit (z mod 16)].

(** Bytes below 0x80 that are copied, with HTML escaping on. *)
Definition htmlSafe (c : byte) : bool :=
  (32 <=? Z_of_byte c) && (Z_of_byte c <? 128) && negb (bool_decide (c ∈ [x22; x26; x3c; x3e; x5c])).

Definition escapeByte (c : byte) : bytes :=
  if bool_decide (c = x5c) || bool_decide (c = x22) then [x5c; c]
  else if bool_decide (c = x08) then [x5c; x62]
  else if bool_decide (c = x0c) then [x5c; x66]
  else if bool_decide (c = x0a) then [x5c; x6e]
  else if bool_decide (c = x0d) then [x5c; x72]
  else if bool_decide (c = x09) then [x5c; x74]
  else x5c :: x75 :: hex4 (Z_of_byte c).

(** The body of [json.Marshal] of a string: ASCII is copied or escaped, an invalid
    sequence becomes [\ufffd], and the two line separators are escaped. *)
Fixpoint quoteBody (fuel : nat) (s : bytes) : bytes :=
  match fuel, s with
  | S fuel', c :: s' =>
      if Z_of_byte c <? 128 then (if htmlSafe c then [c] else escapeByte c) ++ quoteBody fuel' s'
      else
        match decodeRune s with
        | None => x5c :: x75 :: hex4 65533 ++ quoteBody fuel' s'
        | Some (r, n) =>
            (if (r =? 8232) || (r =? 8233) then x5c :: x75 :: hex4 r else take n s)
              ++ quoteBody fuel' (drop n s)
        end
  | _, _ => []
  end.

Definition quote (s : bytes) : bytes := x22 :: quoteBody (length s) s ++ [x22].

Definition hexRune (h1 h2 h3 h4 : byte) : option Z :=
  a ← hex_value h1; b ← hex_value h2; c ← hex_value h3; d ← hex_value h4;
  Some (((a * 16 + b) * 16 + c) * 16 + d).

Definition is_surrogate (r : Z) : bool := (55296 <=? r) && (r <=? 57343).

(** [utf16.DecodeRune] *)
Definition utf16Decode (r1 r2 : Z) : option Z :=
  if (55296 <=? r1) && (r1 <? 56320) && (56320 <=? r2) && (r2 <? 57344)
  then Some ((r1 - 55296) * 1024 + (r2 - 56320) + 65536) else None.

Definition unescape (c : byte) : option byte :=
  if bool_decide (c ∈ [x22; x5c; x2f; x27]) then Some c
  else if bool_decide (c = x62) then Some x08
  else if bool_decide (c = x66) then Some x0c
  else if bool_decide (c = x6e) then Some x0a
  else if bool_decide (c = x72) then Some x0d
  else if bool_decide (c = x74) then Some x09
  else None.

(** The rune of a [\u] escape whose four digits start [r], and what follows. *)
Definition getu4 (r : bytes) : option (Z * bytes) :=
  match r with
  | h1 :: h2 :: h3 :: h4 :: r' => z ← hexRune h1 h2 h3 h4; Some (z, r')
  | _ => None
  end.

(** [rr1 := getu4(s[r:])] after a surrogate: a second escape that completes it. *)
Definition lowSurrogate (r1 : Z) (r : bytes) : option (Z * bytes) :=
  r' ← stripPrefix [x5c; x75] r;
  '(r2, r'') ← getu4 r';
  dec ← utf16Decode r1 r2;
  Some (dec, r'').

(** The body of [unquote], up to the closing quote. *)
Fixpoint unquoteBody (fuel : nat) (b : bytes) : option bytes :=
  match fuel, b with
  | S fuel, c :: r =>
      if decide (c = x22) then (if decide (r = []) then Some [] else None)
      else if decide (c = x5c) then
        match r with
        | [] => None
        | e :: r1 =>
            if decide (e = x75) then
              '(rr, r2) ← getu4 r1;
              if is_surrogate rr then
                match lowSurrogate rr r2 with
                | Some (dec, r3) => s ← unquoteBody fuel r3; Some (encodeRune dec ++ s)
                | None => s ← unquoteBody fuel r2; Some (encodeRune 65533 ++ s)
                end
              else s ← unquoteBody fuel r2; Some (encodeRune rr ++ s)
            else x ← unescape e; s ← unquoteBody fuel r1; Some (x :: s)
        end
      else if Z_of_byte c <? 32 then None
      else if Z_of_byte c <? 128 then s ← unquoteBody fuel r; Some (c :: s)
      else
        match decodeRune b with
        | None => s ← unquoteBody fuel r; Some (encodeRune 65533 ++ s)
        | Some (rn, n) => s ← unquoteBody fuel (drop n b); Some (encodeRune rn ++ s)
        end
  | _, _ => None
  end.

Definition unquote (lit : bytes) : option bytes :=
  b ← stripPrefix [x22] lit; unquoteBody (length b) b.

(** ** Decoding into fields

    [null] leaves a string or an integer as it is; a value of another type is an
    [UnmarshalTypeError], which makes the whole [Unmarshal] fail. *)
Definition typeError {A} : result A := Err (EMsg "json: cannot unmarshal value into Go struct field").

Definition decodeString (v : json) (cur : bytes) : result bytes :=
  match v with
  | JNull => Ok cur
  | JStr l => match unquote l with Some s => Ok s | None => Err (EMsg "json: syntax error") end
  | _ => typeError
  end.

Definition decodeInt (v : json) (cur : Z) : result Z :=
  match v with
  | JNull => Ok cur
  | JNum l => match ParseInt l with Ok n => Ok n | _ => typeError end
  | _ => typeError
  end.

(** [foldName]: the characters U+017F and U+212A fold to S and K, and ASCII letters
    to upper case.  No other character folds to ASCII, and the field names are
    ASCII, so the other characters are kept as they are. *)
Fixpoint foldSpecial (k : bytes) : bytes :=
  match k with
  | [] => []
  | c :: r =>
      match r with
      | c1 :: r1 =>
          if decide (c = xc5 /\ c1 = xbf) then x53 :: foldSpecial r1
          else
            match r1 with
            | c2 :: r2 =>
                if decide (c = xe2 /\ c1 = x84 /\ c2 = xaa) then x4b :: foldSpecial r2
                else c :: foldSpecial r
            | [] => c :: foldSpecial r
            end
      | [] => [c]
      end
  end.

Fixpoint foldUpper (k : bytes) : bytes :=
  match k with
  | c :: r =>
      (if (97 <=? Z_of_byte c) && (Z_of_byte c <=? 122) then byte_of_Z (Z_of_byte c - 32) else c)
        :: foldUpper r
  | [] => []
  end.

Definition foldName (k : bytes) : bytes := foldUpper (foldSpecial k).

(** The field an object key names: the exact name, else the first one equal up to case. *)
Definition findField (names : list bytes) (key : bytes) : option bytes :=
  if bool_decide (key ∈ names) then Some key
  else head (filter (fun n => foldName n = foldName key) names).

(** Decode the members of an object, in order, with one setter for the fields. *)
Fixpoint decodeMembers {R} (names : list bytes) (set : bytes -> json -> R -> result R)
    (ms : list (bytes * json)) (r : R) : result R :=
  match ms with
  | [] => Ok r
  | (k, v) :: ms' =>
      match unquote k with
      | None => Err (EMsg "json: syntax error")
      | Some key =>
          r' ← match findField names key with
               | Some name => set name v r
               | None => Ok r
               end;
          decodeMembers names set ms' r'
      end
  end.

(** [null] leaves a struct as it is. *)
Definition decodeStruct {R} (names : list bytes) (set : bytes -> json -> R -> result R)
    (v : json) (r : R) : result R :=
  match v with
  | JNull => Ok r
  | JObj ms => decodeMembers names set ms r
  | _ => typeError
  end.

(** A slice while it is decoded: its length, and the elements written so far in its
    backing array, which outlive a truncation. *)
Record slice (A : Type) := mkSlice { sl_len : nat; sl_backing : list A }.
Arguments mkSlice {A}.
Arguments sl_len {A}.
Arguments sl_backing {A}.

Definition nilSlice {A} : slice A := mkSlice 0 [].
Definition sliceElems {A} (s : slice A) : list A := take (sl_len s) (sl_backing s).

(** Element [i] is decoded over what the backing array holds there, or the zero value. *)
Fixpoint decodeElems {A} (zero : A) (dec : json -> A -> result A) (vs : list json) (old : list A)
    : result (list A) :=
  match vs with
  | [] => Ok []
  | v :: vs' =>
      x ← dec v (match old with y :: _ => y | [] => zero end);
      xs ← decodeElems zero dec vs' (tail old);
      Ok (x :: xs)
  end.

Definition decodeSlice {A} (zero : A) (dec : json -> A -> result A) (v : json) (s : slice A)
    : result (slice A) :=
  match v with
  | JNull => Ok nilSlice
  | JArr [] => Ok nilSlice
  | JArr vs =>
      xs ← decodeElems zero dec vs (sl_backing s);
      Ok (mkSlice (length xs) (xs ++ drop (length xs) (sl_backing s)))
  | _ => typeError
  end.

(** ** Printing, then parsing *)

Section json_ind.
Context (P : json -> Prop).
Context (Hnull : P JNull) (Hbool : forall b, P (JBool b)) (Hnum : forall l, P (JNum l))
  (Hstr : forall l, P (JStr l)) (Harr : forall es, Forall P es -> P (JArr es))
  (Hobj : forall ms, Forall (fun m => P m.2) ms -> P (JObj ms)).

(** Induction through the nested lists. *)
Fixpoint json_nested_ind (v : json) : P v :=
  match v with
  | JNull => Hnull
  | JBool b => Hbool b
  | JNum l => Hnum l
  | JStr l => Hstr l
  | JArr es =>
      Harr es ((fix go (es : list json) : Forall P es :=
        match es with
        | [] => List.Forall_nil _
        | e :: es' => List.Forall_cons _ e es' (json_nested_ind e) (go es')
        end) es)
  | JObj ms =>
      Hobj ms ((fix go (ms : list (bytes * json)) : Forall (fun m => P m.2) ms :=
        match ms with
        | [] => List.Forall_nil _
        | (k, v) :: ms' => List.Forall_cons _ (k, v) ms' (json_nested_ind v) (go ms')
        end) ms)
  end.
End json_ind.

(** What may follow a number. *)
Definition numStop (rest : bytes) : Prop :=
  match rest with
  | [] => True
  | c :: _ => is_digit c = false /\ c <> x2e /\ c <> x65 /\ c <> x45
  end.

Definition wfStr (l : bytes) : Prop :=
  exists body, l = x22 :: body /\ forall rest, scanString (body ++ rest) = Some (body, rest).
Definition wfNum (l : bytes) : Prop :=
  (exists c l', l = c :: l' /\ (bool_decide (c = x2d) || is_digit c = true)) /\
  forall rest, numStop rest -> scanNumber (l ++ rest) = Some (l, rest).

(** The literals of a value are well formed and its nesting is at most [d]. *)
#[warnings="-register-all"]
Inductive wfJson : Z -> json -> Prop :=
  | wf_null d : wfJson d JNull
  | wf_bool d b : wfJson d (JBool b)
  | wf_num d l : wfNum l -> wfJson d (JNum l)
  | wf_str d l : wfStr l -> wfJson d (JStr l)
  | wf_arr d es : 0 < d -> Forall (wfJson (d - 1)) es -> wfJson d (JArr es)
  | wf_obj d ms : 0 < d -> Forall (fun m => wfStr m.1 /\ wfJson (d - 1) m.2) ms -> wfJson d (JObj ms).

Section print_parse.
Context (sc sk : bytes).
Hypothesis sc_space : Forall (fun c => is_space c = true) sc.
Hypothesis sk_space : Forall (fun c => is_space c = true) sk.

Lemma skipSpace_app sp b :
  Forall (fun c => is_space c = true) sp -> skipSpace (sp ++ b) = skipSpace b.
Proof. induction 1 as [|c sp Hc _ IH]; [done|]. simpl. by rewrite Hc. Qed.

(** A printed value starts with a byte that is not white space, nor a closing bracket. *)
Definition startByte (c : byte) : Prop := is_space c = false /\ c <> x5d /\ c <> x7d.

Lemma digit_start c : (bool_decide (c = x2d) || is_digit c = true) -> startByte c /\ c <> x7b /\ c <> x5b /\ c <> x22.
Proof.
  intros H. assert (forall b, negb (bool_decide (b = x2d) || is_digit b) = true -> c <> b) as Hne.
  { intros b Hb ->. by rewrite H in Hb. }
  unfold startByte, is_space. rewrite bool_decide_eq_false.
  split_and!; try (by apply Hne). intros Hor. destruct_or! Hor; revert Hor; by apply Hne.
Qed.

Lemma print_start d v : wfJson d v -> exists c r, print sc sk v = c :: r /\ startByte c.
Proof.
  intros H. unfold startByte.
  destruct H as [| |d l [(c & l' & -> & Hc) _]|d l (body & -> & _)| |].
  - by eexists _, _.
  - destruct b; by eexists _, _.
  - eexists _, _. split; [done|]. by apply digit_start.
  - by eexists _, _.
  - by eexists _, _.
  - by eexists _, _.
Qed.

Lemma skipSpace_start c r : startByte c -> skipSpace (c :: r) = c :: r.
Proof. intros (H & _). simpl. by rewrite H. Qed.

(** The statement proved of every value by induction. *)
Definition parses (v : json) : Prop :=
  forall d fuel sp rest,
    wfJson d v -> Forall (fun c => is_space c = true) sp -> numStop rest ->
    (2 * length (print sc sk v) <= fuel)%nat ->
    parseValue fuel d (sp ++ print sc sk v ++ rest) = Some (v, rest).

Lemma joinWith_cons sep x y l : joinWith sep (x :: y :: l) = x ++ sep ++ joinWith sep (y :: l).
Proof. done. Qed.

Lemma skipSpace_non c r : is_space c = false -> skipSpace (c :: r) = c :: r.
Proof. intros H. simpl. by rewrite H. Qed.

Lemma parseElems_print es d fuel sp rest :
  es <> [] -> Forall parses es -> Forall (wfJson d) es ->
  Forall (fun c => is_space c = true) sp ->
  let body := joinWith (x2c :: sc) (map (print sc sk) es) in
  (2 * length body + 1 <= fuel)%nat ->
  parseElems fuel d (sp ++ body ++ x5d :: rest) = Some (es, rest).
Proof.
  intros Hne Hp Hw. revert fuel sp. induction es as [|v es IH]; [done|].
  intros fuel sp Hsp body Hf. apply Forall_cons in Hp as [Hv Hp]. apply Forall_cons in Hw as [Hwv Hw].
  destruct fuel as [|fuel]; [lia|]. simpl parseElems. destruct es as [|v' es].
  - subst body. simpl joinWith in *. rewrite (Hv d) by (done || lia). done.
  - subst body. rewrite map_cons in *. simpl map in *. rewrite joinWith_cons in *.
    rewrite !length_app in Hf. rewrite <- !app_assoc.
    rewrite (Hv d) by (done || lia). cbn [mbind option_bind].
    rewrite <- app_comm_cons, skipSpace_non by done. cbv beta iota. rewrite decide_True by done.
    rewrite IH; [done|done|done|done|done|]. rewrite length_cons in Hf. lia.
Qed.

Lemma stripPrefix_1 c r : stripPrefix [c] (c :: r) = Some r.
Proof. unfold stripPrefix. by rewrite decide_True. Qed.

Lemma parseMembers_print ms d fuel sp rest :
  ms <> [] -> Forall (fun m => parses m.2) ms -> Forall (fun m => wfStr m.1 /\ wfJson d m.2) ms ->
  Forall (fun c => is_space c = true) sp ->
  let body := joinWith (x2c :: sc) (map (fun m => m.1 ++ x3a :: sk ++ print sc sk m.2) ms) in
  (2 * length body + 1 <= fuel)%nat ->
  parseMembers fuel d (sp ++ body ++ x7d :: rest) = Some (ms, rest).
Proof.
  intros Hne Hp Hw. revert fuel sp. induction ms as [|[k v] ms IH]; [done|].
  intros fuel sp Hsp body Hf. apply Forall_cons in Hp as [Hv Hp].
  apply Forall_cons in Hw as [[(kb & Ek & Hk) Hwv] Hw]. simpl in Ek, Hwv, Hv. subst k.
  destruct fuel as [|fuel]; [lia|]. simpl parseMembers. destruct ms as [|m' ms].
  - subst body. simpl joinWith in *. rewrite skipSpace_app by done.
    rewrite <- app_comm_cons, skipSpace_non, stripPrefix_1 by done. cbn [mbind option_bind].
    rewrite <- !app_assoc, Hk. cbn [mbind option_bind].
    rewrite <- app_comm_cons, skipSpace_non, stripPrefix_1 by done. cbn [mbind option_bind].
    rewrite <- app_assoc. repeat (rewrite length_app in Hf || simpl length in Hf).
    rewrite (Hv d) by (done || lia). done.
  - subst body. rewrite map_cons in *. simpl map in *. rewrite joinWith_cons in *.
    rewrite skipSpace_app by done. cbn [fst snd] in *.
    rewrite <- !app_comm_cons, skipSpace_non, stripPrefix_1 by done. cbn [mbind option_bind].
    rewrite <- !app_assoc, Hk. cbn [mbind option_bind].
    rewrite <- !app_comm_cons, skipSpace_non, stripPrefix_1 by done. cbn [mbind option_bind].
    rewrite <- !app_assoc. cbn [fst snd] in Hf. repeat (rewrite length_app in Hf || rewrite length_cons in Hf).
    rewrite (Hv d) by (done || lia). cbn [mbind option_bind].
    rewrite skipSpace_non by done. cbv beta iota. rewrite decide_True by done.
    rewrite <- ?app_assoc. rewrite IH; [done|done|done|done|done|]. simpl map in *. lia.
Qed.

Lemma skipSpace_print d v sp rest :
  wfJson d v -> Forall (fun c => is_space c = true) sp ->
  skipSpace (sp ++ print sc sk v ++ rest) = print sc sk v ++ rest.
Proof.
  intros Hw Hsp. rewrite skipSpace_app by done.
  destruct (print_start d v Hw) as (c & r & -> & Hc). by apply skipSpace_start.
Qed.

(** The first byte of a non-empty body closes neither bracket. *)
Lemma joinWith_start (l : list bytes) sep c r rest :
  startByte c -> head l = Some (c :: r) ->
  head (skipSpace (joinWith sep l ++ rest)) = Some c.
Proof.
  intros Hc Hl. destruct l as [|x [|y l]]; simplify_eq/=; destruct Hc as (-> & _); done.
Qed.

Lemma print_parses v : parses v.
Proof.
  induction v as [|b|l|l|es IH|ms IH] using json_nested_ind; intros d fuel sp rest Hw Hsp Hr Hf;
    destruct (print_start d _ Hw) as (c0 & r0 & E0 & _);
    (destruct fuel as [|fuel]; [rewrite E0 in Hf; simpl in Hf; lia|]); clear E0 c0 r0;
    cbn [parseValue]; rewrite (skipSpace_print d _ _ _ Hw Hsp).
  - reflexivity.
  - destruct b; reflexivity.
  - inversion Hw as [| |? ? [(c & l' & -> & Hc) Hs]| | |]; subst. cbn [print app].
    destruct (digit_start c Hc) as (_ & ? & ? & ?). rewrite !decide_False by done. rewrite Hc.
    change (c :: l' ++ rest) with ((c :: l') ++ rest). by rewrite Hs.
  - inversion Hw as [| | |? ? (body & -> & Hs)| |]; subst. cbn [print app].
    rewrite !decide_False by done. rewrite decide_True by done. by rewrite Hs.
  - inversion Hw as [| | | |? ? Hd Hes|]; subst. cbn [print app]. cbn [print length] in Hf.
    rewrite decide_False by done. rewrite decide_True by done. rewrite (proj2 (Z.leb_gt d 0)) by lia.
    destruct es as [|v es]; [done|].
    destruct (print_start (d - 1) v) as (c & r & Ec & Hc); [by apply Forall_cons in Hes as [? _]|].
    rewrite <- app_assoc. rewrite (joinWith_start _ _ c r) by (done || simpl; by rewrite Ec).
    rewrite decide_False by (destruct Hc as (_ & ? & _); congruence).
    pose proof (parseElems_print (v :: es) (d - 1) fuel [] rest) as He. cbn [app] in He |- *.
    rewrite He; [done|done|done|done|done|]. rewrite length_app in Hf. cbn [length] in Hf. lia.
  - inversion Hw as [| | | | |? ? Hd Hms]; subst. cbn [print app]. cbn [print length] in Hf.
    rewrite decide_True by done. rewrite (proj2 (Z.leb_gt d 0)) by lia.
    destruct ms as [|m ms]; [done|].
    assert (wfStr m.1) as (kb & Ek & _) by (by apply Forall_cons in Hms as [[? _] _]).
    rewrite <- app_assoc.
    rewrite (joinWith_start _ _ x22 (kb ++ x3a :: sk ++ print sc sk m.2))
      by (done || simpl; by rewrite Ek).
    rewrite decide_False by done.
    pose proof (parseMembers_print (m :: ms) (d - 1) fuel [] rest) as He. cbn [app] in He |- *.
    rewrite He; [done|done|done|done|done|]. rewrite length_app in Hf. cbn [length] in Hf. lia.
Qed.

Lemma parse_print v : wfJson maxNestingDepth v -> parse (print sc sk v) = Ok v.
Proof.
  intros Hw. unfold parse.
  pose proof (print_parses v maxNestingDepth (2 * length (print sc sk v) + 2)%nat [] [] Hw) as H.
  cbn [app] in H. rewrite app_nil_r in H. rewrite H by (done || simpl; lia). done.
Qed.
End print_parse.

(** ** Literals the program writes *)

(** Printable ASCII that is copied by the quoting. *)
Lemma htmlSafe_spec c :
  htmlSafe c = true -> 32 <= Z_of_byte c < 128 /\ c <> x22 /\ c <> x5c.
Proof.
  unfold htmlSafe. rewrite !andb_true_iff, negb_true_iff, bool_decide_eq_false.
  intros [[? ?] Hn]. split; [lia|]. split; intros ->; apply Hn; set_solver.
Qed.

Lemma quote_plain s : Forall (fun c => htmlSafe c = true) s -> quote s = x22 :: s ++ [x22].
Proof.
  intros H. unfold quote. f_equal. f_equal. induction H as [|c s Hc _ IH]; [done|].
  simpl. rewrite Hc, IH. destruct (htmlSafe_spec c Hc) as [? _].
  by rewrite (proj2 (Z.ltb_lt _ _)) by lia.
Qed.

Lemma unquoteBody_plain s fuel :
  Forall (fun c => htmlSafe c = true) s -> (length s < fuel)%nat ->
  unquoteBody fuel (s ++ [x22]) = Some s.
Proof.
  intros H. revert fuel. induction H as [|c s Hc _ IH]; intros [|fuel] Hf; simpl in *; try lia; [done|].
  destruct (htmlSafe_spec c Hc) as (? & ? & ?).
  rewrite !decide_False by done. rewrite (proj2 (Z.ltb_ge _ _)), (proj2 (Z.ltb_lt _ _)) by lia.
  by rewrite IH by lia.
Qed.

Lemma unquote_quote_plain s :
  Forall (fun c => htmlSafe c = true) s -> unquote (quote s) = Some s.
Proof.
  intros H. rewrite quote_plain by done. unfold unquote. rewrite stripPrefix_1.
  apply unquoteBody_plain; [done|]. rewrite length_app. simpl. lia.
Qed.

Lemma wfStr_quote_plain s : Forall (fun c => htmlSafe c = true) s -> wfStr (quote s).
Proof.
  intros H. rewrite quote_plain by done. eexists. split; [done|]. intros rest.
  induction H as [|c s Hc _ IH]; [done|]. simpl.
  destruct (htmlSafe_spec c Hc) as (? & ? & ?).
  rewrite !decide_False by done. rewrite (proj2 (Z.ltb_ge _ _)) by lia. by rewrite IH.
Qed.

Lemma spanDigits_app l rest :
  forallb is_digit l = true -> numStop rest -> spanDigits (l ++ rest) = (l, rest).
Proof.
  intros H Hr. induction l as [|c l IH]; simpl in *.
  - destruct rest as [|c r]; [done|]. destruct Hr as (Hd & _). simpl. by rewrite Hd.
  - apply andb_true_iff in H as [-> H]. by rewrite IH.
Qed.

Lemma scanTail rest :
  numStop rest -> scanFrac rest = Some ([], rest) /\ scanExp rest = Some ([], rest).
Proof.
  destruct rest as [|c r]; [done|]. intros (_ & H1 & H2 & H3). simpl.
  rewrite !decide_False by naive_solver. done.
Qed.

Lemma wfNum_Itoa n : in_int64 n -> wfNum (Itoa n).
Proof.
  intros Hn. destruct (Itoa_shape n Hn) as (c & ds & -> & Hd & _ & H0).
  assert (is_digit c = true) as Hc by (simpl in Hd; by apply andb_true_iff in Hd as [? _]).
  assert (c <> x2d) as Hm by (by intros ->).
  split.
  - destruct (n <? 0); eexists _, _; (split; [done|]); [done|]. rewrite Hc. apply orb_true_r.
  - intros rest Hr. destruct (scanTail rest Hr) as [Hf He].
    assert (scanInt ((c :: ds) ++ rest) = Some (c :: ds, rest)) as Hi.
    { simpl. case_decide as E; [by rewrite (H0 E), E|]. rewrite Hc.
      pose proof (spanDigits_app (c :: ds) rest Hd Hr) as Hs. simpl in Hs. rewrite Hc in Hs.
      by rewrite Hs. }
    unfold scanNumber. destruct (n <? 0).
    + cbn [app] in *. rewrite decide_True by done. rewrite Hi. cbn [mbind option_bind].
      rewrite Hf. cbn [mbind option_bind]. rewrite He. cbn. by rewrite app_nil_r.
    + cbn [app] in *. rewrite decide_False by done. rewrite Hi. cbn [mbind option_bind].
      rewrite Hf. cbn [mbind option_bind]. rewrite He. cbn. by rewrite app_nil_r.
Qed.

(** ** White space after commas and colons *)

(** No literal of a value contains the byte [c]. *)
#[warnings="-register-all"]
Inductive freeOf (c : byte) : json -> Prop :=
  | fo_null : freeOf c JNull
  | fo_bool b : freeOf c (JBool b)
  | fo_num l : c ∉ l -> freeOf c (JNum l)
  | fo_str l : c ∉ l -> freeOf c (JStr l)
  | fo_arr es : Forall (freeOf c) es -> freeOf c (JArr es)
  | fo_obj ms : Forall (fun m => (c ∉ m.1) /\ freeOf c m.2) ms -> freeOf c (JObj ms).

Lemma replaceByte_cons_ne old new b s :
  b <> old -> replaceByte old new (b :: s) = b :: replaceByte old new s.
Proof.
  intros. change (b :: s) with ([b] ++ s). rewrite replaceByte_app. unfold replaceByte at 1. simpl.
  by rewrite decide_False.
Qed.

Lemma replaceByte_cons_eq old new s :
  replaceByte old new (old :: s) = new ++ replaceByte old new s.
Proof.
  change (old :: s) with ([old] ++ s). rewrite replaceByte_app. unfold replaceByte at 1. simpl.
  by rewrite decide_True, app_nil_r.
Qed.

Lemma replaceByte_join old new sep (ls : list bytes) :
  replaceByte old new (joinWith sep ls)
  = joinWith (replaceByte old new sep) (map (replaceByte old new) ls).
Proof.
  induction ls as [|x [|y ls] IH]; [done|done|].
  rewrite joinWith_cons, !replaceByte_app, IH. done.
Qed.

(** Replacing every comma gives the text with white space after the commas. *)
Lemma replace_comma sc sk v :
  x2c ∉ sk -> freeOf x2c v -> replaceByte x2c (x2c :: sc) (print [] sk v) = print sc sk v.
Proof.
  intros Hsk. induction v as [|b|l|l|es IH|ms IH] using json_nested_ind; intros Hf; inversion Hf; subst.
  - reflexivity.
  - destruct b; reflexivity.
  - by apply replaceByte_id.
  - by apply replaceByte_id.
  - cbn [print]. rewrite replaceByte_cons_ne, replaceByte_app, replaceByte_join by done.
    rewrite replaceByte_cons_eq, app_nil_r. do 3 f_equal. rewrite map_map.
    apply map_ext_in. intros v Hv%list_elem_of_In. rewrite Forall_forall in *. auto.
  - cbn [print]. rewrite replaceByte_cons_ne, replaceByte_app, replaceByte_join by done.
    rewrite replaceByte_cons_eq, app_nil_r. do 3 f_equal. rewrite map_map.
    apply map_ext_in. intros m Hm%list_elem_of_In. rewrite Forall_forall in *.
    rewrite replaceByte_app, replaceByte_cons_ne, replaceByte_app by done.
    rewrite !replaceByte_id by naive_solver. do 3 f_equal. naive_solver.
Qed.

(** Likewise for colons. *)
Lemma replace_colon sc sk v :
  x3a ∉ sc -> freeOf x3a v -> replaceByte x3a (x3a :: sk) (print sc [] v) = print sc sk v.
Proof.
  intros Hsc. induction v as [|b|l|l|es IH|ms IH] using json_nested_ind; intros Hf; inversion Hf; subst.
  - reflexivity.
  - destruct b; reflexivity.
  - by apply replaceByte_id.
  - by apply replaceByte_id.
  - cbn [print]. rewrite replaceByte_cons_ne, replaceByte_app, replaceByte_join by done.
    rewrite replaceByte_cons_ne, (replaceByte_id _ _ sc) by done. do 3 f_equal. rewrite map_map.
    apply map_ext_in. intros v Hv%list_elem_of_In. rewrite Forall_forall in *. auto.
  - cbn [print]. rewrite replaceByte_cons_ne, replaceByte_app, replaceByte_join by done.
    rewrite replaceByte_cons_ne, (replaceByte_id _ _ sc) by done. do 3 f_equal. rewrite map_map.
    apply map_ext_in. intros m Hm%list_elem_of_In. rewrite Forall_forall in *.
    rewrite replaceByte_app, replaceByte_cons_eq. cbn [app].
    rewrite (replaceByte_id _ _ m.1) by naive_solver. do 3 f_equal. naive_solver.
Qed.

(** ** The fuel of the parser is enough

    Every call consumes input, so beyond two units a byte more fuel changes nothing. *)

Lemma skipSpace_length b : (length (skipSpace b) <= length b)%nat.
Proof. induction b as [|c b IH]; simpl; [done|]. destruct (is_space c); simpl; lia. Qed.

Lemma skipSpace_cons b c r : skipSpace b = c :: r -> (S (length r) <= length b)%nat.
Proof. intros E. pose proof (skipSpace_length b) as H. rewrite E in H. simpl in H. lia. Qed.

Lemma stripPrefix_length p b r : stripPrefix p b = Some r -> (length r + length p = length b)%nat.
Proof.
  revert b. induction p as [|x p IH]; intros [|y b] H; unfold stripPrefix in H; simplify_eq/=; try lia.
  case_decide; [|done]. apply IH in H. lia.
Qed.

Lemma spanDigits_length b l r : spanDigits b = (l, r) -> (length l + length r = length b)%nat.
Proof.
  revert l r. induction b as [|c b IH]; intros l r H; simpl in H; simplify_eq/=; [done|].
  destruct (is_digit c); [|by simplify_eq/=]. destruct (spanDigits b) as [l' r'].
  simplify_eq/=. rewrite (IH l' r); done.
Qed.

Lemma scanString_length b l r : scanString b = Some (l, r) -> (length r < length b)%nat.
Proof.
  revert l r. induction b as [b IH] using (induction_ltof1 _ (@length byte)). unfold ltof in IH.
  intros l r H. destruct b as [|c b]; [done|]. simpl in H.
  case_decide; [simplify_eq/=; lia|]. case_decide.
  - destruct b as [|e b]; [done|]. case_decide.
    + destruct b as [|h1 [|h2 [|h3 [|h4 b]]]]; try done. case_match; [|done].
      apply bind_Some in H as ([l' r'] & Hs & [= _ <-]). apply IH in Hs; simpl in *; lia.
    + case_decide; [|done]. apply bind_Some in H as ([l' r'] & Hs & [= _ <-]).
      apply IH in Hs; simpl in *; lia.
  - case_match; [done|]. apply bind_Some in H as ([l' r'] & Hs & [= _ <-]).
    apply IH in Hs; simpl in *; lia.
Qed.

Lemma scanNumber_length b l r : scanNumber b = Some (l, r) -> (length r < length b)%nat.
Proof.
  unfold scanNumber. set (p := match b with [] => _ | _ => _ end).
  assert (length p.2 <= length b)%nat as Hp
    by (subst p; destruct b as [|c b]; [done|]; case_decide; simpl; lia).
  destruct p as [sign b1]. simpl in Hp. intros H.
  apply bind_Some in H as ([i b2] & Hi & H). apply bind_Some in H as ([f b3] & Hf & H).
  apply bind_Some in H as ([e b4] & He & [= _ <-]).
  assert (length b2 < length b1)%nat.
  { unfold scanInt in Hi. destruct b1 as [|c b1]; [done|]. case_decide; [simplify_eq/=; lia|].
    destruct (is_digit c) eqn:Hc; [|done]. injection Hi as Hi. cbn [spanDigits] in Hi. rewrite Hc in Hi.
    destruct (spanDigits b1) as [l' r'] eqn:Es. apply spanDigits_length in Es. simplify_eq/=. lia. }
  assert (length b3 <= length b2)%nat.
  { unfold scanFrac in Hf. destruct b2 as [|c b2]; [by simplify_eq|]. case_decide; [|by simplify_eq].
    destruct (spanDigits b2) as [[|x l'] r'] eqn:Es; [done|].
    apply spanDigits_length in Es. simplify_eq/=. lia. }
  assert (length b4 <= length b3)%nat; [|lia].
  unfold scanExp in He. destruct b3 as [|c b3]; [by simplify_eq|]. case_decide; [|by simplify_eq].
  set (q := match b3 with [] => _ | _ => _ end) in He.
  assert (length q.2 <= length b3)%nat as Hq
    by (subst q; destruct b3 as [|s b3']; [done|]; case_decide; simpl; lia).
  destruct q as [sg r1]. destruct (spanDigits r1) as [[|x l'] r'] eqn:Es; [done|].
  apply spanDigits_length in Es. simplify_eq/=. lia.
Qed.

Lemma scanLiteral_length b v r : scanLiteral b = Some (v, r) -> (length r < length b)%nat.
Proof.
  unfold scanLiteral. intros H.
  repeat (case_match; [simplify_eq/=; match goal with E : stripPrefix _ _ = Some _ |- _ =>
    apply stripPrefix_length in E; simpl in E; lia end|]). done.
Qed.

Lemma parse_consumes fuel :
  (forall d b v r, parseValue fuel d b = Some (v, r) -> (length r < length b)%nat)
  /\ (forall d b vs r, parseElems fuel d b = Some (vs, r) -> (length r < length b)%nat)
  /\ (forall d b ms r, parseMembers fuel d b = Some (ms, r) -> (length r < length b)%nat).
Proof.
  induction fuel as [|fuel (IHv & IHe & IHm)]; [done|]. split_and!.
  - intros d b v r H. cbn [parseValue] in H. destruct (skipSpace b) as [|c r0] eqn:E; [done|].
    apply skipSpace_cons in E. pose proof (skipSpace_length r0).
    assert (forall t, head (skipSpace r0) = Some t -> (length (tail (skipSpace r0)) < length r0)%nat).
    { intros t Ht. destruct (skipSpace r0) eqn:E0; [done|]. apply skipSpace_cons in E0. simpl. lia. }
    case_decide; [|case_decide; [|case_decide; [|case_match]]].
    + case_match; [done|]. case_decide; [naive_solver lia|].
      apply bind_Some in H as ([ms r'] & H%IHm & [= _ <-]). lia.
    + case_match; [done|]. case_decide; [naive_solver lia|].
      apply bind_Some in H as ([ms r'] & H%IHe & [= _ <-]). lia.
    + apply bind_Some in H as ([l r'] & H%scanString_length & [= _ <-]). lia.
    + apply bind_Some in H as ([l r'] & H%scanNumber_length & [= _ <-]). simpl in H. lia.
    + apply scanLiteral_length in H. simpl in H. lia.
  - intros d b v r H. cbn [parseElems] in H. apply bind_Some in H as ([v' r1] & H1%IHv & H).
    destruct (skipSpace r1) as [|c r2] eqn:E; [done|]. apply skipSpace_cons in E.
    case_decide; [|case_decide; [simplify_eq; lia|done]].
    apply bind_Some in H as ([vs r'] & H%IHe & [= _ <-]). lia.
  - intros d b v r H. cbn [parseMembers] in H. pose proof (skipSpace_length b).
    apply bind_Some in H as (r0 & Hp%stripPrefix_length & H). simpl in Hp.
    apply bind_Some in H as ([k r1] & Hs%scanString_length & H). pose proof (skipSpace_length r1).
    apply bind_Some in H as (r2 & Hq%stripPrefix_length & H). simpl in Hq.
    apply bind_Some in H as ([v' r3] & Hw%IHv & H).
    destruct (skipSpace r3) as [|c r4] eqn:E; [done|]. apply skipSpace_cons in E.
    case_decide; [|case_decide; [simplify_eq; lia|done]].
    apply bind_Some in H as ([vs r'] & H%IHm & [= _ <-]). lia.
Qed.

Lemma option_bind_ext_le {A B} (P : A -> Prop) (m : option A) (f g : A -> option B) :
  (forall x, m = Some x -> P x) -> (forall x, P x -> f x = g x) -> m ≫= f = m ≫= g.
Proof. destruct m; simpl; auto. Qed.

Lemma parse_stable n :
  forall b, (length b <= n)%nat ->
  (forall f g d, (2 * n + 2 <= f)%nat -> (2 * n + 2 <= g)%nat -> parseValue f d b = parseValue g d b)
  /\ (forall f g d, (2 * n + 3 <= f)%nat -> (2 * n + 3 <= g)%nat -> parseElems f d b = parseElems g d b)
  /\ (forall f g d, (2 * n + 3 <= f)%nat -> (2 * n + 3 <= g)%nat ->
        parseMembers f d b = parseMembers g d b).
Proof.
  induction n as [n IH] using lt_wf_ind. intros b Hb.
  assert (forall b', (length b' < length b)%nat -> forall f g d,
    (2 * n + 1 <= f)%nat -> (2 * n + 1 <= g)%nat ->
    parseValue f d b' = parseValue g d b' /\ parseElems f d b' = parseElems g d b'
    /\ parseMembers f d b' = parseMembers g d b') as IH'.
  { intros b' Hl f g d Hf Hg. destruct (IH (length b') ltac:(lia) b' ltac:(lia)) as (H1 & H2 & H3).
    split_and!; [apply H1|apply H2|apply H3]; lia. }
  assert (forall f g d, (2 * n + 2 <= f)%nat -> (2 * n + 2 <= g)%nat ->
            parseValue f d b = parseValue g d b) as Hv.
  { intros [|f] [|g] d Hf Hg; try lia. cbn [parseValue].
    destruct (skipSpace b) as [|c r0] eqn:E; [done|]. apply skipSpace_cons in E.
    destruct (IH' r0 ltac:(lia) f g (d - 1) ltac:(lia) ltac:(lia)) as (_ & He & Hm).
    by rewrite He, Hm. }
  split_and!; [done|..].
  - intros [|f] [|g] d Hf Hg; try lia. cbn [parseElems]. rewrite (Hv f g d) by lia.
    apply (option_bind_ext_le (fun x => (length x.2 < length b)%nat)).
    { intros [v r]. apply parse_consumes. }
    intros [v r] Hr. destruct (skipSpace r) as [|c r1] eqn:E; [done|]. apply skipSpace_cons in E.
    simpl in Hr. destruct (IH' r1 ltac:(lia) f g d ltac:(lia) ltac:(lia)) as (_ & He & _). by rewrite He.
  - intros [|f] [|g] d Hf Hg; try lia. cbn [parseMembers]. pose proof (skipSpace_length b).
    apply (option_bind_ext_le (fun x => (length x < length b)%nat)).
    { intros x Hx%stripPrefix_length. simpl in Hx. lia. }
    intros r Hr. apply (option_bind_ext_le (fun x => (length x.2 < length b)%nat)).
    { intros [k r1] Hk%scanString_length. simpl. lia. }
    intros [k r1] Hk. simpl in Hk. pose proof (skipSpace_length r1).
    apply (option_bind_ext_le (fun x => (length x < length b)%nat)).
    { intros x Hx%stripPrefix_length. simpl in Hx. lia. }
    intros r2 Hr2. destruct (IH' r2 ltac:(lia) f g d ltac:(lia) ltac:(lia)) as (Hv' & _). rewrite Hv'.
    apply (option_bind_ext_le (fun x => (length x.2 < length b)%nat)).
    { intros [v r3] Hx%parse_consumes. simpl. lia. }
    intros [v r3] Hr3. destruct (skipSpace r3) as [|c r4] eqn:E; [done|]. apply skipSpace_cons in E.
    simpl in Hr3. destruct (IH' r4 ltac:(lia) f g d ltac:(lia) ltac:(lia)) as (_ & _ & Hm). by rewrite Hm.
Qed.

(** The parser with any larger amount of fuel is [parse]'s. *)
Lemma parse_fuel b fuel :
  (2 * length b + 2 <= fuel)%nat ->
  parseValue fuel maxNestingDepth b = parseValue (2 * length b + 2) maxNestingDepth b.
Proof. intros. apply (parse_stable (length b) b); lia. Qed.
