(* ===== verification/SdBlob.v ===== *)
(** * stream/sdblob.go: stream descriptors

    The descriptor of a stream and its blob infos, the two JSON field orders and
    their handlers, detection of the order, the stream hash and validation.
    github.com/glopal/orderedjson is an interface; the order in which Go ranges
    over the handler registry is an argument. *)
From stdpp Require Import base tactics list numbers sets strings.
From Stdlib Require Import ZArith Lia Init.Byte.
From S2P Require Import Prelude GoStd Sha2 Blob Multihash Json.
Local Open Scope Z_scope.

(** ** Data *)

Definition StreamTypeLBRYFile : bytes := go "lbryfile".

(** [serializationProfile] is an [int]. *)
Definition ProfileNewSort : Z := 0.
Definition ProfileOldSort : Z := 1.

Record BlobInfo := mkBlobInfo {
  bi_Length : Z;
  bi_BlobNum : Z;
  bi_BlobHash : bytes;
  bi_IV : bytes;
  bi_profile : Z
}.

Record SDBlob := mkSDBlob {
  sd_StreamName : bytes;
  sd_BlobInfos : list BlobInfo;
  sd_StreamType : bytes;
  sd_Key : bytes;
  sd_SuggestedFileName : bytes;
  sd_StreamHash : bytes;
  sd_profile : Z
}.

#[export] Instance BlobInfo_eq_dec : EqDecision BlobInfo.
Proof. solve_decision. Defined.
#[export] Instance SDBlob_eq_dec : EqDecision SDBlob.
Proof. solve_decision. Defined.

Definition emptySDBlob : SDBlob := mkSDBlob [] [] [] [] [] [] 0.

(** [JSONBlobInfoNewSort] and [JSONBlobInfoOldSort] have the same fields and tags
    and differ in their order, which only marshalling sees. *)
Record JSONBlobInfo := mkJSONBlobInfo {
  jb_Length : Z;
  jb_BlobNum : Z;
  jb_BlobHash : bytes;
  jb_IV : bytes
}.

Definition zeroJSONBlobInfo : JSONBlobInfo := mkJSONBlobInfo 0 0 [] [].

(** [JSONSDBlobNewSort] and [JSONSDBlobOldSort], likewise. *)
Record JSONSDBlob := mkJSONSDBlob {
  js_StreamName : bytes;
  js_Blobs : slice JSONBlobInfo;
  js_StreamType : bytes;
  js_Key : bytes;
  js_SuggestedFileName : bytes;
  js_StreamHash : bytes
}.

Definition zeroJSONSDBlob : JSONSDBlob := mkJSONSDBlob [] nilSlice [] [] [] [].

(** ** Marshalling *)

(** The IV and the hash in hexadecimal; no hash is the empty string. *)
Definition encodeBlobInfoCommon (bi : BlobInfo) : bytes * bytes :=
  let ivHex := EncodeToString (bi_IV bi) in
  let blobHashHex :=
    if decide (0 < length (bi_BlobHash bi))%nat then EncodeToString (bi_BlobHash bi) else [] in
  (ivHex, blobHashHex).

Definition encodeSDBlobCommon (s : SDBlob) : bytes * bytes * bytes * bytes :=
  (EncodeToString (sd_StreamName s), EncodeToString (sd_Key s),
   EncodeToString (sd_SuggestedFileName s), EncodeToString (sd_StreamHash s)).

Definition strMember (name : string) (v : bytes) : bytes * json := (quote (go name), JStr (quote v)).
Definition intMember (name : string) (n : Z) : bytes * json := (quote (go name), JNum (Itoa n)).

(** [json:"blob_hash,omitempty"] *)
Definition hashMember (h : bytes) : list (bytes * json) :=
  match h with [] => [] | _ => [strMember "blob_hash" h] end.

(** [json.Marshal] of the two blob-info structs. *)
Definition jsonNewSort (j : JSONBlobInfo) : json :=
  JObj (hashMember (jb_BlobHash j)
        ++ [intMember "blob_num" (jb_BlobNum j); strMember "iv" (jb_IV j);
            intMember "length" (jb_Length j)]).

Definition jsonOldSort (j : JSONBlobInfo) : json :=
  JObj ([intMember "length" (jb_Length j); intMember "blob_num" (jb_BlobNum j)]
        ++ hashMember (jb_BlobHash j) ++ [strMember "iv" (jb_IV j)]).

(** The struct literal both orders build. *)
Definition encodeBlobInfo (bi : BlobInfo) : JSONBlobInfo :=
  let '(ivHex, blobHashHex) := encodeBlobInfoCommon bi in
  mkJSONBlobInfo (bi_Length bi) (bi_BlobNum bi) blobHashHex ivHex.

Definition encodeBlobInfosAsNewSort (blobs : list BlobInfo) : list JSONBlobInfo := map encodeBlobInfo blobs.
Definition encodeBlobInfosAsOldSort (blobs : list BlobInfo) : list JSONBlobInfo := map encodeBlobInfo blobs.

(** [json.Marshal] of the two descriptor structs. *)
Definition jsonSDNewSort (s : SDBlob) : json :=
  let '(streamNameHex, keyHex, suggestedFileNameHex, streamHashHex) := encodeSDBlobCommon s in
  JObj [(quote (go "blobs"), JArr (map jsonNewSort (encodeBlobInfosAsNewSort (sd_BlobInfos s))));
        strMember "key" keyHex;
        strMember "stream_hash" streamHashHex;
        strMember "stream_name" streamNameHex;
        strMember "stream_type" (sd_StreamType s);
        strMember "suggested_file_name" suggestedFileNameHex].

Definition jsonSDOldSort (s : SDBlob) : json :=
  let '(streamNameHex, keyHex, suggestedFileNameHex, streamHashHex) := encodeSDBlobCommon s in
  JObj [strMember "stream_name" streamNameHex;
        (quote (go "blobs"), JArr (map jsonOldSort (encodeBlobInfosAsOldSort (sd_BlobInfos s))));
        strMember "stream_type" (sd_StreamType s);
        strMember "key" keyHex;
        strMember "suggested_file_name" suggestedFileNameHex;
        strMember "stream_hash" streamHashHex].

(** ** Unmarshalling *)

Definition blobInfoNames : list bytes := [go "blob_hash"; go "blob_num"; go "iv"; go "length"].

Definition setBlobInfoField (name : bytes) (v : json) (j : JSONBlobInfo) : result JSONBlobInfo :=
  if decide (name = go "blob_hash") then
    s ← decodeString v (jb_BlobHash j); Ok (mkJSONBlobInfo (jb_Length j) (jb_BlobNum j) s (jb_IV j))
  else if decide (name = go "blob_num") then
    n ← decodeInt v (jb_BlobNum j); Ok (mkJSONBlobInfo (jb_Length j) n (jb_BlobHash j) (jb_IV j))
  else if decide (name = go "iv") then
    s ← decodeString v (jb_IV j); Ok (mkJSONBlobInfo (jb_Length j) (jb_BlobNum j) (jb_BlobHash j) s)
  else if decide (name = go "length") then
    n ← decodeInt v (jb_Length j); Ok (mkJSONBlobInfo n (jb_BlobNum j) (jb_BlobHash j) (jb_IV j))
  else Ok j.

Definition decodeJSONBlobInfo (v : json) (j : JSONBlobInfo) : result JSONBlobInfo :=
  decodeStruct blobInfoNames setBlobInfoField v j.

Definition sdBlobNames : list bytes :=
  [go "blobs"; go "key"; go "stream_hash"; go "stream_name"; go "stream_type"; go "suggested_file_name"].

Definition setSDBlobField (name : bytes) (v : json) (j : JSONSDBlob) : result JSONSDBlob :=
  if decide (name = go "blobs") then
    b ← decodeSlice zeroJSONBlobInfo decodeJSONBlobInfo v (js_Blobs j);
    Ok (mkJSONSDBlob (js_StreamName j) b (js_StreamType j) (js_Key j) (js_SuggestedFileName j) (js_StreamHash j))
  else if decide (name = go "key") then
    s ← decodeString v (js_Key j);
    Ok (mkJSONSDBlob (js_StreamName j) (js_Blobs j) (js_StreamType j) s (js_SuggestedFileName j) (js_StreamHash j))
  else if decide (name = go "stream_hash") then
    s ← decodeString v (js_StreamHash j);
    Ok (mkJSONSDBlob (js_StreamName j) (js_Blobs j) (js_StreamType j) (js_Key j) (js_SuggestedFileName j) s)
  else if decide (name = go "stream_name") then
    s ← decodeString v (js_StreamName j);
    Ok (mkJSONSDBlob s (js_Blobs j) (js_StreamType j) (js_Key j) (js_SuggestedFileName j) (js_StreamHash j))
  else if decide (name = go "stream_type") then
    s ← decodeString v (js_StreamType j);
    Ok (mkJSONSDBlob (js_StreamName j) (js_Blobs j) s (js_Key j) (js_SuggestedFileName j) (js_StreamHash j))
  else if decide (name = go "suggested_file_name") then
    s ← decodeString v (js_SuggestedFileName j);
    Ok (mkJSONSDBlob (js_StreamName j) (js_Blobs j) (js_StreamType j) (js_Key j) s (js_StreamHash j))
  else Ok j.

(** [json.Unmarshal(b, &tmp)] into one of the descriptor structs. *)
Definition unmarshalJSONSDBlob (b : bytes) : result JSONSDBlob :=
  v ← parse b; decodeStruct sdBlobNames setSDBlobField v zeroJSONSDBlob.

(** Decode a hex string; the empty string is no bytes. *)
Definition decodeHex (s : bytes) : result bytes :=
  if decide (s = []) then Ok [] else DecodeString s.
Definition decodeHexString (s : bytes) : result bytes :=
  if decide (s = []) then Ok [] else DecodeString s.

Definition decodeSDBlobFields (streamNameHex keyHex suggestedFileNameHex streamHashHex : bytes)
    : result (bytes * bytes * bytes * bytes) :=
  streamName ← decodeHexString streamNameHex;
  key ← decodeHex keyHex;
  suggestedFileName ← decodeHexString suggestedFileNameHex;
  streamHash ← decodeHex streamHashHex;
  Ok (streamName, key, suggestedFileName, streamHash).

(** [decodeBlobInfoFromNewSort] and [decodeBlobInfoFromOldSort] on the shared struct. *)
Definition decodeBlobInfoFrom (tmp : JSONBlobInfo) (profile : Z) : result BlobInfo :=
  blobHash ← (if decide (jb_BlobHash tmp = []) then Ok [] else DecodeString (jb_BlobHash tmp));
  iv ← (if decide (jb_IV tmp = []) then Ok [] else DecodeString (jb_IV tmp));
  Ok (mkBlobInfo (jb_Length tmp) (jb_BlobNum tmp) blobHash iv profile).

Fixpoint decodeBlobInfos (tmps : list JSONBlobInfo) (profile : Z) : result (list BlobInfo) :=
  match tmps with
  | [] => Ok []
  | t :: ts => bi ← decodeBlobInfoFrom t profile; bis ← decodeBlobInfos ts profile; Ok (bi :: bis)
  end.

(** The body both [unmarshalSDBlob] handlers share. *)
Definition unmarshalSDBlobAs (profile : Z) (b : bytes) : result SDBlob :=
  tmp ← unmarshalJSONSDBlob b;
  '(name, key, fileName, hash) ←
    decodeSDBlobFields (js_StreamName tmp) (js_Key tmp) (js_SuggestedFileName tmp) (js_StreamHash tmp);
  blobInfos ← decodeBlobInfos (sliceElems (js_Blobs tmp)) profile;
  Ok (mkSDBlob name blobInfos (js_StreamType tmp) key fileName hash profile).

Definition unmarshalBlobInfoAs (profile : Z) (b : bytes) : result BlobInfo :=
  v ← parse b; tmp ← decodeJSONBlobInfo v zeroJSONBlobInfo; decodeBlobInfoFrom tmp profile.

(** [BlobInfo.UnmarshalJSON]: the profile is the zero one. *)
Definition BlobInfo_UnmarshalJSON (b : bytes) : result BlobInfo :=
  v ← parse b; tmp ← decodeJSONBlobInfo v zeroJSONBlobInfo; decodeBlobInfoFrom tmp 0.

(** ** Profile handlers *)

(** A predicate looks at the raw keys of an object, in order. *)
Record profileHandler := mkProfileHandler {
  ph_name : bytes;
  marshalBlobInfo : BlobInfo -> result bytes;
  unmarshalBlobInfo : bytes -> result BlobInfo;
  marshalSDBlob : SDBlob -> result bytes;
  unmarshalSDBlob : bytes -> result SDBlob;
  predicates : list (list bytes -> Z * bool)
}.

Definition newSortPredicate (m : list bytes) : Z * bool :=
  match m with
  | [] => (ProfileNewSort, false)
  | firstKey :: _ =>
      if decide (firstKey = quote (go "blobs")) then (ProfileNewSort, true) else (ProfileNewSort, false)
  end.

Definition oldSortPredicate (m : list bytes) : Z * bool :=
  match m with
  | [] => (ProfileNewSort, false)
  | firstKey :: _ =>
      if decide (firstKey = quote (go "stream_name")) then (ProfileOldSort, true) else (ProfileNewSort, false)
  end.

Definition newSortProfileHandler : profileHandler := {|
  ph_name := go "new_sort";
  marshalBlobInfo bi := Ok (print [] [] (jsonNewSort (encodeBlobInfo bi)));
  unmarshalBlobInfo := unmarshalBlobInfoAs ProfileNewSort;
  marshalSDBlob s := Ok (print [] [] (jsonSDNewSort s));
  unmarshalSDBlob := unmarshalSDBlobAs ProfileNewSort;
  predicates := [newSortPredicate]
|}.

Definition oldSortProfileHandler : profileHandler := {|
  ph_name := go "old_sort";
  marshalBlobInfo bi := Ok (print [] [] (jsonOldSort (encodeBlobInfo bi)));
  unmarshalBlobInfo := unmarshalBlobInfoAs ProfileOldSort;
  marshalSDBlob s := Ok (print [] [] (jsonSDOldSort s));
  unmarshalSDBlob := unmarshalSDBlobAs ProfileOldSort;
  predicates := [oldSortPredicate]
|}.

Definition profileRegistry (profile : Z) : option profileHandler :=
  if profile =? ProfileNewSort then Some newSortProfileHandler
  else if profile =? ProfileOldSort then Some oldSortProfileHandler
  else None.

Definition BlobInfo_MarshalJSON (bi : BlobInfo) : result bytes :=
  match profileRegistry (bi_profile bi) with
  | Some handler => marshalBlobInfo handler bi
  | None => Ok (print [] [] (jsonNewSort (encodeBlobInfo bi)))
  end.

Definition SDBlob_MarshalJSON (s : SDBlob) : result bytes :=
  match profileRegistry (sd_profile s) with
  | Some handler => marshalSDBlob handler s
  | None => Ok (print [] [] (jsonSDNewSort s))
  end.

(** [ToBlob]; the encoder compacts what [MarshalJSON] returns, which is compact. *)
Definition ToBlob (s : SDBlob) : result bytes :=
  jsonSD ← SDBlob_MarshalJSON s;
  let jsonSD := replaceByte x2c [x2c; x20] jsonSD in
  let jsonSD := replaceByte x3a [x3a; x20] jsonSD in
  Ok jsonSD.

(** ** Detection of the profile *)

(** [orderedjson.Map]'s [UnmarshalJSON]: the raw keys of an object, in order. *)
Class OrderedJson := { orderedKeys : bytes -> result (list bytes) }.

Class OrderedJsonLaws (O : OrderedJson) : Prop := {
  ordered_keys b ms : parse b = Ok (JObj ms) -> orderedKeys b = Ok (map fst ms)
}.

Section detection.
Context {O : OrderedJson}.

(** The first predicate of a handler that detects its profile. *)
Fixpoint firstDetected (ps : list (list bytes -> Z * bool)) (m : list bytes) : option Z :=
  match ps with
  | [] => None
  | p :: ps' => let '(profile, detected) := p m in
                if detected then Some profile else firstDetected ps' m
  end.

(** [for _, handler := range profileRegistry], in the order [order] of its keys. *)
Fixpoint rangeHandlers (order : list Z) (m : list bytes) : Z :=
  match order with
  | [] => ProfileNewSort
  | p :: order' =>
      match profileRegistry p with
      | None => rangeHandlers order' m
      | Some handler =>
          match firstDetected (predicates handler) m with
          | Some profile => profile
          | None => rangeHandlers order' m
          end
      end
  end.

Definition detectSerializationProfile (order : list Z) (b : bytes) : Z :=
  match (parse b ;; orderedKeys (trimSpace b)) with
  | Ok m => rangeHandlers order m
  | _ => ProfileNewSort
  end.

Definition SDBlob_UnmarshalJSON (order : list Z) (b : bytes) : result SDBlob :=
  let profile := detectSerializationProfile order b in
  match profileRegistry profile with
  | Some handler => unmarshalSDBlob handler b
  | None => Err (EMsg "no unmarshal handler for profile: %d")
  end.

(** [FromBlob]: [json.Unmarshal] checks the text, then hands it to [UnmarshalJSON],
    which overwrites the profile set before. *)
Definition FromBlob (order : list Z) (b : bytes) : result SDBlob :=
  parse b ;; SDBlob_UnmarshalJSON order (trimSpace b).
End detection.

(** ** Operations *)

Definition SetProfile (s : SDBlob) (profile : Z) : SDBlob :=
  mkSDBlob (sd_StreamName s)
    (map (fun bi => mkBlobInfo (bi_Length bi) (bi_BlobNum bi) (bi_BlobHash bi) (bi_IV bi) profile)
       (sd_BlobInfos s))
    (sd_StreamType s) (sd_Key s) (sd_SuggestedFileName s) (sd_StreamHash s) profile.

Definition GetProfile (s : SDBlob) : Z := sd_profile s.

(** [SDBlob.Hash] drops the error of [ToBlob]. *)
Definition SDBlob_Hash (s : SDBlob) : bytes :=
  sha512_Sum384 (match ToBlob s with Ok d => d | _ => [] end).
Definition SDBlob_HashHex (s : SDBlob) : bytes := EncodeToString (SDBlob_Hash s).

Definition BlobInfo_Hash (bi : BlobInfo) : bytes :=
  sha512_Sum384 ((if 0 <? bi_Length bi then EncodeToString (bi_BlobHash bi) else [])
                 ++ Itoa (bi_BlobNum bi) ++ EncodeToString (bi_IV bi) ++ Itoa (bi_Length bi)).

Definition streamHash (hexStreamName hexKey hexSuggestedFileName : bytes) (blobInfos : list BlobInfo)
    : bytes :=
  let blobSum := sha512_Sum384 (concat (map BlobInfo_Hash blobInfos)) in
  sha512_Sum384 (hexStreamName ++ hexKey ++ hexSuggestedFileName ++ blobSum).

Definition NullIV : bytes := replicate 16 x00.

Definition computeStreamHash (s : SDBlob) : bytes :=
  streamHash (EncodeToString (sd_StreamName s)) (EncodeToString (sd_Key s))
    (EncodeToString (sd_SuggestedFileName s)) (sd_BlobInfos s).

Definition UpdateStreamHash (s : SDBlob) : SDBlob :=
  mkSDBlob (sd_StreamName s) (sd_BlobInfos s) (sd_StreamType s) (sd_Key s) (sd_SuggestedFileName s)
    (computeStreamHash s) (sd_profile s).

(** [IsValid] *)
Definition SDBlob_IsValid (s : SDBlob) : bool := bool_decide (computeStreamHash s = sd_StreamHash s).

Definition addBlob (s : SDBlob) (b iv : bytes) : result SDBlob :=
  if decide (length iv = 0)%nat then Err (EMsg "empty IV") else
  Ok (mkSDBlob (sd_StreamName s)
        (sd_BlobInfos s ++ [mkBlobInfo (Z.of_nat (length b)) (Z.of_nat (length (sd_BlobInfos s)))
                              (BlobHash b) iv 0])
        (sd_StreamType s) (sd_Key s) (sd_SuggestedFileName s) (sd_StreamHash s) (sd_profile s)).

(** ** Validation *)

Section validation.
Context {L : CidLib} {O : OrderedJson}.

Definition invalidSD {A} (fmt : string) : result A := Err (EWrap fmt (ESent ErrInvalidSDBlob)).

(** The loop over the blob infos at index [i]; [found] is the index of the
    terminating blob seen so far. *)
Fixpoint validateInfos (i : nat) (infos : list BlobInfo) (found : option nat) : result (option nat) :=
  match infos with
  | [] => Ok found
  | bi :: infos' =>
      if negb (bi_BlobNum bi =? Z.of_nat i) then invalidSD "blob %d has invalid blob_num: expected %d, got %d" else
      if (0 <? bi_Length bi) && bool_decide (length (bi_BlobHash bi) = 0%nat)
      then invalidSD "blob %d missing hash" else
      if (0 <? bi_Length bi) && negb (ValidateHash (EncodeToString (bi_BlobHash bi)))
      then invalidSD "blob %d has invalid hash" else
      if bi_Length bi <? 0 then invalidSD "blob %d has invalid length" else
      if decide (length (bi_IV bi) = 0%nat) then invalidSD "blob %d missing IV" else
      if bi_Length bi =? 0 then
        match found with
        | Some _ => invalidSD "terminating blob can only appear once"
        | None => validateInfos (S i) infos' (Some i)
        end
      else validateInfos (S i) infos' found
  end.

Definition validateSDBlob (sd : SDBlob) : result unit :=
  if decide (sd_StreamType sd = []) then invalidSD "missing stream_type" else
  if decide (length (sd_BlobInfos sd) = 0%nat) then invalidSD "no blobs found" else
  if decide (length (sd_Key sd) <> AES256KeySize /\ length (sd_Key sd) <> AES128KeySize)
  then invalidSD "invalid key size: expected %d or %d bytes, got %d bytes" else
  found ← validateInfos 0 (sd_BlobInfos sd) None;
  if (match found with Some t => negb (Nat.eqb t (length (sd_BlobInfos sd) - 1)) | None => false end)
  then invalidSD "terminating blob must be at the end" else
  if decide (length (sd_StreamHash sd) = 0%nat) then invalidSD "missing stream hash" else
  if decide (sd_StreamHash sd <> computeStreamHash sd)
  then invalidSD "stream hash mismatch: computed hash does not match stored hash" else
  Ok tt.

(** [ValidateSDBlob]: a nil pointer is refused. *)
Definition ValidateSDBlob (sd : option SDBlob) : result unit :=
  match sd with None => Err (ESent ErrInvalidSDBlob) | Some sd => validateSDBlob sd end.

Definition ValidateSDBlobBytes (order : list Z) (sdBlobData : bytes) : result unit :=
  if decide (length sdBlobData = 0%nat) then Err (ESent ErrInvalidSDBlob) else
  if negb (Valid sdBlobData) then Err (ESent ErrInvalidSDBlob) else
  match FromBlob order sdBlobData with
  | Ok sdBlob => validateSDBlob sdBlob
  | Err _ => Err (EWrap "%w: %v" (ESent ErrInvalidSDBlob))
  | Panic w => Panic w
  end.
End validation.
