(* ===== verification/SdBlobSpec.v ===== *)
(** * Properties of the stream descriptors

    The JSON form round-trips in both field orders, detection does not depend on
    the order of the registry, and validation is characterised exactly. *)
From stdpp Require Import base tactics list numbers sets strings.
From Stdlib Require Import ZArith Lia Init.Byte.
From S2P Require Import Prelude GoStd Sha2 Blob Multihash Json SdBlob.
Local Open Scope Z_scope.

(** ** The characters of the descriptors *)

(** Copied by the JSON quoting, and left alone by the comma and colon hack. *)
Definition plainChar (c : byte) : Prop := htmlSafe c = true /\ c <> x2c /\ c <> x3a.

#[export] Instance plainChar_dec c : Decision (plainChar c).
Proof. unfold plainChar. apply _. Defined.

Lemma lower_hex_plain c : is_lower_hex c = true -> plainChar c.
Proof. destruct c; vm_compute; naive_solver. Qed.

Lemma digit_plain c : is_digit c = true -> c <> x2c /\ c <> x3a.
Proof. destruct c; vm_compute; naive_solver. Qed.

Lemma hex_plain b : Forall plainChar (EncodeToString b).
Proof. eapply Forall_impl; [apply EncodeToString_lower|]. apply lower_hex_plain. Qed.

Lemma plain_safe s : Forall plainChar s -> Forall (fun c => htmlSafe c = true) s.
Proof. intros H. eapply Forall_impl; [exact H|]. by intros c []. Qed.

Lemma plain_quote_free c s :
  Forall plainChar s -> c = x2c \/ c = x3a -> c ∉ quote s.
Proof.
  intros H Hc. rewrite quote_plain by by apply plain_safe.
  rewrite elem_of_cons, elem_of_app, list_elem_of_singleton. rewrite Forall_forall in H.
  intros [->|[Hin| ->]]; [destruct Hc; done| |destruct Hc; done].
  destruct (H c Hin) as (_ & ? & ?). naive_solver.
Qed.

Lemma Itoa_free c n : in_int64 n -> c = x2c \/ c = x3a -> c ∉ Itoa n.
Proof.
  intros Hn Hc. destruct (Itoa_shape n Hn) as (d & ds & -> & Hd & _).
  rewrite forallb_forall in Hd. setoid_rewrite <- list_elem_of_In in Hd.
  rewrite elem_of_app. intros [Hin|Hin].
  - destruct (n <? 0); [|by apply not_elem_of_nil in Hin].
    apply list_elem_of_singleton in Hin as ->. destruct Hc; done.
  - apply Hd, digit_plain in Hin as []. naive_solver.
Qed.

(** ** Well-formed documents *)

(** What every member the descriptors write satisfies, at nesting [d]. *)
Definition goodMember (d : Z) (m : bytes * json) : Prop :=
  (wfStr m.1 /\ wfJson d m.2)
  /\ (forall c, c = x2c \/ c = x3a -> (c ∉ m.1) /\ freeOf c m.2).

Definition plainName (name : string) : bool := bool_decide (Forall plainChar (go name)).

Lemma strMember_good d name v :
  plainName name = true -> Forall plainChar v -> goodMember d (strMember name v).
Proof.
  intros Hn%bool_decide_eq_true Hv. split; simpl.
  - split; [|constructor]; by apply wfStr_quote_plain, plain_safe.
  - intros c Hc. split; [|constructor]; by apply plain_quote_free.
Qed.

Lemma intMember_good d name n :
  plainName name = true -> in_int64 n -> goodMember d (intMember name n).
Proof.
  intros Hn%bool_decide_eq_true Hv. split; simpl.
  - split; [by apply wfStr_quote_plain, plain_safe|constructor; by apply wfNum_Itoa].
  - intros c Hc. split; [by apply plain_quote_free|constructor; by apply Itoa_free].
Qed.

Lemma obj_good d ms :
  0 < d -> Forall (goodMember (d - 1)) ms ->
  wfJson d (JObj ms) /\ forall c, c = x2c \/ c = x3a -> freeOf c (JObj ms).
Proof.
  intros Hd H. split.
  - constructor; [done|]. eapply Forall_impl; [exact H|]. by intros m [? _].
  - intros c Hc. constructor. eapply Forall_impl; [exact H|]. intros m [_ Hm]. by apply Hm.
Qed.

(** Infos whose numbers are 64-bit integers. *)
Definition wfInfo (bi : BlobInfo) : Prop := in_int64 (bi_Length bi) /\ in_int64 (bi_BlobNum bi).

(** The descriptors the round trip covers: 64-bit numbers, and a stream type the
    JSON text carries unchanged. *)
Definition wfSD (s : SDBlob) : Prop :=
  Forall wfInfo (sd_BlobInfos s) /\ Forall plainChar (sd_StreamType s).

Lemma hashMember_good d h : Forall plainChar h -> Forall (goodMember d) (hashMember h).
Proof.
  intros Hh. unfold hashMember. destruct h; [constructor|].
  constructor; [by apply strMember_good|constructor].
Qed.

Lemma encodeBlobInfo_plain bi :
  Forall plainChar (jb_BlobHash (encodeBlobInfo bi)) /\ Forall plainChar (jb_IV (encodeBlobInfo bi)).
Proof.
  unfold encodeBlobInfo, encodeBlobInfoCommon. simpl. split; [|apply hex_plain].
  case_decide; [apply hex_plain|constructor].
Qed.

Lemma jsonInfo_good d bi :
  0 < d -> wfInfo bi ->
  (wfJson d (jsonNewSort (encodeBlobInfo bi)) /\
   forall c, c = x2c \/ c = x3a -> freeOf c (jsonNewSort (encodeBlobInfo bi)))
  /\ (wfJson d (jsonOldSort (encodeBlobInfo bi)) /\
      forall c, c = x2c \/ c = x3a -> freeOf c (jsonOldSort (encodeBlobInfo bi))).
Proof.
  intros Hd [Hl Hn]. destruct (encodeBlobInfo_plain bi) as [Hh Hi].
  split; apply obj_good; try done.
  - apply Forall_app; split; [by apply hashMember_good|].
    repeat apply List.Forall_cons; try apply List.Forall_nil; (by apply intMember_good) || by apply strMember_good.
  - repeat (apply Forall_app; split); [|by apply hashMember_good|];
    repeat apply List.Forall_cons; try apply List.Forall_nil; (by apply intMember_good) || by apply strMember_good.
Qed.

Lemma arr_good d (f : JSONBlobInfo -> json) infos :
  0 < d ->
  (forall bi, wfInfo bi -> wfJson (d - 1) (f (encodeBlobInfo bi)) /\
     forall c, c = x2c \/ c = x3a -> freeOf c (f (encodeBlobInfo bi))) ->
  Forall wfInfo infos ->
  goodMember d (quote (go "blobs"), JArr (map f (map encodeBlobInfo infos))).
Proof.
  intros Hd Hf Hi. rewrite map_map. split.
  - split; [apply wfStr_quote_plain, plain_safe; by apply (bool_decide_eq_true_1 (Forall plainChar _))|].
    constructor; [done|]. apply Forall_map. eapply Forall_impl; [exact Hi|]. intros bi Hbi. by apply Hf.
  - intros c Hc. split; [apply plain_quote_free; [by apply (bool_decide_eq_true_1 (Forall plainChar _))|done]|].
    constructor. apply Forall_map. eapply Forall_impl; [exact Hi|]. intros bi Hbi. by apply Hf.
Qed.

(** The document [MarshalJSON] prints. *)
Definition sdDoc (s : SDBlob) : json :=
  if sd_profile s =? ProfileOldSort then jsonSDOldSort s else jsonSDNewSort s.

Lemma sdDoc_good s :
  wfSD s -> wfJson maxNestingDepth (sdDoc s) /\ forall c, c = x2c \/ c = x3a -> freeOf c (sdDoc s).
Proof.
  intros [Hi Ht]. unfold sdDoc, maxNestingDepth.
  destruct (_ =? _); (apply obj_good; [lia|]);
    repeat apply List.Forall_cons; try apply List.Forall_nil;
    try (apply strMember_good; [done|done || apply hex_plain]).
  all: apply arr_good; [lia| |done]; intros bi Hbi; by apply jsonInfo_good.
Qed.

(** ** The text of a descriptor *)

Lemma MarshalJSON_doc s : SDBlob_MarshalJSON s = Ok (print [] [] (sdDoc s)).
Proof.
  unfold SDBlob_MarshalJSON, profileRegistry, sdDoc, ProfileNewSort, ProfileOldSort.
  destruct (Z.eqb_spec (sd_profile s) 0) as [->|]; [done|]. by destruct (sd_profile s =? 1).
Qed.

Lemma ToBlob_text s : wfSD s -> ToBlob s = Ok (print [x20] [x20] (sdDoc s)).
Proof.
  intros [_ Hf]%sdDoc_good. unfold ToBlob. rewrite MarshalJSON_doc. cbn [mbind result_bind]. do 2 f_equal.
  rewrite replace_comma by (auto || apply not_elem_of_nil).
  apply replace_colon; [|by auto]. by intros ?%list_elem_of_singleton.
Qed.

Lemma space_1 : Forall (fun c => is_space c = true) [x20].
Proof. by repeat constructor. Qed.

Lemma trimSpace_obj sc sk ms : trimSpace (print sc sk (JObj ms)) = print sc sk (JObj ms).
Proof.
  unfold trimSpace. cbn [print]. rewrite (skipSpace_non x7b) by done.
  rewrite app_comm_cons, rev_unit, skipSpace_non by done. by rewrite <- rev_unit, rev_involutive.
Qed.

(** ** Decoding the documents *)

Lemma decodeMembers_known {R} names (set : bytes -> json -> R -> result R) name v ms r r' :
  Forall plainChar name -> bool_decide (name ∈ names) = true -> set name v r = Ok r' ->
  decodeMembers names set ((quote name, v) :: ms) r = decodeMembers names set ms r'.
Proof.
  intros Hp Hn Hs. simpl. rewrite unquote_quote_plain by by apply plain_safe.
  unfold findField. by rewrite Hn, Hs.
Qed.

Lemma decodeString_plain v cur : Forall plainChar v -> decodeString (JStr (quote v)) cur = Ok v.
Proof. intros H. unfold decodeString. by rewrite unquote_quote_plain by by apply plain_safe. Qed.

Lemma decodeInt_Itoa n cur : in_int64 n -> decodeInt (JNum (Itoa n)) cur = Ok n.
Proof. intros H. unfold decodeInt. by rewrite ParseInt_Itoa. Qed.

(** Decode the first member of a document, whose name is known. *)
Ltac known_member :=
  erewrite decodeMembers_known;
    [|by apply (bool_decide_eq_true_1 (Forall plainChar _))|done
     |unfold setBlobInfoField, setSDBlobField;
      repeat first [rewrite decide_True by done | rewrite decide_False by done];
      rewrite ?decodeString_plain, ?decodeInt_Itoa by (done || apply hex_plain);
      cbn [js_StreamName js_Blobs js_StreamType js_Key js_SuggestedFileName js_StreamHash zeroJSONSDBlob];
      try match goal with H : decodeSlice _ _ _ _ = Ok _ |- _ => rewrite H end;
      cbn [mbind result_bind]; reflexivity].

Lemma decode_hashMember h ms j :
  Forall plainChar h -> jb_BlobHash j = [] ->
  decodeMembers blobInfoNames setBlobInfoField (hashMember h ++ ms) j
  = decodeMembers blobInfoNames setBlobInfoField ms
      (mkJSONBlobInfo (jb_Length j) (jb_BlobNum j) h (jb_IV j)).
Proof.
  intros Hh Hj. unfold hashMember. destruct h as [|c h].
  - rewrite <- Hj. by destruct j.
  - cbn [app]. unfold strMember. known_member. done.
Qed.

Lemma decode_jsonNewSort bi :
  wfInfo bi -> decodeJSONBlobInfo (jsonNewSort (encodeBlobInfo bi)) zeroJSONBlobInfo = Ok (encodeBlobInfo bi).
Proof.
  intros [Hl Hn]. destruct (encodeBlobInfo_plain bi) as [Hh Hi].
  unfold decodeJSONBlobInfo, decodeStruct, jsonNewSort.
  rewrite decode_hashMember by done. unfold strMember, intMember.
  change (jb_BlobNum (encodeBlobInfo bi)) with (bi_BlobNum bi).
  change (jb_Length (encodeBlobInfo bi)) with (bi_Length bi).
  do 3 known_member. reflexivity.
Qed.

Lemma decode_jsonOldSort bi :
  wfInfo bi -> decodeJSONBlobInfo (jsonOldSort (encodeBlobInfo bi)) zeroJSONBlobInfo = Ok (encodeBlobInfo bi).
Proof.
  intros [Hl Hn]. destruct (encodeBlobInfo_plain bi) as [Hh Hi].
  unfold decodeJSONBlobInfo, decodeStruct, jsonOldSort. cbn [app]. unfold intMember.
  change (jb_BlobNum (encodeBlobInfo bi)) with (bi_BlobNum bi).
  change (jb_Length (encodeBlobInfo bi)) with (bi_Length bi).
  do 2 known_member. rewrite decode_hashMember by done. unfold strMember. known_member. reflexivity.
Qed.

Lemma decodeElems_map {A} (zero : A) dec (f : A -> json) (xs : list A) :
  Forall (fun x => dec (f x) zero = Ok x) xs -> decodeElems zero dec (map f xs) [] = Ok xs.
Proof. induction 1 as [|x xs Hx _ IH]; [done|]. simpl. rewrite Hx. simpl. by rewrite IH. Qed.

Lemma decodeSlice_map {A} (zero : A) dec (f : A -> json) (xs : list A) :
  Forall (fun x => dec (f x) zero = Ok x) xs ->
  exists sl, decodeSlice zero dec (JArr (map f xs)) nilSlice = Ok sl /\ sliceElems sl = xs.
Proof.
  intros H. pose proof (decodeElems_map zero dec f xs H) as E.
  destruct xs as [|x xs]; [by eexists|]. unfold decodeSlice.
  cbn [map] in *. simpl sl_backing. rewrite E. eexists. split; [done|].
  unfold sliceElems. simpl. by rewrite app_nil_r, firstn_all.
Qed.

Lemma decodeBlobInfos_encode p infos :
  decodeBlobInfos (map encodeBlobInfo infos) p
  = Ok (map (fun bi => mkBlobInfo (bi_Length bi) (bi_BlobNum bi) (bi_BlobHash bi) (bi_IV bi) p) infos).
Proof.
  induction infos as [|bi infos IH]; [done|]. simpl. unfold decodeBlobInfoFrom.
  assert (forall b, (if decide (EncodeToString b = []) then Ok [] else DecodeString (EncodeToString b)) = Ok b)
    as Hhex.
  { intros b. case_decide as E; [by apply EncodeToString_nil in E as ->|apply DecodeString_EncodeToString]. }
  assert ((if decide (jb_BlobHash (encodeBlobInfo bi) = []) then Ok []
           else DecodeString (jb_BlobHash (encodeBlobInfo bi))) = Ok (bi_BlobHash bi)) as ->.
  { unfold encodeBlobInfo, encodeBlobInfoCommon. cbn [jb_BlobHash].
    destruct (decide (0 < length (bi_BlobHash bi))%nat) as [|Hl]; [apply Hhex|].
    destruct (bi_BlobHash bi); [done|simpl in Hl; lia]. }
  cbn [mbind result_bind]. change (jb_IV (encodeBlobInfo bi)) with (EncodeToString (bi_IV bi)).
  rewrite Hhex. cbn [mbind result_bind]. rewrite IH. reflexivity.
Qed.

(** Either document decodes to the fields of the descriptor. *)
Lemma decode_sdDoc s :
  wfSD s ->
  exists tmp, decodeStruct sdBlobNames setSDBlobField (sdDoc s) zeroJSONSDBlob = Ok tmp
    /\ tmp = mkJSONSDBlob (EncodeToString (sd_StreamName s)) (js_Blobs tmp) (sd_StreamType s)
               (EncodeToString (sd_Key s)) (EncodeToString (sd_SuggestedFileName s))
               (EncodeToString (sd_StreamHash s))
    /\ sliceElems (js_Blobs tmp) = map encodeBlobInfo (sd_BlobInfos s).
Proof.
  intros [Hi Ht]. unfold sdDoc. destruct (_ =? _).
  - destruct (decodeSlice_map zeroJSONBlobInfo decodeJSONBlobInfo jsonOldSort
                (map encodeBlobInfo (sd_BlobInfos s))) as (sl & Hsl & Hel).
    { apply Forall_map. eapply Forall_impl; [exact Hi|]. apply decode_jsonOldSort. }
    unfold jsonSDOldSort, encodeSDBlobCommon, decodeStruct, strMember, encodeBlobInfosAsOldSort.
    do 6 known_member. cbn. eexists. split_and!; [reflexivity|reflexivity|exact Hel].
  - destruct (decodeSlice_map zeroJSONBlobInfo decodeJSONBlobInfo jsonNewSort
                (map encodeBlobInfo (sd_BlobInfos s))) as (sl & Hsl & Hel).
    { apply Forall_map. eapply Forall_impl; [exact Hi|]. apply decode_jsonNewSort. }
    unfold jsonSDNewSort, encodeSDBlobCommon, decodeStruct, strMember, encodeBlobInfosAsNewSort.
    do 6 known_member. cbn. eexists. split_and!; [reflexivity|reflexivity|exact Hel].
Qed.

Lemma decodeSDBlobFields_encode n k f h :
  decodeSDBlobFields (EncodeToString n) (EncodeToString k) (EncodeToString f) (EncodeToString h)
  = Ok (n, k, f, h).
Proof.
  assert (forall b, decodeHex (EncodeToString b) = Ok b) as Hhex.
  { intros b. unfold decodeHex.
    case_decide as E; [by apply EncodeToString_nil in E as ->|apply DecodeString_EncodeToString]. }
  unfold decodeSDBlobFields. change decodeHexString with decodeHex. by rewrite !Hhex.
Qed.

Lemma unmarshal_text p s text :
  wfSD s -> parse text = Ok (sdDoc s) ->
  unmarshalSDBlobAs p text = Ok (SetProfile s p).
Proof.
  intros Hw Hp. unfold unmarshalSDBlobAs, unmarshalJSONSDBlob. rewrite Hp. cbn [mbind result_bind].
  destruct (decode_sdDoc s Hw) as (tmp & -> & E & Hb). cbn [mbind result_bind]. rewrite E.
  cbn [js_StreamName js_Key js_SuggestedFileName js_StreamHash js_Blobs js_StreamType].
  rewrite decodeSDBlobFields_encode. cbn [mbind result_bind]. rewrite Hb, decodeBlobInfos_encode. done.
Qed.

(** ** Theorems *)

(** The profile a descriptor is written in. *)
Definition writtenProfile (s : SDBlob) : Z :=
  if sd_profile s =? ProfileOldSort then ProfileOldSort else ProfileNewSort.

(** An order in which the registry may be ranged over. *)
Definition registryOrder (order : list Z) : Prop := [ProfileNewSort; ProfileOldSort] ≡ₚ order.

Lemma rangeHandlers_first order k m :
  registryOrder order ->
  rangeHandlers order (k :: m)
  = if decide (k = quote (go "stream_name")) then ProfileOldSort else ProfileNewSort.
Proof.
  intros [->| ->]%Permutation_length_2_inv; cbn -[quote go decide];
    destruct (decide (k = quote (go "blobs"))) as [->|];
    destruct (decide (_ = quote (go "stream_name"))) as [E|]; try done; discriminate E.
Qed.

Section theorems.
Context {O : OrderedJson} {OL : OrderedJsonLaws O}.

Lemma detect_doc order s text :
  registryOrder order -> parse text = Ok (sdDoc s) -> trimSpace text = text ->
  detectSerializationProfile order text = writtenProfile s.
Proof.
  intros Ho Hp Ht. unfold detectSerializationProfile. rewrite Hp, Ht. cbn [mbind result_bind].
  unfold sdDoc, writtenProfile in *. destruct (sd_profile s =? ProfileOldSort);
    unfold jsonSDOldSort, jsonSDNewSort, encodeSDBlobCommon in Hp;
    rewrite (ordered_keys _ _ Hp); cbn [map fst]; rewrite rangeHandlers_first by done;
    [by rewrite decide_True|by rewrite decide_False].
Qed.

Lemma sdDoc_obj s : exists ms, sdDoc s = JObj ms.
Proof. unfold sdDoc. destruct (_ =? _); by eexists. Qed.

Lemma FromBlob_ToBlob order s :
  registryOrder order -> wfSD s ->
  (ToBlob s ≫= FromBlob order) = Ok (SetProfile s (writtenProfile s)).
Proof.
  intros Ho Hw. rewrite ToBlob_text by done. cbn [mbind result_bind].
  destruct (sdDoc_good s Hw) as [Hj _].
  pose proof (parse_print [x20] [x20] space_1 space_1 (sdDoc s) Hj) as Hp.
  assert (trimSpace (print [x20] [x20] (sdDoc s)) = print [x20] [x20] (sdDoc s)) as Ht
    by (destruct (sdDoc_obj s) as [ms ->]; apply trimSpace_obj).
  unfold FromBlob, SDBlob_UnmarshalJSON. rewrite Hp, Ht. cbn [mbind result_bind].
  rewrite (detect_doc order s) by done. unfold writtenProfile.
  destruct (sd_profile s =? ProfileOldSort); by apply unmarshal_text.
Qed.

(** C22. A descriptor survives serialisation: for every descriptor with 64-bit
    numbers and a plain stream type, whatever its name, key, hashes and IVs, the
    text [ToBlob] writes in either field order is read back by [FromBlob] as the
    same descriptor, with every profile field set to the order it was written
    in, whichever order Go ranges over the profile registry in. *)
Theorem sd_blob_roundtrip order s
    (Ho : registryOrder order) (Hw : wfSD s) :
  exists text, ToBlob s = Ok text
    /\ FromBlob order text = Ok (SetProfile s (writtenProfile s)).
Proof.
  pose proof (FromBlob_ToBlob order s Ho Hw) as H. rewrite ToBlob_text in * by done. by eexists.
Qed.

(** Detection is deterministic: the profile does not depend on the order in which
    the handlers' predicates are tried, because no object satisfies two of them. *)
Theorem detect_order_independent order1 order2 b
    (H1 : registryOrder order1) (H2 : registryOrder order2) :
  detectSerializationProfile order1 b = detectSerializationProfile order2 b.
Proof.
  unfold detectSerializationProfile.
  destruct (parse b ;; orderedKeys (trimSpace b)) as [[|k m]| |]; [|by rewrite !rangeHandlers_first|done|done].
  by destruct (Permutation_length_2_inv H1) as [-> | ->],
    (Permutation_length_2_inv H2) as [-> | ->].
Qed.
End theorems.

(** ** Validation *)

Section validation.
Context {L : CidLib}.

(** What is required of the blob info at index [i], terminating or not. *)
Definition goodInfo (i : nat) (bi : BlobInfo) : Prop :=
  bi_BlobNum bi = Z.of_nat i /\ 0 <= bi_Length bi /\ bi_IV bi <> []
  /\ (0 < bi_Length bi -> bi_BlobHash bi <> [] /\ ValidateHash (EncodeToString (bi_BlobHash bi)) = true).

(** The abstract specification of a valid descriptor: numbered blobs with hash and
    IV, no terminating blob before the end, a key of 16 or 32 bytes and the right
    stream hash. *)
Record validSD (sd : SDBlob) : Prop := {
  v_type : sd_StreamType sd <> [];
  v_blobs : sd_BlobInfos sd <> [];
  v_key : length (sd_Key sd) = AES256KeySize \/ length (sd_Key sd) = AES128KeySize;
  v_infos : forall i bi, sd_BlobInfos sd !! i = Some bi -> goodInfo i bi;
  v_term : forall i bi, sd_BlobInfos sd !! i = Some bi -> bi_Length bi = 0 ->
             i = (length (sd_BlobInfos sd) - 1)%nat;
  v_hash : sd_StreamHash sd = computeStreamHash sd
}.

Lemma validateInfos_step i bi infos found :
  (goodInfo i bi /\
   validateInfos i (bi :: infos) found =
     if bi_Length bi =? 0 then
       match found with
       | Some _ => invalidSD "terminating blob can only appear once"
       | None => validateInfos (S i) infos (Some i)
       end
     else validateInfos (S i) infos found)
  \/ (~ goodInfo i bi /\ exists fmt, validateInfos i (bi :: infos) found = invalidSD fmt).
Proof.
  unfold goodInfo. cbn [validateInfos].
  destruct (Z.eqb_spec (bi_BlobNum bi) (Z.of_nat i)); [|right; split; [naive_solver|by eexists]].
  destruct (Z.ltb_spec 0 (bi_Length bi)) as [Hp|Hp]; simpl.
  - case_bool_decide as Hh; simpl.
    { right. split; [|by eexists]. apply nil_length_inv in Hh. naive_solver. }
    destruct (ValidateHash _); simpl; [|right; split; [naive_solver|by eexists]].
    rewrite (proj2 (Z.ltb_ge _ _)) by lia. case_decide as Hi.
    { right. split; [|by eexists]. apply nil_length_inv in Hi. naive_solver. }
    left. split; [|done]. split_and!; [done|lia|by intros E; rewrite E in Hi|].
    intros _. split; [|done]. intros E. by rewrite E in Hh.
  - destruct (Z.ltb_spec (bi_Length bi) 0).
    { right. split; [intros (_ & ? & _); lia|by eexists]. }
    case_decide as Hi.
    { right. split; [|by eexists]. apply nil_length_inv in Hi. naive_solver. }
    left. split; [|done]. split_and!; [done|lia|by intros E; rewrite E in Hi|lia].
Qed.

(** After the first terminating blob, no other may follow. *)
Lemma validateInfos_some i infos t f :
  validateInfos i infos (Some t) = Ok f <->
  f = Some t /\ forall k bi, infos !! k = Some bi -> goodInfo (i + k) bi /\ bi_Length bi <> 0.
Proof.
  revert i. induction infos as [|bi infos IH]; intros i.
  { simpl. split; [intros [= <-]; split; [done|by intros]|by intros [-> _]]. }
  destruct (validateInfos_step i bi infos (Some t)) as [[Hg ->]|[Hg [fmt ->]]].
  - destruct (Z.eqb_spec (bi_Length bi) 0).
    { split; [done|]. intros [_ H]. destruct (H 0%nat bi eq_refl). done. }
    rewrite IH. split; intros [-> H]; (split; [done|]); intros k bi'.
    + destruct k as [|k]; simpl; [intros [= <-]; by rewrite Nat.add_0_r|].
      replace (i + S k)%nat with (S i + k)%nat by lia. apply H.
    + specialize (H (S k) bi'). simpl in H. by replace (i + S k)%nat with (S i + k)%nat in H by lia.
  - split; [done|]. intros [_ H]. destruct (H 0%nat bi eq_refl) as [Hg' _].
    by rewrite Nat.add_0_r in Hg'.
Qed.

Lemma validateInfos_none i infos f :
  validateInfos i infos None = Ok f ->
  (forall k bi, infos !! k = Some bi -> goodInfo (i + k) bi)
  /\ (forall k bi, infos !! k = Some bi -> bi_Length bi = 0 -> f = Some (i + k)%nat)
  /\ (f = None \/ exists k, f = Some (i + k)%nat).
Proof.
  revert i. induction infos as [|bi infos IH]; intros i H.
  { injection H as <-. split_and!; [done|done|by left]. }
  destruct (validateInfos_step i bi infos None) as [[Hg E]|[_ [fmt E]]]; rewrite E in H; [|done].
  destruct (Z.eqb_spec (bi_Length bi) 0) as [Hz|Hz].
  - apply validateInfos_some in H as [-> H]. split_and!.
    + intros [|k] bi'; simpl; [intros [= <-]; by rewrite Nat.add_0_r|].
      intros Hk. replace (i + S k)%nat with (S i + k)%nat by lia. by apply H.
    + intros [|k] bi'; simpl; [by rewrite Nat.add_0_r|]. intros Hk ?. by destruct (H k bi' Hk).
    + right. exists 0%nat. by rewrite Nat.add_0_r.
  - apply IH in H as (H1 & H2 & H3). split_and!.
    + intros [|k] bi'; simpl; [intros [= <-]; by rewrite Nat.add_0_r|].
      intros Hk. replace (i + S k)%nat with (S i + k)%nat by lia. by apply H1.
    + intros [|k] bi'; simpl; [congruence|]. intros Hk ?.
      replace (i + S k)%nat with (S i + k)%nat by lia. by eapply H2.
    + destruct H3 as [->|[k ->]]; [by left|right]. exists (S k). f_equal. lia.
Qed.

(** Completeness of the loop: good infos with at most a last terminating blob pass. *)
Lemma validateInfos_complete i infos :
  (forall k bi, infos !! k = Some bi -> goodInfo (i + k) bi) ->
  (forall k bi, infos !! k = Some bi -> bi_Length bi = 0 -> k = (length infos - 1)%nat) ->
  exists f, validateInfos i infos None = Ok f
    /\ match f with Some t => (t + 1 = i + length infos)%nat | None => True end.
Proof.
  revert i. induction infos as [|bi infos IH]; intros i Hg Ht; [by eexists|].
  destruct (validateInfos_step i bi infos None) as [[_ ->]|[Hn _]].
  2:{ destruct Hn. specialize (Hg 0%nat bi eq_refl). by rewrite Nat.add_0_r in Hg. }
  destruct (Z.eqb_spec (bi_Length bi) 0) as [Hz|Hz].
  - specialize (Ht 0%nat bi eq_refl Hz). simpl in Ht. destruct infos; [|simpl in Ht; lia].
    eexists. split; [done|]. simpl. lia.
  - destruct (IH (S i)) as (f & -> & Hf).
    + intros k bi' Hk. replace (S i + k)%nat with (i + S k)%nat by lia. by apply Hg.
    + intros k bi' Hk Hz'. specialize (Ht (S k) bi' Hk Hz'). simpl in Ht. lia.
    + eexists. split; [done|]. destruct f as [t|]; [|done]. simpl. lia.
Qed.

Lemma validateSDBlob_sound sd : validateSDBlob sd = Ok tt -> validSD sd.
Proof.
  unfold validateSDBlob. intros E. case_decide as Ht; [done|]. case_decide as Hb; [done|].
  case_decide as Hk; [done|]. apply bind_Ok in E as (f & Hf & E).
  destruct (validateInfos_none 0 _ f Hf) as (Hg & Hz & _).
  case_match eqn:Hm; [done|]. case_decide as Hh; [done|]. case_decide as Hs; [done|].
  split; [done| | |exact Hg| |exact Hs].
  - intros E0. apply Hb. by rewrite E0.
  - destruct (decide (length (sd_Key sd) = AES256KeySize)); [by left|right].
    destruct (decide (length (sd_Key sd) = AES128KeySize)); [done|]. naive_solver.
  - intros i bi Hi Hl. rewrite (Hz i bi Hi Hl) in Hm. by apply negb_false_iff, Nat.eqb_eq in Hm.
Qed.

Lemma validateSDBlob_complete sd : validSD sd -> validateSDBlob sd = Ok tt.
Proof.
  intros [Ht Hb Hk Hg Hz Hh]. unfold validateSDBlob. rewrite decide_False by done.
  rewrite decide_False by (intros ?%nil_length_inv; done). rewrite decide_False by naive_solver.
  destruct (validateInfos_complete 0 (sd_BlobInfos sd) Hg Hz) as (f & -> & Hf).
  cbn [mbind result_bind]. rewrite Hh, (decide_False (P := _ <> _)) by naive_solver.
  rewrite decide_False by (unfold computeStreamHash, streamHash; by rewrite length_Sum384).
  destruct f as [t|]; [|done]. rewrite (proj2 (Nat.eqb_eq t _)) by lia. done.
Qed.

Lemma validateInfos_err i infos found :
  match validateInfos i infos found with
  | Ok _ => True | Err e => error_is e ErrInvalidSDBlob = true | Panic _ => False
  end.
Proof.
  revert i found. induction infos as [|bi infos IH]; intros i found; [done|].
  destruct (validateInfos_step i bi infos found) as [[_ ->]|[_ [fmt ->]]]; [|done].
  destruct (_ =? _), found; [done|apply IH|apply IH|apply IH].
Qed.

Lemma validateSDBlob_err sd :
  match validateSDBlob sd with
  | Ok _ => True | Err e => error_is e ErrInvalidSDBlob = true | Panic _ => False
  end.
Proof.
  unfold validateSDBlob. pose proof (validateInfos_err 0 (sd_BlobInfos sd) None) as H.
  repeat (case_decide; [done|]). destruct (validateInfos _ _ _) as [f|e|w]; simpl; [|done|done].
  destruct (match f with Some _ => _ | None => _ end); [done|]. by repeat (case_decide; [done|]).
Qed.

(** C37. Validation decides exactly the specification of a valid descriptor; every
    refusal is an error that wraps [ErrInvalidSDBlob]. *)
Theorem validate_sd_blob sd :
  match validateSDBlob sd with
  | Ok _ => validSD sd
  | Err e => ~ validSD sd /\ error_is e ErrInvalidSDBlob = true
  | Panic _ => False
  end.
Proof.
  pose proof (validateSDBlob_err sd) as He.
  destruct (validateSDBlob sd) as [[]|e|w] eqn:E; [by apply validateSDBlob_sound| |done].
  split; [|done]. intros Hv%validateSDBlob_complete. congruence.
Qed.
End validation.

(** ** Concrete instances *)

(** Reading the keys off the parsed object satisfies the law. *)
#[local] Instance exampleOrdered : OrderedJson := {|
  orderedKeys b := v ← parse b; match v with JObj ms => Ok (map fst ms) | _ => typeError end
|}.

#[local] Instance exampleOrdered_laws : OrderedJsonLaws exampleOrdered.
Proof. split. simpl. by intros b ms ->. Qed.

(** A descriptor with one content blob and the terminating one. *)
Definition sampleSD : SDBlob :=
  mkSDBlob (go "name, with: punctuation")
    [mkBlobInfo 16 0 (replicate 48 xab) sampleIV 1; mkBlobInfo 0 1 [] sampleIV 1]
    StreamTypeLBRYFile sampleKey (go "file") (replicate 48 x01) ProfileOldSort.

Lemma sampleSD_wf : wfSD sampleSD.
Proof.
  split; [|by apply (bool_decide_eq_true_1 (Forall plainChar _))].
  repeat constructor; vm_compute; congruence.
Qed.

Lemma sd_blob_roundtrip_witness :
  exists text, ToBlob sampleSD = Ok text /\ FromBlob [1; 0] text = Ok sampleSD.
Proof.
  exact (sd_blob_roundtrip [1; 0] sampleSD (perm_swap _ _ _) sampleSD_wf).
Defined.

Lemma detect_order_independent_witness :
  detectSerializationProfile [0; 1] (go "{}") = detectSerializationProfile [1; 0] (go "{}").
Proof.
  apply (detect_order_independent [0; 1] [1; 0] (go "{}")); [apply Permutation_refl|apply perm_swap].
Defined.

(** The comma and colon replacement also rewrites a stream type that contains one:
    such a descriptor does not survive. *)
Example stream_type_colon_changes :
  (ToBlob (mkSDBlob [] [] (go "a:b") [] [] [] 0) ≫= FromBlob [0; 1])
  = Ok (mkSDBlob [] [] (go "a: b") [] [] [] 0).
Proof. vm_compute. reflexivity. Qed.
