(* ===== verification/Encoder.v ===== *)
(** * stream/encoder.go: encoding a source into a stream and back

    The encoder's state and operations; the source is an [io.Reader], the entropy
    source an interface.  The state is returned also when an operation fails. *)
From stdpp Require Import base tactics list numbers strings.
From Stdlib Require Import ZArith Lia Init.Byte.
From S2P Require Import Prelude GoStd Sha2 Aes Blob Multihash Json SdBlob.
Local Open Scope Z_scope.

#[local] Existing Instance AES.

(** [-1] leaves room for the padding. *)
Definition maxBlobDataSize : Z := MaxBlobSize - 1.

(** crypto/rand: what the [k]-th request for [n] bytes delivers. *)
Class Rand := { randRead : nat -> nat -> result bytes }.

Class RandLaws (R : Rand) : Prop := {
  rand_length k n b : randRead k n = Ok b -> length b = n
}.

(** The entropy source never fails (since Go 1.24, [crypto/rand] crashes instead). *)
Class RandTotal (R : Rand) : Prop := { rand_total k n : exists b, randRead k n = Ok b }.

Record Encoder := mkEncoder {
  e_src : reader;
  e_ivs : list bytes;
  e_srcSizeHint : Z;
  e_bufLen : Z;
  e_sd : SDBlob;
  e_srcLen : Z;
  e_srcHash : bytes;
  e_rand : nat
}.

(** The source-hash field holds the bytes written to the hash so far. *)

Definition setSd (e : Encoder) (sd : SDBlob) : Encoder :=
  mkEncoder (e_src e) (e_ivs e) (e_srcSizeHint e) (e_bufLen e) sd (e_srcLen e) (e_srcHash e) (e_rand e).

Record Chunk := mkChunk {
  ch_Number : Z; ch_Hash : bytes; ch_Data : bytes; ch_Size : Z; ch_StreamID : bytes
}.

(** The handlers are functions of what they are given; they see it in the order of
    the calls. *)
Record StreamConfig := mkStreamConfig {
  cf_ChunkHandler : option (Chunk -> option error);
  cf_ChunkSize : Z;
  cf_ExistingSDBlob : bytes;
  cf_SDHandler : option (SDBlob -> bytes -> option error);
  cf_Concurrency : Z;
  cf_StreamName : bytes;
  cf_SuggestedFileName : bytes
}.

Definition emptyConfig : StreamConfig := mkStreamConfig None 0 [] None 0 [] [].

Record StreamResult := mkStreamResult {
  sr_SDBlob : SDBlob;
  sr_SDBlobData : bytes;
  sr_SDBlobHash : bytes;
  sr_StreamHash : bytes;
  sr_SourceSize : Z;
  sr_ContentBlobs : list bytes;
  sr_ContentHashes : list bytes;
  sr_TotalChunks : Z;
  sr_ChunkSizes : list Z
}.

Section encoder.
Context {R : Rand}.

(** ** Randomness *)

Definition generateRandomBytes (k : nat) (size : Z) : result bytes :=
  if size <=? 0 then Err (EMsg "invalid size for random bytes: %d")
  else wrap_err "failed to generate random bytes" (randRead k (Z.to_nat size)).

Definition generateKey (k : nat) : result bytes := generateRandomBytes k 32.
Definition randIV (k : nat) : result bytes := generateRandomBytes k 16.

(** ** Construction *)

Definition newEncoderInternal (src : reader) (key : bytes) (k : nat) : Encoder :=
  mkEncoder src [] 0 maxBlobDataSize (mkSDBlob [] [] StreamTypeLBRYFile key [] [] 0) 0 [] k.

(** [NewEncoder] panics when no key can be generated. *)
Definition NewEncoder (src : reader) (k : nat) : result Encoder :=
  match generateKey k with
  | Ok key => Ok (newEncoderInternal src key (S k))
  | Err _ => Panic "generateKey"
  | Panic w => Panic w
  end.

Definition NewEncoderWithIVs (src : reader) (key : bytes) (ivs : list bytes) (k : nat) : result Encoder :=
  if decide (length key <> AES256KeySize /\ length key <> AES128KeySize)
  then Panic "invalid key size: expected %d or %d bytes, got %d bytes" else
  let e := newEncoderInternal src key k in
  Ok (mkEncoder (e_src e) ivs (e_srcSizeHint e) (e_bufLen e) (e_sd e) (e_srcLen e) (e_srcHash e) (e_rand e)).

Definition NewEncoderFromSD (src : reader) (sdBlob : SDBlob) (k : nat) : result Encoder :=
  e ← NewEncoderWithIVs src (sd_Key sdBlob) (map bi_IV (sd_BlobInfos sdBlob)) k;
  let sd := e_sd e in
  Ok (setSd e (SetProfile (mkSDBlob (sd_StreamName sdBlob) (sd_BlobInfos sd) (sd_StreamType sd) (sd_Key sd)
                             (sd_SuggestedFileName sdBlob) (sd_StreamHash sd) (sd_profile sd))
                 (GetProfile sdBlob))).

Definition SourceSizeHint (e : Encoder) (size : Z) : Encoder :=
  mkEncoder (e_src e) (e_ivs e) size (e_bufLen e) (e_sd e) (e_srcLen e) (e_srcHash e) (e_rand e).

(** [SDBlob()]: updates the stream hash in place. *)
Definition Encoder_SDBlob (e : Encoder) : Encoder := setSd e (UpdateStreamHash (e_sd e)).
Definition SourceLen (e : Encoder) : Z := e_srcLen e.
Definition SourceHash (e : Encoder) : bytes := sha512_Sum384 (e_srcHash e).

(** ** The next blob *)

Definition nextIV (e : Encoder) : result bytes * Encoder :=
  match e_ivs e with
  | [] => (randIV (e_rand e),
           mkEncoder (e_src e) [] (e_srcSizeHint e) (e_bufLen e) (e_sd e) (e_srcLen e) (e_srcHash e)
             (S (e_rand e)))
  | iv :: ivs => (Ok iv,
           mkEncoder (e_src e) ivs (e_srcSizeHint e) (e_bufLen e) (e_sd e) (e_srcLen e) (e_srcHash e)
             (e_rand e))
  end.

(** The step that adds a blob (empty to terminate) under an IV. *)
Definition addToSd (e : Encoder) (b iv : bytes) : result unit * Encoder :=
  match addBlob (e_sd e) b iv with
  | Ok sd => (Ok tt, setSd e sd)
  | Err er => (Err er, e)
  | Panic w => (Panic w, e)
  end.

Definition isTerminated (e : Encoder) : bool :=
  match last (sd_BlobInfos (e_sd e)) with Some bi => bi_Length bi =? 0 | None => false end.

Definition ensureTerminated (e : Encoder) : result unit * Encoder :=
  if isTerminated e then (Ok tt, e) else
  let '(iv, e) := nextIV e in
  match iv with
  | Ok iv => addToSd e [] iv
  | Err er => (Err er, e)
  | Panic w => (Panic w, e)
  end.

(** The bytes of a read are counted, hashed, encrypted and recorded. *)
Definition encodeChunk (e : Encoder) (data : bytes) : result bytes * Encoder :=
  let e := mkEncoder (e_src e) (e_ivs e) (e_srcSizeHint e) (e_bufLen e) (e_sd e)
             (e_srcLen e +i Z.of_nat (length data)) (e_srcHash e ++ data) (e_rand e) in
  let '(iv, e) := nextIV e in
  match iv with
  | Err er => (Err er, e)
  | Panic w => (Panic w, e)
  | Ok iv =>
      match NewBlob data (sd_Key (e_sd e)) iv with
      | Err er => (Err er, e)
      | Panic w => (Panic w, e)
      | Ok b =>
          let '(r, e) := addToSd e b iv in
          (r ≫= fun _ => Ok b, e)
      end
  end.

(** The loop of [Next]: a read of no bytes and no error is retried; the error of a
    read that delivered bytes is left to the next call.  Every retry consumes an
    event of the source, so [length (e_src e) + 1] rounds are enough. *)
Fixpoint nextLoop (fuel : nat) (e : Encoder) : result bytes * Encoder :=
  match fuel with
  | O => (Panic "out of fuel", e)
  | S fuel =>
      let '(data, readErr, src) := Read (e_src e) (e_bufLen e) in
      let e := mkEncoder src (e_ivs e) (e_srcSizeHint e) (e_bufLen e) (e_sd e) (e_srcLen e)
                 (e_srcHash e) (e_rand e) in
      if decide (data <> []) then encodeChunk e data else
      match readErr with
      | Some er =>
          if error_is er EOF then
            let '(r, e) := ensureTerminated e in
            (r ≫= fun _ => Err (ESent EOF), e)
          else (Err er, e)
      | None => nextLoop fuel e
      end
  end.

Definition Next (e : Encoder) : result bytes * Encoder := nextLoop (S (length (e_src e))) e.

(** ** The whole stream *)

(** What is left to read, in rounds of [Next]: at most one for every byte and event. *)
Definition sourceSize (r : reader) : nat := sum_list_with (fun ev => S (length (ev_data ev))) r.

(** [for { b, err := e.Next(); ... }], up to the end of the source. *)
Fixpoint nextAll (fuel : nat) (e : Encoder) (acc : list bytes) : result (list bytes) * Encoder :=
  match fuel with
  | O => (Panic "out of fuel", e)
  | S fuel =>
      let '(r, e) := Next e in
      match r with
      | Ok b => nextAll fuel e (acc ++ [b])
      | Err er => if error_is er EOF then (Ok acc, e) else (Err er, e)
      | Panic w => (Panic w, e)
      end
  end.

(** [Stream]: the capacity [1 + ceil(hint / maxBlobDataSize)] must not be below 1. *)
Definition Encoder_Stream (e : Encoder) : result (list bytes) * Encoder :=
  if e_srcSizeHint e <=? - maxBlobDataSize then (Panic "makeslice: cap out of range", e) else
  let '(r, e) := nextAll (S (sourceSize (e_src e))) e [] in
  match r with
  | Ok blobs =>
      let e := Encoder_SDBlob e in
      (sdBlobData ← ToBlob (e_sd e); Ok (sdBlobData :: blobs), e)
  | Err er => (Err er, e)
  | Panic w => (Panic w, e)
  end.

(** [New] *)
Definition New (src : reader) (k : nat) : result (list bytes) :=
  e ← NewEncoder src k; (Encoder_Stream e).1.

(** ** Decoding *)

Context {OJ : OrderedJson}.

Fixpoint decodeInfos (key : bytes) (total i : nat) (infos : list BlobInfo) (s : list bytes) (file : bytes)
    : result bytes :=
  match infos with
  | [] => Ok file
  | bi :: infos' =>
      if bi_Length bi =? 0 then
        if decide (i <> total - 1)%nat then Err (EMsg "got 0-length blob before end of stream")
        else Ok file
      else if negb (bi_BlobNum bi =? Z.of_nat i) then Err (EMsg "blobs are out of order in sd blob")
      else
        b ← index s (S i);
        if decide (BlobHash b <> bi_BlobHash bi)
        then Err (EMsg "blob hash doesn't match hash in blobInfo") else
        data ← Plaintext b key (bi_IV bi);
        decodeInfos key total (S i) infos' s (file ++ data)
  end.

Definition Decode (order : list Z) (s : list bytes) : result bytes :=
  if decide (length s < 2)%nat then Err (EMsg "stream must be at least 2 blobs long") else
  s0 ← index s 0;
  sdBlob ← FromBlob order s0;
  if negb (SDBlob_IsValid sdBlob) then Err (EMsg "sd blob is not valid") else
  lastInfo ← (match last (sd_BlobInfos sdBlob) with
              | Some bi => Ok bi
              | None => Panic "index out of range"
              end);
  if negb (bi_Length lastInfo =? 0)
  then Err (EMsg "sd blob is missing the terminating 0-length blob") else
  if decide (length s - 1 <> length (sd_BlobInfos sdBlob) - 1)%nat
  then Err (EMsg "number of blobs in stream does not match number of blobs in sd info") else
  decodeInfos (sd_Key sdBlob) (length (sd_BlobInfos sdBlob)) 0 (sd_BlobInfos sdBlob) s [].

Definition Data (order : list Z) (s : list bytes) : result bytes := Decode order s.

(** ** Encode: a stream processed according to a configuration *)

(** [make([]byte, chunkSize)]: a chunk leaves room for the padding. *)
Definition chunkSizeFor (config : StreamConfig) : Z :=
  if 0 <? cf_ChunkSize config then
    (if MaxBlobSize <=? cf_ChunkSize config then maxBlobDataSize else cf_ChunkSize config)
  else maxBlobDataSize.

(** Adopt an existing descriptor: its key (or a new one when it has none) and its
    IVs.  The flag says whether it already lists blobs. *)
Definition adoptSDBlob (order : list Z) (config : StreamConfig) (e : Encoder) : result (Encoder * bool) :=
  match cf_ExistingSDBlob config with
  | [] => Ok (e, false)
  | existing =>
      sdBlob ← wrap_err "failed to parse existing SD blob" (FromBlob order existing);
      let hasInfos := bool_decide (0 < length (sd_BlobInfos sdBlob))%nat in
      '(key, k) ←
        (if decide (length (sd_Key sdBlob) = 0%nat) then
           newKey ← wrap_err "failed to generate new key for existing SD blob" (generateKey (e_rand e));
           Ok (newKey, S (e_rand e))
         else if decide (length (sd_Key sdBlob) <> AES256KeySize)
         then Err (EMsg "existing SD blob has invalid key size: expected %d bytes, got %d bytes")
         else Ok (sd_Key sdBlob, e_rand e));
      let sd := mkSDBlob (sd_StreamName sdBlob) (sd_BlobInfos sdBlob) (sd_StreamType sdBlob) key
                  (sd_SuggestedFileName sdBlob) (sd_StreamHash sdBlob) (sd_profile sdBlob) in
      Ok (mkEncoder (e_src e) (map bi_IV (sd_BlobInfos sdBlob)) (e_srcSizeHint e) (e_bufLen e) sd
            (e_srcLen e) (e_srcHash e) k, hasInfos)
  end.

(** What the chunk loop collects: sizes, hashes, the blobs kept, and the chunks
    handed to the handler. *)
Record chunkLog := mkChunkLog {
  cl_sizes : list Z; cl_hashes : list bytes; cl_blobs : list bytes; cl_calls : list Chunk
}.

Definition emptyLog : chunkLog := mkChunkLog [] [] [] [].

(** The error a failing chunk handler makes of the whole call. *)
Definition chunkHandlerError (er : error) : error :=
  if decide (er = ESent ErrUnexpectedEOF) then er else EWrap "chunk handler failed for chunk %d" er.

Fixpoint chunkLoop (fuel : nat) (config : StreamConfig) (chunkNumber : Z) (e : Encoder) (l : chunkLog)
    : result chunkLog * Encoder :=
  match fuel with
  | O => (Panic "out of fuel", e)
  | S fuel =>
      let '(r, e) := Next e in
      match r with
      | Panic w => (Panic w, e)
      | Err er => if error_is er EOF then (Ok l, e) else (Err er, e)
      | Ok b =>
          let sizes := cl_sizes l ++ [Z.of_nat (length b)] in
          let hashes := cl_hashes l ++ [HashHex b] in
          match cf_ChunkHandler config with
          | Some handler =>
              let chunk := mkChunk chunkNumber (HashHex b) b (Z.of_nat (length b)) [] in
              match handler chunk with
              | Some er => (Err (chunkHandlerError er), e)
              | None =>
                  chunkLoop fuel config (chunkNumber + 1) e
                    (mkChunkLog sizes hashes (cl_blobs l) (cl_calls l ++ [chunk]))
              end
          | None =>
              chunkLoop fuel config (chunkNumber + 1) e
                (mkChunkLog sizes hashes (cl_blobs l ++ [b]) (cl_calls l))
          end
      end
  end.

(** The chunk sizes and hashes of a descriptor that already lists its blobs. *)
Definition existingLog (infos : list BlobInfo) : chunkLog :=
  let content := filter (fun bi => bi_Length bi <> 0) infos in
  mkChunkLog (map bi_Length content)
    (map (fun bi => EncodeToString (bi_BlobHash bi)) (filter (fun bi => bi_BlobHash bi <> []) content))
    [] [].

(** The names of the configuration replace the descriptor's when given. *)
Definition applyNames (config : StreamConfig) (sd : SDBlob) : SDBlob :=
  mkSDBlob (if decide (cf_StreamName config = []) then sd_StreamName sd else cf_StreamName config)
    (sd_BlobInfos sd) (sd_StreamType sd) (sd_Key sd)
    (if decide (cf_SuggestedFileName config = []) then sd_SuggestedFileName sd
     else cf_SuggestedFileName config)
    (sd_StreamHash sd) (sd_profile sd).

(** The end of [Encode]: the descriptor is named, hashed, written and handed over. *)
Definition finishEncode (config : StreamConfig) (e : Encoder) (l : chunkLog) : result StreamResult * Encoder :=
  let e := Encoder_SDBlob (setSd e (applyNames config (e_sd e))) in
  (sdBlobData ← wrap_err "failed to generate SD blob data" (ToBlob (e_sd e));
   (match cf_SDHandler config with
    | Some handler =>
        match handler (e_sd e) sdBlobData with
        | Some er => Err (EWrap "SD handler failed" er)
        | None => Ok tt
        end
    | None => Ok tt
    end) ;;
   blobHash ← wrap_err "failed to compute SD blob hash" (ComputeBlobHash sdBlobData);
   Ok (mkStreamResult (e_sd e) sdBlobData (EncodeToString blobHash)
         (EncodeToString (sd_StreamHash (e_sd e))) (SourceLen e)
         (match cf_ChunkHandler config with None => cl_blobs l | Some _ => [] end)
         (cl_hashes l) (Z.of_nat (length (sd_BlobInfos (e_sd e))) - 1) (cl_sizes l)),
   e).

Definition Encode (order : list Z) (config : option StreamConfig) (e : Encoder)
    : result StreamResult * Encoder :=
  let config := match config with Some c => c | None => emptyConfig end in
  match adoptSDBlob order config e with
  | Err er => (Err er, e)
  | Panic w => (Panic w, e)
  | Ok (e, hasInfos) =>
      let e := mkEncoder (e_src e) (e_ivs e) (e_srcSizeHint e) (chunkSizeFor config) (e_sd e)
                 (e_srcLen e) (e_srcHash e) (e_rand e) in
      if (hasInfos : bool) then finishEncode config e (existingLog (sd_BlobInfos (e_sd e))) else
      let '(r, e) := chunkLoop (S (sourceSize (e_src e))) config 0 e emptyLog in
      match r with
      | Ok l => finishEncode config e l
      | Err er => (Err er, e)
      | Panic w => (Panic w, e)
      end
  end.
End encoder.
