(* ===== verification/EncoderSpec.v ===== *)
(** * Properties of the encoder

    Encoding a source and decoding the stream returns the source; along the way,
    the invariant of the encoder and the shape of the blobs it produces. *)
From stdpp Require Import base tactics list numbers strings.
From Stdlib Require Import ZArith Lia Init.Byte.
From S2P Require Import Prelude GoStd Sha2 Aes Blob Multihash Json SdBlob SdBlobSpec Encoder.
Local Open Scope Z_scope.

#[local] Existing Instance AES.

(** ** Sources *)

(** [r] delivers exactly [data]: no error but a final end of file, which may come
    with the last bytes or after them. *)
Inductive sourceOf : reader -> bytes -> Prop :=
  | src_end : sourceOf [] []
  | src_eof d : sourceOf [mkEvent d (Some (ESent EOF))] d
  | src_more d r rest : sourceOf r rest -> sourceOf (mkEvent d None :: r) (d ++ rest).

Lemma bytesReader_source data : sourceOf (bytesReader data) data.
Proof. unfold bytesReader. rewrite <- (app_nil_r data) at 2. repeat constructor. Qed.

(** What one [Read] with room for [cap] bytes does to a source. *)
Lemma Read_source r data cap :
  0 < cap -> sourceOf r data ->
  exists d er r', Read r cap = (d, er, r') /\ Z.of_nat (length d) <= cap
    /\ (sourceSize r' <= sourceSize r)%nat
    /\ ((d <> [] /\ exists rest, data = d ++ rest /\ sourceOf r' rest
                    /\ (sourceSize r' < sourceSize r)%nat)
        \/ (d = [] /\ er = None /\ sourceOf r' data /\ (length r' < length r)%nat)
        \/ (d = [] /\ er = Some (ESent EOF) /\ data = [])).
Proof.
  intros Hc Hs. destruct Hs as [|d|d r rest Hs]; cbn [Read ev_data ev_err].
  - eexists _, _, _. split; [done|]. simpl. split_and!; [lia|lia|]. right. right. done.
  - destruct (Z.leb_spec (Z.of_nat (length d)) cap).
    + eexists _, _, _. split; [done|]. split_and!; [done|simpl; lia|].
      destruct d as [|c d]; [right; right; done|left]. split; [done|]. exists [].
      rewrite app_nil_r. split_and!; [done|constructor|simpl; lia].
    + eexists _, _, _. split; [done|]. rewrite length_take.
      assert (0 < Z.to_nat cap < length d)%nat by lia.
      split_and!; [lia|simpl; rewrite length_drop; lia|].
      left. split; [intros E; apply (f_equal length) in E; rewrite length_take in E; simpl in E; lia|].
      exists (drop (Z.to_nat cap) d). split_and!; [by rewrite take_drop|constructor|simpl; rewrite length_drop; lia].
  - destruct (Z.leb_spec (Z.of_nat (length d)) cap).
    + eexists _, _, _. split; [done|]. split_and!; [done|simpl; lia|].
      destruct d as [|c d]; [right; left; split_and!; [done|done|done|simpl; lia]|left].
      split; [done|]. exists rest. split_and!; [done|done|simpl; lia].
    + eexists _, _, _. split; [done|]. rewrite length_take.
      assert (0 < Z.to_nat cap < length d)%nat by lia.
      split_and!; [lia|simpl; rewrite length_drop; lia|].
      left. split; [intros E; apply (f_equal length) in E; rewrite length_take in E; simpl in E; lia|].
      exists (drop (Z.to_nat cap) d ++ rest).
      split_and!; [by rewrite app_assoc, take_drop|by constructor|simpl; rewrite length_drop; lia].
Qed.

(** The pieces [Next] reads from a source with a buffer of [cap] bytes. *)
Inductive chunked (cap : Z) : reader -> list bytes -> Prop :=
  | ck_end r er r' : Read r cap = ([], Some er, r') -> chunked cap r []
  | ck_skip r r' ds : Read r cap = ([], None, r') -> chunked cap r' ds -> chunked cap r ds
  | ck_data r d er r' ds :
      Read r cap = (d, er, r') -> d <> [] -> chunked cap r' ds -> chunked cap r (d :: ds).

Lemma chunked_det cap r ds ds' : chunked cap r ds -> chunked cap r ds' -> ds = ds'.
Proof.
  intros H. revert ds'. induction H; intros ds' H'; inversion H'; subst; try congruence.
  - apply IHchunked. congruence.
  - f_equal; [congruence|]. apply IHchunked. congruence.
Qed.

(** ** What the encoder has produced *)

(** A content blob with the bytes it encrypts and the IV it was encrypted with. *)
Record entry := mkEntry { en_data : bytes; en_iv : bytes; en_blob : bytes }.

Definition goodEntry (key : bytes) (en : entry) : Prop :=
  NewBlob (en_data en) key (en_iv en) = Ok (en_blob en)
  /\ Z.of_nat (length (en_data en)) < MaxBlobSize.

Definition infoOf (i : nat) (b iv : bytes) : BlobInfo :=
  mkBlobInfo (Z.of_nat (length b)) (Z.of_nat i) (BlobHash b) iv 0.

Definition entryInfos (ens : list entry) : list BlobInfo :=
  imap (fun i en => infoOf i (en_blob en) (en_iv en)) ens.

Definition entryData (ens : list entry) : bytes := concat (map en_data ens).

Lemma entryInfos_snoc ens en :
  entryInfos (ens ++ [en]) = entryInfos ens ++ [infoOf (length ens) (en_blob en) (en_iv en)].
Proof. unfold entryInfos. rewrite imap_app. simpl. by rewrite Nat.add_0_r. Qed.

Lemma length_entryInfos ens : length (entryInfos ens) = length ens.
Proof. apply length_imap. Qed.

Lemma goodEntry_blob key en :
  goodEntry key en -> en_data en <> [] /\ (16 <= length (en_blob en))%nat
    /\ ValidForSend (en_blob en) = Ok tt /\ Plaintext (en_blob en) key (en_iv en) = Ok (en_data en).
Proof.
  intros [H Hl]. pose proof (NewBlob_AES_length _ _ _ _ H) as E.
  pose proof (NewBlob_inv _ _ _ _ H) as He.
  destruct (NewBlob_Ok (C := AES) ltac:(simpl; lia) _ _ _ He) as (b & Hb & _ & Hp).
  rewrite H in Hb. injection Hb as <-. split_and!; [apply He|lia| |done].
  eapply NewBlob_fits; [exact Hl|exact H].
Qed.

(** A descriptor with other blob infos. *)
Definition setInfos (sd : SDBlob) (infos : list BlobInfo) : SDBlob :=
  mkSDBlob (sd_StreamName sd) infos (sd_StreamType sd) (sd_Key sd) (sd_SuggestedFileName sd)
    (sd_StreamHash sd) (sd_profile sd).

(** The invariant of an encoder that has turned [ens] into blobs: the descriptor
    lists them, the source hash and length account for their data, and the
    remaining preset IVs and the buffer can be used.  The preset IVs [ivs0] are
    used first, in order. *)
Record encInv (sd0 : SDBlob) (ivs0 : list bytes) (ens : list entry) (e : Encoder) : Prop := {
  ei_sd : e_sd e = setInfos sd0 (entryInfos ens);
  ei_good : Forall (goodEntry (sd_Key sd0)) ens;
  ei_hash : e_srcHash e = entryData ens;
  ei_len : e_srcLen e = int64 (Z.of_nat (length (entryData ens)));
  ei_key : validKeyLength (sd_Key sd0) = true;
  ei_ivs : Forall (fun iv => length iv = 16%nat) (e_ivs e);
  ei_buf : 0 < e_bufLen e < MaxBlobSize;
  ei_pre : ivs0 `prefix_of` map en_iv ens ++ e_ivs e
}.

Section spec.
Context {R : Rand} {RL : RandLaws R} {RT : RandTotal R}.

Lemma nextIV_ok e :
  Forall (fun iv => length iv = 16%nat) (e_ivs e) ->
  exists iv ivs k, length iv = 16%nat /\ Forall (fun iv => length iv = 16%nat) ivs
    /\ nextIV e = (Ok iv, mkEncoder (e_src e) ivs (e_srcSizeHint e) (e_bufLen e) (e_sd e) (e_srcLen e)
                           (e_srcHash e) k)
    /\ (forall ivs0 l, ivs0 `prefix_of` l ++ e_ivs e -> ivs0 `prefix_of` (l ++ [iv]) ++ ivs).
Proof.
  intros H. unfold nextIV. destruct (e_ivs e) as [|iv ivs].
  - unfold randIV, generateRandomBytes. change (16 <=? 0) with false. change (Z.to_nat 16) with 16%nat.
    destruct (rand_total (e_rand e) 16) as [b Hb]. rewrite Hb. simpl.
    eexists _, _, _. split_and!; [by eapply rand_length|done|done|].
    intros ivs0 l Hp. rewrite app_nil_r in *. by apply prefix_app_r.
  - apply Forall_cons in H as [? ?]. eexists _, _, _. split_and!; [done|done|done|].
    intros ivs0 l Hp. by rewrite <- app_assoc.
Qed.

Lemma entryData_snoc ens en : entryData (ens ++ [en]) = entryData ens ++ en_data en.
Proof. unfold entryData. rewrite map_app, concat_app. simpl. by rewrite app_nil_r. Qed.

(** One chunk: it is encrypted and recorded, and the invariant is kept. *)
Lemma encodeChunk_ok sd0 ivs0 ens e data :
  encInv sd0 ivs0 ens e -> data <> [] -> Z.of_nat (length data) <= e_bufLen e ->
  exists iv b e', encodeChunk e data = (Ok b, e')
    /\ encInv sd0 ivs0 (ens ++ [mkEntry data iv b]) e' /\ e_src e' = e_src e
    /\ e_bufLen e' = e_bufLen e.
Proof.
  intros [Hsd Hg Hh Hl Hk Hi Hb Hp] Hd Hn. unfold encodeChunk. set (e1 := mkEncoder _ _ _ _ _ _ _ _).
  destruct (nextIV_ok e1) as (iv & ivs & k & Hiv & Hivs & -> & Hpre); [done|].
  cbn [e1 e_src e_srcSizeHint e_bufLen e_sd e_srcLen e_srcHash]. rewrite Hsd. cbn [setInfos sd_Key].
  destruct (NewBlob_Ok (C := AES) ltac:(simpl; lia) data (sd_Key sd0) iv
              (aes_encryptable data (sd_Key sd0) iv Hd Hk Hiv)) as (b & Eb & _).
  rewrite Eb. unfold addToSd, addBlob. cbn [e_sd]. rewrite decide_False by lia.
  cbn [mbind result_bind]. exists iv, b. eexists. split_and!; [done| |done|done].
  split; cbn [e_sd setSd e_srcHash e_srcLen e_ivs e_bufLen]; try done.
  - unfold setInfos. cbn [sd_StreamName sd_BlobInfos sd_StreamType sd_Key sd_SuggestedFileName
      sd_StreamHash sd_profile]. f_equal. rewrite entryInfos_snoc. unfold infoOf.
    by rewrite length_entryInfos.
  - apply Forall_app; split; [done|]. constructor; [|constructor]. split; [done|simpl; lia].
  - by rewrite entryData_snoc, Hh.
  - rewrite entryData_snoc, length_app, Hl, int64_add_mod. f_equal. simpl. lia.
  - rewrite map_app. by apply Hpre.
Qed.

(** The state after the end of the source: the terminating blob is recorded. *)
Record encDone (sd0 : SDBlob) (ivs0 : list bytes) (ens : list entry) (e : Encoder) : Prop := {
  ed_sd : exists iv, length iv = 16%nat /\ ivs0 `prefix_of` (map en_iv ens ++ [iv]) ++ e_ivs e
            /\ e_sd e = setInfos sd0 (entryInfos ens ++ [infoOf (length ens) [] iv]);
  ed_good : Forall (goodEntry (sd_Key sd0)) ens;
  ed_hash : e_srcHash e = entryData ens;
  ed_len : e_srcLen e = int64 (Z.of_nat (length (entryData ens)))
}.

Lemma isTerminated_inv sd0 ivs0 ens e : encInv sd0 ivs0 ens e -> isTerminated e = false.
Proof.
  intros [Hsd Hg _ _ _ _ _ _]. unfold isTerminated. rewrite Hsd. simpl.
  destruct ens as [|en ens _] using rev_ind; [done|].
  rewrite entryInfos_snoc, last_snoc. apply Forall_app in Hg as [_ Hg].
  apply Forall_cons in Hg as [(_ & Hl & _)%goodEntry_blob _]. simpl. lia.
Qed.

Lemma ensureTerminated_ok sd0 ivs0 ens e :
  encInv sd0 ivs0 ens e -> exists e', ensureTerminated e = (Ok tt, e') /\ encDone sd0 ivs0 ens e'.
Proof.
  intros He. unfold ensureTerminated. rewrite (isTerminated_inv sd0 ivs0 ens) by done.
  destruct He as [Hsd Hg Hh Hl Hk Hi Hb Hp].
  destruct (nextIV_ok e) as (iv & ivs & k & Hiv & Hivs & -> & Hpre); [done|].
  unfold addToSd, addBlob. cbn [e_sd]. rewrite decide_False by lia. eexists. split; [done|].
  split; [|done..]. exists iv. split_and!; [done|by apply Hpre|]. cbn [e_sd setSd]. rewrite Hsd.
  unfold setInfos. cbn [sd_StreamName sd_BlobInfos sd_StreamType sd_Key sd_SuggestedFileName
    sd_StreamHash sd_profile]. do 2 f_equal. unfold infoOf. by rewrite length_entryInfos.
Qed.

(** One call of [Next]: a blob for a non-empty prefix of the source, or the end. *)
Lemma nextLoop_ok sd0 ivs0 ens fuel e data :
  encInv sd0 ivs0 ens e -> sourceOf (e_src e) data -> (length (e_src e) < fuel)%nat ->
  (exists d rest iv b e', data = d ++ rest /\ d <> [] /\ nextLoop fuel e = (Ok b, e')
     /\ encInv sd0 ivs0 (ens ++ [mkEntry d iv b]) e' /\ sourceOf (e_src e') rest
     /\ Z.of_nat (length d) <= e_bufLen e /\ e_bufLen e' = e_bufLen e
     /\ (sourceSize (e_src e') < sourceSize (e_src e))%nat
     /\ (forall ds, chunked (e_bufLen e) (e_src e') ds -> chunked (e_bufLen e) (e_src e) (d :: ds)))
  \/ (data = [] /\ chunked (e_bufLen e) (e_src e) [] /\ exists e', nextLoop fuel e = (Err (ESent EOF), e') /\ encDone sd0 ivs0 ens e').
Proof.
  revert e. induction fuel as [|fuel IH]; intros e He Hs Hf; [lia|].
  destruct (Read_source (e_src e) data (e_bufLen e) ltac:(apply He) Hs)
    as (d & er & src & Hr & Hcap & Hsz & Hcases). cbn [nextLoop]. rewrite Hr.
  set (e1 := mkEncoder src _ _ _ _ _ _ _).
  assert (encInv sd0 ivs0 ens e1) as He1 by (destruct He; by split).
  destruct Hcases as [(Hd & rest & -> & Hsrc & Hlt)|[(-> & -> & Hsrc & Hlt)|(-> & -> & ->)]].
  - rewrite decide_True by done.
    destruct (encodeChunk_ok sd0 ivs0 ens e1 d He1 Hd Hcap) as (iv & b & e' & -> & He' & Esrc & Ebuf).
    left. exists d, rest, iv, b, e'. rewrite Esrc, Ebuf. split_and!; try done.
    intros ds Hds. by eapply ck_data.
  - rewrite decide_False by auto.
    destruct (IH e1 He1 Hsrc ltac:(cbn [e1 e_src]; lia))
      as [(d & rest & iv & b & e' & -> & Hd & E & Hinv & Hs' & Hn & Hb & Hlt' & Hck)|(-> & Hck & e' & E & Hinv)].
    + left. exists d, rest, iv, b, e'. cbn [e1 e_src e_bufLen] in *.
      split_and!; [done|done|done|done|done|done|done|lia|].
      intros ds Hds. eapply ck_skip; [exact Hr|]. by apply Hck.
    + right. split_and!; [done|by eapply ck_skip|eauto].
  - rewrite decide_False by auto. change (error_is (ESent EOF) EOF) with true. cbv iota.
    destruct (ensureTerminated_ok sd0 ivs0 ens e1 He1) as (e' & -> & Hd). right.
    split_and!; [done|by eapply ck_end|eauto].
Qed.

(** All the chunks of a source. *)
Lemma nextAll_ok sd0 ivs0 fuel ens e acc data :
  encInv sd0 ivs0 ens e -> sourceOf (e_src e) data -> (sourceSize (e_src e) < fuel)%nat ->
  exists ens' e', nextAll fuel e acc = (Ok (acc ++ map en_blob ens'), e')
    /\ encDone sd0 ivs0 (ens ++ ens') e' /\ entryData ens' = data
    /\ Forall (fun en => Z.of_nat (length (en_data en)) <= e_bufLen e) ens'
    /\ chunked (e_bufLen e) (e_src e) (map en_data ens').
Proof.
  revert ens e acc data. induction fuel as [|fuel IH]; intros ens e acc data He Hs Hf; [lia|].
  cbn [nextAll]. unfold Next.
  destruct (nextLoop_ok sd0 ivs0 ens (S (length (e_src e))) e data He Hs ltac:(lia))
    as [(d & rest & iv & b & e' & -> & Hd & -> & Hinv & Hs' & Hn & Hb & Hlt & Hck)|(-> & Hck & e' & -> & Hinv)].
  - destruct (IH _ e' (acc ++ [b]) rest Hinv Hs' ltac:(lia)) as (ens' & e'' & -> & Hdone & Hdata & Hle & Hcs).
    exists (mkEntry d iv b :: ens'), e''. simpl. rewrite <- app_assoc in Hdone. rewrite <- app_assoc.
    rewrite Hb in Hle, Hcs. split_and!; [done|done| |by constructor|by apply Hck].
    unfold entryData in *. simpl. by rewrite Hdata.
  - change (error_is (ESent EOF) EOF) with true. cbv iota. exists [], e'.
    rewrite !app_nil_r. done.
Qed.

Lemma entries_bound ens key : Forall (goodEntry key) ens -> (length ens <= length (entryData ens))%nat.
Proof.
  induction 1 as [|en ens Hen _ IH]; [done|]. unfold entryData in *. simpl. rewrite length_app.
  apply goodEntry_blob in Hen as (Hd & _). destruct (en_data en); [done|]. simpl. lia.
Qed.

(** ** Decoding what was encoded *)

(** The infos of blobs numbered from [i], with their profile field set. *)
Fixpoint infosFrom (i : nat) (p : Z) (ens : list entry) : list BlobInfo :=
  match ens with
  | [] => []
  | en :: ens' =>
      mkBlobInfo (Z.of_nat (length (en_blob en))) (Z.of_nat i) (BlobHash (en_blob en)) (en_iv en) p
        :: infosFrom (S i) p ens'
  end.

Definition withProfile (p : Z) (bi : BlobInfo) : BlobInfo :=
  mkBlobInfo (bi_Length bi) (bi_BlobNum bi) (bi_BlobHash bi) (bi_IV bi) p.

Lemma infosFrom_imap i p ens :
  map (withProfile p) (imap (fun k en => infoOf (i + k) (en_blob en) (en_iv en)) ens) = infosFrom i p ens.
Proof.
  revert i. induction ens as [|en ens IH]; intros i; [done|]. simpl. rewrite Nat.add_0_r. f_equal.
  rewrite <- IH. f_equal. apply imap_ext. intros k x _. simpl. f_equal. lia.
Qed.

Lemma decodeInfos_ok key p total i ens iv s file :
  Forall (goodEntry key) ens -> (i + length ens + 1 = total)%nat ->
  (forall k en, ens !! k = Some en -> s !! S (i + k)%nat = Some (en_blob en)) ->
  decodeInfos key total i (infosFrom i p ens ++ [mkBlobInfo 0 (Z.of_nat (i + length ens)) [] iv p]) s file
  = Ok (file ++ entryData ens).
Proof.
  intros Hg. revert i file. induction Hg as [|en ens Hen _ IH]; intros i file Ht Hs.
  - simpl. rewrite decide_False by (simpl in Ht; lia). unfold entryData. simpl. by rewrite app_nil_r.
  - destruct (goodEntry_blob _ _ Hen) as (_ & Hl & _ & Hp). cbn [infosFrom app decodeInfos].
    cbn [bi_Length bi_BlobNum bi_BlobHash bi_IV]. rewrite (proj2 (Z.eqb_neq _ _)) by lia.
    rewrite Z.eqb_refl. cbn [negb].
    specialize (Hs 0%nat en eq_refl) as H0. rewrite Nat.add_0_r in H0.
    rewrite (proj2 (index_Ok s (S i) (en_blob en)) H0). cbn [mbind result_bind].
    rewrite decide_False by naive_solver. rewrite Hp. cbn [mbind result_bind].
    replace (i + length (en :: ens))%nat with (S i + length ens)%nat by (simpl; lia).
    rewrite IH.
    + unfold entryData. simpl. by rewrite app_assoc.
    + simpl in Ht. lia.
    + intros k en' Hk. replace (S i + k)%nat with (i + S k)%nat by lia. by apply Hs.
Qed.

Lemma computeStreamHash_profile s p : computeStreamHash (SetProfile s p) = computeStreamHash s.
Proof.
  unfold computeStreamHash, streamHash. simpl. do 5 f_equal. rewrite map_map. by f_equal.
Qed.

Lemma entryInfos_wf ens key :
  Forall (goodEntry key) ens -> Z.of_nat (length ens) < 2 ^ 63 -> Forall wfInfo (entryInfos ens).
Proof.
  intros Hg Hl. apply Forall_lookup. intros i bi Hi. unfold entryInfos in Hi.
  rewrite list_lookup_imap in Hi. destruct (ens !! i) as [en|] eqn:En; [|done].
  simpl in Hi. injection Hi as <-. pose proof (lookup_lt_Some _ _ _ En).
  eapply Forall_lookup_1 in Hg; [|exact En]. apply goodEntry_blob in Hg as (_ & _ & Hv & _).
  unfold ValidForSend, Size in Hv. case_match eqn:Hm; [done|].
  unfold wfInfo, in_int64, infoOf. simpl. unfold MaxBlobSize in *. lia.
Qed.

(** The descriptor the encoder ends with can be serialised without loss. *)
Lemma done_wf sd0 ens iv :
  Forall plainChar (sd_StreamType sd0) -> Forall (goodEntry (sd_Key sd0)) ens ->
  Z.of_nat (length (entryData ens)) < 2 ^ 63 - 1 ->
  wfSD (UpdateStreamHash (setInfos sd0 (entryInfos ens ++ [infoOf (length ens) [] iv]))).
Proof.
  intros Ht Hg Hl. pose proof (entries_bound ens _ Hg). split; [|done]. simpl.
  apply Forall_app; split; [by eapply entryInfos_wf; [|lia]|].
  constructor; [|constructor]. unfold wfInfo, in_int64. simpl. lia.
Qed.

Context {OJ : OrderedJson} {OL : OrderedJsonLaws OJ}.

(** Any stream made of a descriptor and the blobs it lists decodes to their data. *)
Lemma Decode_ok order sd0 ens iv text :
  registryOrder order -> Forall plainChar (sd_StreamType sd0) ->
  Forall (goodEntry (sd_Key sd0)) ens -> ens <> [] ->
  Z.of_nat (length (entryData ens)) < 2 ^ 63 - 1 ->
  ToBlob (UpdateStreamHash (setInfos sd0 (entryInfos ens ++ [infoOf (length ens) [] iv]))) = Ok text ->
  Decode order (text :: map en_blob ens) = Ok (entryData ens).
Proof.
  intros Ho Ht Hg Hne Hl Htext. pose proof (done_wf sd0 ens iv Ht Hg Hl) as Hw.
  pose proof (FromBlob_ToBlob order _ Ho Hw) as Hf. rewrite Htext in Hf. cbn [mbind result_bind] in Hf.
  set (sd := UpdateStreamHash _) in *. unfold Decode.
  assert (1 <= length ens)%nat as Hpos by (clear - Hne; destruct ens; [done|simpl; lia]).
  rewrite decide_False by (rewrite length_cons, length_map; lia). cbn [index lookup list_lookup mbind result_bind].
  rewrite Hf. cbn [mbind result_bind]. set (p := writtenProfile sd).
  assert (SDBlob_IsValid (SetProfile sd p) = true) as ->.
  { unfold SDBlob_IsValid. rewrite computeStreamHash_profile. by apply bool_decide_eq_true. }
  assert (sd_BlobInfos (SetProfile sd p)
          = infosFrom 0 p ens ++ [mkBlobInfo 0 (Z.of_nat (0 + length ens)) [] iv p]) as ->.
  { change (sd_BlobInfos (SetProfile sd p))
      with (map (withProfile p) (entryInfos ens ++ [infoOf (length ens) [] iv])).
    rewrite map_app. f_equal. apply (infosFrom_imap 0). }
  cbn [negb]. rewrite last_snoc. cbn [mbind result_bind bi_Length]. change (negb (0 =? 0)) with false.
  assert (length (infosFrom 0 p ens) = length ens) as Hlen
    by (rewrite <- (infosFrom_imap 0 p), length_map; apply length_imap).
  cbv iota. rewrite length_app, Hlen, length_cons, length_map. cbn [length].
  rewrite decide_False by lia.
  change (sd_Key (SetProfile sd p)) with (sd_Key sd0).
  rewrite decodeInfos_ok; [done|done|lia|].
  intros k en Hk. simpl. rewrite list_lookup_fmap. by rewrite Hk.
Qed.

(** The descriptor of a finished stream. *)
Definition finalSD (sd0 : SDBlob) (ens : list entry) (iv : bytes) : SDBlob :=
  UpdateStreamHash (setInfos sd0 (entryInfos ens ++ [infoOf (length ens) [] iv])).

(** A finished run of [Stream] on a source of [data]. *)
Record streamRun (sd0 : SDBlob) (ivs0 : list bytes) (e : Encoder) (data : bytes)
    (ens : list entry) (iv text : bytes) (e' : Encoder) : Prop := {
  run_stream : Encoder_Stream e = (Ok (text :: map en_blob ens), e');
  run_text : ToBlob (finalSD sd0 ens iv) = Ok text;
  run_sd : e_sd e' = finalSD sd0 ens iv;
  run_good : Forall (goodEntry (sd_Key sd0)) ens;
  run_data : entryData ens = data;
  run_iv : length iv = 16%nat;
  run_pre : exists rest, ivs0 `prefix_of` (map en_iv ens ++ [iv]) ++ rest;
  run_chunks : chunked (e_bufLen e) (e_src e) (map en_data ens);
  run_len : e_srcLen e' = int64 (Z.of_nat (length data));
  run_hash : e_srcHash e' = data
}.

Lemma Stream_ok sd0 ivs0 e data :
  encInv sd0 ivs0 [] e -> sourceOf (e_src e) data -> Forall plainChar (sd_StreamType sd0) ->
  Z.of_nat (length data) < 2 ^ 63 - 1 -> - maxBlobDataSize < e_srcSizeHint e ->
  exists ens iv text e', streamRun sd0 ivs0 e data ens iv text e'.
Proof.
  intros He Hs Ht Hl Hh.
  destruct (nextAll_ok sd0 ivs0 (S (sourceSize (e_src e))) [] e [] data He Hs (Nat.lt_succ_diag_r _))
    as (ens & e' & Hn & [(iv & Hiv & Hpre & Hsd) Hg Hhash Hlen] & Hdata & _ & Hck).
  rewrite app_nil_l in *.
  assert (wfSD (finalSD sd0 ens iv)) as Hw by (apply done_wf; [done|done|by rewrite Hdata]).
  exists ens, iv, (print [x20] [x20] (sdDoc (finalSD sd0 ens iv))), (Encoder_SDBlob e').
  split; try done.
  - unfold Encoder_Stream. rewrite (proj2 (Z.leb_gt _ _)) by lia. rewrite Hn.
    unfold Encoder_SDBlob. cbn [e_sd setSd]. rewrite Hsd. fold (finalSD sd0 ens iv).
    by rewrite ToBlob_text.
  - by apply ToBlob_text.
  - unfold Encoder_SDBlob. cbn [e_sd setSd]. by rewrite Hsd.
  - by exists (e_ivs e').
  - unfold Encoder_SDBlob. cbn [e_srcLen setSd]. by rewrite Hlen, Hdata.
  - unfold Encoder_SDBlob. cbn [e_srcHash setSd]. by rewrite Hhash, Hdata.
Qed.

Definition plainType : Forall plainChar StreamTypeLBRYFile :=
  bool_decide_eq_true_1 (Forall plainChar StreamTypeLBRYFile) eq_refl.

(** The encoder a constructor returns satisfies the invariant. *)
Lemma newEncoder_inv src key ivs k :
  length key = AES256KeySize \/ length key = AES128KeySize ->
  Forall (fun iv => length iv = 16%nat) ivs ->
  let sd0 := mkSDBlob [] [] StreamTypeLBRYFile key [] [] 0 in
  let e := mkEncoder src ivs 0 maxBlobDataSize sd0 0 [] k in
  NewEncoderWithIVs src key ivs k = Ok e /\ encInv sd0 ivs [] e.
Proof.
  intros Hk Hivs sd0 e. split.
  - unfold NewEncoderWithIVs. by rewrite decide_False by naive_solver.
  - split; try done. unfold validKeyLength. apply bool_decide_eq_true. simpl. naive_solver.
Qed.

(** C1. The stream round trip: from any source that delivers [data] in whatever
    pieces, encoded with a key of 16 or 32 bytes and preset IVs of one block, the
    encoder produces a stream: a descriptor followed by content blobs that are
    all valid to send; its source hash and length are those of the data; and
    decoding the stream returns exactly the data (an empty source gives a
    descriptor alone, which the decoder refuses). *)
Theorem stream_roundtrip order src data key ivs k
    (Ho : registryOrder order) (Hs : sourceOf src data)
    (Hk : length key = AES256KeySize \/ length key = AES128KeySize)
    (Hivs : Forall (fun iv => length iv = 16%nat) ivs)
    (Hl : Z.of_nat (length data) < 2 ^ 63 - 1) :
  exists e sdText blobs e',
    NewEncoderWithIVs src key ivs k = Ok e
    /\ Encoder_Stream e = (Ok (sdText :: blobs), e')
    /\ Forall (fun b => ValidForSend b = Ok tt) blobs
    /\ SourceLen e' = Z.of_nat (length data) /\ SourceHash e' = sha512_Sum384 data
    /\ Decode order (sdText :: blobs)
       = if decide (data = []) then Err (EMsg "stream must be at least 2 blobs long") else Ok data.
Proof.
  destruct (newEncoder_inv src key ivs k Hk Hivs) as [Hnew He].
  destruct (Stream_ok _ _ _ data He Hs plainType Hl) as (ens & iv & text & e' & Hrun); [done|].
  destruct Hrun as [Hst Htext _ Hg Hdata Hiv _ _ Hlen Hhash].
  eexists _, text, (map en_blob ens), e'. split_and!; [exact Hnew|done| | | |].
  - apply Forall_map. eapply Forall_impl; [exact Hg|]. intros en Hen.
    by destruct (goodEntry_blob _ _ Hen) as (_ & _ & ? & _).
  - unfold SourceLen. rewrite Hlen. apply int64_id. unfold in_int64. lia.
  - unfold SourceHash. by rewrite Hhash.
  - case_decide as Hd.
    + destruct ens as [|en ens]; [done|]. exfalso. pose proof (entries_bound _ _ Hg) as Hb.
      rewrite Hdata, Hd in Hb. simpl in Hb. lia.
    + rewrite <- Hdata in *.
      apply (Decode_ok order (mkSDBlob [] [] StreamTypeLBRYFile key [] [] 0) ens iv);
        [done|exact plainType|done| |done|exact Htext].
      intros ->. by destruct Hd.
Qed.

(** *** Reconstruction *)

(** Entries are determined by their data and their IVs. *)
Lemma entries_det key ens1 ens2 :
  Forall (goodEntry key) ens1 -> Forall (goodEntry key) ens2 ->
  map en_data ens1 = map en_data ens2 -> map en_iv ens1 = map en_iv ens2 -> ens1 = ens2.
Proof.
  intros H1. revert ens2. induction H1 as [|[d1 iv1 b1] ens1 [Hb1 _] _ IH];
    intros [|[d2 iv2 b2] ens2] H2 Ed Ei; try done.
  apply Forall_cons in H2 as [[Hb2 _] H2]. simpl in *. injection Ed as -> Ed. injection Ei as -> Ei.
  rewrite (IH ens2) by done. do 2 f_equal. congruence.
Qed.

Lemma finalSD_ivs sd0 ens iv p :
  map bi_IV (sd_BlobInfos (SetProfile (finalSD sd0 ens iv) p)) = map en_iv ens ++ [iv].
Proof.
  simpl. rewrite map_map. simpl. rewrite map_app. simpl. f_equal. unfold entryInfos.
  apply list_eq. intros i. rewrite !list_lookup_fmap, list_lookup_imap. by destruct (ens !! i).
Qed.

(** Reconstruction: encoding the same source again with the key, IVs and names of
    the descriptor found in the stream (and whatever randomness) gives the very
    same stream, blob for blob. *)
Theorem stream_reconstruct order src data key ivs k k'
    (Ho : registryOrder order) (Hs : sourceOf src data)
    (Hk : length key = AES256KeySize \/ length key = AES128KeySize)
    (Hivs : Forall (fun iv => length iv = 16%nat) ivs)
    (Hl : Z.of_nat (length data) < 2 ^ 63 - 1) :
  exists e sdText blobs sd e2,
    NewEncoderWithIVs src key ivs k = Ok e
    /\ (Encoder_Stream e).1 = Ok (sdText :: blobs)
    /\ FromBlob order sdText = Ok sd
    /\ NewEncoderFromSD src sd k' = Ok e2
    /\ (Encoder_Stream e2).1 = Ok (sdText :: blobs).
Proof.
  destruct (newEncoder_inv src key ivs k Hk Hivs) as [Hnew He]. set (sd0 := mkSDBlob _ _ _ _ _ _ _) in He.
  destruct (Stream_ok _ _ _ data He Hs plainType Hl) as (ens & iv & text & e' & Hrun); [done|].
  destruct Hrun as [Hst Htext _ Hg Hd Hiv _ Hck _ _].
  assert (wfSD (finalSD sd0 ens iv)) as Hw by (apply done_wf; [exact plainType|done|by rewrite Hd]).
  pose proof (FromBlob_ToBlob order _ Ho Hw) as Hf. rewrite Htext in Hf. cbn [mbind result_bind] in Hf.
  set (sd := SetProfile _ _) in Hf.
  assert (Forall (fun iv => length iv = 16%nat) (map bi_IV (sd_BlobInfos sd))) as Hivs2.
  { unfold sd. rewrite finalSD_ivs. apply Forall_app; split; [|by repeat constructor].
    apply Forall_map. eapply Forall_impl; [exact Hg|]. intros en [(_ & _ & _ & ?)%NewBlob_inv _]. done. }
  destruct (newEncoder_inv src key _ k' Hk Hivs2) as [Hnew2 He2]. fold sd0 in He2.
  destruct (Stream_ok _ _ _ data He2 Hs plainType Hl) as (ens2 & iv2 & text2 & e2' & Hrun2); [done|].
  destruct Hrun2 as [Hst2 Htext2 _ Hg2 _ _ [rest Hpre2] Hck2 _ _].
  assert (map en_data ens2 = map en_data ens) as Ed by (eapply chunked_det; [exact Hck2|exact Hck]).
  assert (map en_iv ens ++ [iv] = map en_iv ens2 ++ [iv2]) as Ei.
  { unfold sd in Hpre2. rewrite finalSD_ivs in Hpre2. destruct Hpre2 as [x Hx].
    apply app_inj_1 in Hx as [Hx _]; [done|]. rewrite !length_app, !length_map. simpl.
    apply (f_equal length) in Ed. rewrite !length_map in Ed. lia. }
  apply app_inj_2 in Ei as [Ei Eiv]; [|done]. injection Eiv as <-.
  assert (ens2 = ens) as -> by (eapply entries_det; [exact Hg2|exact Hg|done|done]).
  eexists _, text, (map en_blob ens), sd, _. split_and!; [exact Hnew|exact (f_equal fst Hst)|done| |].
  - unfold NewEncoderFromSD. change (sd_Key sd) with key. rewrite Hnew2. reflexivity.
  - change (setSd _ _) with (mkEncoder src (map bi_IV (sd_BlobInfos sd)) 0 maxBlobDataSize sd0 0 [] k').
    rewrite Hst2. simpl. congruence.
Qed.
(** *** Encode *)

(** A configuration whose chunk handler, if any, accepts every chunk. *)
Definition handlerAccepts (config : StreamConfig) : Prop :=
  match cf_ChunkHandler config with Some h => forall c, h c = None | None => True end.

(** The log of the chunk loop after the blobs [bs], numbered from [n]. *)
Fixpoint chunksFrom (n : Z) (bs : list bytes) : list Chunk :=
  match bs with
  | [] => []
  | b :: bs' => mkChunk n (HashHex b) b (Z.of_nat (length b)) [] :: chunksFrom (n + 1) bs'
  end.

Definition logAfter (config : StreamConfig) (n : Z) (bs : list bytes) (l : chunkLog) : chunkLog :=
  mkChunkLog (cl_sizes l ++ map (fun b => Z.of_nat (length b)) bs) (cl_hashes l ++ map HashHex bs)
    (cl_blobs l ++ match cf_ChunkHandler config with None => bs | Some _ => [] end)
    (cl_calls l ++ match cf_ChunkHandler config with None => [] | Some _ => chunksFrom n bs end).

Lemma chunkLoop_ok config sd0 ivs0 fuel ens n e l data :
  handlerAccepts config ->
  encInv sd0 ivs0 ens e -> sourceOf (e_src e) data -> (sourceSize (e_src e) < fuel)%nat ->
  exists ens' e', chunkLoop fuel config n e l = (Ok (logAfter config n (map en_blob ens') l), e')
    /\ encDone sd0 ivs0 (ens ++ ens') e' /\ entryData ens' = data
    /\ Forall (fun en => Z.of_nat (length (en_data en)) <= e_bufLen e) ens'.
Proof.
  intros Hacc. revert ens n e l data. induction fuel as [|fuel IH]; intros ens n e l data He Hs Hf; [lia|].
  cbn [chunkLoop]. unfold Next.
  destruct (nextLoop_ok sd0 ivs0 ens (S (length (e_src e))) e data He Hs ltac:(lia))
    as [(d & rest & iv & b & e' & -> & Hd & -> & Hinv & Hs' & Hn & Hb & Hlt & Hck)|(-> & Hck & e' & -> & Hinv)].
  - unfold handlerAccepts in Hacc. unfold logAfter in *. destruct (cf_ChunkHandler config) as [h|] eqn:Eh;
      [rewrite Hacc|];
      (match goal with |- context [chunkLoop fuel config (n + 1) e' ?l'] =>
         destruct (IH _ (n + 1) e' l' rest Hinv Hs' ltac:(lia)) as (ens' & e'' & -> & Hdone & Hdata & Hle) end;
       exists (mkEntry d iv b :: ens'), e''; rewrite <- app_assoc in Hdone; rewrite Hb in Hle;
       split_and!; [|done|unfold entryData in *; simpl; by rewrite Hdata|by constructor];
       cbn [cl_sizes cl_hashes cl_blobs cl_calls map en_blob chunksFrom]; by rewrite <- !app_assoc).
  - change (error_is (ESent EOF) EOF) with true. cbv iota. exists [], e'. rewrite !app_nil_r.
    split_and!; [|done|done|constructor]. unfold logAfter. simpl. rewrite !app_nil_r.
    destruct l, (cf_ChunkHandler config); simpl; by rewrite !app_nil_r.
Qed.

Lemma chunkSizeFor_range config : 0 < chunkSizeFor config < MaxBlobSize.
Proof. unfold chunkSizeFor, maxBlobDataSize, MaxBlobSize. bool_cases; lia. Qed.

(** What the result of [Encode] says of the data it encoded, without a chunk handler:
    the descriptor has the configured names, the hashes and sizes are those of the
    content blobs, no chunk exceeds the chunk size, and the descriptor with the
    content blobs decodes to the data. *)
Record encodes (order : list Z) (config : StreamConfig) (data : bytes) (r : StreamResult) : Prop := {
  en_decodes : Decode order (sr_SDBlobData r :: sr_ContentBlobs r) = Ok data;
  en_sdHash : sr_SDBlobHash r = Hash (sr_SDBlobData r);
  en_streamHash : sr_StreamHash r = EncodeToString (computeStreamHash (sr_SDBlob r));
  en_name : sd_StreamName (sr_SDBlob r) = cf_StreamName config;
  en_fileName : sd_SuggestedFileName (sr_SDBlob r) = cf_SuggestedFileName config;
  en_size : sr_SourceSize r = Z.of_nat (length data);
  en_hashes : sr_ContentHashes r = map HashHex (sr_ContentBlobs r);
  en_sizes : sr_ChunkSizes r = map (fun b => Z.of_nat (length b)) (sr_ContentBlobs r);
  en_total : sr_TotalChunks r = Z.of_nat (length (sr_ContentBlobs r));
  en_bound : Forall (fun b => Z.of_nat (length b) <= chunkSizeFor config + 16) (sr_ContentBlobs r)
}.

(** A configuration without a chunk handler or an existing descriptor, whose
    descriptor handler accepts. *)
Record plainConfig (config : StreamConfig) : Prop := {
  pc_existing : cf_ExistingSDBlob config = [];
  pc_chunks : cf_ChunkHandler config = None;
  pc_sd : match cf_SDHandler config with Some h => forall sd d, h sd d = None | None => True end
}.

Lemma finishEncode_sd config e l sd :
  plainConfig config -> UpdateStreamHash (applyNames config (e_sd e)) = sd -> wfSD sd ->
  (finishEncode config e l).1
  = Ok (mkStreamResult sd (print [x20] [x20] (sdDoc sd)) (Hash (print [x20] [x20] (sdDoc sd)))
          (EncodeToString (sd_StreamHash sd)) (e_srcLen e) (cl_blobs l) (cl_hashes l)
          (Z.of_nat (length (sd_BlobInfos sd)) - 1) (cl_sizes l)).
Proof.
  intros [_ Hch Hsdh] Hsd Hw. unfold finishEncode, Encoder_SDBlob. cbn [e_sd setSd].
  rewrite Hsd, ToBlob_text by done. cbn [fst wrap_err mbind result_bind]. rewrite Hch.
  assert (match cf_SDHandler config with
          | Some handler => match handler sd (print [x20] [x20] (sdDoc sd)) with
                            | Some er => Err (EWrap "SD handler failed" er) | None => Ok tt end
          | None => Ok tt end = Ok tt) as ->.
  { destruct (cf_SDHandler config); [by rewrite Hsdh|done]. }
  cbn [mbind result_bind]. rewrite ComputeBlobHash_spec. reflexivity.
Qed.

(** [Encode] on a fresh encoder, whatever its size hint. *)
Lemma Encode_ok order src data key ivs hint k config :
  registryOrder order -> sourceOf src data -> data <> [] ->
  validKeyLength key = true -> Forall (fun iv => length iv = 16%nat) ivs ->
  Z.of_nat (length data) < 2 ^ 63 - 1 -> plainConfig config ->
  exists r, (Encode order (Some config) (mkEncoder src ivs hint maxBlobDataSize
              (mkSDBlob [] [] StreamTypeLBRYFile key [] [] 0) 0 [] k)).1 = Ok r
    /\ encodes order config data r.
Proof.
  intros Ho Hs Hne Hk Hivs Hl Hpc. set (sd0 := mkSDBlob _ _ _ _ _ _ _).
  set (e1 := mkEncoder src ivs hint (chunkSizeFor config) sd0 0 [] k).
  assert (encInv sd0 ivs [] e1) as He1 by (split; try done; apply chunkSizeFor_range).
  pose proof (pc_chunks _ Hpc) as Hch.
  destruct (chunkLoop_ok config sd0 ivs (S (sourceSize src)) [] 0 e1 emptyLog data)
    as (ens & e' & Hloop & [(iv & Hiv & _ & Hsd) Hg _ Hlen] & Hdata & Hle); try done.
  { unfold handlerAccepts. by rewrite Hch. } { apply Nat.lt_succ_diag_r. }
  rewrite app_nil_l in *.
  set (sd1 := mkSDBlob (cf_StreamName config) [] StreamTypeLBRYFile key (cf_SuggestedFileName config) [] 0).
  assert (UpdateStreamHash (applyNames config (e_sd e')) = finalSD sd1 ens iv) as Hfin.
  { rewrite Hsd. unfold applyNames, finalSD, setInfos, sd0, sd1. simpl.
    assert (forall x : bytes, (if decide (x = []) then [] else x) = x) as Hx by (intros []; done).
    by rewrite !Hx. }
  assert (wfSD (finalSD sd1 ens iv)) as Hw by (apply done_wf; [exact plainType|done|by rewrite Hdata]).
  unfold Encode, adoptSDBlob. rewrite (pc_existing _ Hpc).
  cbn [e_src e_ivs e_srcSizeHint e_bufLen e_sd e_srcLen e_srcHash e_rand]. fold e1.
  rewrite Hloop. rewrite (finishEncode_sd _ _ _ _ Hpc Hfin Hw). eexists. split; [reflexivity|].
  unfold logAfter. rewrite Hch. split; try done.
  - simpl. rewrite <- Hdata. apply (Decode_ok order sd1 ens iv);
      [done|exact plainType|done| |by rewrite Hdata|by apply ToBlob_text].
    intros ->. by destruct Hne.
  - simpl sr_SourceSize. rewrite Hlen, Hdata. apply int64_id. unfold in_int64. lia.
  - simpl. rewrite length_app, length_entryInfos, length_map. simpl. lia.
  - simpl. apply Forall_map. rewrite Forall_forall in *. intros en Hin. specialize (Hle en Hin).
    destruct (Hg en Hin) as [Hb _]. apply NewBlob_AES_length in Hb. rewrite Hb.
    pose proof (Nat.Div0.mul_div_le (length (en_data en)) 16). cbn [e1 e_bufLen] in Hle. lia.
Qed.

(** C21. Encode with a configuration (any chunk size, names, a descriptor handler that
    accepts) succeeds on every non-empty source, and its result describes the
    stream exactly: names, hashes, sizes and counts, and the data when decoded. *)
Theorem encode_result order src data key ivs k config
    (Ho : registryOrder order) (Hs : sourceOf src data) (Hne : data <> [])
    (Hk : length key = AES256KeySize \/ length key = AES128KeySize)
    (Hivs : Forall (fun iv => length iv = 16%nat) ivs)
    (Hl : Z.of_nat (length data) < 2 ^ 63 - 1) (Hc : plainConfig config) :
  exists e r, NewEncoderWithIVs src key ivs k = Ok e
    /\ (Encode order (Some config) e).1 = Ok r /\ encodes order config data r.
Proof.
  destruct (newEncoder_inv src key ivs k Hk Hivs) as [Hnew He].
  destruct (Encode_ok order src data key ivs 0 k config) as (r & H1 & H2); try done.
  { exact (ei_key _ _ _ _ He). }
  exact (ex_intro _ _ (ex_intro _ r (conj Hnew (conj H1 H2)))).
Qed.

(** A descriptor that lists no blob at all (not even the terminating one) passes the
    stream-hash check, and the decoder then indexes its last blob: decoding any
    stream that starts with it panics. *)
Theorem decode_no_infos_panics order sd b bs
    (Ho : registryOrder order) (Hw : wfSD sd) (Hi : sd_BlobInfos sd = []) :
  exists text, ToBlob (UpdateStreamHash sd) = Ok text
    /\ Decode order (text :: b :: bs) = Panic "index out of range".
Proof.
  assert (wfSD (UpdateStreamHash sd)) as Hw' by exact Hw.
  pose proof (FromBlob_ToBlob order _ Ho Hw') as Hf. rewrite ToBlob_text in * by done.
  cbn [mbind result_bind] in Hf. eexists. split; [done|]. unfold Decode.
  rewrite decide_False by (simpl; lia). cbn [index lookup list_lookup mbind result_bind].
  rewrite Hf. cbn [mbind result_bind]. unfold SDBlob_IsValid. rewrite computeStreamHash_profile.
  rewrite bool_decide_eq_true_2 by done. cbn [negb]. simpl sd_BlobInfos. rewrite Hi. done.
Qed.
End spec.

(** ** Concrete instances *)

(** An entropy source that repeats the number of the request. *)
#[local] Instance exampleRand : Rand := {|
  randRead k n := Ok (replicate n (byte_of_Z (Z.of_nat k)))
|}.

#[local] Instance exampleRand_laws : RandLaws exampleRand.
Proof. split. intros k n b [= <-]. apply length_replicate. Qed.
#[local] Instance exampleRand_total : RandTotal exampleRand.
Proof. split. intros k n. by eexists. Qed.

Lemma order_swap : registryOrder [1; 0].
Proof. apply perm_swap. Qed.

Lemma stream_roundtrip_witness :
  exists e s e', NewEncoderWithIVs (bytesReader (go "hello")) sampleKey [sampleIV] 0 = Ok e
    /\ Encoder_Stream e = (Ok s, e') /\ Decode (OJ := exampleOrdered) [1; 0] s = Ok (go "hello").
Proof.
  destruct (stream_roundtrip (OJ := exampleOrdered) (OL := exampleOrdered_laws) [1; 0]
    (bytesReader (go "hello")) (go "hello") sampleKey [sampleIV] 0 order_swap
    (bytesReader_source _) (or_introl eq_refl) (List.Forall_cons (fun iv => length iv = 16%nat) sampleIV [] eq_refl (List.Forall_nil _)) eq_refl)
    as (e & t & bs & e' & H1 & H2 & _ & _ & _ & H3).
  exact (ex_intro _ e (ex_intro _ (t :: bs) (ex_intro _ e' (conj H1 (conj H2 H3))))).
Defined.

Lemma stream_reconstruct_witness :
  exists e s sd e2, NewEncoderWithIVs (bytesReader (go "hello")) sampleKey [] 0 = Ok e
    /\ (Encoder_Stream e).1 = Ok s
    /\ NewEncoderFromSD (bytesReader (go "hello")) sd 7 = Ok e2 /\ (Encoder_Stream e2).1 = Ok s.
Proof.
  destruct (stream_reconstruct (OJ := exampleOrdered) (OL := exampleOrdered_laws) [1; 0]
    (bytesReader (go "hello")) (go "hello") sampleKey [] 0 7 order_swap
    (bytesReader_source _) (or_introl eq_refl) (List.Forall_nil _) eq_refl)
    as (e & t & bs & sd & e2 & H1 & H2 & _ & H3 & H4).
  exact (ex_intro _ e (ex_intro _ (t :: bs) (ex_intro _ sd (ex_intro _ e2 (conj H1 (conj H2 (conj H3 H4))))))).
Defined.

Definition sampleConfig : StreamConfig := mkStreamConfig None 3 [] None 0 (go "n") (go "f").

Lemma encode_result_witness :
  exists e r, NewEncoderWithIVs (bytesReader (go "hello")) sampleKey [] 0 = Ok e
    /\ (Encode (OJ := exampleOrdered) [1; 0] (Some sampleConfig) e).1 = Ok r
    /\ Decode (OJ := exampleOrdered) [1; 0] (sr_SDBlobData r :: sr_ContentBlobs r) = Ok (go "hello").
Proof.
  destruct (encode_result (OJ := exampleOrdered) (OL := exampleOrdered_laws) [1; 0]
    (bytesReader (go "hello")) (go "hello") sampleKey [] 0 sampleConfig order_swap
    (bytesReader_source _) ltac:(discriminate) (or_introl eq_refl) (List.Forall_nil _) eq_refl
    (Build_plainConfig sampleConfig eq_refl eq_refl I)) as (e & r & H1 & H2 & H3).
  exact (ex_intro _ e (ex_intro _ r (conj H1 (conj H2 (en_decodes _ _ _ _ H3))))).
Defined.

Lemma decode_no_infos_panics_witness :
  exists text, Decode (OJ := exampleOrdered) [1; 0] [text; go "blob"] = Panic "index out of range".
Proof.
  destruct (decode_no_infos_panics (OJ := exampleOrdered) (OL := exampleOrdered_laws) [1; 0] emptySDBlob
    (go "blob") [] order_swap (conj (List.Forall_nil _) (List.Forall_nil _)) eq_refl) as (text & _ & H).
  exact (ex_intro _ text H).
Defined.
