(* ===== verification/Creator.v ===== *)
(** * stream/config.go, stream/creator.go and stream/manifest.go

    Options, the stream creator and the manifest builders on top of the encoder.
    Files are an interface ([os.Open], [fs.FS]); the progress callback, which only
    reports fractions of the size, is in Tracking.v. *)
From stdpp Require Import base tactics list numbers strings.
From Stdlib Require Import ZArith Lia Init.Byte.
From S2P Require Import Prelude GoStd Sha2 Aes Blob Multihash Json SdBlob SdBlobSpec Encoder EncoderSpec.
Local Open Scope Z_scope.

(** ** Options *)

Definition StreamOption : Type := StreamConfig -> StreamConfig.

Definition WithChunkHandler (handler : Chunk -> option error) : StreamOption := fun c =>
  mkStreamConfig (Some handler) (cf_ChunkSize c) (cf_ExistingSDBlob c) (cf_SDHandler c) (cf_Concurrency c)
    (cf_StreamName c) (cf_SuggestedFileName c).
Definition WithChunkSize (size : Z) : StreamOption := fun c =>
  mkStreamConfig (cf_ChunkHandler c) size (cf_ExistingSDBlob c) (cf_SDHandler c) (cf_Concurrency c)
    (cf_StreamName c) (cf_SuggestedFileName c).
Definition WithExistingSDBlob (sdBlob : bytes) : StreamOption := fun c =>
  mkStreamConfig (cf_ChunkHandler c) (cf_ChunkSize c) sdBlob (cf_SDHandler c) (cf_Concurrency c)
    (cf_StreamName c) (cf_SuggestedFileName c).
Definition WithSDHandler (handler : SDBlob -> bytes -> option error) : StreamOption := fun c =>
  mkStreamConfig (cf_ChunkHandler c) (cf_ChunkSize c) (cf_ExistingSDBlob c) (Some handler) (cf_Concurrency c)
    (cf_StreamName c) (cf_SuggestedFileName c).
Definition WithConcurrency (workers : Z) : StreamOption := fun c =>
  mkStreamConfig (cf_ChunkHandler c) (cf_ChunkSize c) (cf_ExistingSDBlob c) (cf_SDHandler c) workers
    (cf_StreamName c) (cf_SuggestedFileName c).
Definition WithStreamName (name : bytes) : StreamOption := fun c =>
  mkStreamConfig (cf_ChunkHandler c) (cf_ChunkSize c) (cf_ExistingSDBlob c) (cf_SDHandler c) (cf_Concurrency c)
    name (cf_SuggestedFileName c).
Definition WithSuggestedFileName (name : bytes) : StreamOption := fun c =>
  mkStreamConfig (cf_ChunkHandler c) (cf_ChunkSize c) (cf_ExistingSDBlob c) (cf_SDHandler c) (cf_Concurrency c)
    (cf_StreamName c) name.

Definition applyOpts (config : StreamConfig) (opts : list StreamOption) : StreamConfig :=
  foldl (fun c opt => opt c) config opts.

Definition appendOption (opts : list StreamOption) (opt : StreamOption) : list StreamOption := opts ++ [opt].

(** ** Paths *)

Fixpoint dropSlashes (s : bytes) : bytes :=
  match s with c :: r => if decide (c = x2f) then dropSlashes r else s | [] => [] end.

(** The bytes before the first slash. *)
Fixpoint uptoSlash (s : bytes) : bytes :=
  match s with c :: r => if decide (c = x2f) then [] else c :: uptoSlash r | [] => [] end.

(** [filepath.Base]: trailing slashes dropped, then the last element. *)
Definition filepath_Base (path : bytes) : bytes :=
  if decide (path = []) then [x2e] else
  match dropSlashes (rev path) with
  | [] => [x2f]
  | r => rev (uptoSlash r)
  end.

(** ** Files *)

(** An open file: what reading it delivers, its size, and whether it can seek. *)
Record File := mkFile { f_reader : reader; f_size : result Z; f_seeker : bool }.

Class FileSystem := { openFile : bytes -> result File }.

Definition maxFileSizeForMemory : Z := 100 * 1024 * 1024.

Section creator.
Context {R : Rand} {OJ : OrderedJson}.

(** ** The stream creator *)

(** [generateStreamID]: sixteen random bytes in hexadecimal. *)
Definition generateStreamID (k : nat) : result bytes := b ← randRead k 16; Ok (EncodeToString b).

(** The chunk handler sees the stream ID. *)
Definition withStreamID (streamID : bytes) (config : StreamConfig) : StreamConfig :=
  match cf_ChunkHandler config with
  | None => config
  | Some h =>
      WithChunkHandler (fun c => h (mkChunk (ch_Number c) (ch_Hash c) (ch_Data c) (ch_Size c) streamID)) config
  end.

Definition CreateStream (order : list Z) (k : nat) (source : option reader) (size : Z)
    (opts : list StreamOption) : result StreamResult :=
  match source with
  | None => Err (EMsg "source reader cannot be nil")
  | Some src =>
      let config := applyOpts emptyConfig opts in
      streamID ← wrap_err "failed to generate stream ID" (generateStreamID k);
      encoder ← NewEncoder src (S k);
      let encoder := if 0 <? size then SourceSizeHint encoder size else encoder in
      let config := withStreamID streamID config in
      wrap_err "failed to encode stream" (Encode order (Some config) encoder).1
  end.

Definition createStreamWithMetadata (order : list Z) (k : nat) (source : reader) (size : Z) (filename : bytes)
    (opts : list StreamOption) : result StreamResult :=
  let newOpts := appendOption opts (WithStreamName filename) in
  let newOpts := appendOption newOpts (WithSuggestedFileName filename) in
  CreateStream order k (Some source) size newOpts.

Context {FS : FileSystem}.

Definition CreateStreamFromFile (order : list Z) (k : nat) (path : bytes) (opts : list StreamOption)
    : result StreamResult :=
  file ← wrap_err "failed to open file" (openFile path);
  size ← wrap_err "failed to get file info" (f_size file);
  let filename := filepath_Base path in
  if f_seeker file then createStreamWithMetadata order k (f_reader file) size filename opts else
  if maxFileSizeForMemory <? size
  then Err (EMsg "non-seekable file size %d exceeds maximum allowed size %d - use CreateStreamFromPath instead")
  else
    data ← wrap_err "failed to read file data" (readAll (f_reader file));
    createStreamWithMetadata order k (bytesReader data) (Z.of_nat (length data)) filename opts.

Definition CreateStreamFromPath (order : list Z) (k : nat) (path : bytes) (opts : list StreamOption)
    : result StreamResult :=
  file ← wrap_err "failed to open file" (openFile path);
  size ← wrap_err "failed to get file info" (f_size file);
  createStreamWithMetadata order k (f_reader file) size (filepath_Base path) opts.

(** ** Manifests *)

Definition ParseManifest (order : list Z) (data : bytes) : result SDBlob :=
  wrap_err "failed to parse SD blob" (FromBlob order data).

Record buildManifestConfig := mkBuildManifestConfig {
  bm_streamType : bytes; bm_streamName : bytes; bm_suggestedFileName : bytes
}.

Definition BuildManifestOption : Type := buildManifestConfig -> buildManifestConfig.
Definition WithBuildManifestStreamType (t : bytes) : BuildManifestOption := fun c =>
  mkBuildManifestConfig t (bm_streamName c) (bm_suggestedFileName c).
Definition WithBuildManifestStreamName (n : bytes) : BuildManifestOption := fun c =>
  mkBuildManifestConfig (bm_streamType c) n (bm_suggestedFileName c).
Definition WithBuildManifestSuggestedFileName (n : bytes) : BuildManifestOption := fun c =>
  mkBuildManifestConfig (bm_streamType c) (bm_streamName c) n.

Definition BuildManifest (blobInfos : list BlobInfo) (key : bytes) (opts : list BuildManifestOption)
    : result SDBlob :=
  if decide (length blobInfos = 0%nat) then Err (EMsg "blob infos cannot be empty") else
  if decide (length key <> AES256KeySize /\ length key <> AES128KeySize)
  then Err (EMsg "invalid key size: expected %d or %d bytes, got %d bytes") else
  let config := foldl (fun c opt => opt c) (mkBuildManifestConfig StreamTypeLBRYFile [] []) opts in
  Ok (UpdateStreamHash (mkSDBlob (bm_streamName config) blobInfos (bm_streamType config) key
                          (bm_suggestedFileName config) [] 0)).

Definition EncoderOption : Type := Encoder -> Encoder.
Definition WithEncoderChunkSize (size : Z) : EncoderOption := fun e => SourceSizeHint e size.
Definition WithSerializationProfile (profile : Z) : EncoderOption := fun e =>
  setSd e (SetProfile (e_sd e) profile).

(** [for _, opt := range opts { opt(encoder) }] *)
Definition applyEncoderOpts (e : Encoder) (opts : list EncoderOption) : Encoder :=
  foldl (fun e opt => opt e) e opts.

(** crypto's [GenerateKey] *)
Definition GenerateKey (k : nat) : result bytes := wrap_err "failed to generate key" (randRead k 32).

(** [for { _, err := encoder.Next(); ... }] compares the error with [io.EOF] itself. *)
Fixpoint drain (fuel : nat) (e : Encoder) : result Encoder :=
  match fuel with
  | O => Panic "out of fuel"
  | S fuel =>
      let '(r, e) := Next e in
      match r with
      | Ok _ => drain fuel e
      | Err er => if decide (er = ESent EOF) then Ok e else Err (EWrap "failed to read blob" er)
      | Panic w => Panic w
      end
  end.

Definition CreateManifestFromSource (k : nat) (source : reader) (size : Z) (opts : list EncoderOption)
    : result (SDBlob * bytes) :=
  key ← wrap_err "failed to generate key" (GenerateKey k);
  if 2 ^ 31 - 1 <? size then Err (EMsg "size hint overflows int: %d") else
  encoder ← NewEncoderWithIVs source key [] (S k);
  let encoder := applyEncoderOpts (SourceSizeHint encoder size) opts in
  encoder ← drain (S (sourceSize (e_src encoder))) encoder;
  let sd := UpdateStreamHash (e_sd encoder) in
  sdBlobData ← wrap_err "failed to serialize SD blob" (ToBlob sd);
  Ok (sd, sdBlobData).

Definition CreateManifestFromPath (k : nat) (path : bytes) (opts : list EncoderOption)
    : result (SDBlob * bytes) :=
  file ← wrap_err "failed to open file" (openFile path);
  size ← wrap_err "failed to stat file" (f_size file);
  CreateManifestFromSource k (f_reader file) size opts.
End creator.

(** ** Properties *)

Example base_examples :
  filepath_Base (go "/a/b.txt") = go "b.txt" /\ filepath_Base (go "dir//") = go "dir"
  /\ filepath_Base (go "///") = go "/" /\ filepath_Base [] = go ".".
Proof. vm_compute. done. Qed.

Section properties.
Context {R : Rand} {RL : RandLaws R} {RT : RandTotal R} {OJ : OrderedJson} {OL : OrderedJsonLaws OJ}
  {FS : FileSystem}.

Lemma applyOpts_snoc c opts opt : applyOpts c (opts ++ [opt]) = opt (applyOpts c opts).
Proof. unfold applyOpts. by rewrite foldl_app. Qed.

Lemma generateKey_ok k : exists key, generateKey k = Ok key /\ length key = AES256KeySize.
Proof.
  unfold generateKey, generateRandomBytes. change (32 <=? 0) with false. change (Z.to_nat 32) with 32%nat.
  destruct (rand_total k 32) as [b Hb]. rewrite Hb. exists b. split; [done|]. by apply rand_length in Hb.
Qed.

Lemma CreateStream_ok order k src data size opts :
  registryOrder order -> sourceOf src data -> data <> [] ->
  Z.of_nat (length data) < 2 ^ 63 - 1 -> plainConfig (applyOpts emptyConfig opts) ->
  exists r, CreateStream order k (Some src) size opts = Ok r
    /\ encodes order (applyOpts emptyConfig opts) data r.
Proof.
  intros Ho Hs Hne Hl Hpc. unfold CreateStream, generateStreamID.
  destruct (rand_total k 16) as [b Hb]. rewrite Hb. cbn [wrap_err mbind result_bind].
  unfold NewEncoder. destruct (generateKey_ok (S k)) as (key & Hkey & Hlen). rewrite Hkey.
  cbn [mbind result_bind]. unfold withStreamID. rewrite (pc_chunks _ Hpc).
  set (hint := if 0 <? size then size else 0).
  replace (if 0 <? size then SourceSizeHint (newEncoderInternal src key (S (S k))) size
           else newEncoderInternal src key (S (S k)))
    with (mkEncoder src [] hint maxBlobDataSize (mkSDBlob [] [] StreamTypeLBRYFile key [] [] 0) 0 [] (S (S k)))
    by (subst hint; by destruct (0 <? size)).
  destruct (Encode_ok order src data key [] hint (S (S k)) (applyOpts emptyConfig opts))
    as (r & Hr & Henc); try done.
  { unfold validKeyLength. apply bool_decide_eq_true. naive_solver. }
  rewrite Hr. by exists r.
Qed.

(** A stream created from a path holds the file: the descriptor and the content
    blobs decode to what the file contains, and the stream and file names are the
    last element of the path, also when an option asked for another name. *)
Theorem create_stream_from_path order k path opts file data size
    (Ho : registryOrder order) (Hf : openFile path = Ok file) (Hsz : f_size file = Ok size)
    (Hs : sourceOf (f_reader file) data) (Hne : data <> [])
    (Hl : Z.of_nat (length data) < 2 ^ 63 - 1) (Hc : plainConfig (applyOpts emptyConfig opts)) :
  exists r, CreateStreamFromPath order k path opts = Ok r
    /\ Decode order (sr_SDBlobData r :: sr_ContentBlobs r) = Ok data
    /\ sd_StreamName (sr_SDBlob r) = filepath_Base path
    /\ sd_SuggestedFileName (sr_SDBlob r) = filepath_Base path
    /\ sr_SDBlobHash r = Hash (sr_SDBlobData r)
    /\ sr_SourceSize r = Z.of_nat (length data).
Proof.
  unfold CreateStreamFromPath. rewrite Hf. cbn [wrap_err mbind result_bind]. rewrite Hsz.
  cbn [wrap_err mbind result_bind]. unfold createStreamWithMetadata, appendOption.
  set (opts' := (opts ++ _) ++ _).
  destruct (CreateStream_ok order k (f_reader file) data size opts') as (r & Hr & [H1 H2 H3 H4 H5 H6 _ _ _ _]);
    try done.
  { subst opts'. rewrite !applyOpts_snoc. destruct Hc. by split. }
  exists r. subst opts'. rewrite !applyOpts_snoc in H4, H5. done.
Qed.

Lemma drain_ok sd0 ivs0 fuel ens e data :
  encInv sd0 ivs0 ens e -> sourceOf (e_src e) data -> (sourceSize (e_src e) < fuel)%nat ->
  exists ens' e', drain fuel e = Ok e' /\ encDone sd0 ivs0 (ens ++ ens') e' /\ entryData ens' = data.
Proof.
  revert ens e data. induction fuel as [|fuel IH]; intros ens e data He Hs Hf; [lia|].
  cbn [drain]. unfold Next.
  destruct (nextLoop_ok sd0 ivs0 ens (S (length (e_src e))) e data He Hs ltac:(lia))
    as [(d & rest & iv & b & e' & -> & Hd & -> & Hinv & Hs' & _ & _ & Hlt & _)|(-> & _ & e' & -> & Hinv)].
  - destruct (IH _ e' rest Hinv Hs' ltac:(lia)) as (ens' & e'' & -> & Hdone & Hdata).
    exists (mkEntry d iv b :: ens'), e''. rewrite <- app_assoc in Hdone. split_and!; [done|done|].
    unfold entryData in *. simpl. by rewrite Hdata.
  - rewrite decide_True by done. exists [], e'. by rewrite !app_nil_r.
Qed.

(** The options this package defines. *)
Definition knownOption (opt : EncoderOption) : Prop :=
  (exists n, opt = WithEncoderChunkSize n) \/ (exists p, opt = WithSerializationProfile p).

Lemma options_inv opts sd0 ivs0 e :
  Forall knownOption opts -> sd_BlobInfos sd0 = [] -> encInv sd0 ivs0 [] e ->
  exists p, let sd1 := SetProfile sd0 p in
    encInv sd1 ivs0 [] (applyEncoderOpts e opts)
    /\ e_src (applyEncoderOpts e opts) = e_src e.
Proof.
  intros Ho. revert sd0 e. induction Ho as [|opt opts Hopt _ IH]; intros sd0 e Hi He.
  - exists (sd_profile sd0). split; [|done]. destruct He as [Hsd Hg Hh Hl Hk Hivs Hb Hp]. by split.
  - cbn [applyEncoderOpts foldl]. destruct Hopt as [[n ->]|[p ->]].
    + destruct (IH sd0 (WithEncoderChunkSize n e) Hi) as (p & H1 & H2).
      { destruct He. by split. }
      exists p. done.
    + destruct (IH (SetProfile sd0 p) (WithSerializationProfile p e)) as (q & H1 & H2).
      { simpl. by rewrite Hi. }
      { destruct He as [Hsd Hg Hh Hl Hk Hivs Hb Hp]. split; try done. simpl. rewrite Hsd. done. }
      exists q. split; [|done]. by destruct H1.
Qed.

Context {L : CidLib}.

(** A manifest built from numbered blob infos (hashes and IVs present, at most a
    final terminating blob) is valid: validation accepts it, and it survives
    serialisation. *)
Theorem build_manifest_valid order infos key opts sd
    (Hb : BuildManifest infos key opts = Ok sd)
    (Hi : forall i bi, infos !! i = Some bi -> goodInfo i bi)
    (Ht : forall i bi, infos !! i = Some bi -> bi_Length bi = 0 -> i = (length infos - 1)%nat)
    (Hty : sd_StreamType sd <> []) (Hp : Forall plainChar (sd_StreamType sd))
    (Hw : Forall wfInfo infos) (Ho : registryOrder order) :
  ValidateSDBlob (Some sd) = Ok tt
  /\ exists text sd', ToBlob sd = Ok text /\ ParseManifest order text = Ok sd'
                      /\ computeStreamHash sd' = computeStreamHash sd.
Proof.
  unfold BuildManifest in Hb. case_decide as Hn; [done|]. case_decide as Hk; [done|].
  set (c := foldl _ _ _) in Hb. injection Hb as Hb. rewrite <- Hb in *. clear Hb. split.
  - apply validateSDBlob_complete. split; try done.
    + intros E. simpl in E. apply Hn. by rewrite E.
    + simpl. destruct (decide (length key = AES256KeySize)); [by left|right].
      destruct (decide (length key = AES128KeySize)); [done|naive_solver].
  - assert (wfSD (UpdateStreamHash (mkSDBlob (bm_streamName c) infos (bm_streamType c) key
              (bm_suggestedFileName c) [] 0))) as Hwf by (by split).
    pose proof (FromBlob_ToBlob order _ Ho Hwf) as Hf. rewrite ToBlob_text in * by done.
    cbn [mbind result_bind] in Hf. eexists _, _. split; [done|]. unfold ParseManifest.
    rewrite Hf. split; [done|]. apply computeStreamHash_profile.
Qed.
Lemma finalSD_valid sd0 ens iv :
  sd_StreamType sd0 <> [] -> length (sd_Key sd0) = AES256KeySize \/ length (sd_Key sd0) = AES128KeySize ->
  Forall (goodEntry (sd_Key sd0)) ens -> length iv = 16%nat -> validSD (finalSD sd0 ens iv).
Proof.
  intros Ht Hk Hg Hiv.
  assert (forall i bi, (entryInfos ens ++ [infoOf (length ens) [] iv]) !! i = Some bi ->
            (exists en, ens !! i = Some en /\ bi = infoOf i (en_blob en) (en_iv en))
            \/ (i = length ens /\ bi = infoOf (length ens) [] iv)) as Hcases.
  { intros i bi H. apply lookup_app_Some in H as [H|[Hle H]].
    - left. unfold entryInfos in H. rewrite list_lookup_imap in H.
      destruct (ens !! i) as [en|]; [|done]. simpl in H. injection H as <-. by exists en.
    - rewrite length_entryInfos in *. right. apply list_lookup_singleton_Some in H as [? <-]. split; [lia|done]. }
  split; simpl; try done.
  - intros E. apply (f_equal length) in E. rewrite length_app in E. simpl in E. lia.
  - intros i bi [(en & Hen & ->)|[-> ->]]%Hcases; unfold goodInfo; simpl.
    + eapply Forall_lookup_1 in Hg; [|exact Hen]. destruct (goodEntry_blob _ _ Hg) as (_ & Hl & _ & _).
      assert (en_blob en <> []) as Hb by (intros E; rewrite E in Hl; simpl in Hl; lia).
      pose proof (BlobHash_length _ Hb) as Hh. destruct Hg as [(_ & _ & _ & Hi)%NewBlob_inv _].
      split_and!; [done|lia|by intros E; rewrite E in Hi|].
      intros _. split; [by intros E; rewrite E in Hh|by apply ValidateHash_digest].
    + split_and!; [done|lia|by intros E; rewrite E in Hiv|lia].
  - intros i bi [(en & Hen & ->)|[-> ->]]%Hcases Hz; rewrite length_app, length_entryInfos; simpl in *; [|lia].
    eapply Forall_lookup_1 in Hg; [|exact Hen]. destruct (goodEntry_blob _ _ Hg) as (_ & Hl & _ & _). lia.
Qed.

(** A manifest made from a source, with any of the package's options: it is a
    descriptor that validation accepts, the returned bytes are its text and parse
    back to it, it lists every chunk of the source and the terminating blob. *)
Theorem create_manifest_valid order k src data size opts
    (Ho : registryOrder order) (Hs : sourceOf src data) (Hsz : size <= 2 ^ 31 - 1)
    (Hopts : Forall knownOption opts) (Hl : Z.of_nat (length data) < 2 ^ 63 - 1) :
  exists sd text, CreateManifestFromSource k src size opts = Ok (sd, text)
    /\ ValidateSDBlob (Some sd) = Ok tt
    /\ ParseManifest order text = Ok (SetProfile sd (writtenProfile sd))
    /\ (data = [] <-> length (sd_BlobInfos sd) = 1%nat).
Proof.
  unfold CreateManifestFromSource, GenerateKey. destruct (rand_total k 32) as [key Hkey]. rewrite Hkey.
  apply rand_length in Hkey. cbn [wrap_err mbind result_bind]. rewrite (proj2 (Z.ltb_ge _ _)) by lia.
  destruct (newEncoder_inv src key [] (S k)) as [Hnew He]; [by left|constructor|]. rewrite Hnew.
  cbn [mbind result_bind].
  destruct (options_inv opts (mkSDBlob [] [] StreamTypeLBRYFile key [] [] 0) [] (SourceSizeHint (mkEncoder src [] 0 maxBlobDataSize
    (mkSDBlob [] [] StreamTypeLBRYFile key [] [] 0) 0 [] (S k)) size) Hopts eq_refl) as (p & Hinv & Hsrc).
  { destruct He. by split. }
  set (e1 := applyEncoderOpts _ opts) in *. set (sd1 := SetProfile _ p) in Hinv.
  destruct (drain_ok sd1 [] (S (sourceSize (e_src e1))) [] e1 data Hinv) as (ens & e' & Hd & Hdone & Hdata).
  { by rewrite Hsrc. } { lia. }
  rewrite Hd. cbn [mbind result_bind]. destruct Hdone as [(iv & Hiv & _ & Hsd) Hg _ _]. rewrite app_nil_l in *.
  rewrite Hsd. fold (finalSD sd1 ens iv).
  assert (wfSD (finalSD sd1 ens iv)) as Hw by (apply done_wf; [exact plainType|done|by rewrite Hdata]).
  pose proof (FromBlob_ToBlob order _ Ho Hw) as Hf. rewrite ToBlob_text in * by done.
  cbn [wrap_err mbind result_bind] in *. eexists _, _. split_and!; [done| | |].
  - apply validateSDBlob_complete. apply finalSD_valid; [done|by left|done|done].
  - unfold ParseManifest. by rewrite Hf.
  - simpl. rewrite length_app, length_entryInfos. simpl. pose proof (entries_bound _ _ Hg) as Hb.
    rewrite Hdata in Hb. split; [intros ->; simpl in Hb; lia|].
    intros Hlen. destruct ens; [by rewrite <- Hdata|simpl in Hlen; lia].
Qed.
End properties.

(** ** Concrete instances *)

#[local] Instance exampleFS : FileSystem := {|
  openFile path :=
    if decide (path = []) then Err (EMsg "no such file or directory")
    else Ok (mkFile (bytesReader (go "hello")) (Ok 5) true)
|}.

Lemma create_stream_from_path_witness :
  exists r, CreateStreamFromPath (R := exampleRand) (OJ := exampleOrdered) (FS := exampleFS) [1; 0] 0 (go "/tmp/x.txt")
              [WithStreamName (go "other")] = Ok r
    /\ sd_StreamName (sr_SDBlob r) = go "x.txt".
Proof.
  destruct (create_stream_from_path (FS := exampleFS) (RL := exampleRand_laws) (RT := exampleRand_total)
    (OL := exampleOrdered_laws) [1; 0] 0 (go "/tmp/x.txt") [WithStreamName (go "other")]
    (mkFile (bytesReader (go "hello")) (Ok 5) true) (go "hello") 5 order_swap eq_refl eq_refl
    (bytesReader_source _) ltac:(discriminate) eq_refl
    (Build_plainConfig (applyOpts emptyConfig [WithStreamName (go "other")]) eq_refl eq_refl I))
    as (r & H1 & _ & H2 & _).
  exact (ex_intro _ r (conj H1 H2)).
Defined.

Definition sampleInfos : list BlobInfo :=
  [mkBlobInfo 16 0 (replicate 48 xab) sampleIV 0; mkBlobInfo 0 1 [] sampleIV 0].

Lemma sampleInfos_good i bi :
  sampleInfos !! i = Some bi ->
  goodInfo (L := exampleCid) i bi /\ (bi_Length bi = 0 -> i = (length sampleInfos - 1)%nat) .
Proof.
  destruct i as [|[|i]]; intros [= <-]; (split; [|done || (intros; reflexivity)]).
  - split_and!; [done|simpl; lia|done|]. intros _. split; [done|]. by apply ValidateHash_digest.
  - split_and!; [done|simpl; lia|done|simpl; lia].
Qed.

Lemma build_manifest_valid_witness :
  exists sd, BuildManifest sampleInfos sampleKey [] = Ok sd
    /\ ValidateSDBlob (L := exampleCid) (Some sd) = Ok tt.
Proof.
  destruct (BuildManifest sampleInfos sampleKey []) as [sd| |] eqn:E; [|discriminate E..].
  exists sd. split; [done|]. pose proof E as E2. injection E2 as E2.
  refine (proj1 (build_manifest_valid (OJ := exampleOrdered) (OL := exampleOrdered_laws) (L := exampleCid)
    [1; 0] sampleInfos sampleKey [] sd E
    (fun i bi H => proj1 (sampleInfos_good i bi H)) (fun i bi H => proj2 (sampleInfos_good i bi H))
    _ _ _ order_swap)); rewrite <- ?E2.
  - discriminate.
  - exact plainType.
  - repeat constructor; vm_compute; congruence.
Defined.

Lemma create_manifest_valid_witness :
  exists sd text, CreateManifestFromSource (R := exampleRand) 0 (bytesReader (go "hello")) 5
                    [WithSerializationProfile ProfileOldSort; WithEncoderChunkSize 7] = Ok (sd, text)
    /\ ValidateSDBlob (L := exampleCid) (Some sd) = Ok tt.
Proof.
  destruct (create_manifest_valid (RL := exampleRand_laws) (RT := exampleRand_total)
    (OL := exampleOrdered_laws) (L := exampleCid) [1; 0] 0 (bytesReader (go "hello")) (go "hello") 5
    [WithSerializationProfile ProfileOldSort; WithEncoderChunkSize 7] order_swap (bytesReader_source _)
    ltac:(lia)
    (List.Forall_cons knownOption _ _ (or_intror (ex_intro _ _ eq_refl))
       (List.Forall_cons knownOption _ _ (or_introl (ex_intro _ _ eq_refl)) (List.Forall_nil _)))
    eq_refl) as (sd & text & H1 & H2 & _).
  exact (ex_intro _ sd (ex_intro _ text (conj H1 H2))).
Defined.
