(* ===== verification/Tracking.v ===== *)
(** * stream/creator.go: progress of a stream's creation

    The reader that [CreateStream] puts around its source when it is asked to report
    progress: it hands on what the source delivers and tells the callback how much of the
    announced size that is. *)
From stdpp Require Import base tactics list numbers strings.
From Stdlib Require Import ZArith Lia Floats.SpecFloat Sorted.
From S2P Require Import Prelude GoStd GoFloat.
Local Open Scope Z_scope.

(** The source and the bytes read from it. *)
Record progressTrackingReader := mkTracking { tr_reader : reader; tr_read : Z }.

(** What the callback of [CreateStream] makes of the bytes read. *)
Definition progressValue (size read : Z) : spec_float :=
  let progress := fdiv (float64 read) (float64 size) in
  if flt (float64 1) progress then float64 1 else progress.

(** One [Read]: the data, the error, and the count the callback is told. *)
Definition trackRead (cap : Z) (t : progressTrackingReader)
    : bytes * option error * option Z * progressTrackingReader :=
  let '(d, e, r) := Read (tr_reader t) cap in
  if 0 <? Z.of_nat (length d) then
    let read := tr_read t +i Z.of_nat (length d) in
    (d, e, Some read, mkTracking r read)
  else (d, e, None, mkTracking r (tr_read t)).

(** Any sequence of reads, with buffers of any size. *)
Fixpoint trackReads (caps : list Z) (t : progressTrackingReader)
    : list (bytes * option error) * list Z * progressTrackingReader :=
  match caps with
  | [] => ([], [], t)
  | cap :: caps =>
      let '(d, e, report, t) := trackRead cap t in
      let '(out, reports, t) := trackReads caps t in
      ((d, e) :: out, match report with Some n => n :: reports | None => reports end, t)
  end.

(** The same reads on the source itself. *)
Fixpoint plainReads (caps : list Z) (r : reader) : list (bytes * option error) * reader :=
  match caps with
  | [] => ([], r)
  | cap :: caps =>
      let '(d, e, r) := Read r cap in
      let '(out, r) := plainReads caps r in ((d, e) :: out, r)
  end.

Definition dataOf (out : list (bytes * option error)) : bytes := concat (map fst out).

Lemma trackReads_spec caps r n :
  0 <= n -> n + Z.of_nat (length (dataOf (plainReads caps r).1)) < 2 ^ 63 ->
  let '(out, reports, t) := trackReads caps (mkTracking r n) in
  (out, tr_reader t) = plainReads caps r
  /\ tr_read t = n + Z.of_nat (length (dataOf out))
  /\ Sorted Z.lt (n :: reports) /\ last (n :: reports) = Some (tr_read t).
Proof.
  revert r n. induction caps as [|cap caps IH]; intros r n Hn Hb; simpl.
  { split_and!; [done|unfold dataOf; simpl; lia|repeat constructor|done]. }
  simpl in Hb. unfold trackRead. simpl. destruct (Read r cap) as [[d e] r'] eqn:ER.
  destruct (plainReads caps r') as [out' r''] eqn:EP. simpl in Hb. unfold dataOf in Hb. simpl in Hb.
  rewrite length_app in Hb.
  destruct (Z.ltb_spec 0 (Z.of_nat (length d))) as [Hd|Hd].
  - rewrite int64_id by (unfold in_int64; lia).
    specialize (IH r' (n + Z.of_nat (length d))). rewrite EP in IH.
    destruct (trackReads caps _) as [[out reports] t].
    destruct IH as (E & Er & Hs & Hl); [lia|unfold dataOf; simpl; lia|]. injection E as -> Et.
    split_and!; [by rewrite Et|unfold dataOf in *; simpl; rewrite length_app; lia| |done].
    constructor; [done|constructor; lia].
  - specialize (IH r' n). rewrite EP in IH. destruct (trackReads caps _) as [[out reports] t].
    destruct IH as (E & Er & Hs & Hl); [done|unfold dataOf; simpl; lia|]. injection E as -> Et.
    split_and!; [by rewrite Et|unfold dataOf in *; simpl; rewrite length_app; lia|done|done].
Qed.

Lemma progressValue_capped size read : flt (float64 1) (progressValue size read) = false.
Proof. unfold progressValue. destruct (flt (float64 1) (fdiv _ _)) eqn:E; [by vm_compute|done]. Qed.

Lemma flt_not_gt x y : fle x y = true -> flt y x = false.
Proof.
  unfold fle, flt, SFleb, SFltb. destruct x as [[]|[]| |[] mx ex], y as [[]|[]| |[] my ey]; simpl; try done.
  all: pose proof (Pos.compare_antisym mx my) as Hc; unfold Pos.compare in Hc.
  all: rewrite (Z.compare_antisym ex ey); destruct (ex ?= ey); simpl; try done; rewrite Hc.
  all: by destruct (Pos.compare_cont Eq mx my).
Qed.

Lemma progressValue_range size read :
  0 < read <= size -> size < 2 ^ 53 ->
  fle (float64 0) (progressValue size read) = true /\ fle (progressValue size read) (float64 1) = true
  /\ (progressValue size read = float64 1 <-> read = size).
Proof.
  intros Hr Hs. destruct (fdiv_range read size) as [H0 H1]; [lia..|].
  unfold progressValue. rewrite (flt_not_gt _ _ H1). split_and!; [done|done|]. split; [|intros ->; apply fdiv_self; lia].
  intros E. destruct (Z.eq_dec read size) as [|Hne]; [done|].
  destruct (fdiv_fraction read size) as [_ Hlt]; [lia..|]. by rewrite E, float64_one in Hlt.
Qed.

Lemma sorted_le_last l n :
  StronglySorted Z.lt l -> n ∈ l -> exists m, last l = Some m /\ n <= m.
Proof.
  intros Hs. revert n. induction Hs as [|a l Hs IH Hf]; intros n Hn; [by apply elem_of_nil in Hn|].
  destruct l as [|b l].
  - apply list_elem_of_singleton in Hn. subst. exists a. split; [done|lia].
  - apply elem_of_cons in Hn as [->|Hn].
    + destruct (IH b) as (m & Hm & Hle); [left|]. exists m. split; [done|].
      rewrite Forall_cons in Hf. destruct Hf. lia.
    + destruct (IH n Hn) as (m & Hm & Hle). by exists m.
Qed.

(** Whatever buffers the encoder reads with: the tracking reader delivers exactly what the
    source delivers; the counts it reports grow strictly and end with the number of bytes
    delivered, which is 0 if there was no report; and for a source of the announced size
    every value the callback is given is a number from 0 to 1, and 1 exactly when all
    was read.  A source that delivers more is never reported above 1. *)
Theorem progress_tracked caps r size :
  Z.of_nat (length (dataOf (plainReads caps r).1)) < 2 ^ 63 ->
  let '(out, reports, t) := trackReads caps (mkTracking r 0) in
  (out, tr_reader t) = plainReads caps r
  /\ Sorted Z.lt (0 :: reports) /\ last (0 :: reports) = Some (Z.of_nat (length (dataOf out)))
  /\ Forall (fun n => flt (float64 1) (progressValue size n) = false) reports
  /\ (Z.of_nat (length (dataOf out)) <= size < 2 ^ 53 ->
        Forall (fun n => fle (float64 0) (progressValue size n) = true /\ fle (progressValue size n) (float64 1) = true
                         /\ (progressValue size n = float64 1 <-> n = size)) reports).
Proof.
  intros Hb. pose proof (trackReads_spec caps r 0 ltac:(lia) ltac:(lia)) as H.
  destruct (trackReads caps (mkTracking r 0)) as [[out reports] t]. destruct H as (H1 & H2 & H3 & H4).
  rewrite H2, Z.add_0_l in H4. split_and!; [done|done|done| |].
  - apply Forall_forall. intros n _. apply progressValue_capped.
  - intros Hs. apply Forall_forall. intros n Hn. apply progressValue_range; [|lia].
    apply Sorted_StronglySorted in H3; [|intros ???; apply Z.lt_trans].
    inversion H3 as [|? ? Hs' Hf]; subst. rewrite Forall_forall in Hf. split; [by apply Hf|].
    destruct (sorted_le_last reports n Hs' Hn) as (m & Hm & Hle).
    assert (m = Z.of_nat (length (dataOf out))); [|lia].
    destruct reports; [by apply elem_of_nil in Hn|]. change (last (0 :: z :: reports)) with (last (z :: reports)) in H4.
    congruence.
Qed.

Definition sampleReader : reader := [mkEvent (go "hello") None; mkEvent (go " world") (Some (ESent EOF))].

Lemma progress_tracked_witness :
  let '(out, reports, t) := trackReads [4; 4; 16] (mkTracking sampleReader 0) in
  (out, tr_reader t) = plainReads [4; 4; 16] sampleReader
  /\ Sorted Z.lt (0 :: reports) /\ last (0 :: reports) = Some (Z.of_nat (length (dataOf out)))
  /\ Forall (fun n => flt (float64 1) (progressValue 11 n) = false) reports
  /\ (Z.of_nat (length (dataOf out)) <= 11 < 2 ^ 53 ->
        Forall (fun n => fle (float64 0) (progressValue 11 n) = true /\ fle (progressValue 11 n) (float64 1) = true
                         /\ (progressValue 11 n = float64 1 <-> n = 11)) reports).
Proof. apply (progress_tracked [4; 4; 16] sampleReader 11). vm_compute. reflexivity. Defined.

(** A size that was announced too small: the last report is capped. *)
Example progress_overrun : progressValue 10 11 = float64 1 /\ progressValue 16 4 = fdiv (float64 1) (float64 4).
Proof. split; vm_compute; reflexivity. Qed.
