(* ===== verification/Errors.v ===== *)
(** * errors/common.go: classification of errors

    The text of the package's errors, and the functions that classify an error by
    identity or by its text. *)
From stdpp Require Import base tactics list numbers strings.
From Stdlib Require Import ZArith Lia.
From S2P Require Import Prelude.

Definition sentinel_text (s : sentinel) : string :=
  match s with
  | ErrBlobNotFound => "blob not found"
  | ErrBlobExists => "blob already exists on server"
  | ErrInvalidHash => "invalid hash"
  | ErrInvalidSize => "invalid size"
  | ErrStreamCorrupted => "stream corrupted"
  | ErrAccessDenied => "access denied"
  | ErrInvalidManifest => "invalid manifest"
  | ErrHashMismatch => "hash mismatch"
  | ErrConnectionFailed => "connection failed"
  | ErrTimeout => "operation timeout"
  | ErrInvalidConfig => "invalid configuration"
  | ErrRequestTooLarge => "request is too large"
  | ErrInvalidData => "Invalid data"
  | ErrInvalidHashLen => "Invalid blob hash length"
  | ErrBlobProtected => "requested blob is protected"
  | ErrNoBlobData => "no blob data received"
  | ErrAlreadyConnected => "already connected"
  | ErrServerValidation => "server validation error"
  | ErrAcquisitionFailed => "failed to acquire blob from all transfer methods"
  | ErrInvalidOffset => "offset must be non-negative"
  | ErrInvalidLimit => "limit must be positive"
  | ErrEndOfList => "end of list reached"
  | ErrBlobTooBig => "blob must be at most 2097152 bytes"
  | ErrBlobEmpty => "blob is empty"
  | ErrInvalidSDBlob => "invalid SD blob"
  | EOF => "EOF"
  | ErrUnexpectedEOF => "unexpected EOF"
  | Canceled => "context canceled"
  | DeadlineExceeded => "context deadline exceeded"
  | ErrClosedPipe => "io: read/write on closed pipe"
  | Client_ErrStreamNotFound => "stream not found"
  | Client_ErrBlobAcquisition => "failed to acquire blob"
  | Client_ErrStreamCorrupted => "stream data is corrupted"
  | Client_ErrInvalidHash => "invalid blob hash"
  | Client_ErrDecryptionFailed => "blob decryption failed"
  | Client_ErrContextCancelled => "operation cancelled by context"
  | Client_ErrNotSDBlob => "blob is not an SD blob (appears to be binary content data)"
  end.

(** [err.Error()]; the text around a wrapped cause is [fmt: cause]. *)
Fixpoint error_text (e : error) : string :=
  match e with
  | ESent s => sentinel_text s
  | EMsg fmt => fmt
  | EWrap fmt c => (fmt +:+ ": " +:+ error_text c)%string
  end.

(** [strings.Contains] *)
Fixpoint contains (s sub : string) : bool :=
  String.prefix sub s ||
  match s with EmptyString => false | String _ s' => contains s' sub end.

Definition IsBlobNotFoundError (err : option error) : bool :=
  match err with
  | None => false
  | Some e =>
      bool_decide (e = ESent ErrBlobNotFound) || bool_decide (error_text e = "blob not found")
      || contains (error_text e) "blob not found"
  end.

Definition IsEndOfListError (err : option error) : bool :=
  match err with
  | None => false
  | Some e =>
      bool_decide (e = ESent ErrEndOfList) || bool_decide (error_text e = "end of list reached")
      || contains (error_text e) "end of list reached"
  end.

(** The errors that are passed on unwrapped. *)
Definition knownErrors : list sentinel :=
  [ErrBlobNotFound; ErrBlobExists; ErrInvalidHash; ErrInvalidSize; ErrStreamCorrupted; ErrAccessDenied;
   ErrInvalidManifest; ErrHashMismatch; ErrConnectionFailed; ErrTimeout; ErrInvalidConfig; ErrNoBlobData;
   ErrAlreadyConnected; ErrAcquisitionFailed; ErrEndOfList].

Definition IsKnownErrorType (e : error) : bool := existsb (fun s => bool_decide (e = ESent s)) knownErrors.

(** The errors a peer may send as text. *)
Definition wireErrors : list sentinel :=
  [ErrBlobNotFound; ErrBlobExists; ErrAccessDenied; ErrInvalidHash; ErrInvalidHashLen; ErrBlobProtected;
   ErrAcquisitionFailed].

Fixpoint detectIn (ss : list sentinel) (errorMsg : string) : error :=
  match ss with
  | [] => EMsg errorMsg
  | s :: ss' => if decide (errorMsg = sentinel_text s) then ESent s else detectIn ss' errorMsg
  end.

Definition DetectErrorType (errorMsg : string) : error := detectIn wireErrors errorMsg.

(** ** Properties *)

Lemma contains_prefix sub s : String.prefix sub s = true -> contains s sub = true.
Proof. intros H. destruct s; simpl in *; rewrite H; done. Qed.

Lemma contains_app_r s t sub : contains t sub = true -> contains (s +:+ t) sub = true.
Proof. intros H. induction s as [|c s IH]; simpl; [done|]. rewrite IH. apply orb_true_r. Qed.

(** Wrapping an error keeps its classification. *)
Lemma IsBlobNotFoundError_wrap fmt e :
  IsBlobNotFoundError (Some e) = true -> IsBlobNotFoundError (Some (EWrap fmt e)) = true.
Proof.
  intros H. assert (contains (error_text e) "blob not found" = true) as Hc.
  { unfold IsBlobNotFoundError in H. apply orb_true_iff in H as [H|H]; [|done].
    apply orb_true_iff in H as [H%bool_decide_eq_true|H%bool_decide_eq_true]; [by subst|by rewrite H]. }
  unfold IsBlobNotFoundError. apply orb_true_iff. right. simpl.
  by apply contains_app_r, (contains_app_r ": ").
Qed.

(** What a peer sends as text is recovered: detecting the text of an error gives
    the error itself for every error a peer sends, and any other text is kept as
    it is, so the text of the detected error is always the text received. *)
Theorem detect_error_text msg :
  error_text (DetectErrorType msg) = msg
  /\ Forall (fun s => DetectErrorType (sentinel_text s) = ESent s) wireErrors.
Proof.
  split.
  - unfold DetectErrorType. induction wireErrors as [|s ss IH]; simpl; [done|].
    case_decide; [by subst|done].
  - repeat apply List.Forall_cons; try done.
Qed.
