(* ===== verification/Trace.v ===== *)
(** * errors/errors.go: errors with stack traces

    The functions that attach a stack trace to an error and look below it, over an
    interface of the go-errors library.  The other files leave the traces out; the theorems
    here show what that relies on: attaching a trace changes neither the text of an error
    nor the errors it matches, and an error of pkg/errors is where this fails. *)
From stdpp Require Import base tactics list numbers strings.
From Stdlib Require Import ZArith Lia Strings.Ascii.
From S2P Require Import Prelude Errors.

(** ** Error values

    What an [error] interface may hold here: an error of the other files, an error made by
    [fmt.Errorf] with [%w] around any error, an error with a [Cause] method (an error of
    pkg/errors, with its text, its [%+v] text and what [Cause] and [Unwrap] return), or a
    pointer to an [Error] of go-errors: its exported field [Err] and the rest, [Meta]. *)
#[local] Set Warnings "-register-all".
Inductive errv (Meta : Type) :=
  | Plain (e : error)
  | Wrapf (fmt : string) (cause : errv Meta)
  | Causer (msg full : string) (cause : option (errv Meta))
  | GoErr (err : errv Meta) (meta : Meta).
Arguments Plain {Meta} e.
Arguments Wrapf {Meta} fmt cause.
Arguments Causer {Meta} msg full cause.
Arguments GoErr {Meta} err meta.

(** What an [any] parameter holds: an error, a string, or another value by its [%v] text. *)
Inductive any (Meta : Type) :=
  | AnyErr (e : errv Meta)
  | AnyStr (s : string)
  | AnyVal (text : string).
Arguments AnyErr {Meta} e.
Arguments AnyStr {Meta} s.
Arguments AnyVal {Meta} text.

(** The go-errors library: an [Error] is a pair of its field [Err] and the rest. *)
Class GoErrors (Meta : Type) := {
  goerrors_Wrap : any Meta -> Z -> errv Meta * Meta;
  goerrors_WrapPrefix : any Meta -> string -> Z -> errv Meta * Meta;
  goerrors_Stack : errv Meta * Meta -> string;
  goerrors_ErrorStack : errv Meta * Meta -> string;
  (** the text [WrapPrefix] added, empty when there is none *)
  metaPrefix : Meta -> string
}.

Definition isGoErr {Meta} (e : errv Meta) : bool := match e with GoErr _ _ => true | _ => false end.
Definition isCauser {Meta} (e : errv Meta) : bool := match e with Causer _ _ _ => true | _ => false end.

(** The text in front of another one. *)
Definition prefixed (prefix text : string) : string :=
  if decide (prefix = EmptyString) then text else (prefix +:+ ": " +:+ text)%string.

Definition joinPrefix (prefix p : string) : string :=
  if decide (p = EmptyString) then prefix else (prefix +:+ ": " +:+ p)%string.

(** Documented: a value that is an [Error] is used as it is, another error is wrapped with
    a new trace, any other value is passed to [fmt.Errorf] with [%v]; a prefix is put in
    front of the message. *)
Class GoErrorsLaws (Meta : Type) `{GoErrors Meta} := {
  wrap_same e m skip : goerrors_Wrap (AnyErr (GoErr e m)) skip = (e, m);
  wrap_error e skip : isGoErr e = false -> exists m,
    goerrors_Wrap (AnyErr e) skip = (e, m) /\ metaPrefix m = EmptyString;
  wrap_string s skip : exists m,
    goerrors_Wrap (AnyStr s) skip = (Plain (EMsg s), m) /\ metaPrefix m = EmptyString;
  wrap_value s skip : exists m,
    goerrors_Wrap (AnyVal s) skip = (Plain (EMsg s), m) /\ metaPrefix m = EmptyString;
  wrap_prefix a prefix skip : prefix <> EmptyString -> exists m,
    goerrors_WrapPrefix a prefix skip = ((goerrors_Wrap a skip).1, m)
    /\ metaPrefix m = joinPrefix prefix (metaPrefix (goerrors_Wrap a skip).2)
}.

Section Fmt.
Context {Meta : Type}.

(** The position, among the arguments, of the first [%w] of a format; no format of the
    repository has a second one. *)
Fixpoint wVerb (format : string) (i : nat) : option nat :=
  match format with
  | String "%"%char (String "%"%char rest) => wVerb rest i
  | String "%"%char (String "w"%char _) => Some i
  | String "%"%char rest => wVerb rest (S i)
  | String _ rest => wVerb rest i
  | EmptyString => None
  end.

(** [fmt.Errorf] *)
Definition Errorf (format : string) (args : list (any Meta)) : errv Meta :=
  match wVerb format 0 with
  | Some i => match args !! i with
              | Some (AnyErr e) => Wrapf format e
              | _ => Plain (EMsg format)
              end
  | None => Plain (EMsg format)
  end.
End Fmt.

(** ** The package *)
Module Trace.
Section Trace.
Context `{GoErrors Meta}.

Definition Err (err : option (any Meta)) (fmtParams : list (any Meta)) : option (errv Meta) :=
  match err with
  | None => None
  | Some a =>
      let a' :=
        match a with
        | AnyErr (Causer _ full _) => AnyErr (Plain (EMsg full))
        | AnyStr errString =>
            if (0 <? length fmtParams)%nat then AnyErr (Errorf errString fmtParams) else a
        | _ => a
        end in
      let '(e, m) := goerrors_Wrap a' 1 in Some (GoErr e m)
  end.

Definition Wrap (err : option (any Meta)) (skip : Z) : option (errv Meta * Meta) :=
  match err with
  | None => None
  | Some a =>
      let a' := match a with AnyErr (Causer _ full _) => AnyErr (Plain (EMsg full)) | _ => a end in
      Some (goerrors_Wrap a' (skip +i 1))
  end.

(** The loop of [Unwrap]: a turn takes off an [Error], then a [Cause]. *)
Fixpoint unwrapLoop (fuel : nat) (err : option (errv Meta)) : result (option (errv Meta)) :=
  match fuel with
  | O => Panic "out of fuel"
  | S fuel' =>
      let '(err, deeper) :=
        match err with Some (GoErr e _) => (Some e, true) | _ => (err, false) end in
      let '(err, deeper) :=
        match err with Some (Causer _ _ c) => (c, true) | _ => (err, deeper) end in
      if (deeper : bool) then unwrapLoop fuel' err else Ok err
  end.

Fixpoint depth (e : errv Meta) : nat :=
  match e with
  | GoErr e _ => S (depth e)
  | Causer _ _ (Some c) => S (depth c)
  | _ => 1%nat
  end.

Definition Unwrap (err : option (errv Meta)) : result (option (errv Meta)) :=
  match err with
  | None => Ok None
  | Some e => unwrapLoop (S (depth e)) (Some e)
  end.

(** [errors.Is] of the standard library: the error or one below it equals the target. *)
Fixpoint stdIs (e : errv Meta) (s : sentinel) : bool :=
  match e with
  | Plain e => error_is e s
  | Wrapf _ c => stdIs c s
  | Causer _ _ (Some c) => stdIs c s
  | Causer _ _ None => false
  | GoErr e _ => stdIs e s
  end.

(** [Is], for a target that is a package-level variable. *)
Definition Is (e : option (errv Meta)) (target : sentinel) : result bool :=
  u ← Unwrap e;
  t ← Unwrap (Some (Plain (ESent target)));
  Ok match u, t with
     | Some e, Some (Plain (ESent s)) => stdIs e s
     | _, _ => false
     end.

Definition Prefix (prefix : string) (err : option (any Meta)) : option (errv Meta) :=
  match err with
  | None => None
  | Some _ =>
      match Err err [] with
      | Some e => let '(e, m) := goerrors_WrapPrefix (AnyErr e) prefix 0 in Some (GoErr e m)
      | None => None
      end
  end.

(** The type assertion panics on anything that is not an [Error]. *)
Definition asGoErr (e : option (errv Meta)) : result (errv Meta * Meta) :=
  match e with
  | Some (GoErr e m) => Ok (e, m)
  | _ => Panic "interface conversion: error is not *errors.Error"
  end.

Definition TraceOf (err : option (errv Meta)) : result string :=
  match err with
  | None => Ok EmptyString
  | Some e => g ← asGoErr (Err (Some (AnyErr e)) []); Ok (goerrors_Stack g)
  end.

Definition FullTrace (err : option (errv Meta)) : result string :=
  match err with
  | None => Ok EmptyString
  | Some e => g ← asGoErr (Err (Some (AnyErr e)) []); Ok (goerrors_ErrorStack g)
  end.

Definition Base (format : string) (a : list (any Meta)) : errv Meta := Errorf format a.

Definition HasTrace (err : option (errv Meta)) : bool :=
  match err with Some (GoErr _ _) => true | _ => false end.

(** [Error()], the text of an error. *)
Fixpoint text (e : errv Meta) : string :=
  match e with
  | Plain e => error_text e
  | Wrapf fmt c => (fmt +:+ ": " +:+ text c)%string
  | Causer msg _ _ => msg
  | GoErr e m => prefixed (metaPrefix m) (text e)
  end.
End Trace.
End Trace.
Import Trace.

(** ** Theorems *)
Section Theorems.
Context `{GoErrorsLaws Meta}.

(** Nothing left for [Unwrap] to take off. *)
Definition bottom (u : option (errv Meta)) : Prop :=
  match u with Some (GoErr _ _) | Some (Causer _ _ _) => False | _ => True end.

Definition matches (u : option (errv Meta)) (s : sentinel) : bool :=
  match u with Some e => stdIs e s | None => false end.

(** The loop ends, at an error that is neither an [Error] nor has a cause, and what it
    takes off matches nothing by itself. *)
Lemma unwrapLoop_spec fuel (e : errv Meta) :
  (depth e < fuel)%nat -> exists u, unwrapLoop fuel (Some e) = Ok u /\ bottom u
    /\ forall s, stdIs e s = matches u s.
Proof.
  revert e. induction fuel as [|fuel IH]; intros e Hd; [lia|].
  assert (forall c, (depth c < fuel)%nat -> exists u, unwrapLoop fuel (Some c) = Ok u /\ bottom u
    /\ forall s, stdIs c s = matches u s) as IH' by eauto.
  assert (forall o, (match o with Some c => depth c | None => 0 end < fuel)%nat ->
    exists u, unwrapLoop fuel o = Ok u /\ bottom u /\ forall s, matches o s = matches u s) as IHo.
  { intros [c|] Hc; [by apply IH'|]. destruct fuel; [lia|]. by exists None. }
  destruct e as [e|f c|m f c|e m].
  - by exists (Some (Plain e)).
  - by exists (Some (Wrapf f c)).
  - destruct (IHo c) as (u & Hu & Hb & Hm); [destruct c; simpl in Hd; lia|].
    exists u. split_and!; [done..|]. intros s. rewrite <- Hm. by destruct c.
  - destruct e as [e|f c|m' f c|e m'].
    + apply (IH' (Plain e)). simpl in *. lia.
    + apply (IH' (Wrapf f c)). simpl in *. lia.
    + destruct (IHo c) as (u & Hu & Hb & Hm); [destruct c; simpl in Hd; lia|].
      exists u. split_and!; [done..|]. intros s. rewrite <- Hm. by destruct c.
    + apply (IH' (GoErr e m')). simpl in *. lia.
Qed.

Lemma Unwrap_bottom (e : errv Meta) :
  exists u, Unwrap (Some e) = Ok u /\ bottom u /\ forall s, stdIs e s = matches u s.
Proof. apply unwrapLoop_spec. lia. Qed.

Lemma Is_stdIs (e : errv Meta) s : Is (Some e) s = Ok (stdIs e s).
Proof.
  destruct (Unwrap_bottom e) as (u & Hu & _ & Hm). unfold Is. rewrite Hu. simpl.
  rewrite Hm. by destruct u.
Qed.

Lemma append_assoc (a b c : string) : ((a +:+ b) +:+ c = a +:+ b +:+ c)%string.
Proof. induction a as [|x a IH]; [done|]. exact (f_equal (String x) IH). Qed.

Lemma prefixed_cons p t : p <> EmptyString -> prefixed p t = (p +:+ ": " +:+ t)%string.
Proof. intros. unfold prefixed. by rewrite decide_False. Qed.

Lemma prefixed_prefixed p q t :
  p <> EmptyString ->
  prefixed (joinPrefix p q) t = (p +:+ ": " +:+ prefixed q t)%string.
Proof.
  intros Hp. unfold joinPrefix. case_decide as Hq; [subst; by apply prefixed_cons|].
  rewrite !prefixed_cons; [by rewrite !append_assoc|done|by destruct p].
Qed.

(** What [Err] does with an error. *)
Lemma Err_error (e : errv Meta) params :
  isCauser e = false -> exists e' m, Err (Some (AnyErr e)) params = Some (GoErr e' m)
    /\ text (GoErr e' m) = text e /\ forall s, stdIs e' s = stdIs e s.
Proof.
  intros Hc. destruct e as [e|f c|x f c|e m]; [| |done|].
  - destruct (wrap_error (Plain e) 1 eq_refl) as (m & E & Hp). exists (Plain e), m. simpl.
    rewrite E, Hp. done.
  - destruct (wrap_error (Wrapf f c) 1 eq_refl) as (m & E & Hp). exists (Wrapf f c), m. simpl.
    rewrite E, Hp. done.
  - exists e, m. simpl. by rewrite wrap_same.
Qed.

(** C35. A stack trace is transparent: for every error that is not one of pkg/errors, [Err]
    returns an error that has a trace, has the same text and matches the same errors;
    a trace that is there already is kept, with other arguments too; printing the trace
    does not panic; and [Prefix] changes the text only, by what it says. *)
Theorem trace_transparent (e : errv Meta) params :
  isCauser e = false ->
  exists e', Err (Some (AnyErr e)) params = Some e' /\ HasTrace (Some e') = true
    /\ text e' = text e /\ (forall s, Is (Some e') s = Is (Some e) s)
    /\ (forall params', Err (Some (AnyErr e')) params' = Some e')
    /\ is_ok (TraceOf (Some e)) = true /\ is_ok (FullTrace (Some e)) = true
    /\ (forall p, p <> EmptyString -> exists e'', Prefix p (Some (AnyErr e)) = Some e''
         /\ text e'' = (p +:+ ": " +:+ text e)%string
         /\ forall s, Is (Some e'') s = Is (Some e) s).
Proof.
  intros Hc. destruct (Err_error e params Hc) as (e' & m & E & Ht & Hs).
  destruct (Err_error e [] Hc) as (e0 & m0 & E0 & Ht0 & Hs0).
  exists (GoErr e' m). split_and!; [done|done|done| | | | |].
  - intros s. by rewrite !Is_stdIs, <- Hs.
  - intros params'. cbn [Err]. by rewrite wrap_same.
  - unfold TraceOf. by rewrite E0.
  - unfold FullTrace. by rewrite E0.
  - intros p Hp. destruct (wrap_prefix (AnyErr (GoErr e0 m0)) p 0 Hp) as (m1 & E1 & Hm1).
    unfold Prefix. rewrite E0, E1, wrap_same. eexists. split; [reflexivity|].
    rewrite wrap_same in Hm1. simpl in Hm1 |- *. split.
    + simpl in Ht0. rewrite <- Ht0, Hm1. by apply prefixed_prefixed.
    + intros s. rewrite !Is_stdIs. simpl. by rewrite Hs0.
Qed.

(** [Unwrap] ends for every error; [Is] does not panic and is the standard library's [Is]. *)
Theorem unwrap_terminates (e : errv Meta) :
  (exists u, Unwrap (Some e) = Ok u /\ bottom u) /\ forall s, Is (Some e) s = Ok (stdIs e s).
Proof.
  split; [|apply Is_stdIs]. destruct (Unwrap_bottom e) as (u & Hu & Hb & _). eauto.
Qed.

(** An error of pkg/errors matches what it wraps until [Err] has given it a trace: then it
    matches nothing any more. *)
Theorem causer_identity_lost msg full (c : errv Meta) params s :
  Is (Some (Causer msg full (Some c))) s = Is (Some c) s
  /\ exists e', Err (Some (AnyErr (Causer msg full (Some c)))) params = Some e'
       /\ Is (Some e') s = Ok false.
Proof.
  split; [by rewrite !Is_stdIs|]. unfold Err.
  destruct (wrap_error (Plain (EMsg full)) 1 eq_refl) as (m & E & _). rewrite E.
  eexists. split; [reflexivity|]. by rewrite Is_stdIs.
Qed.
End Theorems.

(** go-errors with a trace that is the number of frames that were skipped. *)
#[local] Instance sampleErrors : GoErrors (Z * string) := {
  goerrors_Wrap a skip :=
    match a with
    | AnyErr (GoErr e m) => (e, m)
    | AnyErr e => (e, (skip, EmptyString))
    | AnyStr s | AnyVal s => (Plain (EMsg s), (skip, EmptyString))
    end;
  goerrors_WrapPrefix a prefix skip :=
    let '(e, (k, p)) :=
      match a with
      | AnyErr (GoErr e m) => (e, m)
      | AnyErr e => (e, (skip, EmptyString))
      | AnyStr s | AnyVal s => (Plain (EMsg s), (skip, EmptyString))
      end in
    (e, (k, joinPrefix prefix p));
  goerrors_Stack _ := "main.go:1"%string;
  goerrors_ErrorStack _ := "*errors.Error main.go:1"%string;
  metaPrefix := snd
}.
#[local] Instance sampleErrorsLaws : GoErrorsLaws (Z * string).
Proof.
  split.
  - done.
  - intros e skip He. exists (skip, EmptyString). by destruct e.
  - intros s skip. by exists (skip, EmptyString).
  - intros s skip. by exists (skip, EmptyString).
  - intros a prefix skip _. destruct a as [[| | |e [k p]]| |]; (eexists; split; [reflexivity|done]).
Qed.

Lemma trace_transparent_witness :
  let e := Wrapf "invalid blob data: %w" (GoErr (Plain (ESent ErrInvalidSize)) (4%Z, "put"%string)) in
  exists e', Err (Some (AnyErr e)) [] = Some e' /\ HasTrace (Some e') = true
    /\ text e' = text e /\ (forall s, Is (Some e') s = Is (Some e) s)
    /\ (forall params', Err (Some (AnyErr e')) params' = Some e')
    /\ is_ok (TraceOf (Some e)) = true /\ is_ok (FullTrace (Some e)) = true
    /\ (forall p, p <> EmptyString -> exists e'', Prefix p (Some (AnyErr e)) = Some e''
         /\ text e'' = (p +:+ ": " +:+ text e)%string
         /\ forall s, Is (Some e'') s = Is (Some e) s).
Proof.
  intros e. apply (trace_transparent e []). reflexivity.
Defined.

(** With its arguments, a format that ends in [%w] keeps what it wraps. *)
Example err_of_format :
  Err (Some (AnyStr "invalid %s blob data: %w")) [AnyStr "sd"; AnyErr (Plain (ESent ErrInvalidSize))]
  = Some (GoErr (Wrapf "invalid %s blob data: %w" (Plain (ESent ErrInvalidSize))) (1%Z, EmptyString)).
Proof. reflexivity. Qed.
