(* ===== verification/Store.v ===== *)
(** * storage/blob.go: the blob-store interface

    Contexts, the operations of a store, and the laws a client may rely on, stated
    against an abstract map from hashes to blobs. *)
From stdpp Require Import base tactics list numbers strings gmap sorting.
From Stdlib Require Import ZArith Lia Init.Byte.
From S2P Require Import Prelude GoStd Errors.
Local Open Scope Z_scope.

(** ** Contexts *)

(** A context that is cancelled, with a cause, from the [ctx_after]-th time on that it
    is asked; once cancelled it stays so. *)
Record Context := mkContext { ctx_after : option nat; ctx_cause : sentinel }.

Definition Background : Context := mkContext None Canceled.

(** The [k]-th poll of [ctx.Err()] (or of [ctx.Done()]) in an operation. *)
Definition ctxErr (ctx : Context) (k : nat) : result unit :=
  match ctx_after ctx with
  | Some n => if decide (n <= k)%nat then Err (ESent (ctx_cause ctx)) else Ok tt
  | None => Ok tt
  end.

Lemma ctxErr_background k : ctxErr Background k = Ok tt.
Proof. done. Qed.

Lemma ctxErr_no_panic ctx k w : ctxErr ctx k <> Panic w.
Proof. unfold ctxErr. destruct (ctx_after ctx); [|done]. by case_decide. Qed.

(** ** Sorted lists of strings *)

(** Go's string order: byte by byte. *)
Fixpoint string_le (s t : bytes) : bool :=
  match s, t with
  | [], _ => true
  | _ :: _, [] => false
  | a :: s', b :: t' =>
      if Z_of_byte a <? Z_of_byte b then true
      else if Z_of_byte b <? Z_of_byte a then false
      else string_le s' t'
  end.

Definition StringLe (s t : bytes) : Prop := string_le s t = true.

#[export] Instance StringLe_dec s t : Decision (StringLe s t).
Proof. unfold StringLe. apply _. Defined.

Lemma string_le_total s t : StringLe s t \/ StringLe t s.
Proof.
  unfold StringLe. revert t. induction s as [|a s IH]; intros [|b t]; simpl; auto.
  destruct (Z.ltb_spec (Z_of_byte a) (Z_of_byte b)), (Z.ltb_spec (Z_of_byte b) (Z_of_byte a)); auto; lia.
Qed.

Lemma string_le_trans s t u : StringLe s t -> StringLe t u -> StringLe s u.
Proof.
  unfold StringLe. revert t u. induction s as [|a s IH]; intros [|b t] [|c u]; simpl; try done.
  repeat case_match; try lia; try done; eauto.
Qed.

Lemma string_le_antisym s t : StringLe s t -> StringLe t s -> s = t.
Proof.
  unfold StringLe. revert t. induction s as [|a s IH]; intros [|b t]; simpl; try done.
  destruct (Z.ltb_spec (Z_of_byte a) (Z_of_byte b)), (Z.ltb_spec (Z_of_byte b) (Z_of_byte a));
    try lia; try done.
  intros H1 H2. f_equal; [apply Z_of_byte_inj; lia|auto].
Qed.

#[export] Instance string_le_total_inst : Total StringLe.
Proof. intros s t. apply string_le_total. Qed.
#[export] Instance string_le_trans_inst : Transitive StringLe.
Proof. intros s t u. apply string_le_trans. Qed.
#[export] Instance string_le_antisym_inst : AntiSymm (=) StringLe.
Proof. intros s t. apply string_le_antisym. Qed.

(** [sort.Strings] *)
Definition sortStrings (l : list bytes) : list bytes := merge_sort StringLe l.

Lemma sortStrings_perm l : sortStrings l ≡ₚ l.
Proof. apply merge_sort_Permutation. Qed.

Lemma sortStrings_sorted l : Sorted StringLe (sortStrings l).
Proof. apply Sorted_merge_sort; apply _. Qed.

(** ** Pagination, shared by the stores *)

(** [hashSlice[start:end]] with the bounds of [List]; the sum wraps at 64 bits, and a
    slice whose end is below its start panics. *)
Definition paginate (hashes : list bytes) (offset limit : Z) : result (list bytes) :=
  if Z.of_nat (length hashes) <? offset then Err (ESent ErrEndOfList) else
  let end_ := offset +i limit in
  let end_ := if Z.of_nat (length hashes) <? end_ then Z.of_nat (length hashes) else end_ in
  if end_ <? offset then Panic "slice bounds out of range" else
  Ok (take (Z.to_nat (end_ - offset)) (drop (Z.to_nat offset) hashes)).

Lemma paginate_page hashes offset limit :
  0 <= offset <= Z.of_nat (length hashes) -> 0 < limit -> offset + limit < 2 ^ 63 ->
  paginate hashes offset limit
  = Ok (take (Z.to_nat limit) (drop (Z.to_nat offset) hashes)).
Proof.
  intros Ho Hl Hs. unfold paginate. rewrite (proj2 (Z.ltb_ge _ _)) by lia.
  rewrite int64_id by (unfold in_int64; lia).
  destruct (Z.ltb_spec (Z.of_nat (length hashes)) (offset + limit)).
  - rewrite (proj2 (Z.ltb_ge _ _)) by lia. f_equal.
    rewrite !take_ge; [done|rewrite length_drop; lia|rewrite length_drop; lia].
  - rewrite (proj2 (Z.ltb_ge _ _)) by lia. do 2 f_equal. lia.
Qed.

(** Pages of [limit] from 0 until the list is exhausted, concatenated. *)
Fixpoint pages (fuel : nat) (hashes : list bytes) (offset limit : nat) : list bytes :=
  match fuel with
  | O => []
  | S fuel => take limit (drop offset hashes) ++ pages fuel hashes (offset + limit) limit
  end.

Lemma pages_drop fuel hashes offset limit :
  (0 < limit)%nat -> (length hashes <= offset + fuel)%nat ->
  pages fuel hashes offset limit = drop offset hashes.
Proof.
  intros Hl. revert offset. induction fuel as [|fuel IH]; intros offset Hf; simpl.
  - by rewrite drop_ge by lia.
  - rewrite IH by lia. rewrite <- (take_drop limit (drop offset hashes)) at 2.
    by rewrite drop_drop.
Qed.

(** ** The interface *)

(** The operations of a [BlobStore] over a state [S]. *)
Class BlobStore (S : Type) := {
  Has : Context -> bytes -> S -> result bool;
  Get : Context -> bytes -> S -> result bytes;
  Put : Context -> bytes -> bytes -> S -> result unit * S;
  PutSD : Context -> bytes -> bytes -> S -> result unit * S;
  List_ : Context -> Z -> Z -> S -> result (list bytes);
  Delete : Context -> bytes -> S -> result unit * S
}.

(** What a store promises, for the hashes and data it accepts: it behaves as a map
    from hashes to blobs, whatever the context for the operations that change
    it. *)
Class BlobStoreLaws (S : Type) {B : BlobStore S} := {
  store_wf : S -> Prop;
  store_accepts : bytes -> bool;
  store_admits : bytes -> bool;
  store_view : S -> gmap bytes bytes;
  store_has s h :
    store_wf s -> store_accepts h = true ->
    Has Background h s = Ok (bool_decide (is_Some (store_view s !! h)));
  store_get s h :
    store_wf s -> store_accepts h = true ->
    match store_view s !! h with
    | Some d => Get Background h s = Ok d
    | None => exists e, Get Background h s = Err e /\ IsBlobNotFoundError (Some e) = true
    end;
  store_put_ok s h d :
    store_wf s -> store_accepts h = true -> store_admits d = true ->
    (Put Background h d s).1 = Ok tt;
  store_put s h d ctx :
    store_wf s -> store_accepts h = true ->
    let '(r, s') := Put ctx h d s in
    store_wf s' /\ store_view s' = if decide (r = Ok tt) then <[h := d]> (store_view s) else store_view s;
  store_putSD_ok s h d :
    store_wf s -> store_accepts h = true -> store_admits d = true ->
    (PutSD Background h d s).1 = Ok tt;
  store_putSD s h d ctx :
    store_wf s -> store_accepts h = true ->
    let '(r, s') := PutSD ctx h d s in
    store_wf s' /\ (forall h', h' <> h -> store_view s' !! h' = store_view s !! h')
    /\ (if decide (r = Ok tt) then is_Some (store_view s' !! h) else store_view s' = store_view s)
    /\ (r = Ok tt -> store_view s !! h = None -> store_view s' !! h = Some d);
  store_delete s h ctx :
    store_wf s -> store_accepts h = true ->
    let '(r, s') := Delete ctx h s in
    store_wf s' /\ (forall h', h' <> h -> store_view s' !! h' = store_view s !! h')
    /\ (r = Ok tt -> store_view s' !! h = None)
    /\ (is_Some (store_view s' !! h) -> is_Some (store_view s !! h));
  store_list s offset limit :
    store_wf s -> 0 <= offset -> 0 < limit -> 
    List_ Background offset limit s
    = paginate (sortStrings (elements (dom (store_view s)))) offset limit
}.
