(* ===== verification/Memory.v ===== *)
(** * storage/memory/memory.go: the in-memory store

    Two maps, one for blobs and one for stream descriptors; the operations with
    their context checks, and the proof that it implements the store interface. *)
From stdpp Require Import base tactics list numbers strings gmap sorting.
From Stdlib Require Import ZArith Lia Init.Byte.
From S2P Require Import Prelude GoStd Errors Blob Multihash Store.
Local Open Scope Z_scope.

Record MemoryStore := mkMemoryStore { ms_blobs : gmap bytes bytes; ms_sdBlobs : gmap bytes bytes }.

Definition NewMemoryStore : MemoryStore := mkMemoryStore ∅ ∅.

Section memory.
Context {L : CidLib}.

(** [validate]: the format of the hash, then the size of the data. *)
Definition validate (hash data : bytes) (kind : bytes) : result unit :=
  if negb (ValidateHash hash) then Err (ESent ErrInvalidHash) else
  match ValidForSend data with
  | Err err => Err (EWrap (if decide (kind = []) then "invalid blob data" else "invalid %s blob data") err)
  | r => r
  end.

(** [acquireReadLock], [acquireWriteLock]: the context is polled before the lock. *)
Definition acquireReadLock (ctx : Context) (k : nat) : result unit := ctxErr ctx k.
Definition acquireWriteLock (ctx : Context) (k : nat) : result unit := ctxErr ctx k.

Definition copyWithContext (ctx : Context) (k : nat) (data : bytes) : result bytes :=
  ctxErr ctx k ;; Ok data.

Definition Memory_Has (ctx : Context) (hash : bytes) (m : MemoryStore) : result bool :=
  ctxErr ctx 0 ;;
  if negb (ValidateHash hash) then Err (ESent ErrInvalidHash) else
  acquireReadLock ctx 1 ;;
  if bool_decide (is_Some (ms_blobs m !! hash)) then Ok true
  else if bool_decide (is_Some (ms_sdBlobs m !! hash)) then Ok true
  else Ok false.

Definition Memory_Get (ctx : Context) (hash : bytes) (m : MemoryStore) : result bytes :=
  ctxErr ctx 0 ;;
  if negb (ValidateHash hash) then Err (ESent ErrInvalidHash) else
  acquireReadLock ctx 1 ;;
  match ms_blobs m !! hash with
  | Some data => copyWithContext ctx 2 data
  | None =>
      match ms_sdBlobs m !! hash with
      | Some data => copyWithContext ctx 2 data
      | None => Err (EMsg "blob not found")
      end
  end.

Definition Memory_Put (ctx : Context) (hash data : bytes) (m : MemoryStore) : result unit * MemoryStore :=
  match (ctxErr ctx 0 ;; validate hash data [] ;; acquireWriteLock ctx 1 ;; copyWithContext ctx 2 data) with
  | Ok dataCopy => (Ok tt, mkMemoryStore (<[hash := dataCopy]> (ms_blobs m)) (ms_sdBlobs m))
  | Err e => (Err e, m)
  | Panic w => (Panic w, m)
  end.

Definition Memory_PutSD (ctx : Context) (hash data : bytes) (m : MemoryStore) : result unit * MemoryStore :=
  match (ctxErr ctx 0 ;; validate hash data (go "SD") ;; acquireWriteLock ctx 1 ;; copyWithContext ctx 2 data) with
  | Ok dataCopy => (Ok tt, mkMemoryStore (ms_blobs m) (<[hash := dataCopy]> (ms_sdBlobs m)))
  | Err e => (Err e, m)
  | Panic w => (Panic w, m)
  end.

(** The polls [k], ..., [k + n - 1] of a loop of [n] rounds. *)
Fixpoint pollLoop (ctx : Context) (k n : nat) : result unit :=
  match n with
  | O => Ok tt
  | S n => ctxErr ctx k ;; pollLoop ctx (S k) n
  end.

(** [List]: the keys of both maps, without duplicates, sorted and paginated. *)
Definition Memory_List (ctx : Context) (offset limit : Z) (m : MemoryStore) : result (list bytes) :=
  ctxErr ctx 0 ;;
  if offset <? 0 then Err (ESent ErrInvalidOffset) else
  if limit <=? 0 then Err (ESent ErrInvalidLimit) else
  acquireReadLock ctx 1 ;;
  pollLoop ctx 2 (size (ms_blobs m)) ;;
  pollLoop ctx (2 + size (ms_blobs m)) (size (ms_sdBlobs m)) ;;
  let allHashes := dom (ms_blobs m) ∪ dom (ms_sdBlobs m) in
  let k := (2 + size (ms_blobs m) + size (ms_sdBlobs m))%nat in
  pollLoop ctx k (size allHashes) ;;
  let hashSlice := sortStrings (elements allHashes) in
  ctxErr ctx (k + size allHashes) ;;
  paginate hashSlice offset limit.

Definition Memory_Delete (ctx : Context) (hash : bytes) (m : MemoryStore) : result unit * MemoryStore :=
  match (ctxErr ctx 0 ;;
         (if negb (ValidateHash hash) then Err (ESent ErrInvalidHash) else Ok tt) ;;
         acquireWriteLock ctx 1) with
  | Ok _ => (Ok tt, mkMemoryStore (delete hash (ms_blobs m)) (delete hash (ms_sdBlobs m)))
  | Err e => (Err e, m)
  | Panic w => (Panic w, m)
  end.

#[export] Instance MemoryBlobStore : BlobStore MemoryStore := {|
  Has := Memory_Has;
  Get := Memory_Get;
  Put := Memory_Put;
  PutSD := Memory_PutSD;
  List_ := Memory_List;
  Delete := Memory_Delete
|}.

(** ** The store implements the interface *)

(** Blobs take priority over descriptors of the same hash. *)
Definition memoryView (m : MemoryStore) : gmap bytes bytes := ms_blobs m ∪ ms_sdBlobs m.

Definition admits (d : bytes) : bool := bool_decide (ValidForSend d = Ok tt).

Lemma pollLoop_background k n : pollLoop Background k n = Ok tt.
Proof. revert k. induction n as [|n IH]; intros k; simpl; [done|]. by rewrite IH. Qed.

Lemma memoryView_lookup m h :
  memoryView m !! h = match ms_blobs m !! h with Some d => Some d | None => ms_sdBlobs m !! h end.
Proof. unfold memoryView. rewrite lookup_union. by destruct (ms_blobs m !! h), (ms_sdBlobs m !! h). Qed.

Lemma Memory_Has_spec m h :
  ValidateHash h = true -> Memory_Has Background h m = Ok (bool_decide (is_Some (memoryView m !! h))).
Proof.
  intros Hh. unfold Memory_Has. simpl. rewrite Hh. simpl. rewrite memoryView_lookup.
  destruct (ms_blobs m !! h); simpl; [done|]. destruct (ms_sdBlobs m !! h); done.
Qed.

Lemma Memory_Get_spec m h :
  ValidateHash h = true ->
  Memory_Get Background h m
  = match memoryView m !! h with Some d => Ok d | None => Err (EMsg "blob not found") end.
Proof.
  intros Hh. unfold Memory_Get. simpl. rewrite Hh. simpl. rewrite memoryView_lookup.
  destruct (ms_blobs m !! h); simpl; [done|]. by destruct (ms_sdBlobs m !! h).
Qed.

(** A write either happens completely or leaves the store as it was. *)
Lemma Memory_Put_cases ctx h d m :
  (Memory_Put ctx h d m = (Ok tt, mkMemoryStore (<[h := d]> (ms_blobs m)) (ms_sdBlobs m))
   /\ ValidateHash h = true /\ admits d = true)
  \/ exists r, Memory_Put ctx h d m = (r, m) /\ r <> Ok tt.
Proof.
  unfold Memory_Put, copyWithContext, acquireWriteLock, validate, admits.
  destruct (ctxErr ctx 0) as [[]|e|w]; simpl; [|right; by eexists..].
  destruct (ValidateHash h); simpl; [|right; by eexists].
  destruct (ValidForSend d) as [[]|e|w]; simpl; [|right; by eexists..].
  destruct (ctxErr ctx 1) as [[]|e|w]; simpl; [|right; by eexists..].
  destruct (ctxErr ctx 2) as [[]|e|w]; simpl; [|right; by eexists..]. by left.
Qed.

Lemma Memory_PutSD_cases ctx h d m :
  Memory_PutSD ctx h d m = (Ok tt, mkMemoryStore (ms_blobs m) (<[h := d]> (ms_sdBlobs m)))
  \/ exists r, Memory_PutSD ctx h d m = (r, m) /\ r <> Ok tt.
Proof.
  unfold Memory_PutSD, copyWithContext, acquireWriteLock, validate.
  destruct (ctxErr ctx 0) as [[]|e|w]; simpl; [|right; by eexists..].
  destruct (ValidateHash h); simpl; [|right; by eexists].
  destruct (ValidForSend d) as [[]|e|w]; simpl; [|right; by eexists..].
  destruct (ctxErr ctx 1) as [[]|e|w]; simpl; [|right; by eexists..].
  destruct (ctxErr ctx 2) as [[]|e|w]; simpl; [|right; by eexists..]. by left.
Qed.

Lemma Memory_Delete_cases ctx h m :
  Memory_Delete ctx h m = (Ok tt, mkMemoryStore (delete h (ms_blobs m)) (delete h (ms_sdBlobs m)))
  \/ exists r, Memory_Delete ctx h m = (r, m) /\ r <> Ok tt.
Proof.
  unfold Memory_Delete, acquireWriteLock.
  destruct (ctxErr ctx 0) as [[]|e|w]; simpl; [|right; by eexists..].
  destruct (ValidateHash h); simpl; [|right; by eexists].
  destruct (ctxErr ctx 1) as [[]|e|w]; simpl; [|right; by eexists..]. by left.
Qed.

#[export] Program Instance MemoryBlobStoreLaws : BlobStoreLaws MemoryStore := {|
  store_wf _ := True;
  store_accepts := ValidateHash;
  store_admits := admits;
  store_view := memoryView
|}.
Next Obligation. intros m h _ Hh. by apply Memory_Has_spec. Qed.
Next Obligation.
  intros m h _ Hh. simpl. rewrite Memory_Get_spec by done.
  destruct (memoryView m !! h); [done|]. by eexists.
Qed.
Next Obligation.
  intros m h d _ Hh Hd%bool_decide_eq_true. simpl. unfold Memory_Put, validate. simpl. by rewrite Hh, Hd.
Qed.
Next Obligation.
  intros m h d ctx _ Hh. simpl.
  destruct (Memory_Put_cases ctx h d m) as [(-> & _ & _)|(r & -> & Hr)]; split; try done.
  - rewrite decide_True by done. unfold memoryView. simpl. by rewrite insert_union_l.
  - by rewrite decide_False.
Qed.
Next Obligation.
  intros m h d _ Hh Hd%bool_decide_eq_true. simpl. unfold Memory_PutSD, validate. simpl. by rewrite Hh, Hd.
Qed.
Next Obligation.
  intros m h d ctx _ Hh. simpl.
  destruct (Memory_PutSD_cases ctx h d m) as [->|(r & -> & Hr)]; split_and!; try done.
  - intros h' Hne. rewrite !memoryView_lookup. simpl. by rewrite lookup_insert_ne.
  - rewrite decide_True by done. rewrite memoryView_lookup. simpl. rewrite lookup_insert_eq.
    destruct (ms_blobs m !! h); by eexists.
  - intros _. rewrite !memoryView_lookup. simpl. rewrite lookup_insert_eq. by destruct (ms_blobs m !! h).
  - by rewrite decide_False.
Qed.
Next Obligation.
  intros m h ctx _ Hh. simpl.
  destruct (Memory_Delete_cases ctx h m) as [->|(r & -> & Hr)]; split_and!; try done.
  - intros h' Hne. rewrite !memoryView_lookup. simpl. by rewrite !lookup_delete_ne.
  - intros _. rewrite memoryView_lookup. simpl. by rewrite !lookup_delete_eq.
  - rewrite memoryView_lookup. simpl. rewrite !lookup_delete_eq. by intros [? ?].
Qed.
Next Obligation.
  intros m offset limit _ Ho Hl. simpl. unfold Memory_List, acquireReadLock.
  rewrite ctxErr_background. simpl. rewrite (proj2 (Z.ltb_ge _ _)), (proj2 (Z.leb_gt _ _)) by lia.
  rewrite !pollLoop_background. simpl. unfold memoryView.
  by rewrite (leibniz_equiv (dom (_ ∪ _)) _ (dom_union _ _)).
Qed.
End memory.
