(* ===== verification/StoreSpec.v ===== *)
(** * What a client gets from any blob store

    Theorems proved against the store interface, and the in-memory store as the
    instance that discharges it. *)
From stdpp Require Import base tactics list numbers strings gmap sorting.
From Stdlib Require Import ZArith Lia Init.Byte.
From S2P Require Import Prelude GoStd Errors Sha2 Blob Multihash Store Memory.
Local Open Scope Z_scope.

Section client.
Context {S : Type} {B : BlobStore S} {BL : BlobStoreLaws S}.

(** The operations that change a store, each with its own context. *)
Inductive storeOp :=
  | OpPut (ctx : Context) (h d : bytes)
  | OpPutSD (ctx : Context) (h d : bytes)
  | OpDelete (ctx : Context) (h : bytes).

Definition opHash (op : storeOp) : bytes :=
  match op with OpPut _ h _ => h | OpPutSD _ h _ => h | OpDelete _ h => h end.

Definition runOp (op : storeOp) (s : S) : S :=
  match op with
  | OpPut ctx h d => (Put ctx h d s).2
  | OpPutSD ctx h d => (PutSD ctx h d s).2
  | OpDelete ctx h => (Delete ctx h s).2
  end.

Definition runOps (ops : list storeOp) (s : S) : S := foldl (fun s op => runOp op s) s ops.

(** An operation on one hash leaves the others alone, whether it succeeds or not. *)
Lemma runOp_other op s h :
  store_wf s -> store_accepts (opHash op) = true -> opHash op <> h ->
  store_wf (runOp op s) /\ store_view (runOp op s) !! h = store_view s !! h.
Proof.
  intros Hw Ha Hne. destruct op as [ctx k d|ctx k d|ctx k]; simpl in *.
  - pose proof (store_put s k d ctx Hw Ha) as H. destruct (Put ctx k d s) as [r s']. simpl.
    destruct H as [? ->]. split; [done|]. case_decide; [by rewrite lookup_insert_ne|done].
  - pose proof (store_putSD s k d ctx Hw Ha) as H. destruct (PutSD ctx k d s) as [r s']. simpl.
    destruct H as (? & H & _). split; [done|]. by apply H.
  - pose proof (store_delete s k ctx Hw Ha) as H. destruct (Delete ctx k s) as [r s']. simpl.
    destruct H as (? & H & _). split; [done|]. by apply H.
Qed.

Lemma runOps_other ops s h :
  store_wf s -> Forall (fun op => store_accepts (opHash op) = true /\ opHash op <> h) ops ->
  store_wf (runOps ops s) /\ store_view (runOps ops s) !! h = store_view s !! h.
Proof.
  intros Hw H. revert s Hw. induction H as [|op ops [Ha Hne] _ IH]; intros s Hw; [done|].
  destruct (runOp_other op s h Hw Ha Hne) as [Hw' E]. unfold runOps. simpl.
  destruct (IH (runOp op s) Hw') as [Hw'' E']. unfold runOps in *. by rewrite E', E.
Qed.

(** Read back: in any store that implements the interface, a blob that was stored
    successfully is returned unchanged after any sequence of operations on other
    hashes, with any contexts, including cancelled ones. *)
Theorem store_readback ctx h d s s' ops
    (Hw : store_wf s) (Ha : store_accepts h = true)
    (Hput : Put ctx h d s = (Ok tt, s'))
    (Hops : Forall (fun op => store_accepts (opHash op) = true /\ opHash op <> h) ops) :
  Get Background h (runOps ops s') = Ok d /\ Has Background h (runOps ops s') = Ok true.
Proof.
  pose proof (store_put s h d ctx Hw Ha) as H. rewrite Hput in H. destruct H as [Hw' Hv].
  rewrite decide_True in Hv by done.
  destruct (runOps_other ops s' h Hw' Hops) as [Hw'' E].
  rewrite Hv, lookup_insert_eq in E. split.
  - pose proof (store_get (runOps ops s') h Hw'' Ha) as Hg. by rewrite E in Hg.
  - rewrite store_has by done. by rewrite E.
Qed.

(** The pages a client collects with a fixed limit, until one comes back short. *)
Fixpoint listAll (fuel : nat) (offset limit : Z) (s : S) : result (list bytes) :=
  match fuel with
  | O => Ok []
  | Datatypes.S fuel =>
      page ← List_ Background offset limit s;
      if decide (Z.of_nat (length page) < limit) then Ok page else
      rest ← listAll fuel (offset + limit) limit s;
      Ok (page ++ rest)
  end.

Lemma listAll_drop fuel offset limit s :
  store_wf s -> 0 <= offset <= Z.of_nat (size (dom (store_view s))) -> 0 < limit < 2 ^ 31 ->
  Z.of_nat (size (dom (store_view s))) < 2 ^ 31 ->
  (size (dom (store_view s)) < Z.to_nat offset + fuel)%nat ->
  listAll fuel offset limit s
  = Ok (drop (Z.to_nat offset) (sortStrings (elements (dom (store_view s))))).
Proof.
  intros Hw Ho Hl Hs. revert offset Ho.
  set (hs := sortStrings (elements (dom (store_view s)))).
  assert (length hs = size (dom (store_view s))) as Hlen
    by (unfold hs; by rewrite sortStrings_perm).
  induction fuel as [|fuel IH]; intros offset Ho Hf; simpl.
  { rewrite drop_ge by lia. done. }
  rewrite store_list by (done || lia). fold hs. rewrite paginate_page by lia. simpl.
  case_decide as Hd; rewrite length_take, length_drop in Hd.
  - rewrite take_ge by (rewrite length_drop; lia). done.
  - rewrite IH by lia. simpl. f_equal.
    rewrite <- (take_drop (Z.to_nat limit) (drop (Z.to_nat offset) hs)) at 2. f_equal.
    rewrite drop_drop. f_equal. lia.
Qed.

(** Complete listing: collecting the pages of any size from offset 0 gives every
    stored hash exactly once, in increasing order. *)
Theorem list_all_pages limit s
    (Hw : store_wf s) (Hl : 0 < limit < 2 ^ 31)
    (Hs : Z.of_nat (size (dom (store_view s))) < 2 ^ 31) :
  exists hs, listAll (Datatypes.S (size (dom (store_view s)))) 0 limit s = Ok hs
    /\ Sorted StringLe hs /\ NoDup hs
    /\ forall h, h ∈ hs <-> is_Some (store_view s !! h).
Proof.
  eexists. split; [apply listAll_drop; done || lia|]. change (Z.to_nat 0) with 0%nat. rewrite drop_0.
  split_and!.
  - apply sortStrings_sorted.
  - rewrite sortStrings_perm. apply NoDup_elements.
  - intros h. rewrite sortStrings_perm, elem_of_elements, elem_of_dom. done.
Qed.
End client.

(** The pagination overflows: with at least one blob stored, a listing from offset
    1 with the largest limit computes a negative end and panics. *)
Theorem list_overflow_panics m
    (Hm : (1 <= size (dom (memoryView m)))%nat) :
  Memory_List Background 1 (2 ^ 63 - 1) m = Panic "slice bounds out of range".
Proof.
  pose proof (store_list (BlobStoreLaws := MemoryBlobStoreLaws (L := exampleCid)) m 1 (2 ^ 63 - 1) I ltac:(lia) ltac:(lia)) as H.
  simpl in H. rewrite H. clear H.
  set (hs := sortStrings _). assert (length hs = size (dom (memoryView m))) as Hl
    by (unfold hs; by rewrite sortStrings_perm).
  unfold paginate. rewrite (proj2 (Z.ltb_ge (Z.of_nat (length hs)) 1)) by lia.
  change (1 +i (2 ^ 63 - 1)) with (- 2 ^ 63).
  rewrite (proj2 (Z.ltb_ge (Z.of_nat (length hs)) (- 2 ^ 63))) by lia. done.
Qed.

(** ** Concrete instances *)

Definition hashA : bytes := replicate 96 x61.
Definition hashB : bytes := replicate 96 x62.

Lemma store_readback_witness :
  exists s', Memory_Put (L := exampleCid) Background hashA (go "x") NewMemoryStore = (Ok tt, s')
    /\ Memory_Get (L := exampleCid) Background hashA
         (runOps (B := MemoryBlobStore (L := exampleCid))
            [OpPut (mkContext (Some 0%nat) Canceled) hashB (go "y"); OpDelete Background hashB] s')
       = Ok (go "x").
Proof.
  destruct (Memory_Put (L := exampleCid) Background hashA (go "x") NewMemoryStore) as [r s'] eqn:E.
  assert (r = Ok tt) as -> by (change r with (r, s').1; rewrite <- E; reflexivity).
  exists s'. split; [done|].
  refine (proj1 (store_readback (BL := MemoryBlobStoreLaws (L := exampleCid)) Background hashA (go "x")
    NewMemoryStore s' _ I _ E _)).
  - vm_compute. reflexivity.
  - repeat constructor; vm_compute; congruence.
Defined.

Definition twoBlobs : MemoryStore := mkMemoryStore {[ hashA := go "x" ]} {[ hashB := go "y" ]}.

Lemma twoBlobs_size : size (dom (memoryView twoBlobs)) = 2%nat.
Proof. vm_compute. reflexivity. Qed.

Lemma list_all_pages_witness :
  exists hs, listAll (B := MemoryBlobStore (L := exampleCid)) 3 0 1 twoBlobs = Ok hs
    /\ Sorted StringLe hs.
Proof.
  destruct (list_all_pages (BL := MemoryBlobStoreLaws (L := exampleCid)) 1 twoBlobs I ltac:(lia))
    as (hs & H1 & H2 & _).
  - simpl store_view. rewrite twoBlobs_size. lia.
  - simpl store_view in H1. rewrite twoBlobs_size in H1. exact (ex_intro _ hs (conj H1 H2)).
Defined.

Lemma list_overflow_panics_witness :
  Memory_List Background 1 (2 ^ 63 - 1) twoBlobs = Panic "slice bounds out of range".
Proof. apply (list_overflow_panics twoBlobs). rewrite twoBlobs_size. lia. Defined.
