(* ===== verification/Disk.v ===== *)
(** * storage/disk/disk.go: the disk store

    Paths and their cleaning, a file system with faults at any system call, and the
    store's operations in a state-and-error monad.  Every change of the files is
    recorded in a trace, so that the theorems can speak of the states in between. *)
From stdpp Require Import base tactics list numbers strings gmap sorting.
From Stdlib Require Import ZArith Lia Init.Byte.
From S2P Require Import Prelude GoStd Errors Store.
Local Open Scope Z_scope.

(** ** Paths *)

(** A path: rooted or relative, and its elements. *)
Abbreviation Path := (bool * list bytes)%type.

Definition dot : bytes := go ".".
Definition dotdot : bytes := go "..".

(** One step of [filepath.Clean]; the accumulator is the cleaned prefix. *)
Definition cleanStep (rooted : bool) (acc : list bytes) (c : bytes) : list bytes :=
  if decide (c = [] \/ c = dot) then acc
  else if decide (c = dotdot) then
    match last acc with
    | None => if rooted then [] else [dotdot]
    | Some l => if decide (l = dotdot) then acc ++ [dotdot] else take (length acc - 1) acc
    end
  else acc ++ [c].

Definition Clean (p : Path) : Path := (p.1, foldl (cleanStep p.1) [] p.2).

(** [filepath.Join(base, elems...)] *)
Definition Join (base : Path) (elems : list bytes) : Path := Clean (base.1, base.2 ++ elems).

(** [filepath.Dir] of a cleaned path. *)
Definition Dir (p : Path) : Path := (p.1, take (length p.2 - 1) p.2).

Fixpoint stripCommon (b t : list bytes) : list bytes * list bytes :=
  match b, t with
  | x :: b', y :: t' => if decide (x = y) then stripCommon b' t' else (b, t)
  | _, _ => (b, t)
  end.

(** [filepath.Rel] of cleaned paths. *)
Definition Rel (base targ : Path) : result (list bytes) :=
  if negb (Bool.eqb base.1 targ.1) then Err (EMsg "Rel: can't make relative") else
  let '(b, t) := stripCommon base.2 targ.2 in
  if decide (dotdot ∈ b) then Err (EMsg "Rel: can't make relative")
  else Ok (replicate (length b) dotdot ++ t).

(** ** Hashes and their files *)

Definition SDDirectory : bytes := go "sd".

(** [^[a-fA-F0-9]{96}$] *)
Definition validateHash (hash : bytes) : bool :=
  Nat.eqb (length hash) 96 && forallb (fun c => match hex_value c with Some _ => true | None => false end) hash.

(** ** The world *)

Record World := mkWorld {
  w_files : gmap Path bytes;
  w_dirs : gset Path;
  w_links : gset Path;
  w_clock : nat;
  w_polls : nat;
  w_trace : list (gmap Path bytes)
}.

(** The operating system: the fault of the [k]-th system call if it fails, how much a
    failing write still writes, and the name of a new temporary file. *)
Class OS := {
  os_fault : nat -> option error;
  os_short : nat -> nat;
  os_pick : gmap Path bytes -> Path -> bytes
}.

(** [os.CreateTemp] does not reuse a file that exists. *)
Class OSLaws (Sys : OS) : Prop := {
  os_pick_fresh files dir :
    files !! ((dir.1, dir.2 ++ [go ".tmp-" ++ os_pick files dir]) : Path) = None
}.

(** *** The monad *)

Definition M (A : Type) : Type := World -> result A * World.

#[export] Instance M_ret : MRet M := fun A a w => (Ok a, w).
#[export] Instance M_bind : MBind M := fun A B f m w =>
  let '(r, w') := m w in
  match r with Ok a => f a w' | Err e => (Err e, w') | Panic x => (Panic x, w') end.

Definition throw {A} (e : error) : M A := fun w => (Err e, w).

(** The outcome of [m] as a value. *)
Definition try {A} (m : M A) : M (result A) := fun w =>
  let '(r, w') := m w in match r with Panic x => (Panic x, w') | r => (Ok r, w') end.

Definition wrap {A} (fmt : string) (m : M A) : M A := fun w =>
  let '(r, w') := m w in (wrap_err fmt r, w').

Definition poll (ctx : Context) : M unit := fun w =>
  (ctxErr ctx (w_polls w),
   mkWorld (w_files w) (w_dirs w) (w_links w) (w_clock w) (S (w_polls w)) (w_trace w)).

(** The polls of an operation are counted from its start. *)
Definition start : M unit := fun w =>
  (Ok tt, mkWorld (w_files w) (w_dirs w) (w_links w) (w_clock w) 0 (w_trace w)).

Definition setFiles (f : gmap Path bytes) : M unit := fun w =>
  (Ok tt, mkWorld f (w_dirs w) (w_links w) (w_clock w) (w_polls w) (w_trace w ++ [f])).

Definition gets {A} (f : World -> A) : M A := fun w => (Ok (f w), w).

Definition getFiles : M (gmap Path bytes) := gets w_files.

(** A pure result. *)
Definition lift {A} (r : result A) : M A := fun w => (r, w).

Section disk.
Context {Sys : OS}.

(** *** System calls *)

(** One system call that may fail. *)
Definition sys : M unit := fun w =>
  (match os_fault (w_clock w) with Some e => Err e | None => Ok tt end,
   mkWorld (w_files w) (w_dirs w) (w_links w) (S (w_clock w)) (w_polls w) (w_trace w)).

Definition ENOENT : error := EMsg "file does not exist".
Definition IsNotExist (e : error) : bool := bool_decide (e = ENOENT).

Definition readFile (p : Path) : M bytes :=
  sys ;; files ← getFiles;
  match files !! p with Some d => mret d | None => throw ENOENT end.

Definition stat (p : Path) : M Z := d ← readFile p; mret (Z.of_nat (length d)).

Definition isSymlink (p : Path) : M bool :=
  sys ;; gets (fun w => bool_decide (p ∈ w_links w)).

(** The directory and its parents. *)
Definition addDirs (p : Path) : M unit := fun w =>
  (Ok tt, mkWorld (w_files w)
    (list_to_set (map (fun n => (p.1, take n p.2)) (seq 0 (S (length p.2)))) ∪ w_dirs w)
    (w_links w) (w_clock w) (w_polls w) (w_trace w)).

Definition mkdirAll (p : Path) : M unit := sys ;; addDirs p.

Definition createTemp (dir : Path) : M Path :=
  sys ;; files ← getFiles;
  let tmp := (dir.1, dir.2 ++ [go ".tmp-" ++ os_pick files dir]) in
  setFiles (<[tmp := []]> files) ;; mret tmp.

(** [file.Write]: everything, or a part and an error. *)
Definition write (p : Path) (data : bytes) : M Z := fun w =>
  let old := match w_files w !! p with Some d => d | None => [] end in
  let clock := w_clock w in
  let w' := mkWorld (w_files w) (w_dirs w) (w_links w) (S clock) (w_polls w) (w_trace w) in
  match os_fault clock with
  | Some e => match setFiles (<[p := old ++ take (os_short clock) data]> (w_files w)) w' with
              | (_, w'') => (Err e, w'')
              end
  | None => match setFiles (<[p := old ++ data]> (w_files w)) w' with
            | (_, w'') => (Ok (Z.of_nat (length data)), w'')
            end
  end.

Definition rename (from to : Path) : M unit :=
  sys ;; files ← getFiles;
  match files !! from with
  | Some d => setFiles (<[to := d]> (delete from files))
  | None => throw ENOENT
  end.

Definition remove (p : Path) : M unit :=
  sys ;; files ← getFiles;
  match files !! p with
  | Some _ => setFiles (delete p files)
  | None => throw ENOENT
  end.

(** ** The store *)

Definition rejectSymlink (p : Path) : M unit :=
  r ← try (isSymlink p);
  match r with
  | Ok true => throw (EMsg "symlink detected in path: %s")
  | _ => mret tt
  end.

(** The path must not leave the base directory. *)
Definition checkInside (base cleanPath : Path) : M unit :=
  match Rel (Clean base) cleanPath with
  | Ok rel => if decide (head rel = Some dotdot)
              then throw (EMsg "path traversal attempt detected: %s") else mret tt
  | _ => throw (EMsg "path traversal attempt detected: %s")
  end.

Definition safeJoin (base : Path) (hash : bytes) : M Path :=
  if negb (validateHash hash) then throw (ESent ErrInvalidHash) else
  let subDir := take 2 hash in
  let cleanPath := Clean (Join base [subDir; hash]) in
  checkInside base cleanPath ;;
  rejectSymlink (Join base [subDir]) ;;
  mret cleanPath.

Definition safeJoinSD (base : Path) (hash : bytes) : M Path :=
  if negb (validateHash hash) then throw (ESent ErrInvalidHash) else
  let subDir := take 2 hash in
  let cleanPath := Clean (Join base [SDDirectory; subDir; hash]) in
  checkInside base cleanPath ;;
  rejectSymlink (Join base [SDDirectory]) ;;
  rejectSymlink (Join base [SDDirectory; subDir]) ;;
  mret cleanPath.

(** [for written < len(data)]: every write takes all that is left. *)
Fixpoint writeLoop (fuel : nat) (ctx : Context) (p : Path) (data : bytes) : M unit :=
  match fuel, data with
  | _, [] => mret tt
  | O, _ => throw (EMsg "out of fuel")
  | S fuel, _ => poll ctx ;; n ← write p data; writeLoop fuel ctx p (drop (Z.to_nat n) data)
  end.

(** The chunks of 4096 bytes of larger data. *)
Fixpoint chunkWrites (fuel : nat) (ctx : Context) (p : Path) (data : bytes) : M unit :=
  match fuel, data with
  | _, [] => mret tt
  | O, _ => throw (EMsg "out of fuel")
  | S fuel, _ =>
      poll ctx ;; writeLoop (S (length (take 4096 data))) ctx p (take 4096 data) ;;
      chunkWrites fuel ctx p (drop 4096 data)
  end.

Definition writeWithContext (ctx : Context) (p : Path) (data : bytes) : M unit :=
  if decide (length data <= 4096)%nat then writeLoop (S (length data)) ctx p data
  else chunkWrites (length data) ctx p data.

(** The steps between the creation of the temporary file and the end of the rename. *)
Definition fillAndRename (ctx : Context) (tmp path : Path) (data : bytes) : M unit :=
  wrap "failed to write temporary file" (writeWithContext ctx tmp data) ;;
  poll ctx ;;
  wrap "failed to sync temporary file" sys ;;
  poll ctx ;;
  wrap "failed to close temporary file" sys ;;
  wrap "failed to set file permissions" sys ;;
  poll ctx ;;
  wrap "failed to rename temporary file" (rename tmp path).

(** The deferred cleanup: close and remove, ignoring their errors. *)
Definition cleanup (tmp : Path) : M (result unit) := try sys ;; try (remove tmp).

Definition cleanupOnError (tmp : Path) (m : M unit) : M unit := fun w =>
  let '(r, w') := m w in
  match r with
  | Ok tt => (Ok tt, w')
  | r => (r, (cleanup tmp w').2)
  end.

(** The best-effort sync of the parent directory: open, sync, close. *)
Definition syncDir : M unit :=
  d ← try sys;
  match d with
  | Ok _ => try sys ;; try sys ;; mret tt
  | _ => mret tt
  end.

Definition atomicWrite (ctx : Context) (path : Path) (data : bytes) : M unit :=
  poll ctx ;;
  let dir := Dir path in
  wrap "failed to create directory" (mkdirAll dir) ;;
  poll ctx ;;
  tmp ← wrap "failed to create temporary file" (createTemp dir);
  cleanupOnError tmp (fillAndRename ctx tmp path data) ;;
  syncDir.

(** [for { ... file.Read(buffer) ... }] of what is left of the file. *)
Fixpoint readLoop (fuel : nat) (ctx : Context) (rest acc : bytes) : M bytes :=
  match fuel with
  | O => throw (EMsg "out of fuel")
  | S fuel =>
      poll ctx ;; sys ;;
      if decide (rest = []) then mret acc
      else readLoop fuel ctx (drop 4096 rest) (acc ++ take 4096 rest)
  end.

Definition readWithContext (ctx : Context) (p : Path) : M bytes :=
  size ← stat p;
  if size <=? 4096 then readFile p else
  rest ← readFile p;
  poll ctx ;;
  readLoop (S (length rest)) ctx rest [].

(** [checkBlobPaths]: the data of the regular blob, else of the descriptor. *)
Definition checkBlobPaths (ctx : Context) (base : Path) (hash : bytes) : M bytes :=
  poll ctx ;;
  blobPath ← safeJoin base hash;
  poll ctx ;;
  r ← try (readWithContext ctx blobPath);
  match r with
  | Ok data => mret data
  | Panic x => throw (EMsg "unreachable")
  | Err e =>
      if negb (IsNotExist e) then throw e else
      poll ctx ;;
      sdBlobPath ← safeJoinSD base hash;
      poll ctx ;;
      r ← try (readWithContext ctx sdBlobPath);
      match r with
      | Ok data => mret data
      | Panic x => throw (EMsg "unreachable")
      | Err e => if negb (IsNotExist e) then throw e else throw (EMsg "blob not found: %s")
      end
  end.

Context (path : Path).

Definition Disk_Has (ctx : Context) (hash : bytes) : M bool :=
  start ;; poll ctx ;;
  if negb (validateHash hash) then mret false else
  poll ctx ;;
  blobPath ← safeJoin path hash;
  poll ctx ;;
  r ← try (stat blobPath);
  match r with
  | Ok _ => mret true
  | Panic x => throw (EMsg "unreachable")
  | Err e =>
      if negb (IsNotExist e) then throw e else
      poll ctx ;;
      sdBlobPath ← safeJoinSD path hash;
      poll ctx ;;
      r ← try (stat sdBlobPath);
      match r with
      | Ok _ => mret true
      | Panic x => throw (EMsg "unreachable")
      | Err e => if negb (IsNotExist e) then throw e else mret false
      end
  end.

Definition Disk_Get (ctx : Context) (hash : bytes) : M bytes :=
  start ;; poll ctx ;;
  if negb (validateHash hash) then throw (ESent ErrInvalidHash) else
  checkBlobPaths ctx path hash.

Definition Disk_Put (ctx : Context) (hash data : bytes) : M unit :=
  start ;; poll ctx ;;
  if negb (validateHash hash) then throw (ESent ErrInvalidHash) else
  poll ctx ;;
  blobPath ← safeJoin path hash;
  atomicWrite ctx blobPath data.

Definition Disk_PutSD (ctx : Context) (hash data : bytes) : M unit :=
  start ;; poll ctx ;;
  if negb (validateHash hash) then throw (ESent ErrInvalidHash) else
  poll ctx ;;
  sdBlobPath ← safeJoinSD path hash;
  atomicWrite ctx sdBlobPath data.

(** A removal that does not mind a missing file. *)
Definition removeIfExists (fmt : string) (p : Path) : M unit :=
  r ← try (remove p);
  match r with
  | Err e => if negb (IsNotExist e) then throw (EWrap fmt e) else mret tt
  | _ => mret tt
  end.

Definition Disk_Delete (ctx : Context) (hash : bytes) : M unit :=
  start ;; poll ctx ;;
  if negb (validateHash hash) then throw (ESent ErrInvalidHash) else
  poll ctx ;;
  blobPath ← safeJoin path hash;
  poll ctx ;;
  removeIfExists "failed to delete regular blob" blobPath ;;
  poll ctx ;;
  sdBlobPath ← safeJoinSD path hash;
  poll ctx ;;
  removeIfExists "failed to delete SD blob" sdBlobPath.

(** The entries [filepath.Walk] visits below the base, directories and files. *)
Definition below (base p : Path) : bool :=
  bool_decide (base.1 = p.1 /\ take (length base.2) p.2 = base.2).

Definition walkOf (w : World) : list (option bytes) :=
  map (fun _ => None) (List.filter (below (Clean path)) (elements (w_dirs w)))
  ++ map (fun p : Path => last p.2) (List.filter (below (Clean path)) (elements (dom (w_files w)))).

Fixpoint walkEntries (ctx : Context) (entries : list (option bytes)) (acc : gset bytes) : M (gset bytes) :=
  match entries with
  | [] => mret acc
  | entry :: entries' =>
      poll ctx ;; sys ;;
      walkEntries ctx entries'
        (match entry with
         | Some filename => if validateHash filename then {[ filename ]} ∪ acc else acc
         | None => acc
         end)
  end.

Definition collectBlobHashes (ctx : Context) : M (list bytes) :=
  poll ctx ;;
  entries ← gets walkOf;
  hashSet ← walkEntries ctx entries ∅;
  mret (sortStrings (elements hashSet)).

Definition Disk_List (ctx : Context) (offset limit : Z) : M (list bytes) :=
  start ;; poll ctx ;;
  if offset <? 0 then throw (ESent ErrInvalidOffset) else
  if limit <=? 0 then throw (ESent ErrInvalidLimit) else
  allHashes ← wrap "failed to collect blob hashes" (collectBlobHashes ctx);
  lift (paginate allHashes offset limit).
End disk.

(** [CreateStore]: the configured path, cleaned, checked and created. *)
Definition CreateStore `{OS} (config : option (option Path)) : M Path :=
  match config with
  | None => throw (EMsg "configuration cannot be nil")
  | Some None => throw (EMsg "missing or invalid 'path' configuration parameter")
  | Some (Some p) =>
      let cleanPath := Clean p in
      rejectSymlink cleanPath ;;
      wrap "failed to create storage directory" (mkdirAll cleanPath) ;;
      mret cleanPath
  end.
