(* ===== verification/DiskLogic.v ===== *)
(** * Reasoning about the disk store

    The paths the store builds stay below its base and do not collide; a Hoare logic
    for the monad, whose assertions speak of the files and of the trace of their past
    states, with a separate postcondition for errors. *)
From stdpp Require Import base tactics list numbers strings gmap sorting.
From Stdlib Require Import ZArith Lia Init.Byte.
From S2P Require Import Prelude GoStd Errors Store Disk.
Local Open Scope Z_scope.

(** ** Paths *)

(** An element that cleaning keeps. *)
Definition plain (c : bytes) : Prop := c <> [] /\ c <> dot /\ c <> dotdot.

(** The shape of a cleaned path: parent references first, none in a rooted path. *)
Definition cleaned (rooted : bool) (l : list bytes) : Prop :=
  exists n ps, l = replicate n dotdot ++ ps /\ Forall plain ps /\ (rooted = true -> n = 0%nat).

Lemma cleanStep_plain rooted acc c : plain c -> cleanStep rooted acc c = acc ++ [c].
Proof.
  intros (H1 & H2 & H3). unfold cleanStep. rewrite decide_False by naive_solver.
  by rewrite decide_False.
Qed.

Lemma foldl_clean_plain rooted acc ps :
  Forall plain ps -> foldl (cleanStep rooted) acc ps = acc ++ ps.
Proof.
  intros H. revert acc. induction H as [|p ps Hp _ IH]; intros acc; simpl; [by rewrite app_nil_r|].
  by rewrite cleanStep_plain, IH, <- app_assoc.
Qed.

Lemma cleanStep_cleaned rooted acc c : cleaned rooted acc -> cleaned rooted (cleanStep rooted acc c).
Proof.
  intros (n & ps & -> & Hps & Hr). unfold cleanStep. case_decide as H1; [by exists n, ps|].
  case_decide as H2.
  - destruct ps as [|p ps _] using rev_ind.
    + rewrite app_nil_r. destruct n as [|n]; simpl.
      * destruct rooted; [by exists 0%nat, []|by exists 1%nat, []].
      * destruct rooted; [naive_solver|].
        change (dotdot :: replicate n dotdot) with (replicate (S n) dotdot).
        rewrite replicate_S_end, last_snoc, decide_True by done.
        rewrite <- !replicate_S_end. exists (S (S n)), []. by rewrite app_nil_r.
    + apply Forall_app in Hps as [Hps (Hp & _)%List.Forall_cons_iff].
      rewrite app_assoc, last_snoc, decide_False by (destruct Hp; naive_solver).
      exists n, ps. rewrite length_app. simpl. rewrite take_app_le by lia.
      by rewrite Nat.add_sub, firstn_all.
  - exists n, (ps ++ [c]). rewrite app_assoc. split_and!; try done.
    apply Forall_app_2; [done|]. constructor; [|done]. by unfold plain; naive_solver.
Qed.

Lemma Clean_cleaned p : cleaned p.1 (Clean p).2.
Proof.
  unfold Clean. simpl. assert (cleaned p.1 []) as H by (by exists 0%nat, []).
  revert H. generalize (@nil bytes). induction p.2 as [|c l IH]; intros acc H; simpl; [done|].
  by apply IH, cleanStep_cleaned.
Qed.

Lemma foldl_clean_parents n m :
  foldl (cleanStep false) (replicate m dotdot) (replicate n dotdot) = replicate (m + n) dotdot.
Proof.
  revert m. induction n as [|n IH]; intros m; simpl; [by rewrite Nat.add_0_r|].
  replace (cleanStep false (replicate m dotdot) dotdot) with (replicate (S m) dotdot).
  { rewrite IH. f_equal. lia. }
  destruct m as [|m]; [done|]. unfold cleanStep. rewrite decide_False by (by intros [?|?]). rewrite decide_True by done.
  rewrite (replicate_S_end m), last_snoc, decide_True by done. by rewrite <- !replicate_S_end.
Qed.

(** Cleaning leaves a cleaned path as it is. *)
Lemma Clean_idemp b l : cleaned b l -> Clean (b, l) = (b, l).
Proof.
  intros (n & ps & -> & Hps & Hr). unfold Clean. simpl. f_equal. rewrite foldl_app, foldl_clean_plain by done.
  f_equal. destruct b; [by rewrite Hr|]. apply (foldl_clean_parents n 0).
Qed.

(** Joining plain elements appends them. *)
Lemma Join_plain base elems :
  Forall plain elems -> Join base elems = (base.1, (Clean base).2 ++ elems).
Proof. intros H. unfold Join, Clean. simpl. by rewrite foldl_app, foldl_clean_plain. Qed.

Lemma cleaned_app b l elems : cleaned b l -> Forall plain elems -> cleaned b (l ++ elems).
Proof.
  intros (n & ps & -> & Hps & Hr) He. exists n, (ps ++ elems). rewrite app_assoc.
  split_and!; [done|by apply Forall_app_2|done].
Qed.

Lemma Join_cleaned base elems : Forall plain elems -> Clean (Join base elems) = Join base elems.
Proof.
  intros H. rewrite Join_plain by done. apply Clean_idemp, cleaned_app; [apply Clean_cleaned|done].
Qed.

Lemma stripCommon_app l k : stripCommon l (l ++ k) = ([], k).
Proof. induction l as [|x l IH]; simpl; [by destruct k|]. by rewrite decide_True. Qed.

Lemma Rel_Join base elems : Forall plain elems -> Rel (Clean base) (Join base elems) = Ok elems.
Proof.
  intros H. rewrite Join_plain by done. unfold Rel. simpl. rewrite Bool.eqb_reflx. simpl.
  rewrite stripCommon_app. rewrite decide_False by apply not_elem_of_nil. done.
Qed.

(** ** Hashes *)

Lemma validateHash_chars h c : validateHash h = true -> c ∈ h -> is_Some (hex_value c).
Proof.
  unfold validateHash. intros [_ H]%andb_true_iff Hc. rewrite forallb_forall in H.
  specialize (H c (proj1 (list_elem_of_In _ _) Hc)). destruct (hex_value c); [by eexists|done].
Qed.

Lemma validateHash_length h : validateHash h = true -> length h = 96%nat.
Proof. unfold validateHash. by intros [?%Nat.eqb_eq _]%andb_true_iff. Qed.

Lemma plain_of_hex l : l <> [] -> (forall c, c ∈ l -> is_Some (hex_value c)) -> plain l.
Proof.
  intros Hne H. split_and!; [done|..]; intros ->; destruct (H x2e); try done; by left.
Qed.

Lemma validateHash_cases h : validateHash h = true ->
  exists a b r, h = a :: b :: r /\ plain h /\ plain (take 2 h)
    /\ is_Some (hex_value a).
Proof.
  intros H. pose proof (validateHash_length h H) as Hl. pose proof (validateHash_chars h) as Hc.
  destruct h as [|a [|b r]]; [done..|]. exists a, b, r. split_and!; [done|..].
  - apply plain_of_hex; [done|]. intros c. by apply Hc.
  - apply plain_of_hex; [done|]. intros c Hin. apply Hc; [done|]. by apply (subseteq_take 2).
  - apply Hc; [done|]. by left.
Qed.

Lemma plain_sd : plain SDDirectory.
Proof. by repeat split. Qed.

(** The files of a hash below the base. *)
Definition blobFile (base : Path) (h : bytes) : Path := (base.1, (Clean base).2 ++ [take 2 h; h]).
Definition sdFile (base : Path) (h : bytes) : Path := (base.1, (Clean base).2 ++ [SDDirectory; take 2 h; h]).

Lemma blobFile_inj base h k : blobFile base h = blobFile base k -> h = k.
Proof. unfold blobFile. intros E. injection E as E. apply app_inv_head in E. by injection E. Qed.

Lemma sdFile_inj base h k : sdFile base h = sdFile base k -> h = k.
Proof. unfold sdFile. intros E. injection E as E. apply app_inv_head in E. by injection E. Qed.

Lemma blobFile_sdFile base h k : blobFile base h <> sdFile base k.
Proof. unfold blobFile, sdFile. intros E. injection E as E. by apply app_inv_head in E. Qed.

(** A temporary file is no blob's. *)
Lemma tmp_not_hash (l l' : list bytes) (x h : bytes) b b' :
  validateHash h = true -> ((b, l ++ [go ".tmp-" ++ x]) : Path) <> (b', l' ++ [h]).
Proof.
  intros H E. injection E as _ E. apply app_inj_tail in E as [_ <-].
  destruct (validateHash_chars _ x2e H); [by left|done].
Qed.

(** ** A Hoare logic *)

(** What assertions see of the world. *)
Record Fs := mkFs { f_files : gmap Path bytes; f_links : gset Path; f_trace : list (gmap Path bytes) }.

Definition fsOf (w : World) : Fs := mkFs (w_files w) (w_links w) (w_trace w).

(** From [P] the program ends in [Q] with a value or in [E] with an error, and does not
    panic. *)
Definition hoare {A} (P : Fs -> Prop) (m : M A) (Q : A -> Fs -> Prop) (E : error -> Fs -> Prop) : Prop :=
  forall w, P (fsOf w) ->
  match m w with
  | (Ok a, w') => Q a (fsOf w')
  | (Err e, w') => E e (fsOf w')
  | (Panic _, _) => False
  end.

Section rules.
Context {Sys : OS}.

Definition noFault : Prop := forall k, os_fault k = None.

(** Something that excuses an error: a fault, a cancelled context or a link. *)
Definition trouble (ctx : Context) (links : gset Path) : Prop :=
  noFault -> ctx_after ctx = None -> links = ∅ -> False.

Lemma hoare_conseq {A} (P P' : Fs -> Prop) (m : M A) (Q Q' : A -> Fs -> Prop) (E E' : error -> Fs -> Prop) :
  hoare P m Q E -> (forall s, P' s -> P s) -> (forall a s, Q a s -> Q' a s) ->
  (forall e s, E e s -> E' e s) -> hoare P' m Q' E'.
Proof.
  intros H HP HQ HE w Hw. specialize (H w (HP _ Hw)).
  destruct (m w) as [[a|e|x] w']; auto.
Qed.

Lemma hoare_bind {A B} P (m : M A) (f : A -> M B) R Q E :
  hoare P m R E -> (forall a, hoare (R a) (f a) Q E) -> hoare P (m ≫= f) Q E.
Proof.
  intros Hm Hf w Hw. specialize (Hm w Hw). unfold mbind, M_bind.
  destruct (m w) as [[a|e|x] w']; [|done..]. by apply Hf.
Qed.

Lemma hoare_ret {A} (a : A) (P : A -> Fs -> Prop) E : hoare (P a) (mret a) P E.
Proof. by intros w Hw. Qed.

Lemma hoare_throw {A} e (Q : A -> Fs -> Prop) (E : error -> Fs -> Prop) : hoare (E e) (throw e) Q E.
Proof. by intros w Hw. Qed.

Lemma hoare_pure {A} (phi : Prop) P (m : M A) Q E :
  (phi -> hoare P m Q E) -> hoare (fun s => phi /\ P s) m Q E.
Proof. intros H w [Hphi Hw]. by apply H. Qed.

Lemma hoare_wrap {A} fmt P (m : M A) Q (E : error -> Fs -> Prop) :
  hoare P m Q (fun e => E (EWrap fmt e)) -> hoare P (wrap fmt m) Q E.
Proof. intros H w Hw. specialize (H w Hw). unfold wrap. by destruct (m w) as [[a|e|x] w']. Qed.

Lemma hoare_try {A} P (m : M A) Q E E' :
  hoare P m Q E ->
  hoare P (try m) (fun r s => match r with Ok a => Q a s | Err e => E e s | Panic _ => False end) E'.
Proof. intros H w Hw. specialize (H w Hw). unfold try. by destruct (m w) as [[a|e|x] w']. Qed.

Lemma hoare_poll P ctx : hoare P (poll ctx) (fun _ => P) (fun _ s => ctx_after ctx <> None /\ P s).
Proof.
  intros w Hw. unfold poll, ctxErr. destruct (ctx_after ctx); [|done].
  by case_decide.
Qed.

Lemma hoare_start P E : hoare P start (fun _ => P) E.
Proof. by intros w Hw. Qed.

Lemma hoare_sys P : hoare P sys (fun _ => P) (fun _ s => ~ noFault /\ P s).
Proof.
  intros w Hw. unfold sys. destruct (os_fault (w_clock w)) eqn:E; [|done].
  split; [|done]. intros H. by rewrite H in E.
Qed.

Lemma hoare_try_sys P E : hoare P (try sys) (fun _ => P) E.
Proof.
  intros w Hw. unfold try, sys. by destruct (os_fault (w_clock w)).
Qed.

Lemma hoare_syncDir P E : hoare P syncDir (fun _ => P) E.
Proof.
  unfold syncDir. eapply hoare_bind; [apply hoare_try_sys|]. intros [u|e|x]; [|by intros w Hw..].
  eapply hoare_bind; [apply hoare_try_sys|]. intros ?.
  eapply hoare_bind; [apply hoare_try_sys|]. intros ?. by intros w Hw.
Qed.

Lemma hoare_getFiles P E : hoare P getFiles (fun f s => f = f_files s /\ P s) E.
Proof. by intros w Hw. Qed.

Lemma hoare_setFiles P f E :
  hoare (fun s => P (mkFs f (f_links s) (f_trace s ++ [f]))) (setFiles f) (fun _ => P) E.
Proof. by intros w Hw. Qed.

Lemma hoare_mkdirAll P p : hoare P (mkdirAll p) (fun _ => P) (fun _ s => ~ noFault /\ P s).
Proof. eapply hoare_bind; [apply hoare_sys|]. by intros [] w Hw. Qed.

Lemma hoare_readFile P p :
  hoare P (readFile p) (fun d s => f_files s !! p = Some d /\ P s)
    (fun e s => P s /\ (~ noFault \/ (e = ENOENT /\ f_files s !! p = None))).
Proof.
  eapply (hoare_bind _ _ _ (fun _ => P)).
  { eapply hoare_conseq; [apply (hoare_sys P)|done|done|]. by intros e s [??]; auto. }
  intros [] w Hw. unfold mbind, M_bind, getFiles, gets.
  destruct (w_files w !! p) eqn:E; simpl; auto.
Qed.

(** The state after [rename]. *)
Definition renamed (from to : Path) (d : bytes) (s : Fs) : Fs :=
  let f := <[to := d]> (delete from (f_files s)) in mkFs f (f_links s) (f_trace s ++ [f]).

Lemma hoare_rename (P : Fs -> Prop) from to d :
  (forall s, P s -> f_files s !! from = Some d) ->
  hoare P (rename from to) (fun _ s => exists s0, P s0 /\ s = renamed from to d s0)
    (fun _ s => ~ noFault /\ P s).
Proof.
  intros Hd. eapply hoare_bind; [apply hoare_sys|].
  intros [] w Hw. unfold mbind, M_bind, getFiles, gets, setFiles. pose proof (Hd _ Hw) as E.
  simpl in E. rewrite E. simpl. by exists (fsOf w).
Qed.

Lemma hoare_remove P p :
  hoare P (remove p)
    (fun _ s => exists s0, P s0 /\ s = mkFs (delete p (f_files s0)) (f_links s0)
                                        (f_trace s0 ++ [delete p (f_files s0)]))
    (fun e s => P s /\ (~ noFault \/ (e = ENOENT /\ f_files s !! p = None))).
Proof.
  eapply (hoare_bind _ _ _ (fun _ => P)).
  { eapply hoare_conseq; [apply (hoare_sys P)|done|done|]. by intros e s [??]; auto. }
  intros [] w Hw. unfold mbind, M_bind, getFiles, gets, setFiles.
  destruct (w_files w !! p) eqn:E; simpl; [by exists (fsOf w)|auto].
Qed.
End rules.
