(* ===== verification/DiskSpec.v ===== *)
(** * What the disk store guarantees

    Atomic writes under any fault or cancellation, and the implementation of the
    store interface. *)
From stdpp Require Import base tactics list numbers strings gmap sorting.
From Stdlib Require Import ZArith Lia Init.Byte.
From S2P Require Import Prelude GoStd Errors Store Disk DiskLogic.
Local Open Scope Z_scope.

(** Step over the next command with a rule; rules whose error postcondition is weaker
    than the goal's go through consequence. *)
Ltac hstep rule := eapply hoare_bind; [rule|intros ?].
Ltac hweaken rule := eapply hoare_conseq; [apply rule|done|done|].

Section atomic.
Context {Sys : OS}.

(** ** Rules with an excused error *)

Definition excused (ctx : Context) (P : Fs -> Prop) : error -> Fs -> Prop :=
  fun _ s => trouble ctx (f_links s) /\ P s.

Lemma excused_poll ctx P : hoare P (poll ctx) (fun _ => P) (excused ctx P).
Proof. hweaken (hoare_poll P ctx). intros e s [H ?]. split; [|done]. by intros _ ? _. Qed.

Lemma excused_sys ctx P : hoare P sys (fun _ => P) (excused ctx P).
Proof. hweaken (hoare_sys P). intros e s [H ?]. split; [|done]. by intros ? _ _. Qed.

Lemma excused_mkdirAll ctx P p : hoare P (mkdirAll p) (fun _ => P) (excused ctx P).
Proof. hweaken (hoare_mkdirAll P p). intros e s [H ?]. split; [|done]. by intros ? _ _. Qed.

Lemma excused_wrap {A} fmt ctx P (m : M A) Q R :
  hoare P m Q (excused ctx R) -> hoare P (wrap fmt m) Q (excused ctx R).
Proof. intros H. by apply hoare_wrap. Qed.

Lemma excused_rejectSymlink ctx P p : hoare P (rejectSymlink p) (fun _ => P) (excused ctx P).
Proof.
  unfold rejectSymlink.
  eapply (hoare_bind _ _ _ (fun r s => (r = Ok true -> f_links s <> ∅) /\ P s)).
  - eapply hoare_conseq; [apply (hoare_try P _ (fun b s => (b = true -> f_links s <> ∅) /\ P s) (fun _ => P))|done| |].
    + unfold isSymlink. hstep ltac:(eapply hoare_conseq; [apply (hoare_sys P)|done|done|by intros e s [_ ?]]).
      intros w Hw. simpl. split; [|done]. intros H%bool_decide_eq_true. set_solver.
    + intros [b|e|x] s; [|done..]. intros [H ?]. split; [|done]. intros [= ->]. by apply H.
    + intros e s H. exact H.
  - intros [[]|e|x]; intros w [H Hw]; simpl; try done. split; [|done]. intros _ _ E. by apply H.
Qed.

Lemma checkInside_Join (P : Fs -> Prop) E base c elems :
  Forall plain (c :: elems) -> hoare P (checkInside base (Join base (c :: elems))) (fun _ => P) E.
Proof.
  intros Hp. unfold checkInside. rewrite Rel_Join by done. simpl.
  rewrite decide_False; [by intros w Hw|]. intros [= ->]. by apply List.Forall_cons_iff in Hp as [(_ & _ & ?) _].
Qed.

Lemma valid_elems h : validateHash h = true -> Forall plain [take 2 h; h] /\ Forall plain [SDDirectory; take 2 h; h].
Proof.
  intros Hh. destruct (validateHash_cases h Hh) as (_ & _ & _ & _ & Hp & Ht & _).
  split; eauto using List.Forall_cons, List.Forall_nil, plain_sd.
Qed.

Lemma excused_safeJoin ctx P base h :
  validateHash h = true ->
  hoare P (safeJoin base h) (fun p s => p = blobFile base h /\ P s) (excused ctx P).
Proof.
  intros Hh. unfold safeJoin. rewrite Hh. simpl negb. cbv iota.
  destruct (valid_elems h Hh) as [Hf _].
  rewrite Join_cleaned by done.
  hstep ltac:(by apply checkInside_Join). hstep ltac:(apply excused_rejectSymlink).
  intros w Hw. simpl. by rewrite Join_plain.
Qed.

Lemma excused_safeJoinSD ctx P base h :
  validateHash h = true ->
  hoare P (safeJoinSD base h) (fun p s => p = sdFile base h /\ P s) (excused ctx P).
Proof.
  intros Hh. unfold safeJoinSD. rewrite Hh. simpl negb. cbv iota.
  destruct (valid_elems h Hh) as [_ Hf].
  rewrite Join_cleaned by done.
  hstep ltac:(by apply checkInside_Join). hstep ltac:(apply excused_rejectSymlink).
  hstep ltac:(apply excused_rejectSymlink). intros w Hw. simpl. by rewrite Join_plain.
Qed.

(** ** The temporary file *)

(** Only the temporary file differs from the start, now and at every state since. *)
Definition within (tmp : Path) (s0 s : Fs) : Prop :=
  f_links s = f_links s0 /\ delete tmp (f_files s) = delete tmp (f_files s0)
  /\ exists t, f_trace s = f_trace s0 ++ t
       /\ Forall (fun f => delete tmp f = delete tmp (f_files s0)) t.

Definition filled (tmp : Path) (s0 : Fs) (d : bytes) (s : Fs) : Prop :=
  within tmp s0 s /\ f_files s !! tmp = Some d.

Lemma within_step tmp s0 s f :
  within tmp s0 s -> delete tmp f = delete tmp (f_files s) ->
  within tmp s0 (mkFs f (f_links s) (f_trace s ++ [f])).
Proof.
  intros (Hl & Hf & t & Ht & Ha) E. unfold within. simpl. split_and!; [done|congruence|].
  exists (t ++ [f]). split; [by rewrite Ht, app_assoc|].
  apply Forall_app_2; [done|]. apply List.Forall_cons; [congruence|done].
Qed.

Lemma filled_write tmp s0 s d e :
  filled tmp s0 d s ->
  filled tmp s0 (d ++ e)
    (mkFs (<[tmp := d ++ e]> (f_files s)) (f_links s) (f_trace s ++ [<[tmp := d ++ e]> (f_files s)])).
Proof.
  intros [Hw Hd]. split; [|by simpl; rewrite lookup_insert_eq].
  apply within_step; [done|]. by rewrite delete_insert_eq.
Qed.

Definition partial ctx tmp s0 : error -> Fs -> Prop := excused ctx (fun s => exists d, filled tmp s0 d s).

Lemma hoare_partial {A} ctx tmp s0 d (m : M A) Q :
  hoare (filled tmp s0 d) m Q (excused ctx (filled tmp s0 d)) -> hoare (filled tmp s0 d) m Q (partial ctx tmp s0).
Proof. intros H. eapply hoare_conseq; [apply H|done|done|]. intros e s [??]. split; [done|by eexists]. Qed.

Lemma hoare_write ctx tmp s0 d e :
  hoare (filled tmp s0 d) (write tmp e)
    (fun n s => n = Z.of_nat (length e) /\ filled tmp s0 (d ++ e) s) (partial ctx tmp s0).
Proof.
  intros w Hw. pose proof (proj2 Hw) as Hd. simpl in Hd. unfold write. rewrite Hd.
  destruct (os_fault (w_clock w)) eqn:E; simpl.
  - split; [intros H; by rewrite H in E|]. eexists. by apply (filled_write tmp s0 (fsOf w)).
  - split; [done|]. by apply (filled_write tmp s0 (fsOf w)).
Qed.

(** The write loop writes everything; one round suffices. *)
Lemma hoare_writeLoop fuel ctx tmp s0 d e :
  (1 <= fuel)%nat ->
  hoare (filled tmp s0 d) (writeLoop fuel ctx tmp e) (fun _ => filled tmp s0 (d ++ e)) (partial ctx tmp s0).
Proof.
  intros Hf. destruct fuel as [|fuel]; [lia|]. destruct e as [|b e]; simpl.
  { rewrite app_nil_r. by intros w Hw. }
  hstep ltac:(apply hoare_partial, excused_poll). hstep ltac:(apply hoare_write).
  apply hoare_pure. intros ->. rewrite Nat2Z.id, drop_ge by done.
  destruct fuel; by intros w Hw.
Qed.

Lemma hoare_chunkWrites fuel ctx tmp s0 d e :
  (length e <= fuel)%nat ->
  hoare (filled tmp s0 d) (chunkWrites fuel ctx tmp e) (fun _ => filled tmp s0 (d ++ e)) (partial ctx tmp s0).
Proof.
  revert d e. induction fuel as [|fuel IH]; intros d e Hf.
  { destruct e; [|simpl in Hf; lia]. rewrite app_nil_r. by intros w Hw. }
  destruct e as [|b e]; [rewrite app_nil_r; by intros w Hw|].
  cbn [chunkWrites]. hstep ltac:(apply hoare_partial, excused_poll).
  hstep ltac:(apply hoare_writeLoop; lia).
  replace (d ++ b :: e) with ((d ++ take 4096 (b :: e)) ++ drop 4096 (b :: e))
    by (by rewrite <- app_assoc, take_drop).
  apply IH.
  rewrite length_drop. simpl length in *. lia.
Qed.

Lemma hoare_writeWithContext ctx tmp s0 d e :
  hoare (filled tmp s0 d) (writeWithContext ctx tmp e) (fun _ => filled tmp s0 (d ++ e)) (partial ctx tmp s0).
Proof.
  unfold writeWithContext. case_decide; [apply hoare_writeLoop; lia|by apply hoare_chunkWrites].
Qed.

Lemma hoare_fillAndRename ctx tmp p s0 data :
  hoare (filled tmp s0 []) (fillAndRename ctx tmp p data)
    (fun _ s => exists s1, filled tmp s0 data s1 /\ s = renamed tmp p data s1) (partial ctx tmp s0).
Proof.
  unfold fillAndRename.
  hstep ltac:(apply excused_wrap, hoare_writeWithContext). simpl app.
  hstep ltac:(apply hoare_partial, excused_poll).
  hstep ltac:(apply excused_wrap, hoare_partial, excused_sys).
  hstep ltac:(apply hoare_partial, excused_poll).
  hstep ltac:(apply excused_wrap, hoare_partial, excused_sys).
  hstep ltac:(apply excused_wrap, hoare_partial, excused_sys).
  hstep ltac:(apply hoare_partial, excused_poll).
  apply excused_wrap, hoare_partial. eapply hoare_conseq.
  - apply (hoare_rename (filled tmp s0 data) tmp p data). by intros s [_ ?].
  - done.
  - done.
  - intros e s [H ?]. split; [by intros ? _ _|done].
Qed.

(** The cleanup removes the temporary file, or a fault kept it from doing so. *)
Lemma hoare_cleanup tmp s0 E :
  hoare (fun s => exists d, filled tmp s0 d s) (cleanup tmp)
    (fun _ s => within tmp s0 s /\ (noFault -> f_files s = delete tmp (f_files s0))) E.
Proof.
  unfold cleanup.
  hstep ltac:(apply (hoare_try_sys (fun s => exists d, filled tmp s0 d s))). eapply hoare_conseq; [eapply (hoare_try _ _ _ _ E), hoare_remove|intros s H; exact H| |done].
  intros [x|e|x] s; [| |done].
  - intros (s1 & (d & Hw & Hd) & ->). split.
    + apply within_step; [done|]. apply delete_delete_eq.
    + intros _. simpl. by destruct Hw as (_ & ? & _).
  - intros [(d & Hw & Hd) H]. split; [done|]. intros Hn. destruct H as [?|[_ ?]]; [done|congruence].
Qed.

(** ** Atomic writes *)

Definition tmpOf (p : Path) (name : bytes) : Path := ((Dir p).1, (Dir p).2 ++ [go ".tmp-" ++ name]).

(** What a crash can expose: the old files or the new ones, and at most one temporary
    file besides. *)
Definition crashState (p : Path) (data : bytes) (files f : gmap Path bytes) : Prop :=
  exists name, files !! tmpOf p name = None
    /\ (delete (tmpOf p name) f = files \/ delete (tmpOf p name) f = <[p := data]> files).

Definition stepsSafe (p : Path) (data : bytes) (s0 s : Fs) : Prop :=
  f_links s = f_links s0
  /\ exists t, f_trace s = f_trace s0 ++ t /\ Forall (crashState p data (f_files s0)) t.

(** Nothing but a temporary file is left of a failed write, and without faults not even
    that. *)
Definition aborted (p : Path) (data : bytes) (s0 s : Fs) : Prop :=
  stepsSafe p data s0 s
  /\ (exists name, f_files s0 !! tmpOf p name = None /\ delete (tmpOf p name) (f_files s) = f_files s0)
  /\ (noFault -> f_files s = f_files s0).

Definition committed (p : Path) (data : bytes) (s0 s : Fs) : Prop :=
  stepsSafe p data s0 s /\ f_files s = <[p := data]> (f_files s0).

Context {Laws : OSLaws Sys}.

Lemma pick_fresh p files : files !! tmpOf p (os_pick files (Dir p)) = None.
Proof. apply os_pick_fresh. Qed.

Lemma aborted_refl p data s : aborted p data s s.
Proof.
  unfold aborted, stepsSafe. split_and!; [done|exists []; by rewrite app_nil_r| |done].
  exists (os_pick (f_files s) (Dir p)). split; [apply pick_fresh|]. by rewrite delete_id by apply pick_fresh.
Qed.

Lemma within_stepsSafe p name data s0 s :
  f_files s0 !! tmpOf p name = None -> within (tmpOf p name) s0 s -> stepsSafe p data s0 s.
Proof.
  intros Hn (Hl & _ & t & Ht & Ha). split; [done|]. exists t. split; [done|].
  eapply Forall_impl; [exact Ha|]. intros f E. exists name. split; [done|]. left.
  by rewrite E, delete_id.
Qed.

Lemma within_aborted p name data s0 s :
  f_files s0 !! tmpOf p name = None -> within (tmpOf p name) s0 s ->
  (noFault -> f_files s = delete (tmpOf p name) (f_files s0)) -> aborted p data s0 s.
Proof.
  intros Hn Hw Hq. split_and!; [by eapply within_stepsSafe| |].
  - exists name. split; [done|]. destruct Hw as (_ & E & _). by rewrite E, delete_id.
  - intros H. by rewrite Hq, delete_id.
Qed.

Lemma renamed_committed p name data s0 s :
  p <> tmpOf p name -> f_files s0 !! tmpOf p name = None -> filled (tmpOf p name) s0 data s ->
  committed p data s0 (renamed (tmpOf p name) p data s).
Proof.
  intros Hp Hn [Hw Hd]. pose proof Hw as (_ & E & _). rewrite (delete_id (f_files s0)) in E by done.
  destruct (within_stepsSafe p name data s0 s Hn Hw) as (Hl & t & Ht & Ha).
  unfold committed, stepsSafe, renamed. simpl. rewrite E. split_and!; [done| |done].
  exists (t ++ [<[p := data]> (f_files s0)]). split; [by rewrite Ht, app_assoc|].
  apply Forall_app_2; [done|]. apply List.Forall_cons; [|done]. exists name. split; [done|]. right.
  rewrite delete_insert_ne by done. by rewrite delete_id.
Qed.

Lemma hoare_cleanupOnError tmp P (m : M unit) Q E E' :
  hoare P m Q E ->
  (forall e, hoare (E e) (cleanup tmp) (fun _ => E' e) (fun _ _ => False)) ->
  hoare P (cleanupOnError tmp m) Q E'.
Proof.
  intros Hm Hc w Hw. specialize (Hm w Hw). unfold cleanupOnError.
  destruct (m w) as [[[]|e|x] w']; [done| |done].
  specialize (Hc e w' Hm). by destruct (cleanup tmp w') as [[a|e'|x] w''].
Qed.

Lemma hoare_createTemp ctx p s0 :
  hoare (fun s => s = s0) (createTemp (Dir p))
    (fun tmp s => exists name, tmp = tmpOf p name /\ f_files s0 !! tmpOf p name = None
                               /\ filled tmp s0 [] s)
    (excused ctx (fun s => s = s0)).
Proof.
  unfold createTemp. hstep ltac:(apply excused_sys). intros w <-.
  set (name := os_pick (w_files w) (Dir p)).
  assert (w_files w !! tmpOf p name = None) as Hn by apply pick_fresh.
  simpl. exists name. split_and!; [done|done|]. split; [|by simpl; rewrite lookup_insert_eq].
  apply (within_step (tmpOf p name) (fsOf w) (fsOf w)); [|apply delete_insert_eq].
  unfold within. split_and!; [done|done|]. exists []. by rewrite app_nil_r.
Qed.

(** An error before the temporary file exists changes nothing. *)
Lemma hoare_untouched {A} ctx p data s0 (m : M A) Q :
  hoare (fun s => s = s0) m Q (excused ctx (fun s => s = s0)) ->
  hoare (fun s => s = s0) m Q (excused ctx (aborted p data s0)).
Proof.
  intros H. eapply hoare_conseq; [apply H|done|done|].
  intros e s [? ->]. split; [done|apply aborted_refl].
Qed.

Lemma hoare_atomicWrite ctx p data s0 :
  (forall name, p <> tmpOf p name) ->
  hoare (fun s => s = s0) (atomicWrite ctx p data)
    (fun _ => committed p data s0) (excused ctx (aborted p data s0)).
Proof.
  intros Hp. unfold atomicWrite.
  hstep ltac:(apply hoare_untouched, excused_poll). hstep ltac:(apply excused_wrap, hoare_untouched, excused_mkdirAll).
  hstep ltac:(apply hoare_untouched, excused_poll). hstep ltac:(apply excused_wrap, hoare_untouched, hoare_createTemp).
  intros w (name & -> & Hn & Hw). revert w Hw.
  change (hoare (filled (tmpOf p name) s0 [])
    (cleanupOnError (tmpOf p name) (fillAndRename ctx (tmpOf p name) p data) ;; syncDir)
    (fun _ => committed p data s0) (excused ctx (aborted p data s0))).
  eapply (hoare_bind _ _ _ (fun _ => committed p data s0)).
  - eapply hoare_cleanupOnError.
    + eapply hoare_conseq; [apply hoare_fillAndRename|done| |intros e s H; exact H].
      intros [] s (s1 & Hf & ->). by apply renamed_committed.
    + intros e w [Ht Hf]. pose proof (hoare_cleanup (tmpOf p name) s0 (fun _ _ => False) w Hf) as H.
      destruct (cleanup (tmpOf p name) w) as [[r|e'|x] w']; [|done..]. destruct H as [Hw' Hc].
      destruct Hf as (d & (Hl & _) & _). split; [|by eapply within_aborted].
      destruct Hw' as (-> & _). by rewrite <- Hl.
  - intros ?. apply hoare_syncDir.
Qed.

Lemma blobFile_not_tmp base h name : validateHash h = true -> blobFile base h <> tmpOf (blobFile base h) name.
Proof.
  intros Hh E. eapply (tmp_not_hash _ ((Clean base).2 ++ [take 2 h]) name h _ base.1 Hh).
  etrans; [symmetry; exact E|]. unfold blobFile. by rewrite <- app_assoc.
Qed.

Lemma sdFile_not_tmp base h name : validateHash h = true -> sdFile base h <> tmpOf (sdFile base h) name.
Proof.
  intros Hh E. eapply (tmp_not_hash _ ((Clean base).2 ++ [SDDirectory; take 2 h]) name h _ base.1 Hh).
  etrans; [symmetry; exact E|]. unfold sdFile. by rewrite <- app_assoc.
Qed.

(** What [Put] and [PutSD] have in common: the checks, the path, the write. *)
Lemma hoare_store_at ctx data (target : Path) (join : M Path) s0 :
  (forall name, target <> tmpOf target name) ->
  (forall P, hoare P join (fun p s => p = target /\ P s) (excused ctx P)) ->
  hoare (fun s => s = s0) (start ;; poll ctx ;; poll ctx ;; p ← join; atomicWrite ctx p data)
    (fun _ => committed target data s0) (excused ctx (aborted target data s0)).
Proof.
  intros Hp Hj.
  hstep ltac:(apply hoare_start). hstep ltac:(apply hoare_untouched, excused_poll). hstep ltac:(apply hoare_untouched, excused_poll).
  hstep ltac:(apply hoare_untouched, Hj). apply hoare_pure. intros ->. by apply hoare_atomicWrite.
Qed.

Lemma hoare_Put base ctx h data s0 :
  validateHash h = true ->
  hoare (fun s => s = s0) (Disk_Put base ctx h data)
    (fun _ => committed (blobFile base h) data s0) (excused ctx (aborted (blobFile base h) data s0)).
Proof.
  intros Hh. unfold Disk_Put. rewrite Hh. apply hoare_store_at; [by intros; apply blobFile_not_tmp|].
  intros P. by apply excused_safeJoin.
Qed.

Lemma hoare_PutSD base ctx h data s0 :
  validateHash h = true ->
  hoare (fun s => s = s0) (Disk_PutSD base ctx h data)
    (fun _ => committed (sdFile base h) data s0) (excused ctx (aborted (sdFile base h) data s0)).
Proof.
  intros Hh. unfold Disk_PutSD. rewrite Hh. apply hoare_store_at; [by intros; apply sdFile_not_tmp|].
  intros P. by apply excused_safeJoinSD.
Qed.

(** What a successful join returned. *)
Lemma safeJoin_Ok base h w p w' :
  safeJoin base h w = (Ok p, w') -> validateHash h = true /\ p = blobFile base h.
Proof.
  intros E. destruct (validateHash h) eqn:Hh.
  - pose proof (excused_safeJoin Background (fun _ => True) base h Hh w I) as H. rewrite E in H. by destruct H.
  - unfold safeJoin in E. rewrite Hh in E. done.
Qed.

Lemma safeJoinSD_Ok base h w p w' :
  safeJoinSD base h w = (Ok p, w') -> validateHash h = true /\ p = sdFile base h.
Proof.
  intros E. destruct (validateHash h) eqn:Hh.
  - pose proof (excused_safeJoinSD Background (fun _ => True) base h Hh w I) as H. rewrite E in H. by destruct H.
  - unfold safeJoinSD in E. rewrite Hh in E. done.
Qed.

(** Paths are safe: whatever the base and the string given as a hash, a path that
    [safeJoin] or [safeJoinSD] returns lies below the base at the place of that hash,
    and two different hashes, or a blob and a descriptor, never share a file. *)
Theorem safe_paths base h k w p q w1 w2
    (Hp : safeJoin base h w = (Ok p, w1)) (Hq : safeJoinSD base k w = (Ok q, w2)) :
  Rel (Clean base) p = Ok [take 2 h; h]
  /\ Rel (Clean base) q = Ok [SDDirectory; take 2 k; k]
  /\ p <> q
  /\ (forall h' w' p' w1', safeJoin base h' w' = (Ok p', w1') -> p' = p -> h' = h)
  /\ (forall k' w' q' w2', safeJoinSD base k' w' = (Ok q', w2') -> q' = q -> k' = k).
Proof.
  apply safeJoin_Ok in Hp as [Hh ->]. apply safeJoinSD_Ok in Hq as [Hk ->].
  destruct (valid_elems h Hh) as [Hh1 _]. destruct (valid_elems k Hk) as [_ Hk2]. split_and!.
  - unfold blobFile. rewrite <- Join_plain by done. by apply Rel_Join.
  - unfold sdFile. rewrite <- Join_plain by done. by apply Rel_Join.
  - apply blobFile_sdFile.
  - intros h' w' p' w1' [_ ->]%safeJoin_Ok. apply blobFile_inj.
  - intros k' w' q' w2' [_ ->]%safeJoinSD_Ok. apply sdFile_inj.
Qed.

(** C32. Crash safety of [Put]: whatever system calls fail and whenever the context is
    cancelled, every state the files go through is the old store or the store with
    the whole new blob, plus at most one temporary file; success means exactly the
    blob was added, and a failure leaves the store as it was, with no temporary file
    left when no system call failed.  The store does not panic, refuses a malformed
    hash, and fails only when a system call failed, the context was cancelled or a
    symbolic link is present. *)
Theorem put_crash_safe base ctx h data w :
  let target := blobFile base h in
  let '(r, w') := Disk_Put base ctx h data w in
  (exists t, w_trace w' = w_trace w ++ t /\ Forall (crashState target data (w_files w)) t)
  /\ match r with
     | Ok _ => validateHash h = true /\ w_files w' = <[target := data]> (w_files w)
     | Err e =>
         (exists name, w_files w !! tmpOf target name = None
            /\ delete (tmpOf target name) (w_files w') = w_files w)
         /\ (noFault -> w_files w' = w_files w)
         /\ (validateHash h = true -> trouble ctx (w_links w))
     | Panic _ => False
     end.
Proof.
  simpl. destruct (validateHash h) eqn:Hh.
  - pose proof (hoare_Put base ctx h data (fsOf w) Hh w eq_refl) as H.
    destruct (Disk_Put base ctx h data w) as [[[]|e|x] w']; [| |done].
    + destruct H as [[_ ?] ?]. done.
    + destruct H as [Ht ([Hl ?] & ? & ?)]. simpl in Hl, Ht. rewrite Hl in Ht. done.
  - assert (exists e w', Disk_Put base ctx h data w = (Err e, w') /\ fsOf w' = fsOf w) as (e & w' & E & Hf).
    { unfold Disk_Put. rewrite Hh. unfold mbind, M_bind. simpl.
      destruct (ctxErr ctx 0) as [[]|e|x] eqn:E; [by do 2 eexists..|]. by apply ctxErr_no_panic in E. }
    rewrite E. injection Hf as Hf1 Hf2 Hf3. rewrite Hf1, Hf3. split; [exists []; by rewrite app_nil_r|].
    split_and!; [|done|done]. exists (os_pick (w_files w) (Dir (blobFile base h))).
    split; [apply pick_fresh|]. by rewrite delete_id by apply pick_fresh.
Qed.
End atomic.
