(* ===== verification/DiskStore.v ===== *)
(** * The disk store implements the store interface

    On an operating system without faults and below a base without symbolic links, the
    disk store is a map from hashes to blobs. *)
From stdpp Require Import base tactics list numbers strings gmap sorting.
From Stdlib Require Import ZArith Lia Init.Byte.
From S2P Require Import Prelude GoStd Errors Store Disk DiskLogic DiskSpec.
Local Open Scope Z_scope.

Section calm.
Context {Sys : OS} {Laws : OSLaws Sys}.
Hypothesis NF : noFault.
Context (base : Path).

(** ** Reading *)

Definition at_ (s0 : Fs) : Fs -> Prop := fun s => s = s0.

(** Without faults, links and cancellation there is no excuse for an error. *)
Lemma calm_excused {A} s0 P (m : M A) Q E :
  f_links s0 = ∅ -> hoare P m Q (excused Background (at_ s0)) -> hoare P m Q E.
Proof.
  intros Hl H. eapply hoare_conseq; [apply H|done|done|]. intros e s [Ht ->]. by destruct Ht.
Qed.

Lemma calm_readFile s0 p :
  hoare (at_ s0) (readFile p) (fun d s => f_files s0 !! p = Some d /\ at_ s0 s)
    (fun e s => (e = ENOENT /\ f_files s0 !! p = None) /\ at_ s0 s).
Proof.
  eapply hoare_conseq; [apply hoare_readFile|intros s H; exact H|by intros d s [? ->]|].
  intros e s [-> [?|?]]; [done|]. split; [done|reflexivity].
Qed.

Lemma calm_stat s0 p :
  hoare (at_ s0) (stat p)
    (fun n s => (exists d, f_files s0 !! p = Some d /\ n = Z.of_nat (length d)) /\ at_ s0 s)
    (fun e s => (e = ENOENT /\ f_files s0 !! p = None) /\ at_ s0 s).
Proof.
  eapply hoare_bind; [apply calm_readFile|]. intros d w [Hd Hw]. simpl. split; [by exists d|done].
Qed.

(** The chunked read returns the whole file; a round reads at least a byte. *)
Lemma calm_readLoop s0 fuel rest acc E :
  f_links s0 = ∅ -> (length rest < fuel)%nat ->
  hoare (at_ s0) (readLoop fuel Background rest acc) (fun d s => d = acc ++ rest /\ at_ s0 s) E.
Proof.
  intros Hl. revert rest acc. induction fuel as [|fuel IH]; intros rest acc Hf; [lia|]. cbn [readLoop].
  hstep ltac:(by apply (calm_excused s0), excused_poll). hstep ltac:(by apply (calm_excused s0), excused_sys).
  case_decide as Hr.
  - subst. rewrite app_nil_r. by intros w Hw.
  - replace (acc ++ rest) with ((acc ++ take 4096 rest) ++ drop 4096 rest)
      by (by rewrite <- app_assoc, take_drop).
    apply IH. rewrite length_drop. destruct rest; [done|]. simpl length in *. lia.
Qed.

Lemma calm_read s0 p :
  f_links s0 = ∅ ->
  hoare (at_ s0) (readWithContext Background p) (fun d s => f_files s0 !! p = Some d /\ at_ s0 s)
    (fun e s => (e = ENOENT /\ f_files s0 !! p = None) /\ at_ s0 s).
Proof.
  intros Hl. unfold readWithContext. hstep ltac:(apply calm_stat). apply hoare_pure. intros (d & Hd & ->).
  destruct (Z.leb_spec (Z.of_nat (length d)) 4096); [apply calm_readFile|].
  hstep ltac:(apply calm_readFile). apply hoare_pure. intros Hd'. simplify_eq.
  hstep ltac:(by apply (calm_excused s0), excused_poll).
  eapply hoare_conseq; [apply (calm_readLoop s0); [done|lia]|done| |intros e s H0; exact H0].
  by intros d' s [-> ->].
Qed.

(** The blob of a hash: the regular file, else the descriptor. *)
Definition diskLookup (files : gmap Path bytes) (h : bytes) : option bytes :=
  match files !! blobFile base h with Some d => Some d | None => files !! sdFile base h end.

Lemma calm_Has s0 h E :
  f_links s0 = ∅ -> validateHash h = true ->
  hoare (at_ s0) (Disk_Has base Background h)
    (fun b s => b = bool_decide (is_Some (diskLookup (f_files s0) h))) E.
Proof.
  intros Hl Hh. unfold Disk_Has. rewrite Hh. simpl negb. cbv iota.
  hstep ltac:(apply hoare_start).
  hstep ltac:(by apply (calm_excused s0), excused_poll). hstep ltac:(by apply (calm_excused s0), excused_poll).
  hstep ltac:(by apply (calm_excused s0), excused_safeJoin). apply hoare_pure. intros ->.
  hstep ltac:(by apply (calm_excused s0), excused_poll).
  hstep ltac:(apply hoare_try, calm_stat). unfold diskLookup.
  match goal with |- hoare _ (match ?r with _ => _ end) _ _ => destruct r as [n|e|x] end;
    [|apply hoare_pure; intros [-> ->]|by intros w Hw].
  { intros w [(d & -> & _) _]. done. }
  hstep ltac:(by apply (calm_excused s0), excused_poll).
  hstep ltac:(by apply (calm_excused s0), excused_safeJoinSD). apply hoare_pure. intros ->.
  hstep ltac:(by apply (calm_excused s0), excused_poll).
  hstep ltac:(apply hoare_try, calm_stat).
  match goal with |- hoare _ (match ?r with _ => _ end) _ _ => destruct r as [n|e|x] end.
  - intros w [(d & -> & _) _]. done.
  - apply hoare_pure. intros [-> ->]. by intros w Hw.
  - by intros w Hw.
Qed.

Lemma calm_Get s0 h :
  f_links s0 = ∅ -> validateHash h = true ->
  hoare (at_ s0) (Disk_Get base Background h)
    (fun d s => diskLookup (f_files s0) h = Some d)
    (fun e s => e = EMsg "blob not found: %s" /\ diskLookup (f_files s0) h = None).
Proof.
  intros Hl Hh. unfold Disk_Get, checkBlobPaths. rewrite Hh. simpl negb. cbv iota.
  hstep ltac:(apply hoare_start).
  hstep ltac:(by apply (calm_excused s0), excused_poll). hstep ltac:(by apply (calm_excused s0), excused_poll).
  hstep ltac:(by apply (calm_excused s0), excused_safeJoin). apply hoare_pure. intros ->.
  hstep ltac:(by apply (calm_excused s0), excused_poll).
  hstep ltac:(by apply hoare_try, calm_read). unfold diskLookup.
  match goal with |- hoare _ (match ?r with _ => _ end) _ _ => destruct r as [d|e|x] end;
    [|apply hoare_pure; intros [-> ->]|by intros w Hw].
  { intros w [-> _]. done. }
  hstep ltac:(by apply (calm_excused s0), excused_poll).
  hstep ltac:(by apply (calm_excused s0), excused_safeJoinSD). apply hoare_pure. intros ->.
  hstep ltac:(by apply (calm_excused s0), excused_poll).
  hstep ltac:(by apply hoare_try, calm_read).
  match goal with |- hoare _ (match ?r with _ => _ end) _ _ => destruct r as [n|e|x] end.
  - by intros w [-> _].
  - apply hoare_pure. intros [-> ->]. by intros w Hw.
  - by intros w Hw.
Qed.

(** ** The map the store implements *)

Definition names (files : gmap Path bytes) : gset bytes :=
  list_to_set (omap (fun p : Path => last p.2) (elements (dom files))).

Definition diskView (w : World) : gmap bytes bytes :=
  map_imap (fun h _ => if validateHash h then diskLookup (w_files w) h else None)
    (gset_to_gmap tt (names (w_files w))).

Lemma names_spec files (h : bytes) : h ∈ names files <-> exists p d, files !! p = Some d /\ last p.2 = Some h.
Proof.
  unfold names. rewrite elem_of_list_to_set, list_elem_of_omap. split.
  - intros (p & Hp & Hl). apply elem_of_elements, elem_of_dom in Hp as [d Hd]. eauto.
  - intros (p & d & Hd & Hl). exists p. split; [|done]. by apply elem_of_elements, (elem_of_dom_2 _ _ d).
Qed.

Lemma last_blobFile h : last (blobFile base h).2 = Some h.
Proof. unfold blobFile. simpl. change [take 2 h; h] with ([take 2 h] ++ [h]). by rewrite app_assoc, last_snoc. Qed.

Lemma last_sdFile h : last (sdFile base h).2 = Some h.
Proof.
  unfold sdFile. simpl. change [SDDirectory; take 2 h; h] with ([SDDirectory; take 2 h] ++ [h]).
  by rewrite app_assoc, last_snoc.
Qed.

Lemma diskView_lookup w h :
  diskView w !! h = if validateHash h then diskLookup (w_files w) h else None.
Proof.
  unfold diskView. rewrite map_lookup_imap, lookup_gset_to_gmap.
  destruct (decide (h ∈ names (w_files w))) as [Hn|Hn].
  - by rewrite option_guard_True.
  - rewrite option_guard_False by done. simpl. destruct (validateHash h); [|done].
    rewrite names_spec in Hn. unfold diskLookup.
    destruct (w_files w !! blobFile base h) eqn:E1; [destruct Hn; eauto using last_blobFile|].
    destruct (w_files w !! sdFile base h) eqn:E2; [destruct Hn; eauto using last_sdFile|done].
Qed.

(** A store directory without links, in which a file named by a hash is at one of the
    places of that hash. *)
Definition placed (files : gmap Path bytes) : Prop :=
  forall p d h, files !! p = Some d -> below (Clean base) p = true -> last p.2 = Some h ->
  validateHash h = true -> p = blobFile base h \/ p = sdFile base h.

Definition diskWf (w : World) : Prop := w_links w = ∅ /\ placed (w_files w).

Lemma placed_insert files p d h :
  placed files -> p = blobFile base h \/ p = sdFile base h -> placed (<[p := d]> files).
Proof.
  intros Hp Hc q e k. destruct (decide (p = q)) as [<-|Hne].
  - intros _ _ Hl _. destruct Hc as [->| ->]; [rewrite last_blobFile in Hl|rewrite last_sdFile in Hl];
      simplify_eq; auto.
  - rewrite lookup_insert_ne by done. apply Hp.
Qed.

Lemma placed_subseteq files files' : placed files -> files' ⊆ files -> placed files'.
Proof. intros Hp Hs p d h Hd. apply Hp with d. by eapply lookup_weaken. Qed.

(** ** Listing *)

Lemma below_app b l k : below (b, l) (b, l ++ k) = true.
Proof. unfold below. simpl. apply bool_decide_eq_true. by rewrite take_app_length. Qed.

Lemma below_blobFile h : below (Clean base) (blobFile base h) = true.
Proof. apply below_app. Qed.

Lemma below_sdFile h : below (Clean base) (sdFile base h) = true.
Proof. apply below_app. Qed.

Lemma walkOf_spec w h :
  Some h ∈ walkOf base w <->
  exists p d, w_files w !! p = Some d /\ below (Clean base) p = true /\ last p.2 = Some h.
Proof.
  unfold walkOf. rewrite elem_of_app, !list_elem_of_fmap. setoid_rewrite list_elem_of_In.
  setoid_rewrite filter_In. setoid_rewrite <- list_elem_of_In. split.
  - intros [(p & ? & _)|(p & Hl & Hp & Hb)]; [done|]. apply elem_of_elements, elem_of_dom in Hp as [d Hd].
    by exists p, d.
  - intros (p & d & Hd & Hb & Hl). right. exists p. split_and!; [done| |done].
    by apply elem_of_elements, (elem_of_dom_2 _ _ d).
Qed.

Lemma calm_walk s0 entries acc E :
  f_links s0 = ∅ ->
  hoare (at_ s0) (walkEntries Background entries acc)
    (fun hs _ => forall h, h ∈ hs <-> h ∈ acc \/ (validateHash h = true /\ Some h ∈ entries)) E.
Proof.
  intros Hl. revert acc. induction entries as [|e es IH]; intros acc; cbn [walkEntries].
  { intros w _. simpl. intros h. split; [by left|]. intros [?|[_ H]]; [done|by apply not_elem_of_nil in H]. }
  hstep ltac:(by apply (calm_excused s0), excused_poll). hstep ltac:(by apply (calm_excused s0), excused_sys).
  eapply hoare_conseq; [apply IH|done| |intros x s H; exact H].
  simpl. intros hs _ Hhs h. rewrite Hhs, elem_of_cons.
  assert (Some h = e <-> exists f, e = Some f /\ h = f) as ->
    by (split; [intros <-; eauto|intros (f & -> & ->); done]).
  destruct e as [f|]; [|naive_solver]. destruct (validateHash f) eqn:Hf.
  - rewrite elem_of_union, elem_of_singleton. naive_solver.
  - split; [tauto|]. intros [?|[Hv [(g & [= <-] & ->)|?]]]; [tauto|congruence|tauto].
Qed.

Lemma walk_view (w : World) (hs : gset bytes) :
  diskWf w -> (forall h, h ∈ hs <-> h ∈ (∅ : gset bytes) \/ (validateHash h = true /\ Some h ∈ walkOf base w)) ->
  hs = dom (diskView w).
Proof.
  intros [_ Hp] Hhs. apply leibniz_equiv. intros h. rewrite Hhs, elem_of_dom, diskView_lookup, walkOf_spec.
  unfold diskLookup. split.
  - intros [?|[Hv (p & d & Hd & Hb & Hl)]]; [set_solver|]. rewrite Hv.
    destruct (Hp p d h Hd Hb Hl Hv) as [->| ->]; rewrite Hd; [by eexists|]. by case_match.
  - intros [d Hd]. right. destruct (validateHash h); [|done]. split; [done|].
    destruct (w_files w !! blobFile base h) eqn:E1.
    + do 2 eexists. split_and!; [exact E1|apply below_blobFile|apply last_blobFile].
    + do 2 eexists. split_and!; [exact Hd|apply below_sdFile|apply last_sdFile].
Qed.

Lemma Disk_List_spec w offset limit :
  diskWf w -> 0 <= offset -> 0 < limit ->
  (Disk_List base Background offset limit w).1 = paginate (sortStrings (elements (dom (diskView w)))) offset limit.
Proof.
  intros Hw Ho Hl. unfold Disk_List, collectBlobHashes, mbind, M_bind, wrap, start, poll, gets, lift. simpl.
  rewrite (proj2 (Z.ltb_ge _ _)), (proj2 (Z.leb_gt _ _)) by lia. simpl.
  match goal with |- context [walkEntries Background (walkOf base ?w1) ∅ ?w2] => set (w' := w1) end.
  pose proof (calm_walk (fsOf w') (walkOf base w') ∅ (fun _ _ => False) (proj1 Hw) w' eq_refl) as H.
  destruct (walkEntries Background (walkOf base w') ∅ w') as [[hs|e|x] w'']; [|done..]. simpl.
  by rewrite (walk_view w hs Hw H).
Qed.

(** ** Deleting *)

(** The files that are gone since [s0]. *)
Definition gone (ps : list Path) (s0 s : Fs) : Prop :=
  f_links s = f_links s0 /\ f_files s = foldr delete (f_files s0) ps.

Lemma calm_removeIfExists fmt p ps s0 E :
  hoare (gone ps s0) (removeIfExists fmt p) (fun _ => gone (p :: ps) s0) E.
Proof.
  unfold removeIfExists. hstep ltac:(eapply (hoare_try _ _ _ _ E), hoare_remove).
  match goal with |- hoare _ (match ?r with _ => _ end) _ _ => destruct r as [u|e|x] end.
  - intros w (s1 & [Hl Hf] & E1). simpl. injection E1 as E1 E2 _. unfold gone. simpl.
    rewrite E1, E2, Hf. done.
  - intros w [[Hl Hf] [?|[-> Hn]]]; [done|]. simpl. split; [done|]. simpl in *.
    rewrite <- Hf. by rewrite delete_id.
  - by intros w Hw.
Qed.

Definition partlyGone (h : bytes) (s0 s : Fs) : Prop :=
  gone [] s0 s \/ gone [blobFile base h] s0 s.

Lemma calm_Delete ctx s0 h :
  validateHash h = true ->
  hoare (gone [] s0) (Disk_Delete base ctx h)
    (fun _ => gone [sdFile base h; blobFile base h] s0) (excused ctx (partlyGone h s0)).
Proof.
  intros Hh. unfold Disk_Delete. rewrite Hh. simpl negb. cbv iota.
  assert (forall A ps (m : M A) Q, hoare (gone ps s0) m Q (excused ctx (gone ps s0)) ->
            ps = [] \/ ps = [blobFile base h] -> hoare (gone ps s0) m Q (excused ctx (partlyGone h s0))) as Hq.
  { intros A ps m Q H Hps. eapply hoare_conseq; [apply H|done|done|].
    intros e s [? ?]. split; [done|]. destruct Hps as [->| ->]; [by left|by right]. }
  hstep ltac:(apply hoare_start). hstep ltac:(apply Hq; [apply excused_poll|by auto]).
  hstep ltac:(apply Hq; [apply excused_poll|by auto]).
  hstep ltac:(apply Hq; [by apply excused_safeJoin|by auto]). apply hoare_pure. intros ->.
  hstep ltac:(apply Hq; [apply excused_poll|by auto]).
  hstep ltac:(apply calm_removeIfExists). hstep ltac:(apply Hq; [apply excused_poll|by auto]).
  hstep ltac:(apply Hq; [by apply excused_safeJoinSD|by auto]). apply hoare_pure. intros ->.
  hstep ltac:(apply Hq; [apply excused_poll|by auto]). apply calm_removeIfExists.
Qed.

Lemma calm_Delete_ok s0 h E :
  f_links s0 = ∅ -> validateHash h = true ->
  hoare (gone [] s0) (Disk_Delete base Background h) (fun _ => gone [sdFile base h; blobFile base h] s0) E.
Proof.
  intros Hl Hh. eapply hoare_conseq; [by apply calm_Delete|done|done|].
  intros e s [Ht Hp]. destruct Ht; [done|done|]. by destruct Hp as [[-> _]|[-> _]].
Qed.

(** ** The instance *)

#[local] Instance DiskBlobStore : BlobStore World := {|
  Has ctx h w := (Disk_Has base ctx h w).1;
  Get ctx h w := (Disk_Get base ctx h w).1;
  Put := Disk_Put base;
  PutSD := Disk_PutSD base;
  List_ ctx offset limit w := (Disk_List base ctx offset limit w).1;
  Delete := Disk_Delete base
|}.

(** A lookup after a change of the files of one hash. *)
Lemma diskLookup_put files h d k :
  diskLookup (<[blobFile base h := d]> files) k = if decide (k = h) then Some d else diskLookup files k.
Proof.
  unfold diskLookup. rewrite (lookup_insert_ne _ _ (sdFile base k)) by apply blobFile_sdFile.
  case_decide as E; [subst; by rewrite lookup_insert_eq|].
  rewrite lookup_insert_ne; [done|]. by intros ?%blobFile_inj.
Qed.

Lemma diskLookup_putSD files h d k :
  diskLookup (<[sdFile base h := d]> files) k
  = if decide (k = h) then Some (default d (files !! blobFile base h)) else diskLookup files k.
Proof.
  unfold diskLookup. rewrite (lookup_insert_ne _ _ (blobFile base k)) by (intros E; by apply (blobFile_sdFile base k h)).
  case_decide as E; [subst; rewrite lookup_insert_eq; by destruct (files !! _)|].
  rewrite (lookup_insert_ne _ (sdFile base h)); [done|]. by intros ?%sdFile_inj.
Qed.

Lemma diskLookup_delete files h k :
  diskLookup (delete (sdFile base h) (delete (blobFile base h) files)) k
  = if decide (k = h) then None else diskLookup files k.
Proof.
  unfold diskLookup.
  rewrite (lookup_delete_ne _ (sdFile base h) (blobFile base k)) by (intros E; by apply (blobFile_sdFile base k h)).
  case_decide as E.
  - subst. rewrite lookup_delete_eq. by rewrite lookup_delete_eq.
  - rewrite lookup_delete_ne by (by intros ?%blobFile_inj).
    rewrite lookup_delete_ne by (by intros ?%sdFile_inj).
    by rewrite lookup_delete_ne by apply blobFile_sdFile.
Qed.

Lemma diskView_put w w' h d :
  validateHash h = true -> w_files w' = <[blobFile base h := d]> (w_files w) ->
  diskView w' = <[h := d]> (diskView w).
Proof.
  intros Hh Hf. apply map_eq. intros k. rewrite diskView_lookup, Hf, diskLookup_put.
  case_decide; subst; [rewrite lookup_insert_eq; by rewrite Hh|].
  by rewrite lookup_insert_ne, diskView_lookup.
Qed.

Lemma diskView_same w w' : w_files w' = w_files w -> diskView w' = diskView w.
Proof. unfold diskView, diskLookup. by intros ->. Qed.

Lemma Disk_Put_calm ctx h d w :
  diskWf w -> validateHash h = true ->
  let '(r, w') := Disk_Put base ctx h d w in
  diskWf w' /\ diskView w' = (if decide (r = Ok tt) then <[h := d]> (diskView w) else diskView w)
  /\ (ctx = Background -> r = Ok tt).
Proof.
  intros [Hl Hp] Hh. pose proof (hoare_Put base ctx h d (fsOf w) Hh w eq_refl) as H.
  destruct (Disk_Put base ctx h d w) as [[[]|e|x] w']; [| |done].
  - destruct H as [[Hl' _] Hf]. simpl in *. split_and!; [split; [congruence|]| |done].
    + rewrite Hf. eapply placed_insert; eauto.
    + by apply diskView_put.
  - destruct H as [Ht ([Hl' _] & _ & Hn)]. simpl in *. specialize (Hn NF). split_and!.
    + split; [congruence|by rewrite Hn].
    + by apply diskView_same.
    + intros ->. destruct Ht; [done|done|congruence].
Qed.

Lemma Disk_PutSD_calm ctx h d w :
  diskWf w -> validateHash h = true ->
  let '(r, w') := Disk_PutSD base ctx h d w in
  diskWf w' /\ (forall h', h' <> h -> diskView w' !! h' = diskView w !! h')
  /\ (if decide (r = Ok tt) then is_Some (diskView w' !! h) else diskView w' = diskView w)
  /\ (r = Ok tt -> diskView w !! h = None -> diskView w' !! h = Some d)
  /\ (ctx = Background -> r = Ok tt).
Proof.
  intros [Hl Hp] Hh. pose proof (hoare_PutSD base ctx h d (fsOf w) Hh w eq_refl) as H.
  destruct (Disk_PutSD base ctx h d w) as [[[]|e|x] w']; [| |done].
  - destruct H as [[Hl' _] Hf]. simpl in *. split_and!; [split; [congruence|]| | | |done].
    + rewrite Hf. eapply placed_insert; eauto.
    + intros k Hk. rewrite !diskView_lookup, Hf, diskLookup_putSD. by rewrite decide_False.
    + rewrite diskView_lookup, Hh, Hf, diskLookup_putSD.
      rewrite decide_True by done. by eexists.
    + intros _. rewrite !diskView_lookup, Hh, Hf, diskLookup_putSD, decide_True by done. unfold diskLookup.
      by destruct (w_files w !! blobFile base h).
  - destruct H as [Ht ([Hl' _] & _ & Hn)]. simpl in *. specialize (Hn NF). split_and!.
    + split; [congruence|by rewrite Hn].
    + intros. by rewrite (diskView_same w w' Hn).
    + by apply diskView_same.
    + done.
    + intros ->. destruct Ht; [done|done|congruence].
Qed.

Lemma Disk_Delete_calm ctx h w :
  diskWf w -> validateHash h = true ->
  let '(r, w') := Disk_Delete base ctx h w in
  diskWf w' /\ (forall h', h' <> h -> diskView w' !! h' = diskView w !! h')
  /\ (r = Ok tt -> diskView w' !! h = None)
  /\ (is_Some (diskView w' !! h) -> is_Some (diskView w !! h)).
Proof.
  intros [Hl Hp] Hh. pose proof (calm_Delete ctx (fsOf w) h Hh w (conj eq_refl eq_refl)) as H.
  destruct (Disk_Delete base ctx h w) as [[[]|e|x] w']; [| |done].
  - destruct H as [Hl' Hf]. simpl in *. split_and!; [split; [congruence|]|..].
    + rewrite Hf. eapply placed_subseteq; [exact Hp|]. etrans; apply delete_subseteq.
    + intros k Hk. rewrite !diskView_lookup, Hf, diskLookup_delete. by rewrite decide_False.
    + intros _. rewrite diskView_lookup, Hh, Hf, diskLookup_delete. by rewrite decide_True.
    + rewrite diskView_lookup, Hh, Hf, diskLookup_delete. rewrite decide_True by done. by intros [? ?].
  - assert (w_links w' = w_links w /\ w_files w' ⊆ w_files w
      /\ forall k, k <> h -> diskLookup (w_files w') k = diskLookup (w_files w) k) as (Hl' & Hs & Hk).
    { destruct H as [_ [[Hl' Hf]|[Hl' Hf]]]; simpl in *; rewrite Hf; [done|].
      split_and!; [done|apply delete_subseteq|]. intros k Hk. unfold diskLookup.
      rewrite lookup_delete_ne by (by intros ?%blobFile_inj).
      by rewrite lookup_delete_ne by apply blobFile_sdFile. }
    split_and!; [split; [congruence|by eapply placed_subseteq]| |done|].
    + intros k Hne. by rewrite !diskView_lookup, Hk.
    + rewrite !diskView_lookup, Hh. unfold diskLookup. intros [d Hd].
      destruct (w_files w' !! blobFile base h) as [d'|] eqn:Eb.
      * rewrite (lookup_weaken _ _ _ _ Eb Hs). by eexists.
      * destruct (w_files w !! blobFile base h); [by eexists|]. rewrite (lookup_weaken _ _ _ _ Hd Hs). by eexists.
Qed.

#[local] Program Instance DiskBlobStoreLaws : BlobStoreLaws World := {|
  store_wf := diskWf;
  store_accepts := validateHash;
  store_admits _ := true;
  store_view := diskView
|}.
Next Obligation.
  intros w h [Hl _] Hh. simpl. pose proof (calm_Has (fsOf w) h (fun _ _ => False) Hl Hh w eq_refl) as H.
  destruct (Disk_Has base Background h w) as [[b|e|x] w']; [|done..]. simpl in *.
  by rewrite H, diskView_lookup, Hh.
Qed.
Next Obligation.
  intros w h [Hl _] Hh. simpl. pose proof (calm_Get (fsOf w) h Hl Hh w eq_refl) as H.
  rewrite diskView_lookup, Hh.
  destruct (Disk_Get base Background h w) as [[b|e|x] w']; simpl in *; [by rewrite H| |done].
  destruct H as [-> ->]. by eexists.
Qed.
Next Obligation.
  intros w h d Hw Hh _. simpl. pose proof (Disk_Put_calm Background h d w Hw Hh) as H.
  destruct (Disk_Put base Background h d w) as [r w']. simpl. by apply H.
Qed.
Next Obligation.
  intros w h d ctx Hw Hh. simpl. pose proof (Disk_Put_calm ctx h d w Hw Hh) as H.
  destruct (Disk_Put base ctx h d w) as [r w']. by destruct H as (? & ? & _).
Qed.
Next Obligation.
  intros w h d Hw Hh _. simpl. pose proof (Disk_PutSD_calm Background h d w Hw Hh) as H.
  destruct (Disk_PutSD base Background h d w) as [r w']. simpl. by apply H.
Qed.
Next Obligation.
  intros w h d ctx Hw Hh. simpl. pose proof (Disk_PutSD_calm ctx h d w Hw Hh) as H.
  destruct (Disk_PutSD base ctx h d w) as [r w']. by destruct H as (? & ? & ? & ? & _).
Qed.
Next Obligation. intros w h ctx Hw Hh. by apply Disk_Delete_calm. Qed.
Next Obligation. intros w offset limit Hw Ho Hl. by apply Disk_List_spec. Qed.
End calm.
