(* ===== verification/StoreEquiv.v ===== *)
(** * The two stores agree

    The in-memory store and the disk store, run on the same operations on hashes that both
    take, give the same answers, except for lookups of texts that are no hash; and the
    concrete operating system the disk theorems are applied to. *)
From stdpp Require Import base tactics list numbers strings gmap sorting.
From Stdlib Require Import ZArith Lia Init.Byte.
From S2P Require Import Prelude GoStd Errors Sha2 Blob Multihash Store Memory StoreSpec Disk DiskLogic DiskSpec DiskStore.
Local Open Scope Z_scope.

Lemma IsValid_validateHash h : IsValid h = true -> validateHash h = true.
Proof.
  intros [Hl Hf]%IsValid_spec. unfold validateHash. rewrite Hl. simpl.
  apply forallb_forall. intros c Hc%list_elem_of_In. rewrite Forall_forall in Hf.
  by destruct (hex_digit_value c (Hf c Hc)) as (d & -> & _).
Qed.

Lemma IsValid_ValidateHash `{CidLib} h : IsValid h = true -> ValidateHash h = true.
Proof. intros Hh. unfold ValidateHash, IdentifyHash. by rewrite Hh. Qed.

Section equivalence.
Context {L : CidLib} {Sys : OS} {Laws : OSLaws Sys}.
Hypothesis NF : noFault.
Context (base : Path).

Lemma Disk_Put_files h d w :
  diskWf base w -> validateHash h = true ->
  exists w', Disk_Put base Background h d w = (Ok tt, w') /\ diskWf base w'
    /\ w_files w' = <[blobFile base h := d]> (w_files w).
Proof.
  intros Hw Hh. pose proof (Disk_Put_calm NF base Background h d w Hw Hh) as Hc.
  pose proof (hoare_Put base Background h d (fsOf w) Hh w eq_refl) as H.
  destruct (Disk_Put base Background h d w) as [r w']. destruct Hc as (Hw' & _ & Hr).
  rewrite (Hr eq_refl) in *. destruct H as [_ H]. by exists w'.
Qed.

Lemma Disk_PutSD_files h d w :
  diskWf base w -> validateHash h = true ->
  exists w', Disk_PutSD base Background h d w = (Ok tt, w') /\ diskWf base w'
    /\ w_files w' = <[sdFile base h := d]> (w_files w).
Proof.
  intros Hw Hh. pose proof (Disk_PutSD_calm NF base Background h d w Hw Hh) as Hc.
  pose proof (hoare_PutSD base Background h d (fsOf w) Hh w eq_refl) as H.
  destruct (Disk_PutSD base Background h d w) as [[[]|e|x] w']; [|destruct H as [Ht _]|done].
  - destruct H as [_ H], Hc as [? _]. by exists w'.
  - destruct Hc as [[Hl _] _]. destruct (Ht NF eq_refl Hl).
Qed.

Lemma Disk_Delete_files h w :
  diskWf base w -> validateHash h = true ->
  exists w', Disk_Delete base Background h w = (Ok tt, w') /\ diskWf base w'
    /\ w_files w' = delete (sdFile base h) (delete (blobFile base h) (w_files w)).
Proof.
  intros Hw Hh. pose proof (Disk_Delete_calm NF base Background h w Hw Hh) as Hc.
  pose proof (calm_Delete_ok NF base (fsOf w) h (fun _ _ => False) (proj1 Hw) Hh w (conj eq_refl eq_refl)) as H.
  destruct (Disk_Delete base Background h w) as [[[]|e|x] w']; [|done..].
  destruct H as [_ H], Hc as [? _]. by exists w'.
Qed.

(** The same blobs and descriptors in both stores, all under valid hashes. *)
Definition agree (m : MemoryStore) (w : World) : Prop :=
  diskWf base w
  /\ (forall h, IsValid h = true ->
        ms_blobs m !! h = w_files w !! blobFile base h /\ ms_sdBlobs m !! h = w_files w !! sdFile base h)
  /\ (forall h, IsValid h = false -> memoryView m !! h = None /\ diskView base w !! h = None).

Lemma agree_view m w : agree m w -> memoryView m = diskView base w.
Proof.
  intros (_ & Hv & Hi). apply map_eq. intros h. destruct (IsValid h) eqn:Hh; [|by destruct (Hi h Hh) as [-> ->]].
  rewrite memoryView_lookup, diskView_lookup, IsValid_validateHash by done. unfold diskLookup.
  destruct (Hv h Hh) as [-> ->]. done.
Qed.

(** An operation on a valid hash with acceptable data and no cancellation. *)
Definition plainOp (op : storeOp) : Prop :=
  IsValid (opHash op) = true
  /\ match op with
     | OpPut ctx _ d => ctx = Background /\ admits d = true
     | OpPutSD ctx _ d => ctx = Background /\ admits d = true
     | OpDelete ctx _ => ctx = Background
     end.

Lemma agree_put m w w' k d :
  agree m w -> IsValid k = true -> diskWf base w' -> w_files w' = <[blobFile base k := d]> (w_files w) ->
  agree (mkMemoryStore (<[k := d]> (ms_blobs m)) (ms_sdBlobs m)) w'.
Proof.
  intros (Hw & Hv & Hi) Hk Hw' Hf. split_and!; [done|..]; intros h Hh.
  - rewrite Hf. simpl. rewrite (lookup_insert_ne _ _ (sdFile base h)) by apply blobFile_sdFile.
    destruct (Hv h Hh) as [E1 E2]. split; [|done]. destruct (decide (k = h)) as [->|Hne].
    + by rewrite !lookup_insert_eq.
    + rewrite !lookup_insert_ne; [done| |done]. by intros ?%blobFile_inj.
  - assert (h <> k) by congruence. destruct (Hi h Hh) as [Em Ed]. rewrite memoryView_lookup in *. simpl.
    rewrite diskView_lookup, Hf, diskLookup_put in *. by rewrite lookup_insert_ne, decide_False.
Qed.

Lemma agree_putSD m w w' k d :
  agree m w -> IsValid k = true -> diskWf base w' -> w_files w' = <[sdFile base k := d]> (w_files w) ->
  agree (mkMemoryStore (ms_blobs m) (<[k := d]> (ms_sdBlobs m))) w'.
Proof.
  intros (Hw & Hv & Hi) Hk Hw' Hf. split_and!; [done|..]; intros h Hh.
  - rewrite Hf. simpl.
    rewrite (lookup_insert_ne _ _ (blobFile base h)) by (intros E; by apply (blobFile_sdFile base h k)).
    destruct (Hv h Hh) as [E1 E2]. split; [done|]. destruct (decide (k = h)) as [->|Hne].
    + by rewrite !lookup_insert_eq.
    + rewrite !lookup_insert_ne; [done| |done]. by intros ?%sdFile_inj.
  - assert (h <> k) by congruence. destruct (Hi h Hh) as [Em Ed]. rewrite memoryView_lookup in *. simpl.
    rewrite diskView_lookup, Hf, diskLookup_putSD in *. by rewrite lookup_insert_ne, decide_False.
Qed.

Lemma agree_delete m w w' k :
  agree m w -> IsValid k = true -> diskWf base w' ->
  w_files w' = delete (sdFile base k) (delete (blobFile base k) (w_files w)) ->
  agree (mkMemoryStore (delete k (ms_blobs m)) (delete k (ms_sdBlobs m))) w'.
Proof.
  intros (Hw & Hv & Hi) Hk Hw' Hf. split_and!; [done|..]; intros h Hh.
  - rewrite Hf. simpl.
    rewrite (lookup_delete_ne _ _ (blobFile base h)) by (intros E; by apply (blobFile_sdFile base h k)).
    destruct (Hv h Hh) as [E1 E2]. destruct (decide (k = h)) as [->|Hne].
    + by rewrite !lookup_delete_eq.
    + rewrite !lookup_delete_ne; [done|..]; try done; [|by intros ?%sdFile_inj|by intros ?%blobFile_inj].
      apply blobFile_sdFile.
  - assert (h <> k) by congruence. destruct (Hi h Hh) as [Em Ed]. rewrite memoryView_lookup in *. simpl.
    rewrite diskView_lookup, Hf, diskLookup_delete in *. by rewrite !lookup_delete_ne, decide_False.
Qed.

Lemma agree_op m w op :
  agree m w -> plainOp op ->
  agree (runOp (B := MemoryBlobStore) op m) (runOp (B := DiskBlobStore base) op w).
Proof.
  intros Ha [Hh Ho]. pose proof (proj1 Ha) as Hw.
  destruct op as [ctx h d|ctx h d|ctx h]; simpl in *.
  - destruct Ho as [-> Hd]. apply bool_decide_eq_true in Hd.
    destruct (Disk_Put_files h d w Hw) as (w' & -> & Hw' & Hf); [by apply IsValid_validateHash|].
    unfold Memory_Put, validate. simpl. rewrite IsValid_ValidateHash, Hd by done. by eapply agree_put.
  - destruct Ho as [-> Hd]. apply bool_decide_eq_true in Hd.
    destruct (Disk_PutSD_files h d w Hw) as (w' & -> & Hw' & Hf); [by apply IsValid_validateHash|].
    unfold Memory_PutSD, validate. simpl. rewrite IsValid_ValidateHash, Hd by done. by eapply agree_putSD.
  - subst ctx. destruct (Disk_Delete_files h w Hw) as (w' & -> & Hw' & Hf); [by apply IsValid_validateHash|].
    unfold Memory_Delete. simpl. rewrite IsValid_ValidateHash by done. by eapply agree_delete.
Qed.

(** An operation that both stores refuse: its context is cancelled when it starts, or its
    hash has neither the format of the one nor that of the other. *)
Definition opContext (op : storeOp) : Context :=
  match op with OpPut ctx _ _ | OpPutSD ctx _ _ | OpDelete ctx _ => ctx end.
Definition refusedOp (op : storeOp) : Prop :=
  ctxErr (opContext op) 0 <> Ok tt \/ (ValidateHash (opHash op) = false /\ validateHash (opHash op) = false).

Lemma agree_same m w w' : w_files w' = w_files w -> w_links w' = w_links w -> agree m w -> agree m w'.
Proof.
  intros Ef El ([H1 H2] & H3 & H4). split_and!; [by split; rewrite ?El, ?Ef| |]; intros h Hh; rewrite ?Ef; [by apply H3|].
  destruct (H4 h Hh) as [? Hd]. split; [done|]. rewrite diskView_lookup in *. by rewrite Ef.
Qed.

Lemma agree_refused m w op :
  agree m w -> refusedOp op ->
  agree (runOp (B := MemoryBlobStore) op m) (runOp (B := DiskBlobStore base) op w).
Proof.
  intros Ha Hr. assert (Hm : runOp (B := MemoryBlobStore) op m = m).
  { unfold refusedOp in Hr. destruct op as [ctx h d|ctx h d|ctx h]; simpl in *;
      unfold Memory_Put, Memory_PutSD, Memory_Delete, validate; (destruct (ctxErr ctx 0) as [[]|e|p]; [|done..]);
      (destruct Hr as [?|[-> _]]; [done|]); done. }
  rewrite Hm. eapply agree_same; [..|exact Ha]; unfold refusedOp in Hr; destruct op as [ctx h d|ctx h d|ctx h]; simpl in *;
    unfold Disk_Put, Disk_PutSD, Disk_Delete, mbind, M_bind, start, poll; simpl;
    (destruct (ctxErr ctx 0) as [[]|e|p]; [|done..]); (destruct Hr as [?|[_ ->]]; [done|]); done.
Qed.

Lemma agree_ops m w ops :
  agree m w -> Forall (fun op => plainOp op \/ refusedOp op) ops ->
  agree (runOps (B := MemoryBlobStore) ops m) (runOps (B := DiskBlobStore base) ops w).
Proof.
  intros Ha Ho. revert m w Ha. induction Ho as [|op ops [Hop|Hop] _ IH]; intros m w Ha; [done|..].
  - by apply IH, agree_op.
  - by apply IH, agree_refused.
Qed.

(** Texts that are no hash: nothing is found under them, and the errors differ. *)
Lemma lookup_invalid m w h :
  agree m w -> IsValid h = false ->
  (Disk_Has base Background h w).1 = Ok false
  /\ Memory_Has Background h m = (if ValidateHash h then Ok false else Err (ESent ErrInvalidHash))
  /\ (exists e, (Disk_Get base Background h w).1 = Err e
       /\ if validateHash h then IsBlobNotFoundError (Some e) = true else e = ESent ErrInvalidHash)
  /\ Memory_Get Background h m = Err (if ValidateHash h then EMsg "blob not found" else ESent ErrInvalidHash).
Proof.
  intros (Hw & _ & Hi) Hh. destruct (Hi h Hh) as [Em Ed].
  assert (Hd : (Disk_Has base Background h w).1 = Ok false /\ exists e, (Disk_Get base Background h w).1 = Err e
    /\ if validateHash h then IsBlobNotFoundError (Some e) = true else e = ESent ErrInvalidHash).
  { destruct (validateHash h) eqn:Ev.
    - pose proof (store_has (BlobStoreLaws := DiskBlobStoreLaws NF base) w h Hw Ev) as H1.
      pose proof (store_get (BlobStoreLaws := DiskBlobStoreLaws NF base) w h Hw Ev) as H2. simpl in H1, H2.
      rewrite Ed in H1, H2. by split.
    - unfold Disk_Has, Disk_Get, mbind, M_bind, start, poll. simpl. rewrite Ev. simpl. split; [done|]. by eexists. }
  destruct Hd as [H1 H2]. split_and!; [done| |done|].
  - destruct (ValidateHash h) eqn:E; [by rewrite Memory_Has_spec, Em|]. unfold Memory_Has. simpl. by rewrite E.
  - destruct (ValidateHash h) eqn:E; [by rewrite Memory_Get_spec, Em|]. unfold Memory_Get. simpl. by rewrite E.
Qed.

(** C34. Where the disk store and the in-memory store are interchangeable, and where not.
    Take stores that hold the same blobs under lower-case hashes and nothing else, with no
    system call failing, and run the same puts, descriptor puts and deletes on both: on
    lower-case hashes, with data that may be sent and without cancellation, or such that
    both stores refuse them.  Then every lookup of a lower-case hash finds the same blob or
    the same absence; and every listing, with any offset and limit, returns the same page or
    the same error.  A lookup of any other text finds nothing in either store, but the
    answers may differ: the disk store says that it does not have it, where the in-memory
    store says that a text which is neither a hash nor a multihash is invalid; and each
    refuses to read under the texts that have not the format it takes. *)
Theorem stores_agree m w ops
    (Ha : agree m w) (Hops : Forall (fun op => plainOp op \/ refusedOp op) ops) :
  let m' := runOps (B := MemoryBlobStore) ops m in
  let w' := runOps (B := DiskBlobStore base) ops w in
  (forall h, IsValid h = true ->
     (Disk_Has base Background h w').1 = Memory_Has Background h m'
     /\ match Memory_Get Background h m' with
        | Ok d => (Disk_Get base Background h w').1 = Ok d
        | _ => exists e, (Disk_Get base Background h w').1 = Err e /\ IsBlobNotFoundError (Some e) = true
        end)
  /\ (forall offset limit,
        (Disk_List base Background offset limit w').1 = Memory_List Background offset limit m')
  /\ (forall h, IsValid h = false ->
        (Disk_Has base Background h w').1 = Ok false
        /\ Memory_Has Background h m' = (if ValidateHash h then Ok false else Err (ESent ErrInvalidHash))
        /\ (exists e, (Disk_Get base Background h w').1 = Err e
             /\ if validateHash h then IsBlobNotFoundError (Some e) = true else e = ESent ErrInvalidHash)
        /\ Memory_Get Background h m' = Err (if ValidateHash h then EMsg "blob not found" else ESent ErrInvalidHash)).
Proof.
  simpl. pose proof (agree_ops m w ops Ha Hops) as H. revert H.
  generalize (runOps (B := MemoryBlobStore) ops m) (runOps (B := DiskBlobStore base) ops w). clear m w ops Ha Hops.
  intros m w Ha. pose proof (agree_view m w Ha) as Ev. pose proof (proj1 Ha) as Hw.
  split_and!; [| |intros h Hh; by apply lookup_invalid].
  - intros h Hh. rewrite Memory_Has_spec, Memory_Get_spec, Ev by (by apply IsValid_ValidateHash).
    split; [by apply (store_has (BlobStoreLaws := DiskBlobStoreLaws NF base) w), IsValid_validateHash|].
    pose proof (store_get (BlobStoreLaws := DiskBlobStoreLaws NF base) w h Hw (IsValid_validateHash h Hh)) as Hg.
    simpl in Hg. by destruct (diskView base w !! h).
  - intros offset limit. destruct (Z.ltb_spec offset 0) as [Ho|Ho]; [|destruct (Z.leb_spec limit 0) as [Hl|Hl]].
    1-2: unfold Disk_List, Memory_List, mbind, M_bind, start, poll; simpl;
      rewrite ?(proj2 (Z.ltb_lt _ _) Ho), ?(proj2 (Z.ltb_ge _ _) Ho), ?(proj2 (Z.leb_le _ _) Hl); done.
    rewrite Disk_List_spec by done. rewrite <- Ev.
    symmetry. by apply (store_list (BlobStoreLaws := MemoryBlobStoreLaws) m).
Qed.
End equivalence.

(** ** Concrete instances *)

(** An operating system that never fails; a temporary name is longer than every name
    in use. *)
Definition longest (files : gmap Path bytes) : nat :=
  foldr (fun (p : Path) n => Nat.max (length (default [] (last p.2))) n) 0%nat (elements (dom files)).

#[local] Instance calmOS : OS := {|
  os_fault _ := None;
  os_short _ := 0%nat;
  os_pick files _ := replicate (longest files) x30
|}.

Lemma longest_bound files (p : Path) d h :
  files !! p = Some d -> last p.2 = Some h -> (length h <= longest files)%nat.
Proof.
  intros Hd Hl. assert (p ∈ elements (dom files)) as Hp by (by apply elem_of_elements, (elem_of_dom_2 _ _ d)).
  unfold longest. induction Hp as [p l|p q l Hp IH]; simpl.
  - rewrite Hl. simpl. lia.
  - specialize (IH Hd Hl). lia.
Qed.

#[local] Instance calmOS_laws : OSLaws calmOS.
Proof.
  split. intros files dir. destruct (files !! _) as [d|] eqn:E; [|done].
  apply (longest_bound _ _ _ (go ".tmp-" ++ os_pick files dir)) in E; [|simpl; by rewrite last_snoc].
  simpl in E. rewrite length_replicate in E. lia.
Qed.

Definition emptyDisk : World := mkWorld ∅ ∅ ∅ 0 0 [].
Definition storeDir : Path := (true, [go "blobs"]).

Lemma empty_agree : agree storeDir NewMemoryStore emptyDisk.
Proof. split_and!; [split; [done|]| |]; repeat intro; done. Qed.

Lemma safe_paths_witness :
  exists w1 w2, safeJoin storeDir hashA emptyDisk = (Ok (blobFile storeDir hashA), w1)
    /\ safeJoinSD storeDir hashA emptyDisk = (Ok (sdFile storeDir hashA), w2)
    /\ Rel (Clean storeDir) (blobFile storeDir hashA) = Ok [go "aa"; hashA].
Proof.
  assert (exists w1, safeJoin storeDir hashA emptyDisk = (Ok (blobFile storeDir hashA), w1)) as [w1 H1]
    by (exists (safeJoin storeDir hashA emptyDisk).2; vm_compute; reflexivity).
  assert (exists w2, safeJoinSD storeDir hashA emptyDisk = (Ok (sdFile storeDir hashA), w2)) as [w2 H2]
    by (exists (safeJoinSD storeDir hashA emptyDisk).2; vm_compute; reflexivity).
  exists w1, w2. split; [exact H1|]. split; [exact H2|].
  exact (proj1 (safe_paths storeDir hashA hashA emptyDisk _ _ _ _ H1 H2)).
Defined.

Lemma put_crash_safe_witness :
  let '(r, w') := Disk_Put storeDir (mkContext (Some 4%nat) Canceled) hashA (go "x") emptyDisk in
  (exists t, w_trace w' = w_trace emptyDisk ++ t
     /\ Forall (crashState (blobFile storeDir hashA) (go "x") (w_files emptyDisk)) t)
  /\ r = Err (EWrap "failed to write temporary file" (ESent Canceled)).
Proof.
  pose proof (put_crash_safe storeDir (mkContext (Some 4%nat) Canceled) hashA (go "x") emptyDisk) as H.
  cbv zeta in H.
  destruct (Disk_Put storeDir (mkContext (Some 4%nat) Canceled) hashA (go "x") emptyDisk) as [r w'] eqn:E.
  split; [exact (proj1 H)|]. change r with (r, w').1. rewrite <- E. vm_compute. reflexivity.
Defined.

Lemma stores_agree_witness :
  let ops := [OpPut Background hashA (go "x"); OpPutSD Background hashB (go "y"); OpPut Background (go "z") (go "y");
              OpDelete (mkContext (Some 0%nat) Canceled) hashB; OpDelete Background hashA] in
  let m := runOps (B := MemoryBlobStore (L := exampleCid)) ops NewMemoryStore in
  let w := runOps (B := DiskBlobStore storeDir) ops emptyDisk in
  (Disk_Has storeDir Background hashB w).1 = Memory_Has (L := exampleCid) Background hashB m
  /\ (Disk_Has storeDir Background (go "z") w).1 = Ok false
  /\ Memory_Has (L := exampleCid) Background (go "z") m = Err (ESent ErrInvalidHash).
Proof.
  intros ops m w.
  destruct (stores_agree (L := exampleCid) (Sys := calmOS) (fun _ => eq_refl) storeDir NewMemoryStore emptyDisk ops empty_agree) as (H1 & _ & H3).
  { assert (Hp : forall op, plainOp op -> plainOp op \/ refusedOp (L := exampleCid) op) by auto.
    constructor; [apply Hp; vm_compute; auto|]. constructor; [apply Hp; vm_compute; auto|].
    constructor; [right; right; vm_compute; auto|]. constructor; [right; left; vm_compute; discriminate|].
    constructor; [apply Hp; vm_compute; auto|constructor]. }
  assert (Hb : IsValid hashB = true) by (vm_compute; reflexivity).
  assert (Hz : IsValid (go "z") = false) by (vm_compute; reflexivity).
  assert (Ez : ValidateHash (L := exampleCid) (go "z") = false) by (vm_compute; reflexivity).
  fold m w in H1, H3. destruct (H1 hashB Hb) as [E1 _]. destruct (H3 (go "z") Hz) as (Hd & Hm & _). rewrite Ez in Hm.
  exact (conj E1 (conj Hd Hm)).
Defined.
