(* ===== verification/Factory.v ===== *)
(** * store.go and storage/storage.go: making store factories

    [CreateStorageFactoryWithOptions] for any type of factory: its zero value, the options
    applied to it in order, and the default logger for a type that has one and was given
    none.  What the generic function finds out about the type by reflection and type
    assertions is a class. *)
From stdpp Require Import base tactics list numbers strings.
From Stdlib Require Import ZArith Lia.
From S2P Require Import Prelude.

(** A logger by its name; a nil logger is [None]. *)
Abbreviation Logger := string.
Definition defaultLogger : Logger := "nop".

(** A type of factories: its zero value, whether it is a pointer type, and its
    [GetLogger] and [SetLogger], if it has them. *)
Class FactoryType (F : Type) := {
  zeroFactory : F;
  isPointer : bool;
  GetLogger : option (F -> option Logger);
  SetLogger : option (option Logger -> F -> F)
}.

(** Documented of the two methods: a logger that was set is the one that is returned. *)
Class FactoryLaws (F : Type) `{FactoryType F} := {
  logger_set get set l f : GetLogger = Some get -> SetLogger = Some set -> get (set l f) = l
}.

Section Create.
Context `{FactoryType F}.

(** [StoreFactoryOption]: what [Apply] does to the factory, and its error. *)
Definition StoreFactoryOption := F -> F * option error.

Definition LoggerOption_Apply (logger : option Logger) : StoreFactoryOption := fun factory =>
  (match SetLogger with Some set => set logger factory | None => factory end, None).
Definition WithLogger (logger : option Logger) : StoreFactoryOption := LoggerOption_Apply logger.

(** The loop over the options: the first error ends it. *)
Fixpoint applyOptions (opts : list StoreFactoryOption) (factory : F) : F * option error :=
  match opts with
  | [] => (factory, None)
  | opt :: opts =>
      match opt factory with
      | (factory, Some e) => (factory, Some e)
      | (factory, None) => applyOptions opts factory
      end
  end.

Definition CreateStorageFactoryWithOptions (opts : list StoreFactoryOption) : F * option error :=
  if isPointer then
    (zeroFactory, Some (EMsg "T must not be a pointer type - use concrete type instead"))
  else
    match applyOptions opts zeroFactory with
    | (factory, Some e) => (factory, Some e)
    | (factory, None) =>
        (match GetLogger with
         | Some get =>
             match get factory with
             | None => match SetLogger with Some set => set (Some defaultLogger) factory | None => factory end
             | Some _ => factory
             end
         | None => factory
         end, None)
    end.

Definition CreateStorageFactory (logger : option Logger) : F * option error :=
  CreateStorageFactoryWithOptions [WithLogger logger].

(** The error of the options, if any of them has one: the first. *)
Fixpoint firstError (opts : list StoreFactoryOption) (factory : F) : option error :=
  match opts with
  | [] => None
  | opt :: opts => match (opt factory).2 with Some e => Some e | None => firstError opts (opt factory).1 end
  end.

Lemma applyOptions_error opts factory : (applyOptions opts factory).2 = firstError opts factory.
Proof.
  revert factory. induction opts as [|opt opts IH]; intros f; simpl; [done|].
  destruct (opt f) as [f' [e|]]; simpl; [done|apply IH].
Qed.
End Create.

(** A factory that is created has a logger, if its type keeps one: the one it was given, or
    the default.  Creating one fails exactly for a pointer type, on which nothing is
    called, and on the first option that fails. *)
Theorem factory_created `{FactoryLaws F} (opts : list StoreFactoryOption) logger :
  (CreateStorageFactoryWithOptions opts).2
    = (if isPointer then Some (EMsg "T must not be a pointer type - use concrete type instead")
       else firstError opts zeroFactory)
  /\ (forall get set, GetLogger = Some get -> SetLogger = Some set ->
       ((CreateStorageFactoryWithOptions opts).2 = None ->
          is_Some (get (CreateStorageFactoryWithOptions opts).1))
       /\ (isPointer = false ->
            (CreateStorageFactory logger).2 = None
            /\ get (CreateStorageFactory logger).1 = Some (default defaultLogger logger)))
  /\ (SetLogger = None -> isPointer = false -> CreateStorageFactory logger = (zeroFactory, None)).
Proof.
  unfold CreateStorageFactory, CreateStorageFactoryWithOptions. split_and!.
  - destruct isPointer; [done|]. rewrite <- applyOptions_error.
    by destruct (applyOptions opts zeroFactory) as [f [e|]].
  - intros get set Eg Es. split.
    + destruct isPointer; [done|]. destruct (applyOptions opts zeroFactory) as [f [e|]]; [done|]. intros _.
      simpl. rewrite Eg, Es. destruct (get f) as [l|] eqn:E; [by rewrite E|].
      by rewrite (logger_set get set _ f Eg Es).
    + intros ->. simpl. unfold WithLogger, LoggerOption_Apply. rewrite Es. simpl. rewrite Eg.
      split; [done|]. rewrite !(logger_set get set _ _ Eg Es).
      destruct logger; simpl; by rewrite (logger_set get set _ _ Eg Es).
  - intros Es ->. simpl. unfold WithLogger, LoggerOption_Apply. rewrite Es. simpl.
    destruct GetLogger as [get|]; [|done]. by destruct (get zeroFactory).
Qed.

(** The factory of disk stores keeps a logger. *)
Record DiskStoreFactory := mkDiskStoreFactory { df_logger : option Logger }.
Definition DiskStoreFactory_SetLogger (logger : option Logger) (f : DiskStoreFactory) : DiskStoreFactory :=
  mkDiskStoreFactory logger.
Definition DiskStoreFactory_GetLogger (f : DiskStoreFactory) : option Logger := df_logger f.
Definition DiskStoreFactory_Name (f : DiskStoreFactory) : string := "disk".

#[export] Instance diskFactory : FactoryType DiskStoreFactory := {
  zeroFactory := mkDiskStoreFactory None;
  isPointer := false;
  GetLogger := Some DiskStoreFactory_GetLogger;
  SetLogger := Some DiskStoreFactory_SetLogger
}.
#[export] Instance diskFactoryLaws : FactoryLaws DiskStoreFactory.
Proof. split. intros get set l f [= <-] [= <-]. done. Qed.

Example disk_factory_default :
  CreateStorageFactory None = (mkDiskStoreFactory (Some defaultLogger), None).
Proof. reflexivity. Qed.
