(* ===== verification/HdKey.v ===== *)
(** * wallet/hdkey.go and wallet/params.go: hierarchical keys and addresses

    BIP32 derivation over an interface of lbcd's btcec package, and the addresses of
    keys.  RIPEMD-160 and the base-58 alphabet are parameters. *)
From stdpp Require Import base tactics list numbers strings.
From Stdlib Require Import ZArith Lia Init.Byte.
From S2P Require Import Prelude GoStd Sha2 ClaimId.
Local Open Scope Z_scope.

#[global] Opaque hmac_sha512.
#[local] Arguments be_bytes _ _ : simpl never.

(** ** btcec and the other packages *)

Class Btcec := {
  PrivateKey : Type;
  PublicKey : Type;
  S256_N : Z;
  PrivKeyFromBytes : bytes -> PrivateKey;
  Serialize_ : PrivateKey -> bytes;
  PubKey : PrivateKey -> PublicKey;
  SerializeCompressed : PublicKey -> bytes;
  ToECDSA : PublicKey -> Z * Z;
  mkPublicKey : Z * Z -> PublicKey;
  ScalarBaseMult : bytes -> Z * Z;
  CurveAdd : Z * Z -> Z * Z -> Z * Z;
  ripemd160 : bytes -> bytes;
  base58_Encode : bytes -> bytes
}.

(** Serialisation of 32-byte scalars; the public key is the base point times the
    scalar; the multiplication is a homomorphism of order N, and no multiple below N
    has a zero coordinate. *)
Class BtcecLaws (B : Btcec) : Prop := {
  S256_N_range : 1 < S256_N < 2 ^ 256;
  Serialize_FromBytes b : length b = 32%nat -> Serialize_ (PrivKeyFromBytes b) = b;
  length_Serialize k : length (Serialize_ k) = 32%nat;
  PubKey_mult k : PubKey k = mkPublicKey (ScalarBaseMult (Serialize_ k));
  ToECDSA_mk xy : ToECDSA (mkPublicKey xy) = xy;
  ScalarBaseMult_add a b : 0 <= a < S256_N -> 0 <= b < S256_N ->
    CurveAdd (ScalarBaseMult (be_bytes 32 a)) (ScalarBaseMult (be_bytes 32 b))
    = ScalarBaseMult (be_bytes 32 ((b + a) mod S256_N));
  ScalarBaseMult_affine a : 0 < a < S256_N ->
    (ScalarBaseMult (be_bytes 32 a)).1 <> 0 /\ (ScalarBaseMult (be_bytes 32 a)).2 <> 0;
  length_SerializeCompressed p : length (SerializeCompressed p) = 33%nat
}.

Section hdkey.
Context {B : Btcec}.

(** ** wallet/params.go *)

Definition P2PKHAddrID : byte := x55.

(** [hash160]: RIPEMD160(SHA256(data)) in an array of twenty bytes. *)
Definition hash160 (data : bytes) : bytes := copyArray 20 (ripemd160 (sha256_Sum256 data)).

Definition hash256 (data : bytes) : bytes := sha256_Sum256 (sha256_Sum256 data).

Definition base58CheckEncode (data : bytes) : bytes :=
  base58_Encode (data ++ take 4 (sha256_Sum256 (sha256_Sum256 data))).

Record Address := mkAddress { ad_hash160 : bytes }.

Definition NewAddressPubKeyHash (h : bytes) : Address := mkAddress h.

Definition EncodeAddress (a : Address) : bytes := base58CheckEncode (P2PKHAddrID :: ad_hash160 a).

Definition AddressFromPubKey (pubKey : PublicKey) : Address :=
  mkAddress (hash160 (SerializeCompressed pubKey)).

Definition AddressFromPrivKey (privKey : PrivateKey) : Address := AddressFromPubKey (PubKey privKey).

Definition PubKeyScript (a : Address) : bytes :=
  [x76; xa9; x14] ++ ad_hash160 a ++ [x88; xac].

(** ** wallet/hdkey.go *)

Definition HardenedKeyStart : Z := 2147483648.
Definition masterKeyText : bytes := go "Bitcoin seed".

Record ExtendedKey := mkExtendedKey {
  ek_privKey : option PrivateKey;
  ek_pubKey : option PublicKey;
  ek_chainCode : option bytes;
  ek_parentFP : bytes;
  ek_depth : Z;
  ek_childNum : Z;
  ek_isPrivate : bool
}.

Definition fingerprint (pubKey : PublicKey) : bytes := take 4 (hash160 (SerializeCompressed pubKey)).

Definition NewMaster (seed : bytes) : result ExtendedKey :=
  if decide (length seed < 16 \/ 64 < length seed)%nat
  then Err (EMsg "invalid seed length: %d (must be 16-64)") else
  let lr := hmac_sha512 masterKeyText seed in
  let secretKey := take 32 lr in
  let chainCode := drop 32 lr in
  let keyNum := be_Z secretKey in
  if (keyNum =? 0) || (S256_N <=? keyNum) then Err (EMsg "unusable seed: derived key is out of range") else
  let priv := PrivKeyFromBytes secretKey in
  Ok (mkExtendedKey (Some priv) (Some (PubKey priv)) (Some chainCode) (replicate 4 x00) 0 0 true).

Definition zeroedKey : error := EMsg "extended key has been zeroed".

(** A pointer that must not be nil. *)
Definition notNil {A} (p : option A) (e : error) : result A :=
  match p with Some a => Ok a | None => Err e end.

(** The data hashed for child [i]. *)
Definition childData (isHardened : bool) (privKey : option PrivateKey) (pubKey : PublicKey) (i : Z) : result bytes :=
  (if isHardened then priv ← notNil privKey zeroedKey; Ok (copyArray 33 (x00 :: Serialize_ priv))
   else Ok (copyArray 33 (SerializeCompressed pubKey)))
  ≫= fun data => Ok (data ++ PutUint32BE i).

(** The child of a private key. *)
Definition derivePrivate (k : ExtendedKey) (pubKey : PublicKey) (il childChainCode : bytes) (i : Z) : result ExtendedKey :=
  privKey ← notNil (ek_privKey k) zeroedKey;
  let ilNum := (be_Z il + be_Z (Serialize_ privKey)) mod S256_N in
  let priv := PrivKeyFromBytes (be_bytes 32 ilNum) in
  Ok (mkExtendedKey (Some priv) (Some (PubKey priv)) (Some childChainCode)
        (fingerprint pubKey) (ek_depth k + 1) i true).

(** The child of a public key. *)
Definition derivePublic (k : ExtendedKey) (pubKey : PublicKey) (il childChainCode : bytes) (i : Z) : result ExtendedKey :=
  let '(ilx, ily) := ScalarBaseMult il in
  if (ilx =? 0) || (ily =? 0) then Err (EMsg "invalid child at index %d") else
  let childPub := mkPublicKey (CurveAdd (ToECDSA pubKey) (ilx, ily)) in
  Ok (mkExtendedKey None (Some childPub) (Some childChainCode)
        (fingerprint pubKey) (ek_depth k + 1) i false).

Definition deriveLocked (k : ExtendedKey) (i : Z) : result ExtendedKey :=
  if ek_depth k =? 255 then Err (EMsg "derivation depth exceeds maximum (255)") else
  let isHardened := HardenedKeyStart <=? i in
  if negb (ek_isPrivate k) && isHardened then Err (EMsg "cannot derive hardened child from public key") else
  if isHardened && bool_decide (ek_privKey k = None) then Err zeroedKey else
  pubKey ← notNil (ek_pubKey k) zeroedKey;
  chainCode ← notNil (ek_chainCode k) zeroedKey;
  data ← childData isHardened (ek_privKey k) pubKey i;
  let ilr := hmac_sha512 chainCode data in
  let il := take 32 ilr in
  let childChainCode := drop 32 ilr in
  let ilNum := be_Z il in
  if (ilNum =? 0) || (S256_N <=? ilNum)
  then Err (EMsg "invalid child at index %d (extremely rare, try next)") else
  if ek_isPrivate k then derivePrivate k pubKey il childChainCode i
  else derivePublic k pubKey il childChainCode i.

Definition Derive (k : ExtendedKey) (i : Z) : result ExtendedKey := deriveLocked k i.

(** [ECPrivKey] returns the key and the error of its named results; the error the
    closure returns is dropped. *)
Definition ECPrivKey (k : ExtendedKey) : result (option PrivateKey) :=
  if negb (ek_isPrivate k) then Ok None else
  match ek_privKey k with
  | None => Ok None
  | Some pk => Ok (Some pk)
  end.

Definition ECPubKey (k : ExtendedKey) : option PublicKey := ek_pubKey k.
Definition IsPrivate (k : ExtendedKey) : bool := ek_isPrivate k.
Definition Depth (k : ExtendedKey) : Z := ek_depth k.
Definition ChildNum (k : ExtendedKey) : Z := ek_childNum k.

(** The seventy-eight bytes of the extended-key format; none for a zeroed key. *)
Definition keyPayload (k : ExtendedKey) : result (option bytes) :=
  let version := if ek_isPrivate k then [x04; x88; xad; xe4] else [x04; x88; xb2; x1e] in
  let buf := version ++ [byte_of_Z (ek_depth k)] ++ ek_parentFP k ++ PutUint32BE (ek_childNum k) in
  match ek_chainCode k with
  | None => Ok None
  | Some chainCode =>
      let buf := buf ++ chainCode in
      if ek_isPrivate k then
        match ek_privKey k with
        | None => Ok None
        | Some priv => Ok (Some (buf ++ [x00] ++ Serialize_ priv))
        end
      else
        match ek_pubKey k with
        | None => Panic "nil pointer dereference"
        | Some pub => Ok (Some (buf ++ SerializeCompressed pub))
        end
  end.

Definition ExtendedKey_String (k : ExtendedKey) : result bytes :=
  p ← keyPayload k;
  Ok (match p with None => [] | Some buf => base58CheckEncode buf end).

Definition Hex (k : ExtendedKey) : bytes :=
  if negb (ek_isPrivate k) then [] else
  match ek_privKey k with None => [] | Some priv => EncodeToString (Serialize_ priv) end.

(** [Zero]: the key and the chain code are dropped; the public key stays. *)
Definition ExtendedKey_Zero (k : ExtendedKey) : ExtendedKey :=
  mkExtendedKey None (ek_pubKey k) None (ek_parentFP k) (ek_depth k) (ek_childNum k) (ek_isPrivate k).
End hdkey.

(** ** Properties *)

Section properties.
Context {B : Btcec} {Laws : BtcecLaws B}.

(** A private key with its public key and chain code, as [NewMaster] and [Derive]
    make them. *)
Record wfPrivate (k : ExtendedKey) : Prop := {
  wf_isPrivate : ek_isPrivate k = true;
  wf_keys : exists priv, ek_privKey k = Some priv /\ ek_pubKey k = Some (PubKey priv)
              /\ be_Z (Serialize_ priv) < S256_N;
  wf_chainCode : exists c, ek_chainCode k = Some c /\ length c = 32%nat;
  wf_depth : 0 <= ek_depth k <= 255
}.

(** The public part of a key. *)
Definition neuter (k : ExtendedKey) : ExtendedKey :=
  mkExtendedKey None (ek_pubKey k) (ek_chainCode k) (ek_parentFP k) (ek_depth k) (ek_childNum k) false.

Lemma be_Z_pos b : 0 <= be_Z b.
Proof. apply be_Z_range. Qed.

Lemma length_halves key data :
  length (take 32 (hmac_sha512 key data)) = 32%nat /\ length (drop 32 (hmac_sha512 key data)) = 32%nat.
Proof. rewrite length_take, length_drop, length_hmac_sha512. done. Qed.

Lemma be_bytes_32 b : length b = 32%nat -> be_bytes 32 (be_Z b) = b.
Proof. intros H. rewrite <- H at 1. apply be_bytes_be_Z. Qed.

(** A scalar below the order is serialised without loss. *)
Lemma scalar_roundtrip z : 0 <= z < S256_N -> be_Z (be_bytes 32 z) = z.
Proof.
  intros Hz. pose proof S256_N_range. rewrite be_Z_be_bytes by lia. apply Z.mod_small.
  change (256 ^ Z.of_nat 32) with (2 ^ 256). lia.
Qed.

Lemma NewMaster_wf seed k : NewMaster seed = Ok k -> wfPrivate k /\ ek_depth k = 0.
Proof.
  unfold NewMaster. case_decide; [done|].
  destruct (length_halves masterKeyText seed) as [H1 H2]. revert H1 H2.
  generalize (take 32 (hmac_sha512 masterKeyText seed)) (drop 32 (hmac_sha512 masterKeyText seed)).
  intros secret chain H1 H2. destruct (orb _ _) eqn:E; [done|]. intros [= <-]. split; [|done].
  apply orb_false_iff in E as [_ E%Z.leb_gt]. split; simpl; [done| | |lia].
  - exists (PrivKeyFromBytes secret). by rewrite Serialize_FromBytes.
  - by exists chain.
Qed.

Lemma derivePrivate_ok k priv pub il cc i :
  ek_privKey k = Some priv ->
  derivePrivate k pub il cc i
  = Ok (let ilNum := (be_Z il + be_Z (Serialize_ priv)) mod S256_N in
        let child := PrivKeyFromBytes (be_bytes 32 ilNum) in
        mkExtendedKey (Some child) (Some (PubKey child)) (Some cc) (fingerprint pub) (ek_depth k + 1) i true).
Proof. intros E. unfold derivePrivate. by rewrite E. Qed.

(** The public key of the private child is the public child. *)
Lemma child_pubkey priv il :
  be_Z (Serialize_ priv) < S256_N -> length il = 32%nat -> 0 < be_Z il < S256_N ->
  CurveAdd (ToECDSA (PubKey priv)) (ScalarBaseMult il)
  = ScalarBaseMult (be_bytes 32 ((be_Z il + be_Z (Serialize_ priv)) mod S256_N)).
Proof.
  intros Hp Hl Hi. rewrite PubKey_mult, ToECDSA_mk.
  rewrite <- (be_bytes_32 il) at 1 by done. rewrite <- (be_bytes_32 (Serialize_ priv)) at 1 by apply length_Serialize.
  apply ScalarBaseMult_add; [|lia]. split; [apply be_Z_pos|done].
Qed.

Lemma derive_child_wf priv il cc fp d i :
  0 <= d < 255 -> length cc = 32%nat ->
  let child := PrivKeyFromBytes (be_bytes 32 ((be_Z il + be_Z (Serialize_ priv)) mod S256_N)) in
  wfPrivate (mkExtendedKey (Some child) (Some (PubKey child)) (Some cc) fp (d + 1) i true).
Proof.
  intros Hd Hc. simpl. pose proof S256_N_range.
  assert (0 <= (be_Z il + be_Z (Serialize_ priv)) mod S256_N < S256_N) as Hm by (apply Z.mod_pos_bound; lia).
  split; simpl; [done| | |lia].
  - eexists. split_and!; [done|done|]. rewrite Serialize_FromBytes by apply length_be_bytes.
    rewrite scalar_roundtrip by exact Hm. apply Hm.
  - by exists cc.
Qed.

(** C38. Public and private derivation agree: for a key that [NewMaster] or [Derive]
    made and a non-hardened index, the public part of the child is the child of the
    public part, down to the chain code, fingerprint and depth; both fail together,
    and the child is again well formed. *)
Theorem public_derivation k i
    (Hk : wfPrivate k) (Hi : 0 <= i < HardenedKeyStart) :
  match Derive k i with
  | Ok c => Derive (neuter k) i = Ok (neuter c) /\ wfPrivate c
  | Err e => Derive (neuter k) i = Err e
  | Panic _ => False
  end.
Proof.
  destruct Hk as [Hp (priv & Hpk & Hpub & Hlt) (c & Hc & _) Hd].
  unfold Derive, deriveLocked, neuter, childData. simpl. rewrite Hp, Hpk, Hpub, Hc. simpl.
  rewrite (proj2 (Z.leb_gt HardenedKeyStart i)) by lia. simpl.
  destruct (Z.eqb_spec (ek_depth k) 255) as [E|E]; [done|]. simpl.
  set (data := copyArray 33 _ ++ _). destruct (length_halves c data) as [Hl1 Hl2]. revert Hl1 Hl2.
  generalize (take 32 (hmac_sha512 c data)) (drop 32 (hmac_sha512 c data)). intros il cc Hl1 Hl2.
  destruct (orb _ _) eqn:Eb; [done|]. apply orb_false_iff in Eb as [E1%Z.eqb_neq E2%Z.leb_gt].
  assert (0 < be_Z il < S256_N) as Hil by (pose proof (be_Z_pos il); lia).
  rewrite (derivePrivate_ok k priv) by done. simpl. split; [|apply derive_child_wf; [lia|done]].
  unfold derivePublic. simpl.
  destruct (ScalarBaseMult_affine (be_Z il) Hil) as [Hx Hy].
  rewrite be_bytes_32 in Hx, Hy by done.
  pose proof (child_pubkey priv il Hlt Hl1 Hil) as Ep.
  destruct (ScalarBaseMult il) as [x y]. simpl in Hx, Hy.
  rewrite (proj2 (Z.eqb_neq x 0)), (proj2 (Z.eqb_neq y 0)) by done. simpl.
  rewrite Ep, (PubKey_mult (PrivKeyFromBytes _)), Serialize_FromBytes by apply length_be_bytes. done.
Qed.
End properties.

(** ** An instance: the integers modulo the order of secp256k1

    The multiple of the base point is its scalar; hashes are cut to twenty bytes and
    base 58 is base 16. *)

Definition secp256k1_N : Z :=
  115792089237316195423570985008687907852837564279074904382605163141518161494337.

#[local] Instance exampleBtcec : Btcec := {|
  PrivateKey := Z;
  PublicKey := Z * Z;
  S256_N := secp256k1_N;
  PrivKeyFromBytes := be_Z;
  Serialize_ := be_bytes 32;
  PubKey k := (be_Z (be_bytes 32 k) mod secp256k1_N, 1);
  SerializeCompressed p := x02 :: be_bytes 32 p.1;
  ToECDSA p := p;
  mkPublicKey p := p;
  ScalarBaseMult b := (be_Z b mod secp256k1_N, 1);
  CurveAdd p q := ((p.1 + q.1) mod secp256k1_N, 1);
  ripemd160 b := take 20 b;
  base58_Encode := EncodeToString
|}.

Definition exampleSeed : bytes := replicate 16 x07.

#[local] Instance exampleBtcec_laws : BtcecLaws exampleBtcec.
Proof.
  assert (256 ^ Z.of_nat 32 = 2 ^ 256) as Hpow by reflexivity.
  assert (1 < secp256k1_N < 2 ^ 256) as HN by (unfold secp256k1_N; lia).
  assert (forall a, 0 <= a < secp256k1_N -> be_Z (be_bytes 32 a) mod secp256k1_N = a) as Hr.
  { intros a Ha. rewrite be_Z_be_bytes, Hpow by lia. rewrite (Z.mod_small a) by lia. apply Z.mod_small. lia. }
  split; simpl.
  - done.
  - intros b Hb. rewrite <- Hb. apply be_bytes_be_Z.
  - done.
  - done.
  - done.
  - intros a b Ha Hb. rewrite !Hr by done. f_equal.
    rewrite Z.add_comm. symmetry. apply Hr, Z.mod_pos_bound. lia.
  - intros a Ha. rewrite Hr by lia. split; lia.
  - done.
Qed.

Lemma exampleMaster_ok : is_ok (NewMaster (B := exampleBtcec) exampleSeed) = true.
Proof. vm_compute. reflexivity. Qed.

Definition deriveTwice (k : result (ExtendedKey (B := exampleBtcec))) : bool :=
  is_ok (k ≫= fun k => Derive k 5).

Lemma exampleChild_ok : deriveTwice (NewMaster exampleSeed) = true.
Proof. vm_compute. reflexivity. Qed.

Lemma public_derivation_witness :
  exists k c : ExtendedKey (B := exampleBtcec),
    NewMaster exampleSeed = Ok k /\ Derive k 5 = Ok c /\ Derive (neuter k) 5 = Ok (neuter c).
Proof.
  pose proof exampleMaster_ok as Hm. pose proof exampleChild_ok as Hc.
  destruct (NewMaster (B := exampleBtcec) exampleSeed) as [k|e|x] eqn:E; [|discriminate Hm..].
  pose proof (public_derivation (B := exampleBtcec) k 5 (proj1 (NewMaster_wf _ _ E))
                ltac:(unfold HardenedKeyStart; lia)) as H.
  unfold deriveTwice in Hc. cbn [mbind result_bind] in Hc.
  destruct (Derive k 5) as [c|e|x] eqn:Ed; [|discriminate Hc..].
  exists k, c. split; [reflexivity|]. split; [exact Ed|exact (proj1 H)].
Defined.
