(* ===== verification/Mnemonic.v ===== *)
(** * wallet/mnemonic.go: mnemonic seeds

    A Go string is its sequence of runes here.  The tables of unicode, the NFKD
    normalisation and PBKDF2 are parameters. *)
From stdpp Require Import base tactics list numbers strings gmap.
From Stdlib Require Import ZArith Lia Init.Byte.
From S2P Require Import Prelude GoStd Sha2 Wordlist.
Local Open Scope Z_scope.

Abbreviation runes := (list Z).

Class Unicode := {
  NFKD_String : runes -> runes;
  unicode_Mn : Z -> bool;
  unicode_ToLower : Z -> Z;
  pbkdf2_Key : bytes -> bytes -> Z -> Z -> bytes
}.

(** ASCII text is its own normal form, has no combining marks, and lower-case letters
    and blanks are their own lower case. *)
Class UnicodeLaws (U : Unicode) : Prop := {
  NFKD_ascii s : Forall (fun r => 0 <= r < 128) s -> NFKD_String s = s;
  Mn_ascii r : 0 <= r < 128 -> unicode_Mn r = false;
  ToLower_ascii r : 0 <= r < 128 -> ~ 65 <= r <= 90 -> unicode_ToLower r = r
}.

(** ** Runes *)

(** [unicode.IsSpace]: the White_Space property. *)
Definition IsSpace (r : Z) : bool :=
  ((9 <=? r) && (r <=? 13)) || (r =? 32) || (r =? 133) || (r =? 160) || (r =? 5760)
  || ((8192 <=? r) && (r <=? 8202)) || (r =? 8232) || (r =? 8233) || (r =? 8239) || (r =? 8287) || (r =? 12288).

(** The UTF-8 bytes of a rune. *)
Definition utf8Rune (r : Z) : bytes :=
  byte_of_Z <$>
  if r <? 128 then [r]
  else if r <? 2048 then [192 + r / 64; 128 + r mod 64]
  else if r <? 65536 then [224 + r / 4096; 128 + r / 64 mod 64; 128 + r mod 64]
  else [240 + r / 262144; 128 + r / 4096 mod 64; 128 + r / 64 mod 64; 128 + r mod 64].

Definition utf8 (s : runes) : bytes := s ≫= utf8Rune.

Definition asRunes (s : string) : runes := Z_of_byte <$> go s.

(** [strings.Fields]: the maximal runs of runes that are not spaces. *)
Fixpoint fieldsAux (s : runes) (cur : runes) : list runes :=
  match s with
  | [] => if decide (cur = []) then [] else [cur]
  | r :: s' =>
      if IsSpace r then (if decide (cur = []) then fieldsAux s' [] else cur :: fieldsAux s' [])
      else fieldsAux s' (cur ++ [r])
  end.

Definition Fields (s : runes) : list runes := fieldsAux s [].

(** [strings.Join(words, sep)] with a blank. *)
Fixpoint JoinBlank (words : list runes) : runes :=
  match words with
  | [] => []
  | [w] => w
  | w :: words' => w ++ 32 :: JoinBlank words'
  end.

(** ** The word list *)

Definition wordlist : list runes := asRunes <$> wordlistText.

Fixpoint buildFrom (i : Z) (words : list runes) (m : gmap runes Z) : gmap runes Z :=
  match words with
  | [] => m
  | w :: words' => buildFrom (i + 1) words' (<[w := i]> m)
  end.

Definition buildWordIndexMap (words : list runes) : gmap runes Z := buildFrom 0 words ∅.

Definition wordIndexMap : gmap runes Z := buildWordIndexMap wordlist.

(** ** Normalisation *)

Definition isWhitespace (r : Z) : bool := IsSpace r.

Definition cjkIntervals : list (Z * Z) :=
  [(0x4E00, 0x9FFF); (0x3400, 0x4DBF); (0x20000, 0x2A6DF); (0x2A700, 0x2B73F); (0x2B740, 0x2B81F);
   (0xF900, 0xFAFF); (0x2F800, 0x2FA1D); (0x3190, 0x319F); (0x2E80, 0x2EFF); (0x2F00, 0x2FDF);
   (0x31C0, 0x31EF); (0x2FF0, 0x2FFF); (0xE0100, 0xE01EF); (0x3100, 0x312F); (0x31A0, 0x31BF);
   (0xFF00, 0xFFEF); (0x3040, 0x309F); (0x30A0, 0x30FF); (0x31F0, 0x31FF); (0x1B000, 0x1B0FF);
   (0xAC00, 0xD7AF); (0x1100, 0x11FF); (0xA960, 0xA97F); (0xD7B0, 0xD7FF); (0x3130, 0x318F);
   (0xA4D0, 0xA4FF); (0x16F00, 0x16F9F); (0xA000, 0xA48F); (0xA490, 0xA4CF)].

Definition isCJK (r : Z) : bool := existsb (fun iv => (iv.1 <=? r) && (r <=? iv.2)) cjkIntervals.

(** The rune at position [i] with its neighbours: a blank between two CJK runes goes. *)
Definition keepRune (rs : runes) (i : nat) (r : Z) : bool :=
  if isWhitespace r && bool_decide (0 < i)%nat && bool_decide (i < length rs - 1)%nat then
    match rs !! (i - 1)%nat, rs !! (i + 1)%nat with
    | Some a, Some b => negb (isCJK a && isCJK b)
    | _, _ => true
    end
  else true.

Fixpoint dropBlanks (rs : runes) (i : nat) (rest : runes) : runes :=
  match rest with
  | [] => []
  | r :: rest' => if keepRune rs i r then r :: dropBlanks rs (S i) rest' else dropBlanks rs (S i) rest'
  end.

Section mnemonic.
Context {U : Unicode}.

Definition NormalizeText (seed : runes) : runes :=
  let b := filter (fun r => unicode_Mn r = false) (NFKD_String seed) in
  let seed := unicode_ToLower <$> b in
  let seed := JoinBlank (Fields seed) in
  dropBlanks seed 0 seed.

Definition Passphrase : runes := asRunes "lbryum".
Definition SeedPrefix : bytes := go "01".

Definition MnemonicToSeed (mnemonic passphrase : runes) : bytes :=
  pbkdf2_Key (utf8 (NormalizeText mnemonic)) (utf8 (NormalizeText passphrase)) 2048 64.

Definition IsNewSeed (seed : runes) (prefix : bytes) : bool :=
  let hash := EncodeToString (hmac_sha512 (go "Seed version") (utf8 (NormalizeText seed))) in
  bool_decide (take (length prefix) hash = prefix).

Definition wordN : Z := Z.of_nat (length wordlist).

(** [for temp > 0]: the remainder picks a word.  Each round divides by the number of
    words, so as many rounds as bits are enough. *)
Fixpoint encodeLoop (fuel : nat) (temp : Z) : result (list runes) :=
  if temp <=? 0 then Ok [] else
  match fuel with
  | O => Panic "out of fuel"
  | S fuel =>
      w ← index wordlist (Z.to_nat (temp mod wordN));
      ws ← encodeLoop fuel (temp / wordN);
      Ok (w :: ws)
  end.

Definition MnemonicEncode (i : Z) : result runes :=
  words ← encodeLoop (Z.to_nat (Z.log2 i) + 1) i;
  Ok (JoinBlank words).

(** The words from the last to the first. *)
Fixpoint decodeWords (words : list runes) : result Z :=
  match words with
  | [] => Ok 0
  | w :: words' =>
      i ← decodeWords words';
      match wordIndexMap !! w with
      | None => Err (EMsg "word %q not in wordlist")
      | Some idx => Ok (i * wordN + idx)
      end
  end.

Definition MnemonicDecode (seed : runes) : result Z := decodeWords (Fields (NormalizeText seed)).

Definition Mnemonic_IsValid (seed : runes) : bool :=
  let seed := NormalizeText seed in
  let words := Fields seed in
  if decide (words = []) then false
  else if forallb (fun w => bool_decide (is_Some (wordIndexMap !! w))) words
  then IsNewSeed seed SeedPrefix else false.

(** ** New seeds *)

Context (randRead : nat -> nat -> result bytes).

(** The list has 2^11 words, so eleven bits per word and 132 bits of entropy. *)
Definition seedBits : Z := 132.
Definition maxEntropy : Z := 2 ^ seedBits.
Definition minEntropy : Z := 2 ^ (seedBits - 11).

(** Draw until the entropy has the right size; [k] counts the draws. *)
Fixpoint entropyLoop (fuel k : nat) : result Z :=
  match fuel with
  | O => Panic "out of fuel"
  | S fuel =>
      buf ← wrap_err "generate entropy" (randRead k (Z.to_nat ((seedBits + 7) / 8)));
      let entropy := Z.land (be_Z buf) (maxEntropy - 1) in
      if (0 <? entropy) && (entropy <? minEntropy) then entropyLoop fuel (S k)
      else if (0 <? entropy) && (entropy <? maxEntropy) then Ok entropy
      else entropyLoop fuel (S k)
  end.

(** Try the numbers after the entropy until the checksum has the prefix. *)
Fixpoint nonceLoop (fuel : nat) (entropy nonce : Z) (prefix : bytes) : result runes :=
  match fuel with
  | O => Panic "out of fuel"
  | S fuel =>
      let nonce := nonce + 1 in
      let i := entropy + nonce in
      seed ← MnemonicEncode i;
      decoded ← MnemonicDecode seed;
      if negb (decoded =? i) then Err (EMsg "cannot extract same entropy from mnemonic") else
      if IsNewSeed seed prefix then Ok seed else nonceLoop fuel entropy nonce prefix
  end.

Definition MakeSeedWithPrefix (fuel : nat) (k : nat) (prefix : bytes) : result runes :=
  entropy ← entropyLoop fuel k;
  nonceLoop fuel entropy 0 prefix.

Definition MakeSeed (fuel k : nat) : result runes := MakeSeedWithPrefix fuel k SeedPrefix.
End mnemonic.

(** ** Properties *)

(** A lower-case letter. *)
Definition letter (r : Z) : Prop := 97 <= r <= 122.

Definition plainWord (w : runes) : Prop := w <> [] /\ Forall letter w.

Lemma letter_not_space r : letter r -> IsSpace r = false.
Proof. unfold letter, IsSpace. intros. lia. Qed.

Lemma fieldsAux_word w s cur :
  Forall letter w -> fieldsAux (w ++ s) cur = fieldsAux s (cur ++ w).
Proof.
  intros H. revert cur. induction H as [|r w Hr _ IH]; intros cur; simpl; [by rewrite app_nil_r|].
  rewrite letter_not_space by done. by rewrite IH, <- app_assoc.
Qed.

Lemma Fields_Join words : Forall plainWord words -> Fields (JoinBlank words) = words.
Proof.
  intros H. unfold Fields. induction H as [|w words [Hne Hw] Hws IH]; [done|].
  destruct words as [|w' words].
  - simpl. rewrite <- (app_nil_r w) at 1. rewrite fieldsAux_word by done. simpl. by rewrite decide_False.
  - change (JoinBlank (w :: w' :: words)) with (w ++ 32 :: JoinBlank (w' :: words)).
    rewrite fieldsAux_word by done. cbn [fieldsAux].
    change (IsSpace 32) with true. cbv iota. rewrite decide_False by done. by rewrite IH.
Qed.

Definition plainRune (r : Z) : Prop := letter r \/ r = 32.

Lemma JoinBlank_plain words : Forall plainWord words -> Forall plainRune (JoinBlank words).
Proof.
  intros H. induction H as [|w words [_ Hw] Hws IH]; [constructor|].
  assert (Forall plainRune w) by (eapply Forall_impl; [exact Hw|by left]).
  destruct words as [|w' words]; [done|].
  change (JoinBlank (w :: w' :: words)) with (w ++ 32 :: JoinBlank (w' :: words)).
  apply Forall_app_2; [done|]. apply List.Forall_cons; [by right|done].
Qed.

Lemma plain_not_cjk r : plainRune r -> isCJK r = false.
Proof.
  intros H. assert (r < 4352) by (destruct H as [H| ->]; [unfold letter in H|]; lia).
  apply not_true_iff_false. unfold isCJK. rewrite existsb_exists. intros ([a b] & Hin & Hr).
  assert (Forall (fun iv => 4352 <= iv.1) cjkIntervals) as Hall by (repeat constructor; simpl; lia).
  rewrite List.Forall_forall in Hall. specialize (Hall _ Hin). simpl in *. lia.
Qed.

Lemma dropBlanks_plain rs i rest :
  Forall plainRune rs -> dropBlanks rs i rest = rest.
Proof.
  intros H. revert i. induction rest as [|r rest IH]; intros i; simpl; [done|].
  assert (keepRune rs i r = true) as ->; [|by rewrite IH].
  unfold keepRune. destruct (_ && _ && _); [|done].
  destruct (rs !! (i - 1)%nat) as [a|] eqn:E; [|done]. destruct (rs !! (i + 1)%nat); [|done].
  by rewrite (plain_not_cjk a) by (by eapply Forall_lookup_1).
Qed.

Lemma filter_all {A} (P : A -> Prop) `{!forall x, Decision (P x)} l : Forall P l -> filter P l = l.
Proof. induction 1; [done|]. rewrite filter_cons_True by done. by f_equal. Qed.

(** *** The word list *)

Fixpoint indexed (m : gmap runes Z) (i : Z) (words : list runes) : bool :=
  match words with
  | [] => true
  | w :: words' => bool_decide (m !! w = Some i) && indexed m (i + 1) words'
  end.

Lemma wordlist_indexed : (let m := wordIndexMap in indexed m 0 wordlist) = true.
Proof. vm_compute. reflexivity. Qed.

Lemma wordlist_letters :
  forallb (fun w => negb (bool_decide (w = [])) && forallb (fun r => (97 <=? r) && (r <=? 122)) w) wordlist = true.
Proof. vm_compute. reflexivity. Qed.

Lemma wordN_eq : wordN = 2048.
Proof. vm_compute. reflexivity. Qed.

Lemma wordN_length : wordN = Z.of_nat (length wordlist).
Proof. reflexivity. Qed.

Lemma indexed_lookup m i words n w :
  indexed m i words = true -> words !! n = Some w -> m !! w = Some (i + Z.of_nat n).
Proof.
  revert i n. induction words as [|w' words IH]; intros i n; [done|]. simpl.
  intros [Hb%bool_decide_eq_true H]%andb_true_iff. destruct n as [|n]; simpl; intros Hn.
  - simplify_eq. by rewrite Z.add_0_r.
  - rewrite (IH (i + 1) n H Hn). f_equal. lia.
Qed.

(** Every word of the list is found at its place. *)
Lemma wordIndexMap_word n w : wordlist !! n = Some w -> wordIndexMap !! w = Some (Z.of_nat n).
Proof. intros Hn. by rewrite (indexed_lookup _ 0 wordlist n w wordlist_indexed Hn). Qed.

Lemma wordlist_plain n w : wordlist !! n = Some w -> plainWord w.
Proof.
  intros Hn%list_elem_of_lookup_2%list_elem_of_In. pose proof wordlist_letters as H.
  rewrite forallb_forall in H. specialize (H w Hn). apply andb_true_iff in H as [H1 H2].
  split; [by intros ->|]. rewrite Forall_forall. intros r Hr%list_elem_of_In.
  rewrite forallb_forall in H2. specialize (H2 r Hr). unfold letter. lia.
Qed.

#[local] Opaque wordlist wordIndexMap wordN.

(** *** Encoding *)

Lemma encodeLoop_spec fuel t :
  0 <= t < 2 ^ Z.of_nat fuel ->
  exists ws, encodeLoop fuel t = Ok ws /\ Forall plainWord ws /\ decodeWords ws = Ok t
    /\ (0 < t -> ws <> []) /\ Forall (fun w => is_Some (wordIndexMap !! w)) ws.
Proof.
  revert t. induction fuel as [|fuel IH]; intros t Ht.
  { assert (t = 0) as -> by (simpl in Ht; lia). by exists []. }
  cbn [encodeLoop]. destruct (Z.leb_spec t 0); [assert (t = 0) as -> by lia; by exists []|].
  rewrite Nat2Z.inj_succ, Z.pow_succ_r in Ht by lia. pose proof wordN_eq as HN.
  pose proof (Z.mod_pos_bound t wordN ltac:(lia)) as Hm.
  destruct (lookup_lt_is_Some_2 wordlist (Z.to_nat (t mod wordN))) as [w Hw].
  { pose proof wordN_length. lia. }
  destruct (IH (t / wordN)) as (ws & Hws & Hp & Hd & _ & Hi).
  { split; [apply Z.div_pos; lia|]. apply Z.div_lt_upper_bound; [lia|]. rewrite HN. lia. }
  exists (w :: ws). pose proof (wordIndexMap_word _ _ Hw) as Hidx.
  split_and!; [|apply List.Forall_cons; [by eapply wordlist_plain|exact Hp]| |discriminate|
    apply List.Forall_cons; [rewrite Hidx; eexists; reflexivity|exact Hi]].
  - assert (index wordlist (Z.to_nat (t mod wordN)) = Ok w) as -> by (by apply index_Ok).
    simpl. by rewrite Hws.
  - simpl. rewrite Hd. simpl. rewrite Hidx. f_equal. rewrite Z2Nat.id by lia.
    rewrite Z.mul_comm. symmetry. apply Z.div_mod. lia.
Qed.

Section properties.
Context {U : Unicode} {Laws : UnicodeLaws U}.

Lemma plain_ascii r : plainRune r -> 0 <= r < 128 /\ ~ 65 <= r <= 90.
Proof. unfold plainRune, letter. lia. Qed.

(** A phrase of lower-case words is normal. *)
Lemma NormalizeText_plain words :
  Forall plainWord words -> NormalizeText (JoinBlank words) = JoinBlank words.
Proof.
  intros Hw. pose proof (JoinBlank_plain words Hw) as Hp. unfold NormalizeText.
  rewrite NFKD_ascii by (eapply Forall_impl; [exact Hp|]; intros r; apply plain_ascii).
  assert (filter (fun r => unicode_Mn r = false) (JoinBlank words) = JoinBlank words) as ->.
  { apply filter_all. eapply Forall_impl; [exact Hp|]. intros r Hr. apply Mn_ascii, plain_ascii, Hr. }
  assert (unicode_ToLower <$> JoinBlank words = JoinBlank words) as ->.
  { rewrite <- (list_fmap_id (JoinBlank words)) at 2. apply list_fmap_ext. intros i r Hr.
    apply ToLower_ascii; apply plain_ascii; by eapply Forall_lookup_1. }
  rewrite Fields_Join by done. by apply dropBlanks_plain.
Qed.

Lemma MnemonicEncode_spec i :
  0 <= i ->
  exists ws, MnemonicEncode i = Ok (JoinBlank ws) /\ Forall plainWord ws /\ decodeWords ws = Ok i
    /\ (0 < i -> ws <> []) /\ Forall (fun w => is_Some (wordIndexMap !! w)) ws.
Proof.
  intros Hi. destruct (encodeLoop_spec (Z.to_nat (Z.log2 i) + 1) i) as (ws & E & H).
  { split; [done|]. pose proof (Z.log2_nonneg i).
    rewrite Nat2Z.inj_add, Z2Nat.id by done. change (Z.of_nat 1) with 1.
    destruct (decide (i = 0)) as [->|]; [done|]. apply Z.log2_spec. lia. }
  exists ws. unfold MnemonicEncode. by rewrite E.
Qed.

(** C40. Mnemonics carry their number: every non-negative number encodes to a phrase
    that decodes to the same number, and for a positive number the phrase passes the
    validity check exactly when its checksum does. *)
Theorem mnemonic_roundtrip i
    (Hi : 0 <= i) :
  exists seed, MnemonicEncode i = Ok seed /\ MnemonicDecode seed = Ok i
    /\ (0 < i -> Mnemonic_IsValid seed = IsNewSeed seed SeedPrefix).
Proof.
  destruct (MnemonicEncode_spec i Hi) as (ws & E & Hp & Hd & Hne & Hin). exists (JoinBlank ws).
  split_and!; [done| |].
  - unfold MnemonicDecode. by rewrite NormalizeText_plain, Fields_Join.
  - intros H0. unfold Mnemonic_IsValid. rewrite NormalizeText_plain, Fields_Join by done.
    rewrite decide_False by auto.
    assert (forallb (fun w => bool_decide (is_Some (wordIndexMap !! w))) ws = true) as ->; [|reflexivity].
    apply forallb_forall. intros w Hw%list_elem_of_In. rewrite Forall_forall in Hin.
    apply bool_decide_eq_true. by apply Hin.
Qed.

(** The search for a seed never reports a broken round trip: it ends with a seed that
    has the prefix, or goes on. *)
Lemma nonceLoop_spec fuel entropy nonce prefix :
  0 <= entropy -> 0 <= nonce ->
  match nonceLoop fuel entropy nonce prefix with
  | Ok seed => IsNewSeed seed prefix = true
  | Err _ => False
  | Panic w => w = "out of fuel"
  end.
Proof.
  intros He. revert nonce. induction fuel as [|fuel IH]; intros nonce Hn; [done|]. cbn [nonceLoop].
  destruct (MnemonicEncode_spec (entropy + (nonce + 1)) ltac:(lia)) as (ws & -> & Hp & Hd & _).
  cbn [mbind result_bind]. unfold MnemonicDecode. rewrite NormalizeText_plain, Fields_Join, Hd by done.
  cbn [mbind result_bind]. rewrite Z.eqb_refl. simpl negb. cbv iota.
  destruct (IsNewSeed _ _) eqn:E; [done|]. apply IH. lia.
Qed.
End properties.

(** ** An instance: ASCII text *)

#[local] Instance asciiUnicode : Unicode := {|
  NFKD_String s := s;
  unicode_Mn _ := false;
  unicode_ToLower r := if (65 <=? r) && (r <=? 90) then r + 32 else r;
  pbkdf2_Key p s _ _ := sha512_Sum512 (p ++ s)
|}.

#[local] Instance asciiUnicode_laws : UnicodeLaws asciiUnicode.
Proof.
  split; simpl; [done|done|]. intros r Hr Hu. destruct (_ && _) eqn:E; [lia|done].
Qed.

Lemma mnemonic_roundtrip_witness :
  exists seed, MnemonicEncode 5000000 = Ok seed /\ MnemonicDecode (U := asciiUnicode) seed = Ok 5000000.
Proof.
  destruct (mnemonic_roundtrip (U := asciiUnicode) 5000000 ltac:(lia)) as (seed & H1 & H2 & _).
  exact (ex_intro _ seed (conj H1 H2)).
Defined.
