(* ===== verification/Wallet.v ===== *)
(** * wallet/wallet.go and wallet/account.go: the wallet and its addresses

    The wallet caches the keys of m/0/0 and derives m/chain/index on demand; the
    address manager keeps a gap of unused addresses ahead of the last used one.  The
    locks are not modelled: every operation runs under one.  Wiping memory is modelled
    as dropping the references.  The manager holds its wallet by value: no operation of
    the manager changes it. *)
From stdpp Require Import base tactics list numbers strings.
From Stdlib Require Import ZArith Lia Init.Byte.
From S2P Require Import Prelude GoStd Sha2 ClaimId HdKey Mnemonic.
Local Open Scope Z_scope.

Section wallet.
Context {B : Btcec} {U : Unicode}.

(** ** wallet/wallet.go *)

Record Wallet := mkWallet {
  w_mnemonic : runes;
  w_seed : option bytes;
  w_masterKey : option ExtendedKey;
  w_privKey : option PrivateKey;
  w_pubKey : option PublicKey;
  w_address : option Address
}.

Definition nilDereference : string := "nil pointer dereference".

(** A method call on a pointer. *)
Definition deref {A} (p : option A) : result A :=
  match p with Some a => Ok a | None => Panic nilDereference end.

Definition deriveAccount0 (w : Wallet) : result Wallet :=
  masterKey ← deref (w_masterKey w);
  receiving ← wrap_err "derive receiving chain" (Derive masterKey 0);
  child ← wrap_err "derive child" (Derive receiving 0);
  privKey ← wrap_err "get private key" (ECPrivKey child);
  priv ← deref privKey;
  Ok (mkWallet (w_mnemonic w) (w_seed w) (w_masterKey w) (Some priv) (Some (PubKey priv))
        (Some (AddressFromPubKey (PubKey priv)))).

Definition newFromSeed (seed : bytes) (mnemonicStr : runes) : result Wallet :=
  masterKey ← wrap_err "derive master key" (NewMaster seed);
  deriveAccount0 (mkWallet mnemonicStr (Some seed) (Some masterKey) None None None).

Definition NewFromSeed (seed : bytes) : result Wallet := newFromSeed seed [].

Definition NewFromMnemonic (mnemonicStr : runes) : result Wallet :=
  if negb (Mnemonic_IsValid mnemonicStr)
  then Err (EMsg "invalid mnemonic: failed Electrum seed checksum or unknown words")
  else newFromSeed (MnemonicToSeed mnemonicStr Passphrase) mnemonicStr.

Definition deriveKeyLocked (w : Wallet) (chain index : Z) : result ExtendedKey :=
  masterKey ← notNil (w_masterKey w) (EMsg "wallet has been zeroed");
  chainKey ← wrap_err "derive chain" (Derive masterKey chain);
  Derive chainKey index.

Definition DeriveKey (w : Wallet) (chain index : Z) : result ExtendedKey := deriveKeyLocked w chain index.

(** The error of the closure is the result of [withRLock], which [AddressAt] drops: a
    failed derivation gives no address and no error. *)
Definition AddressAt (w : Wallet) (chain index : Z) : result (option Address) :=
  match deriveKeyLocked w chain index with
  | Err _ => Ok None
  | Panic x => Panic x
  | Ok child =>
      match ECPrivKey child with
      | Err _ => Ok None
      | Panic x => Panic x
      | Ok priv => p ← deref priv; Ok (Some (AddressFromPrivKey p))
      end
  end.

Definition AddressStringAt (w : Wallet) (chain index : Z) : result bytes :=
  addr ← AddressAt w chain index;
  a ← deref addr;
  Ok (EncodeAddress a).

Definition PubKeyScriptAt (w : Wallet) (chain index : Z) : result bytes :=
  addr ← AddressAt w chain index;
  a ← deref addr;
  Ok (PubKeyScript a).

Definition PrivateKeyAt (w : Wallet) (chain index : Z) : result (option PrivateKey) :=
  match deriveKeyLocked w chain index with
  | Err _ => Ok None
  | Panic x => Panic x
  | Ok child => ECPrivKey child
  end.

Definition Wallet_Address (w : Wallet) : option Address := w_address w.
Definition AddressString (w : Wallet) : bytes :=
  match w_address w with None => [] | Some a => EncodeAddress a end.
Definition Wallet_PrivateKey (w : Wallet) : option PrivateKey := w_privKey w.
Definition PrivateKeyHex (w : Wallet) : bytes :=
  match w_privKey w with None => [] | Some k => EncodeToString (Serialize_ k) end.
Definition Wallet_PublicKey (w : Wallet) : option PublicKey := w_pubKey w.
Definition PublicKeyHex (w : Wallet) : bytes :=
  match w_pubKey w with None => [] | Some k => EncodeToString (SerializeCompressed k) end.
Definition Mnemonic_ (w : Wallet) : runes := w_mnemonic w.
Definition Seed (w : Wallet) : option bytes := w_seed w.
Definition MasterKey (w : Wallet) : option ExtendedKey := w_masterKey w.

Definition Wallet_Zero (w : Wallet) : Wallet := mkWallet [] None None None None None.

(** ** wallet/account.go *)

Definition DefaultGapLimit : Z := 20.

(** A [uint32] with three named values. *)
Definition ChainType : Type := Z.
Definition ChainReceiving : ChainType := 0.
Definition ChainChange : ChainType := 1.
Definition ChainChannel : ChainType := 2.

Record AddressInfo := mkAddressInfo {
  ai_Address : bytes;
  ai_Chain : ChainType;
  ai_Index : Z;
  ai_Used : bool
}.

Record AddressManager := mkAddressManager {
  am_wallet : Wallet;
  am_chain : ChainType;
  am_gapLimit : Z;
  am_addresses : list AddressInfo;
  am_lastUsedIndex : Z
}.

Definition NewAddressManager (w : Wallet) (chain : ChainType) (gapLimit : Z) : AddressManager :=
  mkAddressManager w chain (if gapLimit <=? 0 then DefaultGapLimit else gapLimit) [] (-1).

Definition setAddresses (am : AddressManager) (l : list AddressInfo) : AddressManager :=
  mkAddressManager (am_wallet am) (am_chain am) (am_gapLimit am) l (am_lastUsedIndex am).

(** Append [n] derived addresses; what was appended before an error stays. *)
Fixpoint deriveMore (fmt : string) (n : nat) (am : AddressManager) : result (list AddressInfo) * AddressManager :=
  match n with
  | O => (Ok [], am)
  | S n =>
      let i := Z.of_nat (length (am_addresses am)) in
      match AddressStringAt (am_wallet am) (am_chain am) (uint32 i) with
      | Err e => (Err (EWrap fmt e), am)
      | Panic x => (Panic x, am)
      | Ok addr =>
          let info := mkAddressInfo addr (am_chain am) (uint32 i) false in
          let '(r, am') := deriveMore fmt n (setAddresses am (am_addresses am ++ [info])) in
          (r ≫= fun infos => Ok (info :: infos), am')
      end
  end.

(** How many addresses [EnsureGap] wants. *)
Definition neededGap (am : AddressManager) : Z :=
  if 0 <=? am_lastUsedIndex am then am_lastUsedIndex am +i 1 +i am_gapLimit am else am_gapLimit am.

Definition EnsureGap (am : AddressManager) : result (list AddressInfo) * AddressManager :=
  deriveMore "derive address at chain=%d index=%d"
    (Z.to_nat (neededGap am - Z.of_nat (length (am_addresses am)))) am.

Definition markAt (am : AddressManager) (i : Z) (info : AddressInfo) : AddressManager :=
  mkAddressManager (am_wallet am) (am_chain am) (am_gapLimit am)
    (<[Z.to_nat i := mkAddressInfo (ai_Address info) (ai_Chain info) (ai_Index info) true]> (am_addresses am))
    (if am_lastUsedIndex am <? i then i else am_lastUsedIndex am).

Definition MarkUsed (i : Z) (am : AddressManager) : result (list AddressInfo) * AddressManager :=
  if i <? 0 then (Err (EMsg "index must be non-negative"), am) else
  let needed := i +i 1 in
  match deriveMore "derive address at index %d" (Z.to_nat (needed - Z.of_nat (length (am_addresses am)))) am with
  | (Err e, am) => (Err e, am)
  | (Panic x, am) => (Panic x, am)
  | (Ok _, am) =>
      match index (am_addresses am) (Z.to_nat i) with
      | Ok info => EnsureGap (markAt am i info)
      | Err e => (Err e, am)
      | Panic x => (Panic x, am)
      end
  end.

Definition CurrentAddresses (am : AddressManager) : list AddressInfo := am_addresses am.

Definition UnusedAddresses (am : AddressManager) : list AddressInfo :=
  filter (fun a => ai_Used a = false) (am_addresses am).

Definition LastUsedIndex (am : AddressManager) : Z := am_lastUsedIndex am.

Definition firstUnused (l : list AddressInfo) : option AddressInfo :=
  head (filter (fun a => ai_Used a = false) l).

Definition NextUnusedAddress (am : AddressManager) : result AddressInfo :=
  notNil (firstUnused (am_addresses am)) (EMsg "no unused addresses available (gap exhausted)").
End wallet.

(** ** Properties *)

Section properties.
Context {B : Btcec} {U : Unicode}.

(** *** Errors that are lost *)

Lemma AddressAt_lost w chain i e :
  DeriveKey w chain i = Err e -> AddressAt w chain i = Ok None.
Proof. unfold DeriveKey, AddressAt. by intros ->. Qed.

(** A failed derivation is not reported: when deriving the key of an address fails,
    as it always does on a zeroed wallet, [AddressAt] returns neither an address nor
    an error, [PrivateKeyAt] neither a key nor an error, and the methods that encode
    the address dereference nil and panic. *)
Theorem address_error_lost w chain i e
    (He : DeriveKey w chain i = Err e) :
  AddressAt w chain i = Ok None /\ PrivateKeyAt w chain i = Ok None
  /\ AddressStringAt w chain i = Panic nilDereference
  /\ PubKeyScriptAt w chain i = Panic nilDereference
  /\ (forall w', DeriveKey (Wallet_Zero w') chain i = Err (EMsg "wallet has been zeroed")).
Proof.
  pose proof (AddressAt_lost w chain i e He) as H. split_and!; [done| | | |done].
  - unfold PrivateKeyAt. unfold DeriveKey in He. by rewrite He.
  - unfold AddressStringAt. by rewrite H.
  - unfold PubKeyScriptAt. by rewrite H.
Qed.

(** *** The gap *)

(** An entry of the address list at position [n]. *)
Definition goodAddress (am : AddressManager) (n : nat) (info : AddressInfo) : Prop :=
  AddressStringAt (am_wallet am) (am_chain am) (uint32 (Z.of_nat n)) = Ok (ai_Address info)
  /\ ai_Chain info = am_chain am /\ ai_Index info = uint32 (Z.of_nat n).

Definition usedAt (am : AddressManager) (n : nat) : Prop :=
  exists info, am_addresses am !! n = Some info /\ ai_Used info = true.

Record amWf (am : AddressManager) : Prop := {
  am_gap : 1 <= am_gapLimit am < 2 ^ 31;
  am_last : -1 <= am_lastUsedIndex am < Z.of_nat (length (am_addresses am));
  am_length : Z.of_nat (length (am_addresses am)) < 2 ^ 32;
  am_good n info : am_addresses am !! n = Some info -> goodAddress am n info;
  am_used n : usedAt am n -> Z.of_nat n <= am_lastUsedIndex am;
  am_lastUsed n : Z.of_nat n = am_lastUsedIndex am -> usedAt am n
}.

(** The addresses below a bound can be derived. *)
Definition derivable (am : AddressManager) (bound : Z) : Prop :=
  forall i, 0 <= i < bound ->
  exists a, AddressStringAt (am_wallet am) (am_chain am) i = Ok a.

Lemma deriveMore_spec fmt n am :
  Z.of_nat (length (am_addresses am)) + Z.of_nat n < 2 ^ 32 ->
  derivable am (Z.of_nat (length (am_addresses am)) + Z.of_nat n) ->
  exists infos, deriveMore fmt n am = (Ok infos, setAddresses am (am_addresses am ++ infos))
    /\ length infos = n
    /\ forall k info, infos !! k = Some info ->
         goodAddress am (length (am_addresses am) + k) info /\ ai_Used info = false.
Proof.
  revert am. induction n as [|n IH]; intros am Hl Hd; simpl.
  { exists []. rewrite app_nil_r. by destruct am. }
  rewrite (uint32_id (Z.of_nat (length (am_addresses am)))) by lia.
  destruct (Hd (Z.of_nat (length (am_addresses am)))) as [a Ha]; [lia|]. rewrite Ha.
  set (info := mkAddressInfo a (am_chain am) (Z.of_nat (length (am_addresses am))) false).
  destruct (IH (setAddresses am (am_addresses am ++ [info]))) as (infos & -> & Hn & Hi).
  { simpl. rewrite length_app. simpl. lia. }
  { simpl. rewrite length_app. simpl. intros i Hi. apply Hd. lia. }
  exists (info :: infos). simpl. split_and!; [by rewrite <- app_assoc|lia|].
  intros [|k] x; simpl; intros Hx; simplify_eq.
  - rewrite Nat.add_0_r. unfold goodAddress. rewrite uint32_id by lia. done.
  - specialize (Hi k x Hx). simpl in Hi. rewrite length_app in Hi. simpl in Hi.
    by rewrite <- Nat.add_assoc in Hi.
Qed.

Lemma usedAt_app am infos n :
  (forall k info, infos !! k = Some info -> ai_Used info = false) ->
  usedAt (setAddresses am (am_addresses am ++ infos)) n <-> usedAt am n.
Proof.
  intros Hi. unfold usedAt. simpl. split.
  - intros (x & Hx & Hu). apply lookup_app_Some in Hx as [Hx|[_ Hx]]; [eauto|].
    rewrite (Hi _ _ Hx) in Hu. done.
  - intros (x & Hx & Hu). exists x. split; [by apply lookup_app_l_Some|done].
Qed.

(** Appending fresh entries keeps the manager well formed. *)
Lemma amWf_app am infos :
  amWf am -> Z.of_nat (length (am_addresses am ++ infos)) < 2 ^ 32 ->
  (forall k info, infos !! k = Some info ->
     goodAddress am (length (am_addresses am) + k) info /\ ai_Used info = false) ->
  amWf (setAddresses am (am_addresses am ++ infos)).
Proof.
  intros [Hg Hla Hle Hgo Hu Hlu] Hl Hi.
  assert (forall n, usedAt (setAddresses am (am_addresses am ++ infos)) n <-> usedAt am n) as Hused
    by (intros n; apply usedAt_app; intros k info Hk; by apply (Hi k)).
  split; simpl; try done.
  - rewrite length_app. lia.
  - intros n info Hn. apply lookup_app_Some in Hn as [Hn|[Hge Hn]]; [by apply Hgo|].
    destruct (Hi _ _ Hn) as [H _]. unfold goodAddress in *.
    by replace (length (am_addresses am) + (n - length (am_addresses am)))%nat with n in H by lia.
  - intros n Hn. apply Hu. by apply Hused.
  - intros n Hn. apply Hused. by apply Hlu.
Qed.

(** [EnsureGap] fills the gap. *)
Lemma EnsureGap_spec am :
  amWf am -> am_lastUsedIndex am + 1 + am_gapLimit am < 2 ^ 32 ->
  derivable am (Z.max (Z.of_nat (length (am_addresses am))) (am_lastUsedIndex am + 1 + am_gapLimit am)) ->
  exists infos, EnsureGap am = (Ok infos, setAddresses am (am_addresses am ++ infos))
    /\ amWf (setAddresses am (am_addresses am ++ infos))
    /\ (forall k info, infos !! k = Some info -> ai_Used info = false)
    /\ am_lastUsedIndex am + am_gapLimit am < Z.of_nat (length (am_addresses am ++ infos)).
Proof.
  intros Hw Hb Hd. pose proof Hw as [Hg Hla Hle _ _ _]. unfold EnsureGap.
  assert (neededGap am = am_lastUsedIndex am + 1 + am_gapLimit am) as ->.
  { unfold neededGap. destruct (Z.leb_spec 0 (am_lastUsedIndex am)); [|lia].
    rewrite (int64_id (am_lastUsedIndex am + 1)) by (unfold in_int64; lia).
    apply int64_id. unfold in_int64. lia. }
  set (n := Z.to_nat _).
  destruct (deriveMore_spec "derive address at chain=%d index=%d" n am) as (infos & E & Hn & Hi).
  { lia. }
  { intros i Hi. apply Hd. lia. }
  exists infos. split_and!; [done| | |].
  - apply amWf_app; [done| |done]. rewrite length_app. lia.
  - intros k info Hk. by apply (Hi k).
  - rewrite length_app. lia.
Qed.

Lemma markAt_used am i info n :
  am_addresses am !! Z.to_nat i = Some info -> usedAt (markAt am i info) n <-> n = Z.to_nat i \/ usedAt am n.
Proof.
  intros Hi. unfold usedAt. simpl. destruct (decide (n = Z.to_nat i)) as [->|Hne].
  - rewrite list_lookup_insert_eq by (by eapply lookup_lt_Some). split; [by left|]. intros _. by eexists.
  - rewrite list_lookup_insert_ne by done. split; [by right|]. by intros [?|?].
Qed.

Lemma markAt_wf am i info :
  amWf am -> 0 <= i -> am_addresses am !! Z.to_nat i = Some info -> amWf (markAt am i info).
Proof.
  intros Hw H0 Hi. pose proof Hw as [Hg Hla Hle Hgo Hu Hlu]. pose proof (lookup_lt_Some _ _ _ Hi).
  assert (am_lastUsedIndex (markAt am i info) = Z.max i (am_lastUsedIndex am)) as El.
  { simpl. destruct (Z.ltb_spec (am_lastUsedIndex am) i); lia. }
  split; rewrite ?El; simpl; rewrite ?length_insert; try done; try lia.
  - intros n x. destruct (decide (n = Z.to_nat i)) as [->|Hne].
    + rewrite list_lookup_insert_eq by done. intros [= <-]. by apply (Hgo _ _ Hi).
    + rewrite list_lookup_insert_ne by done. apply Hgo.
  - intros n [->|Hn]%(markAt_used am i info n Hi); [lia|]. specialize (Hu n Hn). lia.
  - intros n Hn. apply (markAt_used am i info n Hi).
    destruct (decide (Z.of_nat n = am_lastUsedIndex am)) as [E|E]; [right; by apply Hlu|left; lia].
Qed.

Lemma unused_next am n info :
  am_addresses am !! n = Some info -> ai_Used info = false ->
  exists a, NextUnusedAddress am = Ok a /\ ai_Used a = false.
Proof.
  intros Hn Hu. unfold NextUnusedAddress, firstUnused.
  assert (info ∈ filter (fun a => ai_Used a = false) (am_addresses am)) as Hin
    by (apply list_elem_of_filter; split; [done|by eapply list_elem_of_lookup_2]).
  destruct (filter _ _) as [|a l] eqn:E; [by apply not_elem_of_nil in Hin|]. exists a. split; [done|].
  assert (a ∈ a :: l) as Ha by (by left). rewrite <- E in Ha. apply list_elem_of_filter in Ha. exact (proj1 Ha).
Qed.

(** The number of addresses [MarkUsed] derives first. *)
Lemma MarkUsed_cover am i :
  amWf am -> 0 <= i < 2 ^ 31 -> derivable am (i + 1) ->
  exists infos info,
    deriveMore "derive address at index %d" (Z.to_nat (i +i 1 - Z.of_nat (length (am_addresses am)))) am
    = (Ok infos, setAddresses am (am_addresses am ++ infos))
    /\ amWf (setAddresses am (am_addresses am ++ infos))
    /\ (forall k x, infos !! k = Some x -> ai_Used x = false)
    /\ length (am_addresses am ++ infos) = Nat.max (length (am_addresses am)) (S (Z.to_nat i))
    /\ (am_addresses am ++ infos) !! Z.to_nat i = Some info.
Proof.
  intros Hw Hi Hd. pose proof Hw as [_ _ Hle _ _ _].
  rewrite (int64_id (i + 1)) by (unfold in_int64; lia). set (n := Z.to_nat _).
  destruct (deriveMore_spec "derive address at index %d" n am) as (infos & E & Hn & Hg).
  { lia. }
  { intros j Hj. destruct (decide (j < i + 1)); [apply Hd; lia|].
    destruct (lookup_lt_is_Some_2 (am_addresses am) (Z.to_nat j)) as [x Hx]; [lia|].
    destruct (am_good am Hw _ _ Hx) as [Ha _]. rewrite Z2Nat.id, uint32_id in Ha by lia. eauto. }
  assert (length (am_addresses am ++ infos) = Nat.max (length (am_addresses am)) (S (Z.to_nat i))) as Hlen
    by (rewrite length_app; lia).
  destruct (lookup_lt_is_Some_2 (am_addresses am ++ infos) (Z.to_nat i)) as [info Hinfo]; [lia|].
  exists infos, info. split_and!; try done.
  - apply amWf_app; [done|lia|done].
  - intros k x Hk. by apply (Hg k).
Qed.

(** C39. Marking an address used keeps the gap: in a well-formed manager whose addresses
    can be derived, [MarkUsed] sets exactly that address's mark, moves the last used
    index up to it if it was lower, derives addresses until the gap limit is reached
    beyond it, and keeps the manager well formed, so that an unused address is
    always available.  The addresses it returns are those derived for the gap; the
    ones derived to reach the index itself are stored but not returned. *)
Theorem mark_used_gap am i
    (Hw : amWf am) (Hi : 0 <= i < 2 ^ 31)
    (Hb : am_lastUsedIndex am < 2 ^ 31)
    (Hd : derivable am (Z.max i (am_lastUsedIndex am) + 1 + am_gapLimit am)) :
  exists infos am', MarkUsed i am = (Ok infos, am') /\ amWf am'
    /\ (forall n, usedAt am' n <-> n = Z.to_nat i \/ usedAt am n)
    /\ am_lastUsedIndex am' = Z.max i (am_lastUsedIndex am)
    /\ am_lastUsedIndex am' + am_gapLimit am' < Z.of_nat (length (am_addresses am'))
    /\ infos = drop (Nat.max (length (am_addresses am)) (S (Z.to_nat i))) (am_addresses am')
    /\ exists a, NextUnusedAddress am' = Ok a /\ ai_Used a = false.
Proof.
  pose proof Hw as [Hg _ _ _ _ _].
  destruct (MarkUsed_cover am i Hw Hi) as (infos1 & info & E1 & Hw1 & Hu1 & Hl1 & Hi1).
  { intros j Hj. apply Hd. lia. }
  set (am1 := setAddresses am (am_addresses am ++ infos1)) in *. set (am2 := markAt am1 i info).
  assert (amWf am2) as Hw2 by (by apply markAt_wf; [|lia|]).
  assert (am_lastUsedIndex am2 = Z.max i (am_lastUsedIndex am)) as El.
  { simpl. destruct (Z.ltb_spec (am_lastUsedIndex am) i); lia. }
  assert (length (am_addresses am2) = Nat.max (length (am_addresses am)) (S (Z.to_nat i))) as Hl2
    by (simpl; by rewrite length_insert).
  destruct (EnsureGap_spec am2 Hw2) as (infos & E2 & Hw3 & Hu3 & Hgap).
  { rewrite El. simpl. lia. }
  { intros j Hj. rewrite El, Hl2 in Hj. simpl in Hj.
    destruct (decide (j < Z.max i (am_lastUsedIndex am) + 1 + am_gapLimit am)); [by apply Hd; lia|].
    destruct (lookup_lt_is_Some_2 (am_addresses am) (Z.to_nat j)) as [x Hx]; [lia|].
    destruct (am_good am Hw _ _ Hx) as [Ha _]. pose proof (am_length am Hw).
    rewrite Z2Nat.id, uint32_id in Ha by lia. eauto. }
  set (am3 := setAddresses am2 (am_addresses am2 ++ infos)) in *.
  exists infos, am3. split_and!.
  - unfold MarkUsed. rewrite (proj2 (Z.ltb_ge i 0)) by lia. rewrite E1.
    assert (index (am_addresses am1) (Z.to_nat i) = Ok info) as -> by (by apply index_Ok). done.
  - done.
  - intros n. unfold am3. rewrite usedAt_app by done. unfold am2. rewrite markAt_used by done.
    unfold am1. by rewrite usedAt_app.
  - done.
  - change (am_lastUsedIndex am3) with (am_lastUsedIndex am2).
    change (am_addresses am3) with (am_addresses am2 ++ infos). exact Hgap.
  - change (am_addresses am3) with (am_addresses am2 ++ infos). rewrite <- Hl2. by rewrite drop_app_length.
  - destruct (lookup_lt_is_Some_2 (am_addresses am3) (Z.to_nat (Z.max i (am_lastUsedIndex am) + 1))) as [x Hx].
    { change (am_addresses am3) with (am_addresses am2 ++ infos). rewrite El in Hgap. change (am_gapLimit am2) with (am_gapLimit am) in Hgap. lia. }
    apply (unused_next am3 _ x Hx). destruct (ai_Used x) eqn:Eu; [|done].
    pose proof (am_used am3 Hw3 _ (ex_intro _ x (conj Hx Eu))) as Hc.
    change (am_lastUsedIndex am3) with (am_lastUsedIndex am2) in Hc. rewrite El in Hc. lia.
Qed.
End properties.

(** ** Concrete instances *)

Definition emptyWallet : Wallet (B := exampleBtcec) := mkWallet [] None None None None None.

Lemma address_error_lost_witness : AddressStringAt (B := exampleBtcec) emptyWallet 0 0 = Panic nilDereference.
Proof.
  exact (proj1 (proj2 (proj2 (address_error_lost (B := exampleBtcec) emptyWallet 0 0
           (EMsg "wallet has been zeroed") eq_refl)))).
Defined.

(** The first three receiving addresses of the example seed exist. *)
Definition derivesThree (r : result (Wallet (B := exampleBtcec))) : bool :=
  match r with
  | Ok w => forallb (fun j => is_ok (AddressStringAt w 0 j)) [0; 1; 2]
  | _ => false
  end.

Lemma exampleWallet_derives : derivesThree (NewFromSeed exampleSeed) = true.
Proof. vm_compute. reflexivity. Qed.

Lemma mark_used_gap_witness :
  exists w infos am', NewFromSeed (B := exampleBtcec) exampleSeed = Ok w
    /\ MarkUsed 1 (NewAddressManager w ChainReceiving 1) = (Ok infos, am')
    /\ exists a, NextUnusedAddress am' = Ok a /\ ai_Used a = false.
Proof.
  pose proof exampleWallet_derives as H.
  destruct (NewFromSeed (B := exampleBtcec) exampleSeed) as [w|e|x]; [|discriminate H..].
  unfold derivesThree in H. rewrite forallb_forall in H.
  destruct (mark_used_gap (NewAddressManager w ChainReceiving 1) 1) as (infos & am' & E & _ & _ & _ & _ & _ & Hn).
  - split; simpl; try lia; try done; intros; try lia; by destruct H0 as (? & ? & _).
  - lia.
  - simpl. lia.
  - intros j Hj. simpl in Hj. specialize (H j). simpl am_wallet. change (am_chain _) with 0.
    destruct (AddressStringAt w 0 j) as [a|e|x]; [by exists a|..]; discriminate H; simpl; lia.
  - exists w, infos, am'. split; [reflexivity|]. split; [exact E|exact Hn].
Defined.
