(* ===== verification/GoNet.v ===== *)
(** * What the peer transfer uses of the package [net]

    [SplitHostPort] and [JoinHostPort] with the proof that they are inverse, the numeric
    part of [LookupPort], and [IP.To4]. *)
From stdpp Require Import base tactics list numbers strings.
From Stdlib Require Import ZArith Lia Init.Byte.
From S2P Require Import Prelude GoStd.
Local Open Scope Z_scope.

(** ** Searching for a byte *)

(** [strings.IndexByte] and [strings.LastIndexByte]; [None] for -1. *)
Fixpoint indexByte (c : byte) (s : bytes) : option nat :=
  match s with
  | [] => None
  | b :: s => if decide (b = c) then Some O else S <$> indexByte c s
  end.
Fixpoint lastIndexByte (c : byte) (s : bytes) : option nat :=
  match s with
  | [] => None
  | b :: s =>
      match lastIndexByte c s with
      | Some i => Some (S i)
      | None => if decide (b = c) then Some O else None
      end
  end.

Lemma indexByte_None c s : indexByte c s = None <-> c ∉ s.
Proof.
  induction s as [|b s IH]; simpl; [by split; [intros ? ?%elem_of_nil|]|].
  rewrite not_elem_of_cons, <- IH. case_decide; [subst; naive_solver|].
  destruct (indexByte c s); simpl; naive_solver.
Qed.

Lemma indexByte_here c s t : c ∉ s -> indexByte c (s ++ c :: t) = Some (length s).
Proof.
  induction s as [|b s IH]; simpl; intros H.
  - by rewrite decide_True.
  - rewrite not_elem_of_cons in H. rewrite decide_False by naive_solver. by rewrite IH by naive_solver.
Qed.

Lemma lastIndexByte_None c s : lastIndexByte c s = None <-> c ∉ s.
Proof.
  induction s as [|b s IH]; simpl; [by split; [intros ? ?%elem_of_nil|]|].
  rewrite not_elem_of_cons, <- IH. destruct (lastIndexByte c s); [naive_solver|].
  case_decide; naive_solver.
Qed.

Lemma lastIndexByte_here c s t : c ∉ t -> lastIndexByte c (s ++ c :: t) = Some (length s).
Proof.
  intros H. apply lastIndexByte_None in H. induction s as [|b s IH]; simpl.
  - by rewrite H, decide_True.
  - by rewrite IH.
Qed.

(** ** [net.SplitHostPort] and [net.JoinHostPort] *)

Definition SplitHostPort (hostport : bytes) : result (bytes * bytes) :=
  match lastIndexByte ":"%byte hostport with
  | None => Err (EMsg "missing port in address")
  | Some i =>
      let finish host (j k : nat) :=
        match indexByte "["%byte (drop j hostport) with
        | Some _ => Err (EMsg "unexpected '[' in address")
        | None =>
            match indexByte "]"%byte (drop k hostport) with
            | Some _ => Err (EMsg "unexpected ']' in address")
            | None => Ok (host, drop (S i) hostport)
            end
        end in
      match hostport !! 0%nat with
      | Some "["%byte =>
          match indexByte "]"%byte hostport with
          | None => Err (EMsg "missing ']' in address")
          | Some e =>
              if decide (S e = length hostport) then Err (EMsg "missing port in address")
              else if decide (S e = i) then finish (take (e - 1) (drop 1 hostport)) 1%nat (S e)
              else match hostport !! S e with
                   | Some ":"%byte => Err (EMsg "too many colons in address")
                   | _ => Err (EMsg "missing port in address")
                   end
          end
      | _ =>
          let host := take i hostport in
          match indexByte ":"%byte host with
          | Some _ => Err (EMsg "too many colons in address")
          | None => finish host 0%nat 0%nat
          end
      end
  end.

Definition JoinHostPort (host port : bytes) : bytes :=
  match indexByte ":"%byte host, indexByte "%"%byte host with
  | None, None => host ++ ":"%byte :: port
  | _, _ => "["%byte :: host ++ "]"%byte :: ":"%byte :: port
  end.

(** A host or port without the bytes that delimit addresses. *)
Definition plain (s : bytes) : Prop := "["%byte ∉ s /\ "]"%byte ∉ s.

Lemma SplitHostPort_plain host port :
  plain host -> plain port -> ":"%byte ∉ host -> ":"%byte ∉ port ->
  SplitHostPort (host ++ ":"%byte :: port) = Ok (host, port).
Proof.
  intros [H1 H2] [P1 P2] Hc Pc. unfold SplitHostPort. rewrite lastIndexByte_here by done.
  assert (Hz : (host ++ ":"%byte :: port) !! 0%nat <> Some "["%byte).
  { destruct host as [|b host]; simpl; [done|]. rewrite not_elem_of_cons in H1. naive_solver. }
  assert (Hj : indexByte "["%byte (drop 0 (host ++ ":"%byte :: port)) = None).
  { rewrite drop_0, indexByte_None, not_elem_of_app, not_elem_of_cons. naive_solver. }
  assert (Hk : indexByte "]"%byte (drop 0 (host ++ ":"%byte :: port)) = None).
  { rewrite drop_0, indexByte_None, not_elem_of_app, not_elem_of_cons. naive_solver. }
  assert (Hh : take (length host) (host ++ ":"%byte :: port) = host) by (by rewrite take_app_length).
  assert (Hd : drop (S (length host)) (host ++ ":"%byte :: port) = port).
  { rewrite drop_app_ge by lia. by replace (S (length host) - length host)%nat with 1%nat by lia. }
  rewrite Hh, Hj, Hk, Hd, (proj2 (indexByte_None _ _)) by done.
  by destruct ((host ++ ":"%byte :: port) !! 0%nat) as [[]|].
Qed.

Lemma SplitHostPort_bracketed host port :
  plain host -> plain port -> ":"%byte ∉ port ->
  SplitHostPort ("["%byte :: host ++ "]"%byte :: ":"%byte :: port) = Ok (host, port).
Proof.
  intros [H1 H2] [P1 P2] Pc. unfold SplitHostPort.
  set (s := "["%byte :: host ++ "]"%byte :: ":"%byte :: port).
  assert (Hl : lastIndexByte ":"%byte s = Some (S (S (length host)))).
  { unfold s. replace (host ++ "]"%byte :: ":"%byte :: port)
      with ((host ++ ["]"%byte]) ++ ":"%byte :: port) by (by rewrite <- app_assoc).
    change ("["%byte :: (host ++ ["]"%byte]) ++ ":"%byte :: port)
      with (("["%byte :: host ++ ["]"%byte]) ++ ":"%byte :: port).
    rewrite lastIndexByte_here by done. simpl. rewrite length_app. simpl. f_equal. lia. }
  assert (He : indexByte "]"%byte s = Some (S (length host))).
  { unfold s. change ("["%byte :: host ++ "]"%byte :: ":"%byte :: port)
      with (("["%byte :: host) ++ "]"%byte :: ":"%byte :: port).
    rewrite indexByte_here; [done|]. rewrite not_elem_of_cons. naive_solver. }
  assert (Hlen : length s = (length host + 3 + length port)%nat) by (unfold s; simpl; rewrite length_app; simpl; lia).
  rewrite Hl, He. change (s !! 0%nat) with (Some "["%byte). cbv beta iota.
  rewrite decide_False by lia. rewrite decide_True by lia.
  assert (Hj : indexByte "["%byte (drop 1 s) = None).
  { change (drop 1 s) with (host ++ "]"%byte :: ":"%byte :: port).
    rewrite indexByte_None, not_elem_of_app, !not_elem_of_cons. naive_solver. }
  assert (Hk : drop (S (S (length host))) s = ":"%byte :: port).
  { unfold s. simpl. rewrite drop_app_ge by lia.
    by replace (S (length host) - length host)%nat with 1%nat by lia. }
  assert (Hp : drop (S (S (S (length host)))) s = port).
  { unfold s. simpl. rewrite drop_app_ge by lia.
    by replace (S (S (length host)) - length host)%nat with 2%nat by lia. }
  rewrite Hj, Hk, Hp. rewrite (proj2 (indexByte_None _ _)) by (rewrite not_elem_of_cons; naive_solver).
  unfold s. simpl. by rewrite Nat.sub_0_r, drop_0, take_app_length.
Qed.

Lemma SplitHostPort_JoinHostPort host port :
  plain host -> plain port -> ":"%byte ∉ port ->
  SplitHostPort (JoinHostPort host port) = Ok (host, port).
Proof.
  intros Hh Hp Hc. unfold JoinHostPort.
  destruct (indexByte ":"%byte host) eqn:E1; [by apply SplitHostPort_bracketed|].
  destruct (indexByte "%"%byte host) eqn:E2; [by apply SplitHostPort_bracketed|].
  apply SplitHostPort_plain; try done. by apply indexByte_None.
Qed.

(** ** [net.LookupPort] *)

(** [parsePort]: the number, or [None] when the name needs the system's service list. *)
Definition portCutoff : Z := 2 ^ 30.
Fixpoint parsePortDigits (s : bytes) (n : Z) : option Z :=
  match s with
  | [] => Some n
  | d :: s =>
      if is_digit d then
        if portCutoff <=? n then Some (2 ^ 32 - 1) else
        let n10 := uint32 (n * 10) in
        let nn := uint32 (n10 + (Z_of_byte d - 48)) in
        if nn <? n10 then Some (2 ^ 32 - 1) else parsePortDigits s nn
      else None
  end.
Definition parsePort (service : bytes) : option Z :=
  match service with
  | [] => Some 0
  | c :: rest =>
      let neg := bool_decide (c = "-"%byte) in
      let s := if bool_decide (c = "+"%byte) || neg then rest else service in
      match parsePortDigits s 0 with
      | None => None
      | Some n =>
          let port := if negb neg && (portCutoff <=? n) then portCutoff - 1
                      else if neg && (portCutoff <? n) then portCutoff else n in
          Some (if neg then - port else port)
      end
  end.

(** [LookupPort("tcp", service)], with the system's service list. *)
Definition LookupPort (services : bytes -> result Z) (service : bytes) : result Z :=
  port ← match parsePort service with Some p => Ok p | None => services service end;
  if (port <? 0) || (65535 <? port) then Err (EMsg "invalid port") else Ok port.

Lemma LookupPort_range services s p : LookupPort services s = Ok p -> 0 <= p <= 65535.
Proof.
  unfold LookupPort. intros H. inv_ok.
  destruct (Z.ltb_spec x 0), (Z.ltb_spec 65535 x); simplify_eq/=; lia.
Qed.

Lemma parsePortDigits_decimal s n :
  forallb is_digit s = true -> 0 <= n ->
  foldl (fun acc c => 10 * acc + (Z_of_byte c - 48)) n s < portCutoff ->
  parsePortDigits s n = Some (foldl (fun acc c => 10 * acc + (Z_of_byte c - 48)) n s).
Proof.
  assert (Hmono : forall s n, forallb is_digit s = true -> 0 <= n ->
    n <= foldl (fun acc c => 10 * acc + (Z_of_byte c - 48)) n s).
  { intros k. induction k as [|c k IH]; intros m Hd Hm; simpl in *; [lia|].
    apply andb_true_iff in Hd as [Hc%is_digit_range Hd]. etrans; [|apply IH; [done|lia]]. lia. }
  revert n. induction s as [|c s IH]; intros n Hd Hn Hlt; simpl in *; [done|].
  apply andb_true_iff in Hd as [Hc Hd]. rewrite Hc. apply is_digit_range in Hc.
  pose proof (Hmono s (10 * n + (Z_of_byte c - 48)) Hd ltac:(lia)) as Hm. unfold portCutoff in *.
  rewrite (proj2 (Z.leb_gt _ _)) by lia.
  rewrite (uint32_id (n * 10)) by lia. rewrite uint32_id by lia.
  rewrite (proj2 (Z.ltb_ge _ _)) by lia.
  replace (n * 10 + (Z_of_byte c - 48)) with (10 * n + (Z_of_byte c - 48)) by lia. apply IH; [done|lia|lia].
Qed.

Lemma LookupPort_Itoa services p :
  0 <= p <= 65535 -> LookupPort services (Itoa p) = Ok p.
Proof.
  intros Hp. destruct (Itoa_shape p) as (c & ds & E & Hd & Hv & _); [unfold in_int64; lia|].
  rewrite (proj2 (Z.ltb_ge p 0)) in E by lia. simpl in E. rewrite E.
  unfold LookupPort, parsePort.
  assert (c <> "+"%byte /\ c <> "-"%byte) as [Hc1 Hc2].
  { simpl in Hd. apply andb_true_iff in Hd as [Hc%is_digit_range _].
    split; intros ->; vm_compute in Hc; destruct Hc; congruence. }
  rewrite !bool_decide_false by done. simpl orb. cbv iota zeta.
  rewrite parsePortDigits_decimal; [|done|done|].
  - change (foldl _ 0 (c :: ds)) with (decimal (c :: ds)). rewrite Hv, Z.abs_eq by lia.
    unfold portCutoff. rewrite (proj2 (Z.leb_gt _ _)) by lia. simpl.
    rewrite (proj2 (Z.ltb_ge p 0)), (proj2 (Z.ltb_ge 65535 p)) by lia. done.
  - change (foldl _ 0 (c :: ds)) with (decimal (c :: ds)). rewrite Hv. unfold portCutoff. lia.
Qed.

(** A printed port holds no delimiter. *)
Lemma Itoa_plain p : 0 <= p < 2 ^ 63 -> plain (Itoa p) /\ ":"%byte ∉ Itoa p.
Proof.
  intros Hp. destruct (Itoa_shape p) as (c & ds & E & Hd & _); [unfold in_int64; lia|].
  rewrite (proj2 (Z.ltb_ge p 0)) in E by lia. simpl in E. rewrite E.
  assert (H : forall b, is_digit b = false -> b ∉ c :: ds).
  { intros b Hb Hin. rewrite forallb_forall in Hd. apply list_elem_of_In, Hd in Hin. congruence. }
  split; [split|]; by apply H.
Qed.

(** ** [IP.To4] *)

(** An [IP] is its 4 or 16 bytes. *)
Definition To4 (ip : bytes) : option bytes :=
  if decide (length ip = 4%nat) then Some ip
  else if decide (length ip = 16%nat /\ take 12 ip = repeat x00 10 ++ [xff; xff])
       then Some (drop 12 ip) else None.
