(* ===== verification/Request.v ===== *)
(** * blob/transfer/peer_transfer/{blob/blob.go, coordinator/request_coordinator.go}

    A blob request in flight, and the coordinator that lets every caller asking for
    the same hash share one request.  Requests are shared pointers, so the coordinator
    keeps a heap of them; a cancel function is the number of the context it cancels. *)
From stdpp Require Import base tactics list numbers strings gmap.
From Stdlib Require Import ZArith Lia Init.Byte.
From S2P Require Import Prelude GoStd Errors Store.
Local Open Scope Z_scope.

(** ** blob/blob.go *)

Abbreviation CancelFunc := nat.

(** A [sync.Once]: not entered, its function running, or finished. *)
Inductive Once := OnceNew | OnceRunning | OnceDone.

#[export] Instance once_eq_dec : EqDecision Once.
Proof. solve_decision. Defined.

Record taskResult := mkTaskResult { data : bytes; err : option error }.

Definition NewTaskResult (d : bytes) (e : option error) : taskResult := mkTaskResult d e.
Definition GetData (tr : taskResult) : bytes := data tr.
Definition GetErr (tr : taskResult) : option error := err tr.

(** What a caller sees of a pair [(data, err)]. *)
Definition outcome (tr : taskResult) : result bytes :=
  match GetErr tr with None => Ok (GetData tr) | Some e => Err e end.

(** [done] is true once the channel is closed; [doneOnce] and [once] are the two
    [sync.Once]s. *)
Record BlobRequest := mkBlobRequest {
  cancel : option CancelFunc;
  waiters : Z;
  completed : Z;
  totalPeers : Z;
  result_ : taskResult;
  lastError : option error;
  done : bool;
  doneOnce : bool;
  once : Once
}.

Definition NewBlobRequest : BlobRequest :=
  mkBlobRequest None 0 0 0 (mkTaskResult [] None) None false false OnceNew.

Definition GetCancel (br : BlobRequest) : option CancelFunc := cancel br.
Definition SetCancel (c : option CancelFunc) (br : BlobRequest) : BlobRequest :=
  mkBlobRequest c (waiters br) (completed br) (totalPeers br) (result_ br) (lastError br)
    (done br) (doneOnce br) (once br).

Definition GetWaiters (br : BlobRequest) : Z := waiters br.
Definition setWaitersField (n : Z) (br : BlobRequest) : BlobRequest :=
  mkBlobRequest (cancel br) n (completed br) (totalPeers br) (result_ br) (lastError br)
    (done br) (doneOnce br) (once br).
Definition SetWaiters (n : Z) (br : BlobRequest) : result BlobRequest :=
  if n <? 0 then Panic "waiters count cannot be negative" else Ok (setWaitersField n br).
Definition AddWaiter (br : BlobRequest) : BlobRequest := setWaitersField (waiters br +i 1) br.
Definition DoneWaiter (br : BlobRequest) : (Z * bool) * BlobRequest :=
  if waiters br <=? 0 then ((waiters br, false), br)
  else let br := setWaitersField (waiters br -i 1) br in ((waiters br, true), br).

(** The two counters are [int32]. *)
Definition GetCompleted (br : BlobRequest) : Z := completed br.
Definition SetCompleted (n : Z) (br : BlobRequest) : BlobRequest :=
  mkBlobRequest (cancel br) (waiters br) n (totalPeers br) (result_ br) (lastError br)
    (done br) (doneOnce br) (once br).
Definition IncrementCompleted (br : BlobRequest) : Z * BlobRequest :=
  let n := int32 (completed br + 1) in (n, SetCompleted n br).
Definition DecrementCompleted (br : BlobRequest) : Z * BlobRequest :=
  let n := int32 (completed br - 1) in (n, SetCompleted n br).
Definition GetTotalPeers (br : BlobRequest) : Z := totalPeers br.
Definition SetTotalPeers (n : Z) (br : BlobRequest) : BlobRequest :=
  mkBlobRequest (cancel br) (waiters br) (completed br) n (result_ br) (lastError br)
    (done br) (doneOnce br) (once br).

Definition GetResult (br : BlobRequest) : taskResult := result_ br.
Definition SetResult (r : taskResult) (br : BlobRequest) : BlobRequest :=
  mkBlobRequest (cancel br) (waiters br) (completed br) (totalPeers br) r (lastError br)
    (done br) (doneOnce br) (once br).
Definition GetLastError (br : BlobRequest) : option error := lastError br.
Definition SetLastError (e : option error) (br : BlobRequest) : BlobRequest :=
  mkBlobRequest (cancel br) (waiters br) (completed br) (totalPeers br) (result_ br) e
    (done br) (doneOnce br) (once br).

(** [GetDone]: whether a receive from the channel proceeds. *)
Definition GetDone (br : BlobRequest) : bool := done br.
Definition MarkDone (br : BlobRequest) : BlobRequest :=
  if doneOnce br then br
  else mkBlobRequest (cancel br) (waiters br) (completed br) (totalPeers br) (result_ br)
         (lastError br) true true (once br).

Definition setOnce (o : Once) (br : BlobRequest) : BlobRequest :=
  mkBlobRequest (cancel br) (waiters br) (completed br) (totalPeers br) (result_ br)
    (lastError br) (done br) (doneOnce br) o.

(** [CompleteOnce], seen as one action: a caller that finds the function running waits
    for it and then does nothing, so only the first call runs [fn]. *)
Definition CompleteOnce (fn : BlobRequest -> BlobRequest) (br : BlobRequest) : BlobRequest :=
  match once br with
  | OnceNew => setOnce OnceDone (fn br)
  | OnceRunning | OnceDone => br
  end.

(** ** coordinator/request_coordinator.go *)

(** [backlog] maps a hash to the pointer of its request; [heap] holds the requests, also
    those that have left the backlog and still have waiters; [cancelled] lists the
    contexts whose cancel function has been called. *)
Record RequestCoordinator := mkCoordinator {
  backlog : gmap bytes nat;
  heap : gmap nat BlobRequest;
  next : nat;
  stopped : bool;
  cancelled : list CancelFunc
}.

Definition NewRequestCoordinator : RequestCoordinator :=
  mkCoordinator ∅ ∅ 0 false [].

Definition IsStopped (rc : RequestCoordinator) : bool := stopped rc.
Definition setStopped (b : bool) (rc : RequestCoordinator) : RequestCoordinator :=
  mkCoordinator (backlog rc) (heap rc) (next rc) b (cancelled rc).
Definition Stop (rc : RequestCoordinator) : RequestCoordinator := setStopped true rc.
Definition Start (rc : RequestCoordinator) : RequestCoordinator := setStopped false rc.

(** An update of a request through its pointer, and a call of a cancel function. *)
Definition updateReq (p : nat) (f : BlobRequest -> BlobRequest) (rc : RequestCoordinator)
    : RequestCoordinator :=
  mkCoordinator (backlog rc) (alter f p (heap rc)) (next rc) (stopped rc) (cancelled rc).
Definition callCancel (c : option CancelFunc) (rc : RequestCoordinator) : RequestCoordinator :=
  match c with
  | Some k => mkCoordinator (backlog rc) (heap rc) (next rc) (stopped rc) (k :: cancelled rc)
  | None => rc
  end.

(** The pointer, and whether the caller owns the request. *)
Definition GetOrCreateRequest (hash : bytes) (rc : RequestCoordinator)
    : result (nat * bool) * RequestCoordinator :=
  if IsStopped rc then (Err (EMsg "request coordinator is stopped"), rc) else
  match backlog rc !! hash with
  | None =>
      match SetWaiters 1 NewBlobRequest with
      | Ok req =>
          let p := next rc in
          (Ok (p, true),
           mkCoordinator (<[hash := p]> (backlog rc)) (<[p := req]> (heap rc)) (S p)
             (stopped rc) (cancelled rc))
      | Err e => (Err e, rc)
      | Panic w => (Panic w, rc)
      end
  | Some p => (Ok (p, false), updateReq p AddWaiter rc)
  end.

Definition RemoveRequest (hash : bytes) (rc : RequestCoordinator) : RequestCoordinator :=
  mkCoordinator (delete hash (backlog rc)) (heap rc) (next rc) (stopped rc) (cancelled rc).

(** The deferred function of [WaitForResult]. *)
Definition waitExit (ctxDone : bool) (p : nat) (rc : RequestCoordinator) : RequestCoordinator :=
  match heap rc !! p with
  | None => rc
  | Some req =>
      let '((newWaiters, ok), req') := DoneWaiter req in
      let rc' := updateReq p (fun _ => req') rc in
      if negb ok then rc'
      else if (newWaiters =? 0) && ctxDone then callCancel (GetCancel req') rc'
      else rc'
  end.

(** [WaitForResult] at a moment when one of its two channels is ready; [None] while it
    blocks.  When both are ready Go chooses, and [preferDone] is that choice. *)
Definition WaitForResult (ctx : option sentinel) (preferDone : bool) (p : nat)
    (rc : RequestCoordinator) : option (result bytes * RequestCoordinator) :=
  match heap rc !! p with
  | None => None
  | Some req =>
      let rc' := waitExit (bool_decide (ctx <> None)) p rc in
      match GetDone req, ctx with
      | true, None => Some (outcome (GetResult req), rc')
      | true, Some c =>
          Some (if preferDone then outcome (GetResult req) else Err (ESent c), rc')
      | false, Some c => Some (Err (ESent c), rc')
      | false, None => None
      end
  end.

(** The body of [CompleteWithData] and [CompleteWithErrorAndCancel]: whether it runs is
    decided by the request's [once]. *)
Definition completeAndCancel (p : nat) (r : taskResult) (raceCancel : option CancelFunc)
    (rc : RequestCoordinator) : RequestCoordinator :=
  match once <$> heap rc !! p with
  | Some OnceNew =>
      updateReq p (CompleteOnce (fun req => MarkDone (SetResult r req)))
        (callCancel raceCancel rc)
  | _ => rc
  end.

Definition CompleteWithData (p : nat) (d : bytes) (raceCancel : option CancelFunc)
    (rc : RequestCoordinator) : RequestCoordinator :=
  completeAndCancel p (NewTaskResult d None) raceCancel rc.
Definition CompleteWithError (p : nat) (e : error) (rc : RequestCoordinator)
    : error * RequestCoordinator :=
  (e, updateReq p (CompleteOnce (fun req => MarkDone (SetResult (NewTaskResult [] (Some e)) req))) rc).
Definition CompleteWithErrorAndCancel (p : nat) (e : error) (raceCancel : option CancelFunc)
    (rc : RequestCoordinator) : RequestCoordinator :=
  completeAndCancel p (NewTaskResult [] (Some e)) raceCancel rc.

Definition InitializeRequest (p : nat) (raceCancel : option CancelFunc) (total : Z)
    (rc : RequestCoordinator) : RequestCoordinator :=
  updateReq p (fun req => SetTotalPeers total (SetCancel raceCancel req)) rc.

Definition TrackFailedPeer (p : nat) (e : error) (rc : RequestCoordinator)
    : (Z * bool) * RequestCoordinator :=
  if IsStopped rc then ((0, false), rc) else
  match heap rc !! p with
  | None => ((0, false), rc)
  | Some req =>
      let '(n, req') := IncrementCompleted (SetLastError (Some e) req) in
      ((n, GetTotalPeers req' <=? n), updateReq p (fun _ => req') rc)
  end.

Definition ResetForNewPhase (p : nat) (newTotalPeers : Z) (rc : RequestCoordinator)
    : RequestCoordinator :=
  if IsStopped rc then rc else
  updateReq p (fun req => SetLastError None (SetTotalPeers newTotalPeers (SetCompleted 0 req))) rc.

Definition GetRequestState (p : nat) (rc : RequestCoordinator) : Z * Z * option error :=
  if IsStopped rc then (0, 0, Some (EMsg "request coordinator is stopped")) else
  match heap rc !! p with
  | None => (0, 0, None)
  | Some req => (GetCompleted req, GetTotalPeers req, GetLastError req)
  end.

Definition GetBacklogSize (rc : RequestCoordinator) : Z :=
  if IsStopped rc then 0 else Z.of_nat (size (backlog rc)).

(** ** Histories of a coordinator *)

(** The calls the callers, the races and the tasks make. *)
Inductive coordOp :=
  | OpGet (h : bytes)
  | OpRemove (h : bytes)
  | OpWait (ctx : option sentinel) (preferDone : bool) (p : nat)
  | OpData (p : nat) (d : bytes) (c : option CancelFunc)
  | OpError (p : nat) (e : error)
  | OpErrorCancel (p : nat) (e : error) (c : option CancelFunc)
  | OpInit (p : nat) (c : option CancelFunc) (total : Z)
  | OpTrack (p : nat) (e : error)
  | OpReset (p : nat) (total : Z)
  | OpStop
  | OpStart.

Definition applyOp (o : coordOp) (rc : RequestCoordinator) : RequestCoordinator :=
  match o with
  | OpGet h => (GetOrCreateRequest h rc).2
  | OpRemove h => RemoveRequest h rc
  | OpWait ctx b p => match WaitForResult ctx b p rc with Some (_, rc') => rc' | None => rc end
  | OpData p d c => CompleteWithData p d c rc
  | OpError p e => (CompleteWithError p e rc).2
  | OpErrorCancel p e c => CompleteWithErrorAndCancel p e c rc
  | OpInit p c n => InitializeRequest p c n rc
  | OpTrack p e => (TrackFailedPeer p e rc).2
  | OpReset p n => ResetForNewPhase p n rc
  | OpStop => Stop rc
  | OpStart => Start rc
  end.

Definition applyOps (l : list coordOp) (rc : RequestCoordinator) : RequestCoordinator :=
  foldl (fun rc o => applyOp o rc) rc l.

(** *** What one operation does to one request *)

(** The updates an operation may make to a request. *)
Inductive reqStep : BlobRequest -> BlobRequest -> Prop :=
  | RsSame r : reqStep r r
  | RsAdd r : reqStep r (AddWaiter r)
  | RsDone r : reqStep r (DoneWaiter r).2
  | RsComplete r t : reqStep r (CompleteOnce (fun q => MarkDone (SetResult t q)) r)
  | RsInit r c n : reqStep r (SetTotalPeers n (SetCancel c r))
  | RsTrack r e : reqStep r (IncrementCompleted (SetLastError e r)).2
  | RsReset r n : reqStep r (SetLastError None (SetTotalPeers n (SetCompleted 0 r))).

#[local] Hint Constructors reqStep : golib.

Lemma updateReq_lookup p f rc q :
  heap (updateReq p f rc) !! q = if decide (p = q) then f <$> heap rc !! q else heap rc !! q.
Proof. simpl. case_decide; subst; [apply lookup_alter_eq|by apply lookup_alter_ne]. Qed.

Lemma callCancel_heap c rc : heap (callCancel c rc) = heap rc.
Proof. by destruct c. Qed.
Lemma callCancel_backlog c rc : backlog (callCancel c rc) = backlog rc.
Proof. by destruct c. Qed.
Lemma callCancel_next c rc : next (callCancel c rc) = next rc.
Proof. by destruct c. Qed.
#[local] Hint Rewrite callCancel_heap callCancel_backlog callCancel_next : golib.

Lemma updateReq_step p f rc q r :
  heap rc !! q = Some r -> (forall x, heap rc !! p = Some x -> reqStep x (f x)) ->
  exists r', heap (updateReq p f rc) !! q = Some r' /\ reqStep r r'.
Proof.
  intros Hq Hf. rewrite updateReq_lookup. case_decide; subst; rewrite Hq; simpl; eauto with golib.
Qed.

Lemma waitExit_step b p rc q r :
  heap rc !! q = Some r ->
  exists r', heap (waitExit b p rc) !! q = Some r' /\ reqStep r r'.
Proof.
  intros Hq. unfold waitExit. destruct (heap rc !! p) as [x|] eqn:Hp; [|eauto with golib].
  destruct (DoneWaiter x) as [[n ok] x'] eqn:Hd.
  assert (exists r', heap (updateReq p (fun _ => x') rc) !! q = Some r' /\ reqStep r r').
  { apply updateReq_step; [done|]. intros y Hy. rewrite Hp in Hy. injection Hy as <-.
    replace x' with (DoneWaiter x).2 by (by rewrite Hd). constructor. }
  destruct ok; simpl negb; cbv iota; [|done].
  destruct (_ && _); [by rewrite callCancel_heap|done].
Qed.

(** A request stays where it is, whatever is called, and changes only by [reqStep]. *)
Lemma applyOp_req o rc q r :
  heap rc !! q = Some r -> (forall k, is_Some (heap rc !! k) -> (k < next rc)%nat) ->
  exists r', heap (applyOp o rc) !! q = Some r' /\ reqStep r r'.
Proof.
  intros Hq Hn. destruct o as [h|h|ctx b p|p d c|p e|p e c|p c n|p e|p n| |]; simpl;
    try (by eauto with golib).
  - unfold GetOrCreateRequest. destruct (IsStopped rc); [eauto with golib|].
    destruct (backlog rc !! h); simpl.
    + apply updateReq_step; auto with golib.
    + rewrite lookup_insert_ne; [eauto with golib|].
      assert (q < next rc)%nat by (apply Hn; eauto). lia.
  - unfold WaitForResult. destruct (heap rc !! p) as [x|] eqn:Hp; [|eauto with golib].
    pose proof (waitExit_step (bool_decide (ctx <> None)) p rc q r Hq).
    destruct (GetDone x), ctx; try done; eauto with golib.
  - unfold CompleteWithData, completeAndCancel.
    repeat case_match; try (by eauto with golib).
    apply updateReq_step; [by rewrite callCancel_heap|auto with golib].
  - apply updateReq_step; auto with golib.
  - unfold CompleteWithErrorAndCancel, completeAndCancel.
    repeat case_match; try (by eauto with golib).
    apply updateReq_step; [by rewrite callCancel_heap|auto with golib].
  - unfold InitializeRequest. apply updateReq_step; auto with golib.
  - unfold TrackFailedPeer. destruct (IsStopped rc); [eauto with golib|].
    destruct (heap rc !! p) as [x|] eqn:Hp; [|eauto with golib].
    apply updateReq_step; [done|]. intros y Hy. rewrite Hp in Hy. injection Hy as <-.
    apply (RsTrack x (Some e)).
  - unfold ResetForNewPhase. destruct (IsStopped rc); [eauto with golib|].
    apply updateReq_step; auto with golib.
Qed.

(** *** The invariant *)

Record req_wf (bound : Z) (r : BlobRequest) : Prop := {
  rw_waiters : 0 <= waiters r <= bound;
  rw_done : done r = doneOnce r;
  rw_once : once r = if done r then OnceDone else OnceNew;
  rw_empty : done r = false -> result_ r = mkTaskResult [] None
}.

Record coord_wf (bound : Z) (rc : RequestCoordinator) : Prop := {
  cw_heap p : is_Some (heap rc !! p) <-> (p < next rc)%nat;
  cw_backlog h p : backlog rc !! h = Some p -> (p < next rc)%nat;
  cw_inj h h' p : backlog rc !! h = Some p -> backlog rc !! h' = Some p -> h = h';
  cw_reqs p r : heap rc !! p = Some r -> req_wf bound r
}.

Lemma reqStep_wf bound r r' :
  0 <= bound < 2 ^ 63 - 1 -> req_wf bound r -> reqStep r r' -> req_wf (bound + 1) r'.
Proof.
  intros Hb [Hw Hd Ho He] Hs.
  inversion Hs; subst; clear Hs; unfold AddWaiter, DoneWaiter, CompleteOnce;
    try (split; simpl; auto with lia; lia).
  - rewrite int64_id by (unfold in_int64; lia). split; simpl; auto; lia.
  - destruct (Z.leb_spec (waiters r) 0); simpl; [split; auto; lia|].
    rewrite int64_id by (unfold in_int64; lia). split; simpl; auto; lia.
  - destruct (done r) eqn:Edone; rewrite Ho.
    + split; simpl; rewrite ?Edone; auto; lia.
    + unfold MarkDone. simpl. rewrite <- Hd. split; simpl; auto; try done; lia.
Qed.

Lemma applyOp_backlog o rc h p :
  backlog (applyOp o rc) !! h = Some p ->
  backlog rc !! h = Some p
  \/ (o = OpGet h /\ p = next rc /\ backlog rc !! h = None /\ next (applyOp o rc) = S (next rc)).
Proof.
  destruct o as [g|g|ctx b q|q d c|q e|q e c|q c n|q e|q n| |]; simpl; auto.
  - unfold GetOrCreateRequest. destruct (IsStopped rc); simpl; auto.
    destruct (backlog rc !! g) eqn:Hg; simpl; [auto|].
    destruct (decide (g = h)) as [->|Hne].
    + rewrite lookup_insert_eq. intros [= <-]. auto.
    + rewrite lookup_insert_ne by done. auto.
  - rewrite lookup_delete_Some. naive_solver.
  - unfold WaitForResult, waitExit. intros Hx. left. revert Hx.
    repeat case_match; simpl; simplify_eq/=; rewrite ?callCancel_backlog; done.
  - unfold CompleteWithData, completeAndCancel. repeat case_match; simpl;
      rewrite ?callCancel_backlog; auto.
  - unfold CompleteWithErrorAndCancel, completeAndCancel. repeat case_match; simpl;
      rewrite ?callCancel_backlog; auto.
  - unfold TrackFailedPeer. repeat case_match; simpl; auto.
  - unfold ResetForNewPhase. repeat case_match; simpl; auto.
Qed.

(** An entry stays in the backlog until it is removed. *)
Lemma applyOp_backlog_keep o rc h p :
  backlog rc !! h = Some p -> o <> OpRemove h -> backlog (applyOp o rc) !! h = Some p.
Proof.
  intros Hh Ho.
  destruct o as [g|g|ctx b q|q d c|q e|q e c|q c n|q e|q n| |]; cbn [applyOp]; auto;
    unfold GetOrCreateRequest, WaitForResult, waitExit, CompleteWithData,
      CompleteWithErrorAndCancel, completeAndCancel, TrackFailedPeer, ResetForNewPhase;
    try (repeat case_match; simplify_eq; simpl; rewrite ?callCancel_backlog; done).
  - destruct (IsStopped rc); [done|]. destruct (backlog rc !! g) eqn:Hg; simpl; [done|].
    rewrite lookup_insert_ne; [done|]. intros ->. congruence.
  - simpl. rewrite lookup_delete_ne; [done|]. intros ->. done.
Qed.

Lemma applyOps_backlog_keep l rc h p :
  backlog rc !! h = Some p -> OpRemove h ∉ l -> backlog (applyOps l rc) !! h = Some p.
Proof.
  revert rc. induction l as [|o l IH]; intros rc Hh Hn; [done|].
  rewrite not_elem_of_cons in Hn. apply IH; [|naive_solver]. apply applyOp_backlog_keep; naive_solver.
Qed.

Lemma applyOp_heap o rc p :
  is_Some (heap (applyOp o rc) !! p) ->
  is_Some (heap rc !! p) \/ (p = next rc /\ next (applyOp o rc) = S (next rc)).
Proof.
  assert (Hu : forall f q rc', is_Some (heap (updateReq q f rc') !! p) -> is_Some (heap rc' !! p)).
  { intros f q rc'. rewrite updateReq_lookup. case_decide; [by rewrite fmap_is_Some|done]. }
  destruct o as [g|g|ctx b q|q d c|q e|q e c|q c n|q e|q n| |]; cbn [applyOp];
    unfold CompleteWithError, InitializeRequest; simpl snd; eauto.
  - unfold GetOrCreateRequest. destruct (IsStopped rc); simpl; auto.
    destruct (backlog rc !! g) eqn:Hg; [left; by eapply Hu|]. simpl.
    rewrite lookup_insert_is_Some. intros [?|[_ ?]]; auto.
  - unfold WaitForResult, waitExit. intros Hx. left. revert Hx.
    repeat case_match; simplify_eq; rewrite ?callCancel_heap; eauto.
  - unfold CompleteWithData, completeAndCancel. repeat case_match; eauto.
    intros Hx%Hu. rewrite ?callCancel_heap in Hx. auto.
  - unfold CompleteWithErrorAndCancel, completeAndCancel. repeat case_match; eauto.
    intros Hx%Hu. rewrite ?callCancel_heap in Hx. auto.
  - unfold TrackFailedPeer. repeat case_match; eauto.
  - unfold ResetForNewPhase. repeat case_match; eauto.
Qed.

Lemma applyOp_next o rc :
  next (applyOp o rc) = next rc
  \/ (next (applyOp o rc) = S (next rc) /\ is_Some (heap (applyOp o rc) !! next rc)).
Proof.
  destruct o as [g|g|ctx b q|q d c|q e|q e c|q c n|q e|q n| |]; cbn [applyOp]; auto;
    unfold GetOrCreateRequest, WaitForResult, waitExit, CompleteWithData,
      CompleteWithErrorAndCancel, completeAndCancel, TrackFailedPeer, ResetForNewPhase;
    repeat case_match; simplify_eq; simpl; rewrite ?callCancel_next; auto.
  right. split; [done|]. rewrite lookup_insert_eq. eauto.
Qed.

Lemma applyOp_wf bound o rc :
  0 <= bound < 2 ^ 63 - 1 -> coord_wf bound rc -> coord_wf (bound + 1) (applyOp o rc).
Proof.
  intros Hb [Hh Hbk Hi Hr].
  assert (Hold : forall p r, heap rc !! p = Some r ->
    exists r', heap (applyOp o rc) !! p = Some r' /\ reqStep r r').
  { intros p r Hp. apply applyOp_req; [done|]. intros k. by apply Hh. }
  split.
  - intros p. split.
    + intros [Hs| [-> ->]]%applyOp_heap; [|lia].
      apply Hh in Hs. destruct (applyOp_next o rc) as [->| [-> _]]; lia.
    + intros Hp. destruct (applyOp_next o rc) as [E|[E Hs]]; rewrite E in Hp.
      * apply Hh in Hp as [r Hp]. destruct (Hold _ _ Hp) as (r' & -> & _). eauto.
      * destruct (decide (p = next rc)) as [->|]; [done|].
        assert (p < next rc)%nat as [r Hp']%Hh by lia.
        destruct (Hold _ _ Hp') as (r' & -> & _). eauto.
  - intros h p [H|(_ & -> & _ & ->)]%applyOp_backlog; [|lia].
    apply Hbk in H. destruct (applyOp_next o rc) as [->| [-> _]]; lia.
  - intros h h' p [H|(-> & -> & _ & _)]%applyOp_backlog [H'|(E & Ep & _ & _)]%applyOp_backlog; eauto.
    + subst. apply Hbk in H. lia.
    + apply Hbk in H'. lia.
    + congruence.
  - intros p r' Hp'. destruct (heap rc !! p) as [r|] eqn:Hp.
    + destruct (Hold _ _ Hp) as (r'' & E & Hs). rewrite E in Hp'. injection Hp' as <-.
      by eapply reqStep_wf; eauto.
    + destruct (applyOp_heap o rc p ltac:(eauto)) as [[? ?]|[-> _]]; [congruence|].
      assert (heap (applyOp o rc) !! next rc = Some (setWaitersField 1 NewBlobRequest)) as E;
        [|rewrite E in Hp'; injection Hp' as <-; split; simpl; auto; lia].
      revert Hp'. clear - Hp.
      destruct o as [g|g|ctx b q|q d c|q e|q e c|q c n|q e|q n| |]; cbn [applyOp];
        unfold GetOrCreateRequest, WaitForResult, waitExit, CompleteWithData,
        CompleteWithError, InitializeRequest,
        CompleteWithErrorAndCancel, completeAndCancel, TrackFailedPeer, ResetForNewPhase;
        repeat case_match; simplify_eq; simpl snd;
        rewrite ?updateReq_lookup, ?callCancel_heap, ?updateReq_lookup; simpl heap;
        rewrite ?Hp; try case_decide; try done.
      match goal with H : SetWaiters _ _ = Ok _ |- _ => injection H as <- end.
      by rewrite lookup_insert_eq.
Qed.

Lemma new_coord_wf : coord_wf 0 NewRequestCoordinator.
Proof.
  split; simpl; intros *; rewrite ?lookup_empty; try done.
  split; [intros [? ?]; done|lia].
Qed.

Lemma applyOps_wf l bound rc :
  0 <= bound -> bound + Z.of_nat (length l) < 2 ^ 63 -> coord_wf bound rc ->
  coord_wf (bound + Z.of_nat (length l)) (applyOps l rc).
Proof.
  revert bound rc. induction l as [|o l IH]; intros bound rc H0 Hb Hw; simpl in *.
  - by rewrite Z.add_0_r.
  - replace (bound + Z.of_nat (S (length l))) with (bound + 1 + Z.of_nat (length l)) by lia.
    apply IH; [lia|lia|]. apply applyOp_wf; [lia|done].
Qed.

Lemma reqStep_done r r' bound :
  req_wf bound r -> reqStep r r' -> done r = true ->
  done r' = true /\ result_ r' = result_ r /\ once r' = once r.
Proof.
  intros [Hw Hd Ho He] Hs Hdone. inversion Hs; subst; simpl; auto.
  - unfold DoneWaiter. by destruct (_ <=? _).
  - unfold CompleteOnce. rewrite Ho, Hdone. by rewrite Hdone, Ho, Hdone.
Qed.

Lemma applyOps_done l bound rc p r :
  0 <= bound -> bound + Z.of_nat (length l) < 2 ^ 63 -> coord_wf bound rc ->
  heap rc !! p = Some r -> done r = true ->
  exists r', heap (applyOps l rc) !! p = Some r' /\ done r' = true /\ result_ r' = result_ r.
Proof.
  revert bound rc r. induction l as [|o l IH]; intros bound rc r H0 Hb Hw Hp Hd; simpl in *.
  - eauto.
  - destruct (applyOp_req o rc p r Hp) as (r1 & Hp1 & Hs).
    { intros k. apply (cw_heap _ _ Hw). }
    destruct (reqStep_done r r1 bound) as (Hd1 & Hr1 & _); eauto using cw_reqs.
    rewrite <- Hr1. apply (IH (bound + 1)); try lia; [|done|done].
    apply applyOp_wf; [lia|done].
Qed.

(** ** Theorems *)

(** Over any history of calls on a fresh coordinator, shorter than the integers are
    wide: a request's waiter count never goes negative and is at most the number of calls;
    its done channel is closed exactly when its completion has run; before that it holds no
    result; and two hashes of the backlog never share a request, nor does a backlog entry
    dangle. *)
Theorem coordinator_invariant l :
  Z.of_nat (length l) < 2 ^ 63 ->
  coord_wf (Z.of_nat (length l)) (applyOps l NewRequestCoordinator).
Proof. intros Hl. apply (applyOps_wf l 0); [lia|lia|apply new_coord_wf]. Qed.

(** The first completion of a request decides its result: once its channel is closed,
    no later history of calls, completions included, changes what its waiters read. *)
Theorem first_completion_wins l l' p r :
  Z.of_nat (length l + length l') < 2 ^ 63 ->
  heap (applyOps l NewRequestCoordinator) !! p = Some r -> done r = true ->
  exists r', heap (applyOps (l ++ l') NewRequestCoordinator) !! p = Some r'
    /\ done r' = true /\ outcome (GetResult r') = outcome (GetResult r).
Proof.
  intros Hl Hp Hd. unfold applyOps. rewrite foldl_app.
  destruct (applyOps_done l' (Z.of_nat (length l)) (applyOps l NewRequestCoordinator) p r)
    as (r' & H1 & H2 & H3); try lia; try done.
  - apply (applyOps_wf l 0); [lia|lia|apply new_coord_wf].
  - exists r'. unfold GetResult. by rewrite H3.
Qed.

Lemma coordinator_invariant_witness :
  coord_wf 3 (applyOps [OpGet (go "h"); OpGet (go "h"); OpRemove (go "h")] NewRequestCoordinator).
Proof. apply (coordinator_invariant [OpGet (go "h"); OpGet (go "h"); OpRemove (go "h")]). simpl. lia. Defined.

Lemma first_completion_wins_witness :
  exists r', heap (applyOps ([OpGet (go "h"); OpData 0 (go "x") None]
                    ++ [OpErrorCancel 0 (ESent EOF) (Some 7%nat)]) NewRequestCoordinator) !! 0%nat = Some r'
    /\ done r' = true
    /\ outcome (GetResult r')
       = outcome (GetResult (setOnce OnceDone (MarkDone (SetResult (NewTaskResult (go "x") None)
                    (setWaitersField 1 NewBlobRequest))))).
Proof. apply first_completion_wins; [simpl; lia|reflexivity|reflexivity]. Defined.
