(* ===== verification/RequestSpec.v ===== *)
(** * What a request coordinator answers

    A specification of the coordinator of Request.v without pointers, channels and onces:
    what each of its requests is, and which request a hash has, as functions of the history
    of calls; and the proof that the coordinator follows it. *)
From stdpp Require Import base tactics list numbers strings gmap.
From Stdlib Require Import ZArith Lia Init.Byte.
From S2P Require Import Prelude GoStd Errors Store Request.
Local Open Scope Z_scope.

(** ** The history of calls *)

(** A call, whether the coordinator was running, the request a [GetOrCreateRequest] returned,
    and whether a [WaitForResult] returned. *)
Record entry := mkEntry { en_op : coordOp; en_running : bool; en_got : option nat; en_left : bool }.

Definition entryOf (o : coordOp) (rc : RequestCoordinator) : entry :=
  mkEntry o (negb (IsStopped rc))
    match o with
    | OpGet h => match (GetOrCreateRequest h rc).1 with Ok (p, _) => Some p | _ => None end
    | _ => None
    end
    match o with
    | OpWait ctx b p => match WaitForResult ctx b p rc with Some _ => true | None => false end
    | _ => false
    end.

(** The request a call is about; callers have only the requests they were given. *)
Definition opReq (o : coordOp) : option nat :=
  match o with
  | OpWait _ _ p | OpData p _ _ | OpError p _ | OpErrorCancel p _ _ | OpInit p _ _ | OpTrack p _ | OpReset p _ => Some p
  | _ => None
  end.
Definition knownOp (o : coordOp) (rc : RequestCoordinator) : bool :=
  match opReq o with Some p => bool_decide (is_Some (heap rc !! p)) | None => true end.

Fixpoint logOf (l : list coordOp) (rc : RequestCoordinator) : list entry :=
  match l with
  | [] => []
  | o :: l => (if knownOp o rc then [entryOf o rc] else []) ++ logOf l (applyOp o rc)
  end.

(** ** The specification *)

(** A request: who waits for it, how many of its peers have failed and the last error in
    this phase, the number of peers, what cancels it, and the result it was first completed
    with. *)
Record reqSpec := mkSpec {
  sp_waiters : nat;
  sp_failures : nat;
  sp_last : option error;
  sp_total : Z;
  sp_cancel : option CancelFunc;
  sp_result : option taskResult
}.
Definition newSpec : reqSpec := mkSpec 0 0 None 0 None None.

Definition specWaiters (n : nat) (s : reqSpec) : reqSpec :=
  mkSpec n (sp_failures s) (sp_last s) (sp_total s) (sp_cancel s) (sp_result s).
Definition specPhase (n : nat) (e : option error) (total : Z) (s : reqSpec) : reqSpec :=
  mkSpec (sp_waiters s) n e total (sp_cancel s) (sp_result s).
Definition specInit (c : option CancelFunc) (total : Z) (s : reqSpec) : reqSpec :=
  mkSpec (sp_waiters s) (sp_failures s) (sp_last s) total c (sp_result s).
(** Only the first completion counts. *)
Definition specComplete (t : taskResult) (s : reqSpec) : reqSpec :=
  mkSpec (sp_waiters s) (sp_failures s) (sp_last s) (sp_total s) (sp_cancel s)
    (match sp_result s with Some t' => Some t' | None => Some t end).

Definition specStep (p : nat) (s : reqSpec) (x : entry) : reqSpec :=
  let mine q s' := if decide (q = p) then s' else s in
  match en_op x with
  | OpGet _ => if decide (en_got x = Some p) then specWaiters (S (sp_waiters s)) s else s
  | OpWait _ _ q => mine q (if en_left x then specWaiters (pred (sp_waiters s)) s else s)
  | OpData q d _ => mine q (specComplete (mkTaskResult d None) s)
  | OpError q e | OpErrorCancel q e _ => mine q (specComplete (mkTaskResult [] (Some e)) s)
  | OpInit q c n => mine q (specInit c n s)
  | OpTrack q e => mine q (if en_running x then specPhase (S (sp_failures s)) (Some e) (sp_total s) s else s)
  | OpReset q n => mine q (if en_running x then specPhase 0 None n s else s)
  | OpRemove _ | OpStop | OpStart => s
  end.
Definition specOf (p : nat) (log : list entry) : reqSpec := foldl (specStep p) newSpec log.

(** The request a hash has: the one given out for it since it was last removed. *)
Definition requestStep (h : bytes) (o : option nat) (x : entry) : option nat :=
  match en_op x with
  | OpGet h' => if decide (h' = h) then match en_got x with Some p => Some p | None => o end else o
  | OpRemove h' => if decide (h' = h) then None else o
  | _ => o
  end.
Definition requestOf (h : bytes) (log : list entry) : option nat := foldl (requestStep h) None log.

(** ** The coordinator follows it *)

Definition noResult : taskResult := mkTaskResult [] None.

Record matches (r : BlobRequest) (s : reqSpec) : Prop := {
  ma_waiters : waiters r = Z.of_nat (sp_waiters s);
  ma_completed : completed r = Z.of_nat (sp_failures s);
  ma_last : lastError r = sp_last s;
  ma_total : totalPeers r = sp_total s;
  ma_cancel : cancel r = sp_cancel s;
  ma_done : done r = bool_decide (is_Some (sp_result s));
  ma_doneOnce : doneOnce r = done r;
  ma_once : once r = if done r then OnceDone else OnceNew;
  ma_result : result_ r = default noResult (sp_result s)
}.

Record follows (bound : Z) (rc : RequestCoordinator) (log : list entry) : Prop := {
  fo_req p r : heap rc !! p = Some r -> matches r (specOf p log);
  fo_small p : Z.of_nat (sp_failures (specOf p log)) <= bound /\ Z.of_nat (sp_waiters (specOf p log)) <= bound;
  fo_fresh p : heap rc !! p = None -> specOf p log = newSpec;
  fo_backlog h : backlog rc !! h = requestOf h log
}.

Lemma specOf_app p log x : specOf p (log ++ [x]) = specStep p (specOf p log) x.
Proof. unfold specOf. by rewrite foldl_app. Qed.
Lemma requestOf_app h log x : requestOf h (log ++ [x]) = requestStep h (requestOf h log) x.
Proof. unfold requestOf. by rewrite foldl_app. Qed.

Lemma matches_waiters r s n : matches r s -> matches (setWaitersField (Z.of_nat n) r) (specWaiters n s).
Proof. intros []. by split. Qed.

Lemma matches_complete r s t :
  matches r s -> matches (CompleteOnce (fun q => MarkDone (SetResult t q)) r) (specComplete t s).
Proof.
  intros [H1 H2 H3 H4 H5 H6 H7 H8 H9]. unfold CompleteOnce. rewrite H8.
  destruct s as [n k e total c [t'|]]; simpl in *.
  - rewrite H6. split; simpl; congruence.
  - rewrite H6. unfold MarkDone. simpl. rewrite H7, H6. by split.
Qed.

(** An update of one request, seen in the heap. *)
Lemma follows_update bound rc rc' log x p f g :
  follows bound rc log -> backlog rc' = backlog rc -> heap rc' = alter f p (heap rc) ->
  is_Some (heap rc !! p) ->
  (forall h o, requestStep h o x = o) ->
  (forall q s, specStep q s x = if decide (p = q) then g s else s) ->
  (forall r s, matches r s -> Z.of_nat (sp_failures s) <= bound -> Z.of_nat (sp_waiters s) <= bound -> matches (f r) (g s)) ->
  (forall s, Z.of_nat (sp_failures s) <= bound -> Z.of_nat (sp_waiters s) <= bound ->
     Z.of_nat (sp_failures (g s)) <= bound + 1 /\ Z.of_nat (sp_waiters (g s)) <= bound + 1) ->
  follows (bound + 1) rc' (log ++ [x]).
Proof.
  intros [H1 H2 H3 H4] Eb Eh Hp Hreq Hst Hm Hs. split.
  - intros q r Hq. rewrite Eh in Hq. rewrite specOf_app, Hst. destruct (decide (p = q)) as [<-|Hne].
    + rewrite lookup_alter_eq in Hq. destruct (heap rc !! p) as [r0|] eqn:E; [|done]. injection Hq as <-.
      apply Hm; [by apply H1|apply H2..].
    + rewrite lookup_alter_ne in Hq by done. by apply H1.
  - intros q. rewrite specOf_app, Hst. destruct (H2 q). destruct (decide (p = q)); [by apply Hs|lia].
  - intros q Hq. rewrite Eh in Hq. rewrite specOf_app, Hst. destruct (decide (p = q)) as [<-|Hne].
    + rewrite lookup_alter_eq in Hq. by destruct Hp as [r0 Hr], (heap rc !! p).
    + rewrite lookup_alter_ne in Hq by done. by apply H3.
  - intros h. by rewrite Eb, requestOf_app, Hreq.
Qed.

(** A call that changes no request and no entry. *)
Lemma follows_same bound rc rc' log x :
  follows bound rc log -> backlog rc' = backlog rc -> heap rc' = heap rc ->
  (forall h o, requestStep h o x = o) -> (forall q s, specStep q s x = s) -> follows (bound + 1) rc' (log ++ [x]).
Proof.
  intros [H1 H2 H3 H4] Eb Eh Hreq Hst. split.
  - intros q r. rewrite Eh, specOf_app, Hst. apply H1.
  - intros q. rewrite specOf_app, Hst. destruct (H2 q). lia.
  - intros q. rewrite Eh, specOf_app, Hst. apply H3.
  - intros h. by rewrite Eb, requestOf_app, Hreq.
Qed.

Lemma follows_weaken bound bound' rc log : bound <= bound' -> follows bound rc log -> follows bound' rc log.
Proof. intros Hb [H1 H2 H3 H4]. split; try done. intros p. destruct (H2 p). lia. Qed.

(** *** Every call *)

Lemma follows_get bound h rc log :
  0 <= bound < 2 ^ 31 - 1 -> coord_wf bound rc -> follows bound rc log ->
  follows (bound + 1) (applyOp (OpGet h) rc) (log ++ [entryOf (OpGet h) rc]).
Proof.
  intros Hb Hw F. pose proof F as [H1 H2 H3 H4]. unfold entryOf. cbn [applyOp]. unfold GetOrCreateRequest.
  destruct (IsStopped rc); simpl.
  { apply (follows_same bound rc); try done. intros g o. unfold requestStep. simpl. by destruct (decide _). }
  destruct (backlog rc !! h) as [p|] eqn:Eh; simpl.
  - assert (Hp : is_Some (heap rc !! p)) by (apply (cw_heap _ _ Hw), (cw_backlog _ _ Hw h p Eh)).
    set (x := mkEntry _ _ _ _).
    apply (follows_weaken (bound + 1)); [lia|].
    assert (Hg : follows (bound + 1) (updateReq p AddWaiter rc) (log ++ [x])).
    { split.
      - intros q r. rewrite updateReq_lookup, specOf_app. unfold specStep. simpl.
        destruct (decide (p = q)) as [<-|Hne].
        + destruct (heap rc !! p) as [r0|] eqn:E; [|done]. intros [= <-]. rewrite decide_True by done.
          pose proof (H1 p r0 E) as M. destruct (H2 p) as [_ Hle]. unfold AddWaiter.
          rewrite (ma_waiters _ _ M), int64_id by (unfold in_int64; lia).
          replace (Z.of_nat (sp_waiters (specOf p log)) + 1) with (Z.of_nat (S (sp_waiters (specOf p log)))) by lia.
          by apply matches_waiters.
        + rewrite decide_False by congruence. apply H1.
      - intros q. rewrite specOf_app. unfold specStep. simpl. destruct (H2 q). destruct (decide _); simpl; lia.
      - intros q. rewrite updateReq_lookup, specOf_app. unfold specStep. simpl.
        destruct (decide (p = q)) as [<-|Hne]; [by destruct Hp as [r0 ->]|]. rewrite decide_False by congruence. apply H3.
      - intros g. rewrite requestOf_app. unfold requestStep. simpl. rewrite <- H4.
        destruct (decide (h = g)) as [<-|]; [exact Eh|done]. }
    exact Hg.
  - assert (Hn : heap rc !! next rc = None).
    { destruct (heap rc !! next rc) eqn:E; [|done]. assert (next rc < next rc)%nat; [|lia]. apply (cw_heap _ _ Hw). eauto. }
    split; simpl.
    + intros q r. rewrite specOf_app. unfold specStep. simpl. destruct (decide (q = next rc)) as [->|Hne].
      * rewrite lookup_insert_eq, decide_True by done. intros [= <-]. rewrite (H3 _ Hn). by split.
      * rewrite lookup_insert_ne, decide_False by congruence. apply H1.
    + intros q. rewrite specOf_app. unfold specStep. simpl. destruct (H2 q). destruct (decide _); simpl; lia.
    + intros q. rewrite specOf_app. unfold specStep. simpl. destruct (decide (q = next rc)) as [->|Hne].
      * by rewrite lookup_insert_eq.
      * rewrite lookup_insert_ne, decide_False by congruence. apply H3.
    + intros g. rewrite requestOf_app. unfold requestStep. simpl. rewrite <- H4.
      destruct (decide (h = g)) as [<-|Hne]; [by rewrite lookup_insert_eq|by rewrite lookup_insert_ne].
Qed.

Lemma follows_remove bound h rc log :
  follows bound rc log -> follows (bound + 1) (RemoveRequest h rc) (log ++ [entryOf (OpRemove h) rc]).
Proof.
  intros F. apply (follows_weaken bound) with (bound' := bound + 1) in F; [|lia]. destruct F as [H1 H2 H3 H4]. split.
  - intros q r. rewrite specOf_app. apply H1.
  - intros q. rewrite specOf_app. apply H2.
  - intros q. rewrite specOf_app. apply H3.
  - intros g. rewrite requestOf_app. unfold requestStep. simpl. rewrite <- H4.
    destruct (decide (h = g)) as [<-|Hne]; [by rewrite lookup_delete_eq|by rewrite lookup_delete_ne].
Qed.

(** [DoneWaiter] of a request that follows its specification. *)
Lemma matches_leave r s bound :
  0 <= bound < 2 ^ 31 -> matches r s -> Z.of_nat (sp_waiters s) <= bound ->
  matches (DoneWaiter r).2 (specWaiters (pred (sp_waiters s)) s).
Proof.
  intros Hb M Hle. unfold DoneWaiter. pose proof (ma_waiters _ _ M) as E. rewrite E.
  destruct (sp_waiters s) as [|n] eqn:En; simpl.
  - replace r with (setWaitersField (Z.of_nat 0) r) by (destruct r; simpl in *; by subst). by apply matches_waiters.
  - destruct (Z.leb_spec (Z.of_nat (S n)) 0); [lia|]. simpl. rewrite int64_id by (unfold in_int64; lia).
    replace (Z.of_nat (S n) - 1) with (Z.of_nat n) by lia. by apply matches_waiters.
Qed.

Lemma alter_same {A} (f : A -> A) p (m : gmap nat A) :
  (forall x, m !! p = Some x -> f x = x) -> alter f p m = m.
Proof.
  intros Hf. apply map_eq. intros q. destruct (decide (p = q)) as [<-|]; [|by rewrite lookup_alter_ne].
  rewrite lookup_alter_eq. destruct (m !! p) as [x|] eqn:E; [|done]. simpl. by rewrite Hf.
Qed.

Lemma alter_const {A} (f : A -> A) p (m : gmap nat A) r y :
  m !! p = Some r -> f r = y -> alter (fun _ => y) p m = alter f p m.
Proof.
  intros Hr <-. apply map_eq. intros q. destruct (decide (p = q)) as [<-|]; [|by rewrite !lookup_alter_ne].
  by rewrite !lookup_alter_eq, Hr.
Qed.

Lemma waitExit_heap b p rc :
  heap (waitExit b p rc) = alter (fun r => (DoneWaiter r).2) p (heap rc)
  /\ backlog (waitExit b p rc) = backlog rc.
Proof.
  unfold waitExit. destruct (heap rc !! p) as [r|] eqn:Hr.
  - destruct (DoneWaiter r) as [[n ok] r'] eqn:E.
    pose proof (alter_const (fun r => (DoneWaiter r).2) p (heap rc) r r' Hr (f_equal snd E)) as Ha.
    destruct ok; simpl; [destruct (_ && _)|]; rewrite ?callCancel_heap, ?callCancel_backlog; done.
  - split; [|done]. symmetry. apply alter_same. intros x Hx. congruence.
Qed.

Lemma completeAndCancel_heap p t c rc :
  heap (completeAndCancel p t c rc) = alter (CompleteOnce (fun q => MarkDone (SetResult t q))) p (heap rc)
  /\ backlog (completeAndCancel p t c rc) = backlog rc.
Proof.
  unfold completeAndCancel. destruct (heap rc !! p) as [r|] eqn:Hr; simpl.
  - destruct (once r) eqn:Eo; simpl; rewrite ?callCancel_heap, ?callCancel_backlog; [done|..]; (split; [|done]);
      symmetry; apply alter_same; intros x Hx; rewrite Hr in Hx; injection Hx as <-; unfold CompleteOnce; by rewrite Eo.
  - split; [|done]. symmetry. apply alter_same. intros x Hx. congruence.
Qed.

Lemma follows_complete bound rc rc' log x p t :
  follows bound rc log -> is_Some (heap rc !! p) ->
  heap rc' = alter (CompleteOnce (fun q => MarkDone (SetResult t q))) p (heap rc) -> backlog rc' = backlog rc ->
  (forall h o, requestStep h o x = o) -> (forall q s, specStep q s x = if decide (p = q) then specComplete t s else s) ->
  follows (bound + 1) rc' (log ++ [x]).
Proof.
  intros F Hk E1 E2 Hreq Hst. eapply (follows_update bound rc _ _ _ p _ (specComplete t) F E2 E1 Hk Hreq Hst).
  - intros r s M _ _. by apply matches_complete.
  - intros s ? ?. simpl. lia.
Qed.

Lemma follows_wait bound ctx b p rc log :
  0 <= bound < 2 ^ 31 - 1 -> follows bound rc log -> is_Some (heap rc !! p) ->
  follows (bound + 1) (applyOp (OpWait ctx b p) rc) (log ++ [entryOf (OpWait ctx b p) rc]).
Proof.
  intros Hb F Hk. unfold entryOf. cbn [applyOp]. destruct (waitExit_heap (bool_decide (ctx <> None)) p rc) as [E1 E2].
  assert (Hgo : forall x, en_op x = OpWait ctx b p -> en_left x = true ->
    follows (bound + 1) (waitExit (bool_decide (ctx <> None)) p rc) (log ++ [x])).
  { intros x Ex Hl. eapply (follows_update bound rc _ _ _ p _ (fun s => specWaiters (pred (sp_waiters s)) s) F E2 E1 Hk).
    - intros g o. unfold requestStep. by rewrite Ex.
    - intros q s. unfold specStep. rewrite Ex, Hl. done.
    - intros r s M _ Hs. apply (matches_leave r s bound); [lia|done|done].
    - intros s ? ?. simpl. lia. }
  assert (Hno : forall x, en_op x = OpWait ctx b p -> en_left x = false -> follows (bound + 1) rc (log ++ [x])).
  { intros x Ex Hl. apply (follows_same bound rc); try done; intros; unfold requestStep, specStep; rewrite ?Ex, ?Hl; [done|].
    by destruct (decide _). }
  unfold WaitForResult. destruct Hk as [r Hr]. rewrite Hr. destruct (GetDone r), ctx as [c|]; [by apply Hgo..|by apply Hno].
Qed.

Lemma matches_track r s e bound :
  0 <= bound < 2 ^ 31 - 1 -> matches r s -> Z.of_nat (sp_failures s) <= bound ->
  IncrementCompleted (SetLastError (Some e) r)
  = (Z.of_nat (S (sp_failures s)), SetCompleted (Z.of_nat (S (sp_failures s))) (SetLastError (Some e) r))
  /\ matches (SetCompleted (Z.of_nat (S (sp_failures s))) (SetLastError (Some e) r))
       (specPhase (S (sp_failures s)) (Some e) (sp_total s) s).
Proof.
  intros Hb [H1 H2 H3 H4 H5 H6 H7 H8 H9] Hle. unfold IncrementCompleted. simpl. rewrite H2, int32_id by lia.
  replace (Z.of_nat (sp_failures s) + 1) with (Z.of_nat (S (sp_failures s))) by lia. split; [done|]. by split.
Qed.

Lemma follows_track bound p e rc log :
  0 <= bound < 2 ^ 31 - 1 -> follows bound rc log -> is_Some (heap rc !! p) ->
  follows (bound + 1) (TrackFailedPeer p e rc).2 (log ++ [entryOf (OpTrack p e) rc]).
Proof.
  intros Hb F Hk. unfold TrackFailedPeer. destruct (IsStopped rc) eqn:Es.
  { apply (follows_same bound rc); try done. intros q s. unfold specStep, entryOf. simpl. rewrite Es. by destruct (decide _). }
  pose proof Hk as [r Hr]. rewrite Hr. destruct (IncrementCompleted _) as [n r'] eqn:Ei. cbn [snd].
  eapply (follows_update bound rc _ _ _ p (fun r => (IncrementCompleted (SetLastError (Some e) r)).2)
    (fun s => specPhase (S (sp_failures s)) (Some e) (sp_total s) s) F); try done.
  - apply (alter_const (fun r => (IncrementCompleted (SetLastError (Some e) r)).2) _ _ r r' Hr). by rewrite Ei.
  - intros q s. unfold specStep, entryOf. simpl. by rewrite Es.
  - intros x s M Hs _. destruct (matches_track x s e bound Hb M Hs) as [-> M']. exact M'.
  - intros s ? ?. simpl. lia.
Qed.

Lemma follows_op bound o rc log :
  0 <= bound < 2 ^ 31 - 1 -> coord_wf bound rc -> follows bound rc log -> knownOp o rc = true ->
  follows (bound + 1) (applyOp o rc) (log ++ [entryOf o rc]).
Proof.
  intros Hb Hw F Hk. unfold knownOp in Hk.
  destruct o as [h|h|ctx b p|p d c|p e|p e c|p c n|p e|p n| |]; simpl in Hk; try apply bool_decide_eq_true in Hk.
  - by apply follows_get.
  - by apply follows_remove.
  - by apply follows_wait.
  - eapply (follows_complete bound rc); try done; apply completeAndCancel_heap.
  - by eapply (follows_complete bound rc).
  - eapply (follows_complete bound rc); try done; apply completeAndCancel_heap.
  - eapply (follows_update bound rc _ _ _ p _ (specInit c n) F); try done.
    + intros r s [] _ _. by split.
    + intros s ? ?. simpl. lia.
  - by apply follows_track.
  - cbn [applyOp]. unfold ResetForNewPhase. destruct (IsStopped rc) eqn:Es.
    { apply (follows_same bound rc); try done. intros q s. unfold specStep, entryOf. simpl. rewrite Es. by destruct (decide _). }
    eapply (follows_update bound rc _ _ _ p _ (specPhase 0 None n) F); try done.
    + intros q s. unfold specStep, entryOf. simpl. by rewrite Es.
    + intros r s [] _ _. by split.
    + intros s ? ?. simpl. lia.
  - by apply (follows_same bound rc).
  - by apply (follows_same bound rc).
Qed.

(** A call about a request that nobody was given does nothing. *)
Lemma unknown_op o rc : knownOp o rc = false -> heap (applyOp o rc) = heap rc /\ backlog (applyOp o rc) = backlog rc.
Proof.
  unfold knownOp. assert (Hn : forall p, bool_decide (is_Some (heap rc !! p)) = false -> heap rc !! p = None).
  { intros p Hp%bool_decide_eq_false. by apply eq_None_not_Some. }
  assert (Ha : forall f p, heap rc !! p = None -> alter f p (heap rc) = heap rc)
    by (intros f p Hp; apply alter_same; intros x Hx; congruence).
  destruct o as [h|h|ctx b p|p d c|p e|p e c|p c n|p e|p n| |]; simpl; try done; intros Hp%Hn; try (split; [by apply Ha|done]).
  - unfold WaitForResult. by rewrite Hp.
  - unfold CompleteWithData, completeAndCancel. by rewrite Hp.
  - unfold CompleteWithErrorAndCancel, completeAndCancel. by rewrite Hp.
  - unfold TrackFailedPeer. rewrite Hp. by destruct (IsStopped rc).
  - unfold ResetForNewPhase. destruct (IsStopped rc); [done|]. split; [by apply Ha|done].
Qed.

Lemma follows_ops l bound rc log :
  0 <= bound -> bound + Z.of_nat (length l) < 2 ^ 31 -> coord_wf bound rc -> follows bound rc log ->
  follows (bound + Z.of_nat (length l)) (applyOps l rc) (log ++ logOf l rc).
Proof.
  revert bound rc log. induction l as [|o l IH]; intros bound rc log H0 Hb Hw F; simpl in *.
  - by rewrite Z.add_0_r, app_nil_r.
  - replace (bound + Z.of_nat (S (length l))) with (bound + 1 + Z.of_nat (length l)) by lia.
    rewrite app_assoc. apply IH; [lia|lia|apply applyOp_wf; [lia|done]|]. destruct (knownOp o rc) eqn:Ek.
    + by apply follows_op; [lia|..].
    + rewrite app_nil_r. destruct (unknown_op o rc Ek) as [E1 E2]. apply (follows_weaken bound); [lia|].
      destruct F as [F1 F2 F3 F4]. by split; rewrite ?E1, ?E2.
Qed.

Lemma follows_new : follows 0 NewRequestCoordinator [].
Proof. split; simpl; try done. Qed.

(** ** The theorem *)

(** What a [WaitForResult] returns: the result, the error of the caller's context, or, if
    both are there, either; it blocks while there is neither. *)
Definition waitSpec (ctx : option sentinel) (preferDone : bool) (completion : option taskResult) : option (result bytes) :=
  match completion, ctx with
  | Some t, None => Some (outcome t)
  | None, Some c => Some (Err (ESent c))
  | Some t, Some c => Some (if preferDone then outcome t else Err (ESent c))
  | None, None => None
  end.

(** What the end of a wait cancels. *)
Definition cancelSpec (ctx : option sentinel) (s : reqSpec) : list CancelFunc :=
  match sp_cancel s, ctx with
  | Some k, Some _ => if decide (sp_waiters s = 1%nat) then [k] else []
  | _, _ => []
  end.

Lemma waitExit_cancelled ctx p rc r s bound :
  0 <= bound < 2 ^ 31 -> heap rc !! p = Some r -> matches r s -> Z.of_nat (sp_waiters s) <= bound ->
  cancelled (waitExit (bool_decide (ctx <> None)) p rc) = cancelSpec ctx s ++ cancelled rc.
Proof.
  intros Hb Hr M Hs. unfold waitExit, cancelSpec, DoneWaiter. rewrite Hr, (ma_waiters _ _ M), <- (ma_cancel _ _ M).
  destruct (Z.leb_spec (Z.of_nat (sp_waiters s)) 0) as [Hz|Hz]; simpl.
  { destruct (cancel r), ctx; rewrite ?decide_False by lia; done. }
  rewrite int64_id by (unfold in_int64; lia). unfold GetCancel. simpl.
  destruct (Z.eqb_spec (Z.of_nat (sp_waiters s) - 1) 0) as [E|E].
  - destruct (cancel r), ctx; rewrite ?decide_True by lia; done.
  - destruct (cancel r), ctx; rewrite ?decide_False by lia; done.
Qed.

(** C30. A coordinator answers by its history of calls, of fewer than 2^31.  A running one
    gives a caller the request its hash was given since it was last removed, or else a new
    one that the caller owns, and two hashes never have the same request.  A request has as
    many waiters as callers were given it and have not returned from waiting; as many
    failures, and the last error, as were tracked on a running coordinator since the last
    phase began; the number of peers that was last set; the result it was first completed
    with, which every wait returns, and none returns without a result unless its context is
    cancelled; tracking a failure says how many there are now, and whether these are all;
    and the last waiter to leave calls the cancel function that was last set, if its context
    is cancelled, and no other waiter does. *)
Theorem coordinator_follows_history l
    (Hl : Z.of_nat (length l) < 2 ^ 31) :
  let rc := applyOps l NewRequestCoordinator in
  let log := logOf l NewRequestCoordinator in
  (forall h, IsStopped rc = false ->
     match requestOf h log with
     | Some p => (GetOrCreateRequest h rc).1 = Ok (p, false)
     | None => exists p, (GetOrCreateRequest h rc).1 = Ok (p, true) /\ heap rc !! p = None
     end)
  /\ (forall h h' p, requestOf h log = Some p -> requestOf h' log = Some p -> h = h')
  /\ (forall h p, requestOf h log = Some p -> is_Some (heap rc !! p))
  /\ forall p r, heap rc !! p = Some r ->
       let s := specOf p log in
       GetWaiters r = Z.of_nat (sp_waiters s)
       /\ (IsStopped rc = false -> GetRequestState p rc = (Z.of_nat (sp_failures s), sp_total s, sp_last s))
       /\ (forall ctx preferDone, fst <$> WaitForResult ctx preferDone p rc = waitSpec ctx preferDone (sp_result s))
       /\ (forall e, IsStopped rc = false -> Z.of_nat (length l) < 2 ^ 31 - 1 ->
            (TrackFailedPeer p e rc).1
            = (Z.of_nat (S (sp_failures s)), sp_total s <=? Z.of_nat (S (sp_failures s))))
       /\ (forall ctx preferDone x rc', WaitForResult ctx preferDone p rc = Some (x, rc') ->
            cancelled rc' = cancelSpec ctx s ++ cancelled rc).
Proof.
  intros rc log. pose proof (applyOps_wf l 0 NewRequestCoordinator ltac:(lia) ltac:(lia) new_coord_wf) as Hw.
  pose proof (follows_ops l 0 NewRequestCoordinator [] ltac:(lia) ltac:(lia) new_coord_wf follows_new) as F.
  rewrite app_nil_l in F. rewrite Z.add_0_l in F, Hw. fold rc in Hw, F. fold log in F. split_and!.
  - intros h Hs. rewrite <- (fo_backlog _ _ _ F h). unfold GetOrCreateRequest. rewrite Hs.
    destruct (backlog rc !! h); [done|]. eexists. split; [done|].
    destruct (heap rc !! next rc) eqn:E; [|done]. assert (next rc < next rc)%nat; [|lia]. apply (cw_heap _ _ Hw). eauto.
  - intros h h' p. rewrite <- !(fo_backlog _ _ _ F). apply (cw_inj _ _ Hw).
  - intros h p. rewrite <- (fo_backlog _ _ _ F). intros Hp. by apply (cw_heap _ _ Hw), (cw_backlog _ _ Hw h).
  - intros p r Hp s. pose proof (fo_req _ _ _ F p r Hp) as M. fold s in M.
    destruct (fo_small _ _ _ F p) as [Hle _]. fold s in Hle. split_and!.
    + apply M.
    + intros Hs. unfold GetRequestState. rewrite Hs, Hp. unfold GetCompleted, GetTotalPeers, GetLastError. by destruct M as [_ -> -> -> _].
    + intros ctx b. unfold WaitForResult, GetDone, GetResult. rewrite Hp, (ma_done _ _ M), (ma_result _ _ M).
      by destruct (sp_result s), ctx.
    + intros e Hs Hb. unfold TrackFailedPeer. rewrite Hs, Hp.
      destruct (matches_track r s e (Z.of_nat (length l)) ltac:(lia) M Hle) as [-> _].
      unfold GetTotalPeers. simpl. by rewrite (ma_total _ _ M).
    + intros ctx b x rc' Hwt. destruct (fo_small _ _ _ F p) as [_ Hs].
      rewrite <- (waitExit_cancelled ctx p rc r s (Z.of_nat (length l)) ltac:(lia) Hp M Hs).
      unfold WaitForResult in Hwt. rewrite Hp in Hwt. destruct (GetDone r), ctx; by simplify_eq.
Qed.

(** A request that two callers share, one of whom gives up, two of whose peers fail and
    which is completed twice; then removed and asked for again. *)
Definition sharedHistory : list coordOp :=
  [OpGet (go "h"); OpGet (go "h"); OpInit 0 (Some 7%nat) 3; OpTrack 0 (ESent EOF); OpTrack 0 (ESent EOF);
   OpWait (Some Canceled) false 0; OpData 0 (go "x") None; OpError 0 (ESent EOF); OpRemove (go "h"); OpGet (go "h")].

Lemma coordinator_follows_history_witness :
  let rc := applyOps sharedHistory NewRequestCoordinator in
  (GetOrCreateRequest (go "h") rc).1 = Ok (1%nat, false)
  /\ fst <$> WaitForResult None true 0 rc = Some (Ok (go "x"))
  /\ GetRequestState 0 rc = (2, 3, Some (ESent EOF))
  /\ (TrackFailedPeer 0 (ESent EOF) rc).1 = (3, true).
Proof.
  destruct (coordinator_follows_history sharedHistory ltac:(simpl; lia)) as (H1 & _ & _ & H4).
  intros rc. split; [exact (H1 (go "h") eq_refl)|].
  destruct (heap rc !! 0%nat) as [r|] eqn:E; [|vm_compute in E; discriminate E].
  destruct (H4 0%nat r E) as (_ & H5 & H6 & H7 & _). split; [exact (H6 None true)|]. split; [exact (H5 eq_refl)|].
  apply (H7 (ESent EOF) eq_refl). simpl. lia.
Defined.
