(* ===== verification/Race.v ===== *)
(** * blob/transfer/peer_transfer/{executor, coordinator, phase}: one download as a machine

    The owner of a request runs the phases of phase/phase_manager.go (DHT peers, then
    fixed peers); each phase is a race of coordinator/peer_race_coordinator.go; the race
    submits one task of executor/peer_task_executor.go per peer to a worker pool; other
    callers join the request and wait.  Every access to shared memory is one step, and the
    owner, the tasks, the joiners, the clock and whoever stops components interleave
    freely: [step] runs one step of the goroutine an event names. *)
From stdpp Require Import base tactics list numbers strings gmap.
From Stdlib Require Import ZArith Lia Init.Byte.
From S2P Require Import Prelude GoStd Errors Blob Store Request.
Local Open Scope Z_scope.

(** ** Data *)

(** A download task is where it is in the function [createPeerTask] returns.  The
    result a task completes the request with, or the error it failed with, is kept in its
    position; [TCount] and [TPend] also keep how it got there. *)
Inductive taskEnd :=
  | EndEarly                  (* the check at the start said so *)
  | EndUntracked (e : error)  (* failed while the coordinator was stopped *)
  | EndFailed (e : error)     (* failed, and counted *)
  | EndData (d : bytes).      (* verified data *)

Inductive taskPc :=
  | TQueued                            (* in the worker pool's queue *)
  | TAbandoned                         (* its pool was stopped before it ran *)
  | TDownload                          (* in connMgr.DownloadFromPeer *)
  | TRemove (e : error)                (* handlePeerFailure: RemoveBadPeerFromHash *)
  | TTrack (e : error)                 (* TrackFailedPeer: IsStopped, SetLastError *)
  | TIncr (e : error)                  (* TrackFailedPeer: IncrementCompleted *)
  | TCheck (n : Z) (e : error)         (* TrackFailedPeer: completed >= GetTotalPeers *)
  | TOnce (r : taskEnd)                (* CompleteOnce *)
  | TCancel (r : taskEnd)              (* in it: raceCancel *)
  | TSet (r : taskEnd)                 (* in it: SetResult *)
  | TMark (r : taskEnd)                (* in it: MarkDone *)
  | TLeave (r : taskEnd)               (* leaving it *)
  | TCount (r : taskEnd)               (* completedTasks *)
  | TPend (r : taskEnd)                (* pendingTasks *)
  | TDone (r : taskEnd).

Inductive PhaseType := PhaseDHT | PhaseFixed.

#[export] Instance phase_eq_dec : EqDecision PhaseType.
Proof. solve_decision. Defined.

Section Data.
Context {Contact : Type}.

(** What the machine is run with: the hash, the contacts the discovery returns for it, the
    fixed peers and the test for them, the peer limit. *)
Record Config := mkConfig {
  cf_hash : bytes;
  cf_discover : result (list Contact);
  cf_fixed : list Contact;
  cf_isFixed : Contact -> bool;
  cf_maxPeers : Z
}.

(** A task of race [t_race] (the context it runs under) in pool [t_pool]. *)
Record Task := mkTask { t_contact : Contact; t_race : nat; t_pool : nat; t_pc : taskPc }.

(** Where the owner is. *)
Inductive mainPc :=
  | MStart                                                    (* ExecutePhases: IsStopped *)
  | MPhase (ph : PhaseType) (last : option error)             (* the loop over the phases *)
  | MReset (ph : PhaseType) (cs : list Contact)               (* ResetForNewPhase: IsStopped, SetCompleted *)
  | MReset2 (ph : PhaseType) (cs : list Contact)              (* SetTotalPeers *)
  | MReset3 (ph : PhaseType) (cs : list Contact)              (* SetLastError(nil) *)
  | MLimit (ph : PhaseType) (cs : list Contact)               (* executePhaseWithConfig *)
  | MRace (ph : PhaseType) (final : bool) (cs : list Contact) (* ExecuteRace: IsStopped, the context *)
  | MInit (ph : PhaseType) (final : bool) (cs : list Contact) (* InitializeRequest: SetCancel *)
  | MInit2 (ph : PhaseType) (final : bool) (cs : list Contact) (* SetTotalPeers *)
  | MTasks (ph : PhaseType) (final : bool) (cs : list Contact) (* ExecutePeerTasks: before the loop *)
  | MSubmit (ph : PhaseType) (final : bool) (pool : nat) (cs : list Contact)  (* its loop *)
  | MSubmitted (ph : PhaseType) (final : bool) (pool : nat) (c : Contact) (cs : list Contact) (* submittedTasks *)
  | MPending (ph : PhaseType) (final : bool) (pool : nat) (c : Contact) (cs : list Contact)   (* pendingTasks *)
  | MEnqueue (ph : PhaseType) (final : bool) (pool : nat) (c : Contact) (cs : list Contact)   (* Submit *)
  | MWait (ph : PhaseType) (final : bool)                     (* waitForRaceCompletion *)
  | MSleep (ph : PhaseType) (total : Z) (last : option error) (* all peers completed: the pause *)
  | MExit (ph : PhaseType) (r : result bytes)                 (* WaitForResult: DoneWaiter *)
  | MLeave (ph : PhaseType) (r : result bytes)                (* ExecuteRace: the deferred raceCancel *)
  | MReturn (r : result bytes).

(** A caller that joined the request. *)
Inductive joinPc := JWait | JExit (r : result bytes) | JReturn (r : result bytes).

(** The shared state.  [w_ctx] is the owner's [ctx.Err()], [w_races] that of each race
    context and [w_joins] pairs each joiner with its own; [w_pool] is the current worker
    pool, if there is one: a pool that is not current has been stopped. *)
Record World := mkWorld {
  w_req : BlobRequest;
  w_ctx : option sentinel;
  w_races : list (option sentinel);
  w_tasks : list Task;
  w_submitted : Z;
  w_completed : Z;
  w_pending : Z;
  w_pool : option nat;
  w_pools : nat;
  w_maxConcurrency : Z;
  w_removed : list Contact;
  w_coordStopped : bool;
  w_execStopped : bool;
  w_raceStopped : bool;
  w_phaseStopped : bool;
  w_main : mainPc;
  w_joins : list (option sentinel * joinPc)
}.

Definition setReq (r : BlobRequest) (w : World) : World :=
  mkWorld r (w_ctx w) (w_races w) (w_tasks w) (w_submitted w) (w_completed w) (w_pending w)
    (w_pool w) (w_pools w) (w_maxConcurrency w) (w_removed w) (w_coordStopped w)
    (w_execStopped w) (w_raceStopped w) (w_phaseStopped w) (w_main w) (w_joins w).
Definition setCtx (c : option sentinel) (w : World) : World :=
  mkWorld (w_req w) c (w_races w) (w_tasks w) (w_submitted w) (w_completed w) (w_pending w)
    (w_pool w) (w_pools w) (w_maxConcurrency w) (w_removed w) (w_coordStopped w)
    (w_execStopped w) (w_raceStopped w) (w_phaseStopped w) (w_main w) (w_joins w).
Definition setRaces (l : list (option sentinel)) (w : World) : World :=
  mkWorld (w_req w) (w_ctx w) l (w_tasks w) (w_submitted w) (w_completed w) (w_pending w)
    (w_pool w) (w_pools w) (w_maxConcurrency w) (w_removed w) (w_coordStopped w)
    (w_execStopped w) (w_raceStopped w) (w_phaseStopped w) (w_main w) (w_joins w).
Definition setTasks (l : list Task) (w : World) : World :=
  mkWorld (w_req w) (w_ctx w) (w_races w) l (w_submitted w) (w_completed w) (w_pending w)
    (w_pool w) (w_pools w) (w_maxConcurrency w) (w_removed w) (w_coordStopped w)
    (w_execStopped w) (w_raceStopped w) (w_phaseStopped w) (w_main w) (w_joins w).
Definition setCounts (s c p : Z) (w : World) : World :=
  mkWorld (w_req w) (w_ctx w) (w_races w) (w_tasks w) s c p
    (w_pool w) (w_pools w) (w_maxConcurrency w) (w_removed w) (w_coordStopped w)
    (w_execStopped w) (w_raceStopped w) (w_phaseStopped w) (w_main w) (w_joins w).
Definition setPool (p : option nat) (n : nat) (m : Z) (w : World) : World :=
  mkWorld (w_req w) (w_ctx w) (w_races w) (w_tasks w) (w_submitted w) (w_completed w) (w_pending w)
    p n m (w_removed w) (w_coordStopped w)
    (w_execStopped w) (w_raceStopped w) (w_phaseStopped w) (w_main w) (w_joins w).
Definition setRemoved (l : list Contact) (w : World) : World :=
  mkWorld (w_req w) (w_ctx w) (w_races w) (w_tasks w) (w_submitted w) (w_completed w) (w_pending w)
    (w_pool w) (w_pools w) (w_maxConcurrency w) l (w_coordStopped w)
    (w_execStopped w) (w_raceStopped w) (w_phaseStopped w) (w_main w) (w_joins w).
Definition setFlags (co ex ra ph : bool) (w : World) : World :=
  mkWorld (w_req w) (w_ctx w) (w_races w) (w_tasks w) (w_submitted w) (w_completed w) (w_pending w)
    (w_pool w) (w_pools w) (w_maxConcurrency w) (w_removed w) co ex ra ph (w_main w) (w_joins w).
Definition setMain (m : mainPc) (w : World) : World :=
  mkWorld (w_req w) (w_ctx w) (w_races w) (w_tasks w) (w_submitted w) (w_completed w) (w_pending w)
    (w_pool w) (w_pools w) (w_maxConcurrency w) (w_removed w) (w_coordStopped w)
    (w_execStopped w) (w_raceStopped w) (w_phaseStopped w) m (w_joins w).
Definition setJoins (l : list (option sentinel * joinPc)) (w : World) : World :=
  mkWorld (w_req w) (w_ctx w) (w_races w) (w_tasks w) (w_submitted w) (w_completed w) (w_pending w)
    (w_pool w) (w_pools w) (w_maxConcurrency w) (w_removed w) (w_coordStopped w)
    (w_execStopped w) (w_raceStopped w) (w_phaseStopped w) (w_main w) l.

(** A context cancelled once keeps its cause. *)
Definition cancelWith (c : sentinel) (o : option sentinel) : option sentinel :=
  match o with Some c' => Some c' | None => Some c end.
Definition cancelRace (k : nat) (c : sentinel) (w : World) : World :=
  setRaces (alter (cancelWith c) k (w_races w)) w.

(** [raceCtx.Err()] for race [k]. *)
Definition raceErr (k : nat) (w : World) : option sentinel :=
  match w_races w !! k with Some o => o | None => None end.
(** The race under way: the last one started. *)
Definition curRace (w : World) : nat := pred (length (w_races w)).

Definition isNone {A} (o : option A) : bool := match o with None => true | Some _ => false end.

End Data.

Arguments Config : clear implicits.
Arguments Task : clear implicits.
Arguments World : clear implicits.
Arguments mainPc : clear implicits.

(** ** executor/peer_task_executor.go *)

Module Executor.
Section Executor.
Context {Contact : Type}.

(** The pool [workerpool.New(n)]: its number is the next one. *)
Definition newPool (w : World Contact) : World Contact :=
  setPool (Some (w_pools w)) (S (w_pools w)) (w_maxConcurrency w) w.

(** [workerPool.Stop()]: the tasks of the pool that have not started never will. *)
Definition abandon (p : nat) (t : Task Contact) : Task Contact :=
  match t_pc t with
  | TQueued => if decide (t_pool t = p)
               then mkTask (t_contact t) (t_race t) (t_pool t) TAbandoned else t
  | _ => t
  end.
Definition stopPool (w : World Contact) : World Contact :=
  match w_pool w with
  | None => w
  | Some p => setPool None (w_pools w) (w_maxConcurrency w) (setTasks (abandon p <$> w_tasks w) w)
  end.

Definition createWorkerPool (w : World Contact) : World Contact :=
  match w_pool w with None => newPool w | Some _ => w end.
Definition getWorkerPool (w : World Contact) : option nat := w_pool w.

Definition IsStopped (w : World Contact) : bool := w_execStopped w.
Definition setStopped (b : bool) (w : World Contact) : World Contact :=
  setFlags (w_coordStopped w) b (w_raceStopped w) (w_phaseStopped w) w.
Definition Stop (w : World Contact) : World Contact :=
  if IsStopped w then w else stopPool (setStopped true w).
Definition Start (w : World Contact) : World Contact := setStopped false (createWorkerPool w).

Definition GetMaxConcurrency (w : World Contact) : Z := w_maxConcurrency w.
Definition SetMaxConcurrency (n : Z) (w : World Contact) : World Contact :=
  let n := if n <=? 0 then 1 else n in
  let w := setPool (w_pool w) (w_pools w) n w in
  match w_pool w with None => w | Some _ => newPool (stopPool w) end.

Definition GetTaskStats (w : World Contact) : Z * Z * Z := (w_submitted w, w_completed w, w_pending w).

(** A task of pool [p] that has not finished. *)
Definition unfinishedIn (p : nat) (t : Task Contact) : bool :=
  bool_decide (t_pool t = p) && match t_pc t with TDone _ | TAbandoned => false | _ => true end.

(** [WaitAllTasksComplete] at the moment [StopWait] returns; [None] while it blocks. *)
Definition WaitAllTasksComplete (w : World Contact) : option (result unit * World Contact) :=
  match w_pool w with
  | None => Some (Err (EMsg "worker pool is not available"), w)
  | Some p => if existsb (unfinishedIn p) (w_tasks w) then None
              else Some (Ok tt, newPool (stopPool w))
  end.

(** One turn of the loop of [WaitForCompletionWithContext], with the number of tasks
    submitted at its start: [None] when it goes round again. *)
Definition waitForCompletion (ctx : option sentinel) (submittedAtStart : Z) w
    : option (result unit) :=
  match ctx with
  | Some c => Some (Err (ESent c))
  | None =>
      let '(_, completed, pending) := GetTaskStats w in
      if (submittedAtStart =? 0) || ((submittedAtStart <=? completed) && (pending =? 0))
      then Some (Ok tt) else None
  end.

Definition shouldSkipTask (w : World Contact) : bool := GetDone (w_req w).
Definition shouldProceedWithTask (k : nat) (w : World Contact) : bool :=
  negb (GetDone (w_req w)) && isNone (raceErr k w).
Definition checkEarlyExit (k : nat) (w : World Contact) : bool :=
  GetDone (w_req w) || negb (isNone (raceErr k w)).

(** The result a task completes the request with. *)
Definition endResult (r : taskEnd) : taskResult :=
  match r with
  | EndData d => NewTaskResult d None
  | EndFailed e | EndUntracked e => NewTaskResult [] (Some e)
  | EndEarly => NewTaskResult [] None
  end.

(** What a task does with what the peer returned: verified data completes the request,
    anything else is a failure of the peer. *)
Definition received (hash : bytes) (d : result bytes) : option taskPc :=
  match d with
  | Ok data =>
      match VerifyBlobHash data hash with
      | Ok _ => Some (TOnce (EndData data))
      | Err _ => Some (TRemove (EMsg "peer blob %s"))
      | Panic _ => None
      end
  | Err e => Some (TRemove e)
  | Panic _ => None
  end.

Definition setPc (i : nat) (t : Task Contact) (pc : taskPc) (w : World Contact) : World Contact :=
  setTasks (<[i := mkTask (t_contact t) (t_race t) (t_pool t) pc]> (w_tasks w)) w.

(** One step of task [i] of [createPeerTask] and [handlePeerFailure]; [d] is what
    [DownloadFromPeer] returns.  [None] when the task is blocked or finished. *)
Definition taskStep (cfg : Config Contact) (d : result bytes) (i : nat) (w : World Contact) : option (World Contact) :=
  match w_tasks w !! i with
  | None => None
  | Some t =>
      let k := t_race t in
      let go_ pc w := Some (setPc i t pc w) in
      let req := w_req w in
      match t_pc t with
      | TQueued => go_ (if checkEarlyExit k w then TCount EndEarly else TDownload) w
      | TAbandoned => None
      | TDownload =>
          match received (cf_hash cfg) d with Some pc => go_ pc w | None => None end
      | TRemove e =>
          go_ (TTrack e)
            (if isNone (raceErr k w) && negb (cf_isFixed cfg (t_contact t))
             then setRemoved (t_contact t :: w_removed w) w else w)
      | TTrack e =>
          if w_coordStopped w then go_ (TCount (EndUntracked e)) w
          else go_ (TIncr e) (setReq (SetLastError (Some e) req) w)
      | TIncr e =>
          let '(n, req') := IncrementCompleted req in go_ (TCheck n e) (setReq req' w)
      | TCheck n e =>
          go_ (if GetTotalPeers req <=? n then TOnce (EndFailed e) else TCount (EndFailed e)) w
      | TOnce r =>
          match once req with
          | OnceNew => go_ (TCancel r) (setReq (setOnce OnceRunning req) w)
          | OnceRunning => None
          | OnceDone => go_ (TCount r) w
          end
      | TCancel r => go_ (TSet r) (cancelRace k Canceled w)
      | TSet r => go_ (TMark r) (setReq (SetResult (endResult r) req) w)
      | TMark r => go_ (TLeave r) (setReq (MarkDone req) w)
      | TLeave r => go_ (TCount r) (setReq (setOnce OnceDone req) w)
      | TCount r =>
          go_ (TPend r) (setCounts (w_submitted w) (w_completed w +i 1) (w_pending w) w)
      | TPend r =>
          go_ (TDone r) (setCounts (w_submitted w) (w_completed w) (w_pending w -i 1) w)
      | TDone _ => None
      end
  end.
End Executor.
End Executor.

(** ** phase/phase_manager.go and coordinator/peer_race_coordinator.go *)

Module Phases.

(** Which ready case of a [select] is taken. *)
Inductive pick := PickCtx | PickDone | PickTimer.

Section Phases.
Context {Contact : Type}.

(** The [GetContacts] of the two phases, with what the loop makes of an error. *)
Definition getContacts (cfg : Config Contact) (ph : PhaseType) : list Contact :=
  match ph with
  | PhaseDHT =>
      match cf_discover cfg with
      | Ok cs => List.filter (fun c => negb (cf_isFixed cfg c)) cs
      | _ => []
      end
  | PhaseFixed => cf_fixed cfg
  end.
Definition maxContacts (cfg : Config Contact) (ph : PhaseType) : Z :=
  match ph with PhaseDHT => cf_maxPeers cfg | PhaseFixed => Z.of_nat (length (cf_fixed cfg)) end.
Definition isFallback (ph : PhaseType) : bool := bool_decide (ph = PhaseFixed).
Definition shouldTryFixedPeers (cfg : Config Contact) : bool :=
  negb (length (cf_fixed cfg) =? 0)%nat.

(** The end of the loop, and its next turn. *)
Definition allFailed (last : option error) : mainPc Contact :=
  MReturn (Err (EMsg (match last with
                      | None => "blob not found from any peer source: no peers available"
                      | Some _ => "blob not found from any peer source: %v"
                      end))).
Definition nextPhase (ph : PhaseType) (last : option error) : mainPc Contact :=
  match ph with PhaseDHT => MPhase PhaseFixed last | PhaseFixed => allFailed last end.

(** [executePhaseWithConfig], up to the race. *)
Definition limitContacts (cfg : Config Contact) (ph : PhaseType) (cs : list Contact) : mainPc Contact :=
  let m := maxContacts cfg ph in
  if m <=? 0 then nextPhase ph (Some (EMsg "invalid maxContacts value %d for phase %s")) else
  let cs := if m <? Z.of_nat (length cs) then take (Z.to_nat m) cs else cs in
  MRace ph (isFallback ph || (length (cf_fixed cfg) =? 0)%nat) cs.

(** [ExecutePeerTasks] up to its loop. *)
Definition beforeSubmit (ph : PhaseType) (final : bool) (cs : list Contact) (w : World Contact) : mainPc Contact :=
  let failed e := MLeave ph (Err (EWrap "failed to execute peer tasks: %w" e)) in
  if Executor.IsStopped w then failed (EMsg "peer task executor is stopped")
  else if Executor.shouldSkipTask w then MWait ph final
  else match Executor.getWorkerPool w with
       | None => failed (EMsg "worker pool is not available")
       | Some p => if negb (isNone (raceErr (curRace w) w)) then MWait ph final
                   else if Executor.shouldSkipTask w then MWait ph final
                   else MSubmit ph final p cs
       end.

(** The two channels of [WaitForResult]. *)
Definition selectResult (p : pick) (ctx : option sentinel) (w : World Contact) : option (result bytes) :=
  match p, ctx with
  | PickCtx, Some c => Some (Err (ESent c))
  | PickDone, _ => if GetDone (w_req w) then Some (outcome (GetResult (w_req w))) else None
  | _, _ => None
  end.

(** The deferred function of [WaitForResult], for a caller with context [ctx]. *)
Definition leaveWait (ctx : option sentinel) (w : World Contact) : World Contact :=
  let '((n, ok), req) := DoneWaiter (w_req w) in
  let w := setReq req w in
  if ok && (n =? 0) && negb (isNone ctx)
  then match GetCancel req with Some k => cancelRace k Canceled w | None => w end
  else w.

(** [GetRequestState]. *)
Definition requestState (w : World Contact) : Z * Z * option error :=
  if w_coordStopped w then (0, 0, Some (EMsg "request coordinator is stopped"))
  else (GetCompleted (w_req w), GetTotalPeers (w_req w), GetLastError (w_req w)).

(** One turn of the loop of [waitForRaceCompletion] at a moment when a case is ready; a
    turn of the timer that finds peers still running goes round again. *)
Definition waitStep (p : pick) (ph : PhaseType) (final : bool) (w : World Contact) : option (World Contact) :=
  if final then
    match selectResult p (w_ctx w) w with Some r => Some (setMain (MExit ph r) w) | None => None end
  else
    match p with
    | PickTimer =>
        let '(completed, total, last) := requestState w in
        if total <=? completed then Some (setMain (MSleep ph total last) w) else Some w
    | _ => match selectResult p (w_ctx w) w with
           | Some r => Some (setMain (MLeave ph r) w) | None => None end
    end.

(** After the pause: the request's result if it is done, else the phase has failed. *)
Definition afterSleep (total : Z) (last : option error) (w : World Contact) : result bytes :=
  if GetDone (w_req w) then outcome (GetResult (w_req w))
  else match last with
       | Some e => if total =? 1 then Err e else Err (EMsg "all peers in this phase failed")
       | None => Err (EMsg "all peers in this phase failed")
       end.

(** The owner in [ExecuteRace]: the context of the race, [InitializeRequest], the start of
    [ExecutePeerTasks], and the deferred [raceCancel] on the way out. *)
Definition raceStep (w : World Contact) : option (World Contact) :=
  let goto m w := Some (setMain m w) in
  let updReq f w := setReq (f (w_req w)) w in
  match w_main w with
  | MRace ph final cs =>
      if w_raceStopped w then goto (nextPhase ph (Some (EMsg "peer race coordinator is stopped"))) w
      else match cs with
           | [] => goto (nextPhase ph (Some (EMsg "no peers available"))) w
           | _ => goto (MInit ph final cs) (setRaces (w_races w ++ [w_ctx w]) w)
           end
  | MInit ph final cs => goto (MInit2 ph final cs) (updReq (SetCancel (Some (curRace w))) w)
  | MInit2 ph final cs =>
      goto (MTasks ph final cs) (updReq (SetTotalPeers (int32 (Z.of_nat (length cs)))) w)
  | MTasks ph final cs => goto (beforeSubmit ph final cs w) w
  | MLeave ph r =>
      goto (match r with
            | Ok d => MReturn (Ok d)
            | Err e => nextPhase ph (Some e)
            | Panic y => MReturn (Panic y)
            end) (cancelRace (curRace w) Canceled w)
  | _ => None
  end.

(** The owner in the loop of [ExecutePeerTasks]. *)
Definition submitStep (w : World Contact) : option (World Contact) :=
  let goto m w := Some (setMain m w) in
  match w_main w with
  | MSubmit ph final _ [] => goto (MWait ph final) w
  | MSubmit ph final pool (c :: cs) =>
      goto (if Executor.shouldProceedWithTask (curRace w) w then MSubmitted ph final pool c cs
            else MSubmit ph final pool cs) w
  | MSubmitted ph final pool c cs =>
      goto (MPending ph final pool c cs)
        (setCounts (w_submitted w +i 1) (w_completed w) (w_pending w) w)
  | MPending ph final pool c cs =>
      goto (MEnqueue ph final pool c cs)
        (setCounts (w_submitted w) (w_completed w) (w_pending w +i 1) w)
  | MEnqueue ph final pool c cs =>
      if decide (w_pool w = Some pool)
      then goto (MSubmit ph final pool cs)
             (setTasks (w_tasks w ++ [mkTask c (curRace w) pool TQueued]) w)
      else goto (MReturn (Panic "send on closed channel")) w
  | _ => None
  end.

(** One step of the owner, from [ExecutePhases] to its return. *)
Definition mainStep (cfg : Config Contact) (p : pick) (w : World Contact) : option (World Contact) :=
  let goto m w := Some (setMain m w) in
  let updReq f w := setReq (f (w_req w)) w in
  match w_main w with
  | MStart =>
      goto (if w_phaseStopped w then MReturn (Err (EMsg "phase manager is stopped"))
            else MPhase PhaseDHT None) w
  | MPhase ph last =>
      match getContacts cfg ph with
      | [] => goto (nextPhase ph (Some (EMsg "no peers available for phase %s"))) w
      | c :: cs =>
          if isFallback ph && negb (shouldTryFixedPeers cfg) then goto (nextPhase ph last) w
          else goto (MReset ph (c :: cs)) w
      end
  | MReset ph cs =>
      if w_coordStopped w then goto (MLimit ph cs) w
      else goto (MReset2 ph cs) (updReq (SetCompleted 0) w)
  | MReset2 ph cs => goto (MReset3 ph cs) (updReq (SetTotalPeers (int32 (Z.of_nat (length cs)))) w)
  | MReset3 ph cs => goto (MLimit ph cs) (updReq (SetLastError None) w)
  | MLimit ph cs => goto (limitContacts cfg ph cs) w
  | MRace _ _ _ | MInit _ _ _ | MInit2 _ _ _ | MTasks _ _ _ | MLeave _ _ => raceStep w
  | MSubmit _ _ _ _ | MSubmitted _ _ _ _ _ | MPending _ _ _ _ _ | MEnqueue _ _ _ _ _ => submitStep w
  | MWait ph final => waitStep p ph final w
  | MSleep ph total last => goto (MLeave ph (afterSleep total last w)) w
  | MExit ph r => goto (MLeave ph r) (leaveWait (w_ctx w) w)
  | MReturn _ => None
  end.

(** One step of joiner [i]. *)
Definition joinStep (p : pick) (i : nat) (w : World Contact) : option (World Contact) :=
  match w_joins w !! i with
  | None => None
  | Some (ctx, j) =>
      let goto j w := Some (setJoins (<[i := (ctx, j)]> (w_joins w)) w) in
      match j with
      | JWait => match selectResult p ctx w with Some r => goto (JExit r) w | None => None end
      | JExit r => goto (JReturn r) (leaveWait ctx w)
      | JReturn _ => None
      end
  end.
End Phases.
End Phases.
Import Phases.

(** ** The machine *)

(** What may happen next: a goroutine runs, a context ends, a caller joins, or somebody
    stops, starts or reconfigures a component. *)
Inductive event :=
  | EvMain (p : pick)
  | EvTask (i : nat) (d : result bytes)
  | EvJoiner (i : nat) (p : pick)
  | EvJoin
  | EvCancel (c : sentinel)
  | EvJoinCancel (i : nat) (c : sentinel)
  | EvTimeout (k : nat)
  | EvPropagate (k : nat)
  | EvCoordinator (stop : bool)
  | EvRace (stop : bool)
  | EvPhase (stop : bool)
  | EvExecutor (stop : bool)
  | EvSetMaxConcurrency (n : Z)
  | EvWaitAll.

Section Machine.
Context {Contact : Type}.


Definition step (cfg : Config Contact) (ev : event) (w : World Contact) : option (World Contact) :=
  match ev with
  | EvMain p => mainStep cfg p w
  | EvTask i d => Executor.taskStep cfg d i w
  | EvJoiner i p => joinStep p i w
  | EvJoin =>
      match w_main w with
      | MReturn _ => None
      | _ => if w_coordStopped w then None
             else Some (setJoins (w_joins w ++ [(None, JWait)]) (setReq (AddWaiter (w_req w)) w))
      end
  | EvCancel c => Some (setCtx (cancelWith c (w_ctx w)) w)
  | EvJoinCancel i c =>
      Some (setJoins (alter (fun j => (cancelWith c j.1, j.2)) i (w_joins w)) w)
  | EvTimeout k => Some (cancelRace k DeadlineExceeded w)
  | EvPropagate k => match w_ctx w with Some c => Some (cancelRace k c w) | None => None end
  | EvCoordinator b =>
      Some (setFlags b (w_execStopped w) (w_raceStopped w) (w_phaseStopped w) w)
  | EvRace b =>
      Some (setFlags (w_coordStopped w) (w_execStopped w) b (w_phaseStopped w) w)
  | EvPhase b =>
      Some (setFlags (w_coordStopped w) (w_execStopped w) (w_raceStopped w) b w)
  | EvExecutor b => Some (if b then Executor.Stop w else Executor.Start w)
  | EvSetMaxConcurrency n => Some (Executor.SetMaxConcurrency n w)
  | EvWaitAll => snd <$> Executor.WaitAllTasksComplete w
  end.

(** A schedule, run to its end; [None] if some event is not enabled. *)
Fixpoint run (cfg : Config Contact) (l : list event) (w : World Contact) : option (World Contact) :=
  match l with
  | [] => Some w
  | ev :: l => match step cfg ev w with Some w' => run cfg l w' | None => None end
  end.

(** The request as [GetOrCreateRequest] gives it to its owner, with an executor that has
    been constructed ([NewPeerTaskExecutor]) with concurrency [n]. *)
Definition newExecutorConcurrency (n : Z) : Z := if n <=? 0 then 5 else n.
Definition initial (n : Z) : World Contact :=
  mkWorld (setWaitersField 1 NewBlobRequest) None [] [] 0 0 0 (Some 0%nat) 1
    (newExecutorConcurrency n) [] false false false false MStart [].

Definition reachable (cfg : Config Contact) (n : Z) (w : World Contact) : Prop :=
  exists l, run cfg l (initial n) = Some w.

Lemma run_app cfg l l' w :
  run cfg (l ++ l') w = match run cfg l w with Some w' => run cfg l' w' | None => None end.
Proof. revert w. induction l as [|ev l IH]; intros w; simpl; [done|]. by destruct (step cfg ev w). Qed.

(** Rule induction on the reachable states. *)
Lemma reachable_ind cfg n (P : World Contact -> Prop) :
  P (initial n) ->
  (forall w ev w', reachable cfg n w -> P w -> step cfg ev w = Some w' -> P w') ->
  forall w, reachable cfg n w -> P w.
Proof.
  intros H0 HS w [l Hl]. revert w Hl. induction l as [|ev l IH] using rev_ind; intros w Hl.
  - simpl in Hl. by simplify_eq.
  - rewrite run_app in Hl. destruct (run cfg l (initial n)) as [w1|] eqn:E; [|done].
    simpl in Hl. destruct (step cfg ev w1) as [w2|] eqn:E2; simplify_eq.
    eapply HS; [by exists l|by apply IH|done].
Qed.
End Machine.
