(* ===== verification/RaceInv.v ===== *)
(** * Invariants of a download

    What every reachable state of the machine of Race.v satisfies, whatever the schedule:
    how the request is completed, what its callers are told, and what the counters
    count. *)
From stdpp Require Import base tactics list numbers strings gmap.
From Stdlib Require Import ZArith Lia Init.Byte.
From S2P Require Import Prelude GoStd Errors Blob Store Request Race.
Import Phases.
Local Open Scope Z_scope.

(** ** What steps change *)

(** The part of a request that its completion decides. *)
Definition completion (r : BlobRequest) : Once * bool * bool * taskResult :=
  (once r, done r, doneOnce r, result_ r).

(** The task is inside [CompleteOnce]. *)
Definition inOnce (pc : taskPc) : bool :=
  match pc with TCancel _ | TSet _ | TMark _ | TLeave _ => true | _ => false end.

(** How a task can end a request: with data that hashes to what was asked for, or with the
    error of a counted failure. *)
Definition goodEnd (hash : bytes) (r : taskEnd) : Prop :=
  match r with
  | EndData d => VerifyBlobHash d hash = Ok tt
  | EndFailed _ => True
  | EndEarly | EndUntracked _ => False
  end.
Definition goodPc (hash : bytes) (pc : taskPc) : Prop :=
  match pc with
  | TOnce r | TCancel r | TSet r | TMark r | TLeave r => goodEnd hash r
  | _ => True
  end.

(** What a caller has been told agrees with the request. *)
Definition told (req : BlobRequest) (r : result bytes) : Prop :=
  match r with
  | Ok d => done req = true /\ result_ req = mkTaskResult d None
  | Err _ => True
  | Panic _ => False
  end.

(** Opens [step] into one case per step, with the successor written out. *)
Ltac step_cases H :=
  unfold step, Executor.taskStep, mainStep, raceStep, submitStep, joinStep, waitStep, Executor.WaitAllTasksComplete,
    Executor.received in H;
  repeat (case_match; try discriminate H); simplify_eq/=.

Section Invariants.
Context {Contact : Type}.
Implicit Types (w : World Contact) (t : Task Contact) (l : list (Task Contact)).

Lemma DoneWaiter_completion r : completion (DoneWaiter r).2 = completion r.
Proof. unfold DoneWaiter. by destruct (_ <=? _). Qed.

Lemma leaveWait_frame ctx w :
  completion (w_req (leaveWait ctx w)) = completion (w_req w)
  /\ completed (w_req (leaveWait ctx w)) = completed (w_req w)
  /\ totalPeers (w_req (leaveWait ctx w)) = totalPeers (w_req w)
  /\ w_tasks (leaveWait ctx w) = w_tasks w /\ w_main (leaveWait ctx w) = w_main w
  /\ w_joins (leaveWait ctx w) = w_joins w
  /\ (w_submitted (leaveWait ctx w), w_completed (leaveWait ctx w), w_pending (leaveWait ctx w))
     = (w_submitted w, w_completed w, w_pending w)
  /\ length (w_races (leaveWait ctx w)) = length (w_races w)
  /\ (ctx = None -> w_races (leaveWait ctx w) = w_races w).
Proof.
  unfold leaveWait. pose proof (DoneWaiter_completion (w_req w)) as Hc.
  assert (completed (DoneWaiter (w_req w)).2 = completed (w_req w)
          /\ totalPeers (DoneWaiter (w_req w)).2 = totalPeers (w_req w)) as [H1 H2].
  { unfold DoneWaiter. by destruct (_ <=? _). }
  destruct (DoneWaiter (w_req w)) as [[n ok] q]; simpl in *.
  destruct (ok && _ && _) eqn:E; [|by repeat split].
  destruct (GetCancel q); simpl; rewrite ?length_alter; repeat split; auto; intros ->;
    by rewrite andb_false_r in E.
Qed.

(** What a caller that joins changes. *)
Lemma evJoin_eq cfg w w' :
  step cfg EvJoin w = Some w' ->
  w' = setJoins (w_joins w ++ [(None, JWait)]) (setReq (AddWaiter (w_req w)) w).
Proof. simpl. intros H. destruct (w_main w); try done; by destruct (w_coordStopped w); simplify_eq. Qed.

(** The tasks after a step of anybody but a task. *)
Inductive tasksOther l : list (Task Contact) -> Prop :=
  | ToSame : tasksOther l l
  | ToSubmit c k p : tasksOther l (l ++ [mkTask c k p TQueued])
  | ToAbandon p : tasksOther l (Executor.abandon p <$> l).

Lemma stopPool_tasks w :
  w_tasks (Executor.stopPool w) = w_tasks w
  \/ exists p, w_tasks (Executor.stopPool w) = Executor.abandon p <$> w_tasks w.
Proof. unfold Executor.stopPool. destruct (w_pool w); simpl; eauto. Qed.

Lemma stopPool_frame w :
  w_req (Executor.stopPool w) = w_req w /\ w_main (Executor.stopPool w) = w_main w
  /\ w_joins (Executor.stopPool w) = w_joins w /\ w_races (Executor.stopPool w) = w_races w
  /\ w_ctx (Executor.stopPool w) = w_ctx w
  /\ Executor.GetTaskStats (Executor.stopPool w) = Executor.GetTaskStats w.
Proof. unfold Executor.stopPool. by destruct (w_pool w). Qed.

(** The lifecycle operations of the executor touch nothing but pools, flags and the tasks
    they abandon. *)
Definition isExecOp (ev : event) : bool :=
  match ev with EvExecutor _ | EvSetMaxConcurrency _ | EvWaitAll => true | _ => false end.

Lemma exec_frame cfg ev w w' :
  isExecOp ev = true -> step cfg ev w = Some w' ->
  w_req w' = w_req w /\ w_main w' = w_main w /\ w_joins w' = w_joins w
  /\ w_races w' = w_races w /\ w_ctx w' = w_ctx w
  /\ Executor.GetTaskStats w' = Executor.GetTaskStats w
  /\ (w_tasks w' = w_tasks w \/ exists p, w_tasks w' = Executor.abandon p <$> w_tasks w).
Proof.
  intros Hev H. destruct ev; try discriminate Hev; simpl in H.
  - injection H as <-. destruct stop.
    + unfold Executor.Stop. destruct (Executor.IsStopped w); [by repeat split; left|].
      pose proof (stopPool_frame (Executor.setStopped true w)).
      pose proof (stopPool_tasks (Executor.setStopped true w)). by intuition.
    + unfold Executor.Start, Executor.createWorkerPool.
      destruct (w_pool w); by repeat split; left.
  - injection H as <-. unfold Executor.SetMaxConcurrency. cbv zeta.
    set (w1 := setPool _ _ _ _).
    pose proof (stopPool_frame w1). pose proof (stopPool_tasks w1).
    destruct (w_pool w1) eqn:Ep; [by intuition|]. by repeat split; left.
  - unfold Executor.WaitAllTasksComplete in H. destruct (w_pool w); [|].
    + destruct (existsb _ _); simplify_eq/=.
      pose proof (stopPool_frame w). pose proof (stopPool_tasks w). by intuition.
    + simplify_eq/=. by repeat split; left.
Qed.

(** A step of anybody but a task leaves the completion of the request alone. *)
Lemma other_frame cfg ev w w' :
  (forall i d, ev <> EvTask i d) -> step cfg ev w = Some w' ->
  completion (w_req w') = completion (w_req w) /\ tasksOther (w_tasks w) (w_tasks w').
Proof.
  intros Hev H. destruct (isExecOp ev) eqn:He.
  { destruct (exec_frame cfg ev w w' He H) as (-> & _ & _ & _ & _ & _ & Ht).
    split; [done|]. destruct Ht as [->|[p ->]]; constructor. }
  destruct ev; try discriminate He; try (by destruct (Hev i d)); step_cases H;
    try (split; [done|constructor]);
    try (match goal with |- context [leaveWait ?c ?x] =>
      destruct (leaveWait_frame c x) as (E1 & _ & _ & -> & _); split; [done|constructor] end).
Qed.

(** ** Completion *)

(** Where the request is, by the state of its [once]: nobody inside and nothing set; one
    task inside, which has set what its position says; or completed. *)
Definition onceState (hash : bytes) (req : BlobRequest) l : Prop :=
  match once req with
  | OnceNew =>
      done req = false /\ result_ req = mkTaskResult [] None
      /\ forall i t, l !! i = Some t -> inOnce (t_pc t) = false
  | OnceRunning =>
      exists i t, l !! i = Some t
      /\ (forall j t', l !! j = Some t' -> inOnce (t_pc t') = true -> j = i)
      /\ match t_pc t with
         | TCancel r | TSet r => done req = false /\ result_ req = mkTaskResult [] None
         | TMark r => done req = false /\ result_ req = Executor.endResult r
         | TLeave r => done req = true /\ result_ req = Executor.endResult r
         | _ => False
         end
  | OnceDone =>
      done req = true /\ forall i t, l !! i = Some t -> inOnce (t_pc t) = false
  end.

Record compl_inv (hash : bytes) w : Prop := {
  ci_once : onceState hash (w_req w) (w_tasks w);
  ci_chan : done (w_req w) = doneOnce (w_req w);
  ci_good i t : w_tasks w !! i = Some t -> goodPc hash (t_pc t);
  ci_result : done (w_req w) = true ->
    exists r, goodEnd hash r /\ result_ (w_req w) = Executor.endResult r
}.

(** The invariant reads only the completion of the request and the tasks; tasks that are
    not in [CompleteOnce] may come, go and move outside it. *)
Lemma onceState_ext hash req req' l l' :
  completion req = completion req' ->
  (forall i t', l' !! i = Some t' -> inOnce (t_pc t') = true ->
     exists t, l !! i = Some t /\ t_pc t' = t_pc t) ->
  (forall i t, l !! i = Some t -> inOnce (t_pc t) = true ->
     exists t', l' !! i = Some t' /\ t_pc t' = t_pc t) ->
  onceState hash req l -> onceState hash req' l'.
Proof.
  intros [= E1 E2 E3 E4] Hback Hfwd. unfold onceState. rewrite E1, E2, E4.
  assert (Hno : (forall i t, l !! i = Some t -> inOnce (t_pc t) = false) ->
    forall i t, l' !! i = Some t -> inOnce (t_pc t) = false).
  { intros Hl i t' Hi. destruct (inOnce (t_pc t')) eqn:E; [|done].
    destruct (Hback i t' Hi E) as (t & Ht & Hpc). rewrite Hpc in E. by rewrite (Hl i t Ht) in E. }
  destruct (once req').
  - intros (H1 & H2 & H3). split_and!; [done|done|by apply Hno].
  - intros (i & t & Hi & Hu & Hm).
    assert (inOnce (t_pc t) = true) as Hin by (destruct (t_pc t); done).
    destruct (Hfwd i t Hi Hin) as (t' & Hi' & Hpc). exists i, t'. split; [done|].
    rewrite Hpc. split; [|done]. intros j u Hj Hu'.
    destruct (Hback j u Hj Hu') as (v & Hv & Hpc'). apply (Hu j v Hv). congruence.
  - intros [H1 H2]. split; [done|by apply Hno].
Qed.

Lemma tasksOther_back l l' i t' :
  tasksOther l l' -> l' !! i = Some t' ->
  (exists t, l !! i = Some t /\ (t_pc t' = t_pc t \/ (t_pc t = TQueued /\ t_pc t' = TAbandoned)))
  \/ t_pc t' = TQueued.
Proof.
  intros [|c k p|p] Hi.
  - eauto.
  - apply lookup_app_Some in Hi as [Hi|[_ Hi]]; [eauto|].
    apply list_lookup_singleton_Some in Hi as [_ <-]. auto.
  - rewrite list_lookup_fmap in Hi. destruct (l !! i) as [t|] eqn:E; simplify_eq/=.
    left. exists t. split; [done|]. unfold Executor.abandon.
    destruct (t_pc t) eqn:Ep; auto. case_decide; auto.
Qed.

Lemma tasksOther_fwd l l' i t :
  tasksOther l l' -> l !! i = Some t -> t_pc t <> TQueued ->
  exists t', l' !! i = Some t' /\ t_pc t' = t_pc t.
Proof.
  intros [|c k p|p] Hi Hn; [eauto| |].
  - exists t. by rewrite (lookup_app_l_Some _ _ _ _ Hi).
  - rewrite list_lookup_fmap, Hi. simpl. eexists. split; [done|].
    unfold Executor.abandon. destruct (t_pc t) eqn:Ep; by rewrite ?Ep.
Qed.

Lemma compl_other hash cfg ev w w' :
  (forall i d, ev <> EvTask i d) -> step cfg ev w = Some w' ->
  compl_inv hash w -> compl_inv hash w'.
Proof.
  intros Hev H [Ho Hc Hg Hr]. destruct (other_frame cfg ev w w' Hev H) as [E Ht].
  pose proof E as [= E1 E2 E3 E4]. split.
  - eapply onceState_ext; [by symmetry|..|exact Ho].
    + intros i t' Hi Hin. destruct (tasksOther_back _ _ _ _ Ht Hi) as [(t & ? & [?|[? Ep]])|Ep];
        [eauto|by rewrite Ep in Hin|by rewrite Ep in Hin].
    + intros i t Hi Hin. apply (tasksOther_fwd _ _ _ _ Ht Hi). intros Ep. by rewrite Ep in Hin.
  - by rewrite E2, E3.
  - intros i t' Hi. destruct (tasksOther_back _ _ _ _ Ht Hi) as [(t & Hi' & [->|[? ->]])| ->]; eauto.
    all: done.
  - by rewrite E2, E4.
Qed.

(** A move of task [i] outside [CompleteOnce]. *)
Lemma onceState_move hash req req' l i t t' :
  completion req = completion req' -> l !! i = Some t ->
  inOnce (t_pc t) = false -> inOnce (t_pc t') = false ->
  onceState hash req l -> onceState hash req' (<[i := t']> l).
Proof.
  intros E Hi H1 H2. apply onceState_ext; [done|..]; intros j u Hj Hu;
    (destruct (decide (i = j)) as [<-|Hne]; [|rewrite ?list_lookup_insert_ne in * by done; eauto]).
  - rewrite list_lookup_insert_eq in Hj by (by eapply lookup_lt_Some). simplify_eq.
    by rewrite H2 in Hu.
  - simplify_eq. by rewrite H1 in Hu.
Qed.

(** The one task inside [CompleteOnce] goes on: it stays the only one. *)
Lemma onceState_running hash req l i t :
  onceState hash req l -> l !! i = Some t -> inOnce (t_pc t) = true ->
  once req = OnceRunning
  /\ (forall j t', l !! j = Some t' -> inOnce (t_pc t') = true -> j = i)
  /\ match t_pc t with
     | TCancel r | TSet r => done req = false /\ result_ req = mkTaskResult [] None
     | TMark r => done req = false /\ result_ req = Executor.endResult r
     | TLeave r => done req = true /\ result_ req = Executor.endResult r
     | _ => False
     end.
Proof.
  unfold onceState. intros Ho Hi Hin. destruct (once req).
  - destruct Ho as (_ & _ & Ho). by rewrite (Ho i t Hi) in Hin.
  - destruct Ho as (j & u & Hj & Hu & Hm). assert (i = j) as -> by eauto.
    simplify_eq. auto.
  - destruct Ho as (_ & Ho). by rewrite (Ho i t Hi) in Hin.
Qed.

Lemma only_insert l i t' :
  (forall j u, l !! j = Some u -> inOnce (t_pc u) = true -> j = i) ->
  forall j u, <[i := t']> l !! j = Some u -> inOnce (t_pc u) = true -> j = i.
Proof.
  intros Hu j u Hj. destruct (decide (j = i)); [done|].
  rewrite list_lookup_insert_ne in Hj by done. eauto.
Qed.

Lemma none_insert l i t' :
  inOnce (t_pc t') = false ->
  (forall j u, l !! j = Some u -> inOnce (t_pc u) = true -> j = i) ->
  forall j u, <[i := t']> l !! j = Some u -> inOnce (t_pc u) = false.
Proof.
  intros Ht Hu j u Hj. destruct (inOnce (t_pc u)) eqn:E; [|done].
  assert (j = i) as -> by (by eapply only_insert).
  apply list_lookup_insert_Some in Hj as [(_ & <- & _)|[? _]]; congruence.
Qed.

Lemma good_insert hash l i t' :
  (forall j u, l !! j = Some u -> goodPc hash (t_pc u)) -> goodPc hash (t_pc t') ->
  forall j u, <[i := t']> l !! j = Some u -> goodPc hash (t_pc u).
Proof.
  intros Hl Ht j u [(_ & <- & _)|[_ Hj]]%list_lookup_insert_Some; eauto.
Qed.

(** The invariant after a task moved outside [CompleteOnce]. *)
Lemma compl_move hash w w' i t t' :
  compl_inv hash w -> w_tasks w !! i = Some t -> w_tasks w' = <[i := t']> (w_tasks w) ->
  inOnce (t_pc t) = false -> inOnce (t_pc t') = false -> goodPc hash (t_pc t') ->
  completion (w_req w) = completion (w_req w') ->
  compl_inv hash w'.
Proof.
  intros [Ho Hc Hg Hr] Hi Et H1 H2 H3 E. pose proof E as [= E1 E2 E3 E4]. split.
  - rewrite Et. by eapply onceState_move.
  - by rewrite <- E2, <- E3.
  - rewrite Et. by apply good_insert.
  - by rewrite <- E2, <- E4.
Qed.

(** Closes the case of a task that moves outside [CompleteOnce]. *)
#[local] Ltac outside_once Hpc :=
  eapply compl_move; [eassumption|eassumption|reflexivity|by rewrite Hpc|done|simpl; auto|done].

Lemma compl_task cfg i d w w' :
  compl_inv (cf_hash cfg) w -> Executor.taskStep cfg d i w = Some w' ->
  compl_inv (cf_hash cfg) w'.
Proof.
  intros Hinv H. unfold Executor.taskStep in H.
  destruct (w_tasks w !! i) as [t|] eqn:Hi; [|done]. pose proof Hinv as [Ho Hc Hg Hr].
  assert (Hlt : (i < length (w_tasks w))%nat) by (by eapply lookup_lt_Some).
  assert (Hgi := Hg i t Hi).
  destruct (t_pc t) as [| | |e|e|e|n e|r|r|r|r|r|r|r|r] eqn:Hpc; simplify_eq/=.
  - destruct (Executor.checkEarlyExit _ _); simplify_eq; by outside_once Hpc.
  - unfold Executor.received in H.
    destruct d as [b|e|]; [destruct (VerifyBlobHash b _) as [[]| |] eqn:Ev| |];
      simplify_eq/=; by outside_once Hpc.
  - destruct (_ && _); by outside_once Hpc.
  - destruct (w_coordStopped w); simplify_eq; by outside_once Hpc.
  - by outside_once Hpc.
  - destruct (_ <=? _); by outside_once Hpc.
  - destruct (once (w_req w)) eqn:Eo; simplify_eq/=; [|by outside_once Hpc].
    unfold onceState in Ho. rewrite Eo in Ho. destruct Ho as (Hd & Hn & Hno).
    split; simpl; [|done|by apply good_insert|done].
    exists i. eexists. split; [by apply list_lookup_insert_eq|]. split; [|done].
    apply only_insert. intros j u Hj. by rewrite (Hno j u Hj).
  - destruct (onceState_running _ _ _ _ _ Ho Hi) as (Eo & Hu & Hm); [by rewrite Hpc|].
    rewrite Hpc in Hm. split; simpl; [|done|by apply good_insert|done].
    unfold onceState. simpl. rewrite Eo. exists i. eexists.
    split; [by apply list_lookup_insert_eq|]. split; [by apply only_insert|done].
  - destruct (onceState_running _ _ _ _ _ Ho Hi) as (Eo & Hu & Hm); [by rewrite Hpc|].
    rewrite Hpc in Hm. destruct Hm as [Hd Hm].
    split; simpl; [|done|by apply good_insert|by rewrite Hd].
    unfold onceState. simpl. rewrite Eo. exists i. eexists.
    split; [by apply list_lookup_insert_eq|]. split; [by apply only_insert|done].
  - destruct (onceState_running _ _ _ _ _ Ho Hi) as (Eo & Hu & Hm); [by rewrite Hpc|].
    rewrite Hpc in Hm. destruct Hm as [Hd Hm]. unfold MarkDone. rewrite <- Hc, Hd.
    split; simpl; [|done|by apply good_insert|eauto].
    unfold onceState. simpl. rewrite Eo. exists i. eexists.
    split; [by apply list_lookup_insert_eq|]. split; [by apply only_insert|done].
  - destruct (onceState_running _ _ _ _ _ Ho Hi) as (Eo & Hu & Hm); [by rewrite Hpc|].
    rewrite Hpc in Hm. destruct Hm as [Hd Hm].
    split; simpl; [|done|by apply good_insert|done].
    split; [done|]. by apply none_insert.
  - by outside_once Hpc.
  - by outside_once Hpc.
Qed.

Lemma initial_compl hash n : compl_inv hash (initial (Contact:=Contact) n).
Proof. split; simpl; try done. Qed.

Lemma compl_step cfg ev w w' :
  compl_inv (cf_hash cfg) w -> step cfg ev w = Some w' -> compl_inv (cf_hash cfg) w'.
Proof.
  intros Hinv H. destruct ev; try (by eapply compl_other; eauto). by eapply compl_task.
Qed.

Lemma compl_reachable cfg n w : reachable cfg n w -> compl_inv (cf_hash cfg) w.
Proof.
  apply reachable_ind; [apply initial_compl|]. intros. by eapply compl_step.
Qed.

(** Once the channel is closed, it stays closed and the result stays what it is. *)
Lemma done_stable cfg ev w w' :
  compl_inv (cf_hash cfg) w -> step cfg ev w = Some w' -> done (w_req w) = true ->
  done (w_req w') = true /\ result_ (w_req w') = result_ (w_req w).
Proof.
  intros Hinv H Hd. assert (Hev : (exists i d, ev = EvTask i d) \/ (forall i d, ev <> EvTask i d)).
  { destruct ev; try (by right). left. eauto. }
  destruct Hev as [(i & d & ->)|Hev].
  2:{ destruct (other_frame cfg ev w w') as [[= E1 E2 E3 E4] _]; [done|done|].
      by rewrite E2, E4. }
  simpl in H. unfold Executor.taskStep in H.
  destruct (w_tasks w !! i) as [t|] eqn:Hi; [|done]. destruct Hinv as [Ho Hc _ _].
  assert (Hin : inOnce (t_pc t) = true -> exists r, t_pc t = TLeave r).
  { intros Hin. destruct (onceState_running _ _ _ _ _ Ho Hi Hin) as (_ & _ & Hm).
    rewrite Hd in Hm. destruct (t_pc t); naive_solver. }
  destruct (t_pc t) eqn:Hpc; simplify_eq/=; try done;
    try (destruct Hin as [? ?]; [done|discriminate]);
    repeat (case_match; simplify_eq/=); done.
Qed.

(** ** What the callers are told *)

Definition mainTold w : Prop :=
  match w_main w with
  | MExit _ r | MLeave _ r => told (w_req w) r
  | MReturn (Ok d) => told (w_req w) (Ok d)
  | _ => True
  end.
Definition joinTold (req : BlobRequest) (j : option sentinel * joinPc) : Prop :=
  match j.2 with JExit r | JReturn r => told req r | JWait => True end.

Record told_inv w : Prop := {
  ti_main : mainTold w;
  ti_joins i j : w_joins w !! i = Some j -> joinTold (w_req w) j
}.

Lemma told_mono req req' r :
  (done req = true -> done req' = true /\ result_ req' = result_ req) -> told req r -> told req' r.
Proof. intros Hm. destruct r; simpl; try done. intros [Hd Hr]. destruct (Hm Hd). by rewrite H0. Qed.

Lemma outcome_told req : done req = true -> told req (outcome (result_ req)).
Proof.
  intros Hd. unfold outcome, GetErr, GetData. destruct (result_ req) as [b [e|]] eqn:E; simpl; by rewrite ?E.
Qed.

Lemma selectResult_told p ctx w r : selectResult p ctx w = Some r -> told (w_req w) r.
Proof.
  unfold selectResult, GetDone, GetResult. destruct p, ctx; try done.
  all: try (destruct (done (w_req w)) eqn:E; [|done]); intros [= <-]; simpl; try done.
  all: by apply outcome_told.
Qed.

Lemma afterSleep_told n e w : told (w_req w) (afterSleep n e w).
Proof.
  unfold afterSleep, GetDone, GetResult. destruct (done (w_req w)) eqn:E; [by apply outcome_told|].
  destruct e as [e|]; [by destruct (n =? 1)|done].
Qed.

Lemma nextPhase_told ph e w : mainTold (setMain (nextPhase ph e) w).
Proof. by destruct ph, e. Qed.
Lemma limitContacts_told cfg ph cs w : mainTold (setMain (limitContacts cfg ph cs) w).
Proof. unfold limitContacts. destruct (_ <=? _); [apply nextPhase_told|done]. Qed.
Lemma beforeSubmit_told ph final cs w w1 : mainTold (setMain (beforeSubmit ph final cs w) w1).
Proof. unfold beforeSubmit. by repeat case_match. Qed.

(** The owner is told only what the request holds. *)
Lemma mainStep_told cfg p w w' :
  mainStep cfg p w = Some w' -> mainTold w ->
  (done (w_req w) = true -> done (w_req w') = true /\ result_ (w_req w') = result_ (w_req w)) ->
  mainTold w'.
Proof.
  intros H Ht Hm. unfold mainStep, raceStep, submitStep, waitStep in H.
  destruct (w_main w) eqn:Em; simplify_eq/=; try done;
    try (repeat (case_match; simplify_eq/=); try done;
         first [apply nextPhase_told | apply limitContacts_told | apply beforeSubmit_told]; done).
  - destruct final; [|destruct p].
    1: destruct (selectResult p (w_ctx w) w) eqn:Er; [injection H as <-|done];
         exact (selectResult_told _ _ _ _ Er).
    1: destruct (selectResult PickCtx (w_ctx w) w) eqn:Er; [injection H as <-|done];
         exact (selectResult_told _ _ _ _ Er).
    1: destruct (selectResult PickDone (w_ctx w) w) eqn:Er; [injection H as <-|done];
         exact (selectResult_told _ _ _ _ Er).
    destruct (requestState w) as [[??]?]. by destruct (_ <=? _); simplify_eq.
  - exact (afterSleep_told _ _ _).
  - unfold mainTold in *. rewrite Em in Ht. simpl. by eapply told_mono.
  - unfold mainTold in *. rewrite Em in Ht. destruct r; simpl; try done. by destruct ph.
Qed.

Lemma joinStep_told p i w w' :
  joinStep p i w = Some w' ->
  w_main w' = w_main w
  /\ ((forall k j, w_joins w !! k = Some j -> joinTold (w_req w) j) ->
      (done (w_req w) = true -> done (w_req w') = true /\ result_ (w_req w') = result_ (w_req w)) ->
      forall k j, w_joins w' !! k = Some j -> joinTold (w_req w') j).
Proof.
  unfold joinStep. intros H. destruct (w_joins w !! i) as [[ctx j]|] eqn:Hi; [|done].
  destruct j as [|r|r]; [|injection H as <-|done].
  - destruct (selectResult p ctx w) as [r|] eqn:Er; simplify_eq/=. split; [done|].
    intros Hj _ k j [(_ & <- & _)|[_ Hk]]%list_lookup_insert_Some; [|by eauto].
    by eapply selectResult_told.
  - destruct (leaveWait_frame ctx w) as (_ & _ & _ & _ & Em & Ej & _). split; [done|].
    simpl. rewrite Ej. intros Hj Hm k j.
    intros [(_ & <- & _)|[_ Hk]]%list_lookup_insert_Some; unfold joinTold.
    + apply (told_mono (w_req w)); [done|]. apply (Hj _ _ Hi).
    + specialize (Hj k j Hk). unfold joinTold in Hj. destruct j.2; try done;
        by apply (told_mono (w_req w)).
Qed.

Lemma told_frame w w' :
  w_main w' = w_main w -> w_joins w' = w_joins w ->
  (done (w_req w) = true -> done (w_req w') = true /\ result_ (w_req w') = result_ (w_req w)) ->
  told_inv w -> told_inv w'.
Proof.
  intros Em Ej Hm [H1 H2]. split.
  - unfold mainTold in *. rewrite Em. destruct (w_main w) as [| | | | | | | | | | | | | | | | | |[]];
      try done; by eapply told_mono.
  - rewrite Ej. intros i j Hi. specialize (H2 i j Hi). unfold joinTold in *.
    destruct j.2; try done; by eapply told_mono.
Qed.

Lemma told_step cfg ev w w' :
  compl_inv (cf_hash cfg) w -> told_inv w -> step cfg ev w = Some w' -> told_inv w'.
Proof.
  intros Hc Ht H. pose proof (done_stable cfg ev w w' Hc H) as Hm.
  destruct (isExecOp ev) eqn:He.
  { destruct (exec_frame cfg ev w w' He H) as (_ & Em & Ej & _). by apply (told_frame w). }
  destruct ev; try discriminate He; simpl in H.
  - destruct Ht as [H1 H2]. assert (w_joins w' = w_joins w) as Ej.
    { unfold mainStep, raceStep, submitStep, waitStep in H. destruct (w_main w); simplify_eq/=;
        repeat (case_match; simplify_eq/=); try done. apply leaveWait_frame. }
    split; [by eapply mainStep_told|]. rewrite Ej. intros i j Hi. specialize (H2 i j Hi).
    unfold joinTold in *. destruct j.2; try done; by eapply told_mono.
  - apply (told_frame w); try done; unfold Executor.taskStep in H; repeat (case_match; simplify_eq/=); done.
  - destruct Ht as [H1 H2]. destruct (joinStep_told p i w w' H) as [Em Hj]. split; [|by eapply Hj].
    unfold mainTold in *. rewrite Em. destruct (w_main w) as [| | | | | | | | | | | | | | | | | |[]];
      try done; by eapply told_mono.
  - apply (evJoin_eq cfg) in H as ->.
    destruct Ht as [H1 H2]. split; [done|]. simpl.
    intros i j [Hi|[_ Hi]]%lookup_app_Some; [by apply (H2 i)|].
    by apply list_lookup_singleton_Some in Hi as [_ <-].
  - injection H as <-. by apply (told_frame w).
  - injection H as <-. destruct Ht as [H1 H2]. split; [done|]. simpl. intros k j Hk.
    destruct (decide (i = k)) as [<-|Hne].
    + rewrite list_lookup_alter_eq in Hk. destruct (w_joins w !! i) as [j'|] eqn:E; simplify_eq/=.
      by apply (H2 _ _ E).
    + rewrite list_lookup_alter_ne in Hk by done. eauto.
  - injection H as <-. by apply (told_frame w).
  - destruct (w_ctx w); simplify_eq. by apply (told_frame w).
  - injection H as <-. by apply (told_frame w).
  - injection H as <-. by apply (told_frame w).
  - injection H as <-. by apply (told_frame w).
Qed.

Lemma told_reachable cfg n w : reachable cfg n w -> told_inv w.
Proof.
  revert w. apply reachable_ind; [by split|]. intros w ev w' Hr Ht H.
  eapply told_step; [by eapply compl_reachable|done|done].
Qed.

(** ** The executor's counters *)

Definition counted t : Z := match t_pc t with TPend _ | TDone _ => 1 | _ => 0 end.
Definition unfinished t : Z := match t_pc t with TDone _ => 0 | _ => 1 end.
(** Tasks the owner has counted and not yet submitted. *)
Definition ahead (n m : Z) w : Z :=
  match w_main w with
  | MPending _ _ _ _ _ => n
  | MEnqueue _ _ _ _ _ | MReturn (Panic _) => m
  | _ => 0
  end.

Record count_inv w : Prop := {
  co_submitted : w_submitted w = int64 (Z.of_nat (length (w_tasks w)) + ahead 1 1 w);
  co_completed : w_completed w = int64 (sumZ counted (w_tasks w));
  co_pending : w_pending w = int64 (sumZ unfinished (w_tasks w) + ahead 0 1 w)
}.

Lemma int64_sub_mod a b : int64 (int64 a - b) = int64 (a - b).
Proof. rewrite <- !Z.add_opp_r. apply int64_add_mod. Qed.

Lemma sumZ_list_insert {A} (f : A -> Z) (k : list A) i x y :
  k !! i = Some x -> sumZ f (<[i := y]> k) = sumZ f k - f x + f y.
Proof.
  revert i. induction k as [|z k IH]; intros [|i] Hi; simplify_eq/=; [lia|].
  rewrite (IH i Hi). lia.
Qed.

Lemma sumZ_fmap_ext {A} (f : A -> Z) (g : A -> A) (k : list A) :
  (forall x, f (g x) = f x) -> sumZ f (g <$> k) = sumZ f k.
Proof.
  intros H. induction k as [|x k IH]; [done|]. rewrite fmap_cons.
  change (f (g x) + sumZ f (g <$> k) = f x + sumZ f k). by rewrite H, IH.
Qed.

Lemma abandon_counts p t :
  counted (Executor.abandon p t) = counted t /\ unfinished (Executor.abandon p t) = unfinished t.
Proof.
  unfold Executor.abandon, counted, unfinished. destruct (t_pc t) eqn:E; try by rewrite ?E.
  case_decide; by rewrite ?E.
Qed.

Lemma count_frame w w' :
  (w_tasks w' = w_tasks w \/ exists p, w_tasks w' = Executor.abandon p <$> w_tasks w) ->
  Executor.GetTaskStats w' = Executor.GetTaskStats w ->
  ahead 1 1 w' = ahead 1 1 w -> ahead 0 1 w' = ahead 0 1 w -> count_inv w -> count_inv w'.
Proof.
  intros Ht [= E1 E2 E3] A1 A2 [H1 H2 H3].
  assert (length (w_tasks w') = length (w_tasks w)
    /\ sumZ counted (w_tasks w') = sumZ counted (w_tasks w)
    /\ sumZ unfinished (w_tasks w') = sumZ unfinished (w_tasks w)) as (L1 & L2 & L3).
  { destruct Ht as [->|[p ->]]; [done|]. rewrite length_fmap, !sumZ_fmap_ext; [done|..];
      intros; apply abandon_counts. }
  split; by rewrite ?E1, ?E2, ?E3, ?L1, ?L2, ?L3, ?A1, ?A2.
Qed.

Lemma count_task cfg i d w w' :
  count_inv w -> Executor.taskStep cfg d i w = Some w' -> count_inv w'.
Proof.
  intros [H1 H2 H3] H. unfold Executor.taskStep in H.
  destruct (w_tasks w !! i) as [t|] eqn:Hi; [|done].
  assert (forall t', sumZ counted (<[i := t']> (w_tasks w))
    = sumZ counted (w_tasks w) - counted t + counted t') as S1
    by (intros; by apply sumZ_list_insert).
  assert (forall t', sumZ unfinished (<[i := t']> (w_tasks w))
    = sumZ unfinished (w_tasks w) - unfinished t + unfinished t') as S2
    by (intros; by apply sumZ_list_insert).
  assert (C : (counted t, unfinished t)
    = match t_pc t with TDone _ => (1, 0) | TPend _ => (1, 1) | _ => (0, 1) end)
    by (unfold counted, unfinished; by destruct (t_pc t)).
  destruct (t_pc t) eqn:Hpc; injection C as C1 C2; rewrite C1 in S1; rewrite C2 in S2;
    unfold Executor.received in H; simplify_eq/=; repeat (case_match; simplify_eq/=);
    (split; simpl; rewrite ?length_insert, ?S1, ?S2; cbn [counted unfinished t_pc];
     rewrite ?H1, ?H2, ?H3, ?int64_add_mod, ?int64_sub_mod; try done; f_equal;
     unfold ahead; simpl; lia).
Qed.

(** A step of the owner that neither counts nor submits a task. *)
Lemma count_quiet w m w' :
  w_tasks w' = w_tasks w -> Executor.GetTaskStats w' = Executor.GetTaskStats w ->
  ahead 1 1 w = 0 -> ahead 0 1 w = 0 -> w_main w' = m ->
  match m with MPending _ _ _ _ _ | MEnqueue _ _ _ _ _ | MReturn (Panic _) => False | _ => True end ->
  count_inv w -> count_inv w'.
Proof.
  intros Et Es A1 A2 Em Hm. apply count_frame; [by left|done|..]; unfold ahead in *; rewrite Em;
    by destruct m as [| | | | | | | | | | | | | | | | | |[]].
Qed.

Lemma count_main cfg p w w' :
  count_inv w -> told_inv w -> mainStep cfg p w = Some w' -> count_inv w'.
Proof.
  intros Hc [Ht _] H. pose proof Hc as [H1 H2 H3]. unfold mainTold in Ht.
  pose proof (leaveWait_frame (w_ctx w) w) as (_ & _ & _ & Et & _ & _ & Es & _).
  assert (A : (ahead 1 1 w, ahead 0 1 w) = match w_main w with
    | MPending _ _ _ _ _ => (1, 0) | MEnqueue _ _ _ _ _ | MReturn (Panic _) => (1, 1)
    | _ => (0, 0) end) by (unfold ahead; by destruct (w_main w) as [| | | | | | | | | | | | | | | | | |[]]).
  unfold mainStep, raceStep, submitStep, waitStep in H.
  destruct (w_main w) eqn:Em; try done; injection A as A1 A2; simplify_eq/=;
    try (eapply (count_quiet w); [| |done|done|reflexivity| |done]; simpl;
         first [done | unfold limitContacts, beforeSubmit, nextPhase, allFailed; by repeat case_match]);
    try (repeat (case_match; simplify_eq/=); try exact Hc; eapply (count_quiet w); try done; simpl;
         try reflexivity; unfold limitContacts, beforeSubmit, nextPhase, allFailed; by repeat case_match).
  - split; simpl; unfold ahead; simpl; try done.
    + rewrite H1, A1, int64_add_mod. f_equal. lia.
    + by rewrite H3, A2.
  - split; simpl; unfold ahead; simpl; try done.
    + by rewrite H1, A1.
    + rewrite H3, A2, int64_add_mod. f_equal. lia.
  - rewrite A1 in H1. rewrite A2 in H3. destruct (decide (w_pool w = Some pool)); simplify_eq/=.
    + split; unfold ahead; simpl; rewrite ?length_app, ?sumZ_app.
      * rewrite H1. f_equal. simpl. lia.
      * rewrite H2. f_equal. simpl. unfold counted. simpl. lia.
      * rewrite H3. f_equal. simpl. unfold unfinished. simpl. lia.
    + by split; unfold ahead; simpl.
  - eapply (count_quiet w); [done|unfold Executor.GetTaskStats; simpl; congruence|done|done|reflexivity|done|done].
Qed.

Lemma count_step cfg ev w w' :
  count_inv w -> told_inv w -> step cfg ev w = Some w' -> count_inv w'.
Proof.
  intros Hc Ht H. destruct (isExecOp ev) eqn:He.
  { destruct (exec_frame cfg ev w w' He H) as (_ & Em & _ & _ & _ & Es & Hto).
    assert (forall a b, ahead a b w' = ahead a b w) as Ha by (intros; unfold ahead; by rewrite Em).
    by apply (count_frame w). }
  destruct ev; try discriminate He; simpl in H; try (by eapply count_main); try (by eapply count_task);
    try (injection H as <-; by apply (count_frame w); auto).
  - unfold joinStep in H. destruct (w_joins w !! i) as [[ctx j]|]; [|done].
    destruct j as [|r|r]; [|injection H as <-|done].
    + destruct (selectResult p ctx w); simplify_eq. by apply (count_frame w); auto.
    + destruct (leaveWait_frame ctx w) as (_ & _ & _ & Et & Em & _ & Es & _).
      apply (count_frame w); [by left|done|..|done]; unfold ahead; simpl; by rewrite Em.
  - apply (evJoin_eq cfg) in H as ->.
    by apply (count_frame w); auto.
  - destruct (w_ctx w); simplify_eq. by apply (count_frame w); auto.
Qed.

Lemma count_reachable cfg n w : reachable cfg n w -> count_inv w.
Proof.
  revert w. apply reachable_ind; [by split|]. intros w ev w' Hr Hc H.
  eapply count_step; [done|by eapply told_reachable|done].
Qed.

Lemma sumZ_unfinished l : 0 <= sumZ unfinished l <= Z.of_nat (length l).
Proof.
  induction l as [|t l IH]; simpl; [done|]. unfold unfinished at 1 3. destruct (t_pc t); lia.
Qed.
Lemma sumZ_counted l : 0 <= sumZ counted l <= Z.of_nat (length l).
Proof.
  induction l as [|t l IH]; simpl; [done|]. unfold counted at 1 3. destruct (t_pc t); lia.
Qed.

Definition finished t : Prop := match t_pc t with TDone _ => True | _ => False end.

Lemma unfinished_zero l : sumZ unfinished l = 0 <-> Forall finished l.
Proof.
  induction l as [|t l IH]; [done|]. rewrite Forall_cons, <- IH.
  change (unfinished t + sumZ unfinished l = 0 <-> finished t /\ sumZ unfinished l = 0).
  pose proof (sumZ_unfinished l). unfold unfinished at 1, finished. destruct (t_pc t); simpl; naive_solver lia.
Qed.

Lemma finished_counted l : Forall finished l -> sumZ counted l = Z.of_nat (length l).
Proof.
  induction 1 as [|t l Ht Hl IH]; [done|]. change (counted t + sumZ counted l = Z.of_nat (S (length l))).
  rewrite IH. unfold counted, finished in *. destruct (t_pc t); try done. lia.
Qed.

(** An abandoned task stays abandoned. *)
Lemma abandoned_step cfg ev w w' i t :
  w_tasks w !! i = Some t -> t_pc t = TAbandoned -> step cfg ev w = Some w' ->
  exists t', w_tasks w' !! i = Some t' /\ t_pc t' = TAbandoned.
Proof.
  intros Hi Hpc H. assert (Hev : (exists j d, ev = EvTask j d) \/ (forall j d, ev <> EvTask j d)).
  { destruct ev; try (by right). left. eauto. }
  destruct Hev as [(j & d & ->)|Hev].
  - assert (j <> i /\ exists t', w_tasks w' = <[j := t']> (w_tasks w)) as [Hj [t' ->]].
    { simpl in H. unfold Executor.taskStep, Executor.received in H.
      destruct (w_tasks w !! j) as [u|] eqn:Hj; [|done]. split.
      - intros ->. simplify_eq. by rewrite Hpc in H.
      - repeat (case_match; simplify_eq/=); eauto. }
    exists t. by rewrite list_lookup_insert_ne.
  - destruct (other_frame cfg ev w w' Hev H) as [_ Ht].
    destruct (tasksOther_fwd _ _ _ _ Ht Hi) as (t' & ? & E); [by rewrite Hpc|].
    exists t'. by rewrite E.
Qed.

(** ** Theorems *)

(** C24. Whatever the schedule, the callers agree on data that is what they asked for: if
    the owner or a caller that joined returns data, its hash is the hash of the request,
    the request is completed, and that data is the request's result, so all of them return
    the same. *)
Theorem callers_agree (cfg : Config Contact) m w :
  reachable cfg m w ->
  (forall d, w_main w = MReturn (Ok d) \/ (exists i c, w_joins w !! i = Some (c, JReturn (Ok d))) ->
     VerifyBlobHash d (cf_hash cfg) = Ok tt
     /\ GetDone (w_req w) = true /\ outcome (GetResult (w_req w)) = Ok d).
Proof.
  intros Hr d H. pose proof (told_reachable cfg m w Hr) as [Hm Hj].
  assert (told (w_req w) (Ok d)) as [Hd Hres].
  { destruct H as [E|(i & c & Hi)]; [unfold mainTold in Hm; by rewrite E in Hm|apply (Hj _ _ Hi)]. }
  destruct (ci_result _ _ (compl_reachable cfg m w Hr) Hd) as (r & Hg & E).
  unfold GetDone, outcome, GetErr, GetData, GetResult. rewrite Hres in E |- *.
  destruct r; try done; injection E as <-; done.
Qed.

(** The result is final: once the request of a reachable state is done, no further
    schedule reopens it or changes what it holds. *)
Theorem result_is_final (cfg : Config Contact) m w (l : list event) w' :
  reachable cfg m w -> GetDone (w_req w) = true -> run cfg l w = Some w' ->
  GetDone (w_req w') = true /\ outcome (GetResult (w_req w')) = outcome (GetResult (w_req w)).
Proof.
  intros Hr Hd. assert (Hc : compl_inv (cf_hash cfg) w) by (by eapply compl_reachable).
  clear Hr. revert w Hd Hc. induction l as [|ev l IH]; intros w Hd Hc Hrun; simpl in Hrun; [by simplify_eq|].
  destruct (step cfg ev w) as [w1|] eqn:E; [|done].
  destruct (done_stable cfg ev w w1 Hc E Hd) as [Hd1 Hr1].
  destruct (IH w1 Hd1) as [H1 H2]; [by eapply compl_step|done|].
  split; [done|]. rewrite H2. unfold GetResult. by rewrite Hr1.
Qed.

(** What [WaitForCompletion] waits for: between submissions, it returns success exactly
    when every task handed to the executor has run to its end. *)
Theorem wait_for_completion_exact (cfg : Config Contact) m w s :
  reachable cfg m w -> Z.of_nat (length (w_tasks w)) < 2 ^ 63 - 1 ->
  ahead 0 1 w = 0 -> 0 < s <= Z.of_nat (length (w_tasks w)) ->
  (Executor.waitForCompletion None s w = Some (Ok tt) <-> Forall finished (w_tasks w)).
Proof.
  intros Hr Hl Ha Hs. destruct (count_reachable cfg m w Hr) as [_ H2 H3].
  pose proof (sumZ_unfinished (w_tasks w)) as B1. pose proof (sumZ_counted (w_tasks w)) as B2.
  rewrite Ha, int64_id in H3 by (unfold in_int64; lia). rewrite int64_id in H2 by (unfold in_int64; lia).
  unfold Executor.waitForCompletion, Executor.GetTaskStats. rewrite H2, H3, Z.add_0_r.
  rewrite (proj2 (Z.eqb_neq s 0)) by lia. rewrite <- unfinished_zero. simpl orb.
  split.
  - destruct (Z.leb_spec s (sumZ counted (w_tasks w))), (Z.eqb_spec (sumZ unfinished (w_tasks w)) 0); done.
  - intros E. assert (sumZ counted (w_tasks w) = Z.of_nat (length (w_tasks w))) as ->
      by (by apply finished_counted, unfinished_zero).
    rewrite E. by rewrite (proj2 (Z.leb_le _ _)) by lia.
Qed.

(** Replacing the worker pool loses tasks for good: from a state in which a queued task
    was abandoned (by [SetMaxConcurrency] or [Stop]), no schedule leads to a state in which
    [WaitForCompletion] returns success, because the task stays pending. *)
Theorem abandoned_blocks_completion (cfg : Config Contact) m w i t (l : list event) w' s :
  reachable cfg m w -> w_tasks w !! i = Some t -> t_pc t = TAbandoned ->
  run cfg l w = Some w' -> Z.of_nat (length (w_tasks w')) < 2 ^ 63 - 1 -> s <> 0 ->
  Executor.waitForCompletion None s w' <> Some (Ok tt).
Proof.
  intros [l0 Hl0] Hi Hpc Hrun Hl Hs.
  assert (exists t', w_tasks w' !! i = Some t' /\ t_pc t' = TAbandoned) as (t' & Hi' & Hpc').
  { clear Hl0 Hl. revert w t Hi Hpc Hrun. induction l as [|ev l IH]; intros w t Hi Hpc Hrun; simpl in Hrun.
    - simplify_eq. eauto.
    - destruct (step cfg ev w) as [w1|] eqn:E; [|done].
      destruct (abandoned_step _ _ _ _ _ _ Hi Hpc E) as (t1 & H1 & H2). by eapply IH. }
  assert (Hr' : reachable cfg m w') by (exists (l0 ++ l); by rewrite run_app, Hl0).
  destruct (count_reachable cfg m w' Hr') as [_ H2 H3].
  pose proof (sumZ_unfinished (w_tasks w')) as B1.
  assert (0 <= ahead 0 1 w' <= 1) as Ha.
  { unfold ahead. destruct (w_main w') as [| | | | | | | | | | | | | | | | | |[]]; lia. }
  rewrite int64_id in H3 by (unfold in_int64; lia).
  assert (sumZ unfinished (w_tasks w') <> 0) as Hne.
  { intros E. apply unfinished_zero in E. rewrite Forall_lookup in E. specialize (E i t' Hi').
    unfold finished in E. by rewrite Hpc' in E. }
  unfold Executor.waitForCompletion, Executor.GetTaskStats. rewrite H3.
  rewrite (proj2 (Z.eqb_neq s 0)) by done.
  rewrite (proj2 (Z.eqb_neq (_ + _) 0)) by lia. by rewrite andb_false_r.
Qed.
End Invariants.

(** A download from one peer that has the blob, with a second caller. *)
Definition sampleConfig : Config nat :=
  mkConfig (Hash (go "x")) (Ok [1%nat]) [] (fun _ => false) 5.
Definition sampleRun : list event :=
  EvJoin :: repeat (EvMain PickDone) 15 ++ repeat (EvTask 0 (Ok (go "x"))) 9
  ++ [EvJoiner 0 PickDone; EvJoiner 0 PickDone].
Definition sampleEnd : list event := repeat (EvMain PickDone) 3.

(** Run a schedule and test the state it leads to. *)
Definition endsIn {Contact} (cfg : Config Contact) (m : Z) (l : list event)
    (P : World Contact -> Prop) : Prop :=
  match run cfg l (initial m) with Some w => P w | None => False end.

Lemma callers_agree_witness :
  endsIn sampleConfig 1 (sampleRun ++ sampleEnd) (fun w =>
    w_main w = MReturn (Ok (go "x")) /\ w_joins w = [(None, JReturn (Ok (go "x")))]
    /\ VerifyBlobHash (go "x") (cf_hash sampleConfig) = Ok tt
    /\ GetDone (w_req w) = true /\ outcome (GetResult (w_req w)) = Ok (go "x")).
Proof.
  unfold endsIn. destruct (run sampleConfig (sampleRun ++ sampleEnd) (initial 1)) as [w|] eqn:E;
    [|vm_compute in E; discriminate E].
  assert (E' := E). vm_compute in E'. injection E' as E'.
  assert (Em : w_main w = MReturn (Ok (go "x"))) by (rewrite <- E'; reflexivity).
  split; [exact Em|]. split; [rewrite <- E'; reflexivity|].
  apply (callers_agree sampleConfig 1 w); [exists (sampleRun ++ sampleEnd); exact E|left; exact Em].
Defined.

Lemma result_is_final_witness :
  endsIn sampleConfig 1 sampleRun (fun w =>
    match run sampleConfig sampleEnd w with
    | Some w' => GetDone (w_req w') = true
        /\ outcome (GetResult (w_req w')) = outcome (GetResult (w_req w))
    | None => False
    end).
Proof.
  unfold endsIn. destruct (run sampleConfig sampleRun (initial 1)) as [w|] eqn:E;
    [|vm_compute in E; discriminate E].
  assert (E' := E). vm_compute in E'. injection E' as E'.
  destruct (run sampleConfig sampleEnd w) as [w'|] eqn:E2;
    [|rewrite <- E' in E2; vm_compute in E2; discriminate E2].
  apply (result_is_final sampleConfig 1 w sampleEnd w'); [exists sampleRun; exact E| |exact E2].
  rewrite <- E'. reflexivity.
Defined.

Lemma wait_for_completion_exact_witness :
  endsIn sampleConfig 1 (sampleRun ++ sampleEnd) (fun w =>
    Executor.waitForCompletion None 1 w = Some (Ok tt) <-> Forall finished (w_tasks w)).
Proof.
  unfold endsIn. destruct (run sampleConfig (sampleRun ++ sampleEnd) (initial 1)) as [w|] eqn:E;
    [|vm_compute in E; discriminate E].
  assert (E' := E). vm_compute in E'. injection E' as E'.
  apply (wait_for_completion_exact sampleConfig 1 w 1).
  - exists (sampleRun ++ sampleEnd). exact E.
  - rewrite <- E'. simpl. lia.
  - rewrite <- E'. reflexivity.
  - rewrite <- E'. simpl. lia.
Defined.

Lemma abandoned_blocks_completion_witness :
  endsIn sampleConfig 1 (repeat (EvMain PickDone) 15 ++ [EvSetMaxConcurrency 2]) (fun w =>
    match run sampleConfig [EvCancel Canceled; EvMain PickCtx] w with
    | Some w' => Executor.waitForCompletion None 1 w' <> Some (Ok tt)
    | None => False
    end).
Proof.
  unfold endsIn.
  destruct (run sampleConfig (repeat (EvMain PickDone) 15 ++ [EvSetMaxConcurrency 2]) (initial 1))
    as [w|] eqn:E; [|vm_compute in E; discriminate E].
  assert (E' := E). vm_compute in E'. injection E' as E'.
  destruct (run sampleConfig [EvCancel Canceled; EvMain PickCtx] w) as [w'|] eqn:E2;
    [|rewrite <- E' in E2; vm_compute in E2; discriminate E2].
  apply (abandoned_blocks_completion sampleConfig 1 w 0 (mkTask 1%nat 0 0 TAbandoned)
    [EvCancel Canceled; EvMain PickCtx]); [|rewrite <- E'; reflexivity|reflexivity|exact E2| |lia].
  - exists (repeat (EvMain PickDone) 15 ++ [EvSetMaxConcurrency 2]). exact E.
  - rewrite <- E' in E2. vm_compute in E2. injection E2 as <-. simpl. lia.
Defined.
