(* ===== verification/RaceFail.v ===== *)
(** * When a download fails

    With one source of peers (the DHT, or the fixed peers), a request completes with an
    error only after every peer within the limit has been tried and has failed. *)
From stdpp Require Import base tactics list numbers strings gmap.
From Stdlib Require Import ZArith Lia Init.Byte.
From S2P Require Import Prelude GoStd Errors Blob Store Request Race RaceInv.
Import Phases.
Local Open Scope Z_scope.

Section Fail.
Context {Contact : Type}.
Implicit Types (w : World Contact) (t : Task Contact) (l : list (Task Contact)).

(** ** Failed peers *)

Definition isFailed (r : taskEnd) : bool := match r with EndFailed _ => true | _ => false end.

(** The peer has failed, and the request has counted it. *)
Definition failedPc (pc : taskPc) : bool :=
  match pc with
  | TCheck _ _ => true
  | TOnce r | TCancel r | TSet r | TMark r | TLeave r | TCount r | TPend r | TDone r => isFailed r
  | _ => false
  end.
Definition failedT t : Z := if failedPc (t_pc t) then 1 else 0.
Definition failures l : Z := sumZ failedT l.

(** The task is completing the request with the error of a failure. *)
Definition failing (pc : taskPc) : bool :=
  match pc with
  | TOnce r | TCancel r | TSet r | TMark r | TLeave r => isFailed r
  | _ => false
  end.

Lemma failures_insert l i t t' :
  l !! i = Some t -> failures (<[i := t']> l) = failures l - failedT t + failedT t'.
Proof. apply sumZ_list_insert. Qed.

Lemma failures_bounds l : 0 <= failures l <= Z.of_nat (length l).
Proof.
  unfold failures. induction l as [|t l IH]; simpl; [done|]. unfold failedT at 1 3. destruct (failedPc _); lia.
Qed.

Lemma failures_all l :
  failures l = Z.of_nat (length l) -> Forall (fun t => failedPc (t_pc t) = true) l.
Proof.
  induction l as [|t l IH]; intros H; [done|].
  change (failedT t + failures l = Z.of_nat (S (length l))) in H.
  pose proof (failures_bounds l). unfold failedT in H.
  destruct (failedPc (t_pc t)) eqn:E; [|lia]. constructor; [done|apply IH; lia].
Qed.

Lemma failures_abandon p l : failures (Executor.abandon p <$> l) = failures l.
Proof.
  apply sumZ_fmap_ext. intros t. unfold Executor.abandon, failedT.
  destruct (t_pc t) eqn:E; try by rewrite ?E. case_decide; by rewrite ?E.
Qed.

Lemma sublist_full {A} (l k : list A) :
  l `sublist_of` k -> (length k <= length l)%nat -> l = k.
Proof.
  induction 1 as [|x l k Hs IH|x l k Hs IH]; simpl; intros Hl; [done|f_equal; apply IH; lia|].
  apply sublist_length in Hs. lia.
Qed.

(** ** The contacts of a phase *)

Definition phaseContacts (cfg : Config Contact) (ph : PhaseType) : list Contact :=
  match limitContacts cfg ph (getContacts cfg ph) with MRace _ _ cs => cs | _ => [] end.

(** Those that the limit lets through. *)
Lemma phaseContacts_take cfg ph :
  phaseContacts cfg ph = take (Z.to_nat (maxContacts cfg ph)) (getContacts cfg ph).
Proof.
  unfold phaseContacts, limitContacts. destruct (Z.leb_spec (maxContacts cfg ph) 0).
  - rewrite Z2Nat.nonpos by done. by destruct ph.
  - destruct (Z.ltb_spec (maxContacts cfg ph) (Z.of_nat (length (getContacts cfg ph)))); [done|].
    symmetry. apply take_ge. lia.
Qed.

(** The contacts the owner has still to submit. *)
Definition remaining w : list Contact :=
  match w_main w with
  | MInit _ _ cs | MInit2 _ _ cs | MTasks _ _ cs | MSubmit _ _ _ cs => cs
  | MSubmitted _ _ _ c cs | MPending _ _ _ c cs | MEnqueue _ _ _ c cs => c :: cs
  | _ => []
  end.

Section OneSource.
Variable (cfg : Config Contact) (ph : PhaseType).
(** Only the phase [ph] has peers, and fewer than a 31-bit counter counts. *)
Hypothesis one_source : forall ph', getContacts cfg ph' <> [] -> ph' = ph.
Hypothesis few : Z.of_nat (length (getContacts cfg ph)) < 2 ^ 31.

Let cs := phaseContacts cfg ph.
Let n := Z.of_nat (length cs).

(** Where the owner is: before its race there are no tasks; in it, the request expects as
    many peers as the phase has contacts. *)
Definition stage w : Prop :=
  match w_main w with
  | MStart | MPhase PhaseDHT _ => w_tasks w = []
  | MReset p k | MReset2 p k | MReset3 p k | MLimit p k =>
      w_tasks w = [] /\ p = ph /\ k = getContacts cfg p
  | MRace p _ k | MInit p _ k | MInit2 p _ k => w_tasks w = [] /\ p = ph /\ k = phaseContacts cfg p
  | MPhase PhaseFixed _ => w_tasks w = [] \/ (ph = PhaseDHT /\ totalPeers (w_req w) = n)
  | MTasks p _ _ | MSubmit p _ _ _ | MSubmitted p _ _ _ _ | MPending p _ _ _ _ | MEnqueue p _ _ _ _
  | MWait p _ | MSleep p _ _ | MExit p _ | MLeave p _ => p = ph /\ totalPeers (w_req w) = n
  | MReturn _ => w_tasks w = [] \/ totalPeers (w_req w) = n
  end.

Record fail_inv w : Prop := {
  fi_stage : stage w;
  fi_contacts : (t_contact <$> w_tasks w) ++ remaining w `sublist_of` cs;
  fi_completed : completed (w_req w) = failures (w_tasks w);
  fi_check i t k e : w_tasks w !! i = Some t -> t_pc t = TCheck k e -> k <= failures (w_tasks w);
  fi_failing i t : w_tasks w !! i = Some t -> failing (t_pc t) = true -> failures (w_tasks w) = n;
  fi_result e : err (result_ (w_req w)) = Some e -> failures (w_tasks w) = n
}.

Lemma cs_small : n < 2 ^ 31.
Proof.
  unfold n, cs, phaseContacts, limitContacts. destruct (_ <=? _); [by destruct ph; simpl; lia|].
  destruct (_ <? _); rewrite ?length_take; lia.
Qed.

Lemma fail_tasks_le w : fail_inv w -> Z.of_nat (length (w_tasks w)) + Z.of_nat (length (remaining w)) <= n.
Proof.
  intros [_ H _ _ _ _]. apply sublist_length in H. rewrite length_app, length_fmap in H.
  unfold n. lia.
Qed.

(** A step that changes neither what the tasks have counted nor where the owner is. *)
Lemma fail_frame w w' :
  w_main w' = w_main w ->
  (w_tasks w' = w_tasks w \/ exists p, w_tasks w' = Executor.abandon p <$> w_tasks w) ->
  completed (w_req w') = completed (w_req w) -> totalPeers (w_req w') = totalPeers (w_req w) ->
  result_ (w_req w') = result_ (w_req w) ->
  fail_inv w -> fail_inv w'.
Proof.
  intros Em Ht E1 E2 E3 [H1 H2 H3 H4 H5 H6].
  assert (Hnil : w_tasks w = [] -> w_tasks w' = []) by (intros E; destruct Ht as [->|[p ->]]; by rewrite E).
  assert (Hf : failures (w_tasks w') = failures (w_tasks w))
    by (destruct Ht as [->|[p ->]]; [done|apply failures_abandon]).
  assert (Hback : forall i t', w_tasks w' !! i = Some t' -> t_pc t' <> TAbandoned ->
    exists t, w_tasks w !! i = Some t /\ t_pc t' = t_pc t).
  { intros i t' Hi Hn. assert (tasksOther (w_tasks w) (w_tasks w')) as Ho
      by (destruct Ht as [->|[p ->]]; constructor).
    destruct Ht as [E|[p E]]; rewrite E in Hi; [eauto|].
    rewrite list_lookup_fmap in Hi. destruct (w_tasks w !! i) as [t|] eqn:Ei; simplify_eq/=.
    exists t. split; [done|]. unfold Executor.abandon in *. destruct (t_pc t) eqn:Ep; try done.
    case_decide; simpl in *; done. }
  split.
  - unfold stage in *. rewrite Em, E2. destruct (w_main w) as [|[]| | | | | | | | | | | | | | | | |]; naive_solver.
  - unfold remaining in *. rewrite Em.
    replace (t_contact <$> w_tasks w') with (t_contact <$> w_tasks w); [done|].
    destruct Ht as [->|[p ->]]; [done|]. rewrite <- list_fmap_compose. apply list_fmap_ext.
    intros i t _. simpl. unfold Executor.abandon. by repeat case_match.
  - by rewrite E1, H3.
  - intros i t' k e Hi Hpc. destruct (Hback i t' Hi) as (t & Hi' & E); [by rewrite Hpc|].
    rewrite Hf. eapply H4; [done|]. by rewrite <- E.
  - intros i t' Hi Hpc. destruct (Hback i t' Hi) as (t & Hi' & E); [by intros E; rewrite E in Hpc|].
    rewrite Hf. eapply H5; [done|]. by rewrite <- E.
  - rewrite E3, Hf. apply H6.
Qed.

(** A task moves on without counting a failure: it neither starts to complete the request
    with an error nor sets a result. *)
Lemma fail_move w w' i t pc :
  fail_inv w -> w_tasks w !! i = Some t ->
  w_tasks w' = <[i := mkTask (t_contact t) (t_race t) (t_pool t) pc]> (w_tasks w) ->
  failedPc pc = failedPc (t_pc t) -> (failing pc = true -> failing (t_pc t) = true) ->
  (forall k e, pc <> TCheck k e) ->
  w_main w' = w_main w ->
  completed (w_req w') = completed (w_req w) -> totalPeers (w_req w') = totalPeers (w_req w) ->
  (result_ (w_req w') = result_ (w_req w)
   \/ (forall e, err (result_ (w_req w')) = Some e -> failing (t_pc t) = true)) ->
  fail_inv w'.
Proof.
  intros Hinv Hi Et Hf Hg Hc Em E1 E2 E3. pose proof Hinv as [H1 H2 H3 H4 H5 H6].
  assert (Hlt : (i < length (w_tasks w))%nat) by (by eapply lookup_lt_Some).
  assert (Hnil : w_tasks w <> []) by (intros E; by rewrite E in Hi).
  assert (Hfl : failures (w_tasks w') = failures (w_tasks w)).
  { rewrite Et, (failures_insert _ _ _ _ Hi). unfold failedT. simpl. rewrite Hf. lia. }
  split.
  - unfold stage in *. rewrite Em, E2. destruct (w_main w) as [|[]| | | | | | | | | | | | | | | | |]; naive_solver.
  - unfold remaining in *. rewrite Em, Et, list_fmap_insert. simpl.
    rewrite list_insert_id; [done|]. by rewrite list_lookup_fmap, Hi.
  - by rewrite E1, Hfl.
  - rewrite Hfl, Et. intros j u k e [(_ & <- & _)|[_ Hj]]%list_lookup_insert_Some Hpc;
      [by destruct (Hc k e)|eauto].
  - rewrite Hfl, Et. intros j u [(_ & <- & _)|[_ Hj]]%list_lookup_insert_Some Hpc; simpl in *; eauto.
  - rewrite Hfl. intros e He. destruct E3 as [E3|E3]; [rewrite E3 in He|]; eauto.
Qed.

(** While there are tasks, the request expects as many peers as the phase has. *)
Lemma stage_total w : fail_inv w -> w_tasks w <> [] -> totalPeers (w_req w) = n.
Proof.
  intros [H _ _ _ _ _] Hn. unfold stage in H.
  destruct (w_main w) as [|[]| | | | | | | | | | | | | | | | |]; naive_solver.
Qed.

Lemma fail_task i d w w' :
  compl_inv (cf_hash cfg) w -> fail_inv w -> Executor.taskStep cfg d i w = Some w' -> fail_inv w'.
Proof.
  intros Hc Hinv H. pose proof Hinv as [H1 H2 H3 H4 H5 H6]. unfold Executor.taskStep in H.
  destruct (w_tasks w !! i) as [t|] eqn:Hi; [|done].
  assert (Hlt : (i < length (w_tasks w))%nat) by (by eapply lookup_lt_Some).
  pose proof (failures_bounds (w_tasks w)) as Hb. pose proof (fail_tasks_le w Hinv) as Hl.
  pose proof cs_small as Hs.
  destruct (t_pc t) as [| | |e|e|e|k e|r|r|r|r|r|r|r|r] eqn:Hpc; simplify_eq/=;
    try (unfold Executor.received, cancelRace, MarkDone in *; repeat (case_match; simplify_eq/=);
         eapply fail_move; try done; rewrite ?Hpc; auto; fail).
  - assert (Hnf : failedT t = 0) by (unfold failedT; by rewrite Hpc).
    assert (Hn : failures (<[i := mkTask (t_contact t) (t_race t) (t_pool t)
        (TCheck (int32 (completed (w_req w) + 1)) e)]> (w_tasks w)) = failures (w_tasks w) + 1).
    { rewrite (failures_insert _ _ _ _ Hi), Hnf. unfold failedT. simpl. lia. }
    pose proof (failures_bounds (<[i := mkTask (t_contact t) (t_race t) (t_pool t)
        (TCheck (int32 (completed (w_req w) + 1)) e)]> (w_tasks w))) as Hb'.
    rewrite Hn, length_insert in Hb'.
    assert (int32 (completed (w_req w) + 1) = failures (w_tasks w) + 1) as Ei.
    { rewrite H3. apply int32_id. lia. }
    assert (Hno : failures (w_tasks w) <> n) by lia.
    split; simpl; rewrite ?Hn.
    + unfold stage in *. simpl. assert (w_tasks w <> []) by (intros E; by rewrite E in Hi).
      destruct (w_main w) as [|[]| | | | | | | | | | | | | | | | |]; naive_solver.
    + unfold remaining in *. simpl. rewrite list_fmap_insert. simpl.
      rewrite list_insert_id; [done|]. by rewrite list_lookup_fmap, Hi.
    + done.
    + intros j u k e' [(_ & <- & _)|[_ Hj]]%list_lookup_insert_Some Hu; simpl in *;
        [simplify_eq; lia|]. specialize (H4 _ _ _ _ Hj Hu). lia.
    + intros j u [(_ & <- & _)|[_ Hj]]%list_lookup_insert_Some Hu; simpl in *; [done|].
      by specialize (H5 _ _ Hj Hu).
    + intros e' He. by specialize (H6 _ He).
  - pose proof (stage_total w Hinv ltac:(intros E; by rewrite E in Hi)) as Ht.
    pose proof (H4 i t k e Hi Hpc) as Hk. unfold GetTotalPeers.
    destruct (Z.leb_spec (totalPeers (w_req w)) k).
    + assert (Hf : failures (w_tasks w) = n) by lia.
      assert (Hfw : failures (w_tasks (Executor.setPc i t (TOnce (EndFailed e)) w)) = n).
      { simpl. rewrite (failures_insert _ _ _ _ Hi). unfold failedT. rewrite Hpc. simpl. lia. }
      split; rewrite ?Hfw; auto; simpl.
      * unfold stage in *. simpl. assert (w_tasks w <> []) by (intros E; by rewrite E in Hi).
        destruct (w_main w) as [|[]| | | | | | | | | | | | | | | | |]; naive_solver.
      * unfold remaining in *. simpl. rewrite list_fmap_insert. simpl.
        rewrite list_insert_id; [done|]. by rewrite list_lookup_fmap, Hi.
      * by rewrite H3.
      * intros j u k' e' [(_ & <- & _)|[_ Hj]]%list_lookup_insert_Some Hu; simpl in *; [done|].
        specialize (H4 _ _ _ _ Hj Hu). lia.
    + eapply fail_move; try done; rewrite ?Hpc; auto.
  - eapply fail_move; try done; rewrite ?Hpc; auto. right. simpl. intros e He.
    pose proof (ci_good _ _ Hc i t Hi) as Hg. rewrite Hpc in Hg. by destruct r.
Qed.

(** A step of the owner that leaves the tasks, the counter and the result alone. *)
Lemma fail_owner w w' :
  w_tasks w' = w_tasks w -> completed (w_req w') = completed (w_req w) ->
  result_ (w_req w') = result_ (w_req w) ->
  stage w' -> remaining w' `sublist_of` remaining w ->
  fail_inv w -> fail_inv w'.
Proof.
  intros Et E1 E2 Hst Hr [H1 H2 H3 H4 H5 H6]. split; rewrite ?Et, ?E1, ?E2; auto.
  etrans; [|exact H2]. by apply sublist_app.
Qed.

Lemma getContacts_phase p : getContacts cfg p <> [] -> p = ph.
Proof. apply one_source. Qed.

Lemma nextPhase_stage w p e :
  p = ph -> w_tasks w = [] \/ totalPeers (w_req w) = n -> stage (setMain (nextPhase p e) w).
Proof.
  intros -> H. unfold nextPhase, allFailed, stage. destruct ph; simpl; naive_solver.
Qed.

Lemma limit_stage w p :
  w_tasks w = [] -> p = ph -> stage (setMain (limitContacts cfg p (getContacts cfg p)) w).
Proof.
  intros Ht Hp. unfold limitContacts. destruct (_ <=? _) eqn:Em.
  - apply nextPhase_stage; auto.
  - unfold stage, phaseContacts, limitContacts. simpl. by rewrite Em.
Qed.

Lemma beforeSubmit_stage w p final k :
  p = ph -> totalPeers (w_req w) = n -> stage (setMain (beforeSubmit p final k w) w).
Proof. intros. unfold beforeSubmit, stage. by repeat case_match; simplify_eq/=. Qed.
Lemma beforeSubmit_remaining w p final k :
  remaining (setMain (beforeSubmit p final k w) w) `sublist_of` k.
Proof.
  unfold beforeSubmit, remaining. repeat case_match; simplify_eq/=; try done; apply sublist_nil_l.
Qed.

Lemma fail_main p w w' : fail_inv w -> mainStep cfg p w = Some w' -> fail_inv w'.
Proof.
  intros Hinv H. pose proof Hinv as [H1 H2 H3 H4 H5 H6]. unfold mainStep, raceStep, submitStep in H. unfold stage in H1.
  assert (Hlw := leaveWait_frame (w_ctx w) w).
  destruct (w_main w) as [|q last|q k|q k|q k|q k|q fin k|q fin k|q fin k|q fin k|q fin pool k
    |q fin pool c k|q fin pool c k|q fin pool c k|q fin|q tot last|q r|q r|r] eqn:Em; try done.
  - injection H as <-. apply (fail_owner w); try done; [|by destruct (w_phaseStopped w); apply sublist_nil_l].
    unfold stage. simpl. destruct (w_phaseStopped w); auto.
  - assert (Hq : w_tasks w = [] \/ q = PhaseFixed /\ ph = PhaseDHT /\ totalPeers (w_req w) = n)
      by (destruct q; naive_solver).
    destruct (getContacts cfg q) as [|c k] eqn:Eg.
    + injection H as <-. apply (fail_owner w); try done;
        [|by destruct q; apply sublist_nil_l].
      unfold stage, nextPhase. destruct Hq as [Hq|(-> & ? & ?)]; [destruct q|]; simpl; auto.
    + assert (q = ph) as Eq by (apply getContacts_phase; by rewrite Eg).
      assert (w_tasks w = []) as Ht by (destruct Hq as [Hq|(? & ? & ?)]; [done|congruence]).
      destruct (_ && _); injection H as <-; apply (fail_owner w); try done;
        first [apply sublist_nil_l | destruct q; apply sublist_nil_l | apply nextPhase_stage; auto].
  - destruct H1 as (Ht & Hq & ->). destruct (w_coordStopped w); injection H as <-;
      apply (fail_owner w); try done; try apply sublist_nil_l.
    simpl. by rewrite H3, Ht.
  - injection H as <-. by apply (fail_owner w); try done; try apply sublist_nil_l.
  - injection H as <-. by apply (fail_owner w); try done; try apply sublist_nil_l.
  - destruct H1 as (Ht & Hq & ->). injection H as <-. apply (fail_owner w); try done.
    + by apply limit_stage.
    + unfold limitContacts. destruct (_ <=? _); [destruct q|]; apply sublist_nil_l.
  - destruct H1 as (Ht & Hq & Hk). destruct (w_raceStopped w); [|destruct k as [|c k]]; injection H as <-.
    1, 2: apply (fail_owner w); try done; [apply nextPhase_stage; auto|destruct q; apply sublist_nil_l].
    rewrite Ht in H3, H6. split; simpl; rewrite ?Ht; try done.
    unfold remaining. simpl. by rewrite Hk, Hq.
  - injection H as <-. apply (fail_owner w); try done. unfold remaining. simpl. by rewrite Em.
  - destruct H1 as (Ht & Hq & Hk). injection H as <-. apply (fail_owner w); try done.
    + unfold stage. simpl. split; [done|]. pose proof cs_small as Hs. unfold n, cs in Hs |- *.
      rewrite Hk, Hq. apply int32_id. lia.
    + unfold remaining. simpl. by rewrite Em.
  - destruct H1 as [Hq Ht]. injection H as <-. apply (fail_owner w); try done.
    + by apply beforeSubmit_stage.
    + unfold remaining at 2. rewrite Em. apply beforeSubmit_remaining.
  - destruct k as [|c k]; injection H as <-; apply (fail_owner w); try done.
    + apply sublist_nil_l.
    + unfold stage. simpl. by destruct (Executor.shouldProceedWithTask _ _).
    + unfold remaining. simpl. rewrite Em. destruct (Executor.shouldProceedWithTask _ _); [done|].
      by apply sublist_cons.
  - injection H as <-. apply (fail_owner w); try done. unfold remaining. simpl. by rewrite Em.
  - injection H as <-. apply (fail_owner w); try done. unfold remaining. simpl. by rewrite Em.
  - destruct (decide (w_pool w = Some pool)); injection H as <-.
    2:{ apply (fail_owner w); try done; [|apply sublist_nil_l]. unfold stage. simpl. naive_solver. }
    assert (Hf : failures (w_tasks w ++ [mkTask c (curRace w) pool TQueued]) = failures (w_tasks w)).
    { unfold failures. rewrite sumZ_app. simpl. unfold failedT. simpl. lia. }
    split; simpl; rewrite ?Hf; try done.
    + unfold remaining in *. simpl. rewrite Em in H2. by rewrite fmap_app, <- app_assoc.
    + intros i t k' e' [Hi|[_ Hi]]%lookup_app_Some Hpc; [eauto|].
      apply list_lookup_singleton_Some in Hi as [_ <-]. done.
    + intros i t [Hi|[_ Hi]]%lookup_app_Some Hpc; [eauto|].
      apply list_lookup_singleton_Some in Hi as [_ <-]. done.
  - unfold waitStep in H. destruct fin; [|destruct p];
      repeat (case_match; simplify_eq/=); try exact Hinv; apply (fail_owner w); try done; apply sublist_nil_l.
  - injection H as <-. apply (fail_owner w); try done; apply sublist_nil_l.
  - destruct Hlw as (Ec & E1 & E2 & Et & _). injection H as <-. injection Ec as _ _ _ Er.
    apply (fail_owner w); try done; [|apply sublist_nil_l].
    unfold stage. simpl. by rewrite E2.
  - destruct H1 as [Hq Ht]. injection H as <-. apply (fail_owner w); try done.
    + destruct r; [by right|apply nextPhase_stage; auto|by right].
    + destruct r, q; apply sublist_nil_l.
Qed.

Lemma fail_step ev w w' :
  compl_inv (cf_hash cfg) w -> fail_inv w -> step cfg ev w = Some w' -> fail_inv w'.
Proof.
  intros Hc Hf H. destruct (isExecOp ev) eqn:He.
  { destruct (exec_frame cfg ev w w' He H) as (Er & Em & _ & _ & _ & _ & Ht).
    by apply (fail_frame w); rewrite ?Er. }
  destruct ev; try discriminate He; simpl in H; try (by eapply fail_main);
    try (by eapply fail_task); try (injection H as <-; apply (fail_frame w); auto; fail).
  - unfold joinStep in H. destruct (w_joins w !! i) as [[ctx j]|]; [|done].
    destruct j as [|r|r]; [|injection H as <-|done].
    + destruct (selectResult p ctx w); simplify_eq. apply (fail_frame w); auto.
    + destruct (leaveWait_frame ctx w) as ([= _ _ _ Er] & E1 & E2 & Et & Em & _).
      apply (fail_frame w); auto.
  - apply (evJoin_eq cfg) in H as ->.
    apply (fail_frame w); auto.
  - destruct (w_ctx w); simplify_eq. apply (fail_frame w); auto.
Qed.

Lemma fail_reachable m w : reachable cfg m w -> fail_inv w.
Proof.
  revert w. apply reachable_ind.
  - split; simpl; try done. apply sublist_nil_l.
  - intros w ev w' Hr Hf H. eapply fail_step; [by eapply compl_reachable|done|done].
Qed.

(** All the failures there are to count: every peer of the phase has been tried. *)
Lemma fail_complete w :
  fail_inv w -> failures (w_tasks w) = n ->
  t_contact <$> w_tasks w = cs /\ Forall (fun t => failedPc (t_pc t) = true) (w_tasks w).
Proof.
  intros Hinv Hf. pose proof (fail_tasks_le w Hinv). pose proof (failures_bounds (w_tasks w)).
  destruct Hinv as [_ H2 _ _ _ _]. split; [|apply failures_all; lia].
  assert (remaining w = []) as E by (apply length_zero_iff_nil; lia).
  rewrite E, app_nil_r in H2. apply sublist_full; [done|]. rewrite length_fmap. unfold n in *. lia.
Qed.
End OneSource.

(** C29. With one source of peers, a request completes with an error only after every peer
    that the limit of the phase lets through has been tried and has failed: the first
    [maxPeers] of the peers the DHT returned, which are all of them when there are no more,
    or all the fixed peers.  So an error never hides a peer within the limit that was not
    asked, whatever the interleaving, the time-outs and the components stopped meanwhile;
    the peers beyond the limit are not asked at all. *)
Theorem failure_means_all_failed (cfg : Config Contact) (ph : PhaseType) m w e :
  (forall ph', getContacts cfg ph' <> [] -> ph' = ph) ->
  Z.of_nat (length (getContacts cfg ph)) < 2 ^ 31 ->
  reachable cfg m w -> GetDone (w_req w) = true -> outcome (GetResult (w_req w)) = Err e ->
  Forall (fun t => failedPc (t_pc t) = true) (w_tasks w)
  /\ t_contact <$> w_tasks w = take (Z.to_nat (maxContacts cfg ph)) (getContacts cfg ph)
  /\ (Z.of_nat (length (getContacts cfg ph)) <= maxContacts cfg ph -> t_contact <$> w_tasks w = getContacts cfg ph)
  /\ (ph = PhaseFixed -> t_contact <$> w_tasks w = cf_fixed cfg).
Proof.
  intros Ho Hs Hr Hd He. pose proof (fail_reachable cfg ph Ho Hs m w Hr) as Hf.
  destruct (fail_complete cfg ph w Hf) as [-> Hall].
  { unfold outcome, GetErr, GetResult in He.
    destruct (err (result_ (w_req w))) as [e'|] eqn:E; [|done]. by apply (fi_result _ _ _ Hf e'). }
  rewrite phaseContacts_take. split_and!; [done|done|intros Hle; apply take_ge; lia|].
  intros ->. apply take_ge. simpl. lia.
Qed.
End Fail.

(** A download from the DHT, which returns three peers of which the limit lets two through;
    both fail. *)
Definition failingConfig : Config nat :=
  mkConfig (Hash (go "x")) (Ok [1%nat; 2%nat; 3%nat]) [] (fun _ => false) 2.
Definition failingRun : list event :=
  repeat (EvMain PickDone) 19 ++ repeat (EvTask 0 (Err (ESent EOF))) 5
  ++ repeat (EvTask 1 (Ok (go "y"))) 12.

Lemma failure_means_all_failed_witness :
  match run failingConfig failingRun (initial 2) with
  | Some w => Forall (fun t => failedPc (t_pc t) = true) (w_tasks w) /\ t_contact <$> w_tasks w = [1%nat; 2%nat]
  | None => False
  end.
Proof.
  destruct (run failingConfig failingRun (initial 2)) as [w|] eqn:E; [|vm_compute in E; discriminate E].
  assert (E' := E). vm_compute in E'. injection E' as E'.
  destruct (failure_means_all_failed failingConfig PhaseDHT 2 w (EMsg "peer blob %s")) as (H1 & H2 & _).
  - intros [] H; [reflexivity|]. exfalso. apply H. reflexivity.
  - simpl. lia.
  - exists failingRun. exact E.
  - rewrite <- E'. reflexivity.
  - rewrite <- E'. reflexivity.
  - split; [exact H1|exact H2].
Defined.
