(* ===== verification/RaceLive.v ===== *)
(** * Termination and progress of a download

    Every schedule of the machine of Race.v runs its goroutines for a bounded number of
    steps, the turns of the owner's polling loop apart, which change nothing; and when nobody
    cancels, times out or stops anything and the goroutines are scheduled fairly, the owner
    returns. *)
From stdpp Require Import base tactics list numbers strings gmap.
From Stdlib Require Import ZArith Lia Init.Byte.
From S2P Require Import Prelude GoStd Errors Blob Store Request Race RaceInv RaceFail.
Import Phases.
Local Open Scope nat_scope.

(** ** A measure of the work left *)

Definition taskWork (pc : taskPc) : nat :=
  match pc with
  | TQueued => 13 | TDownload => 12 | TRemove _ => 11 | TTrack _ => 10 | TIncr _ => 9
  | TCheck _ _ => 8 | TOnce _ => 7 | TCancel _ => 6 | TSet _ => 5 | TMark _ => 4 | TLeave _ => 3
  | TCount _ => 2 | TPend _ => 1 | TDone _ | TAbandoned => 0
  end.

Definition joinWork (j : option sentinel * joinPc) : nat :=
  match j.2 with JWait => 2 | JExit _ => 1 | JReturn _ => 0 end.

(** Steps of the goroutines, as opposed to what happens to them. *)
Definition internal (ev : event) : bool :=
  match ev with EvMain _ | EvTask _ _ | EvJoiner _ _ => true | _ => false end.
Definition joins (ev : event) : bool := match ev with EvJoin => true | _ => false end.

Definition sumN {A} (f : A -> nat) (l : list A) : nat := foldr (fun x s => f x + s) 0 l.

Lemma sumN_insert {A} (f : A -> nat) (l : list A) i x y :
  l !! i = Some x -> sumN f (<[i := y]> l) + f x = sumN f l + f y.
Proof.
  revert i. induction l as [|z l IH]; intros [|i] Hi; simplify_eq/=; [lia|].
  specialize (IH i Hi). fold (sumN f (<[i := y]> l)). fold (sumN f l). lia.
Qed.
Lemma sumN_app {A} (f : A -> nat) (l k : list A) : sumN f (l ++ k) = sumN f l + sumN f k.
Proof. induction l as [|x l IH]; simpl; [done|]. unfold sumN in *. lia. Qed.

Lemma sumN_alter {A} (f : A -> nat) (g : A -> A) (l : list A) i :
  (forall x, f (g x) = f x) -> sumN f (alter g i l) = sumN f l.
Proof.
  intros Hg. revert i. induction l as [|x l IH]; intros [|i]; try done.
  - change (f (g x) + sumN f l = f x + sumN f l). by rewrite Hg.
  - change (f x + sumN f (alter g i l) = f x + sumN f l). by rewrite IH.
Qed.

Section Live.
Context {Contact : Type}.
Implicit Types (w : World Contact) (t : Task Contact) (cfg : Config Contact).

(** One peer is worth the steps that submit it and the steps of its task. *)
Definition contactsWork (cs : list Contact) : nat := 18 * length cs.
Definition phaseWork cfg (ph : PhaseType) : nat :=
  match ph with
  | PhaseFixed => contactsWork (getContacts cfg PhaseFixed) + 20
  | PhaseDHT => contactsWork (getContacts cfg PhaseDHT) + 20
                + (contactsWork (getContacts cfg PhaseFixed) + 20)
  end.
Definition laterWork cfg (ph : PhaseType) : nat :=
  match ph with PhaseFixed => 0 | PhaseDHT => phaseWork cfg PhaseFixed end.

Definition mainWork cfg (m : mainPc Contact) : nat :=
  match m with
  | MStart => phaseWork cfg PhaseDHT + 1
  | MPhase ph _ => phaseWork cfg ph
  | MReset ph cs => contactsWork cs + 19 + laterWork cfg ph
  | MReset2 ph cs => contactsWork cs + 18 + laterWork cfg ph
  | MReset3 ph cs => contactsWork cs + 17 + laterWork cfg ph
  | MLimit ph cs => contactsWork cs + 16 + laterWork cfg ph
  | MRace ph _ cs => contactsWork cs + 15 + laterWork cfg ph
  | MInit ph _ cs => contactsWork cs + 14 + laterWork cfg ph
  | MInit2 ph _ cs => contactsWork cs + 13 + laterWork cfg ph
  | MTasks ph _ cs => contactsWork cs + 12 + laterWork cfg ph
  | MSubmit ph _ _ cs => contactsWork cs + 8 + laterWork cfg ph
  | MSubmitted ph _ _ _ cs => contactsWork cs + 25 + laterWork cfg ph
  | MPending ph _ _ _ cs => contactsWork cs + 24 + laterWork cfg ph
  | MEnqueue ph _ _ _ cs => contactsWork cs + 23 + laterWork cfg ph
  | MWait ph _ => 6 + laterWork cfg ph
  | MSleep ph _ _ => 5 + laterWork cfg ph
  | MExit ph _ => 4 + laterWork cfg ph
  | MLeave ph _ => 3 + laterWork cfg ph
  | MReturn _ => 0
  end.

Definition work cfg w : nat :=
  mainWork cfg (w_main w) + sumN (fun t => taskWork (t_pc t)) (w_tasks w)
  + sumN joinWork (w_joins w).

Lemma work_phase cfg ph : phaseWork cfg ph = contactsWork (getContacts cfg ph) + 20 + laterWork cfg ph.
Proof. destruct ph; cbn [phaseWork laterWork]; lia. Qed.

Lemma nextPhase_work cfg ph e : mainWork cfg (nextPhase ph e) = laterWork cfg ph.
Proof. by destruct ph. Qed.

Lemma limitContacts_work cfg ph cs :
  mainWork cfg (limitContacts cfg ph cs) <= contactsWork cs + 15 + laterWork cfg ph.
Proof.
  unfold limitContacts. destruct (_ <=? _)%Z; [rewrite nextPhase_work; lia|].
  simpl. unfold contactsWork. destruct (_ <? _)%Z; rewrite ?length_take; lia.
Qed.

Lemma beforeSubmit_work cfg ph final cs w :
  mainWork cfg (beforeSubmit ph final cs w) <= contactsWork cs + 8 + laterWork cfg ph.
Proof. unfold beforeSubmit. repeat case_match; simpl; lia. Qed.

Lemma abandon_work p (l : list (Task Contact)) :
  sumN (fun t => taskWork (t_pc t)) (Executor.abandon p <$> l) <= sumN (fun t => taskWork (t_pc t)) l.
Proof.
  induction l as [|t l IH]; [done|]. rewrite fmap_cons. simpl. unfold sumN in *.
  assert (taskWork (t_pc (Executor.abandon p t)) <= taskWork (t_pc t)); [|lia].
  unfold Executor.abandon. destruct (t_pc t) eqn:E; rewrite ?E; try done. case_decide; rewrite ?E; simpl; lia.
Qed.

Lemma task_work cfg i d w w' :
  Executor.taskStep cfg d i w = Some w' -> work cfg w' < work cfg w.
Proof.
  intros H. unfold Executor.taskStep in H.
  destruct (w_tasks w !! i) as [t|] eqn:Hi; [|done].
  assert (exists pc, w_tasks w' = <[i := mkTask (t_contact t) (t_race t) (t_pool t) pc]> (w_tasks w)
    /\ w_main w' = w_main w /\ w_joins w' = w_joins w
    /\ taskWork pc < taskWork (t_pc t)) as (pc & Et & Em & Ej & Hlt).
  { unfold Executor.received in H. destruct (t_pc t) eqn:Hpc; simplify_eq/=;
      repeat (case_match; simplify_eq/=); eexists; (split; [reflexivity|]); simpl; split_and!; auto; lia. }
  unfold work. rewrite Et, Em, Ej.
  pose proof (sumN_insert (fun t => taskWork (t_pc t)) _ _ _
    (mkTask (t_contact t) (t_race t) (t_pool t) pc) Hi). simpl in *. lia.
Qed.

(** A turn of the owner's polling loop that finds peers still running, and the steps of the
    goroutines other than such turns. *)
Definition polls (ev : event) w : bool :=
  match ev, w_main w with
  | EvMain PickTimer, MWait _ false =>
      let '(completed, total, _) := requestState w in (completed <? total)%Z
  | _, _ => false
  end.
Definition moves (ev : event) w : bool := internal ev && negb (polls ev w).

Lemma polls_same cfg ev w w' : polls ev w = true -> step cfg ev w = Some w' -> w' = w.
Proof.
  unfold polls. intros Hp H. destruct ev as [[]|i d|i q| | | | | | | | | | |]; try done.
  destruct (w_main w) as [| | | | | | | | | | | | | |q []| | | |] eqn:Em; try done.
  unfold step, mainStep in H. rewrite Em in H. unfold waitStep in H.
  destruct (requestState w) as [[c t] e]. apply Z.ltb_lt in Hp. by rewrite (proj2 (Z.leb_gt t c) Hp) in H; simplify_eq.
Qed.

Lemma main_work cfg p w w' :
  mainStep cfg p w = Some w' -> polls (EvMain p) w = false -> work cfg w' < work cfg w.
Proof.
  intros H Hpoll. unfold polls in Hpoll.
  assert (w_joins w' = w_joins w /\
    mainWork cfg (w_main w') + sumN (fun t => taskWork (t_pc t)) (w_tasks w')
    < mainWork cfg (w_main w) + sumN (fun t => taskWork (t_pc t)) (w_tasks w)) as [Ej Hlt];
    [|unfold work; rewrite Ej; lia].
  pose proof (leaveWait_frame (w_ctx w) w) as (_ & _ & _ & Et & _ & Ej & _).
  unfold mainStep, raceStep, submitStep in H.
  destruct (w_main w) as [|q last|q k|q k|q k|q k|q fin k|q fin k|q fin k|q fin k|q fin pool k
    |q fin pool c k|q fin pool c k|q fin pool c k|q fin|q tot last|q r|q r|r] eqn:Em; try done.
  - injection H as <-. split; [done|]. simpl. destruct (w_phaseStopped w); simpl; lia.
  - destruct (getContacts cfg q) as [|c k] eqn:Eg; [|destruct (_ && _)]; injection H as <-;
      (split; [done|]); simpl; rewrite ?nextPhase_work, work_phase, ?Eg; simpl mainWork; unfold contactsWork; simpl length; lia.
  - destruct (w_coordStopped w); injection H as <-; (split; [done|]); simpl; lia.
  - injection H as <-; (split; [done|]); simpl; lia.
  - injection H as <-; (split; [done|]); simpl; lia.
  - injection H as <-. split; [done|]. simpl. pose proof (limitContacts_work cfg q k). lia.
  - destruct (w_raceStopped w); [|destruct k]; injection H as <-; (split; [done|]); simpl;
      rewrite ?nextPhase_work; simpl mainWork; unfold contactsWork; simpl length; lia.
  - injection H as <-; (split; [done|]); simpl; lia.
  - injection H as <-; (split; [done|]); simpl; lia.
  - injection H as <-. split; [done|]. simpl. pose proof (beforeSubmit_work cfg q fin k w). lia.
  - destruct k as [|c k]; injection H as <-; (split; [done|]); simpl;
      [|destruct (Executor.shouldProceedWithTask _ _)]; simpl mainWork; unfold contactsWork; simpl length; lia.
  - injection H as <-; (split; [done|]); simpl; lia.
  - injection H as <-; (split; [done|]); simpl; lia.
  - destruct (decide (w_pool w = Some pool)); injection H as <-; (split; [done|]); simpl;
      rewrite ?sumN_app; simpl; lia.
  - unfold waitStep in H. destruct fin; [|destruct p]; repeat (case_match; simplify_eq/=); split; try (done || lia).
  - injection H as <-; (split; [done|]); simpl; lia.
  - injection H as <-. simpl. rewrite Et. split; [done|]. lia.
  - injection H as <-. split; [done|]. simpl. destruct r; simpl; rewrite ?nextPhase_work; lia.
Qed.

Lemma join_work cfg p i w w' : joinStep p i w = Some w' -> work cfg w' < work cfg w.
Proof.
  unfold joinStep. intros H. destruct (w_joins w !! i) as [[ctx j]|] eqn:Hi; [|done].
  assert (exists j', w_joins w' = <[i := (ctx, j')]> (w_joins w) /\ w_main w' = w_main w
    /\ w_tasks w' = w_tasks w /\ joinWork (ctx, j') < joinWork (ctx, j)) as (j' & Ej & Em & Et & Hlt).
  { destruct j as [|r|r]; [|injection H as <-|done].
    - destruct (selectResult p ctx w); simplify_eq. eexists. split; [reflexivity|]. split_and!; try done. unfold joinWork. simpl. lia.
    - destruct (leaveWait_frame ctx w) as (_ & _ & _ & Et & Em & Ej & _). simpl. rewrite Ej, Em, Et.
      eexists. split; [reflexivity|]. split_and!; try done. unfold joinWork. simpl. lia. }
  unfold work. rewrite Ej, Em, Et. pose proof (sumN_insert joinWork _ _ _ (ctx, j') Hi). lia.
Qed.

(** Steps of goroutines use work up, except for the polling; nothing but a new caller adds any. *)
Lemma step_work cfg ev w w' :
  step cfg ev w = Some w' ->
  work cfg w' + (if moves ev w then 1 else 0) <= work cfg w + (if joins ev then 2 else 0).
Proof.
  intros H. destruct (polls ev w) eqn:Hp.
  { rewrite (polls_same cfg ev w w' Hp H). unfold moves. rewrite Hp, andb_false_r. lia. }
  assert (Em : moves ev w = internal ev) by (unfold moves; by rewrite Hp, andb_true_r). rewrite Em. clear Em.
  destruct (isExecOp ev) eqn:He.
  { destruct (exec_frame cfg ev w w' He H) as (_ & Em & Ej & _ & _ & _ & Ht).
    assert (work cfg w' <= work cfg w).
    { unfold work. rewrite Em, Ej. destruct Ht as [->|[p ->]]; [lia|].
      pose proof (abandon_work p (w_tasks w)). lia. }
    destruct ev; try discriminate He; simpl; lia. }
  destruct ev; try discriminate He; simpl in *.
  - apply main_work in H; [lia|done].
  - apply task_work with (cfg := cfg) in H. lia.
  - apply join_work with (cfg := cfg) in H. lia.
  - apply (evJoin_eq cfg) in H as ->.
    unfold work. simpl. rewrite sumN_app. simpl. lia.
  - injection H as <-. unfold work. simpl. lia.
  - injection H as <-. unfold work. simpl.
    rewrite sumN_alter; [lia|done].
  - injection H as <-. unfold work. simpl. lia.
  - destruct (w_ctx w); simplify_eq. unfold work. simpl. lia.
  - injection H as <-. unfold work. simpl. lia.
  - injection H as <-. unfold work. simpl. lia.
  - injection H as <-. unfold work. simpl. lia.
Qed.

(** ** Progress in undisturbed runs *)

(** Nobody cancels, no deadline passes, nothing is stopped or reconfigured. *)
Definition quiet (ev : event) : bool := internal ev || joins ev.

(** Where a task can be before the request is completed. *)
Definition openPc (pc : taskPc) : Prop :=
  match pc with
  | TQueued | TDownload | TRemove _ | TTrack _ | TIncr _ | TCheck _ _ | TOnce _ => True
  | TCount r | TPend r | TDone r => isFailed r = true
  | _ => False
  end.

Definition everyFailed w : Prop := forall i t, w_tasks w !! i = Some t -> failedPc (t_pc t) = true.

(** The tasks of race [k], and how many of them have failed. *)
Definition inRace (k : nat) t : Z := if bool_decide (t_race t = k) then 1 else 0.
Definition failedIn (k : nat) t : Z := if bool_decide (t_race t = k) then failedT t else 0.
Definition raceCount (k : nat) (l : list (Task Contact)) : Z := sumZ (inRace k) l.
Definition raceFailures (k : nat) (l : list (Task Contact)) : Z := sumZ (failedIn k) l.

(** A task that is about to complete the request. *)
Definition completing (total : Z) (pc : taskPc) : Prop :=
  match pc with TCheck k _ => (total <= k)%Z | TOnce _ => True | _ => False end.

(** The request's counters in the race under way, with [rest] contacts to submit. *)
Record racing w (rest : list Contact) : Prop := {
  ra_some : w_races w <> [];
  ra_ctx : raceErr (curRace w) w = None;
  ra_old i t : w_tasks w !! i = Some t -> t_race t <> curRace w -> failedPc (t_pc t) = true;
  ra_total : totalPeers (w_req w) = (raceCount (curRace w) (w_tasks w) + Z.of_nat (length rest))%Z;
  ra_small : (0 < totalPeers (w_req w) < 2 ^ 31)%Z;
  ra_completed : completed (w_req w) = raceFailures (curRace w) (w_tasks w);
  ra_last : completed (w_req w) = totalPeers (w_req w) ->
    exists i t, w_tasks w !! i = Some t /\ completing (totalPeers (w_req w)) (t_pc t)
}.

(** Where the owner is while the request is open. *)
Definition ownerOpen w : Prop :=
  match w_main w with
  | MStart | MPhase _ _ | MReset _ _ | MReturn _ | MLeave _ _ => everyFailed w
  | MReset2 _ _ | MReset3 _ _ | MLimit _ _ | MRace _ _ _ =>
      everyFailed w /\ completed (w_req w) = 0%Z
  | MInit _ _ cs | MInit2 _ _ cs =>
      everyFailed w /\ completed (w_req w) = 0%Z /\ cs <> [] /\ w_races w <> []
      /\ raceCount (curRace w) (w_tasks w) = 0%Z /\ raceErr (curRace w) w = None
  | MTasks _ _ cs | MSubmit _ _ _ cs => racing w cs
  | MSubmitted _ _ _ c cs | MPending _ _ _ c cs | MEnqueue _ _ _ c cs => racing w (c :: cs)
  | MWait _ _ => racing w []
  | MSleep _ _ _ => racing w [] /\ everyFailed w
  | MExit _ _ => False
  end.

(** What the owner carries along. *)
Definition ownerWf w : Prop :=
  match w_main w with
  | MReset _ cs | MReset2 _ cs | MReset3 _ cs | MLimit _ cs | MRace _ _ cs =>
      (Z.of_nat (length cs) < 2 ^ 31)%Z
  | MInit _ _ cs | MInit2 _ _ cs => (Z.of_nat (length cs) < 2 ^ 31)%Z /\ w_races w <> []
  | MTasks _ _ _ => w_races w <> []
  | MSubmit _ _ p _ | MSubmitted _ _ p _ _ | MPending _ _ p _ _ | MEnqueue _ _ p _ _ =>
      p = 0 /\ w_races w <> []
  | MReturn (Panic _) => False
  | _ => True
  end.

Record live_inv w : Prop := {
  li_ctx : w_ctx w = None;
  li_flags : w_coordStopped w = false /\ w_execStopped w = false /\ w_raceStopped w = false;
  li_pool : w_pool w = Some 0;
  li_joins i j : w_joins w !! i = Some j -> j.1 = None;
  li_wf : ownerWf w;
  li_race i t : w_tasks w !! i = Some t -> t_race t < length (w_races w) /\ t_pc t <> TAbandoned;
  li_open : once (w_req w) = OnceNew ->
    (forall i t, w_tasks w !! i = Some t -> openPc (t_pc t)) /\ ownerOpen w
}.

(** *** Counting by race *)

Lemma raceFailures_bounds k (l : list (Task Contact)) : (0 <= raceFailures k l <= raceCount k l)%Z.
Proof.
  induction l as [|t l IH]; [done|].
  change (0 <= failedIn k t + raceFailures k l <= inRace k t + raceCount k l)%Z.
  unfold failedIn, inRace, failedT. destruct (bool_decide _), (failedPc (t_pc t)); lia.
Qed.

Lemma raceFailures_all k (l : list (Task Contact)) i t :
  (raceCount k l <= raceFailures k l)%Z -> l !! i = Some t -> t_race t = k -> failedPc (t_pc t) = true.
Proof.
  revert i. induction l as [|u l IH]; intros i Hle Hi Ht; [done|].
  change (inRace k u + raceCount k l <= failedIn k u + raceFailures k l)%Z in Hle.
  pose proof (raceFailures_bounds k l).
  assert (0 <= failedIn k u <= inRace k u)%Z
    by (unfold failedIn, inRace, failedT; destruct (bool_decide _), (failedPc (t_pc u)); lia).
  destruct i as [|i]; simplify_eq/=.
  - unfold failedIn, inRace, failedT in *. rewrite bool_decide_true in * by done.
    destruct (failedPc (t_pc t)); [done|lia].
  - apply (IH i); [lia|done|done].
Qed.

Lemma raceCount_none k (l : list (Task Contact)) :
  (forall i t, l !! i = Some t -> t_race t <> k) -> raceCount k l = 0%Z.
Proof.
  induction l as [|u l IH]; intros H; [done|]. change (inRace k u + raceCount k l = 0)%Z.
  rewrite IH by (intros i t Hi; by apply (H (S i))). unfold inRace.
  rewrite bool_decide_false; [done|]. by apply (H 0).
Qed.

(** *** Steps of tasks *)

(** The tasks of a state in which the request is open, after task [i] moved to [pc]. *)
Definition moved w i t pc : list (Task Contact) :=
  <[i := mkTask (t_contact t) (t_race t) (t_pool t) pc]> (w_tasks w).

Lemma raceCount_move w k i t pc :
  w_tasks w !! i = Some t -> raceCount k (moved w i t pc) = raceCount k (w_tasks w).
Proof.
  intros Hi. unfold raceCount, moved. rewrite (sumZ_list_insert _ _ _ _ _ Hi). unfold inRace. simpl. lia.
Qed.
Lemma raceFailures_move w k i t pc :
  w_tasks w !! i = Some t -> t_race t = k ->
  raceFailures k (moved w i t pc)
  = (raceFailures k (w_tasks w) - failedT t + failedT (mkTask (t_contact t) (t_race t) (t_pool t) pc))%Z.
Proof.
  intros Hi Ht. unfold raceFailures, moved. rewrite (sumZ_list_insert _ _ _ _ _ Hi).
  unfold failedIn. simpl. by rewrite bool_decide_true by done.
Qed.
Lemma raceFailures_move_same w k i t pc :
  w_tasks w !! i = Some t -> failedPc pc = failedPc (t_pc t) ->
  raceFailures k (moved w i t pc) = raceFailures k (w_tasks w).
Proof.
  intros Hi Hp. unfold raceFailures, moved. rewrite (sumZ_list_insert _ _ _ _ _ Hi).
  unfold failedIn, failedT. simpl. rewrite Hp. destruct (bool_decide _); lia.
Qed.

Lemma everyFailed_move w w' i t pc :
  w_tasks w !! i = Some t -> w_tasks w' = moved w i t pc -> failedPc pc = failedPc (t_pc t) ->
  everyFailed w -> everyFailed w'.
Proof.
  intros Hi Et Hp H j u Hj. rewrite Et in Hj.
  apply list_lookup_insert_Some in Hj as [(_ & <- & _)|[_ Hj]]; [|by eapply H].
  simpl. rewrite Hp. by eapply H.
Qed.

Lemma racing_move w w' i t pc rest :
  w_tasks w !! i = Some t -> w_tasks w' = moved w i t pc -> failedPc pc = failedPc (t_pc t) ->
  (completing (totalPeers (w_req w)) (t_pc t) -> completing (totalPeers (w_req w)) pc) ->
  w_races w' = w_races w -> completed (w_req w') = completed (w_req w) ->
  totalPeers (w_req w') = totalPeers (w_req w) ->
  racing w rest -> racing w' rest.
Proof.
  intros Hi Et Hp Hc Er E1 E2 [R1 R2 R3 R4 R5 R6 R7].
  assert (Ek : curRace w' = curRace w) by (unfold curRace; by rewrite Er).
  assert (Hlt : i < length (w_tasks w)) by (by eapply lookup_lt_Some).
  split; rewrite ?Ek, ?E1, ?E2, ?Et, ?raceCount_move, ?raceFailures_move_same by done; try done.
  - by rewrite Er.
  - unfold raceErr in *. by rewrite Er.
  - intros j u [(_ & <- & _)|[_ Hj]]%list_lookup_insert_Some Hr; [|by eapply R3].
    simpl in *. rewrite Hp. by eapply R3.
  - intros Hl. destruct (R7 Hl) as (j & u & Hj & Hu). destruct (decide (i = j)) as [<-|Hne].
    + simplify_eq. exists i. eexists. split; [by apply list_lookup_insert_eq|]. simpl. auto.
    + exists j, u. split; [|done]. unfold moved. by rewrite list_lookup_insert_ne.
Qed.

Lemma ownerOpen_move w w' i t pc :
  w_tasks w !! i = Some t -> w_tasks w' = moved w i t pc -> failedPc pc = failedPc (t_pc t) ->
  (completing (totalPeers (w_req w)) (t_pc t) -> completing (totalPeers (w_req w)) pc) ->
  w_races w' = w_races w -> completed (w_req w') = completed (w_req w) ->
  totalPeers (w_req w') = totalPeers (w_req w) -> w_main w' = w_main w ->
  ownerOpen w -> ownerOpen w'.
Proof.
  intros Hi Et Hp Hc Er E1 E2 Em H. unfold ownerOpen in *. rewrite Em.
  pose proof (everyFailed_move w w' i t pc Hi Et Hp) as Hf.
  pose proof (fun rest => racing_move w w' i t pc rest Hi Et Hp Hc Er E1 E2) as Hr.
  assert (Hk : raceCount (curRace w') (w_tasks w') = raceCount (curRace w) (w_tasks w)).
  { unfold curRace. by rewrite Er, Et, raceCount_move. }
  assert (He : raceErr (curRace w') w' = raceErr (curRace w) w)
    by (unfold raceErr, curRace; by rewrite Er).
  destruct (w_main w); rewrite ?E1, ?Er, ?Hk, ?He; intuition auto.
Qed.

(** A task that has not failed belongs to the race under way. *)
Lemma open_racing w i t :
  ownerOpen w -> w_tasks w !! i = Some t -> failedPc (t_pc t) = false ->
  exists rest, racing w rest /\ t_race t = curRace w
    /\ (forall w', w_main w' = w_main w -> racing w' rest -> ownerOpen w').
Proof.
  intros H Hi Hf.
  assert (Hno : everyFailed w -> False) by (intros Hall; by rewrite (Hall i t Hi) in Hf).
  assert (Hcur : forall rest, racing w rest -> t_race t = curRace w).
  { intros rest [_ _ R3 _ _ _ _]. destruct (decide (t_race t = curRace w)); [done|].
    by rewrite (R3 i t Hi) in Hf. }
  unfold ownerOpen in H.
  destruct (w_main w) eqn:Em; try (by destruct Hno; intuition auto);
    (eexists; split; [exact H|]; split; [by eapply Hcur|];
     intros w' Em' Hr; unfold ownerOpen; by rewrite Em').
Qed.

(** The step that counts a failure. *)
Lemma racing_count w i t rest e :
  racing w rest -> w_tasks w !! i = Some t -> t_race t = curRace w -> t_pc t = TIncr e ->
  let n := int32 (completed (w_req w) + 1) in
  racing (Executor.setPc i t (TCheck n e) (setReq (SetCompleted n (w_req w)) w)) rest.
Proof.
  intros [R1 R2 R3 R4 R5 R6 R7] Hi Ht Hpc n.
  assert (Hlt : i < length (w_tasks w)) by (by eapply lookup_lt_Some).
  set (w' := Executor.setPc _ _ _ _).
  assert (Et : w_tasks w' = moved w i t (TCheck n e)) by done.
  assert (Hf : raceFailures (curRace w) (w_tasks w') = (raceFailures (curRace w) (w_tasks w) + 1)%Z).
  { rewrite Et, raceFailures_move by done. unfold failedT. rewrite Hpc. simpl. lia. }
  assert (Hc : raceCount (curRace w) (w_tasks w') = raceCount (curRace w) (w_tasks w))
    by (by rewrite Et, raceCount_move).
  pose proof (raceFailures_bounds (curRace w) (w_tasks w')) as Hb.
  pose proof (raceFailures_bounds (curRace w) (w_tasks w)) as Hb0.
  assert (En : n = (raceFailures (curRace w) (w_tasks w) + 1)%Z).
  { unfold n. rewrite R6. apply int32_id. lia. }
  split; try done.
  - intros j u [(_ & <- & _)|[_ Hj]]%list_lookup_insert_Some Hr; [done|by eapply R3].
  - change (totalPeers (w_req w) = (raceCount (curRace w) (w_tasks w') + Z.of_nat (length rest))%Z).
    by rewrite Hc.
  - change (n = raceFailures (curRace w) (w_tasks w')). by rewrite Hf.
  - intros Hl. exists i. eexists. split; [by apply list_lookup_insert_eq|].
    simpl in *. lia.
Qed.

Lemma openPc_insert w i t pc :
  (forall j u, w_tasks w !! j = Some u -> openPc (t_pc u)) -> openPc pc ->
  forall j u, moved w i t pc !! j = Some u -> openPc (t_pc u).
Proof. intros H Hp j u [(_ & <- & _)|[_ Hj]]%list_lookup_insert_Some; eauto. Qed.

(** What a task's step keeps, but for the owner's part. *)
Lemma live_task_frame w w' i t pc :
  live_inv w -> w_tasks w !! i = Some t -> w_tasks w' = moved w i t pc -> pc <> TAbandoned ->
  w_main w' = w_main w -> length (w_races w') = length (w_races w) -> w_ctx w' = w_ctx w ->
  w_joins w' = w_joins w -> w_pool w' = w_pool w ->
  (w_coordStopped w', w_execStopped w', w_raceStopped w')
  = (w_coordStopped w, w_execStopped w, w_raceStopped w) ->
  (once (w_req w') = OnceNew ->
    (forall j u, w_tasks w' !! j = Some u -> openPc (t_pc u)) /\ ownerOpen w') ->
  live_inv w'.
Proof.
  intros [L1 L2 L3 L4 L5 L6 L7] Hi Et Hpc Em Er Ec Ej Ep [= F1 F2 F3] Ho.
  assert (Hne : w_races w <> [] -> w_races w' <> [])
    by (intros Hn E; rewrite E in Er; by destruct (w_races w)).
  split; rewrite ?Ec, ?F1, ?F2, ?F3, ?Ep, ?Ej; try done.
  - unfold ownerWf in *. rewrite Em. destruct (w_main w); intuition auto.
  - rewrite Et, Er. intros j u [(_ & <- & _)|[_ Hj]]%list_lookup_insert_Some; [|by eapply L6].
    simpl. split; [by eapply L6|done].
Qed.

Lemma live_task cfg i d w w' :
  compl_inv (cf_hash cfg) w -> live_inv w -> Executor.taskStep cfg d i w = Some w' -> live_inv w'.
Proof.
  intros Hc Hl H. pose proof Hl as [L1 [L2 [L2' L2'']] L3 L4 L5 L6 L7]. unfold Executor.taskStep in H.
  destruct (w_tasks w !! i) as [t|] eqn:Hi; [|done].
  assert (Hd : once (w_req w) = OnceNew -> done (w_req w) = false).
  { intros Eo. pose proof (ci_once _ _ Hc) as Ho. unfold onceState in Ho. rewrite Eo in Ho. apply Ho. }
  (* a step that keeps the once, the counters and the race contexts *)
  assert (Hmove : forall pc, w_tasks w' = moved w i t pc -> pc <> TAbandoned ->
    w_main w' = w_main w -> w_races w' = w_races w -> w_ctx w' = w_ctx w ->
    w_joins w' = w_joins w -> w_pool w' = w_pool w ->
    (w_coordStopped w', w_execStopped w', w_raceStopped w')
    = (w_coordStopped w, w_execStopped w, w_raceStopped w) ->
    once (w_req w') = once (w_req w) -> completed (w_req w') = completed (w_req w) ->
    totalPeers (w_req w') = totalPeers (w_req w) ->
    (once (w_req w) = OnceNew -> openPc pc /\ failedPc pc = failedPc (t_pc t)
      /\ (completing (totalPeers (w_req w)) (t_pc t) -> completing (totalPeers (w_req w)) pc)) ->
    live_inv w').
  { intros pc Et Hna Em Er Ec Ej Ep Ef Eo E1 E2 Hop.
    eapply (live_task_frame w w' i t pc); try done; [by rewrite Er|].
    rewrite Eo. intros En. destruct (L7 En) as [Ho Hw], (Hop En) as (Hp & Hf & Hcm). split.
    - rewrite Et. by apply openPc_insert.
    - by eapply (ownerOpen_move w w' i t pc). }
  (* a step after which the request is no longer open *)
  assert (Hclosed : forall pc, w_tasks w' = moved w i t pc -> pc <> TAbandoned ->
    w_main w' = w_main w -> length (w_races w') = length (w_races w) -> w_ctx w' = w_ctx w ->
    w_joins w' = w_joins w -> w_pool w' = w_pool w ->
    (w_coordStopped w', w_execStopped w', w_raceStopped w')
    = (w_coordStopped w, w_execStopped w, w_raceStopped w) ->
    once (w_req w') <> OnceNew -> live_inv w').
  { intros pc Et Hna Em Er Ec Ej Ep Ef Hn. eapply (live_task_frame w w' i t pc); done. }
  assert (Hin : inOnce (t_pc t) = true -> once (w_req w) = OnceRunning).
  { intros Hin. by destruct (onceState_running _ _ _ _ _ (ci_once _ _ Hc) Hi Hin). }
  destruct (t_pc t) as [| | |e|e|e|k e|r|r|r|r|r|r|r|r] eqn:Hpc; try done; simplify_eq/=.
  - eapply Hmove; try reflexivity; [by destruct (Executor.checkEarlyExit _ _)|].
    intros En. destruct (L7 En) as [_ Hw].
    destruct (open_racing w i t Hw Hi) as (rest & Hr & Ht & _); [by rewrite Hpc|].
    replace (Executor.checkEarlyExit (t_race t) w) with false; [by simpl|].
    unfold Executor.checkEarlyExit, GetDone. by rewrite Ht, (ra_ctx _ _ Hr), (Hd En).
  - unfold Executor.received in H. destruct d as [b|e|]; [destruct (VerifyBlobHash b _)| |]; simplify_eq/=;
      (eapply Hmove; try reflexivity; done).
  - destruct (_ && _); (eapply Hmove; try reflexivity; done).
  - rewrite L2 in H. simplify_eq/=. eapply Hmove; try reflexivity; done.
  - eapply (live_task_frame w _ i t); try done. simpl. intros En. destruct (L7 En) as [Ho Hw].
    split; [by apply openPc_insert|].
    destruct (open_racing w i t Hw Hi) as (rest & Hr & Ht & Hback); [by rewrite Hpc|].
    apply Hback; [done|]. by apply racing_count.
  - eapply Hmove; try reflexivity; [by destruct (_ <=? _)%Z|]. intros _. unfold GetTotalPeers.
    destruct (Z.leb_spec (totalPeers (w_req w)) k); simpl; split_and!; try done; lia.
  - destruct (once (w_req w)) eqn:Eo; simplify_eq/=.
    + eapply Hclosed; try reflexivity; done.
    + eapply Hclosed; try reflexivity; try done. simpl. by rewrite Eo.
  - eapply Hclosed; try reflexivity; try done; simpl; [by rewrite length_alter|by rewrite Hin].
  - eapply Hclosed; try reflexivity; try done; simpl; by rewrite Hin.
  - eapply Hclosed; try reflexivity; try done. simpl. unfold MarkDone. destruct (doneOnce _); simpl; by rewrite Hin.
  - eapply Hclosed; try reflexivity; done.
  - eapply Hmove; try reflexivity; try done. intros En. destruct (L7 En) as [Ho _].
    specialize (Ho i t Hi). rewrite Hpc in Ho. simpl in *. by rewrite Ho.
  - eapply Hmove; try reflexivity; try done. intros En. destruct (L7 En) as [Ho _].
    specialize (Ho i t Hi). rewrite Hpc in Ho. simpl in *. by rewrite Ho.
Qed.

(** *** Steps of the owner *)

(** What a step of the owner that adds no task keeps. *)
Lemma live_owner w w' :
  live_inv w -> w_tasks w' = w_tasks w -> length (w_races w) <= length (w_races w') ->
  w_ctx w' = w_ctx w -> w_joins w' = w_joins w -> w_pool w' = w_pool w ->
  (w_coordStopped w', w_execStopped w', w_raceStopped w')
  = (w_coordStopped w, w_execStopped w, w_raceStopped w) ->
  ownerWf w' -> once (w_req w') = once (w_req w) ->
  (once (w_req w) = OnceNew -> ownerOpen w -> ownerOpen w') ->
  live_inv w'.
Proof.
  intros [L1 L2 L3 L4 L5 L6 L7] Et Er Ec Ej Ep [= F1 F2 F3] Hw Eo Ho.
  split; rewrite ?Ec, ?F1, ?F2, ?F3, ?Ep, ?Ej, ?Et, ?Eo; try done.
  - intros i t Hi. destruct (L6 i t Hi). split; [lia|done].
  - intros En. destruct (L7 En). auto.
Qed.

Lemma everyFailed_ext w w' : w_tasks w' = w_tasks w -> everyFailed w -> everyFailed w'.
Proof. intros E H i t. rewrite E. apply H. Qed.

Lemma racing_ext w w' rest :
  w_tasks w' = w_tasks w -> w_races w' = w_races w -> completed (w_req w') = completed (w_req w) ->
  totalPeers (w_req w') = totalPeers (w_req w) -> racing w rest -> racing w' rest.
Proof.
  intros Et Er E1 E2 [R1 R2 R3 R4 R5 R6 R7].
  assert (Ek : curRace w' = curRace w) by (unfold curRace; by rewrite Er).
  split; rewrite ?Ek, ?Et, ?Er, ?E1, ?E2; try done.
  unfold raceErr in *. by rewrite Er.
Qed.

(** The owner's part reads the tasks, the race contexts and the counters only. *)
Lemma ownerOpen_ext w w' :
  w_tasks w' = w_tasks w -> w_races w' = w_races w -> completed (w_req w') = completed (w_req w) ->
  totalPeers (w_req w') = totalPeers (w_req w) -> w_main w' = w_main w ->
  ownerOpen w -> ownerOpen w'.
Proof.
  intros Et Er E1 E2 Em Hw.
  pose proof (fun rest => racing_ext w w' rest Et Er E1 E2) as Hrc.
  pose proof (everyFailed_ext w w' Et) as Hef.
  unfold ownerOpen, curRace, raceErr in *. rewrite Em, Et, Er.
  destruct (w_main w); rewrite ?E1; intuition auto.
Qed.

Lemma nextPhase_live w ph e :
  ownerWf (setMain (nextPhase ph e) w) /\ (everyFailed w -> ownerOpen (setMain (nextPhase ph e) w)).
Proof. by destruct ph. Qed.

(** In the race, the checks before submitting let every task through. *)
Lemma beforeSubmit_open w ph final cs :
  live_inv w -> done (w_req w) = false -> racing w cs ->
  beforeSubmit ph final cs w = MSubmit ph final 0 cs.
Proof.
  intros [L1 [_ [L2 _]] L3 _ _ _ _] Hd Hr. unfold beforeSubmit, Executor.IsStopped,
    Executor.shouldSkipTask, Executor.getWorkerPool, GetDone. by rewrite L2, Hd, L3, (ra_ctx _ _ Hr).
Qed.

(** Once every task has been counted, every task has failed. *)
Lemma racing_all w :
  racing w [] -> (totalPeers (w_req w) <= completed (w_req w))%Z -> everyFailed w.
Proof.
  intros [R1 R2 R3 R4 R5 R6 R7] Hle i t Hi.
  destruct (decide (t_race t = curRace w)) as [E|]; [|by eapply R3].
  eapply raceFailures_all; [|done|done]. simpl in R4. lia.
Qed.

Section Small.
Variable cfg : Config Contact.
Hypothesis small : forall ph, (Z.of_nat (length (getContacts cfg ph)) < 2 ^ 31)%Z.

(** The start of a race: no task of it yet, and the counters set. *)
Lemma racing_start w ph final cs :
  live_inv w -> once (w_req w) = OnceNew -> w_main w = MInit2 ph final cs ->
  racing (setMain (MTasks ph final cs)
    (setReq (SetTotalPeers (int32 (Z.of_nat (length cs))) (w_req w)) w)) cs.
Proof.
  intros [L1 L2 L3 L4 L5 L6 L7] En Em. destruct (L7 En) as [_ Hw].
  unfold ownerOpen in Hw. unfold ownerWf in L5. rewrite Em in Hw, L5.
  destruct Hw as (Hf & Hc & Hn & Hr & Hk & He).
  assert (0 < length cs) by (destruct cs; [done|simpl; lia]).
  destruct L5 as [L5 _].
  assert (Ei : int32 (Z.of_nat (length cs)) = Z.of_nat (length cs)) by (apply int32_id; lia).
  pose proof (raceFailures_bounds (curRace w) (w_tasks w)) as Hb.
  split; simpl; try done.
  - intros i t Hi _. by eapply Hf.
  - change (int32 (Z.of_nat (length cs)) = (raceCount (curRace w) (w_tasks w) + Z.of_nat (length cs))%Z). lia.
  - rewrite Ei. lia.
  - change (completed (w_req w) = raceFailures (curRace w) (w_tasks w)). lia.
  - rewrite Ei, Hc. lia.
Qed.

Lemma racing_submit w ph final pool c cs rest :
  racing w (c :: rest) ->
  racing (setMain (MSubmit ph final pool cs)
    (setTasks (w_tasks w ++ [mkTask c (curRace w) pool TQueued]) w)) rest.
Proof.
  intros [R1 R2 R3 R4 R5 R6 R7]. set (w' := setMain _ _).
  assert (Hc : raceCount (curRace w) (w_tasks w') = (raceCount (curRace w) (w_tasks w) + 1)%Z).
  { simpl. unfold raceCount. rewrite sumZ_app. simpl. unfold inRace at 2. simpl. by rewrite bool_decide_true. }
  assert (Hf : raceFailures (curRace w) (w_tasks w') = raceFailures (curRace w) (w_tasks w)).
  { simpl. unfold raceFailures. rewrite sumZ_app. simpl. unfold failedIn at 2. simpl.
    rewrite bool_decide_true by done. unfold failedT. simpl. lia. }
  split; try done.
  - intros i t [Hi|[_ Hi]]%lookup_app_Some Hr; [by eapply R3|].
    by apply list_lookup_singleton_Some in Hi as [_ <-].
  - change (totalPeers (w_req w) = (raceCount (curRace w) (w_tasks w') + Z.of_nat (length rest))%Z).
    rewrite Hc. simpl in R4. lia.
  - change (completed (w_req w) = raceFailures (curRace w) (w_tasks w')). by rewrite Hf.
  - intros Hl. destruct (R7 Hl) as (i & t & Hi & Ht). exists i, t. split; [|done].
    simpl. by rewrite (lookup_app_l_Some _ _ _ _ Hi).
Qed.

Lemma live_main p w w' :
  compl_inv (cf_hash cfg) w -> told_inv w -> live_inv w -> mainStep cfg p w = Some w' -> live_inv w'.
Proof.
  intros Hc [Htold _] Hl H. unfold mainTold in Htold. pose proof Hl as [L1 [L2 [L2' L2'']] L3 L4 L5 L6 L7].
  assert (Hd : once (w_req w) = OnceNew -> done (w_req w) = false).
  { intros Eo. pose proof (ci_once _ _ Hc) as Ho. unfold onceState in Ho. rewrite Eo in Ho. apply Ho. }
  unfold mainStep, raceStep, submitStep in H. pose proof L5 as Hwf. unfold ownerWf in Hwf.
  assert (Hop : once (w_req w) = OnceNew -> ownerOpen w) by (intros En; by apply L7).
  unfold ownerOpen in Hop.
  destruct (w_main w) as [|q last|q k|q k|q k|q k|q fin k|q fin k|q fin k|q fin k|q fin pool k
    |q fin pool c k|q fin pool c k|q fin pool c k|q fin|q tot last|q r|q r|r] eqn:Em; try done.
  - injection H as <-. apply (live_owner w); try done.
    + by destruct (w_phaseStopped w).
    + intros En _. by destruct (w_phaseStopped w); apply Hop.
  - destruct (getContacts cfg q) as [|c k] eqn:Eg; [|destruct (_ && _)]; injection H as <-;
      apply (live_owner w); try done; try apply nextPhase_live; try (intros En _; apply nextPhase_live; auto).
    + pose proof (small q) as Hs. rewrite Eg in Hs. exact Hs.
    + intros En _. by apply Hop.
  - rewrite L2 in H. injection H as <-. apply (live_owner w); try done.
    intros En _. split; [by apply Hop|done].
  - injection H as <-. apply (live_owner w); try done. intros En _. by apply Hop.
  - injection H as <-. apply (live_owner w); try done. intros En _. by apply Hop.
  - injection H as <-. unfold limitContacts. destruct (_ <=? _)%Z.
    + apply (live_owner w); try done; try apply nextPhase_live.
      intros En _. apply nextPhase_live. by apply Hop.
    + apply (live_owner w); try done; [|intros En _; by apply Hop].
      unfold ownerWf. simpl. destruct (_ <? _)%Z; rewrite ?length_take; lia.
  - rewrite L2'' in H. destruct k as [|c k]; injection H as <-.
    + apply (live_owner w); try done; try apply nextPhase_live.
      intros En _. apply nextPhase_live. by apply Hop.
    + apply (live_owner w); try done; simpl;
        [rewrite length_app; lia|split; [done|by destruct (w_races w)]|].
      intros En _. destruct (Hop En) as [Hf Hz].
      assert (Hlen : pred (length (w_races w ++ [w_ctx w])) = length (w_races w))
        by (rewrite length_app; simpl; lia).
      unfold ownerOpen, raceErr, curRace. simpl. rewrite Hlen. split_and!; try done.
      * by destruct (w_races w).
      * apply raceCount_none. intros i t Hi. destruct (L6 i t Hi). lia.
      * by rewrite list_lookup_middle, L1.
  - injection H as <-. apply (live_owner w); try done. intros En _. by apply Hop.
  - injection H as <-. apply (live_owner w); try done; [apply Hwf|].
    intros En _. by apply racing_start.
  - injection H as <-. apply (live_owner w); try done.
    + unfold beforeSubmit, ownerWf, Executor.getWorkerPool. rewrite L3. by repeat case_match; simplify_eq/=.
    + intros En _. rewrite (beforeSubmit_open w q fin k Hl (Hd En) (Hop En)).
      unfold ownerOpen. simpl. by apply (racing_ext w), Hop.
  - destruct k as [|c k]; injection H as <-; apply (live_owner w); try done.
    + intros En _. by apply (racing_ext w), Hop.
    + unfold ownerWf. simpl. by destruct (Executor.shouldProceedWithTask _ _).
    + intros En _. unfold Executor.shouldProceedWithTask, GetDone.
      rewrite (Hd En), (ra_ctx _ _ (Hop En)). by apply (racing_ext w), Hop.
  - injection H as <-. apply (live_owner w); try done. intros En _. by apply (racing_ext w), Hop.
  - injection H as <-. apply (live_owner w); try done. intros En _. by apply (racing_ext w), Hop.
  - destruct Hwf as [-> Hne]. rewrite L3, decide_True in H by done. injection H as <-.
    split; simpl; try done.
    + intros i t [Hi|[_ Hi]]%lookup_app_Some; [by eapply L6|].
      apply list_lookup_singleton_Some in Hi as [_ <-]. simpl. split; [|done].
      unfold curRace. destruct (w_races w); [done|simpl; lia].
    + intros En. destruct (L7 En) as [Ho _]. split.
      * intros i t [Hi|[_ Hi]]%lookup_app_Some; [by eapply Ho|].
        by apply list_lookup_singleton_Some in Hi as [_ <-].
      * by apply racing_submit, Hop.
  - unfold waitStep, selectResult in H. rewrite L1 in H.
    assert (Hn : done (w_req w) = true -> once (w_req w) <> OnceNew)
      by (intros E En; by rewrite Hd in E).
    destruct fin; [|destruct p]; repeat (case_match; simplify_eq/=); try done;
      apply (live_owner w); try done; intros En _; try (by destruct Hn).
    unfold requestState in *. rewrite L2 in *. simplify_eq/=.
    split; [by apply (racing_ext w), Hop|]. apply (everyFailed_ext w); [done|].
    apply racing_all; [by apply Hop|]. by apply Z.leb_le.
  - injection H as <-. apply (live_owner w); try done. intros En _. by apply Hop.
  - injection H as <-. destruct (leaveWait_frame (w_ctx w) w) as (Ec & _ & _ & Et & _ & Ej & _ & _ & Er).
    injection Ec as Eo _ _ _. specialize (Er L1).
    apply (live_owner w); simpl; rewrite ?Er, ?Et, ?Ej; try done.
    all: unfold leaveWait; by repeat case_match.
  - injection H as <-. apply (live_owner w); simpl; rewrite ?length_alter; try done.
    + destruct r; [done|by destruct q|done].
    + intros En _. destruct r; [by apply Hop|by destruct q; apply Hop|done].
Qed.

Lemma live_join p i w w' : live_inv w -> joinStep p i w = Some w' -> live_inv w'.
Proof.
  intros Hl H. pose proof Hl as [L1 L2 L3 L4 L5 L6 L7]. unfold joinStep in H.
  destruct (w_joins w !! i) as [[ctx j]|] eqn:Hi; [|done].
  pose proof (L4 _ _ Hi) as Hctx. simpl in Hctx. subst ctx.
  assert (Hj : forall pc k j', <[i := (None, pc)]> (w_joins w) !! k = Some j' -> j'.1 = None).
  { intros pc k j' [(_ & <- & _)|[_ Hk]]%list_lookup_insert_Some; [done|by eapply L4]. }
  destruct j as [|r|r]; [|injection H as <-|done].
  - destruct (selectResult p None w); simplify_eq. split; try done; [apply Hj|].
    intros En. destruct (L7 En) as [Ho Hw]. split; [done|]. by apply (ownerOpen_ext w).
  - destruct (leaveWait_frame None w) as (Ec & E1 & E2 & Et & Em & Ej & _ & _ & Er).
    injection Ec as Eo _ _ _. specialize (Er eq_refl).
    assert (Hf : w_ctx (leaveWait None w) = w_ctx w /\ w_pool (leaveWait None w) = w_pool w
      /\ (w_coordStopped (leaveWait None w), w_execStopped (leaveWait None w), w_raceStopped (leaveWait None w))
         = (w_coordStopped w, w_execStopped w, w_raceStopped w)) by (unfold leaveWait; by repeat case_match).
    destruct Hf as (F1 & F2 & [= F3 F4 F5]).
    split; simpl; rewrite ?F1, ?F2, ?F3, ?F4, ?F5, ?Et, ?Er, ?Ej, ?Eo; try done.
    + apply Hj.
    + unfold ownerWf in *. simpl. by rewrite Em, Er.
    + intros En. destruct (L7 En) as [Ho Hw]. split; [done|]. by apply (ownerOpen_ext w).
Qed.

Lemma live_step ev w w' :
  compl_inv (cf_hash cfg) w -> told_inv w -> live_inv w -> quiet ev = true ->
  step cfg ev w = Some w' -> live_inv w'.
Proof.
  intros Hc Ht Hl Hq H. destruct ev; try discriminate Hq; simpl in H.
  - by eapply live_main.
  - by eapply live_task.
  - by eapply live_join.
  - apply (evJoin_eq cfg) in H as ->.
    destruct Hl as [L1 L2 L3 L4 L5 L6 L7]. split; try done.
    + intros i j [Hi|[_ Hi]]%lookup_app_Some; [by eapply L4|].
      by apply list_lookup_singleton_Some in Hi as [_ <-].
    + intros En. destruct (L7 En) as [Ho Hw]. split; [done|]. by apply (ownerOpen_ext w).
Qed.

Lemma live_run l m w :
  forallb quiet l = true -> run cfg l (initial m) = Some w -> live_inv w.
Proof.
  revert w. induction l as [|ev l IH] using rev_ind; intros w Hq H.
  - simpl in H. simplify_eq. split; simpl; try done.
  - rewrite forallb_app in Hq. apply andb_true_iff in Hq as [Hq1 Hq2]. simpl in Hq2.
    rewrite andb_true_r in Hq2. rewrite run_app in H.
    destruct (run cfg l (initial m)) as [w1|] eqn:E; [|done]. simpl in H.
    destruct (step cfg ev w1) as [w2|] eqn:E2; simplify_eq.
    assert (Hr : reachable cfg m w1) by (by exists l).
    eapply live_step; [by eapply compl_reachable|by eapply told_reachable|by apply IH|done|done].
Qed.

(** Unless the owner has returned, it or a task can take a step that is not a poll. *)
Lemma stuck_owner w :
  compl_inv (cf_hash cfg) w -> live_inv w ->
  mainStep cfg PickDone w = None -> (forall i, Executor.taskStep cfg (Err (ESent EOF)) i w = None) ->
  exists r, w_main w = MReturn r.
Proof.
  intros Hc Hl Hmain Htask. pose proof Hl as [L1 [L2 [L2' L2'']] L3 L4 L5 L6 L7].
  assert (Hwait : (exists r, w_main w = MReturn r) \/ exists ph final, w_main w = MWait ph final).
  { unfold mainStep, raceStep, submitStep in Hmain. destruct (w_main w); eauto;
      repeat case_match; discriminate. }
  destruct Hwait as [Hr|(ph & final & Em)]; [done|exfalso].
  assert (Hnd : done (w_req w) = false).
  { unfold mainStep, raceStep, submitStep, waitStep, selectResult, GetDone in Hmain.
    rewrite Em in Hmain. destruct (done (w_req w)); [|done].
    destruct final, (w_ctx w); discriminate. }
  pose proof (ci_once _ _ Hc) as Ho. unfold onceState in Ho.
  destruct (once (w_req w)) eqn:Eo.
  - destruct (L7 eq_refl) as [Hop Hw]. unfold ownerOpen in Hw. rewrite Em in Hw.
    assert (Hdone : forall i t, w_tasks w !! i = Some t -> exists r, t_pc t = TDone r).
    { intros i t Hi. specialize (Htask i). specialize (Hop i t Hi).
      unfold Executor.taskStep in Htask. rewrite Hi in Htask.
      destruct (t_pc t); try done; eauto; repeat case_match; discriminate. }
    assert (Hall : everyFailed w).
    { intros i t Hi. destruct (Hdone i t Hi) as [r Hr]. specialize (Hop i t Hi).
      rewrite Hr in Hop |- *. done. }
    destruct Hw as [R1 R2 R3 R4 R5 R6 R7].
    destruct R7 as (i & t & Hi & Ht).
    { rewrite R6, R4. simpl. rewrite Z.add_0_r.
      pose proof (raceFailures_bounds (curRace w) (w_tasks w)) as Hb.
      apply Z.le_antisymm; [lia|]. apply Z.eq_le_incl. unfold raceCount, raceFailures.
      clear - Hall. unfold everyFailed in Hall. induction (w_tasks w) as [|t l IH]; [done|].
      change (inRace (curRace w) t + sumZ (inRace (curRace w)) l
        = failedIn (curRace w) t + sumZ (failedIn (curRace w)) l)%Z.
      rewrite IH by (intros i u Hu; by apply (Hall (S i))).
      unfold inRace, failedIn, failedT. by rewrite (Hall 0 t eq_refl). }
    destruct (Hdone i t Hi) as [r Hr]. by rewrite Hr in Ht.
  - destruct Ho as (i & t & Hi & _ & Hm). specialize (Htask i).
    unfold Executor.taskStep in Htask. rewrite Hi in Htask. by destruct (t_pc t).
  - destruct Ho as [Ho _]. congruence.
Qed.

Lemma someone_moves w :
  compl_inv (cf_hash cfg) w -> live_inv w ->
  (exists r, w_main w = MReturn r) \/ exists ev, moves ev w = true /\ is_Some (step cfg ev w).
Proof.
  intros Hc Hl. destruct (mainStep cfg PickDone w) as [w'|] eqn:Em.
  { right. exists (EvMain PickDone). split; [done|]. by exists w'. }
  destruct (decide (Forall (fun i => Executor.taskStep cfg (Err (ESent EOF)) i w = None) (seq 0 (length (w_tasks w)))))
    as [Hf|Hf].
  - left. apply stuck_owner; [done..|]. intros i. rewrite Forall_forall in Hf.
    destruct (decide (i < length (w_tasks w))) as [Hi|Hi]; [apply Hf, elem_of_seq; lia|].
    unfold Executor.taskStep. by rewrite lookup_ge_None_2 by lia.
  - right. apply not_Forall_Exists in Hf; [|solve_decision]. apply Exists_exists in Hf as (i & _ & Hi).
    exists (EvTask i (Err (ESent EOF))). split; [done|]. by apply not_eq_None_Some.
Qed.
End Small.

(** ** Endless executions *)

(** What happens at each moment, if anything, and the state before it. *)
Definition execution cfg m (sched : nat -> option event) (ws : nat -> World Contact) : Prop :=
  ws 0 = initial m
  /\ forall n, match sched n with Some ev => step cfg ev (ws n) = Some (ws (S n)) | None => ws (S n) = ws n end.

Definition movesAt (sched : nat -> option event) (ws : nat -> World Contact) (n : nat) : bool :=
  match sched n with Some ev => moves ev (ws n) | None => false end.
Fixpoint movesBefore (sched : nat -> option event) (ws : nat -> World Contact) (n : nat) : nat :=
  match n with 0 => 0 | S n => movesBefore sched ws n + (if movesAt sched ws n then 1 else 0) end.
Fixpoint joinsBefore (sched : nat -> option event) (n : nat) : nat :=
  match n with
  | 0 => 0
  | S n => joinsBefore sched n + match sched n with Some ev => if joins ev then 1 else 0 | None => 0 end
  end.

(** Whenever a goroutine can do something else than poll, sooner or later one does. *)
Definition fair cfg (sched : nat -> option event) (ws : nat -> World Contact) : Prop :=
  forall n ev, moves ev (ws n) = true -> is_Some (step cfg ev (ws n)) ->
    exists n', n <= n' /\ movesAt sched ws n' = true.

Lemma movesBefore_mono sched ws n n' : n <= n' -> movesBefore sched ws n <= movesBefore sched ws n'.
Proof. induction 1; simpl; lia. Qed.

Lemma execution_work cfg m sched ws n :
  execution cfg m sched ws ->
  work cfg (ws n) + movesBefore sched ws n <= work cfg (initial m) + 2 * joinsBefore sched n.
Proof.
  intros [E0 ES]. induction n as [|n IH]; [rewrite E0; simpl; lia|]. specialize (ES n). simpl.
  unfold movesAt. destruct (sched n) as [ev|]; [|rewrite ES; lia].
  apply step_work in ES. destruct (joins ev); lia.
Qed.

Lemma execution_run cfg m sched ws n :
  execution cfg m sched ws ->
  exists l, run cfg l (initial m) = Some (ws n)
    /\ ((forall k ev, sched k = Some ev -> quiet ev = true) -> forallb quiet l = true).
Proof.
  intros [E0 ES]. induction n as [|n (l & Hl & Hq)]; [exists []; by rewrite E0|]. specialize (ES n).
  destruct (sched n) as [ev|] eqn:E; [|exists l; by rewrite ES]. exists (l ++ [ev]). split.
  - rewrite run_app, Hl. simpl. by rewrite ES.
  - intros H. rewrite forallb_app, (Hq H). simpl. by rewrite (H n ev E).
Qed.

Lemma fair_returns cfg m sched ws J :
  (forall ph, (Z.of_nat (length (getContacts cfg ph)) < 2 ^ 31)%Z) -> execution cfg m sched ws ->
  (forall k ev, sched k = Some ev -> quiet ev = true) -> (forall n, joinsBefore sched n <= J) ->
  fair cfg sched ws -> forall n, exists n' r, n <= n' /\ w_main (ws n') = MReturn r.
Proof.
  intros Hs Hx Hq HJ Hf n. remember (work cfg (initial m) + 2 * J - movesBefore sched ws n) as k eqn:Ek.
  revert n Ek. induction k as [k IH] using lt_wf_ind. intros n Ek.
  destruct (execution_run cfg m sched ws n Hx) as (l & Hl & Hql). specialize (Hql Hq).
  destruct (someone_moves cfg (ws n)) as [[r Hr]|(ev & Hev & Hst)].
  - apply (compl_reachable cfg m). by exists l.
  - by eapply live_run.
  - by exists n, r.
  - destruct (Hf n ev Hev Hst) as (n1 & Hle & Hm1).
    assert (Hlt : movesBefore sched ws n < movesBefore sched ws (S n1)).
    { apply movesBefore_mono with (sched := sched) (ws := ws) in Hle. simpl. rewrite Hm1. lia. }
    pose proof (execution_work cfg m sched ws (S n1) Hx) as Hw. pose proof (HJ (S n1)).
    destruct (IH (work cfg (initial m) + 2 * J - movesBefore sched ws (S n1)) ltac:(lia) (S n1) eq_refl)
      as (n' & r & Hn' & Hr). exists n', r. split; [lia|done].
Qed.

(** ** Theorems *)

(** C28. Every download terminates.  Whatever the schedule, and whoever cancels, stops or
    reconfigures what, the goroutines of a download (the owner, its tasks and the callers
    that joined) take at most a number of steps that is linear in the number of contacts
    and of callers, not counting the turns of the owner's polling loop that find peers
    still running; those change nothing, and there may be any number of them.  But the
    polling ends: in an endless execution that nobody disturbs, with finitely many callers,
    in which the goroutines are not all kept waiting for ever while the owner polls, the
    owner returns. *)
Theorem download_terminates cfg m sched ws :
  execution cfg m sched ws ->
  (forall n, movesBefore sched ws n
     <= 18 * (length (getContacts cfg PhaseDHT) + length (getContacts cfg PhaseFixed)) + 41
        + 2 * joinsBefore sched n)
  /\ (forall n ev, sched n = Some ev -> polls ev (ws n) = true -> ws (S n) = ws n)
  /\ ((forall ph, (Z.of_nat (length (getContacts cfg ph)) < 2 ^ 31)%Z) ->
      (forall n ev, sched n = Some ev -> quiet ev = true) ->
      (exists J, forall n, joinsBefore sched n <= J) -> fair cfg sched ws ->
      exists n r, w_main (ws n) = MReturn r).
Proof.
  intros Hx. split_and!.
  - intros n. apply execution_work with (n := n) in Hx.
    change (work cfg (initial m)) with (contactsWork (getContacts cfg PhaseDHT) + 20
      + (contactsWork (getContacts cfg PhaseFixed) + 20) + 1 + 0 + 0) in Hx.
    unfold contactsWork in Hx. lia.
  - intros n ev En Hp. destruct Hx as [_ ES]. specialize (ES n). rewrite En in ES. by eapply polls_same.
  - intros Hs Hq [J HJ] Hf. destruct (fair_returns cfg m sched ws J Hs Hx Hq HJ Hf 0) as (n & r & _ & Hr). eauto.
Qed.

(** C27. And it gets there: in a run in which nobody cancels, times out or stops anything,
    a state that no step of a goroutine changes (so that nobody can do anything, except for
    an owner that polls in vain) is one in which the owner has returned. *)
Theorem download_progress cfg m (l : list event) w :
  (forall ph, (Z.of_nat (length (getContacts cfg ph)) < 2 ^ 31)%Z) ->
  forallb quiet l = true -> run cfg l (initial m) = Some w ->
  (forall ev w', internal ev = true -> step cfg ev w = Some w' -> w' = w) ->
  exists r, w_main w = MReturn r.
Proof.
  intros Hs Hq Hrun Hst. destruct (someone_moves cfg w) as [Hr|(ev & Hm & [w' Hw])]; [|by eapply live_run|done|exfalso].
  - apply (compl_reachable cfg m). by exists l.
  - pose proof Hm as [Hi _]%andb_true_iff. apply step_work in Hw as Hlt. rewrite Hm in Hlt.
    rewrite (Hst ev w' Hi Hw) in Hlt. assert (joins ev = false) as Hj by (by destruct ev). rewrite Hj in Hlt. lia.
Qed.
End Live.

(** A download with a DHT peer and a fixed peer: the owner polls twice before the DHT peer
    fails. *)
Definition pollingConfig : Config nat := mkConfig [] (Ok [1]) [9] (fun c => c =? 9) 5.
Definition pollingRun : list event :=
  repeat (EvMain PickDone) 15 ++ [EvMain PickTimer; EvMain PickTimer]
  ++ repeat (EvTask 0 (Err (ESent EOF))) 13 ++ repeat (EvMain PickDone) 14.

(** A schedule as an execution: nothing happens after its end. *)
Definition statesOf {Contact} (cfg : Config Contact) m (l : list event) (n : nat) : World Contact :=
  match run cfg (take n l) (initial m) with Some w => w | None => initial m end.

Lemma execution_of {Contact} (cfg : Config Contact) m l w :
  run cfg l (initial m) = Some w -> execution cfg m (fun n => l !! n) (statesOf cfg m l).
Proof.
  intros H. split; [done|]. intros n. unfold statesOf. destruct (l !! n) as [ev|] eqn:E.
  - rewrite (take_S_r _ _ _ E), run_app. rewrite <- (take_drop n l), run_app in H.
    rewrite (drop_S _ _ _ E) in H. destruct (run cfg (take n l) (initial m)) as [w1|]; [|done].
    simpl in *. by destruct (step cfg ev w1).
  - apply lookup_ge_None_1 in E. by rewrite !take_ge by lia.
Qed.

Lemma no_joins (l : list event) n :
  Forall (fun ev => joins ev = false) l -> joinsBefore (fun k => l !! k) n = 0.
Proof.
  rewrite Forall_lookup. intros H. induction n as [|n IH]; [done|]. simpl. rewrite IH.
  destruct (l !! n) eqn:E; [by rewrite (H _ _ E)|done].
Qed.

Lemma download_terminates_witness :
  let sched n := pollingRun !! n in
  let ws := statesOf pollingConfig 1 pollingRun in
  movesBefore sched ws 44 = 42 /\ movesBefore sched ws 44 <= 18 * (1 + 1) + 41 + 2 * joinsBefore sched 44
  /\ ws 17 = ws 15 /\ exists n r, w_main (ws n) = MReturn r.
Proof.
  intros sched ws.
  destruct (run pollingConfig pollingRun (initial 1)) as [w|] eqn:E; [|vm_compute in E; discriminate E].
  destruct (download_terminates pollingConfig 1 sched ws (execution_of _ _ _ _ E)) as (H1 & H2 & H3).
  split; [vm_compute; reflexivity|]. split; [exact (H1 44)|]. split.
  - transitivity (ws 16); [apply (H2 16 (EvMain PickTimer))|apply (H2 15 (EvMain PickTimer))]; vm_compute; reflexivity.
  - apply H3.
    + intros []; simpl; lia.
    + intros n ev Hn. assert (Forall (fun ev => quiet ev = true) pollingRun) as Hf by (repeat constructor).
      rewrite Forall_lookup in Hf. exact (Hf n ev Hn).
    + exists 0. intros n. unfold sched. rewrite no_joins; [reflexivity|]. repeat constructor.
    + intros n ev Hm [w' Hw]. destruct (decide (n <= 43)) as [Hle|Hgt].
      * exists 43. split; [exact Hle|]. vm_compute. reflexivity.
      * exfalso. assert (En : ws n = ws 44) by (unfold ws, statesOf; f_equal; rewrite !take_ge by (simpl; lia); reflexivity).
        rewrite En in Hm, Hw. clear En.
        assert (Hn : step pollingConfig ev (ws 44) = None); [|rewrite Hn in Hw; discriminate Hw]. clear Hw.
        apply andb_true_iff in Hm as [Hi _].
        destruct ev as [[]|[|i] d|i p| | | | | | | | | | |]; try discriminate Hi; vm_compute; reflexivity.
Defined.

(** The state of the sample download once everybody has returned. *)
Lemma download_progress_witness :
  exists w, run sampleConfig (sampleRun ++ sampleEnd) (initial 1) = Some w
    /\ exists r, w_main w = MReturn r.
Proof.
  destruct (run sampleConfig (sampleRun ++ sampleEnd) (initial 1))
    as [w|] eqn:E; [|vm_compute in E; discriminate E].
  exists w. split; [reflexivity|].
  apply (download_progress sampleConfig 1 (sampleRun ++ sampleEnd) w);
    [intros []; simpl; lia|reflexivity|exact E|].
  assert (E' := E). vm_compute in E'. injection E' as E'.
  intros [p|i d|i p| | | | | | | | | | |] w' Hi; try discriminate Hi; rewrite <- E'.
  - destruct p; discriminate.
  - destruct i as [|[|i]]; discriminate.
  - destruct i as [|[|i]]; discriminate.
Defined.
