(* ===== verification/RaceSpec.v ===== *)
(** * What a download promises its callers, and where it falls short

    The machine of Race.v refines a write-once cell that its callers read; and two
    behaviours of the code that its comments do not intend: the fixed peers are not asked
    once the DHT peers have failed, and callers can wait for a request that nobody will
    complete. *)
From stdpp Require Import base tactics list numbers strings gmap.
From Stdlib Require Import ZArith Lia Init.Byte.
From S2P Require Import Prelude GoStd Errors Blob Store Request Race RaceInv.
Import Phases.
Local Open Scope Z_scope.

(** ** The abstract download *)

Module Cell.

(** The result, once there is one; what the owner returned; what each joined caller
    returned. *)
Record State := mkState {
  result : option (Prelude.result bytes);
  owner : option (Prelude.result bytes);
  callers : list (option (Prelude.result bytes))
}.

(** The cell is written once, with data that has the hash or with an error; a caller
    returns what is written, or gives up with the cause of its own context; the owner
    returns data only if it is what is written. *)
Inductive step (hash : bytes) : State -> State -> Prop :=
  | Write r own cs :
      (forall d, r = Ok d -> VerifyBlobHash d hash = Ok tt) ->
      step hash (mkState None own cs) (mkState (Some r) own cs)
  | Join r own cs : step hash (mkState r own cs) (mkState r own (cs ++ [None]))
  | Read r own cs i :
      cs !! i = Some None ->
      step hash (mkState (Some r) own cs) (mkState (Some r) own (<[i := Some r]> cs))
  | GiveUp r own cs i c :
      cs !! i = Some None ->
      step hash (mkState r own cs) (mkState r own (<[i := Some (Err (ESent c))]> cs))
  | Return r own cs :
      (forall d, own = Ok d -> r = Some (Ok d)) ->
      step hash (mkState r None cs) (mkState r (Some own) cs).
End Cell.

Section Spec.
Context {Contact : Type}.
Implicit Types (w : World Contact) (t : Task Contact) (cfg : Config Contact).

Definition callerView (j : option sentinel * joinPc) : option (result bytes) :=
  match j.2 with JWait => None | JExit r | JReturn r => Some r end.

Definition view w : Cell.State :=
  Cell.mkState
    (if GetDone (w_req w) then Some (outcome (GetResult (w_req w))) else None)
    (match w_main w with MReturn r => Some r | _ => None end)
    (callerView <$> w_joins w).

Lemma view_same w w' :
  completion (w_req w') = completion (w_req w) -> w_main w' = w_main w ->
  callerView <$> w_joins w' = callerView <$> w_joins w -> view w' = view w.
Proof. intros [= E1 E2 E3 E4] Em Ej. unfold view, GetDone, GetResult. by rewrite E2, E4, Em, Ej. Qed.

(** A task writes the cell, or does nothing the callers see. *)
Lemma view_task cfg i d w w' :
  compl_inv (cf_hash cfg) w -> compl_inv (cf_hash cfg) w' ->
  Executor.taskStep cfg d i w = Some w' ->
  view w' = view w \/ Cell.step (cf_hash cfg) (view w) (view w').
Proof.
  intros Hc Hc' H.
  assert (w_main w' = w_main w /\ w_joins w' = w_joins w) as [Em Ej].
  { unfold Executor.taskStep in H. repeat (case_match; simplify_eq/=); done. }
  pose proof (done_stable cfg (EvTask i d) w w' Hc H) as Hst.
  unfold view. rewrite Em, Ej. unfold GetDone, GetResult.
  destruct (done (w_req w)) eqn:Hd.
  - destruct (Hst eq_refl) as [-> ->]. by left.
  - destruct (done (w_req w')) eqn:Hd'; [|by left]. right. constructor. intros b Hb.
    destruct (ci_result _ _ Hc' Hd') as (r & Hg & E). rewrite E in Hb.
    destruct r; try done. simpl in Hb. by injection Hb as <-.
Qed.

Lemma view_join cfg p i w w' :
  joinStep p i w = Some w' -> view w' = view w \/ Cell.step (cf_hash cfg) (view w) (view w').
Proof.
  unfold joinStep. intros H. destruct (w_joins w !! i) as [[ctx j]|] eqn:Hi; [|done].
  destruct j as [|r|r]; [|injection H as <-|done].
  - assert (Hv : (callerView <$> w_joins w) !! i = Some None) by (by rewrite list_lookup_fmap, Hi).
    destruct (selectResult p ctx w) as [r|] eqn:Er; simplify_eq/=. right.
    unfold view. simpl. rewrite list_fmap_insert. unfold selectResult in Er. simpl.
    destruct p; [destruct ctx; [|done]; simplify_eq; by constructor| |by destruct ctx].
    destruct (GetDone (w_req w)); [|by destruct ctx]. destruct ctx; simplify_eq; by constructor.
  - left. destruct (leaveWait_frame ctx w) as (Ec & _ & _ & _ & Em & Ej & _).
    apply view_same; [done|done|]. simpl. rewrite Ej, list_fmap_insert. simpl.
    apply list_insert_id. by rewrite list_lookup_fmap, Hi.
Qed.

Lemma view_main cfg p w w' :
  told_inv w' -> mainStep cfg p w = Some w' ->
  view w' = view w \/ Cell.step (cf_hash cfg) (view w) (view w').
Proof.
  intros [Ht _] H. destruct (other_frame cfg (EvMain p) w w') as [[= E1 E2 E3 E4] _]; [done|done|].
  assert (Ej : w_joins w' = w_joins w).
  { unfold mainStep, raceStep, submitStep, waitStep in H. destruct (w_main w); simplify_eq/=;
      repeat (case_match; simplify_eq/=); try done. apply leaveWait_frame. }
  assert (Hr : forall r, w_main w <> MReturn r).
  { intros r E. unfold mainStep, raceStep, submitStep in H. by rewrite E in H. }
  unfold view, GetDone, GetResult. rewrite E2, E4, Ej.
  replace (match w_main w with MReturn r => Some r | _ => None end) with (@None (result bytes))
    by (destruct (w_main w); try done; by destruct (Hr r)).
  destruct (w_main w') as [| | | | | | | | | | | | | | | | | |r] eqn:Em'; try (by left).
  right. constructor. intros d ->. unfold mainTold in Ht. rewrite Em' in Ht. destruct Ht as [Hd Hres].
  rewrite <- E2, <- E4, Hd, Hres. done.
Qed.

(** C26. The download refines a write-once cell: every step of the machine, of any
    goroutine, is invisible to the callers or is a step of the cell, which is written at
    most once, with verified data or an error, and read by every caller that does not
    give up first. *)
Theorem download_refines_cell cfg m w ev w' :
  reachable cfg m w -> step cfg ev w = Some w' ->
  view w' = view w \/ Cell.step (cf_hash cfg) (view w) (view w').
Proof.
  intros Hr H. pose proof (compl_reachable cfg m w Hr) as Hc.
  pose proof (compl_step cfg ev w w' Hc H) as Hc'.
  pose proof (told_step cfg ev w w' Hc (told_reachable cfg m w Hr) H) as Ht'.
  destruct (isExecOp ev) eqn:He.
  { left. destruct (exec_frame cfg ev w w' He H) as (Er & Em & Ej & _).
    apply view_same; by rewrite ?Er, ?Em, ?Ej. }
  destruct ev; try discriminate He; simpl in H;
    try (left; injection H as <-; by apply view_same).
  - by eapply view_main.
  - by eapply view_task.
  - by eapply view_join.
  - apply (evJoin_eq cfg) in H as ->.
    right. unfold view. simpl. rewrite fmap_app. constructor.
  - left. injection H as <-. apply view_same; [done|done|]. simpl.
    apply list_eq. intros k. rewrite !list_lookup_fmap, list_lookup_alter.
    case_decide; [subst|done]. by destruct (w_joins w !! k).
  - destruct (w_ctx w); simplify_eq. left. by apply view_same.
Qed.

(** ** The fallback *)

(** The owner is not submitting tasks. *)
Definition idle (m : mainPc Contact) : bool :=
  match m with
  | MSubmit _ _ _ _ | MSubmitted _ _ _ _ _ | MPending _ _ _ _ _ | MEnqueue _ _ _ _ _ => false
  | _ => true
  end.

Lemma idle_done_main cfg p w w' :
  done (w_req w) = true -> idle (w_main w) = true -> mainStep cfg p w = Some w' ->
  idle (w_main w') = true /\ length (w_tasks w') = length (w_tasks w).
Proof.
  intros Hd Hi H. unfold mainStep, raceStep, submitStep, waitStep in H.
  pose proof (leaveWait_frame (w_ctx w) w) as (_ & _ & _ & Et & _).
  destruct (w_main w) eqn:Em; try discriminate Hi; simplify_eq/=; try done.
  all: try (unfold limitContacts, beforeSubmit, nextPhase, Executor.shouldSkipTask, GetDone in *;
            repeat (case_match; simplify_eq/=); rewrite ?Em; done).
  by rewrite Et.
Qed.

Lemma idle_done_step cfg ev w w' :
  compl_inv (cf_hash cfg) w -> done (w_req w) = true -> idle (w_main w) = true ->
  step cfg ev w = Some w' ->
  done (w_req w') = true /\ idle (w_main w') = true /\ length (w_tasks w') = length (w_tasks w).
Proof.
  intros Hc Hd Hi H. destruct (done_stable cfg ev w w' Hc H Hd) as [Hd' _]. split; [done|].
  destruct (isExecOp ev) eqn:He.
  { destruct (exec_frame cfg ev w w' He H) as (_ & -> & _ & _ & _ & _ & Ht). split; [done|].
    destruct Ht as [->|[p ->]]; by rewrite ?length_fmap. }
  destruct ev; try discriminate He; simpl in H; try (by simplify_eq).
  - by eapply idle_done_main.
  - unfold Executor.taskStep in H. repeat (case_match; simplify_eq/=); (split; [done|apply length_insert]).
  - unfold joinStep in H. destruct (w_joins w !! i) as [[ctx [|r|r]]|]; try done.
    + by destruct (selectResult p ctx w); simplify_eq.
    + destruct (leaveWait_frame ctx w) as (_ & _ & _ & Et & Em & _). simplify_eq/=. by rewrite Et, Em.
  - by apply (evJoin_eq cfg) in H as ->.
  - by destruct (w_ctx w); simplify_eq.
Qed.

(** The fallback does not happen once the request is done: when the owner comes to the
    fixed-peer phase with the request already completed, which is where the failure of the
    last DHT peer leaves it, no schedule ever submits a task again, so no fixed peer is
    asked, and the owner cannot return data that the request does not hold. *)
Theorem no_fallback_after_failure cfg m w last e (l : list event) w' :
  reachable cfg m w -> w_main w = MPhase PhaseFixed last ->
  GetDone (w_req w) = true -> outcome (GetResult (w_req w)) = Err e ->
  run cfg l w = Some w' ->
  length (w_tasks w') = length (w_tasks w) /\ (forall d, w_main w' <> MReturn (Ok d)).
Proof.
  intros [l0 Hl0] Em Hd He Hrun.
  assert (Hr : reachable cfg m w) by (by exists l0).
  assert (Hlen : length (w_tasks w') = length (w_tasks w)).
  { assert (Hi : idle (w_main w) = true) by (by rewrite Em).
    assert (Hc : compl_inv (cf_hash cfg) w) by (by eapply compl_reachable).
    clear Em He Hr Hl0. unfold GetDone in Hd. revert w Hd Hi Hc Hrun.
    induction l as [|ev l IH]; intros w Hd Hi Hc Hrun; simpl in Hrun; [by simplify_eq|].
    destruct (step cfg ev w) as [w1|] eqn:E; [|done].
    destruct (idle_done_step cfg ev w w1 Hc Hd Hi E) as (Hd1 & Hi1 & <-).
    apply IH; try done. by eapply compl_step. }
  split; [done|]. intros d Em'.
  assert (Hr' : reachable cfg m w') by (exists (l0 ++ l); by rewrite run_app, Hl0).
  destruct (told_reachable cfg m w' Hr') as [Ht _]. unfold mainTold in Ht. rewrite Em' in Ht.
  destruct Ht as [_ Hres].
  assert (result_ (w_req w') = result_ (w_req w)) as Hsame.
  { assert (Hc : compl_inv (cf_hash cfg) w) by (by eapply compl_reachable).
    clear - Hrun Hc Hd. unfold GetDone in Hd. revert w Hd Hc Hrun.
    induction l as [|ev l IH]; intros w Hd Hc Hrun; simpl in Hrun; [by simplify_eq|].
    destruct (step cfg ev w) as [w1|] eqn:E; [|done].
    destruct (done_stable cfg ev w w1 Hc E Hd) as [Hd1 <-].
    apply IH; [done|by eapply compl_step|done]. }
  unfold outcome, GetErr, GetResult in He. by rewrite <- Hsame, Hres in He.
Qed.

(** ** Callers of a request nobody completes *)

(** No task can run any more. *)
Definition ended t : bool := match t_pc t with TDone _ | TAbandoned => true | _ => false end.

(** The owner only waits, or has returned. *)
Definition waiting (m : mainPc Contact) : bool :=
  match m with MWait _ true | MReturn _ => true | _ => false end.

Record orphaned w : Prop := {
  or_done : done (w_req w) = false;
  or_tasks : forallb ended (w_tasks w) = true;
  or_main : waiting (w_main w) = true;
  or_ctx : w_ctx w = None
}.

Definition cancels (ev : event) : bool :=
  match ev with EvCancel _ | EvJoinCancel _ _ => true | _ => false end.

Lemma orphaned_step cfg ev w w' :
  orphaned w -> cancels ev = false -> step cfg ev w = Some w' ->
  orphaned w' /\ w_main w' = w_main w
  /\ (forall i, w_joins w !! i = Some (None, JWait) -> w_joins w' !! i = Some (None, JWait)).
Proof.
  intros [Hd Ht Hm Hc] Hev H.
  assert (Hab : forall p, forallb ended (Executor.abandon p <$> w_tasks w) = true).
  { intros p. rewrite forallb_forall in Ht |- *. intros t Hin.
    apply list_elem_of_In, list_elem_of_fmap in Hin as (u & -> & Hu). apply list_elem_of_In, Ht in Hu.
    unfold ended, Executor.abandon in *. by destruct (t_pc u) eqn:E; rewrite ?E. }
  destruct (isExecOp ev) eqn:He.
  { destruct (exec_frame cfg ev w w' He H) as (Er & Em & Ej & _ & Ec & _ & Hts).
    rewrite Em, Ej. split; [|done]. split; rewrite ?Er, ?Em, ?Ec; try done.
    destruct Hts as [->|[p ->]]; auto. }
  destruct ev; try discriminate He; try discriminate Hev; simpl in H; try (by simplify_eq).
  - exfalso. unfold mainStep, raceStep, submitStep, waitStep, selectResult in H.
    destruct (w_main w) as [| | | | | | | | | | | | | |ph []| | | |r]; try discriminate Hm; try done.
    rewrite Hc in H. unfold GetDone in H. rewrite Hd in H. by destruct p.
  - exfalso. unfold Executor.taskStep in H. destruct (w_tasks w !! i) as [t|] eqn:Hi; [|done].
    rewrite forallb_forall in Ht. specialize (Ht t (proj1 (list_elem_of_In _ _) (list_elem_of_lookup_2 _ _ _ Hi))).
    unfold ended in Ht. by destruct (t_pc t).
  - unfold joinStep in H. destruct (w_joins w !! i) as [[ctx [|r|r]]|] eqn:Hi; try done.
    + destruct (selectResult p ctx w) as [r|] eqn:Er; simplify_eq/=. split; [done|]. split; [done|].
      intros k Hk. rewrite list_lookup_insert_ne; [done|]. intros <-. simplify_eq.
      unfold selectResult, GetDone in Er. rewrite Hd in Er. by destruct p.
    + destruct (leaveWait_frame ctx w) as (Ec & _ & _ & Et & Em & Ej & _).
      injection Ec as _ Ed _ _. injection H as <-. simpl.
      assert (Ecx : w_ctx (leaveWait ctx w) = w_ctx w) by (unfold leaveWait; by repeat case_match).
      split; [by split; simpl; rewrite ?Et, ?Em, ?Ed, ?Ecx|]. split; [done|].
      intros k Hk. rewrite Ej, list_lookup_insert_ne; [done|]. intros <-. simplify_eq.
  - apply (evJoin_eq cfg) in H as ->.
    split; [done|]. split; [done|]. intros k Hk. by apply lookup_app_l_Some.
  - destruct (w_ctx w); simplify_eq.
Qed.

(** A request can be left to hang: in a state where no task is left to run, the
    request is not done and the owner waits for its final phase or has returned, no
    schedule that cancels no caller's context completes the request: the owner never moves
    on and every caller that joined waits for ever. *)
Theorem orphaned_callers_hang cfg w (l : list event) w' :
  orphaned w -> existsb cancels l = false -> run cfg l w = Some w' ->
  GetDone (w_req w') = false /\ w_main w' = w_main w
  /\ (forall i, w_joins w !! i = Some (None, JWait) -> w_joins w' !! i = Some (None, JWait)).
Proof.
  revert w. induction l as [|ev l IH]; intros w Ho Hl Hrun; simpl in Hrun, Hl.
  - simplify_eq. split; [by apply or_done|done].
  - apply orb_false_iff in Hl as [Hev Hl]. destruct (step cfg ev w) as [w1|] eqn:E; [|done].
    destruct (orphaned_step cfg ev w w1 Ho Hev E) as (Ho1 & Em & Hj).
    destruct (IH w1 Ho1 Hl Hrun) as (Hd & Em' & Hj'). rewrite Em' , Em. auto.
Qed.
End Spec.

(** A DHT peer that fails, and a fixed peer (number 9) that is never asked. *)
Definition fallbackConfig : Config nat :=
  mkConfig (Hash (go "x")) (Ok [1%nat]) [9%nat] (fun c => bool_decide (c = 9%nat)) 5.
Definition fallbackRun : list event :=
  repeat (EvMain PickDone) 15 ++ repeat (EvTask 0 (Err (ESent EOF))) 13 ++ repeat (EvMain PickDone) 2.

Lemma no_fallback_after_failure_witness :
  endsIn fallbackConfig 1 fallbackRun (fun w =>
    match run fallbackConfig (repeat (EvMain PickDone) 12) w with
    | Some w' => length (w_tasks w') = length (w_tasks w) /\ (forall d, w_main w' <> MReturn (Ok d))
    | None => False
    end).
Proof.
  unfold endsIn. destruct (run fallbackConfig fallbackRun (initial 1)) as [w|] eqn:E;
    [|vm_compute in E; discriminate E].
  assert (E' := E). vm_compute in E'. injection E' as E'.
  destruct (run fallbackConfig (repeat (EvMain PickDone) 12) w) as [w'|] eqn:E2;
    [|rewrite <- E' in E2; vm_compute in E2; discriminate E2].
  apply (no_fallback_after_failure fallbackConfig 1 w (Some (ESent EOF)) (ESent EOF)
    (repeat (EvMain PickDone) 12)); [exists fallbackRun; exact E| | | |exact E2];
    rewrite <- E'; reflexivity.
Defined.

(** A race that times out while its task is queued: the task leaves without counting a
    failure, and the owner waits for a request nobody will complete. *)
Definition timeoutRun : list event :=
  EvJoin :: repeat (EvMain PickDone) 15 ++ EvTimeout 0 :: repeat (EvTask 0 (Ok [])) 3.

Lemma orphaned_callers_hang_witness :
  endsIn sampleConfig 1 timeoutRun (fun w =>
    match run sampleConfig [EvJoin; EvSetMaxConcurrency 3] w with
    | Some w' => GetDone (w_req w') = false /\ w_main w' = w_main w
        /\ (forall i, w_joins w !! i = Some (None, JWait) -> w_joins w' !! i = Some (None, JWait))
    | None => False
    end).
Proof.
  unfold endsIn. destruct (run sampleConfig timeoutRun (initial 1)) as [w|] eqn:E;
    [|vm_compute in E; discriminate E].
  assert (E' := E). vm_compute in E'. injection E' as E'.
  destruct (run sampleConfig [EvJoin; EvSetMaxConcurrency 3] w) as [w'|] eqn:E2;
    [|rewrite <- E' in E2; vm_compute in E2; discriminate E2].
  apply (orphaned_callers_hang sampleConfig w [EvJoin; EvSetMaxConcurrency 3]);
    [rewrite <- E'; split; reflexivity|reflexivity|exact E2].
Defined.

Lemma download_refines_cell_witness :
  endsIn sampleConfig 1 sampleRun (fun w =>
    match step sampleConfig EvJoin w with
    | Some w' => view w' = view w \/ Cell.step (cf_hash sampleConfig) (view w) (view w')
    | None => False
    end).
Proof.
  unfold endsIn. destruct (run sampleConfig sampleRun (initial 1)) as [w|] eqn:E;
    [|vm_compute in E; discriminate E].
  assert (E' := E). vm_compute in E'. injection E' as E'.
  destruct (step sampleConfig EvJoin w) as [w'|] eqn:E2;
    [|rewrite <- E' in E2; vm_compute in E2; discriminate E2].
  apply (download_refines_cell sampleConfig 1 w EvJoin); [exists sampleRun; exact E|exact E2].
Defined.
