(* ===== verification/Discovery.v ===== *)
(** * blob/transfer/peer_transfer/discovery: finding peers

    peer_discovery.go (the DHT lookup with retries and backoff, the fixed peers) and
    host_resolver.go.  The DHT node, the equality of contacts, the parser of IP literals,
    DNS and the system's service names are parameters. *)
From stdpp Require Import base tactics list numbers strings.
From Stdlib Require Import ZArith Lia Init.Byte.
From S2P Require Import Prelude GoStd GoNet Store.
Local Open Scope Z_scope.

(** A contact of the DHT library: the fields the code sets and reads. *)
Record Contact := mkContact { c_ID : bytes; c_IP : bytes; c_Port : Z; c_PeerPort : Z }.

(** What discovery uses of other packages. *)
Class DiscoveryLib := {
  contactEquals : Contact -> Contact -> bool -> bool;   (* Contact.Equals(other, checkID) *)
  ParseIP : bytes -> option bytes;                      (* net.ParseIP *)
  LookupIPAddr : bytes -> result (list bytes);          (* Resolver.LookupIPAddr *)
  services : bytes -> result Z;                         (* the system's service names *)
  ipString : bytes -> bytes;                            (* IP.String *)
  contactAddr : Contact -> bytes                        (* Contact.Addr().String() *)
}.

(** A contact equals itself when the ID is not compared, whatever its ID; a printed IP
    parses back and holds no bracket; a service is looked up by its name only. *)
Class DiscoveryLaws `{D : DiscoveryLib} := {
  contactEquals_refl c : contactEquals c c false = true;
  ParseIP_ipString ip : length ip = 4%nat \/ length ip = 16%nat -> ParseIP (ipString ip) = Some ip;
  ipString_plain ip : plain (ipString ip)
}.

Definition DefaultDHTPort : Z := 4444.

Section Discovery.
Context `{D : DiscoveryLib}.

(** ** host_resolver.go *)

(** The loop over the addresses: the first IPv4 address ends it; else the first one. *)
Fixpoint selectIP (ips : list bytes) (selected : option bytes) : option bytes :=
  match ips with
  | [] => selected
  | ip :: ips =>
      match To4 ip with
      | Some _ => Some ip
      | None => selectIP ips (match selected with None => Some ip | Some _ => selected end)
      end
  end.

Definition ResolveHostToIP (host : bytes) : result bytes :=
  match ParseIP host with
  | Some ip => Ok ip
  | None =>
      match LookupIPAddr host with
      | Err e => Err (EWrap "failed to resolve hostname '%s' in peer address '%s': %w" e)
      | Panic w => Panic w
      | Ok [] => Err (EMsg "no IP addresses found for hostname '%s' in peer address '%s'")
      | Ok ips =>
          match selectIP ips None with
          | None => Err (EMsg "no valid IP addresses found for hostname '%s' in peer address '%s'")
          | Some ip => Ok ip
          end
      end
  end.

(** ** peer_discovery.go *)

Record PeerDiscovery := mkDiscovery {
  fixedPeers : list Contact;
  retryAttempts : Z;
  retryDelay : Z;
  d_stopped : bool
}.

Definition Millisecond : Z := 1000000.

Definition NewPeerDiscovery : PeerDiscovery := mkDiscovery [] 0 (100 * Millisecond) false.

Definition SetRetryConfig (attempts delay : Z) (pd : PeerDiscovery) : PeerDiscovery :=
  mkDiscovery (fixedPeers pd) attempts delay (d_stopped pd).
Definition SetFixedPeers (peers : list Contact) (pd : PeerDiscovery) : PeerDiscovery :=
  mkDiscovery peers (retryAttempts pd) (retryDelay pd) (d_stopped pd).
Definition GetFixedPeers (pd : PeerDiscovery) : list Contact := fixedPeers pd.
Definition RetryAttempts (pd : PeerDiscovery) : Z := retryAttempts pd.
Definition RetryDelay (pd : PeerDiscovery) : Z := retryDelay pd.
Definition discoveryStopped (pd : PeerDiscovery) : bool := d_stopped pd.
Definition StopDiscovery (pd : PeerDiscovery) : PeerDiscovery :=
  mkDiscovery (fixedPeers pd) (retryAttempts pd) (retryDelay pd) true.
Definition StartDiscovery (pd : PeerDiscovery) : PeerDiscovery :=
  mkDiscovery (fixedPeers pd) (retryAttempts pd) (retryDelay pd) false.

Definition IsFixedPeer (pd : PeerDiscovery) (contact : Contact) : bool :=
  existsb (fun fixedPeer => contactEquals contact fixedPeer false) (fixedPeers pd).

(** One address of [ParseFixedPeers]; the empty ones are skipped. *)
Definition parseFixedPeer (addr : bytes) : result Contact :=
  '(host, port) ← wrap_err "invalid peer address format '%s': %w" (SplitHostPort addr);
  portNum ← wrap_err "invalid port in peer address '%s': %w" (LookupPort services port);
  ip ← ResolveHostToIP host;
  Ok (mkContact [] ip DefaultDHTPort portNum).
Fixpoint ParseFixedPeers (peerAddresses : list bytes) : result (list Contact) :=
  match peerAddresses with
  | [] => Ok []
  | addr :: rest =>
      match addr with
      | [] => ParseFixedPeers rest
      | _ => c ← parseFixedPeer addr; cs ← ParseFixedPeers rest; Ok (c :: cs)
      end
  end.

(** The address a download task dials ([createPeerTask] in the executor). *)
Definition peerAddress (contact : Contact) : bytes :=
  if negb (c_PeerPort contact =? 0)
  then JoinHostPort (ipString (c_IP contact)) (Itoa (c_PeerPort contact))
  else contactAddr contact.

(** *** Backoff *)

(** [1 << n] at 64 bits. *)
Definition shl1 (n : Z) : Z := if n <? 64 then int64 (2 ^ n) else 0.
Definition uint64 (z : Z) : Z := z mod 2 ^ 64.

(** Go's division truncates; [rand] is the result of [rand.Int63n(delay / 2)]. *)
Definition calculateBackoffDelay (rand : Z -> Z) (attempt baseDelay : Z) : Z :=
  let backoffFactor := shl1 (uint64 (attempt -i 1)) in
  let delay := backoffFactor *i baseDelay in
  if delay <=? 0 then (if 0 <? baseDelay then baseDelay else 1)
  else
    let jitter := if 0 <? Z.quot delay 2 then rand (Z.quot delay 2) else 0 in
    (delay -i Z.quot delay 4) +i jitter.

(** *** Discovery *)

(** What the environment does at each attempt: the lookup's answer ([Get] of the DHT
    node), whether the service is stopped by then, and whether the context is done when
    it is checked and while the delay runs. *)
Record Attempt := mkAttempt {
  at_get : result (list Contact);
  at_stopped : bool;
  at_ctx : option sentinel;
  at_delay : option sentinel
}.

(** The loop from [attempt] on: the answer, and how often the DHT was asked. *)
Fixpoint discoverLoop (fuel : nat) (attempts : Z -> Attempt) (retries attempt : Z) (asked : nat)
    : result (list Contact) * nat :=
  match fuel with
  | O => (Ok [], asked)
  | S fuel =>
      if retries <? attempt then (Ok [], asked) else
      let a := attempts attempt in
      match at_ctx a with
      | Some c => (Err (ESent c), asked)
      | None =>
          if at_stopped a then (Err (EMsg "peer discovery is stopped"), asked) else
          match (if 0 <? attempt then at_delay a else None) with
          | Some c => (Err (ESent c), asked)
          | None =>
              match at_get a with
              | Err _ => (Ok [], S asked)
              | Panic w => (Panic w, S asked)
              | Ok (c :: cs) => (Ok (c :: cs), S asked)
              | Ok [] => discoverLoop fuel attempts retries (attempt +i 1) (S asked)
              end
          end
      end
  end.

Definition discoverWithRetry (pd : PeerDiscovery) (attempts : Z -> Attempt)
    : result (list Contact) * nat :=
  discoverLoop (Z.to_nat (RetryAttempts pd + 1)) attempts (RetryAttempts pd) 0 0.

Definition DiscoverPeers (pd : PeerDiscovery) (attempts : Z -> Attempt)
    : result (list Contact) * nat :=
  if discoveryStopped pd then (Err (EMsg "peer discovery is stopped"), O)
  else discoverWithRetry pd attempts.

(** ** Lemmas *)

Lemma selectIP_spec ips sel :
  selectIP ips sel =
    match List.find (fun ip => bool_decide (is_Some (To4 ip))) ips with
    | Some ip => Some ip
    | None => match sel with Some _ => sel | None => head ips end
    end.
Proof.
  revert sel. induction ips as [|ip ips IH]; intros sel; simpl; [by destruct sel|].
  destruct (To4 ip) as [v|] eqn:E.
  - by rewrite bool_decide_true by eauto.
  - rewrite bool_decide_false by (intros [? ?]; done). rewrite IH.
    destruct (List.find _ ips); [done|]. by destruct sel.
Qed.

Lemma discoverLoop_asked fuel attempts retries attempt asked :
  ((discoverLoop fuel attempts retries attempt asked).2 <= asked + fuel)%nat.
Proof.
  revert attempt asked. induction fuel as [|fuel IH]; intros attempt asked; simpl; [lia|].
  pose proof (IH (attempt +i 1) (S asked)). repeat case_match; simpl; lia.
Qed.

(** An undisturbed attempt that finds nothing leads to the next one. *)
Definition undisturbed (a : Attempt) : Prop :=
  at_stopped a = false /\ at_ctx a = None /\ at_delay a = None.

Lemma discoverLoop_empty n fuel attempts retries attempt asked :
  (forall j, attempt <= j < attempt + Z.of_nat n ->
     undisturbed (attempts j) /\ at_get (attempts j) = Ok []) ->
  0 <= attempt -> attempt + Z.of_nat n <= retries + 1 -> retries + 1 < 2 ^ 63 ->
  discoverLoop (n + fuel) attempts retries attempt asked
  = discoverLoop fuel attempts retries (attempt + Z.of_nat n) (n + asked).
Proof.
  revert attempt asked. induction n as [|n IH]; intros attempt asked H H0 H1 H2.
  - by rewrite Z.add_0_r.
  - change (S n + fuel)%nat with (S (n + fuel)). simpl discoverLoop.
    destruct (H attempt) as [(U1 & U2 & U3) Hg]; [lia|].
    rewrite (proj2 (Z.ltb_ge _ _)) by lia. rewrite U2, U1, U3, Hg.
    destruct (0 <? attempt); rewrite int64_id by (unfold in_int64; lia);
      (rewrite IH; [f_equal; lia|intros j Hj; apply H; lia|lia|lia|lia]).
Qed.

Lemma discoverLoop_hit fuel attempts retries attempt asked :
  undisturbed (attempts attempt) -> attempt <= retries ->
  discoverLoop (S fuel) attempts retries attempt asked
  = match at_get (attempts attempt) with
    | Err _ => (Ok [], S asked)
    | Panic w => (Panic w, S asked)
    | Ok (c :: cs) => (Ok (c :: cs), S asked)
    | Ok [] => discoverLoop fuel attempts retries (attempt +i 1) (S asked)
    end.
Proof.
  intros (U1 & U2 & U3) Hle. simpl. rewrite (proj2 (Z.ltb_ge _ _)) by lia. rewrite U2, U1, U3.
  by destruct (0 <? attempt).
Qed.

(** ** Theorems *)

(** Discovery retries while the DHT answers without contacts and no longer: if the
    first attempts find nothing, the answer of the first one that finds contacts, fails or
    is the last is what the caller gets (a failure of the DHT as an empty answer, so that
    the fixed peers are tried), after exactly that many lookups. *)
Theorem discovery_retries pd attempts k :
  discoveryStopped pd = false -> 0 <= k <= RetryAttempts pd -> RetryAttempts pd + 1 < 2 ^ 63 ->
  (forall j, 0 <= j < k -> undisturbed (attempts j) /\ at_get (attempts j) = Ok []) ->
  undisturbed (attempts k) -> (at_get (attempts k) = Ok [] -> k = RetryAttempts pd) ->
  DiscoverPeers pd attempts
  = (match at_get (attempts k) with Ok cs => Ok cs | Err _ => Ok [] | Panic w => Panic w end,
     S (Z.to_nat k)).
Proof.
  intros Hs Hk Hb He Hu Hl. unfold DiscoverPeers, discoverWithRetry. rewrite Hs.
  replace (Z.to_nat (RetryAttempts pd + 1))
    with (Z.to_nat k + S (Z.to_nat (RetryAttempts pd - k)))%nat by lia.
  rewrite discoverLoop_empty; [|intros j Hj; apply He; lia|lia|lia|lia].
  rewrite Z.add_0_l, Z2Nat.id by lia. rewrite discoverLoop_hit by (done || lia).
  rewrite Nat.add_0_r. destruct (at_get (attempts k)) as [[|c cs]|e|y]; try done.
  specialize (Hl eq_refl). replace (Z.to_nat (RetryAttempts pd - k)) with 0%nat by lia. done.
Qed.

(** A delay between attempts is positive and within a quarter of the base delay
    doubled at every attempt, as long as that fits in 64 bits with the jitter. *)
Theorem backoff_within_bounds rand attempt baseDelay :
  1 <= attempt < 2 ^ 63 -> 0 < baseDelay -> 5 * (2 ^ (attempt - 1) * baseDelay) < 4 * 2 ^ 63 ->
  (forall n, 0 < n -> 0 <= rand n < n) ->
  let d := 2 ^ (attempt - 1) * baseDelay in
  0 < calculateBackoffDelay rand attempt baseDelay
  /\ 3 * d <= 4 * calculateBackoffDelay rand attempt baseDelay <= 5 * d + 3.
Proof.
  intros Ha Hb Hd Hr d. fold d in Hd. unfold calculateBackoffDelay.
  assert (Hp : 0 < 2 ^ (attempt - 1)) by (apply Z.pow_pos_nonneg; lia).
  assert (Hdp : 0 < d) by (unfold d; nia).
  assert (attempt - 1 < 63) as Hlt.
  { apply Z.nle_gt. intros Hge. pose proof (Z.pow_le_mono_r 2 63 (attempt - 1) ltac:(lia) Hge).
    unfold d in Hd. nia. }
  rewrite (int64_id (attempt - 1)) by (unfold in_int64; lia).
  assert (uint64 (attempt - 1) = attempt - 1) as -> by (unfold uint64; rewrite Z.mod_small; lia).
  unfold shl1. rewrite (proj2 (Z.ltb_lt _ _)) by lia.
  assert (2 ^ (attempt - 1) < 2 ^ 63) by (apply Z.pow_lt_mono_r; lia).
  rewrite (int64_id (2 ^ (attempt - 1))) by (unfold in_int64; lia). fold d.
  rewrite (int64_id d) by (unfold in_int64; lia). rewrite (proj2 (Z.leb_gt _ _)) by lia.
  rewrite !Z.quot_div_nonneg by lia.
  pose proof (Z.div_mod d 4 ltac:(lia)). pose proof (Z.mod_pos_bound d 4 ltac:(lia)).
  pose proof (Z.div_mod d 2 ltac:(lia)). pose proof (Z.mod_pos_bound d 2 ltac:(lia)).
  rewrite (int64_id (d - d / 4)) by (unfold in_int64; lia).
  destruct (Z.ltb_spec 0 (d / 2)) as [Hj|Hj].
  - specialize (Hr (d / 2) Hj). rewrite int64_id by (unfold in_int64; lia). lia.
  - rewrite int64_id by (unfold in_int64; lia). lia.
Qed.

(** The address a task dials for a contact with a peer port, given as a fixed peer,
    is parsed back to that IP and port. *)
Theorem fixed_peer_roundtrip `{!DiscoveryLaws} contact :
  length (c_IP contact) = 4%nat \/ length (c_IP contact) = 16%nat ->
  0 < c_PeerPort contact <= 65535 ->
  ParseFixedPeers [peerAddress contact]
  = Ok [mkContact [] (c_IP contact) DefaultDHTPort (c_PeerPort contact)].
Proof.
  intros Hip Hp. unfold ParseFixedPeers, peerAddress.
  rewrite (proj2 (Z.eqb_neq _ _)) by lia. simpl negb. cbv iota.
  destruct (Itoa_plain (c_PeerPort contact)) as [Hpl Hc]; [lia|].
  pose proof (SplitHostPort_JoinHostPort (ipString (c_IP contact)) (Itoa (c_PeerPort contact))
    (ipString_plain _) Hpl Hc) as Hs.
  unfold parseFixedPeer. rewrite Hs. cbn [wrap_err mbind result_bind].
  rewrite LookupPort_Itoa by lia. cbn [wrap_err mbind result_bind].
  unfold ResolveHostToIP. rewrite ParseIP_ipString by done. cbn [mbind result_bind].
  destruct (JoinHostPort (ipString (c_IP contact)) (Itoa (c_PeerPort contact))); [|done].
  done.
Qed.
End Discovery.

(** Default retries at a hundred milliseconds: the thirty-ninth waits two centuries. *)
Theorem backoff_overflow :
  calculateBackoffDelay (fun _ => 0) 39 (100 * Millisecond) = 6780784965517836288
  /\ 100 * Millisecond < 6780784965517836288.
Proof. by vm_compute. Qed.

(** A library for which the laws hold: contacts compare by IP and ports, an IP prints as
    its bytes in hexadecimal. *)
#[local] Instance exampleLib : DiscoveryLib := {
  contactEquals a b _ := bool_decide (c_IP a = c_IP b /\ c_Port a = c_Port b /\ c_PeerPort a = c_PeerPort b);
  ParseIP s := match DecodeString s with Ok ip => Some ip | _ => None end;
  LookupIPAddr _ := Err (EMsg "no such host");
  services _ := Err (EMsg "unknown port");
  ipString := EncodeToString;
  contactAddr _ := []
}.

#[local] Instance exampleLaws : DiscoveryLaws.
Proof.
  split.
  - intros c. simpl. by rewrite bool_decide_true.
  - intros ip _. simpl. by rewrite DecodeString_EncodeToString.
  - intros ip. simpl. pose proof (EncodeToString_lower ip) as H. rewrite Forall_forall in H.
    split; intros Hin%H; discriminate Hin.
Qed.

Definition sampleContact : Contact := mkContact [] [x7f; x00; x00; x01] 4444 3333.
(** The DHT finds nobody at first, then one peer. *)
Definition sampleAttempts (j : Z) : Attempt :=
  mkAttempt (if j =? 0 then Ok [] else Ok [sampleContact]) false None None.

Lemma discovery_retries_witness :
  DiscoverPeers (SetRetryConfig 3 5 NewPeerDiscovery) sampleAttempts = (Ok [sampleContact], 2%nat).
Proof.
  apply (discovery_retries (SetRetryConfig 3 5 NewPeerDiscovery) sampleAttempts 1);
    [reflexivity|simpl; lia|simpl; lia| |repeat split|discriminate].
  intros j Hj. assert (j = 0) as -> by lia. repeat split.
Defined.

Lemma backoff_within_bounds_witness :
  0 < calculateBackoffDelay (fun n => n / 2) 3 (100 * Millisecond)
  /\ 3 * 400000000 <= 4 * calculateBackoffDelay (fun n => n / 2) 3 (100 * Millisecond)
     <= 5 * 400000000 + 3.
Proof.
  apply (backoff_within_bounds (fun n => n / 2) 3 (100 * Millisecond));
    [lia|unfold Millisecond; lia|unfold Millisecond; simpl; lia|].
  intros n Hn. split; [apply Z.div_pos; lia|apply Z.div_lt; lia].
Defined.

Lemma fixed_peer_roundtrip_witness :
  ParseFixedPeers [peerAddress sampleContact] = Ok [sampleContact].
Proof. apply (fixed_peer_roundtrip sampleContact); [left; reflexivity|simpl; lia]. Defined.
