(* ===== verification/Connection.v ===== *)
(** * blob/transfer/peer_transfer/connection/connection_manager.go: the pool of peer clients

    Clients are pointers, numbered as the factory makes them.  [sync.Pool] hands out any
    client put into it, or a new one, and may drop clients at any time; which it does is a
    parameter of [GetClient].  What a client answers to [Connect], [GetBlob] and [Reset]
    is one too. *)
From stdpp Require Import base tactics list numbers strings gmap sets.
From Stdlib Require Import ZArith Lia Init.Byte.
From S2P Require Import Prelude.

(** [closed] logs the clients [Close] was called on, in order. *)
Record ConnectionManager := mkManager {
  clientPool : option (list nat);
  pooledClients : gset nat;
  cm_stopped : bool;
  made : nat;
  closed : list nat
}.

Definition setPoolState (p : option (list nat)) (t : gset nat) (cm : ConnectionManager) : ConnectionManager :=
  mkManager p t (cm_stopped cm) (made cm) (closed cm).
Definition closeClient (c : nat) (cm : ConnectionManager) : ConnectionManager :=
  mkManager (clientPool cm) (pooledClients cm) (cm_stopped cm) (made cm) (c :: closed cm).

Definition createClientPool (cm : ConnectionManager) : ConnectionManager :=
  match clientPool cm with
  | None => setPoolState (Some []) ∅ cm
  | Some _ => cm
  end.

Definition NewConnectionManager (factory : option unit) : result ConnectionManager :=
  match factory with
  | None => Err (EMsg "clientFactory cannot be nil")
  | Some _ => Ok (createClientPool (mkManager None ∅ false 0 []))
  end.

Definition managerStopped (cm : ConnectionManager) : bool := cm_stopped cm.

(** The tracked clients are closed, in the order the map is ranged over. *)
Definition StopManager (cm : ConnectionManager) : ConnectionManager :=
  mkManager None ∅ true (made cm) (elements (pooledClients cm) ++ closed cm).

Definition StartManager (cm : ConnectionManager) : ConnectionManager :=
  createClientPool (mkManager (clientPool cm) (pooledClients cm) false (made cm) (closed cm)).

(** What [clientPool.Get] returns: a client of the pool, what the factory makes, or nil. *)
Inductive poolGet := FromPool (c : nat) | FromFactory | FactoryNil.

Definition GetClient (g : poolGet) (cm : ConnectionManager) : result nat * ConnectionManager :=
  if managerStopped cm then (Err (EMsg "connection manager is stopped"), cm) else
  match clientPool cm with
  | None => (Err (EMsg "client pool is not available"), cm)
  | Some pool =>
      match g with
      | FromPool c =>
          (Ok c, setPoolState (Some (filter (fun x => x <> c) pool)) (pooledClients cm ∖ {[c]}) cm)
      | FromFactory =>
          let c := made cm in
          (Ok c, mkManager (Some pool) (pooledClients cm ∖ {[c]}) (cm_stopped cm) (S c) (closed cm))
      | FactoryNil => (Err (EMsg "failed to get client from pool: client is nil"), cm)
      end
  end.

(** [returnClientToPool]; [resetOk] is whether [Reset] succeeds. *)
Definition returnClientToPool (resetOk : bool) (c : nat) (cm : ConnectionManager) : ConnectionManager :=
  if managerStopped cm then closeClient c cm else
  match clientPool cm with
  | None => closeClient c cm
  | Some pool =>
      if negb resetOk then closeClient c cm
      else setPoolState (Some (c :: pool)) ({[c]} ∪ pooledClients cm) cm
  end.
Definition ReturnClient (resetOk : bool) (c : option nat) (cm : ConnectionManager) : ConnectionManager :=
  match c with None => cm | Some c => returnClientToPool resetOk c cm end.

(** [ctxDone] tells whether the context is done when an error is handled. *)
Definition DownloadFromPeer (g : poolGet) (connect : result unit) (getBlob : result bytes)
    (ctxDone resetOk : bool) (cm : ConnectionManager) : result bytes * ConnectionManager :=
  if managerStopped cm then (Err (EMsg "connection manager is stopped"), cm) else
  match GetClient g cm with
  | (Err e, cm) => (Err e, cm)
  | (Panic w, cm) => (Panic w, cm)
  | (Ok c, cm) =>
      let back := ReturnClient resetOk (Some c) cm in
      match connect with
      | Err e => (if ctxDone then Err e else Err (EWrap "connect to peer %s: %w" e), back)
      | Panic w => (Panic w, cm)
      | Ok _ =>
          match getBlob with
          | Err e => (if ctxDone then Err e else Err (EWrap "fetch blob from peer %s: %w" e), back)
          | Panic w => (Panic w, back)
          | Ok d => (Ok d, back)
          end
      end
  end.

(** ** Histories *)

(** The calls of the tasks that use clients, and what the pool does by itself.  A task
    returns a client it holds. *)
Inductive poolOp :=
  | OpGetClient (g : poolGet)
  | OpReturnClient (resetOk : bool) (c : nat)
  | OpStopManager
  | OpStartManager
  | OpPoolDrop (c : nat).

(** The clients in use are those handed out and not returned. *)
Definition poolStep (o : poolOp) (s : ConnectionManager * gset nat)
    : option (ConnectionManager * gset nat) :=
  let '(cm, inUse) := s in
  match o with
  | OpGetClient g =>
      let legal := match g, clientPool cm with
                   | FromPool c, Some pool => bool_decide (c ∈ pool)
                   | _, _ => true
                   end in
      if negb legal then None else
      match GetClient g cm with
      | (Ok c, cm') => Some (cm', {[c]} ∪ inUse)
      | (_, cm') => Some (cm', inUse)
      end
  | OpReturnClient ok c =>
      if decide (c ∈ inUse) then Some (ReturnClient ok (Some c) cm, inUse ∖ {[c]}) else None
  | OpStopManager => Some (StopManager cm, inUse)
  | OpStartManager => Some (StartManager cm, inUse)
  | OpPoolDrop c =>
      Some (setPoolState (filter (fun x => x <> c) <$> clientPool cm) (pooledClients cm) cm, inUse)
  end.

Fixpoint poolRun (l : list poolOp) (s : ConnectionManager * gset nat)
    : option (ConnectionManager * gset nat) :=
  match l with
  | [] => Some s
  | o :: l => match poolStep o s with Some s' => poolRun l s' | None => None end
  end.

(** Every client the factory made is in use, or tracked by the manager, or closed, in one
    of these ways only; what the pool holds is tracked. *)
Record pool_inv (s : ConnectionManager * gset nat) : Prop := {
  pi_all c : c < made s.1 <-> c ∈ s.2 \/ c ∈ pooledClients s.1 \/ c ∈ closed s.1;
  pi_use_pool c : c ∈ s.2 -> c ∉ pooledClients s.1;
  pi_use_closed c : c ∈ s.2 -> c ∉ closed s.1;
  pi_pool_closed c : c ∈ pooledClients s.1 -> c ∉ closed s.1;
  pi_once : NoDup (closed s.1);
  pi_tracked pool c : clientPool s.1 = Some pool -> c ∈ pool -> c ∈ pooledClients s.1;
  pi_none : clientPool s.1 = None -> pooledClients s.1 = ∅
}.

Lemma pool_inv_step o s s' : pool_inv s -> poolStep o s = Some s' -> pool_inv s'.
Proof.
  destruct s as [cm use]. intros Hinv. pose proof Hinv as [A B C D E F G]. simpl in *.
  destruct o as [g|ok c| | |c]; simpl; intros H.
  - destruct (managerStopped cm) eqn:Es.
    { unfold GetClient in H. rewrite Es in H. repeat case_match; simplify_eq/=; exact Hinv. }
    unfold GetClient in H. rewrite Es in H. destruct (clientPool cm) as [pool|] eqn:Ep.
    2:{ repeat case_match; simplify_eq/=; exact Hinv. }
    destruct g as [c| |]; simplify_eq/=.
    + case_bool_decide as Hc; simplify_eq/=. pose proof (F pool c eq_refl Hc) as Ht.
      split; simpl; try done.
      * intros x. rewrite (A x). destruct (decide (x = c)) as [->|]; set_solver.
      * set_solver.
      * intros x [->%elem_of_singleton|Hx]%elem_of_union; [by apply D|by apply C].
      * set_solver.
      * intros q x [= <-] [Hne Hx]%list_elem_of_filter. specialize (F pool x eq_refl Hx). set_solver.
    + assert (Hnew : made cm ∉ use /\ made cm ∉ pooledClients cm /\ made cm ∉ closed cm).
      { split_and!; intros Hin; assert (made cm < made cm) by (apply A; auto); lia. }
      destruct Hnew as (N1 & N2 & N3). split; simpl; try done.
      * intros x. destruct (decide (x = made cm)) as [->|Hne]; [set_solver by lia|].
        rewrite elem_of_difference, elem_of_union, !elem_of_singleton.
        assert (x < S (made cm) <-> x < made cm) as -> by lia. rewrite (A x). naive_solver.
      * set_solver.
      * intros x [->%elem_of_singleton|Hx]%elem_of_union; [done|by apply C].
      * set_solver.
      * intros q x [= <-] Hx. specialize (F pool x eq_refl Hx). rewrite elem_of_difference.
        split; [done|]. intros ->%elem_of_singleton. done.
    + exact Hinv.
  - case_decide as Hc; [|done]. injection H as <-.
    assert (Hclose : pool_inv (closeClient c cm, use ∖ {[c]})).
    { split; simpl; auto.
      - intros x. rewrite (A x), elem_of_cons, elem_of_difference, elem_of_singleton.
        destruct (decide (x = c)); naive_solver.
      - set_solver.
      - intros x [Hx Hne]%elem_of_difference. rewrite elem_of_singleton in Hne.
        rewrite not_elem_of_cons. auto.
      - intros x Hx. rewrite not_elem_of_cons. split; [|by apply D]. intros ->. by apply (B c).
      - constructor; auto. }
    unfold returnClientToPool. destruct (managerStopped cm); [done|].
    destruct (clientPool cm) as [pool|] eqn:Ep; [|done]. destruct ok; [|done]. simpl.
    split; simpl; try done.
    + intros x. rewrite (A x). destruct (decide (x = c)); set_solver.
    + set_solver.
    + intros x Hx. apply C. set_solver.
    + intros x [->%elem_of_singleton|Hx]%elem_of_union; auto.
    + intros q x [= <-] [->|Hx]%elem_of_cons; [set_solver|]. specialize (F pool x eq_refl Hx). set_solver.
  - injection H as <-. split; simpl; try done.
    + intros x. rewrite (A x), elem_of_app, elem_of_elements. set_solver.
    + intros x Hx. rewrite not_elem_of_app, elem_of_elements. auto.
    + rewrite NoDup_app. split_and!; [apply NoDup_elements| |done].
      intros x Hx%elem_of_elements. auto.
  - injection H as <-. unfold StartManager, createClientPool. simpl.
    destruct (clientPool cm) as [pool|] eqn:Ep; split; simpl; auto; try set_solver.
  - injection H as <-. split; simpl; auto.
    + intros q x Hq Hx. destruct (clientPool cm) as [pool|]; simplify_eq/=.
      apply list_elem_of_filter in Hx as [_ Hx]. by apply (F pool).
    + intros Hn. apply G. by destruct (clientPool cm).
Qed.

Lemma pool_inv_run l s s' : pool_inv s -> poolRun l s = Some s' -> pool_inv s'.
Proof.
  revert s. induction l as [|o l IH]; intros s Hs H; simpl in H; [by simplify_eq|].
  destruct (poolStep o s) as [s1|] eqn:E; [|done]. eapply IH; [|done]. by eapply pool_inv_step.
Qed.

Definition freshManager : ConnectionManager := createClientPool (mkManager None ∅ false 0 []).

Lemma fresh_pool_inv : pool_inv (freshManager, ∅).
Proof.
  split; simpl; try done; try set_solver.
  - intros c. split; [lia|set_solver].
  - constructor.
Qed.

(** A download with a client of the pool uses it and gives it back. *)
Lemma download_as_ops g connect getBlob ctxDone resetOk cm use r cm' :
  DownloadFromPeer g connect getBlob ctxDone resetOk cm = (r, cm') ->
  match g, clientPool cm with FromPool c, Some pool => c ∈ pool | _, _ => True end ->
  pool_inv (cm, use) -> (forall w, connect <> Panic w) ->
  exists l, poolRun l (cm, use) = Some (cm', use).
Proof.
  intros H Hg Hinv Hnp. unfold DownloadFromPeer in H.
  destruct (managerStopped cm) eqn:Es; [exists []; by simplify_eq|].
  destruct (GetClient g cm) as [[c|e|y] cm1] eqn:Eg.
  - exists [OpGetClient g; OpReturnClient resetOk c].
    assert (Hs : poolStep (OpGetClient g) (cm, use) = Some (cm1, {[c]} ∪ use)).
    { simpl. rewrite Eg. destruct g as [x| |]; try done. destruct (clientPool cm) as [pool|]; [|done].
      by rewrite bool_decide_true by done. }
    assert (Hc : c ∉ use).
    { intros Hc. unfold GetClient in Eg. rewrite Es in Eg.
      destruct (clientPool cm) as [pool|] eqn:Ep; [|done]. destruct g as [x| |]; simplify_eq.
      - apply (pi_use_pool _ Hinv c Hc). simpl. by eapply (pi_tracked _ Hinv).
      - assert (made cm < made cm); [|lia]. apply (pi_all _ Hinv). auto. }
    assert (Hback : cm' = ReturnClient resetOk (Some c) cm1).
    { destruct connect as [[]|e|y]; [destruct getBlob| |by destruct (Hnp y)]; by simplify_eq. }
    cbn [poolRun]. rewrite Hs. cbn [poolStep]. rewrite decide_True by set_solver.
    rewrite Hback. do 2 f_equal. set_solver.
  - exists []. simpl. unfold GetClient in Eg. rewrite Es in Eg. repeat case_match; by simplify_eq.
  - unfold GetClient in Eg. rewrite Es in Eg. repeat case_match; by simplify_eq.
Qed.

(** ** Theorems *)

(** C31. Over any history of tasks taking and returning clients, of stops and restarts, and
    of the pool forgetting clients by itself: a client is never handed out while in use or
    after it was closed, none is closed twice, and every client ever made is in use,
    tracked for closing, or closed; so after a stop, every client that is not in use has
    been closed. *)
Theorem no_client_shared_or_leaked l cm use :
  poolRun l (freshManager, ∅) = Some (cm, use) ->
  (forall g c cm', poolStep (OpGetClient g) (cm, use) <> None -> GetClient g cm = (Ok c, cm') ->
     c ∉ use /\ c ∉ closed cm)
  /\ NoDup (closed cm)
  /\ (forall c, c < made cm -> c ∉ use -> c ∈ closed (StopManager cm)).
Proof.
  intros H. pose proof (pool_inv_run _ _ _ fresh_pool_inv H) as [A B C D E F G]. simpl in *.
  split; [|split; [done|]].
  - intros g c cm' Hl Hg. unfold GetClient in Hg. destruct (managerStopped cm); [done|].
    destruct (clientPool cm) as [pool|] eqn:Ep; [|done]. destruct g as [x| |]; simplify_eq/=.
    + case_bool_decide as Hc; [|done]. pose proof (F pool c eq_refl Hc) as Ht. split; [|by apply D].
      intros Hu. by apply (B c).
    + split; intros Hin; assert (made cm < made cm) by (apply A; auto); lia.
  - intros c Hc Hu. apply elem_of_app. rewrite elem_of_elements. apply A in Hc. naive_solver.
Qed.

(** A download leaves the pool as careful as it found it: it takes a client, and
    whatever the peer does it gives that client back, so that no client stays in use; and
    it returns data only if the peer was reached and answered with it. *)
Theorem download_returns_client l g connect getBlob ctxDone resetOk cm use r cm' :
  poolRun l (freshManager, ∅) = Some (cm, use) ->
  match g, clientPool cm with FromPool c, Some pool => c ∈ pool | _, _ => True end ->
  (forall w, connect <> Panic w) ->
  DownloadFromPeer g connect getBlob ctxDone resetOk cm = (r, cm') ->
  (exists l', poolRun (l ++ l') (freshManager, ∅) = Some (cm', use))
  /\ (forall d, r = Ok d -> connect = Ok tt /\ getBlob = Ok d).
Proof.
  intros Hl Hg Hnp H. split.
  - pose proof (pool_inv_run _ _ _ fresh_pool_inv Hl) as Hinv.
    destruct (download_as_ops _ _ _ _ _ _ _ _ _ H Hg Hinv Hnp) as [l' Hl']. exists l'.
    clear - Hl Hl'. revert Hl. generalize (freshManager, (∅ : gset nat)).
    induction l as [|o l IH]; intros s Hl; simpl in *; [by simplify_eq|].
    destruct (poolStep o s); [auto|done].
  - intros d ->. unfold DownloadFromPeer in H. repeat case_match; simplify_eq; by destruct a0.
Qed.

Lemma no_client_shared_or_leaked_witness :
  poolRun [OpGetClient FromFactory; OpGetClient FromFactory; OpReturnClient true 1] (freshManager, ∅)
  = Some (mkManager (Some [1]) {[1]} false 2 [], {[0]})
  /\ (forall c, c < 2 -> c ∉ ({[0]} : gset nat) ->
       c ∈ closed (StopManager (mkManager (Some [1]) {[1]} false 2 []))).
Proof.
  assert (E : poolRun [OpGetClient FromFactory; OpGetClient FromFactory; OpReturnClient true 1] (freshManager, ∅)
    = Some (mkManager (Some [1]) {[1]} false 2 [], {[0]})) by (vm_compute; reflexivity).
  split; [exact E|]. apply (no_client_shared_or_leaked _ _ _ E).
Defined.

Lemma download_returns_client_witness :
  let '(r, cm') := DownloadFromPeer FromFactory (Ok tt) (Ok [x2a]) false true freshManager in
  (exists l', poolRun ([] ++ l') (freshManager, ∅) = Some (cm', ∅))
  /\ (forall d, r = Ok d -> @Ok unit tt = Ok tt /\ Ok [x2a] = Ok d).
Proof.
  destruct (DownloadFromPeer FromFactory (Ok tt) (Ok [x2a]) false true freshManager) as [r cm'] eqn:E.
  apply (download_returns_client [] FromFactory (Ok tt) (Ok [x2a]) false true freshManager ∅ r cm');
    [reflexivity|exact I|discriminate|exact E].
Defined.
