(* ===== verification/Transfer.v ===== *)
(** * blob/transfer/{transfer.go, peer_transfer/peer_transfer.go, peer_transfer/downloader}

    The transfer that callers hold: its configuration, the options that change it, and
    [Get], which validates the hash and joins or owns the request for it.  The parts are
    those of Discovery.v, Connection.v and Request.v; what the owner does next is the
    machine of Race.v.  The objects behind the settings of the downloader are in
    Downloader.v. *)
From stdpp Require Import base tactics list numbers strings gmap.
From Stdlib Require Import ZArith Lia Init.Byte.
From S2P Require Import Prelude GoStd GoNet Errors Store Blob Multihash Request Race RaceInv Discovery Connection.
Import Phases.
Local Open Scope Z_scope.

(** ** downloader/peer_downloader.go *)

(** The downloader with the settings of the phase manager, the race coordinator and the
    executor it owns. *)
Record PeerDownloader := mkDownloader {
  dl_maxPeers : Z;
  dl_timeout : Z;
  pm_maxPeers : Z;        (* int32, of the phase manager *)
  pm_stopped : bool;
  prc_timeout : Z;        (* of the race coordinator *)
  ex_maxConcurrency : Z   (* of the executor *)
}.

Definition clampPeers (n : Z) : Z := if n <=? 0 then 1 else n.

(** The arguments that must not be nil: connection manager, discovery, coordinator. *)
Definition NewPeerDownloaderWithDefaults (connMgr discovery coordinator : bool) (maxPeers timeout : Z)
    : result PeerDownloader :=
  if negb connMgr then Panic "connection manager cannot be nil"
  else if negb discovery then Panic "peer discovery cannot be nil"
  else if negb coordinator then Panic "request coordinator cannot be nil"
  else
    let maxPeers := clampPeers maxPeers in
    Ok (mkDownloader (clampPeers maxPeers) timeout (int32 maxPeers) false timeout
          (newExecutorConcurrency maxPeers)).

Definition downloaderStopped (pd : PeerDownloader) : bool := pm_stopped pd.
Definition setDownloaderStopped (b : bool) (pd : PeerDownloader) : PeerDownloader :=
  mkDownloader (dl_maxPeers pd) (dl_timeout pd) (pm_maxPeers pd) b (prc_timeout pd) (ex_maxConcurrency pd).
Definition StopDownloader := setDownloaderStopped true.
Definition StartDownloader := setDownloaderStopped false.

Definition SetTimeout (t : Z) (pd : PeerDownloader) : PeerDownloader :=
  mkDownloader (dl_maxPeers pd) t (pm_maxPeers pd) (pm_stopped pd) t (ex_maxConcurrency pd).
Definition GetTimeout (pd : PeerDownloader) : Z := dl_timeout pd.
Definition GetMaxPeers (pd : PeerDownloader) : Z := dl_maxPeers pd.

(** The executor's [SetMaxConcurrency] clamps, the phase manager's [SetMaxPeers] converts
    to 32 bits. *)
Definition SetMaxConcurrency (n : Z) (pd : PeerDownloader) : PeerDownloader :=
  mkDownloader (dl_maxPeers pd) (dl_timeout pd) (pm_maxPeers pd) (pm_stopped pd) (prc_timeout pd)
    (clampPeers n).
Definition SetMaxPeers (n : Z) (pd : PeerDownloader) : PeerDownloader :=
  let n := clampPeers n in
  SetMaxConcurrency n
    (mkDownloader n (dl_timeout pd) (int32 n) (pm_stopped pd) (prc_timeout pd) (ex_maxConcurrency pd)).

(** ** peer_transfer.go *)

Record PeerTransfer := mkTransfer {
  pt_discovery : PeerDiscovery;
  pt_connMgr : ConnectionManager;
  pt_coordinator : RequestCoordinator;
  pt_downloader : PeerDownloader
}.

Definition PeerTransferOption := PeerTransfer -> PeerTransfer.

Definition TransferName : bytes := go "peer".
Definition Name (pt : PeerTransfer) : bytes := TransferName.

(** The DHT node and the client factory are given or nil. *)
Definition NewPeerTransfer (dhtNode : bool) (peerClientFactory : option unit)
    (options : list PeerTransferOption) : result PeerTransfer :=
  if negb dhtNode then Err (EMsg "dhtNode cannot be nil") else
  connMgr ← wrap_err "failed to create connection manager: %w" (NewConnectionManager peerClientFactory);
  downloader ← NewPeerDownloaderWithDefaults true true true 5 (30 * 1000 * Millisecond);
  Ok (foldl (fun pt option => option pt)
        (mkTransfer NewPeerDiscovery connMgr NewRequestCoordinator downloader) options).

Definition StartTransfer (pt : PeerTransfer) : PeerTransfer :=
  mkTransfer (StartDiscovery (pt_discovery pt)) (StartManager (pt_connMgr pt))
    (Start (pt_coordinator pt)) (StartDownloader (pt_downloader pt)).
Definition StopTransfer (pt : PeerTransfer) : PeerTransfer :=
  mkTransfer (StopDiscovery (pt_discovery pt)) (StopManager (pt_connMgr pt))
    (Stop (pt_coordinator pt)) (StopDownloader (pt_downloader pt)).

Section Transfer.
Context {L : CidLib} {D : DiscoveryLib}.

(** [bits.FromShortHex] of the DHT library. *)
Variable FromShortHex : bytes -> result bytes.

(** protocol/dht_node.go *)
Definition ParseHashFromString (hashStr : bytes) : result bytes :=
  let hashStr :=
    match hashStr with
    | "0"%byte :: "x"%byte :: rest | "0"%byte :: "X"%byte :: rest => rest
    | _ => hashStr
    end in
  match hashStr with
  | [] => Err (EMsg "invalid hash format: empty string")
  | _ => wrap_err "invalid hash format: %w" (FromShortHex hashStr)
  end.

(** What [Get] does after its checks: wait for the request of somebody else, or download
    for it. *)
Inductive getPlan := JoinRequest (p : nat) | OwnRequest (p : nat).

Definition startGet (hash : bytes) (rc : RequestCoordinator) : result getPlan * RequestCoordinator :=
  if negb (ValidateHash hash) then (Err (ESent ErrInvalidHash), rc) else
  match ParseHashFromString hash with
  | Err e => (Err (EWrap "failed to parse hash for DHT lookup: %w" e), rc)
  | Panic w => (Panic w, rc)
  | Ok _ =>
      match GetOrCreateRequest hash rc with
      | (Ok (p, isOwner), rc') => (Ok (if isOwner then OwnRequest p else JoinRequest p), rc')
      | (Err e, rc') => (Err e, rc')
      | (Panic w, rc') => (Panic w, rc')
      end
  end.

(** The owner's [DownloadFromPeers] before the phases, and the end of [Get]. *)
Definition startDownload (pd : PeerDownloader) : result unit :=
  if downloaderStopped pd then Err (EMsg "peer downloader is stopped") else Ok tt.
Definition finishGet (hash : bytes) (rc : RequestCoordinator) : RequestCoordinator :=
  RemoveRequest hash rc.

(** *** Options *)

Definition onDiscovery (f : PeerDiscovery -> PeerDiscovery) : PeerTransferOption := fun pt =>
  mkTransfer (f (pt_discovery pt)) (pt_connMgr pt) (pt_coordinator pt) (pt_downloader pt).
Definition onDownloader (f : PeerDownloader -> PeerDownloader) : PeerTransferOption := fun pt =>
  mkTransfer (pt_discovery pt) (pt_connMgr pt) (pt_coordinator pt) (f (pt_downloader pt)).

Definition WithPeerTransferTimeout (t : Z) : PeerTransferOption := onDownloader (SetTimeout t).
Definition WithPeerTransferMaxPeers (n : Z) : PeerTransferOption := onDownloader (SetMaxPeers n).
Definition WithPeerTransferMaxConcurrency (n : Z) : PeerTransferOption := onDownloader (SetMaxConcurrency n).
Definition WithPeerTransferFixedPeers (peerAddresses : list bytes) : PeerTransferOption := fun pt =>
  match peerAddresses with
  | [] => onDiscovery (SetFixedPeers []) pt
  | _ => match ParseFixedPeers peerAddresses with
         | Ok contacts => onDiscovery (SetFixedPeers contacts) pt
         | _ => onDiscovery (SetFixedPeers []) pt
         end
  end.
Definition WithPeerTransferRetryConfig (attempts delay : Z) : PeerTransferOption :=
  onDiscovery (SetRetryConfig attempts delay).
Definition WithPeerTransferDHTRetryAttempts (attempts : Z) : PeerTransferOption := fun pt =>
  onDiscovery (SetRetryConfig attempts (RetryDelay (pt_discovery pt))) pt.
Definition WithPeerTransferDHTRetryDelay (delay : Z) : PeerTransferOption := fun pt =>
  onDiscovery (SetRetryConfig (RetryAttempts (pt_discovery pt)) delay) pt.

(** *** Adapters *)

(** What an option is applied to: a peer transfer, or something else. *)
Inductive anyTransfer := APeerTransfer (pt : PeerTransfer) | AnotherType.

Inductive TransferOption := Adapter (o : option PeerTransferOption) | ErrorTransferOption (e : error).

Definition NewPeerTransferOptionAdapter (o : option PeerTransferOption) : result TransferOption :=
  match o with
  | None => Err (EMsg "PeerTransferOption cannot be nil")
  | Some _ => Ok (Adapter o)
  end.

Definition Apply (a : TransferOption) (t : anyTransfer) : result anyTransfer :=
  match a with
  | ErrorTransferOption e => Err e
  | Adapter None => Err (EMsg "PeerTransferOptionAdapter has nil option")
  | Adapter (Some o) =>
      match t with
      | APeerTransfer pt => Ok (APeerTransfer (o pt))
      | AnotherType => Err (EMsg "expected *PeerTransfer, got %T")
      end
  end.

(** The [With...Option] functions: an adapter, or an option that reports the error. *)
Definition optionOf (fmt : string) (o : PeerTransferOption) : TransferOption :=
  match NewPeerTransferOptionAdapter (Some o) with
  | Ok a => a
  | Err e => ErrorTransferOption (EWrap fmt e)
  | Panic _ => ErrorTransferOption (EMsg fmt)
  end.
Definition WithPeerTransferTimeoutOption (t : Z) :=
  optionOf "failed to create peer transfer timeout option: %w" (WithPeerTransferTimeout t).
Definition WithPeerTransferMaxPeersOption (n : Z) :=
  optionOf "failed to create peer transfer max peers option: %w" (WithPeerTransferMaxPeers n).
Definition WithPeerTransferFixedPeersOption (l : list bytes) :=
  optionOf "failed to create peer transfer fixed peers option: %w" (WithPeerTransferFixedPeers l).
Definition WithPeerTransferRetryConfigOption (attempts delay : Z) :=
  optionOf "failed to create peer transfer retry config option: %w" (WithPeerTransferRetryConfig attempts delay).
Definition WithPeerTransferDHTRetryAttemptsOption (attempts : Z) :=
  optionOf "failed to create peer transfer DHT retry attempts option: %w" (WithPeerTransferDHTRetryAttempts attempts).
Definition WithPeerTransferDHTRetryDelayOption (delay : Z) :=
  optionOf "failed to create peer transfer DHT retry delay option: %w" (WithPeerTransferDHTRetryDelay delay).
Definition WithPeerTransferMaxConcurrencyOption (n : Z) :=
  optionOf "failed to create peer transfer max concurrency option: %w" (WithPeerTransferMaxConcurrency n).

(** The options of the package. *)
Inductive knownOption : TransferOption -> Prop :=
  | KTimeout t : knownOption (WithPeerTransferTimeoutOption t)
  | KMaxPeers n : knownOption (WithPeerTransferMaxPeersOption n)
  | KFixed l : knownOption (WithPeerTransferFixedPeersOption l)
  | KRetry a d : knownOption (WithPeerTransferRetryConfigOption a d)
  | KAttempts a : knownOption (WithPeerTransferDHTRetryAttemptsOption a)
  | KDelay d : knownOption (WithPeerTransferDHTRetryDelayOption d)
  | KConcurrency n : knownOption (WithPeerTransferMaxConcurrencyOption n).

(** ** Theorems *)

(** Limits that let a download try at least one peer at a time. *)
Record limits_ok (pd : PeerDownloader) : Prop := {
  lo_peers : 1 <= GetMaxPeers pd;
  lo_phase : pm_maxPeers pd = int32 (GetMaxPeers pd);
  lo_concurrency : 1 <= ex_maxConcurrency pd
}.

Lemma clampPeers_pos n : 1 <= clampPeers n.
Proof. unfold clampPeers. destruct (Z.leb_spec n 0); lia. Qed.

Lemma known_limits o pt t' :
  knownOption o -> limits_ok (pt_downloader pt) -> Apply o (APeerTransfer pt) = Ok t' ->
  exists pt', t' = APeerTransfer pt' /\ limits_ok (pt_downloader pt').
Proof.
  intros Hk [H1 H2 H3] H. pose proof clampPeers_pos as Hc.
  destruct Hk; simpl in H; injection H as <-; eexists; (split; [reflexivity|]); simpl;
    try (by split); split; simpl; auto.
  1-3: unfold WithPeerTransferFixedPeers; repeat case_match; done.
Qed.

(** The contract of a transfer option, for every option of the package: applied to a
    peer transfer it succeeds, touches neither the requests nor the clients, applying it
    again changes nothing, and the download still has limits that let it try at least one
    peer at a time; applied to anything else it is an error. *)
Theorem option_contract o pt :
  knownOption o -> limits_ok (pt_downloader pt) ->
  exists pt', Apply o (APeerTransfer pt) = Ok (APeerTransfer pt')
    /\ Apply o (APeerTransfer pt') = Ok (APeerTransfer pt')
    /\ limits_ok (pt_downloader pt')
    /\ pt_coordinator pt' = pt_coordinator pt /\ pt_connMgr pt' = pt_connMgr pt
    /\ Apply o AnotherType = Err (EMsg "expected *PeerTransfer, got %T").
Proof.
  intros Hk Hl.
  assert (exists pt', Apply o (APeerTransfer pt) = Ok (APeerTransfer pt')) as [pt' H] by (destruct Hk; eauto).
  exists pt'. split; [done|]. destruct (known_limits o pt _ Hk Hl H) as (q & [= <-] & Hq).
  destruct Hk; simpl in H |- *; injection H as <-; try (by split_and!).
  unfold WithPeerTransferFixedPeers. repeat case_match; by split_and!.
Qed.

(** One request per hash: once a caller owns the request for a hash, every caller that
    asks for it before the owner is done joins that request, whatever else the coordinator
    does meanwhile, as long as it is not stopped; a caller for another hash never gets
    that request. *)
Theorem one_request_per_hash h p rc1 l l' :
  Z.of_nat (length l + length l') < 2 ^ 63 - 2 ->
  startGet h (applyOps l NewRequestCoordinator) = (Ok (OwnRequest p), rc1) ->
  OpRemove h ∉ l' -> IsStopped (applyOps l' rc1) = false ->
  (exists rc2, startGet h (applyOps l' rc1) = (Ok (JoinRequest p), rc2))
  /\ (forall h' plan rc2, h' <> h -> startGet h' (applyOps l' rc1) = (Ok plan, rc2) ->
       plan <> JoinRequest p /\ plan <> OwnRequest p).
Proof.
  intros Hlen H Hn Hst. unfold startGet in H.
  destruct (ValidateHash h) eqn:Ev; [|done]. simpl negb in H. cbv iota in H.
  destruct (ParseHashFromString h) as [bm| |] eqn:Eh; try done.
  set (rc0 := applyOps l NewRequestCoordinator) in *.
  assert (Hw0 : coord_wf (Z.of_nat (length l)) rc0).
  { apply (applyOps_wf l 0); [lia|lia|apply new_coord_wf]. }
  destruct (GetOrCreateRequest h rc0) as [[[q own]| |] rc'] eqn:Eg; try done.
  destruct own; simplify_eq.
  assert (Hb : backlog rc1 !! h = Some p).
  { unfold GetOrCreateRequest in Eg. destruct (IsStopped rc0); [done|].
    destruct (backlog rc0 !! h); [done|]. injection Eg as <- <-. apply lookup_insert_eq. }
  assert (rc1 = applyOp (OpGet h) rc0) as E1 by (simpl; by rewrite Eg).
  pose proof (applyOps_backlog_keep l' rc1 h p Hb Hn) as Hb2.
  assert (Hw2 : coord_wf (Z.of_nat (length l) + 1 + Z.of_nat (length l')) (applyOps l' rc1)).
  { apply applyOps_wf; [lia|lia|]. rewrite E1. apply applyOp_wf; [lia|done]. }
  split.
  - unfold startGet. rewrite Ev, Eh. simpl negb. cbv iota. unfold GetOrCreateRequest.
    rewrite Hst, Hb2. eauto.
  - intros h' plan rc2 Hne Hs. unfold startGet in Hs.
    destruct (ValidateHash h'); [|done]. simpl negb in Hs. cbv iota in Hs.
    destruct (ParseHashFromString h'); try done.
    unfold GetOrCreateRequest in Hs. rewrite Hst in Hs.
    destruct (backlog (applyOps l' rc1) !! h') as [q|] eqn:Eb; simplify_eq/=.
    + split; [|done]. intros [= ->]. apply Hne. by eapply (cw_inj _ _ Hw2).
    + split; [done|]. intros [= E]. pose proof (cw_backlog _ _ Hw2 _ _ Hb2). lia.
Qed.
End Transfer.

(** A peer limit of [2 ^ 32] passes the check for a positive limit and is truncated to 0
    in the phase manager: the DHT phase is then skipped, whatever contacts there are. *)
Theorem max_peers_truncated {Contact} pd (cfg : Config Contact) cs :
  cf_maxPeers cfg = pm_maxPeers (SetMaxPeers (2 ^ 32) pd) ->
  GetMaxPeers (SetMaxPeers (2 ^ 32) pd) = 2 ^ 32
  /\ limitContacts cfg PhaseDHT cs
     = MPhase PhaseFixed (Some (EMsg "invalid maxContacts value %d for phase %s")).
Proof. intros H. split; [done|]. unfold limitContacts, maxContacts. by rewrite H. Qed.

(** A CID library under which only plain hashes are valid, and a hexadecimal parser. *)
#[local] Instance noCid : CidLib := {|
  cid_Raw := 85;
  NewCidV1 codec mh := mkCid 1 codec mh;
  cid_String _ := [];
  cid_Decode _ := Err (EMsg "selected encoding not supported");
  mh_Encode _ _ := Err (EMsg "unknown multihash code");
  mh_Decode _ := Err (EMsg "multihash too short")
|}.
#[local] Instance noNet : DiscoveryLib := {
  contactEquals _ _ _ := true;
  ParseIP _ := None;
  LookupIPAddr _ := Err (EMsg "no such host");
  services _ := Err (EMsg "unknown port");
  ipString ip := ip;
  contactAddr _ := []
}.
Definition sampleDownloader : PeerDownloader := mkDownloader 5 30 5 false 30 5.
Definition sampleTransfer : PeerTransfer :=
  mkTransfer NewPeerDiscovery freshManager NewRequestCoordinator sampleDownloader.

Lemma option_contract_witness :
  exists pt', Apply (WithPeerTransferMaxPeersOption (-3)) (APeerTransfer sampleTransfer) = Ok (APeerTransfer pt')
    /\ Apply (WithPeerTransferMaxPeersOption (-3)) (APeerTransfer pt') = Ok (APeerTransfer pt')
    /\ limits_ok (pt_downloader pt')
    /\ pt_coordinator pt' = pt_coordinator sampleTransfer /\ pt_connMgr pt' = pt_connMgr sampleTransfer
    /\ Apply (WithPeerTransferMaxPeersOption (-3)) AnotherType = Err (EMsg "expected *PeerTransfer, got %T").
Proof.
  apply (option_contract (WithPeerTransferMaxPeersOption (-3)) sampleTransfer); [constructor|].
  split; vm_compute; congruence.
Defined.

Lemma one_request_per_hash_witness :
  let h := Hash (go "x") in
  let rc1 := (startGet DecodeString h NewRequestCoordinator).2 in
  (exists rc2, startGet DecodeString h (applyOps [OpGet (go "other")] rc1) = (Ok (JoinRequest 0), rc2))
  /\ (forall h' plan rc2, h' <> h ->
       startGet DecodeString h' (applyOps [OpGet (go "other")] rc1) = (Ok plan, rc2) ->
       plan <> JoinRequest 0 /\ plan <> OwnRequest 0).
Proof.
  apply (one_request_per_hash DecodeString (Hash (go "x")) 0 _ [] [OpGet (go "other")]).
  - simpl. lia.
  - vm_compute. reflexivity.
  - rewrite not_elem_of_cons. split; [discriminate|apply not_elem_of_nil].
  - vm_compute. reflexivity.
Defined.
