(* ===== verification/Downloader.v ===== *)
(** * blob/transfer/peer_transfer: the parts of a transfer as objects

    How a peer transfer is put together: the constructors of the executor, the race
    coordinator, the phase manager and the downloader, which hold on to one connection
    manager, one discovery and one request coordinator, and the calls that start, stop and
    configure the parts.  Transfer.v keeps only the settings; theorems: it is what is left
    when the objects are forgotten; the table of phases gives the machine of Race.v its
    contacts and limits; every worker pool is stopped once or is the one in use; and
    stopping a transfer leaves its workers running. *)
From stdpp Require Import base tactics list numbers strings gmap.
From Stdlib Require Import ZArith Lia Init.Byte.
From S2P Require Import Prelude GoStd GoNet Errors Store Blob Request Race Discovery Connection Transfer.
Import Phases.
Local Open Scope Z_scope.

(** ** executor/peer_task_executor.go *)

(** [te_pool] is the number of the current pool, [te_pools] how many were made and
    [te_halted] which were stopped, in order. *)
Record TaskExecutor := mkExecutor {
  te_maxConcurrency : Z;
  te_pool : option nat;
  te_pools : nat;
  te_stopped : bool;
  te_halted : list nat
}.

(** [workerpool.New] *)
Definition makePool (n : Z) (e : TaskExecutor) : TaskExecutor :=
  mkExecutor n (Some (te_pools e)) (S (te_pools e)) (te_stopped e) (te_halted e).
(** [workerPool.Stop] and clearing the field. *)
Definition haltPool (e : TaskExecutor) : TaskExecutor :=
  match te_pool e with
  | Some p => mkExecutor (te_maxConcurrency e) None (te_pools e) (te_stopped e) (te_halted e ++ [p])
  | None => e
  end.
Definition setExecStopped (b : bool) (e : TaskExecutor) : TaskExecutor :=
  mkExecutor (te_maxConcurrency e) (te_pool e) (te_pools e) b (te_halted e).

Definition ensurePool (e : TaskExecutor) : TaskExecutor :=
  match te_pool e with None => makePool (te_maxConcurrency e) e | Some _ => e end.

(** The arguments tell which of the dependencies are not nil. *)
Definition NewPeerTaskExecutor (connMgr discovery completionHandler : bool) (maxConcurrency : Z)
    : result TaskExecutor :=
  if negb connMgr then Panic "connection manager cannot be nil"
  else if negb discovery then Panic "peer discovery cannot be nil"
  else if negb completionHandler then Panic "completion handler cannot be nil"
  else
    let maxConcurrency := if maxConcurrency <=? 0 then 5 else maxConcurrency in
    Ok (ensurePool (mkExecutor maxConcurrency None 0 false [])).

Definition executorStop (e : TaskExecutor) : TaskExecutor :=
  if te_stopped e then e else haltPool (setExecStopped true e).
Definition executorStart (e : TaskExecutor) : TaskExecutor := setExecStopped false (ensurePool e).
Definition executorSetMaxConcurrency (n : Z) (e : TaskExecutor) : TaskExecutor :=
  let n := if n <=? 0 then 1 else n in
  let e := mkExecutor n (te_pool e) (te_pools e) (te_stopped e) (te_halted e) in
  match te_pool e with None => e | Some _ => makePool n (haltPool e) end.

(** What the pool library says of a pool: its size, its queue, whether it is stopped. *)
Definition GetWorkerPoolStats (stats : nat -> Z * Z * bool) (e : TaskExecutor) : Z * Z * bool :=
  match te_pool e with None => (0, 0, true) | Some p => stats p end.

(** ** coordinator/peer_race_coordinator.go *)

Record RaceCoordinator := mkRaceCoordinator {
  rc_taskExecutor : TaskExecutor;
  rc_timeout : Z;
  rc_stopped : bool
}.

(** What the parts share. *)
Record Shared := mkShared {
  sh_connMgr : ConnectionManager;
  sh_discovery : PeerDiscovery;
  sh_coordinator : RequestCoordinator
}.

Definition stopShared (sh : Shared) : Shared :=
  mkShared (StopManager (sh_connMgr sh)) (StopDiscovery (sh_discovery sh)) (Stop (sh_coordinator sh)).
Definition startShared (sh : Shared) : Shared :=
  mkShared (StartManager (sh_connMgr sh)) (StartDiscovery (sh_discovery sh)) (Start (sh_coordinator sh)).

Definition NewPeerRaceCoordinator (connMgr discovery coordinator : bool) (taskExecutor : option TaskExecutor)
    (timeout : Z) : result RaceCoordinator :=
  if negb connMgr then Panic "connection manager cannot be nil"
  else if negb discovery then Panic "peer discovery cannot be nil"
  else if negb coordinator then Panic "request coordinator cannot be nil"
  else match taskExecutor with
       | None => Panic "task executor cannot be nil"
       | Some e => Ok (mkRaceCoordinator e timeout false)
       end.

Definition raceIsStopped (r : RaceCoordinator) : bool := rc_stopped r.
Definition raceStop (x : Shared * RaceCoordinator) : Shared * RaceCoordinator :=
  let '(sh, r) := x in
  (stopShared sh, mkRaceCoordinator (executorStop (rc_taskExecutor r)) (rc_timeout r) true).
Definition raceStart (x : Shared * RaceCoordinator) : Shared * RaceCoordinator :=
  let '(sh, r) := x in
  (startShared sh, mkRaceCoordinator (executorStart (rc_taskExecutor r)) (rc_timeout r) false).
Definition raceSetTimeout (t : Z) (r : RaceCoordinator) : RaceCoordinator :=
  mkRaceCoordinator (rc_taskExecutor r) t (rc_stopped r).
Definition raceGetTimeout (r : RaceCoordinator) : Z := rc_timeout r.
Definition GetTaskExecutor (r : RaceCoordinator) : TaskExecutor := rc_taskExecutor r.
Definition setTaskExecutor (e : TaskExecutor) (r : RaceCoordinator) : RaceCoordinator :=
  mkRaceCoordinator e (rc_timeout r) (rc_stopped r).

(** ** phase/phase_manager.go *)

Record PhaseManager := mkPhaseManager {
  ph_raceCoordinator : RaceCoordinator;
  ph_maxPeers : Z;     (* int32 *)
  ph_stopped : Z       (* 0 or 1 *)
}.

Section Phases.
Context {D : DiscoveryLib}.

(** The functions of a phase; [GetContacts] over what the discovery of the manager returns
    for the hash. *)
Record PhaseConfig := mkPhaseConfig {
  pc_Name : string;
  pc_GetContacts : PeerDiscovery -> result (list Contact) -> result (list Contact);
  pc_IsFallback : bool;
  pc_MaxContacts : PhaseManager -> PeerDiscovery -> Z;
  pc_ShouldExecute : list Contact -> bool;
  pc_ResetForPhase : nat -> list Contact -> RequestCoordinator -> RequestCoordinator
}.

Definition filterFixed (pd : PeerDiscovery) (contacts : list Contact) : list Contact :=
  foldl (fun filtered contact => if negb (IsFixedPeer pd contact) then filtered ++ [contact] else filtered)
    [] contacts.

Definition initializePhases (ph : PhaseType) : option PhaseConfig :=
  Some match ph with
       | PhaseDHT =>
           mkPhaseConfig "DHT" (fun pd discovered => contacts ← discovered; Ok (filterFixed pd contacts)) false
             (fun pm _ => ph_maxPeers pm) (fun contacts => (0 <? length contacts)%nat)
             (fun p contacts rc => ResetForNewPhase p (int32 (Z.of_nat (length contacts))) rc)
       | PhaseFixed =>
           mkPhaseConfig "Fixed" (fun pd _ => Ok (GetFixedPeers pd)) true
             (fun _ pd => Z.of_nat (length (GetFixedPeers pd))) (fun contacts => (0 <? length contacts)%nat)
             (fun p contacts rc => ResetForNewPhase p (int32 (Z.of_nat (length contacts))) rc)
       end.
End Phases.

Definition NewPhaseManager (raceCoordinator : RaceCoordinator) (maxPeers : Z) : PhaseManager :=
  mkPhaseManager raceCoordinator (int32 maxPeers) 0.

Definition phaseIsStopped (pm : PhaseManager) : bool := ph_stopped pm =? 1.
Definition phaseStop (pm : PhaseManager) : PhaseManager :=
  mkPhaseManager (ph_raceCoordinator pm) (ph_maxPeers pm) 1.
Definition phaseStart (pm : PhaseManager) : PhaseManager :=
  mkPhaseManager (ph_raceCoordinator pm) (ph_maxPeers pm) 0.
Definition phaseSetMaxPeers (n : Z) (pm : PhaseManager) : PhaseManager :=
  mkPhaseManager (ph_raceCoordinator pm) (int32 n) (ph_stopped pm).
Definition phaseGetMaxPeers (pm : PhaseManager) : Z := ph_maxPeers pm.
Definition onRace (f : RaceCoordinator -> RaceCoordinator) (pm : PhaseManager) : PhaseManager :=
  mkPhaseManager (f (ph_raceCoordinator pm)) (ph_maxPeers pm) (ph_stopped pm).

(** ** downloader/peer_downloader.go *)

Record Downloader := mkDl { do_phaseManager : PhaseManager; do_maxPeers : Z; do_timeout : Z }.

Definition NewPeerDownloader (connMgr discovery coordinator : bool) (phaseManager : option PhaseManager)
    (maxPeers timeout : Z) : result Downloader :=
  if negb connMgr then Panic "connection manager cannot be nil"
  else if negb discovery then Panic "peer discovery cannot be nil"
  else if negb coordinator then Panic "request coordinator cannot be nil"
  else match phaseManager with
       | None => Panic "phase manager cannot be nil"
       | Some pm =>
           let maxPeers := if maxPeers <=? 0 then 1 else maxPeers in
           Ok (mkDl pm maxPeers timeout)
       end.

Definition newDownloader (connMgr discovery coordinator : bool) (maxPeers timeout : Z) : result Downloader :=
  if negb connMgr then Panic "connection manager cannot be nil"
  else if negb discovery then Panic "peer discovery cannot be nil"
  else if negb coordinator then Panic "request coordinator cannot be nil"
  else
    let maxPeers := if maxPeers <=? 0 then 1 else maxPeers in
    taskExecutor ← NewPeerTaskExecutor connMgr discovery coordinator maxPeers;
    raceCoordinator ← NewPeerRaceCoordinator connMgr discovery coordinator (Some taskExecutor) timeout;
    NewPeerDownloader connMgr discovery coordinator (Some (NewPhaseManager raceCoordinator maxPeers))
      maxPeers timeout.

Definition onPhase (f : PhaseManager -> PhaseManager) (d : Downloader) : Downloader :=
  mkDl (f (do_phaseManager d)) (do_maxPeers d) (do_timeout d).
Definition dlIsStopped (d : Downloader) : bool := phaseIsStopped (do_phaseManager d).
Definition dlStop : Downloader -> Downloader := onPhase phaseStop.
Definition dlStart : Downloader -> Downloader := onPhase phaseStart.
Definition dlSetTimeout (t : Z) (d : Downloader) : Downloader :=
  mkDl (onRace (raceSetTimeout t) (do_phaseManager d)) (do_maxPeers d) t.
Definition onExecutor (f : TaskExecutor -> TaskExecutor) (r : RaceCoordinator) : RaceCoordinator :=
  setTaskExecutor (f (GetTaskExecutor r)) r.
Definition dlSetMaxConcurrency (n : Z) : Downloader -> Downloader :=
  onPhase (onRace (onExecutor (executorSetMaxConcurrency n))).
Definition dlSetMaxPeers (n : Z) (d : Downloader) : Downloader :=
  let n := if n <=? 0 then 1 else n in
  let d := mkDl (do_phaseManager d) n (do_timeout d) in
  onPhase (onRace (onExecutor (executorSetMaxConcurrency n))) (onPhase (phaseSetMaxPeers n) d).

(** ** A transfer with its parts *)

Record Parts := mkParts { pa_shared : Shared; pa_downloader : Downloader }.

Definition newParts (peerClientFactory : option unit) : result Parts :=
  connMgr ← wrap_err "failed to create connection manager: %w" (NewConnectionManager peerClientFactory);
  downloader ← newDownloader true true true 5 (30 * 1000 * Millisecond);
  Ok (mkParts (mkShared connMgr NewPeerDiscovery NewRequestCoordinator) downloader).

(** The calls on a transfer and, for the race coordinator, on the parts it hands out. *)
Inductive partsOp :=
  | PStart | PStop
  | PSetTimeout (t : Z) | PSetMaxPeers (n : Z) | PSetMaxConcurrency (n : Z)
  | PRaceStart | PRaceStop.

Definition startParts (p : Parts) : Parts :=
  mkParts (startShared (pa_shared p)) (dlStart (pa_downloader p)).
Definition stopParts (p : Parts) : Parts :=
  mkParts (stopShared (pa_shared p)) (dlStop (pa_downloader p)).
Definition onDl (f : Downloader -> Downloader) (p : Parts) : Parts := mkParts (pa_shared p) (f (pa_downloader p)).
Definition onRaceOf (f : Shared * RaceCoordinator -> Shared * RaceCoordinator) (p : Parts) : Parts :=
  let pm := do_phaseManager (pa_downloader p) in
  let '(sh, r) := f (pa_shared p, ph_raceCoordinator pm) in
  mkParts sh (onPhase (onRace (fun _ => r)) (pa_downloader p)).

Definition applyPartsOp (p : Parts) (o : partsOp) : Parts :=
  match o with
  | PStart => startParts p
  | PStop => stopParts p
  | PSetTimeout t => onDl (dlSetTimeout t) p
  | PSetMaxPeers n => onDl (dlSetMaxPeers n) p
  | PSetMaxConcurrency n => onDl (dlSetMaxConcurrency n) p
  | PRaceStart => onRaceOf raceStart p
  | PRaceStop => onRaceOf raceStop p
  end.

(** ** Theorems *)

(** The transfer of Transfer.v: the settings of the parts. *)
Definition settingsOf (d : Downloader) : PeerDownloader :=
  let pm := do_phaseManager d in
  let r := ph_raceCoordinator pm in
  mkDownloader (do_maxPeers d) (do_timeout d) (ph_maxPeers pm) (phaseIsStopped pm) (rc_timeout r)
    (te_maxConcurrency (rc_taskExecutor r)).
Definition transferOf (p : Parts) : PeerTransfer :=
  mkTransfer (sh_discovery (pa_shared p)) (sh_connMgr (pa_shared p)) (sh_coordinator (pa_shared p))
    (settingsOf (pa_downloader p)).

(** The call of Transfer.v for a call on a transfer. *)
Definition transferOp (o : partsOp) : option (PeerTransfer -> PeerTransfer) :=
  match o with
  | PStart => Some StartTransfer
  | PStop => Some StopTransfer
  | PSetTimeout t => Some (WithPeerTransferTimeout t)
  | PSetMaxPeers n => Some (WithPeerTransferMaxPeers n)
  | PSetMaxConcurrency n => Some (WithPeerTransferMaxConcurrency n)
  | PRaceStart | PRaceStop => None
  end.

Lemma setMaxConcurrency_setting n e : te_maxConcurrency (executorSetMaxConcurrency n e) = clampPeers n.
Proof. unfold executorSetMaxConcurrency, clampPeers. simpl. by destruct (te_pool e). Qed.

(** With the objects forgotten, building a transfer and every call on it is what
    Transfer.v has. *)
Theorem parts_refine_transfer factory p o f :
  (transferOf <$> match newParts factory with Ok p => Some p | _ => None end)
    = match NewPeerTransfer true factory [] with Ok pt => Some pt | _ => None end
  /\ (transferOp o = Some f -> transferOf (applyPartsOp p o) = f (transferOf p)).
Proof.
  split; [by destruct factory|].
  destruct o; simpl; intros [= <-]; try done.
  - unfold transferOf, WithPeerTransferMaxPeers, onDownloader, settingsOf. simpl.
    by rewrite setMaxConcurrency_setting.
  - unfold transferOf, WithPeerTransferMaxConcurrency, onDownloader, settingsOf. simpl.
    by rewrite setMaxConcurrency_setting.
Qed.

(** *** Worker pools *)

(** The pools that were made are those that were stopped, each once and in order, and the
    current one; there is one unless the executor is stopped. *)
Record pools_ok (e : TaskExecutor) : Prop := {
  po_split : te_halted e ++ match te_pool e with Some p => [p] | None => [] end = seq 0 (te_pools e);
  po_running : is_Some (te_pool e) <-> te_stopped e = false;
  po_workers : 1 <= te_maxConcurrency e
}.

Definition executorOf (p : Parts) : TaskExecutor :=
  rc_taskExecutor (ph_raceCoordinator (do_phaseManager (pa_downloader p))).

Lemma ensurePool_split e :
  te_halted e ++ match te_pool e with Some p => [p] | None => [] end = seq 0 (te_pools e) ->
  te_halted (ensurePool e) ++ match te_pool (ensurePool e) with Some p => [p] | None => [] end
    = seq 0 (te_pools (ensurePool e)).
Proof.
  unfold ensurePool. destruct (te_pool e) eqn:E; simpl; [by rewrite E|]. intros H.
  rewrite app_nil_r in H. by rewrite H, <- seq_S.
Qed.

Lemma executorStop_ok e : pools_ok e -> pools_ok (executorStop e).
Proof.
  intros [H1 H2 H3]. unfold executorStop, haltPool. destruct (te_stopped e) eqn:Es; [split; [done|by rewrite Es|done]|].
  destruct (proj2 H2 eq_refl) as [p Ep]. simpl. rewrite Ep in *. split; simpl; [by rewrite app_nil_r| |done].
  split; [by intros []|done].
Qed.

Lemma executorStart_ok e : pools_ok e -> pools_ok (executorStart e).
Proof.
  intros [H1 H2 H3]. split; simpl; [by apply ensurePool_split| |unfold ensurePool; by destruct (te_pool e)].
  unfold ensurePool. destruct (te_pool e) eqn:E; simpl; [rewrite E|]; split; eauto.
Qed.

Lemma executorSet_ok n e : pools_ok e -> pools_ok (executorSetMaxConcurrency n e).
Proof.
  intros [H1 H2 H3]. unfold executorSetMaxConcurrency.
  pose proof (clampPeers_pos n) as Hn. unfold clampPeers in Hn. set (m := if n <=? 0 then 1 else n) in *.
  simpl. destruct (te_pool e) as [p|] eqn:E; split; simpl; rewrite ?E; try done.
  - by rewrite H1, <- seq_S.
  - split; [intros _; apply H2; eauto|eauto].
Qed.

Lemma applyPartsOp_ok o p : pools_ok (executorOf p) -> pools_ok (executorOf (applyPartsOp p o)).
Proof.
  destruct o; unfold executorOf; simpl; auto using executorSet_ok, executorStart_ok, executorStop_ok.
Qed.

Lemma newParts_ok factory p : newParts factory = Ok p -> pools_ok (executorOf p).
Proof.
  destruct factory; [|done]. intros [= <-]. split; simpl; [done|split; eauto|lia].
Qed.

(** Over any calls on a transfer and on the race coordinator it hands out: each worker
    pool that was made has been stopped exactly once or is the one in use, one is in use
    exactly when the executor is not stopped, and it has at least one worker. *)
Theorem worker_pools_accounted factory p0 ops :
  newParts factory = Ok p0 -> pools_ok (executorOf (foldl applyPartsOp p0 ops)).
Proof.
  intros H0. apply newParts_ok in H0. revert p0 H0.
  induction ops as [|o ops IH]; intros p H; simpl; [done|]. by apply IH, applyPartsOp_ok.
Qed.

(** Stopping a transfer leaves its worker pool running and its race coordinator started:
    after any calls on the transfer alone, [Stop] included, the executor is not stopped and
    has a pool. *)
Theorem stop_leaves_workers factory p0 ops :
  newParts factory = Ok p0 -> Forall (fun o => is_Some (transferOp o)) ops ->
  let p := applyPartsOp (foldl applyPartsOp p0 ops) PStop in
  dlIsStopped (pa_downloader p) = true
  /\ te_stopped (executorOf p) = false /\ is_Some (te_pool (executorOf p))
  /\ raceIsStopped (ph_raceCoordinator (do_phaseManager (pa_downloader p))) = false.
Proof.
  intros H0 Hops. cbv zeta.
  assert (Hst : te_stopped (executorOf p0) = false
    /\ raceIsStopped (ph_raceCoordinator (do_phaseManager (pa_downloader p0))) = false).
  { destruct factory; [|done]. by injection H0 as <-. }
  apply newParts_ok in H0.
  assert (H : pools_ok (executorOf (foldl applyPartsOp p0 ops))
    /\ te_stopped (executorOf (foldl applyPartsOp p0 ops)) = false
    /\ raceIsStopped (ph_raceCoordinator (do_phaseManager (pa_downloader (foldl applyPartsOp p0 ops)))) = false).
  { revert p0 H0 Hst. induction Hops as [|o ops Ho _ IH]; intros p Hp [H1 H2]; simpl; [done|].
    apply IH; [by apply applyPartsOp_ok|].
    destruct o; destruct Ho as [f Hf]; try done;
      unfold executorOf in *; simpl; unfold executorSetMaxConcurrency; simpl;
      destruct (te_pool _); simpl; unfold haltPool; simpl; try (by destruct (te_pool _)); done. }
  destruct H as (Hp & H1 & H2). split_and!; [done|done| |done].
  by apply (po_running _ Hp).
Qed.

(** *** The machine of Race.v *)

(** What the executor of the machine shows of its pools. *)
Definition executorView {C} (w : World C) : option nat * nat * Z * bool :=
  (w_pool w, w_pools w, w_maxConcurrency w, w_execStopped w).
Definition viewOf (e : TaskExecutor) : option nat * nat * Z * bool :=
  (te_pool e, te_pools e, te_maxConcurrency e, te_stopped e).

(** The executor of the machine is this one with its tasks, and the table of phases gives
    the machine its contacts, limits and the last phase. *)
Theorem parts_refine_race `{D : DiscoveryLib} (w : World Contact) e n pm pd hash discovered ph :
  let cfg := mkConfig hash discovered (GetFixedPeers pd) (IsFixedPeer pd) (phaseGetMaxPeers pm) in
  (executorView w = viewOf e ->
     executorView (Executor.Stop w) = viewOf (executorStop e)
     /\ executorView (Executor.Start w) = viewOf (executorStart e)
     /\ executorView (Executor.SetMaxConcurrency n w) = viewOf (executorSetMaxConcurrency n e))
  /\ exists c, initializePhases ph = Some c
     /\ match pc_GetContacts c pd discovered with Ok cs => cs | _ => [] end = getContacts cfg ph
     /\ pc_MaxContacts c pm pd = maxContacts cfg ph /\ pc_IsFallback c = isFallback ph
     /\ (forall cs, pc_ShouldExecute c cs = true <-> cs <> []).
Proof.
  intros cfg. split.
  - destruct w, e. unfold executorView, viewOf. simpl. intros [= -> -> -> ->].
    unfold Executor.Stop, Executor.Start, Executor.SetMaxConcurrency, executorStop, executorStart,
      executorSetMaxConcurrency, Executor.stopPool, Executor.createWorkerPool, Executor.newPool,
      ensurePool, haltPool, Executor.IsStopped. simpl.
    destruct te_stopped0, te_pool0; done.
  - assert (Hf : forall l acc, foldl (fun filtered contact => if negb (IsFixedPeer pd contact) then filtered ++ [contact]
      else filtered) acc l = acc ++ List.filter (fun c => negb (IsFixedPeer pd c)) l).
    { induction l as [|c l IH]; intros acc; simpl; [by rewrite app_nil_r|].
      rewrite IH. destruct (IsFixedPeer pd c); simpl; [done|by rewrite <- app_assoc]. }
    destruct ph; eexists; (split; [reflexivity|]); simpl; split_and!; try done.
    + destruct discovered; simpl; [|done|done]. unfold filterFixed. by rewrite Hf.
    + intros cs. destruct cs; simpl; split; done.
    + intros cs. destruct cs; simpl; split; done.
Qed.

(** A transfer with its default parts. *)
Definition sampleParts : Parts :=
  mkParts (mkShared freshManager NewPeerDiscovery NewRequestCoordinator)
    (mkDl (mkPhaseManager (mkRaceCoordinator (mkExecutor 5 (Some 0%nat) 1 false []) (30 * 1000 * Millisecond) false) 5 0)
       5 (30 * 1000 * Millisecond)).

Lemma worker_pools_accounted_witness :
  pools_ok (executorOf (foldl applyPartsOp sampleParts [PSetMaxPeers 3; PRaceStop; PStart; PRaceStart; PSetMaxConcurrency 0])).
Proof.
  apply (worker_pools_accounted (Some tt) sampleParts [PSetMaxPeers 3; PRaceStop; PStart; PRaceStart; PSetMaxConcurrency 0]).
  reflexivity.
Defined.

Lemma stop_leaves_workers_witness :
  let p := applyPartsOp (foldl applyPartsOp sampleParts [PSetMaxPeers 3; PStop; PStart]) PStop in
  dlIsStopped (pa_downloader p) = true
  /\ te_stopped (executorOf p) = false /\ is_Some (te_pool (executorOf p))
  /\ raceIsStopped (ph_raceCoordinator (do_phaseManager (pa_downloader p))) = false.
Proof.
  apply (stop_leaves_workers (Some tt) sampleParts [PSetMaxPeers 3; PStop; PStart]); [reflexivity|].
  repeat (apply Forall_cons; split; [by eexists|]). apply Forall_nil_2.
Defined.
