(* ===== verification/JsonFrame.v ===== *)
(** * Where a JSON object ends

    A parsed prefix stays parsed when more bytes follow, unless a number could go on; so no
    proper prefix of an object's text is itself a JSON text, which is what the peer
    protocol relies on to find the end of a message in a byte stream. *)
From stdpp Require Import base tactics list numbers sets strings.
From Stdlib Require Import ZArith Lia Init.Byte.
From S2P Require Import Prelude GoStd Json.
Local Open Scope Z_scope.

(** ** More input *)

Lemma skipSpace_more b s : skipSpace b <> [] -> skipSpace (b ++ s) = skipSpace b ++ s.
Proof. induction b as [|c b IH]; simpl; [done|]. destruct (is_space c); auto. Qed.

Lemma stripPrefix_more p b r s : stripPrefix p b = Some r -> stripPrefix p (b ++ s) = Some (r ++ s).
Proof.
  revert b. induction p as [|x p IH]; intros [|y b]; unfold stripPrefix; try done;
    try (by intros [= <-]); fold stripPrefix; simpl; case_decide; try done. apply IH.
Qed.

Lemma scanString_more b l r s : scanString b = Some (l, r) -> scanString (b ++ s) = Some (l, r ++ s).
Proof.
  revert l r. induction b as [b IH] using (induction_ltof1 _ (@length byte)); unfold ltof in IH.
  intros l r H. destruct b as [|c b]; [done|]. simpl in H |- *.
  case_decide; [by simplify_eq|]. case_decide.
  - destruct b as [|e b]; [done|]. simpl. case_decide.
    + destruct b as [|h1 [|h2 [|h3 [|h4 b]]]]; try done. simpl. destruct (_ && _); [|done].
      apply bind_Some in H as ([l' r'] & H & [= <- <-]).
      erewrite IH; [done|simpl; lia|done].
    + case_decide; [|done]. apply bind_Some in H as ([l' r'] & H & [= <- <-]).
      erewrite IH; [done|simpl; lia|done].
  - destruct (_ <? _); [done|]. apply bind_Some in H as ([l' r'] & H & [= <- <-]).
    erewrite IH; [done|simpl; lia|done].
Qed.

Lemma spanDigits_more b l r s : spanDigits b = (l, r) -> r <> [] -> spanDigits (b ++ s) = (l, r ++ s).
Proof.
  revert l r. induction b as [|c b IH]; intros l r H Hr; simpl in *; [by simplify_eq|].
  destruct (is_digit c); [|by simplify_eq].
  destruct (spanDigits b) as [l' r'] eqn:E. simplify_eq. by rewrite (IH l' r).
Qed.

Lemma scanInt_more b l r s : scanInt b = Some (l, r) -> r <> [] -> scanInt (b ++ s) = Some (l, r ++ s).
Proof.
  unfold scanInt. destruct b as [|c b]; [done|]. intros H Hr. cbn [app].
  case_decide; [by simplify_eq|]. destruct (is_digit c); [|done]. f_equal. apply (spanDigits_more (c :: b)); [congruence|done].
Qed.

Lemma scanFrac_more b l r s : scanFrac b = Some (l, r) -> r <> [] -> scanFrac (b ++ s) = Some (l, r ++ s).
Proof.
  unfold scanFrac. destruct b as [|c b]; [by intros [= <- <-]|]. intros H Hr. simpl.
  case_decide; [|by simplify_eq]. destruct (spanDigits b) as [[|x l'] r'] eqn:E; [done|]. simplify_eq.
  by rewrite (spanDigits_more b (x :: l') r s).
Qed.

Lemma scanExp_more b l r s : scanExp b = Some (l, r) -> r <> [] -> scanExp (b ++ s) = Some (l, r ++ s).
Proof.
  unfold scanExp. destruct b as [|c b]; [by intros [= <- <-]|]. intros H Hr. simpl.
  case_decide; [|by simplify_eq]. destruct b as [|x b]; simpl in *; [done|].
  case_decide.
  - destruct (spanDigits b) as [[|y l'] r'] eqn:E; [done|]. simplify_eq.
    by rewrite (spanDigits_more b (y :: l') r s).
  - destruct (spanDigits (x :: b)) as [[|y l'] r'] eqn:E; [done|]. simplify_eq.
    change (x :: b ++ s) with ((x :: b) ++ s). by rewrite (spanDigits_more (x :: b) (y :: l') r s).
Qed.

Lemma scanNumber_more b l r s :
  scanNumber b = Some (l, r) -> r <> [] -> scanNumber (b ++ s) = Some (l, r ++ s).
Proof.
  unfold scanNumber. intros H Hr.
  set (sg := match b with [] => _ | _ => _ end) in H.
  assert (Hs : match b ++ s with
               | c :: r => if decide (c = x2d) then ([x2d], r) else ([], b ++ s)
               | [] => ([], b ++ s) end = (sg.1, sg.2 ++ s) \/ b = []).
  { subst sg. destruct b as [|c b]; [by right|]. left. simpl. by case_decide. }
  destruct Hs as [->| ->]; [|subst sg; simpl in H; done].
  destruct sg as [sign b1]. simpl.
  apply bind_Some in H as ([i b2] & H1 & H). apply bind_Some in H as ([f b3] & H2 & H).
  apply bind_Some in H as ([e b4] & H3 & [= <- <-]).
  assert (b3 <> []) by (intros ->; simpl in H3; by simplify_eq).
  assert (b2 <> []) by (intros ->; simpl in H2; by simplify_eq).
  rewrite (scanInt_more b1 i b2 s H1) by done. simpl.
  rewrite (scanFrac_more b2 f b3 s H2) by done. simpl.
  by rewrite (scanExp_more b3 e b4 s H3) by done.
Qed.

Lemma scanLiteral_more b v r s : scanLiteral b = Some (v, r) -> scanLiteral (b ++ s) = Some (v, r ++ s).
Proof.
  unfold scanLiteral. intros H.
  destruct (stripPrefix (go "null") b) as [r1|] eqn:E1.
  { rewrite (stripPrefix_more _ _ _ s E1). by simplify_eq. }
  destruct (stripPrefix (go "true") b) as [r2|] eqn:E2.
  { rewrite (stripPrefix_more _ _ _ s E2). simplify_eq.
    destruct b as [|c b]; [done|]. unfold stripPrefix in E2. simpl in E2. case_decide; [subst c|done].
    done. }
  destruct (stripPrefix (go "false") b) as [r3|] eqn:E3; [|done].
  rewrite (stripPrefix_more _ _ _ s E3). simplify_eq.
  destruct b as [|c b]; [done|]. unfold stripPrefix in E3. simpl in E3. case_decide; [subst c|done].
  done.
Qed.

Lemma skipStrip_more c b r s :
  stripPrefix [c] (skipSpace b) = Some r -> stripPrefix [c] (skipSpace (b ++ s)) = Some (r ++ s).
Proof.
  intros H. rewrite skipSpace_more by (intros E; by rewrite E in H). by apply stripPrefix_more.
Qed.

(** A number might go on in what follows. *)
Definition isNumber (v : json) : bool := match v with JNum _ => true | _ => false end.

Lemma parse_more fuel :
  (forall d b v r s, parseValue fuel d b = Some (v, r) -> r <> [] \/ isNumber v = false ->
     parseValue fuel d (b ++ s) = Some (v, r ++ s))
  /\ (forall d b vs r s, parseElems fuel d b = Some (vs, r) -> parseElems fuel d (b ++ s) = Some (vs, r ++ s))
  /\ (forall d b ms r s, parseMembers fuel d b = Some (ms, r) -> parseMembers fuel d (b ++ s) = Some (ms, r ++ s)).
Proof.
  induction fuel as [|fuel (IHv & IHe & IHm)]; [done|]. split_and!.
  - intros d b v r s H Hr. cbn [parseValue] in H |- *.
    destruct (skipSpace b) as [|c r0] eqn:E; [done|].
    rewrite skipSpace_more, E by (by rewrite E). cbn [app].
    assert (Hsk : skipSpace r0 <> [] -> skipSpace (r0 ++ s) = skipSpace r0 ++ s)
      by apply skipSpace_more.
    case_decide; [|case_decide; [|case_decide; [|case_match]]].
    + case_match; [done|]. destruct (skipSpace r0) as [|y r1] eqn:E0.
      { simpl in H. apply bind_Some in H as ([ms r'] & H & _). destruct fuel; [done|].
        cbn [parseMembers] in H. by rewrite E0 in H. }
      rewrite Hsk by done. cbn [app head tail] in *. case_decide; [by simplify_eq|].
      apply bind_Some in H as ([ms r'] & H & [= <- <-]). by rewrite (IHm _ _ _ _ s H).
    + case_match; [done|]. destruct (skipSpace r0) as [|y r1] eqn:E0.
      { simpl in H. apply bind_Some in H as ([ms r'] & H & _). destruct fuel as [|[|fuel]]; try done.
        cbn [parseElems] in H. apply bind_Some in H as (? & H & _). cbn [parseValue] in H. by rewrite E0 in H. }
      rewrite Hsk by done. cbn [app head tail] in *. case_decide; [by simplify_eq|].
      apply bind_Some in H as ([ms r'] & H & [= <- <-]). by rewrite (IHe _ _ _ _ s H).
    + apply bind_Some in H as ([l r'] & H & [= <- <-]). by rewrite (scanString_more _ _ _ s H).
    + apply bind_Some in H as ([l r'] & H & [= <- <-]). destruct Hr as [Hr|]; [|done].
      change (c :: r0 ++ s) with ((c :: r0) ++ s). by rewrite (scanNumber_more _ _ _ s H Hr).
    + by apply (scanLiteral_more (c :: r0)).
  - intros d b vs r s H. cbn [parseElems] in H |- *.
    apply bind_Some in H as ([v r0] & H0 & H). destruct (skipSpace r0) as [|c r1] eqn:E; [done|].
    rewrite (IHv _ _ _ _ s H0) by (left; by intros ->). simpl.
    rewrite skipSpace_more, E by (by rewrite E). cbn [app].
    case_decide; [|case_decide; by simplify_eq].
    apply bind_Some in H as ([vs' r'] & H & [= <- <-]). by rewrite (IHe _ _ _ _ s H).
  - intros d b ms r s H. cbn [parseMembers] in H |- *.
    apply bind_Some in H as (r0 & H0 & H). rewrite (skipStrip_more _ _ _ s H0). simpl.
    apply bind_Some in H as ([k r1] & H1 & H). rewrite (scanString_more _ _ _ s H1). simpl.
    apply bind_Some in H as (r2 & H2 & H). rewrite (skipStrip_more _ _ _ s H2). simpl.
    apply bind_Some in H as ([v r3] & H3 & H). destruct (skipSpace r3) as [|c r4] eqn:E; [done|].
    rewrite (IHv _ _ _ _ s H3) by (left; by intros ->). simpl.
    rewrite skipSpace_more, E by (by rewrite E). cbn [app].
    case_decide; [|case_decide; by simplify_eq].
    apply bind_Some in H as ([ms' r'] & H & [= <- <-]). by rewrite (IHm _ _ _ _ s H).
Qed.

(** ** The end of an object *)

Lemma parseValue_object fuel d b v r :
  parseValue fuel d (x7b :: b) = Some (v, r) -> isNumber v = false.
Proof.
  destruct fuel as [|fuel]; [done|]. cbn [parseValue].
  rewrite (skipSpace_non x7b b) by done. rewrite decide_True by done.
  case_match; [done|]. case_decide; [by intros [= <- <-]|].
  by intros ([ms r'] & _ & [= <- <-])%bind_Some.
Qed.

(** No proper prefix of the text of an object is a JSON text. *)
Lemma object_prefix_free sc sk ms p s :
  Forall (fun c => is_space c = true) sc -> Forall (fun c => is_space c = true) sk ->
  wfJson maxNestingDepth (JObj ms) -> print sc sk (JObj ms) = p ++ s -> Valid p = true -> s = [].
Proof.
  intros Hsc Hsk Hw E Hv. unfold Valid, parse in Hv.
  destruct (parseValue _ _ p) as [[v r]|] eqn:Ep; [|done].
  destruct p as [|c p]; [done|]. assert (c = x7b) as -> by (simpl in E; congruence).
  pose proof (parseValue_object _ _ _ _ _ Ep) as Hn.
  set (n := (2 * length ((x7b :: p) ++ s) + 2)%nat).
  rewrite <- (parse_fuel (x7b :: p) n) in Ep by (subst n; rewrite length_app; lia).
  pose proof (proj1 (parse_more n) _ _ _ _ s Ep (or_intror Hn)) as E1.
  pose proof (print_parses sc sk Hsc Hsk (JObj ms) maxNestingDepth n [] [] Hw) as E2.
  cbn [app] in E2. rewrite app_nil_r, E in E2.
  rewrite E2 in E1; [|done|done|subst n; lia].
  injection E1 as _ E1. symmetry in E1. by apply app_eq_nil in E1 as [_ ->].
Qed.
