(* ===== verification/PeerMsg.v ===== *)
(** * protocol/peer_messages.go: the messages of the peer protocol

    Requests and responses with their JSON encodings, over the model of encoding/json:
    a nil slice or pointer is [None], [omitempty] leaves a member out, a payment rate is a
    64-bit float.  Lemmas: the encodings are objects, and a response or a request without
    a rate is read back from its text. *)
From stdpp Require Import base tactics list numbers strings.
From Stdlib Require Import ZArith Lia Init.Byte Floats.SpecFloat.
From S2P Require Import Prelude GoStd Blob Json JsonFrame SdBlob SdBlobSpec.
Local Open Scope Z_scope.

(** ** Data *)

Record IncomingBlob := mkIncoming { ib_Error : bytes; ib_BlobHash : bytes; ib_Length : Z }.

Record CompositeRequest := mkRequest {
  rq_RequestedBlobs : option (list bytes);
  rq_BlobDataPaymentRate : option spec_float;
  rq_RequestedBlob : bytes
}.

Record CompositeResponse := mkResponse {
  rs_AvailableBlobs : option (list bytes);
  rs_BlobDataPaymentRate : bytes;
  rs_IncomingBlob : option IncomingBlob
}.

(** ** Floats *)

Definition digitsValue (l : bytes) : Z :=
  foldl (fun n c => n * 10 + (Z_of_byte c - 48)) 0 l.

(** [strconv] stops adding digits to an exponent of 10000 or more. *)
Definition exponentValue (l : bytes) : Z :=
  foldl (fun n c => if n <? 10000 then n * 10 + (Z_of_byte c - 48) else n) 0 l.

(** The sign, the digits as an integer and the power of ten of a JSON number. *)
Definition decimalOf (lit : bytes) : bool * Z * Z :=
  let '(neg, b) := match lit with
    | c :: r => if decide (c = x2d) then (true, r) else (false, lit)
    | [] => (false, []) end in
  let '(i, b) := spanDigits b in
  let '(f, b) := match b with
    | c :: r => if decide (c = x2e) then spanDigits r else ([], b)
    | [] => ([], []) end in
  let e := match b with
    | c :: s :: r =>
        if decide (c = x65 \/ c = x45) then
          if decide (s = x2d) then - exponentValue r
          else if decide (s = x2b) then exponentValue r
          else exponentValue (s :: r)
        else 0
    | _ => 0 end in
  (neg, digitsValue (i ++ f), e - Z.of_nat (length f)).

(** The nearest 64-bit float; [None] when it would be infinite, a range error. *)
Definition ParseFloat (lit : bytes) : option spec_float :=
  let '(neg, m, e) := decimalOf lit in
  let f :=
    match m with
    | Zpos p =>
        if 0 <=? e then
          binary_round 53 1024 neg (p * Z.to_pos (10 ^ e)) 0
        else SFdiv 53 1024 (S754_finite neg p 0) (S754_finite false (Z.to_pos (10 ^ (- e))) 0)
    | _ => S754_zero neg
    end in
  match f with S754_infinity _ | S754_nan => None | _ => Some f end.

(** [f < 0] *)
Definition ltZero (f : spec_float) : bool :=
  match f with S754_finite true _ _ | S754_infinity true => true | _ => false end.

(** ** Encoding *)

Definition strings (l : list bytes) : json := JArr (map (fun s => JStr (quote s)) l).
Definition omitEmpty (name : string) (s : bytes) : list (bytes * json) :=
  match s with [] => [] | _ => [strMember name s] end.

Definition incomingJSON (b : IncomingBlob) : json :=
  JObj (omitEmpty "error" (ib_Error b)
        ++ [strMember "blob_hash" (ib_BlobHash b); intMember "length" (ib_Length b)]).

(** [json.Marshal] of a request; [FormatFloat] is the text of a rate. *)
Definition requestJSON (FormatFloat : spec_float -> bytes) (r : CompositeRequest) : json :=
  JObj (match rq_RequestedBlobs r with
        | Some (h :: hs) => [(quote (go "requested_blobs"), strings (h :: hs))]
        | _ => [] end
        ++ match rq_BlobDataPaymentRate r with
           | Some f => [(quote (go "blob_data_payment_rate"), JNum (FormatFloat f))]
           | None => [] end
        ++ omitEmpty "requested_blob" (rq_RequestedBlob r)).

Definition responseJSON (r : CompositeResponse) : json :=
  JObj ([(quote (go "available_blobs"),
          match rs_AvailableBlobs r with Some l => strings l | None => JNull end)]
        ++ omitEmpty "blob_data_payment_rate" (rs_BlobDataPaymentRate r)
        ++ match rs_IncomingBlob r with
           | Some b => [(quote (go "incoming_blob"), incomingJSON b)]
           | None => [] end).

Definition marshalRequest (FormatFloat : spec_float -> bytes) (r : CompositeRequest) : bytes :=
  print [] [] (requestJSON FormatFloat r).
Definition marshalResponse (r : CompositeResponse) : bytes := print [] [] (responseJSON r).

(** ** Decoding *)

(** A slice of strings under a struct field, nil or not. *)
Definition decodeStrings (v : json) (cur : option (slice bytes)) : result (option (slice bytes)) :=
  match v with
  | JNull => Ok None
  | _ => s ← decodeSlice [] decodeString v (default nilSlice cur); Ok (Some s)
  end.

Definition decodeRate (v : json) : result (option spec_float) :=
  match v with
  | JNull => Ok None
  | JNum l => match ParseFloat l with Some f => Ok (Some f) | None => typeError end
  | _ => typeError
  end.

Definition incomingNames : list bytes := [go "error"; go "blob_hash"; go "length"].
Definition setIncomingField (name : bytes) (v : json) (b : IncomingBlob) : result IncomingBlob :=
  if decide (name = go "error") then
    s ← decodeString v (ib_Error b); Ok (mkIncoming s (ib_BlobHash b) (ib_Length b))
  else if decide (name = go "blob_hash") then
    s ← decodeString v (ib_BlobHash b); Ok (mkIncoming (ib_Error b) s (ib_Length b))
  else if decide (name = go "length") then
    n ← decodeInt v (ib_Length b); Ok (mkIncoming (ib_Error b) (ib_BlobHash b) n)
  else Ok b.

(** A pointer: [null] makes it nil, anything else is decoded into what it points to. *)
Definition decodeIncoming (v : json) (cur : option IncomingBlob) : result (option IncomingBlob) :=
  match v with
  | JNull => Ok None
  | _ => b ← decodeStruct incomingNames setIncomingField v (default (mkIncoming [] [] 0) cur); Ok (Some b)
  end.

(** The fields of the two messages while they are decoded. *)
Record reqFields := mkReqFields {
  qf_blobs : option (slice bytes); qf_rate : option spec_float; qf_blob : bytes
}.
Record respFields := mkRespFields {
  sf_blobs : option (slice bytes); sf_rate : bytes; sf_incoming : option IncomingBlob
}.

Definition requestNames : list bytes :=
  [go "requested_blobs"; go "blob_data_payment_rate"; go "requested_blob"].
Definition setRequestField (name : bytes) (v : json) (q : reqFields) : result reqFields :=
  if decide (name = go "requested_blobs") then
    s ← decodeStrings v (qf_blobs q); Ok (mkReqFields s (qf_rate q) (qf_blob q))
  else if decide (name = go "blob_data_payment_rate") then
    f ← decodeRate v; Ok (mkReqFields (qf_blobs q) f (qf_blob q))
  else if decide (name = go "requested_blob") then
    s ← decodeString v (qf_blob q); Ok (mkReqFields (qf_blobs q) (qf_rate q) s)
  else Ok q.

Definition responseNames : list bytes :=
  [go "available_blobs"; go "blob_data_payment_rate"; go "incoming_blob"].
Definition setResponseField (name : bytes) (v : json) (q : respFields) : result respFields :=
  if decide (name = go "available_blobs") then
    s ← decodeStrings v (sf_blobs q); Ok (mkRespFields s (sf_rate q) (sf_incoming q))
  else if decide (name = go "blob_data_payment_rate") then
    s ← decodeString v (sf_rate q); Ok (mkRespFields (sf_blobs q) s (sf_incoming q))
  else if decide (name = go "incoming_blob") then
    b ← decodeIncoming v (sf_incoming q); Ok (mkRespFields (sf_blobs q) (sf_rate q) b)
  else Ok q.

(** [json.Unmarshal] into a zero request and a zero response. *)
Definition unmarshalRequest (b : bytes) : result CompositeRequest :=
  v ← parse b;
  q ← decodeStruct requestNames setRequestField v (mkReqFields None None []);
  Ok (mkRequest (sliceElems <$> qf_blobs q) (qf_rate q) (qf_blob q)).
Definition unmarshalResponse (b : bytes) : result CompositeResponse :=
  v ← parse b;
  q ← decodeStruct responseNames setResponseField v (mkRespFields None [] None);
  Ok (mkResponse (sliceElems <$> sf_blobs q) (sf_rate q) (sf_incoming q)).

(** Some texts and their floats: halfway cases round to even, tiny ones to zero. *)
Example float_texts :
  ParseFloat (go "0.5") = Some (S754_finite false 4503599627370496 (-53))
  /\ ParseFloat (go "-1e-400") = Some (S754_zero true)
  /\ ParseFloat (go "1.8e308") = None
  /\ ParseFloat (go "9007199254740993") = Some (S754_finite false 4503599627370496 1).
Proof. by vm_compute. Qed.

(** ** Texts that JSON carries unchanged *)

Definition safe (s : bytes) : Prop := Forall (fun c => htmlSafe c = true) s.
Definition safeAscii (s : string) : bool := forallb htmlSafe (go s).

Lemma safeAscii_safe s : safeAscii s = true -> safe (go s).
Proof. unfold safeAscii, safe. rewrite Forall_forall, forallb_forall. setoid_rewrite list_elem_of_In. auto. Qed.

Lemma wfStr_quote s : safe s -> wfStr (quote s).
Proof. apply wfStr_quote_plain. Qed.

Lemma wf_strMember d name s :
  safeAscii name = true -> safe s -> wfStr (strMember name s).1 /\ wfJson d (strMember name s).2.
Proof. intros Hn Hs. split; [|constructor]; apply wfStr_quote; [by apply safeAscii_safe|done]. Qed.

Lemma wf_omitEmpty d name s :
  safeAscii name = true -> safe s ->
  Forall (fun m => wfStr m.1 /\ wfJson d m.2) (omitEmpty name s).
Proof.
  intros. unfold omitEmpty. destruct s; constructor; [by apply wf_strMember|constructor].
Qed.

Lemma wf_strings d l : 0 < d -> Forall safe l -> wfJson d (strings l).
Proof.
  intros Hd H. constructor; [done|]. apply Forall_map. eapply Forall_impl; [exact H|].
  intros s Hs. constructor. by apply wfStr_quote.
Qed.

Definition safeIncoming (b : IncomingBlob) : Prop :=
  safe (ib_Error b) /\ safe (ib_BlobHash b) /\ in_int64 (ib_Length b).
Definition safeResponse (r : CompositeResponse) : Prop :=
  Forall safe (default [] (rs_AvailableBlobs r)) /\ safe (rs_BlobDataPaymentRate r)
  /\ from_option safeIncoming True (rs_IncomingBlob r).
Definition safeRequest (r : CompositeRequest) : Prop :=
  Forall safe (default [] (rq_RequestedBlobs r)) /\ rq_BlobDataPaymentRate r = None
  /\ safe (rq_RequestedBlob r).

Lemma wf_incoming d b : 0 < d -> safeIncoming b -> wfJson d (incomingJSON b).
Proof.
  intros Hd (He & Hh & Hl). constructor; [done|]. apply Forall_app. split; [by apply wf_omitEmpty|].
  constructor; [by apply wf_strMember|]. constructor; [|constructor].
  split; [by apply wfStr_quote, safeAscii_safe|]. constructor. by apply wfNum_Itoa.
Qed.

Lemma wf_response r : safeResponse r -> wfJson maxNestingDepth (responseJSON r).
Proof.
  intros (Ha & Hr & Hi). unfold maxNestingDepth. constructor; [lia|].
  repeat (apply Forall_app; split).
  - constructor; [|constructor]. split; [by apply wfStr_quote, safeAscii_safe|].
    simpl. destruct (rs_AvailableBlobs r); [by apply wf_strings|constructor].
  - by apply wf_omitEmpty.
  - destruct (rs_IncomingBlob r); constructor; [|constructor].
    split; [by apply wfStr_quote, safeAscii_safe|by apply wf_incoming].
Qed.

Lemma wf_request ff r : safeRequest r -> wfJson maxNestingDepth (requestJSON ff r).
Proof.
  intros (Ha & Hr & Hb). unfold maxNestingDepth. constructor; [lia|]. rewrite Hr.
  repeat (apply Forall_app; split); [|constructor|by apply wf_omitEmpty].
  destruct (rq_RequestedBlobs r) as [[|h hs]|]; constructor; [|constructor].
  split; [by apply wfStr_quote, safeAscii_safe|by apply wf_strings].
Qed.

(** ** Reading back *)

Lemma decodeString_safe s cur : safe s -> decodeString (JStr (quote s)) cur = Ok s.
Proof. intros H. unfold decodeString. by rewrite unquote_quote_plain. Qed.

Lemma decodeElems_strings l :
  Forall safe l -> decodeElems [] decodeString (map (fun s => JStr (quote s)) l) [] = Ok l.
Proof.
  induction 1 as [|s l Hs _ IH]; cbn [map decodeElems]; [done|].
  rewrite decodeString_safe by done. cbn [mbind result_bind tail]. by rewrite IH.
Qed.

Lemma decodeStrings_strings l :
  Forall safe l -> exists s, decodeStrings (strings l) None = Ok (Some s) /\ sliceElems s = l.
Proof.
  intros H. unfold decodeStrings, strings, decodeSlice. destruct l as [|x l].
  { eexists. split; [done|]. done. }
  pose proof (decodeElems_strings (x :: l) H) as E. cbn [map] in E |- *.
  change (sl_backing (default nilSlice None)) with (@nil bytes). rewrite E.
  eexists. split; [done|]. unfold sliceElems. cbn [sl_len sl_backing].
  rewrite take_app_le, take_ge by done. done.
Qed.

Lemma decode_known {R} names (set : bytes -> json -> R -> result R) name v ms r r' :
  plainName name = true -> bool_decide (go name ∈ names) = true -> set (go name) v r = Ok r' ->
  decodeMembers names set ((quote (go name), v) :: ms) r = decodeMembers names set ms r'.
Proof. intros Hp%bool_decide_eq_true. by apply decodeMembers_known. Qed.

(** The member of an [omitempty] string whose field is still empty. *)
Lemma decode_omitEmpty {R} names (set : bytes -> json -> R -> result R) name s ms r r' :
  plainName name = true -> bool_decide (go name ∈ names) = true -> safe s ->
  (s = [] -> r' = r) -> set (go name) (JStr (quote s)) r = Ok r' ->
  decodeMembers names set (omitEmpty name s ++ ms) r = decodeMembers names set ms r'.
Proof.
  intros Hp Hn Hs H0 H. unfold omitEmpty. destruct s; [by rewrite H0|].
  cbn [app]. by apply decode_known.
Qed.

Lemma decode_incoming b : safeIncoming b -> decodeIncoming (incomingJSON b) None = Ok (Some b).
Proof.
  intros (He & Hh & Hl). destruct b as [e h n]. unfold decodeIncoming, incomingJSON, decodeStruct, strMember, intMember.
  cbn [default ib_Error ib_BlobHash ib_Length] in *.
  rewrite (decode_omitEmpty _ _ "error" e _ _ (mkIncoming e [] 0)); [|done|done|done|by intros ->|].
  2: { unfold setIncomingField. rewrite decide_True by done. by rewrite decodeString_safe. }
  rewrite (decode_known _ _ "blob_hash" _ _ _ (mkIncoming e h 0)); [|done|done|].
  2: { unfold setIncomingField. rewrite decide_False, decide_True by done. by rewrite decodeString_safe. }
  rewrite (decode_known _ _ "length" _ _ _ (mkIncoming e h n)); [done|done|done|].
  unfold setIncomingField. rewrite !decide_False, decide_True by done. by rewrite decodeInt_Itoa.
Qed.

Lemma response_read r : safeResponse r -> unmarshalResponse (marshalResponse r) = Ok r.
Proof.
  intros Hs. unfold unmarshalResponse, marshalResponse.
  rewrite (parse_print [] [] (Forall_nil_2 _) (Forall_nil_2 _)) by by apply wf_response. cbn [mbind result_bind].
  destruct Hs as (Ha & Hr & Hi). destruct r as [av rate inc]. simpl in Ha, Hr, Hi.
  unfold responseJSON, decodeStruct. cbn [rs_AvailableBlobs rs_BlobDataPaymentRate rs_IncomingBlob].
  assert (exists sl, sliceElems <$> sl = av /\
    decodeStrings (match av with Some l => strings l | None => JNull end) None = Ok sl) as (sl & Esl & Ed).
  { destruct av as [l|]; [|by exists None]. destruct (decodeStrings_strings l Ha) as (s & Es & El).
    exists (Some s). simpl. by rewrite El. }
  cbn [app]. rewrite (decode_known _ _ "available_blobs" _ _ _ (mkRespFields sl [] None)); [|done|done|].
  2: { unfold setResponseField. rewrite decide_True by done. cbn [sf_blobs]. by rewrite Ed. }
  rewrite (decode_omitEmpty _ _ "blob_data_payment_rate" rate _ _ (mkRespFields sl rate None));
    [|done|done|done|by intros ->|].
  2: { unfold setResponseField. rewrite decide_False, decide_True by done. by rewrite decodeString_safe. }
  destruct inc as [b|]; [|simpl; by rewrite Esl].
  rewrite (decode_known _ _ "incoming_blob" _ _ _ (mkRespFields sl rate (Some b))); [|done|done|].
  - simpl. by rewrite Esl.
  - unfold setResponseField. rewrite !decide_False, decide_True by done. cbn [sf_incoming].
    by rewrite decode_incoming.
Qed.

(** An empty list of blobs is not sent. *)
Definition sent (r : CompositeRequest) : CompositeRequest :=
  mkRequest (match rq_RequestedBlobs r with Some [] => None | x => x end)
    (rq_BlobDataPaymentRate r) (rq_RequestedBlob r).

Lemma request_read ff r : safeRequest r -> unmarshalRequest (marshalRequest ff r) = Ok (sent r).
Proof.
  intros Hs. unfold unmarshalRequest, marshalRequest.
  rewrite (parse_print [] [] (Forall_nil_2 _) (Forall_nil_2 _)) by by apply wf_request. cbn [mbind result_bind].
  destruct Hs as (Ha & Hr & Hb). destruct r as [bl rate b]. simpl in Ha, Hr, Hb. subst rate.
  unfold requestJSON, decodeStruct. cbn [rq_RequestedBlobs rq_BlobDataPaymentRate rq_RequestedBlob app].
  assert (Hlast : forall sl, decodeMembers requestNames setRequestField (omitEmpty "requested_blob" b)
    (mkReqFields sl None []) = Ok (mkReqFields sl None b)).
  { intros sl. rewrite <- (app_nil_r (omitEmpty _ _)).
    rewrite (decode_omitEmpty _ _ "requested_blob" b _ _ (mkReqFields sl None b)); try done; [by intros ->|].
    unfold setRequestField. rewrite !decide_False, decide_True by done. by rewrite decodeString_safe. }
  destruct bl as [[|h hs]|]; [by rewrite Hlast| |by rewrite Hlast].
  destruct (decodeStrings_strings (h :: hs) Ha) as (s & Es & El). cbn [app].
  rewrite (decode_known _ _ "requested_blobs" _ _ _ (mkReqFields (Some s) None [])); [|done|done|].
  - rewrite Hlast. simpl. by rewrite El.
  - unfold setRequestField. rewrite decide_True by done. cbn [qf_blobs]. by rewrite Es.
Qed.

(** ** Decoding does not panic *)

Definition calm {A} (r : result A) : Prop := forall w, r <> Panic w.

Lemma calm_bind {A C} (m : result A) (f : A -> result C) :
  calm m -> (forall a, m = Ok a -> calm (f a)) -> calm (m ≫= f).
Proof. intros Hm Hf. destruct m as [a| |w]; [by apply Hf|done|by destruct (Hm w)]. Qed.

Create HintDb calmdb.
#[export] Hint Resolve calm_bind : calmdb.

Lemma calm_Ok {A} (a : A) : calm (Ok a). Proof. done. Qed.
Lemma calm_Err {A} e : calm (@Err A e). Proof. done. Qed.
#[export] Hint Resolve calm_Ok calm_Err : calmdb.

Lemma calm_decodeString v cur : calm (decodeString v cur).
Proof. destruct v; try done. simpl. by destruct (unquote lit). Qed.
Lemma calm_decodeInt v cur : calm (decodeInt v cur).
Proof. destruct v; try done. simpl. by destruct (ParseInt lit). Qed.
#[export] Hint Resolve calm_decodeString calm_decodeInt : calmdb.

Lemma calm_decodeElems {A} (zero : A) dec vs old :
  (forall v a, calm (dec v a)) -> calm (decodeElems zero dec vs old).
Proof. intros H. revert old. induction vs; intros old; simpl; auto 6 with calmdb. Qed.

Lemma calm_decodeSlice {A} (zero : A) dec v s :
  (forall v a, calm (dec v a)) -> calm (decodeSlice zero dec v s).
Proof.
  intros H. destruct v; try done. destruct elems; [done|].
  apply calm_bind; [by apply calm_decodeElems|done].
Qed.

Lemma calm_decodeStruct {R} names (set : bytes -> json -> R -> result R) v r :
  (forall n v r, calm (set n v r)) -> calm (decodeStruct names set v r).
Proof.
  intros H. destruct v; try done. simpl. revert r. induction members as [|[k v] ms IH]; intros r; simpl; [done|].
  destruct (unquote k) as [key|]; [|done]. apply calm_bind; [|auto]. by destruct (findField names key).
Qed.

Lemma calm_decodeStrings v cur : calm (decodeStrings v cur).
Proof.
  destruct v; try done. apply calm_bind; [|done]. apply calm_decodeSlice. apply calm_decodeString.
Qed.

Lemma calm_setRequestField n v q : calm (setRequestField n v q).
Proof.
  unfold setRequestField. repeat case_decide; try done; (apply calm_bind; [|done]).
  - apply calm_decodeStrings.
  - destruct v; try done. simpl. by destruct (ParseFloat lit).
  - apply calm_decodeString.
Qed.

Lemma calm_parse b : calm (parse b).
Proof. unfold parse. destruct (parseValue _ _ _) as [[v r]|]; [|done]. by case_decide. Qed.

Lemma calm_unmarshalRequest b : calm (unmarshalRequest b).
Proof.
  apply calm_bind; [apply calm_parse|]. intros v _. apply calm_bind; [|done].
  apply calm_decodeStruct. apply calm_setRequestField.
Qed.
