(* ===== verification/Wire.v ===== *)
(** * Connections, and the framing of peer messages

    A connection as the protocols use it through [bufio] and [net]: the bytes that will
    arrive and the error that ends them, the bytes written, and the outcome of each
    deadline and write.  [readNextMessage] of protocol/peer.go and protocol/peer_client.go
    takes one JSON object off the stream; theorems: it takes exactly the object, whatever
    follows it, and returns on every stream. *)
From stdpp Require Import base tactics list numbers strings.
From Stdlib Require Import ZArith Lia Init.Byte.
From S2P Require Import Prelude GoStd Json JsonFrame.
Local Open Scope Z_scope.

(** ** net.Conn under a bufio.Reader *)

(** [cn_in] arrives and then reads fail with [cn_end]; [cn_faults] says of the calls that
    set a deadline or write, in order, which fail: with what error, and after how many
    bytes for a write.  The calls beyond the list succeed. *)
Record Conn := mkConn {
  cn_in : bytes;
  cn_end : error;
  cn_out : bytes;
  cn_faults : list (option (nat * error))
}.

Definition setIn (b : bytes) (c : Conn) : Conn := mkConn b (cn_end c) (cn_out c) (cn_faults c).

Definition ReadByte (c : Conn) : result byte * Conn :=
  match cn_in c with
  | [] => (Err (cn_end c), c)
  | x :: r => (Ok x, setIn r c)
  end.

(** Up to and with the first [delim]. *)
Fixpoint splitAfter (delim : byte) (b : bytes) : option (bytes * bytes) :=
  match b with
  | [] => None
  | x :: r => if decide (x = delim) then Some ([x], r)
              else '(l, r') ← splitAfter delim r; Some (x :: l, r')
  end.

Definition ReadBytes (delim : byte) (c : Conn) : result bytes * Conn :=
  match splitAfter delim (cn_in c) with
  | Some (l, r) => (Ok l, setIn r c)
  | None => (Err (cn_end c), setIn [] c)
  end.

(** [io.ReadFull] of [n] bytes. *)
Definition ReadFull (n : nat) (c : Conn) : result bytes * Conn :=
  if decide (n <= length (cn_in c))%nat then (Ok (take n (cn_in c)), setIn (drop n (cn_in c)) c)
  else
    (Err (if decide (cn_end c = ESent EOF /\ cn_in c <> []) then ESent ErrUnexpectedEOF else cn_end c),
     setIn [] c).

(** The outcome of the next call that may fail. *)
Definition nextFault (c : Conn) : option (nat * error) * Conn :=
  match cn_faults c with
  | [] => (None, c)
  | f :: fs => (f, mkConn (cn_in c) (cn_end c) (cn_out c) fs)
  end.

Definition SetDeadline (c : Conn) : result unit * Conn :=
  match nextFault c with
  | (Some (_, e), c) => (Err e, c)
  | (None, c) => (Ok tt, c)
  end.

Definition Write (b : bytes) (c : Conn) : result unit * Conn :=
  match nextFault c with
  | (Some (n, e), c) => (Err e, mkConn (cn_in c) (cn_end c) (cn_out c ++ take n b) (cn_faults c))
  | (None, c) => (Ok tt, mkConn (cn_in c) (cn_end c) (cn_out c ++ b) (cn_faults c))
  end.

(** ** readNextMessage *)

Definition MaxRequestSize : Z := 65536.

(** The loop both ends share: chunks up to a closing brace are added to the buffer until it
    is a JSON text.  Every turn takes a byte, so the bytes that arrive bound the turns. *)
Fixpoint readMessage (fuel : nat) (buffer : bytes) (c : Conn) : result bytes * Conn :=
  match fuel with
  | O => (Panic "out of fuel", c)
  | S fuel =>
      if MaxRequestSize <? Z.of_nat (length buffer) then (Err (ESent ErrRequestTooLarge), c) else
      match ReadBytes x7d c with
      | (Ok chunk, c) =>
          let buffer := buffer ++ chunk in
          if Valid buffer then (Ok buffer, c) else readMessage fuel buffer c
      | (Err e, c) => (Err e, c)
      | (Panic w, c) => (Panic w, c)
      end
  end.

(** protocol/peer_client.go *)
Definition clientReadNextMessage (c : Conn) : result bytes * Conn :=
  match ReadByte c with
  | (Ok firstByte, c) =>
      if negb (bool_decide (firstByte = x7b)) then (Err (ESent ErrInvalidData), c)
      else readMessage (S (length (cn_in c))) [firstByte] c
  | (Err e, c) => (Err e, c)
  | (Panic w, c) => (Panic w, c)
  end.

(** protocol/peer.go: white space before the message is skipped. *)
Fixpoint skipBlanks (fuel : nat) (c : Conn) : result bytes * Conn :=
  match fuel with
  | O => (Panic "out of fuel", c)
  | S fuel =>
      match ReadByte c with
      | (Ok firstByte, c) =>
          if negb (is_space firstByte) then
            if negb (bool_decide (firstByte = x7b)) then (Err (ESent ErrInvalidData), c)
            else readMessage (S (length (cn_in c))) [firstByte] c
          else skipBlanks fuel c
      | (Err e, c) => (Err e, c)
      | (Panic w, c) => (Panic w, c)
      end
  end.
Definition serverReadNextMessage (c : Conn) : result bytes * Conn :=
  skipBlanks (S (length (cn_in c))) c.

(** ** Framing *)

Lemma splitAfter_app delim b l r s :
  splitAfter delim b = Some (l, r) -> splitAfter delim (b ++ s) = Some (l, r ++ s).
Proof.
  revert l r. induction b as [|x b IH]; intros l r; simpl; [done|].
  case_decide as Hx; [by intros [= <- <-]|]. intros ([l' r'] & H & [= <- <-])%bind_Some.
  by rewrite (IH l' r').
Qed.

Lemma splitAfter_split delim b l r :
  splitAfter delim b = Some (l, r) -> b = l ++ r /\ exists l', l = l' ++ [delim] /\ delim ∉ l'.
Proof.
  revert l r. induction b as [|x b IH]; intros l r; simpl; [done|]. case_decide as Hx.
  - intros [= <- <-]. subst. split; [done|]. exists []. split; [done|apply not_elem_of_nil].
  - intros ([l' r'] & H & [= <- <-])%bind_Some. destruct (IH l' r' H) as (-> & k & -> & Hk).
    split; [done|]. exists (x :: k). split; [done|]. rewrite not_elem_of_cons. auto.
Qed.

Lemma splitAfter_last delim q : exists l r, splitAfter delim (q ++ [delim]) = Some (l, r).
Proof.
  induction q as [|x q (l & r & IH)]; simpl; [rewrite decide_True by done; eauto|].
  case_decide; [eauto|]. rewrite IH. simpl. eauto.
Qed.

(** The prefix of the text already in the buffer, and what is still to come. *)
Lemma readMessage_exact ms buf q rest c fuel :
  let text := print [] [] (JObj ms) in
  wfJson maxNestingDepth (JObj ms) -> Z.of_nat (length text) <= MaxRequestSize ->
  text = buf ++ q -> q <> [] -> cn_in c = q ++ rest -> (length q <= fuel)%nat ->
  readMessage fuel buf c = (Ok text, setIn rest c).
Proof.
  intros text Hw Hl. revert buf q c. induction fuel as [|fuel IH]; intros buf q c Et Hq Hc Hf.
  { destruct q; [done|]. simpl in Hf. lia. }
  cbn [readMessage]. rewrite (proj2 (Z.ltb_ge _ _)) by (rewrite Et, length_app in Hl; lia).
  assert (exists q0, q = q0 ++ [x7d]) as [q0 Eq].
  { destruct (exists_last Hq) as (q0 & y & ->). exists q0. do 2 f_equal.
    subst text. cbn [print] in Et. rewrite app_comm_cons, app_assoc in Et.
    apply app_inj_tail in Et as [_ <-]. done. }
  destruct (splitAfter_last x7d q0) as (l & r & Es). rewrite <- Eq in Es.
  unfold ReadBytes. rewrite Hc, (splitAfter_app _ _ _ _ rest Es).
  destruct (splitAfter_split _ _ _ _ Es) as (El & l' & El' & _).
  destruct (decide (r = [])) as [->|Hr].
  - rewrite app_nil_r in El. rewrite <- El, <- Et. unfold Valid. subst text.
    rewrite (parse_print [] [] (Forall_nil_2 _) (Forall_nil_2 _)) by done. done.
  - destruct (Valid (buf ++ l)) eqn:Ev.
    { exfalso. apply Hr. eapply (object_prefix_free [] [] ms (buf ++ l) r); try done.
      rewrite <- app_assoc, <- El. done. }
    erewrite IH; [done| |exact Hr|done|].
    + by rewrite <- app_assoc, <- El.
    + rewrite El, El', !length_app in Hf. simpl in Hf. lia.
Qed.

Lemma client_reads_object ms rest c :
  let text := print [] [] (JObj ms) in
  wfJson maxNestingDepth (JObj ms) -> Z.of_nat (length text) <= MaxRequestSize ->
  cn_in c = text ++ rest -> clientReadNextMessage c = (Ok text, setIn rest c).
Proof.
  intros text Hw Hl Hc. unfold clientReadNextMessage, ReadByte. rewrite Hc.
  subst text. cbn [print app].
  rewrite (readMessage_exact ms [x7b] (joinWith [x2c] (map (fun m => m.1 ++ x3a :: [] ++ print [] [] m.2) ms) ++ [x7d])
             rest); try done.
  - intros E. by apply app_eq_nil in E as [_ ?].
  - simpl. rewrite !length_app. lia.
Qed.

Lemma server_reads_object ms sp rest c :
  let text := print [] [] (JObj ms) in
  wfJson maxNestingDepth (JObj ms) -> Z.of_nat (length text) <= MaxRequestSize ->
  Forall (fun x => is_space x = true) sp ->
  cn_in c = sp ++ text ++ rest -> serverReadNextMessage c = (Ok text, setIn rest c).
Proof.
  intros text Hw Hl Hsp Hc. unfold serverReadNextMessage.
  assert (Hf : (length sp < S (length (cn_in c)))%nat) by (rewrite Hc, length_app; lia).
  revert Hf. generalize (S (length (cn_in c))). revert c Hc. induction Hsp as [|x sp Hx _ IH];
    intros c Hc [|fuel] Hf; try (simpl in Hf; lia); cbn [skipBlanks]; unfold ReadByte; rewrite Hc.
  - rewrite app_nil_l. pose proof (client_reads_object ms rest c Hw Hl Hc) as H.
    unfold clientReadNextMessage, ReadByte in H. rewrite Hc in H. exact H.
  - cbn [app]. rewrite Hx. cbn [negb]. rewrite (IH (setIn (sp ++ text ++ rest) c)); [done|done|].
    simpl in Hf. lia.
Qed.

(** ** Every stream *)

Lemma readMessage_sound fuel buf c :
  (length (cn_in c) < fuel)%nat ->
  let '(r, c') := readMessage fuel buf c in
  (exists taken, cn_in c = taken ++ cn_in c'
     /\ (forall m, r = Ok m -> m = buf ++ taken /\ Valid m = true))
  /\ (forall w, r <> Panic w)
  /\ cn_out c' = cn_out c /\ cn_end c' = cn_end c /\ cn_faults c' = cn_faults c.
Proof.
  revert buf c. induction fuel as [|fuel IH]; intros buf c Hf; [lia|]. cbn [readMessage].
  destruct (MaxRequestSize <? _). { split; [|done]. by exists []. }
  unfold ReadBytes. destruct (splitAfter x7d (cn_in c)) as [[l r]|] eqn:E.
  - destruct (splitAfter_split _ _ _ _ E) as (El & l' & El' & _).
    destruct (Valid (buf ++ l)) eqn:Ev.
    + split; [|done]. exists l. split; [done|]. by intros m [= <-].
    + specialize (IH (buf ++ l) (setIn r c)). simpl in IH.
      destruct (readMessage fuel _ _) as [r1 c1].
      destruct IH as ((taken & Et & Hm) & Hrest).
      { rewrite El, El', !length_app in Hf. simpl in Hf. lia. }
      split; [|done]. exists (l ++ taken). rewrite <- app_assoc, <- Et. split; [done|].
      intros m Hr. destruct (Hm m Hr) as [-> Hv]. by rewrite <- app_assoc in *.
  - split; [|done]. exists (cn_in c). by rewrite app_nil_r.
Qed.

Lemma server_read_sound c :
  let '(r, c') := serverReadNextMessage c in
  (exists taken, cn_in c = taken ++ cn_in c'
     /\ (forall m, r = Ok m -> taken <> [] /\ Valid m = true))
  /\ (forall w, r <> Panic w)
  /\ cn_out c' = cn_out c /\ cn_end c' = cn_end c /\ cn_faults c' = cn_faults c.
Proof.
  unfold serverReadNextMessage. generalize (Nat.lt_succ_diag_r (length (cn_in c))).
  generalize (S (length (cn_in c))). intros fuel. revert c.
  induction fuel as [|fuel IH]; intros c Hf; [lia|]. cbn [skipBlanks]. unfold ReadByte.
  destruct (cn_in c) as [|x r] eqn:E. { split; [|done]. exists []. by rewrite E. }
  destruct (is_space x); cbn [negb].
  - specialize (IH (setIn r c)). cbn [setIn cn_in] in IH. destruct (skipBlanks fuel _) as [r1 c1].
    destruct IH as ((taken & Et & Hm) & Hrest); [simpl in Hf; lia|].
    split; [|done]. exists (x :: taken). simpl. rewrite <- Et. split; [done|].
    intros m Hr. split; [done|]. by apply Hm.
  - destruct (bool_decide _); cbn [negb]; [|split; [|done]; exists [x]; by split].
    pose proof (readMessage_sound (S (length r)) [x] (setIn r c)) as H. cbn [setIn cn_in] in H |- *.
    destruct (readMessage _ _ _) as [r1 c1]. destruct H as ((taken & Et & Hm) & Hrest); [lia|].
    split; [|done]. exists (x :: taken). simpl. rewrite <- Et. split; [done|].
    intros m Hr. split; [done|]. by destruct (Hm m Hr).
Qed.
