(* ===== verification/PeerServer.v ===== *)
(** * protocol/peer.go: the peer server

    The handlers of a request, the answers they send and the loop over a connection, over
    any blob store; with the content protector (protocol/protector.go), the access
    controls (storage/access.go) and the notifications (protocol/notifier.go) it uses.
    Theorems: whatever a peer sends, the loop ends, and what it discloses are blobs that
    are neither protected nor denied. *)
From stdpp Require Import base tactics list numbers strings gmap.
From Stdlib Require Import ZArith Lia Init.Byte Floats.SpecFloat.
From S2P Require Import Prelude GoStd GoNet Blob Multihash Json Errors Store PeerMsg Wire.
Local Open Scope Z_scope.

(** ** storage/access.go *)

(** [Allow]: the context of the request, the hash and the peer's IP. *)
Definition AccessControl := Context -> bytes -> bytes -> bool.
Definition AllowAllAccess : AccessControl := fun _ _ _ => true.
Definition DenyAllAccess : AccessControl := fun _ _ _ => false.
Definition NewAllowAllAccess : AccessControl := AllowAllAccess.
Definition NewDenyAllAccess : AccessControl := DenyAllAccess.

(** ** protocol/protector.go *)

Record BlacklistProtector := mkBlacklist { blacklist : gset bytes }.
Definition NewBlacklistProtector : BlacklistProtector := mkBlacklist ∅.
Definition AddHash (hash : bytes) (bp : BlacklistProtector) : BlacklistProtector :=
  mkBlacklist ({[hash]} ∪ blacklist bp).
Definition NewBlacklistProtectorFromHashes (hashes : list bytes) : BlacklistProtector :=
  foldl (fun bp hash => AddHash hash bp) NewBlacklistProtector hashes.
Definition IsProtected (bp : BlacklistProtector) (hash : bytes) : bool :=
  bool_decide (hash ∈ blacklist bp).
Definition RemoveHash (hash : bytes) (bp : BlacklistProtector) : BlacklistProtector :=
  mkBlacklist (blacklist bp ∖ {[hash]}).
(** In the order in which the map is ranged over. *)
Definition GetBlacklist (bp : BlacklistProtector) : list bytes := elements (blacklist bp).

(** ** protocol/notifier.go *)

(** What a notifier is told: the kind of notification and the hash. *)
Definition Notification : Type := bytes * bytes.
Definition NOTIFY_BLOB_ADDED : bytes := go "blob_added".
Definition NOTIFY_BLOB_REMOVED : bytes := go "blob_removed".

(** [GroupNotifier.Notify]: every notifier is told, and the first error is returned. *)
Definition groupNotify (notifiers : list (Notification -> option error)) (n : Notification)
    : option error :=
  foldl (fun firstErr notify =>
           match notify n, firstErr with Some e, None => Some e | _, _ => firstErr end)
    None notifiers.

Section Server.
Context {L : CidLib} {S : Type} {B : BlobStore S}.

(** What [NotifyBlob] tells the notifier, if there is one. *)
Definition NotifyBlob (notifier : bool) (kind blobHash : bytes) : list Notification :=
  if negb notifier then []
  else match ToMultihash blobHash with
       | Ok multihash => [(kind, multihash)]
       | _ => [(kind, blobHash)]
       end.

(** ** protocol/protocol.go and the peer's address

    [ParseAddr] is [netip.ParseAddr] followed by [String]. *)
Variable ParseAddr : bytes -> option bytes.

Definition GetConnectionIP (addr : bytes) : bytes :=
  match SplitHostPort addr with
  | Ok (host, _) => default [] (ParseAddr host)
  | _ => default [] (ParseAddr addr)
  end.
Definition getPeerIP (addr : bytes) : bytes :=
  match SplitHostPort addr with
  | Ok (host, _) => default [] (ParseAddr host)
  | _ => default [] (ParseAddr addr)
  end.

(** ** The server *)

Record PeerServer := mkServer {
  sv_store : S;
  sv_protector : option (bytes -> bool);
  sv_accessControl : option AccessControl;
  sv_notifier : bool;
  sv_connectionTimeout : Z
}.

Definition ServerOption := PeerServer -> PeerServer.
Definition DefaultTimeout : Z := 60 * 1000000000.
Definition applyPeerOptions (server : PeerServer) (options : list ServerOption) : PeerServer :=
  foldl (fun s option => option s) server options.
Definition NewPeerServer (store : S) (options : list ServerOption) : PeerServer :=
  applyPeerOptions (mkServer store None None false DefaultTimeout) options.
Definition WithPeerProtector (p : option (bytes -> bool)) : ServerOption := fun s =>
  mkServer (sv_store s) p (sv_accessControl s) (sv_notifier s) (sv_connectionTimeout s).
Definition WithPeerAccessControl (a : option AccessControl) : ServerOption := fun s =>
  mkServer (sv_store s) (sv_protector s) a (sv_notifier s) (sv_connectionTimeout s).
Definition WithPeerNotifier (n : bool) : ServerOption := fun s =>
  mkServer (sv_store s) (sv_protector s) (sv_accessControl s) n (sv_connectionTimeout s).
Definition WithPeerTimeout (t : Z) : ServerOption := fun s =>
  mkServer (sv_store s) (sv_protector s) (sv_accessControl s) (sv_notifier s) t.

Definition PaymentRateAccepted : bytes := go "RATE_ACCEPTED".
Definition PaymentRateTooLow : bytes := go "RATE_TOO_LOW".

Definition isProtected (p : PeerServer) (hash : bytes) : bool :=
  match sv_protector p with Some f => f hash | None => false end.

(** [p.accessControl != nil && !p.accessControl.Allow(ctx, hash, peerIP)] *)
Definition denied (p : PeerServer) (ctx : Context) (hash peerIP : bytes) : bool :=
  match sv_accessControl p with Some allow => negb (allow ctx hash peerIP) | None => false end.

Definition createIncomingBlobError (blobHash : bytes) (errorMsg : string) : IncomingBlob :=
  mkIncoming (go errorMsg) blobHash 0.
Definition createErrorResponse (errorMsg : string) : CompositeResponse :=
  mkResponse None [] (Some (mkIncoming (go errorMsg) [] 0)).

(** *** The handlers

    [ctx i] is the request's context at the [i]-th hash that is looked at; a store may
    return an empty blob as a nil slice, which [emptyNil] tells. *)
Variable emptyNil : bool.

Fixpoint handleBlobAvailabilityRequest (p : PeerServer) (ctx : nat -> Context) (blobHashes : list bytes)
    (peerIP : bytes) : result (list bytes) :=
  match blobHashes with
  | [] => Ok []
  | hash :: hashes =>
      let rest := handleBlobAvailabilityRequest p (fun i => ctx (Datatypes.S i)) hashes peerIP in
      if negb (length hash =? BlobHashHexLength)%nat then rest else
      if negb (ValidateHash hash) then rest else
      if isProtected p hash then rest else
      if denied p (ctx O) hash peerIP then rest else
      match Has (ctx O) hash (sv_store p) with
      | Ok available => l ← rest; Ok (if available then hash :: l else l)
      | Err _ => rest
      | Panic w => Panic w
      end
  end.

Definition handleBlobDataRequest (p : PeerServer) (ctx : Context) (blobHash peerIP : bytes)
    : result (IncomingBlob * option bytes * list Notification) :=
  let refuse s := Ok (createIncomingBlobError blobHash s, None, []) in
  if negb (length blobHash =? BlobHashHexLength)%nat then refuse (sentinel_text ErrInvalidHashLen) else
  if negb (ValidateHash blobHash) then refuse (sentinel_text ErrInvalidHash) else
  if isProtected p blobHash then refuse (sentinel_text ErrBlobProtected) else
  if denied p ctx blobHash peerIP then refuse (sentinel_text ErrAccessDenied) else
  match Get ctx blobHash (sv_store p) with
  | Err e =>
      if bool_decide (error_text e = sentinel_text ErrBlobNotFound)
         || contains (error_text e) "blob not found"
      then refuse (sentinel_text ErrBlobNotFound) else refuse "failed to retrieve blob"
  | Panic w => Panic w
  | Ok data =>
      if emptyNil && bool_decide (data = []) then refuse (sentinel_text ErrBlobNotFound) else
      Ok (mkIncoming [] blobHash (Z.of_nat (length data)), Some data,
          NotifyBlob (sv_notifier p) NOTIFY_BLOB_ADDED blobHash)
  end.

Definition handleBlobPaymentRateRequest (p : PeerServer) (ctx : Context) (blobHashes : list bytes)
    (paymentRate : spec_float) (peerIP : bytes) : result bytes :=
  if ltZero paymentRate then Ok PaymentRateTooLow else
  match blobHashes with
  | [] => Ok PaymentRateAccepted
  | blobHash :: _ =>
      if negb (length blobHash =? BlobHashHexLength)%nat then Ok PaymentRateTooLow else
      if negb (ValidateHash blobHash) then Ok PaymentRateTooLow else
      if isProtected p blobHash then Ok (go (sentinel_text ErrBlobProtected)) else
      if denied p ctx blobHash peerIP then Ok PaymentRateTooLow else
      match Has ctx blobHash (sv_store p) with
      | Ok true => Ok PaymentRateAccepted
      | Ok false | Err _ => Ok PaymentRateTooLow
      | Panic w => Panic w
      end
  end.

(** The blob uses [ctx 0], the rate [ctx 1] and the availability the rest. *)
Definition handleRequest (p : PeerServer) (ctx : nat -> Context) (request : CompositeRequest)
    (peerIP : bytes) : result (CompositeResponse * option bytes * list Notification) :=
  let blobs := default [] (rq_RequestedBlobs request) in
  '(incoming, blobData, notes) ←
    (if bool_decide (rq_RequestedBlob request = []) then Ok (None, None, [])
     else '(b, d, n) ← handleBlobDataRequest p (ctx 0%nat) (rq_RequestedBlob request) peerIP; Ok (Some b, d, n));
  rate ← match rq_BlobDataPaymentRate request with
         | Some f => handleBlobPaymentRateRequest p (ctx 1%nat) blobs f peerIP
         | None => Ok []
         end;
  available ← (if bool_decide (blobs = []) then Ok []
               else handleBlobAvailabilityRequest p (fun i => ctx (2 + i)%nat) blobs peerIP);
  Ok (mkResponse (Some available) rate incoming, blobData, notes).

Definition parseRequest (data : bytes) : result CompositeRequest :=
  match unmarshalRequest data with
  | Ok req => Ok req
  | Err e => if decide (e = EMsg "json: syntax error")
             then Err (EMsg "invalid json request: offset %d in data %s")
             else Err (EWrap "failed to parse request: %w" e)
  | Panic w => Panic w
  end.

(** *** Answers *)

(** The bytes of an answer: the response, and the blob right after it. *)
Definition frame (a : CompositeResponse * option bytes) : bytes :=
  marshalResponse a.1 ++ default [] a.2.

Definition sendResponse (response : CompositeResponse) (blobData : option bytes) (c : Conn)
    : result unit * Conn :=
  match Write (frame (response, blobData)) c with
  | (Err e, c) => (Err (EWrap "failed to write response: %w" e), c)
  | (r, c) => (r, c)
  end.

(** A failure to set the deadline or to write is only logged. *)
Definition sendError (errorMsg : string) (c : Conn) : Conn :=
  match SetDeadline c with
  | (Ok _, c) => (SetDeadline (Write (frame (createErrorResponse errorMsg, None)) c).2).2
  | (_, c) => c
  end.

(** *** The connection *)

(** What a turn of the loop leads to. *)
Inductive turn := Continue | Return | Crash (why : string).

(** The answers the server sets out to send, and what it notifies. *)
Record Log := mkLog {
  answers : list (CompositeResponse * option bytes);
  notified : list Notification
}.

Definition refuseWith (errorMsg : string) (c : Conn) : turn * Conn * Log :=
  (Continue, sendError errorMsg c, mkLog [(createErrorResponse errorMsg, None)] []).

(** A message that has been read. *)
Definition answerMessage (p : PeerServer) (ctx : nat -> Context) (peerIP message : bytes) (c : Conn)
    : turn * Conn * Log :=
  if MaxRequestSize <? Z.of_nat (length message) then refuseWith (sentinel_text ErrRequestTooLarge) c else
  match parseRequest message with
  | Err _ => refuseWith (sentinel_text ErrInvalidData) c
  | Panic w => (Crash w, c, mkLog [] [])
  | Ok request =>
      match handleRequest p ctx request peerIP with
      | Panic w => (Crash w, c, mkLog [] [])
      | Err e => refuseWith (error_text e) c
      | Ok (response, blobData, notes) =>
          match SetDeadline c with
          | (Ok _, c) =>
              let log := mkLog [(response, blobData)] notes in
              match sendResponse response blobData c with
              | (Ok _, c) =>
                  match SetDeadline c with
                  | (Ok _, c) => (Continue, c, log)
                  | (_, c) => (Return, c, log)
                  end
              | (_, c) => (Return, c, log)
              end
          | (_, c) => (Return, c, mkLog [] notes)
          end
      end
  end.

(** One turn of the loop. *)
Definition serveTurn (p : PeerServer) (ctx : nat -> Context) (peerIP : bytes) (c : Conn)
    : turn * Conn * Log :=
  match SetDeadline c with
  | (Ok _, c) =>
      match serverReadNextMessage c with
      | (Ok message, c) =>
          match SetDeadline c with
          | (Ok _, c) => answerMessage p ctx peerIP message c
          | (_, c) => (Return, c, mkLog [] [])
          end
      | (Err _, c) => (Return, c, mkLog [] [])
      | (Panic w, c) => (Crash w, c, mkLog [] [])
      end
  | (_, c) => (Return, c, mkLog [] [])
  end.

Definition addLog (l l' : Log) : Log :=
  mkLog (answers l ++ answers l') (notified l ++ notified l').

(** [ctx k] is the context of the [k]-th request.  Every turn but the last takes a byte. *)
Fixpoint serveLoop (fuel : nat) (p : PeerServer) (ctx : nat -> nat -> Context) (peerIP : bytes)
    (c : Conn) : result unit * Conn * Log :=
  match fuel with
  | O => (Panic "out of fuel", c, mkLog [] [])
  | Datatypes.S fuel =>
      match serveTurn p (ctx O) peerIP c with
      | (Continue, c, log) =>
          let '(r, c, log') := serveLoop fuel p (fun k => ctx (Datatypes.S k)) peerIP c in
          (r, c, addLog log log')
      | (Return, c, log) => (Ok tt, c, log)
      | (Crash w, c, log) => (Panic w, c, log)
      end
  end.

(** The connection comes from [addr]. *)
Definition HandleConnection (p : PeerServer) (ctx : nat -> nat -> Context) (addr : bytes) (c : Conn)
    : result unit * Conn * Log :=
  serveLoop (Datatypes.S (length (cn_in c))) p ctx (getPeerIP addr) c.

(** ** What a peer can learn *)

(** A hash whose blob may be given to a peer. *)
Definition servable (p : PeerServer) (ctx : Context) (peerIP hash : bytes) : Prop :=
  length hash = BlobHashHexLength /\ ValidateHash hash = true
  /\ isProtected p hash = false /\ denied p ctx hash peerIP = false.

(** An answer that discloses nothing else: the hashes it lists and the blob it carries. *)
Definition discreet (p : PeerServer) (peerIP : bytes) (a : CompositeResponse * option bytes) : Prop :=
  Forall (fun h => exists ctx, servable p ctx peerIP h /\ Has ctx h (sv_store p) = Ok true)
    (default [] (rs_AvailableBlobs a.1))
  /\ (forall d, a.2 = Some d -> exists ctx h,
        servable p ctx peerIP h /\ Get ctx h (sv_store p) = Ok d
        /\ rs_IncomingBlob a.1 = Some (mkIncoming [] h (Z.of_nat (length d)))).

Lemma availability_discreet p ctx hashes ip l :
  handleBlobAvailabilityRequest p ctx hashes ip = Ok l ->
  Forall (fun h => exists ctx, servable p ctx ip h /\ Has ctx h (sv_store p) = Ok true) l.
Proof.
  revert ctx l. induction hashes as [|h hs IH]; intros ctx l; simpl; [intros [= <-]; constructor|].
  destruct (Nat.eqb_spec (length h) BlobHashHexLength) as [El|]; cbn [negb]; [|apply IH].
  destruct (ValidateHash h) eqn:Ev; cbn [negb]; [|apply IH].
  destruct (isProtected p h) eqn:Ep; [apply IH|]. destruct (denied p (ctx 0%nat) h ip) eqn:Ed; [apply IH|].
  destruct (Has (ctx 0%nat) h (sv_store p)) as [b| |] eqn:Eh; [|apply IH|done].
  destruct (handleBlobAvailabilityRequest _ _ hs ip) as [l'| |] eqn:E; try done.
  intros [= <-]. specialize (IH _ _ E). destruct b; [|done]. constructor; [|done].
  by exists (ctx 0%nat).
Qed.

Lemma dataRequest_discreet p ctx h ip b d n :
  handleBlobDataRequest p ctx h ip = Ok (b, Some d, n) ->
  servable p ctx ip h /\ Get ctx h (sv_store p) = Ok d /\ b = mkIncoming [] h (Z.of_nat (length d)).
Proof.
  unfold handleBlobDataRequest.
  destruct (Nat.eqb_spec (length h) BlobHashHexLength) as [El|]; cbn [negb]; [|done].
  destruct (ValidateHash h) eqn:Ev; cbn [negb]; [|done].
  destruct (isProtected p h) eqn:Ep; [done|]. destruct (denied p ctx h ip) eqn:Ed; [done|].
  destruct (Get ctx h (sv_store p)) as [x| |] eqn:Eg; [|by destruct (_ || _)|done].
  destruct (emptyNil && _); [done|]. by intros [= <- <- <-].
Qed.

Lemma handleRequest_discreet p ctx rq ip rs d n :
  handleRequest p ctx rq ip = Ok (rs, d, n) -> discreet p ip (rs, d).
Proof.
  unfold handleRequest. intros H.
  destruct (if bool_decide (rq_RequestedBlob rq = []) then _ else _) as [[[inc d'] n']| |] eqn:E1; try done.
  cbn [mbind result_bind] in H.
  destruct (match rq_BlobDataPaymentRate rq with Some _ => _ | None => _ end) as [rate| |]; try done.
  cbn [mbind result_bind] in H.
  destruct (if bool_decide (default [] _ = []) then _ else _) as [av| |] eqn:E2; try done.
  injection H as <- <- <-. split; cbn [rs_AvailableBlobs rs_IncomingBlob fst snd default].
  - case_bool_decide; [injection E2 as <-; constructor|]. by eapply availability_discreet.
  - intros x ->. destruct (bool_decide (rq_RequestedBlob rq = [])); [done|].
    destruct (handleBlobDataRequest _ _ _ _) as [[[b y] k]| |] eqn:E; try done.
    injection E1 as <- -> <-. apply dataRequest_discreet in E as (? & ? & ->). eauto.
Qed.

Lemma SetDeadline_frame c :
  cn_in (SetDeadline c).2 = cn_in c /\ cn_out (SetDeadline c).2 = cn_out c.
Proof. unfold SetDeadline, nextFault. by destruct (cn_faults c) as [|[[??]|] ?]. Qed.

Lemma Write_frame b c :
  cn_in (Write b c).2 = cn_in c /\ exists part, part `prefix_of` b /\ cn_out (Write b c).2 = cn_out c ++ part.
Proof.
  unfold Write, nextFault. destruct (cn_faults c) as [|[[n e]|] fs]; (split; [done|]).
  - by exists b.
  - exists (take n b). split; [|done]. exists (drop n b). by rewrite take_drop.
  - by exists b.
Qed.

(** What a turn does to the connection: it takes input, and writes of each of its answers
    some initial part. *)
Definition wrote (c c' : Conn) (l : list (CompositeResponse * option bytes)) : Prop :=
  exists parts, cn_out c' = cn_out c ++ concat parts /\ Forall2 prefix parts (frame <$> l).

Lemma wrote_none c c' : cn_out c' = cn_out c -> wrote c c' [].
Proof. intros E. exists []. simpl. by rewrite E, app_nil_r. Qed.

Lemma wrote_app c1 c2 c3 l l' : wrote c1 c2 l -> wrote c2 c3 l' -> wrote c1 c3 (l ++ l').
Proof.
  intros (p & E & H) (p' & E' & H'). exists (p ++ p').
  rewrite E', E, concat_app, fmap_app, <- app_assoc. split; [done|]. by apply Forall2_app.
Qed.

Lemma wrote_one c c' a part :
  part `prefix_of` frame a -> cn_out c' = cn_out c ++ part -> wrote c c' [a].
Proof.
  intros H E. exists [part]. simpl. rewrite app_nil_r. split; [done|]. by constructor.
Qed.

Lemma sendError_frame msg c :
  cn_in (sendError msg c) = cn_in c /\ wrote c (sendError msg c) [(createErrorResponse msg, None)].
Proof.
  unfold sendError. destruct (SetDeadline_frame c) as [Ei Eo].
  destruct (SetDeadline c) as [[u|e|w] c1]; simpl in Ei, Eo.
  - set (b := frame _). destruct (Write_frame b c1) as (Wi & part & Hp & Wo).
    destruct (SetDeadline_frame (Write b c1).2) as [Fi Fo]. split; [congruence|].
    apply (wrote_one _ _ _ part); [done|]. congruence.
  - split; [done|]. apply (wrote_one _ _ _ []); [apply prefix_nil|by rewrite app_nil_r].
  - split; [done|]. apply (wrote_one _ _ _ []); [apply prefix_nil|by rewrite app_nil_r].
Qed.

(** A store that returns from every lookup. *)
Definition calmStore (p : PeerServer) : Prop :=
  forall ctx h, calm (Has ctx h (sv_store p)) /\ calm (Get ctx h (sv_store p)).

Lemma calm_availability p ctx hashes ip : calmStore p -> calm (handleBlobAvailabilityRequest p ctx hashes ip).
Proof.
  intros Hp. revert ctx. induction hashes as [|h hs IH]; intros ctx; simpl; [done|].
  destruct (negb _); [done|]. destruct (negb _); [done|]. destruct (isProtected p h); [done|].
  destruct (denied _ _ _ _); [done|]. destruct (Has _ h _) as [b|e|w] eqn:E; [|done|].
  - apply calm_bind; [apply IH|done].
  - by destruct (proj1 (Hp (ctx 0%nat) h) w).
Qed.

Lemma calm_dataRequest p ctx h ip : calmStore p -> calm (handleBlobDataRequest p ctx h ip).
Proof.
  intros Hp. unfold handleBlobDataRequest. destruct (negb _); [done|]. destruct (negb _); [done|].
  destruct (isProtected p h); [done|]. destruct (denied _ _ _ _); [done|].
  destruct (Get ctx h _) as [d|e|w] eqn:E; [by destruct (emptyNil && _)|by destruct (_ || _)|].
  by destruct (proj2 (Hp ctx h) w).
Qed.

Lemma calm_handleRequest p ctx rq ip : calmStore p -> calm (handleRequest p ctx rq ip).
Proof.
  intros Hp. unfold handleRequest. apply calm_bind; [|intros [[inc d] n] _; apply calm_bind; [|intros rate _]].
  - case_bool_decide; [done|]. apply calm_bind; [by apply calm_dataRequest|]. by intros [[b d] n].
  - destruct (rq_BlobDataPaymentRate rq) as [f|]; [|done]. unfold handleBlobPaymentRateRequest.
    destruct (ltZero f); [done|]. destruct (default [] _) as [|h hs]; [done|].
    destruct (negb _); [done|]. destruct (negb _); [done|]. destruct (isProtected p h); [done|].
    destruct (denied _ _ _ _); [done|]. destruct (Has _ h _) as [[]|e|w] eqn:E; try done.
    by destruct (proj1 (Hp (ctx 1%nat) h) w).
  - apply calm_bind; [|done]. case_bool_decide; [done|]. by apply calm_availability.
Qed.

Lemma errorResponse_discreet p ip msg : discreet p ip (createErrorResponse msg, None).
Proof. split; [constructor|done]. Qed.

(** A turn on any connection. *)
Definition turnOk (p : PeerServer) (ip : bytes) (c : Conn) (x : turn * Conn * Log) : Prop :=
  let '(t, c', log) := x in
  wrote c c' (answers log) /\ Forall (discreet p ip) (answers log)
  /\ (calmStore p -> forall w, t <> Crash w).

Lemma refuseWith_ok p ip msg c : turnOk p ip c (refuseWith msg c).
Proof.
  destruct (sendError_frame msg c) as [_ Hw]. split_and!; [done| |done].
  constructor; [apply errorResponse_discreet|constructor].
Qed.

Lemma answerMessage_ok p ctx ip m c :
  turnOk p ip c (answerMessage p ctx ip m c) /\ cn_in (answerMessage p ctx ip m c).1.2 = cn_in c.
Proof.
  assert (Hr : forall msg, turnOk p ip c (refuseWith msg c) /\ cn_in (refuseWith msg c).1.2 = cn_in c).
  { intros msg. split; [apply refuseWith_ok|]. simpl. apply sendError_frame. }
  unfold answerMessage. destruct (_ <? _); [apply Hr|].
  destruct (parseRequest m) as [rq|e|w] eqn:Ep; [|apply Hr|].
  2: { exfalso. unfold parseRequest in Ep. destruct (unmarshalRequest m) as [?|e|w'] eqn:E; try done.
       - by case_decide.
       - by destruct (calm_unmarshalRequest m w'). }
  destruct (handleRequest p ctx rq ip) as [[[rs d] n]|e|w] eqn:Eh; [|apply Hr|].
  2: { split; [|done]. split_and!; [by apply wrote_none|constructor|].
       intros Hp. by destruct (calm_handleRequest p ctx rq ip Hp w). }
  apply handleRequest_discreet in Eh.
  destruct (SetDeadline_frame c) as [Ei Eo]. destruct (SetDeadline c) as [[u|e|w] c1]; simpl in Ei, Eo;
    try (split; [split_and!; [by apply wrote_none|constructor|done]|done]).
  unfold sendResponse. destruct (Write_frame (frame (rs, d)) c1) as (Wi & part & Hp & Wo).
  assert (Hw : forall c', cn_out c' = cn_out (Write (frame (rs, d)) c1).2 -> wrote c c' [(rs, d)]).
  { intros c' E. apply (wrote_one _ _ _ part); [done|]. congruence. }
  destruct (Write (frame (rs, d)) c1) as [[u'|e|w] c2]; simpl in Wi, Wo, Hw;
    try (split; [split_and!; [by apply Hw|by constructor|done]|simpl; congruence]).
  destruct (SetDeadline_frame c2) as [Fi Fo]. destruct (SetDeadline c2) as [[u''|e|w] c3]; simpl in Fi, Fo;
    (split; [split_and!; [by apply Hw|by constructor|done]|simpl; congruence]).
Qed.

Lemma serveTurn_ok p ctx ip c :
  turnOk p ip c (serveTurn p ctx ip c)
  /\ ((serveTurn p ctx ip c).1.1 = Continue ->
       (length (cn_in (serveTurn p ctx ip c).1.2) < length (cn_in c))%nat).
Proof.
  unfold serveTurn. destruct (SetDeadline_frame c) as [Ei Eo].
  destruct (SetDeadline c) as [[u|e|w] c1]; simpl in Ei, Eo;
    try (split; [split_and!; [by apply wrote_none|constructor|done]|done]).
  pose proof (server_read_sound c1) as Hs. destruct (serverReadNextMessage c1) as [[m|e|w] c2];
    destruct Hs as ((taken & Et & Hm) & Hnp & So & _);
    try (split; [split_and!; [apply wrote_none; congruence|constructor|done]|done]).
  2: by destruct (Hnp w).
  destruct (SetDeadline_frame c2) as [Fi Fo]. destruct (SetDeadline c2) as [[u'|e|w] c3]; simpl in Fi, Fo;
    try (split; [split_and!; [apply wrote_none; congruence|constructor|done]|done]).
  destruct (answerMessage_ok p ctx ip m c3) as [Ha Hi].
  assert (Hc : cn_out c3 = cn_out c) by congruence.
  destruct (answerMessage p ctx ip m c3) as [[t c4] log]. destruct Ha as (Hw & Hd & Hn). split.
  - split_and!; [|done|done]. destruct Hw as (parts & E & H2). exists parts. by rewrite E, Hc.
  - intros _. destruct (Hm m eq_refl) as [Hne _]. simpl in Hi |- *. rewrite Hi, Fi, <- Ei, Et, length_app.
    destruct taken; [done|]. simpl. lia.
Qed.

Lemma serveLoop_ok fuel p ctx ip c :
  (length (cn_in c) < fuel)%nat ->
  let '(r, c', log) := serveLoop fuel p ctx ip c in
  wrote c c' (answers log) /\ Forall (discreet p ip) (answers log) /\ (calmStore p -> r = Ok tt).
Proof.
  revert ctx c. induction fuel as [|fuel IH]; intros ctx c Hf; [lia|]. cbn [serveLoop].
  destruct (serveTurn_ok p (ctx 0%nat) ip c) as [Ht Hl].
  destruct (serveTurn p (ctx 0%nat) ip c) as [[[| |w] c1] log1]; destruct Ht as (Hw & Hd & Hn).
  - specialize (IH (fun k => ctx (Datatypes.S k)) c1). specialize (Hl eq_refl). simpl in Hl.
    destruct (serveLoop fuel p _ ip c1) as [[r c2] log2]. destruct IH as (Hw2 & Hd2 & Hr2); [lia|].
    split_and!; [by eapply wrote_app|by apply Forall_app|done].
  - by split_and!.
  - split_and!; [done|done|]. intros Hp. by destruct (Hn Hp w).
Qed.

(** C25. Whatever bytes a peer sends, however they end and whichever deadlines and writes
    fail, the server returns from the connection, if its store returns from every lookup;
    and it has written only initial parts of answers that list and carry nothing but blobs
    of the store that are neither protected nor denied to the peer, with their hash and
    their length. *)
Theorem server_discreet p ctx addr c r c' log :
  calmStore p -> HandleConnection p ctx addr c = (r, c', log) ->
  r = Ok tt /\ wrote c c' (answers log) /\ Forall (discreet p (getPeerIP addr)) (answers log).
Proof.
  intros Hp H. unfold HandleConnection in H.
  pose proof (serveLoop_ok (Datatypes.S (length (cn_in c))) p ctx (getPeerIP addr) c ltac:(lia)) as Hs.
  rewrite H in Hs. destruct Hs as (? & ? & Hr). auto.
Qed.
End Server.
Arguments PeerServer : clear implicits.
