(* ===== verification/PeerClient.v ===== *)
(** * protocol/peer_client.go: the peer client

    Connecting, closing, asking for a blob, for its availability and for a whole stream,
    over a connection; what the dialler returns and what closing returns are arguments.
    An error wrapped with [liblbryerrors.Err] is kept as it is: the wrapping adds a stack
    trace and nothing else (Trace.v).  The clock and the dialling are in Dial.v. *)
From stdpp Require Import base tactics list numbers strings.
From Stdlib Require Import ZArith Lia Init.Byte Floats.SpecFloat.
From S2P Require Import Prelude GoStd Blob Json SdBlob Errors Store PeerMsg Wire PeerServer.
Local Open Scope Z_scope.

(** A client; the reader goes with the connection. *)
Record PeerClient := mkClient {
  pc_conn : option Conn;
  pc_connected : bool;
  pc_timeout : Z
}.

Definition ClientOption := PeerClient -> PeerClient.
Definition NewPeerClient (options : list ClientOption) : PeerClient :=
  foldl (fun client option => option client) (mkClient None false DefaultTimeout) options.
Definition WithClientTimeout (t : Z) : ClientOption := fun client =>
  mkClient (pc_conn client) (pc_connected client) t.

Definition setConn (c : Conn) (client : PeerClient) : PeerClient :=
  mkClient (Some c) (pc_connected client) (pc_timeout client).

(** ** Deadlines *)

(** [deadline] tells whether the context has one. *)
Definition applyContextDeadline (deadline : bool) (timeout : Z) (c : Conn) : result unit * Conn :=
  if deadline then SetDeadline c
  else if 0 <? timeout then SetDeadline c
  else (Ok tt, c).

(** The context's error, when it is asked for the [k]-th time, or else [err]. *)
Definition wrapAndReturnContextError (ctx : Context) (k : nat) (err : error) : error :=
  match ctxErr ctx k with Err e => e | _ => err end.

(** ** Connecting and closing *)

(** [dial] is what the dial function returns. *)
Definition Connect (deadline : bool) (dial : result Conn) (client : PeerClient)
    : result unit * PeerClient :=
  if pc_connected client then (Err (ESent ErrAlreadyConnected), client) else
  match dial with
  | Err e => (Err e, client)
  | Panic w => (Panic w, client)
  | Ok conn =>
      match applyContextDeadline deadline (pc_timeout client) conn with
      | (Ok _, conn) => (Ok tt, mkClient (Some conn) true (pc_timeout client))
      | (Err e, _) => (Err e, mkClient None (pc_connected client) (pc_timeout client))
      | (Panic w, _) => (Panic w, client)
      end
  end.

(** [closed] is what closing the connection returns. *)
Definition closeConnection (closed : result unit) (client : PeerClient) : result unit * PeerClient :=
  if negb (pc_connected client) then (Ok tt, client)
  else (closed, mkClient None false (pc_timeout client)).
Definition Close (closed : result unit) (client : PeerClient) : result unit * PeerClient :=
  closeConnection closed client.
Definition Reset (closed : result unit) (client : PeerClient) : result unit * PeerClient :=
  closeConnection closed client.

(** ** Requests and responses *)

Section Client.
(** [strconv.FormatFloat], for a request with a rate. *)
Variable FormatFloat : spec_float -> bytes.

(** The context is asked for the [k]-th time here. *)
Definition sendRequest (ctx : Context) (k : nat) (request : CompositeRequest) (c : Conn)
    : result unit * Conn :=
  match ctxErr ctx k with
  | Ok _ =>
      match SetDeadline c with
      | (Ok _, c) => Write (marshalRequest FormatFloat request) c
      | (r, c) => (r, c)
      end
  | r => (r, c)
  end.

(** The largest allocation of the runtime; [make] panics beyond it. *)
Definition maxAlloc : Z := 2 ^ 48.

(** The blob that follows a response which announces one. *)
Definition readBlobData (response : CompositeResponse) (c : Conn)
    : result (CompositeResponse * option bytes) * Conn :=
  match rs_IncomingBlob response with
  | Some b =>
      if 0 <? ib_Length b then
        match SetDeadline c with
        | (Ok _, c) =>
            if maxAlloc <? ib_Length b then (Panic "makeslice: len out of range", c) else
            match ReadFull (Z.to_nat (ib_Length b)) c with
            | (Ok d, c) => (Ok (response, Some d), c)
            | (Err e, c) => (Err e, c)
            | (Panic w, c) => (Panic w, c)
            end
        | (Err e, c) => (Err e, c)
        | (Panic w, c) => (Panic w, c)
        end
      else (Ok (response, None), c)
  | None => (Ok (response, None), c)
  end.

Definition readResponse (c : Conn) : result (CompositeResponse * option bytes) * Conn :=
  match SetDeadline c with
  | (Ok _, c) =>
      match clientReadNextMessage c with
      | (Ok message, c) =>
          match unmarshalResponse message with
          | Ok response => readBlobData response c
          | Err e => (Err e, c)
          | Panic w => (Panic w, c)
          end
      | (Err e, c) => (Err e, c)
      | (Panic w, c) => (Panic w, c)
      end
  | (Err e, c) => (Err e, c)
  | (Panic w, c) => (Panic w, c)
  end.

(** What [GetBlob] and [HasBlob] both do on a connected client: the deadline, the request,
    the response, with the context asked before and after. *)
Definition exchange (deadline : bool) (timeout : Z) (ctx : Context) (request : CompositeRequest) (c : Conn)
    : result (CompositeResponse * option bytes) * Conn :=
  match applyContextDeadline deadline timeout c with
  | (Ok _, c) =>
      match ctxErr ctx 0 with
      | Ok _ =>
          match sendRequest ctx 1 request c with
          | (Ok _, c) =>
              match readResponse c with
              | (Ok x, c) =>
                  match ctxErr ctx 2 with Ok _ => (Ok x, c) | Err e => (Err e, c) | Panic w => (Panic w, c) end
              | (Err e, c) => (Err (wrapAndReturnContextError ctx 2 e), c)
              | (Panic w, c) => (Panic w, c)
              end
          | (Err e, c) => (Err (wrapAndReturnContextError ctx 2 e), c)
          | (Panic w, c) => (Panic w, c)
          end
      | Err e => (Err e, c)
      | Panic w => (Panic w, c)
      end
  | (Err e, c) => (Err e, c)
  | (Panic w, c) => (Panic w, c)
  end.

(** The checks both start with, and the exchange under the lock. *)
Definition ask (deadline : bool) (ctx : Context) (hash : bytes) (request : CompositeRequest)
    (client : PeerClient) : result (CompositeResponse * option bytes) * PeerClient :=
  if negb (pc_connected client) then (Err (ESent ErrConnectionFailed), client) else
  if negb (length hash =? BlobHashHexLength)%nat then (Err (ESent ErrInvalidHashLen), client) else
  match pc_conn client with
  | None => (Panic "nil pointer dereference", client)
  | Some c => let '(r, c) := exchange deadline (pc_timeout client) ctx request c in (r, setConn c client)
  end.

(** What [GetBlob] makes of a response. *)
Definition blobOf (ctx : Context) (response : CompositeResponse) (blobData : option bytes) : result bytes :=
  match rs_IncomingBlob response with
  | Some b =>
      if bool_decide (ib_Error b = []) then
        match blobData with Some d => Ok d | None => Err (ESent ErrNoBlobData) end
      else
        let err := DetectErrorType (String.string_of_list_byte (ib_Error b)) in
        if IsKnownErrorType err then Err err
        else if IsBlobNotFoundError (Some err) then Err (ESent ErrBlobNotFound)
        else Err (wrapAndReturnContextError ctx 3 err)
  | None => match blobData with Some d => Ok d | None => Err (ESent ErrNoBlobData) end
  end.

Definition GetBlob (deadline : bool) (ctx : Context) (hash : bytes) (client : PeerClient)
    : result bytes * PeerClient :=
  let '(r, client) := ask deadline ctx hash (mkRequest None None hash) client in
  ('(response, blobData) ← r; blobOf ctx response blobData, client).

Definition HasBlob (deadline : bool) (ctx : Context) (hash : bytes) (client : PeerClient)
    : result bool * PeerClient :=
  let '(r, client) := ask deadline ctx hash (mkRequest (Some [hash]) None []) client in
  ('(response, _) ← r; Ok (bool_decide (hash ∈ default [] (rs_AvailableBlobs response))), client).

(** ** Streams *)

(** The content blobs, one after the other; [ctx i] is the context before and during the
    fetch of blob [i]. *)
Fixpoint getContent (deadline : bool) (ctx : nat -> Context * Context) (hashes : list bytes)
    (client : PeerClient) : result (list bytes) * PeerClient :=
  match hashes with
  | [] => (Ok [], client)
  | hash :: hashes =>
      match ctxErr (ctx O).1 0 with
      | Err e => (Err e, client)
      | Panic w => (Panic w, client)
      | Ok _ =>
          match GetBlob deadline (ctx O).2 hash client with
          | (Ok d, client) =>
              let '(r, client) := getContent deadline (fun i => ctx (S i)) hashes client in
              (l ← r; Ok (d :: l), client)
          | (Err e, client) => (Err (wrapAndReturnContextError (ctx O).2 4 e), client)
          | (Panic w, client) => (Panic w, client)
          end
      end
  end.

Definition GetStream {O : OrderedJson} (order : list Z) (deadline : bool) (ctx : nat -> Context * Context)
    (sdHash : bytes) (client : PeerClient) : result (list bytes) * PeerClient :=
  if negb (length sdHash =? BlobHashHexLength)%nat then (Err (ESent ErrInvalidHashLen), client) else
  match GetBlob deadline (ctx 0%nat).2 sdHash client with
  | (Err e, client) => (Err (wrapAndReturnContextError (ctx 0%nat).2 4 e), client)
  | (Panic w, client) => (Panic w, client)
  | (Ok sdBlobData, client) =>
      match FromBlob order sdBlobData with
      | Err e => (Err e, client)
      | Panic w => (Panic w, client)
      | Ok sdBlob =>
          let contents := removelast (sd_BlobInfos sdBlob) in
          let '(r, client) :=
            getContent deadline (fun i => ctx (S i)) (map (fun bi => EncodeToString (bi_BlobHash bi)) contents) client in
          (l ← r; Ok (sdBlobData :: l), client)
      end
  end.
End Client.
