(* ===== verification/Dial.v ===== *)
(** * protocol/peer_client.go: dialling and deadlines

    The parts of the peer client that PeerClient.v leaves to its arguments: the dial
    functions a client is made with and how [Connect] uses them, and the times of the
    deadlines.  The clock is read when the code reads it.  Theorems: forgetting the times
    gives the client of PeerClient.v; every write and read of a request happens under a
    deadline of its own, the earlier one of the context's and the client's by the last
    reading of the clock before it; and a dial function set without a context is never
    called. *)
From stdpp Require Import base tactics list numbers strings.
From Stdlib Require Import ZArith Lia Init.Byte Floats.SpecFloat.
From S2P Require Import Prelude GoStd Store PeerMsg Wire PeerServer PeerClient Trace.
Local Open Scope Z_scope.

(** ** Connections with their deadlines *)

(** A deadline, with the time at which it was worked out if the clock was asked. *)
Record Deadline := mkDeadline { d_at : option Z; d_time : Z }.

(** A write or a read of a message or a blob: the number of readings of the clock before it
    and the deadline it runs under. *)
Inductive ioKind := IoWrite | IoRead.
Record IoOp := mkIo { io_kind : ioKind; io_ticks : nat; io_deadline : option Deadline }.

(** [tm_rd] and [tm_wr] are the deadlines in force for reads and writes; [tm_io] records
    the writes and reads in order; [tm_ticks] counts the readings of the clock. *)
Record Timed := mkTimed {
  tm_conn : Conn;
  tm_ticks : nat;
  tm_rd : option Deadline;
  tm_wr : option Deadline;
  tm_io : list IoOp
}.

Definition T (A : Type) : Type := Timed -> result A * Timed.
Definition retT {A} (r : result A) : T A := fun t => (r, t).
Definition bindT {A B} (m : T A) (f : A -> T B) : T B := fun t =>
  match m t with
  | (Ok a, t) => f a t
  | (Err e, t) => (Err e, t)
  | (Panic w, t) => (Panic w, t)
  end.
Local Notation "'do' x <- m ; k" := (bindT m (fun x => k)) (at level 10, x name, m at level 100, k at level 200).

(** A call on the connection alone. *)
Definition onConn {A} (f : Conn -> result A * Conn) : T A := fun t =>
  let '(r, c) := f (tm_conn t) in (r, mkTimed c (tm_ticks t) (tm_rd t) (tm_wr t) (tm_io t)).
Definition writing {A} (f : Conn -> result A * Conn) : T A := fun t =>
  let '(r, c) := f (tm_conn t) in (r, mkTimed c (tm_ticks t) (tm_rd t) (tm_wr t) (tm_io t ++ [mkIo IoWrite (tm_ticks t) (tm_wr t)])).
Definition reading {A} (f : Conn -> result A * Conn) : T A := fun t =>
  let '(r, c) := f (tm_conn t) in (r, mkTimed c (tm_ticks t) (tm_rd t) (tm_wr t) (tm_io t ++ [mkIo IoRead (tm_ticks t) (tm_rd t)])).

(** [SetDeadline], [SetReadDeadline] and [SetWriteDeadline] of a connection. *)
Definition setDeadlines (rd wr : bool) (d : Deadline) : T unit := fun t =>
  match SetDeadline (tm_conn t) with
  | (Ok _, c) =>
      (Ok tt, mkTimed c (tm_ticks t) (if rd then Some d else tm_rd t) (if wr then Some d else tm_wr t) (tm_io t))
  | (r, c) => (r, mkTimed c (tm_ticks t) (tm_rd t) (tm_wr t) (tm_io t))
  end.

(** A trace is attached to errors that are not the context's. *)
Definition wrapContextError `{GoErrors Meta} (err : errv Meta) : option (errv Meta) :=
  if Trace.stdIs err DeadlineExceeded || Trace.stdIs err Canceled then Some err
  else Trace.Err (Some (AnyErr err)) [].

Section Deadlines.
(** The [k]-th reading of the clock, in nanoseconds. *)
Variable clock : nat -> Z.

Definition Now : T Z := fun t =>
  (Ok (clock (tm_ticks t)), mkTimed (tm_conn t) (S (tm_ticks t)) (tm_rd t) (tm_wr t) (tm_io t)).

(** The context's deadline or the client's, whichever is sooner; at the time [now]. *)
Definition minDeadline (deadline : option Z) (timeout now : Z) : Z :=
  let sooner := now + timeout in
  match deadline with
  | Some d => if d <? sooner then d else sooner
  | None => sooner
  end.

Definition soonest (deadline : option Z) (timeout : Z) : T Deadline :=
  do now <- Now; retT (Ok (mkDeadline (Some now) (minDeadline deadline timeout now))).

Definition setMinDeadline (deadline : option Z) (timeout : Z) : T unit :=
  do d <- soonest deadline timeout; setDeadlines true true d.

Definition applyDeadline (deadline : option Z) (timeout : Z) : T unit :=
  match deadline with
  | Some d => setDeadlines true true (mkDeadline None d)
  | None =>
      if 0 <? timeout then
        do now <- Now; setDeadlines true true (mkDeadline (Some now) (now + timeout))
      else retT (Ok tt)
  end.

Variable FormatFloat : spec_float -> bytes.

Definition sendRequestAt (deadline : option Z) (timeout : Z) (ctx : Context) (k : nat)
    (request : CompositeRequest) : T unit :=
  do _ <- retT (ctxErr ctx k);
  do d <- soonest deadline timeout;
  do _ <- setDeadlines false true d;
  writing (Write (marshalRequest FormatFloat request)).

Definition readBlobAt (deadline : option Z) (timeout : Z) (response : CompositeResponse)
    : T (CompositeResponse * option bytes) :=
  match rs_IncomingBlob response with
  | Some b =>
      if 0 <? ib_Length b then
        do d <- soonest deadline timeout;
        do _ <- setDeadlines true false d;
        if maxAlloc <? ib_Length b then retT (Panic "makeslice: len out of range") else
        do data <- reading (ReadFull (Z.to_nat (ib_Length b)));
        retT (Ok (response, Some data))
      else retT (Ok (response, None))
  | None => retT (Ok (response, None))
  end.

Definition readResponseAt (deadline : option Z) (timeout : Z) : T (CompositeResponse * option bytes) :=
  do d <- soonest deadline timeout;
  do _ <- setDeadlines true false d;
  do message <- reading clientReadNextMessage;
  do response <- retT (unmarshalResponse message);
  readBlobAt deadline timeout response.

(** An error of a request gives way to the context's. *)
Definition catchT {A} (f : error -> error) (m : T A) : T A := fun t =>
  match m t with (Err e, t) => (Err (f e), t) | x => x end.

Definition exchangeAt (deadline : option Z) (timeout : Z) (ctx : Context) (request : CompositeRequest)
    : T (CompositeResponse * option bytes) :=
  do _ <- applyDeadline deadline timeout;
  do _ <- retT (ctxErr ctx 0);
  do _ <- catchT (wrapAndReturnContextError ctx 2) (sendRequestAt deadline timeout ctx 1 request);
  do x <- catchT (wrapAndReturnContextError ctx 2) (readResponseAt deadline timeout);
  do _ <- retT (ctxErr ctx 2);
  retT (Ok x).

(** [sendJSON] and [readJSON], helpers without a caller, on the text of a value. *)
Definition peerSendJSON (timeout : Z) (data : result bytes) : T unit :=
  do _ <- setMinDeadline None timeout;
  do d <- retT data;
  writing (Write d).
Definition peerReadJSON {A} (timeout : Z) (decode : Conn -> result A * Conn) : T A :=
  do _ <- setMinDeadline None timeout;
  reading decode.

(** ** Theorems *)

(** Forgetting the times. *)
Definition forget {A} (x : result A * Timed) : result A * Conn := (x.1, tm_conn x.2).

(** [m] with the times forgotten is [f]. *)
Definition erases {A} (m : T A) (f : Conn -> result A * Conn) : Prop :=
  forall t, forget (m t) = f (tm_conn t).

Lemma erases_setDeadlines rd wr d : erases (setDeadlines rd wr d) SetDeadline.
Proof.
  intros t. unfold forget, setDeadlines. destruct (SetDeadline (tm_conn t)) as [[[]| |] c]; done.
Qed.

Lemma erases_applyDeadline deadline timeout :
  erases (applyDeadline deadline timeout) (applyContextDeadline (bool_decide (is_Some deadline)) timeout).
Proof.
  intros t. unfold applyDeadline, applyContextDeadline. destruct deadline as [d|].
  - rewrite bool_decide_true by eauto. apply erases_setDeadlines.
  - rewrite bool_decide_false by (by intros []). destruct (0 <? timeout); [|done].
    unfold bindT, Now. by rewrite erases_setDeadlines.
Qed.

Lemma erases_sendRequestAt deadline timeout ctx k request :
  erases (sendRequestAt deadline timeout ctx k request) (sendRequest FormatFloat ctx k request).
Proof.
  intros t. unfold sendRequestAt, sendRequest, bindT, retT, soonest, Now.
  destruct (ctxErr ctx k); [|done|done]. unfold bindT, setDeadlines. simpl.
  destruct (SetDeadline (tm_conn t)) as [[[]| |] c]; simpl; [|done|done].
  unfold writing. simpl. by destruct (Write _ c).
Qed.

Lemma erases_readBlobAt deadline timeout response :
  erases (readBlobAt deadline timeout response) (readBlobData response).
Proof.
  intros t. unfold readBlobAt, readBlobData. destruct (rs_IncomingBlob response) as [b|]; [|done].
  destruct (0 <? ib_Length b); [|done]. unfold bindT, soonest, Now, bindT, retT, setDeadlines. simpl.
  destruct (SetDeadline (tm_conn t)) as [[[]| |] c]; simpl; [|done|done].
  destruct (maxAlloc <? ib_Length b); [done|]. unfold reading. simpl.
  by destruct (ReadFull _ c) as [[]].
Qed.

Lemma erases_readResponseAt deadline timeout :
  erases (readResponseAt deadline timeout) readResponse.
Proof.
  intros t. unfold readResponseAt, readResponse, soonest, Now, bindT, retT, setDeadlines. simpl.
  destruct (SetDeadline (tm_conn t)) as [[[]| |] c]; simpl; [|done|done].
  unfold reading. simpl. destruct (clientReadNextMessage c) as [[m| |] c']; simpl; [|done|done].
  destruct (unmarshalResponse m); [|done|done]. by rewrite erases_readBlobAt.
Qed.

Lemma erases_bind {A B} (m : T A) f (k : A -> T B) t :
  erases m f ->
  forget (bindT m k t)
  = match f (tm_conn t) with
    | (Ok a, c) => forget (k a (m t).2)
    | (Err e, c) => (Err e, c)
    | (Panic w, c) => (Panic w, c)
    end.
Proof.
  intros He. rewrite <- He. unfold bindT, forget. destruct (m t) as [[a| |] t']; done.
Qed.

Lemma erases_conn {A} (m : T A) f t r c : erases m f -> f (tm_conn t) = (r, c) -> tm_conn (m t).2 = c.
Proof. intros He Hf. pose proof (He t) as E. rewrite Hf in E. by injection E. Qed.

Lemma erases_catch {A} (m : T A) f g :
  erases m g -> erases (catchT f m) (fun c => match g c with (Err e, c) => (Err (f e), c) | x => x end).
Proof.
  intros He t. rewrite <- He. unfold catchT, forget. by destruct (m t) as [[]].
Qed.

Lemma erases_exchangeAt deadline timeout ctx request :
  erases (exchangeAt deadline timeout ctx request)
    (exchange FormatFloat (bool_decide (is_Some deadline)) timeout ctx request).
Proof.
  intros t. unfold exchangeAt, exchange. rewrite (erases_bind _ _ _ _ (erases_applyDeadline _ _)).
  destruct (applyContextDeadline _ timeout (tm_conn t)) as [[[]| |] c] eqn:E; [|done|done].
  apply erases_conn with (m := applyDeadline deadline timeout) in E; [|apply erases_applyDeadline].
  set (t1 := (applyDeadline deadline timeout t).2) in *. subst c.
  unfold bindT at 1, retT at 1. destruct (ctxErr ctx 0); [|done|done].
  pose proof (erases_catch _ (wrapAndReturnContextError ctx 2) _
    (erases_sendRequestAt deadline timeout ctx 1 request)) as Hs.
  rewrite (erases_bind _ _ _ _ Hs).
  destruct (sendRequest FormatFloat ctx 1 request (tm_conn t1)) as [[[]| |] c] eqn:E; [|done|done].
  set (t2 := (catchT _ _ t1).2). assert (tm_conn t2 = c) as <-.
  { apply (erases_conn _ _ _ (Ok tt) c Hs). by rewrite E. }
  pose proof (erases_catch _ (wrapAndReturnContextError ctx 2) _
    (erases_readResponseAt deadline timeout)) as Hr.
  rewrite (erases_bind _ _ _ _ Hr).
  destruct (readResponse (tm_conn t2)) as [[x| |] c] eqn:E'; [|done|done].
  set (t3 := (catchT _ _ t2).2). assert (tm_conn t3 = c) as <-.
  { apply (erases_conn _ _ _ (Ok x) c Hr). by rewrite E'. }
  unfold bindT, retT. by destruct (ctxErr ctx 2).
Qed.

(** The earlier one of the context's deadline and the client's time-out from [now] on. *)
Definition dueAt (deadline : option Z) (timeout now : Z) : Z :=
  match deadline with Some d => Z.min d (now + timeout) | None => now + timeout end.

(** A write or a read under the deadline of the [k]-th reading of the clock, which is the
    last one before it. *)
Definition timely (deadline : option Z) (timeout : Z) (kind : ioKind) (k : nat) : IoOp :=
  mkIo kind (S k) (Some (mkDeadline (Some (clock k)) (dueAt deadline timeout (clock k)))).

(** The readings of the clock before the first write of a request. *)
Definition firstTick (deadline : option Z) (timeout : Z) (t : Timed) : nat :=
  match deadline with
  | Some _ => tm_ticks t
  | None => if 0 <? timeout then S (tm_ticks t) else tm_ticks t
  end.

Lemma minDeadline_due deadline timeout now : minDeadline deadline timeout now = dueAt deadline timeout now.
Proof.
  unfold minDeadline, dueAt. destruct deadline as [d|]; [|done]. destruct (Z.ltb_spec d (now + timeout)); lia.
Qed.

Lemma setDeadlines_io rd wr d t :
  tm_io (setDeadlines rd wr d t).2 = tm_io t /\ tm_ticks (setDeadlines rd wr d t).2 = tm_ticks t.
Proof. unfold setDeadlines. by destruct (SetDeadline (tm_conn t)) as [[]]. Qed.

Lemma applyDeadline_io deadline timeout t :
  tm_io (applyDeadline deadline timeout t).2 = tm_io t
  /\ tm_ticks (applyDeadline deadline timeout t).2 = firstTick deadline timeout t.
Proof.
  unfold applyDeadline, firstTick. destruct deadline as [d|]; [apply setDeadlines_io|].
  destruct (0 <? timeout); [|done]. unfold bindT, Now.
  by destruct (setDeadlines_io true true (mkDeadline (Some (clock (tm_ticks t))) (clock (tm_ticks t) + timeout))
    (mkTimed (tm_conn t) (S (tm_ticks t)) (tm_rd t) (tm_wr t) (tm_io t))) as [-> ->].
Qed.

(** A computation whose writes and reads are the first few of [ops]: all but the [short]
    last ones when it returns a value, which is what [short] says of it. *)
Definition performs {A} (m : T A) (t : Timed) (ops : list IoOp) (short : A -> nat) : Prop :=
  exists n, tm_io (m t).2 = tm_io t ++ take n ops
    /\ forall a, (m t).1 = Ok a ->
         n = (length ops - short a)%nat /\ tm_ticks (m t).2 = (tm_ticks t + (length ops - short a))%nat.

Lemma performs_catch {A} f (m : T A) t ops short : performs m t ops short -> performs (catchT f m) t ops short.
Proof. intros (n & E & H). exists n. unfold catchT. by destruct (m t) as [[]]. Qed.

Lemma sendRequestAt_io deadline timeout ctx k request t :
  performs (sendRequestAt deadline timeout ctx k request) t [timely deadline timeout IoWrite (tm_ticks t)] (fun _ => 0%nat).
Proof.
  unfold performs, sendRequestAt, bindT, retT, soonest, bindT, Now, retT, setDeadlines, timely.
  rewrite <- minDeadline_due. destruct (ctxErr ctx k); [|exists 0%nat; by rewrite app_nil_r..]. simpl.
  destruct (SetDeadline (tm_conn t)) as [[[]| |] c]; simpl; [|exists 0%nat; by rewrite app_nil_r..].
  unfold writing. simpl. destruct (Write _ c). exists 1%nat. split; [done|]. intros ? _. simpl. lia.
Qed.

Lemma readBlobAt_io deadline timeout response t :
  performs (readBlobAt deadline timeout response) t [timely deadline timeout IoRead (tm_ticks t)]
    (fun x => match x.2 with Some _ => 0%nat | None => 1%nat end).
Proof.
  assert (Hno : performs (retT (Ok (response, @None bytes))) t [timely deadline timeout IoRead (tm_ticks t)]
    (fun x => match x.2 with Some _ => 0%nat | None => 1%nat end)).
  { exists 0%nat. split; [by rewrite app_nil_r|]. intros a [= <-]. simpl. lia. }
  unfold readBlobAt. destruct (rs_IncomingBlob response) as [b|]; [|done]. destruct (0 <? ib_Length b); [|done].
  unfold performs, bindT, soonest, bindT, Now, retT, setDeadlines, timely. rewrite <- minDeadline_due. simpl.
  destruct (SetDeadline (tm_conn t)) as [[[]| |] c]; simpl; [|exists 0%nat; by rewrite app_nil_r..].
  destruct (maxAlloc <? ib_Length b); [exists 0%nat; by rewrite app_nil_r|]. unfold reading. simpl.
  destruct (ReadFull _ c) as [[d| |] c']; (exists 1%nat; split; [done|]); [|done..].
  intros a [= <-]. simpl. lia.
Qed.

Lemma readResponseAt_io deadline timeout t :
  performs (readResponseAt deadline timeout) t
    [timely deadline timeout IoRead (tm_ticks t); timely deadline timeout IoRead (S (tm_ticks t))]
    (fun x => match x.2 with Some _ => 0%nat | None => 1%nat end).
Proof.
  unfold performs, readResponseAt, bindT, soonest, bindT, Now, retT, setDeadlines. simpl.
  destruct (SetDeadline (tm_conn t)) as [[[]| |] c]; simpl; [|exists 0%nat; by rewrite app_nil_r..].
  unfold reading. simpl. rewrite minDeadline_due.
  destruct (clientReadNextMessage c) as [[message|e|p] c']; simpl; [|exists 1%nat; done..].
  destruct (unmarshalResponse message) as [response|e|p]; simpl; [|exists 1%nat; done..].
  match goal with |- context [readBlobAt deadline timeout response ?u] =>
    destruct (readBlobAt_io deadline timeout response u) as (n & E & H) end.
  exists (S n). rewrite E. split; [simpl; by rewrite <- app_assoc|]. intros a Ha.
  destruct (H a Ha) as [-> ->]. simpl. destruct (a.2); lia.
Qed.

Lemma exchangeAt_io deadline timeout ctx request t :
  let k := firstTick deadline timeout t in
  exists n, tm_io (exchangeAt deadline timeout ctx request t).2
      = tm_io t ++ take n [timely deadline timeout IoWrite k; timely deadline timeout IoRead (S k);
                           timely deadline timeout IoRead (S (S k))]
    /\ forall response blob,
         (exchangeAt deadline timeout ctx request t).1 = Ok (response, blob) -> n = match blob with Some _ => 3%nat | None => 2%nat end.
Proof.
  intros k. destruct (exchangeAt deadline timeout ctx request t) as [r t'] eqn:E. simpl.
  unfold exchangeAt, bindT at 1 in E. pose proof (applyDeadline_io deadline timeout t) as [Hi Hk].
  destruct (applyDeadline deadline timeout t) as [[[]|e|p] t1]; simpl in Hi, Hk;
    [|injection E as <- <-; exists 0%nat; by rewrite app_nil_r..].
  unfold bindT at 1, retT at 1 in E.
  destruct (ctxErr ctx 0); [|injection E as <- <-; exists 0%nat; by rewrite app_nil_r..].
  fold k in Hk. rewrite <- Hi, <- Hk. clear k Hi Hk.
  pose proof (performs_catch (wrapAndReturnContextError ctx 2) _ _ _ _
    (sendRequestAt_io deadline timeout ctx 1 request t1)) as (n & Hi & Hn).
  unfold bindT at 1 in E. destruct (catchT _ _ t1) as [[[]|e|p] t2]; simpl in Hi, Hn;
    [|injection E as <- <-; exists (min n 1); rewrite Hi; split; [by destruct n as [|[]]|done]..].
  destruct (Hn tt eq_refl) as [-> Hk].
  pose proof (performs_catch (wrapAndReturnContextError ctx 2) _ _ _ _
    (readResponseAt_io deadline timeout t2)) as (n & Hi' & Hn').
  unfold bindT at 1 in E. rewrite Hk, Nat.add_1_r in Hi'. exists (S n).
  assert (Hio : tm_io (catchT (wrapAndReturnContextError ctx 2) (readResponseAt deadline timeout) t2).2 = tm_io t1 ++
    take (S n) [timely deadline timeout IoWrite (tm_ticks t1); timely deadline timeout IoRead (S (tm_ticks t1));
                timely deadline timeout IoRead (S (S (tm_ticks t1)))]) by (rewrite Hi', Hi; by rewrite <- app_assoc).
  destruct (catchT _ _ t2) as [[x|e|p] t3]; simpl in Hio, Hn'; [|by injection E as <- <-..].
  unfold bindT, retT in E. destruct (ctxErr ctx 2); [|by injection E as <- <-..].
  injection E as <- <-. split; [done|]. intros response blob [= ->]. destruct (Hn' _ eq_refl) as [-> _].
  by destruct blob.
Qed.

(** C9. A request in time: with the times forgotten it is the request of PeerClient.v; it
    writes the request, reads the response and, if the response announces one, reads the
    blob, in this order, until one of them fails.  Each of the three runs under a deadline
    of its own, worked out by reading the clock anew, with no other reading between that one
    and the operation: the earlier one of the context's deadline and of the client's
    time-out from the time that was read. *)
Theorem exchange_timed deadline timeout ctx request t :
  let '(r, t') := exchangeAt deadline timeout ctx request t in
  let k := firstTick deadline timeout t in
  exchange FormatFloat (bool_decide (is_Some deadline)) timeout ctx request (tm_conn t) = (r, tm_conn t')
  /\ exists n, tm_io t' = tm_io t ++ take n [timely deadline timeout IoWrite k;
                                            timely deadline timeout IoRead (S k);
                                            timely deadline timeout IoRead (S (S k))]
     /\ forall response blob, r = Ok (response, blob) -> n = match blob with Some _ => 3%nat | None => 2%nat end.
Proof.
  pose proof (erases_exchangeAt deadline timeout ctx request t) as He.
  pose proof (exchangeAt_io deadline timeout ctx request t) as Hio.
  destruct (exchangeAt deadline timeout ctx request t) as [r t']. by split.
Qed.
End Deadlines.

(** ** Making a client and connecting *)
Section Dial.
Variable clock : nat -> Z.
(** [net.DialTimeout] of a network, an address and a time-out. *)
Variable DialTimeout : bytes -> bytes -> Z -> result Conn.

Definition DialFunc := bytes -> bytes -> result Conn.
(** Over the context's deadline. *)
Definition DialContextFunc := option Z -> bytes -> bytes -> result Conn.

(** A dial function: one that was given, or the default one, which reads the client's
    time-out when it is called. *)
Inductive dialer (F : Type) := DialNil | DialCustom (f : F) | DialDefault.
Arguments DialNil {F}.
Arguments DialCustom {F} f.
Arguments DialDefault {F}.

Record DialClient := mkDialClient {
  dc_conn : option Timed;
  dc_connected : bool;
  dc_timeout : Z;
  dc_dialFunc : dialer DialFunc;
  dc_dialContextFunc : dialer DialContextFunc
}.

(** The options of a client. *)
Inductive DialOption :=
  | OptTimeout (t : Z)
  | OptDialFunc (f : DialFunc)
  | OptDialContext (f : DialContextFunc).

Definition WithClientDialFunc (f : DialFunc) (c : DialClient) : DialClient :=
  mkDialClient (dc_conn c) (dc_connected c) (dc_timeout c) (DialCustom f) (dc_dialContextFunc c).
Definition WithClientDialContext (f : DialContextFunc) (c : DialClient) : DialClient :=
  mkDialClient (dc_conn c) (dc_connected c) (dc_timeout c) (dc_dialFunc c) (DialCustom f).
Definition setTimeout (t : Z) (c : DialClient) : DialClient :=
  mkDialClient (dc_conn c) (dc_connected c) t (dc_dialFunc c) (dc_dialContextFunc c).
Definition applyDialOption (c : DialClient) (o : DialOption) : DialClient :=
  match o with
  | OptTimeout t => setTimeout t c
  | OptDialFunc f => WithClientDialFunc f c
  | OptDialContext f => WithClientDialContext f c
  end.

Definition orDefault {F} (d : dialer F) : dialer F :=
  match d with DialNil => DialDefault | d => d end.

Definition newDialClient (options : list DialOption) : DialClient :=
  let client := foldl applyDialOption (mkDialClient None false DefaultTimeout DialNil DialNil) options in
  mkDialClient (dc_conn client) (dc_connected client) (dc_timeout client)
    (orDefault (dc_dialFunc client)) (orDefault (dc_dialContextFunc client)).
(** [DefaultPeerClientFactory]: a new client at every call. *)
Definition DefaultPeerClientFactory (options : list DialOption) : unit -> DialClient :=
  fun _ => newDialClient options.

Definition fresh (c : Conn) : Timed := mkTimed c 0 None None [].

(** The default function sets the context's deadline on the connection and drops the error. *)
Definition dialContext (d : DialContextFunc) (deadline : option Z) (address : bytes) : result Timed :=
  conn ← d deadline (go "tcp") address; Ok (fresh conn).
Definition defaultDialContext (timeout : Z) (deadline : option Z) (network address : bytes) : result Timed :=
  conn ← DialTimeout network address timeout;
  Ok match deadline with
     | Some d => (setDeadlines true true (mkDeadline None d) (fresh conn)).2
     | None => fresh conn
     end.

(** The dial of [Connect]. *)
Definition dialOf (deadline : option Z) (address : bytes) (client : DialClient) : result Timed :=
  match dc_dialContextFunc client with
  | DialCustom f => dialContext f deadline address
  | DialDefault => defaultDialContext (dc_timeout client) deadline (go "tcp") address
  | DialNil =>
      match dc_dialFunc client with
      | DialCustom f => conn ← f (go "tcp") address; Ok (fresh conn)
      | DialDefault => conn ← DialTimeout (go "tcp") address (dc_timeout client); Ok (fresh conn)
      | DialNil => Panic "nil pointer dereference"
      end
  end.

Definition setDialConn (c : option Timed) (connected : bool) (client : DialClient) : DialClient :=
  mkDialClient c connected (dc_timeout client) (dc_dialFunc client) (dc_dialContextFunc client).

Definition ConnectAt (deadline : option Z) (address : bytes) (client : DialClient)
    : result unit * DialClient :=
  if dc_connected client then (Err (ESent ErrAlreadyConnected), client) else
  match dialOf deadline address client with
  | Err e => (Err e, client)
  | Panic w => (Panic w, client)
  | Ok conn =>
      match applyDeadline clock deadline (dc_timeout client) conn with
      | (Ok _, conn) => (Ok tt, setDialConn (Some conn) true client)
      | (Err e, _) => (Err e, setDialConn None (dc_connected client) client)
      | (Panic w, _) => (Panic w, client)
      end
  end.

(** A client as PeerClient.v has it. *)
Definition forgetClient (c : DialClient) : PeerClient :=
  mkClient (tm_conn <$> dc_conn c) (dc_connected c) (dc_timeout c).

Lemma connect_erases deadline address client :
  let '(r, client') := ConnectAt deadline address client in
  Connect (bool_decide (is_Some deadline)) (t ← dialOf deadline address client; Ok (tm_conn t))
    (forgetClient client) = (r, forgetClient client').
Proof.
  unfold ConnectAt, Connect. simpl. destruct (dc_connected client) eqn:Ec; [done|].
  destruct (dialOf deadline address client) as [t| |]; [|done|done]. simpl.
  pose proof (erases_applyDeadline clock deadline (dc_timeout client) t) as He. unfold forget in He.
  destruct (applyDeadline clock deadline (dc_timeout client) t) as [[[]|e|w] t']; simpl in He;
    rewrite <- He; simpl; by rewrite ?Ec.
Qed.

Definition isDialFunc (o : DialOption) : bool := match o with OptDialFunc _ => true | _ => false end.
Definition isDialContext (o : DialOption) : bool := match o with OptDialContext _ => true | _ => false end.

(** Equal but for the plain dial function. *)
Definition sameButDial (c c' : DialClient) : Prop :=
  dc_conn c = dc_conn c' /\ dc_connected c = dc_connected c' /\ dc_timeout c = dc_timeout c'
  /\ dc_dialContextFunc c = dc_dialContextFunc c'.

Lemma dial_options_same opts c c' :
  sameButDial c c' ->
  sameButDial (foldl applyDialOption c opts)
    (foldl applyDialOption c' (List.filter (fun o => negb (isDialFunc o)) opts)).
Proof.
  revert c c'. induction opts as [|o opts IH]; intros c c' H; [done|].
  destruct H as (H1 & H2 & H3 & H4). destruct o; simpl; apply IH; by split_and!.
Qed.

Lemma connect_same deadline address c c' :
  sameButDial c c' -> dc_dialContextFunc c <> DialNil ->
  let r := ConnectAt deadline address c in
  let r' := ConnectAt deadline address c' in
  r.1 = r'.1 /\ forgetClient r.2 = forgetClient r'.2 /\ dc_conn r.2 = dc_conn r'.2.
Proof.
  destruct c as [conn b t f g], c' as [conn' b' t' f' g']. intros (H1 & H2 & H3 & H4) Hn. simpl in *. subst.
  unfold ConnectAt. simpl. destruct b'; [done|].
  replace (dialOf deadline address (mkDialClient conn' false t' f' g'))
    with (dialOf deadline address (mkDialClient conn' false t' f g')) by (by destruct g').
  destruct (dialOf _ _ _) as [c| |]; [|done|done].
  by destruct (applyDeadline clock deadline t' c) as [[]].
Qed.

(** The dial function of [WithClientDialFunc] is never called: a client made with it
    connects exactly as the client made without it, whatever the other options, because
    [NewPeerClient] always leaves a dial function with a context and [Connect] prefers
    that one. *)
Theorem dial_func_unused opts deadline address :
  let client := newDialClient opts in
  let client' := newDialClient (List.filter (fun o => negb (isDialFunc o)) opts) in
  let r := ConnectAt deadline address client in
  let r' := ConnectAt deadline address client' in
  r.1 = r'.1 /\ forgetClient r.2 = forgetClient r'.2 /\ dc_conn r.2 = dc_conn r'.2.
Proof.
  apply connect_same.
  - destruct (dial_options_same opts (mkDialClient None false DefaultTimeout DialNil DialNil)
      (mkDialClient None false DefaultTimeout DialNil DialNil)) as (H1 & H2 & H3 & H4); [done|].
    unfold newDialClient. split_and!; simpl; congruence.
  - simpl. by destruct (dc_dialContextFunc _).
Qed.
End Dial.

(** A client whose time-out is zero: [Connect] sets no deadline, but the deadlines of its
    requests have passed when they are set, unless the context's is earlier still. *)
Theorem zero_timeout_expires clock FormatFloat timeout ctx request t :
  timeout <= 0 ->
  applyDeadline clock None timeout t = (Ok tt, t)
  /\ exists io, tm_io (exchangeAt clock FormatFloat None timeout ctx request t).2 = tm_io t ++ io
       /\ Forall (fun o => exists now d, io_deadline o = Some (mkDeadline (Some now) d) /\ d <= now) io.
Proof.
  intros Ht. split.
  - unfold applyDeadline. destruct (Z.ltb_spec 0 timeout); [lia|done].
  - destruct (exchangeAt_io clock FormatFloat None timeout ctx request t) as (n & E & _).
    eexists. split; [exact E|]. apply Forall_take.
    repeat constructor; eexists _, _; (split; [reflexivity|]); simpl; lia.
Qed.

Lemma zero_timeout_expires_witness :
  let t := fresh (mkConn [] (ESent EOF) [] []) in
  applyDeadline (fun _ => 5) None 0 t = (Ok tt, t)
  /\ exists io, tm_io (exchangeAt (fun _ => 5) (fun _ => []) None 0 Background (mkRequest None None []) t).2 = tm_io t ++ io
       /\ Forall (fun o => exists now d, io_deadline o = Some (mkDeadline (Some now) d) /\ d <= now) io.
Proof. intros t. apply (zero_timeout_expires (fun _ => 5) (fun _ => []) 0 Background _ t). lia. Defined.

(** A request answered with a blob, with a clock that advances by one at every reading and a
    context whose deadline comes before the time-out of the last read. *)
Lemma exchange_timed_witness :
  let response := mkResponse None [] (Some (mkIncoming [] (go "h") 2)) in
  let t := fresh (mkConn (marshalResponse response ++ go "xy") (ESent EOF) [] []) in
  let x := exchangeAt (fun k => Z.of_nat k) (fun _ => []) (Some 11) 10 Background (mkRequest None None []) t in
  x.1 = Ok (response, Some (go "xy"))
  /\ tm_io x.2 = [mkIo IoWrite 1 (Some (mkDeadline (Some 0) 10));
                  mkIo IoRead 2 (Some (mkDeadline (Some 1) 11));
                  mkIo IoRead 3 (Some (mkDeadline (Some 2) 11))].
Proof.
  intros response t x. assert (E : x.1 = Ok (response, Some (go "xy"))) by (vm_compute; reflexivity).
  split; [exact E|].
  pose proof (exchange_timed (fun k => Z.of_nat k) (fun _ => []) (Some 11) 10 Background (mkRequest None None []) t) as H.
  fold x in H. destruct x as [r t']. destruct H as [_ (n & Hio & Hn)]. simpl in E. rewrite (Hn _ _ E) in Hio.
  exact Hio.
Defined.
