(* ===== verification/Origin.v ===== *)
(** * protocol/protocol.go: where a request comes from

    The values a connection's context carries, by keys of their own type, and the address
    of the peer, as [wrapPeerContext] of peer.go and [wrapReflectorContext] of reflector.go
    put them in and [GetSourceFromContext] and [GetIPAddressFromContext] take them out. *)
From stdpp Require Import base tactics list numbers strings.
From Stdlib Require Import ZArith Lia Init.Byte.
From S2P Require Import Prelude GoStd GoNet Json PeerMsg PeerServer.
Local Open Scope Z_scope.

(** ** Context values *)

(** Keys and values of a context are interfaces: a dynamic type and, here, a string. *)
Inductive dynType := TString | TContextKey | TSource | TOther (name : string).
#[export] Instance dynType_eq_dec : EqDecision dynType.
Proof. solve_decision. Defined.
Record dyn := mkDyn { dy_type : dynType; dy_text : bytes }.
#[export] Instance dyn_eq_dec : EqDecision dyn.
Proof. solve_decision. Defined.

(** [context.WithValue]: the last value first. *)
Definition Values := list (dyn * dyn).
Definition WithValue (ctx : Values) (key value : dyn) : Values := (key, value) :: ctx.
Fixpoint Value (ctx : Values) (key : dyn) : option dyn :=
  match ctx with
  | [] => None
  | (k, v) :: ctx => if decide (k = key) then Some v else Value ctx key
  end.

Definition SourceContextKey : dyn := mkDyn TContextKey (go "source").
Definition IPAddressContextKey : dyn := mkDyn TContextKey (go "ip_address").
Definition SourcePeer : bytes := go "peer".
Definition SourceReflector : bytes := go "reflector".

Definition GetSourceFromContext (ctx : Values) : bytes * bool :=
  match Value ctx SourceContextKey with
  | None => ([], false)
  | Some value => if decide (dy_type value = TSource) then (dy_text value, true) else ([], false)
  end.
Definition GetIPAddressFromContext (ctx : Values) : bytes * bool :=
  match Value ctx IPAddressContextKey with
  | None => ([], false)
  | Some value => if decide (dy_type value = TString) then (dy_text value, true) else ([], false)
  end.

Section Wrap.
(** [netip.ParseAddr] followed by [String]. *)
Variable ParseAddr : bytes -> option bytes.

(** [addr] is the text of the remote address. *)
Definition wrapContext (source : bytes) (ctx : Values) (addr : bytes) : Values :=
  let ip := GetConnectionIP ParseAddr addr in
  let ctx := WithValue ctx SourceContextKey (mkDyn TSource source) in
  WithValue ctx IPAddressContextKey (mkDyn TString ip).
Definition wrapPeerContext : Values -> bytes -> Values := wrapContext SourcePeer.
Definition wrapReflectorContext : Values -> bytes -> Values := wrapContext SourceReflector.

(** The beginning of a hash, for log lines. *)
Definition safeHashPrefix (hash : bytes) : bytes := if (8 <? length hash)%nat then take 8 hash else hash.

(** Whether a text is JSON. *)
Definition IsValidJSON (b : bytes) : bool := Valid b.

(** ** Theorems *)

(** What a handler reads from the context of its connection: the protocol it came by and
    the address that access control is asked about, whatever the context held before;
    every value under another key is kept, also under a key with the same text but of
    another type.  The address is the host of the connection's address in its canonical
    text, also in brackets, and empty when that is not an IP address. *)
Theorem context_origin ctx addr :
  let peer := wrapPeerContext ctx addr in
  let reflector := wrapReflectorContext ctx addr in
  GetSourceFromContext peer = (SourcePeer, true)
  /\ GetSourceFromContext reflector = (SourceReflector, true)
  /\ GetIPAddressFromContext peer = (getPeerIP ParseAddr addr, true)
  /\ GetIPAddressFromContext reflector = (getPeerIP ParseAddr addr, true)
  /\ (forall key, dy_type key <> TContextKey -> Value peer key = Value ctx key /\ Value reflector key = Value ctx key)
  /\ (forall host port, addr = JoinHostPort host port -> plain host -> plain port -> ":"%byte ∉ port ->
        getPeerIP ParseAddr addr = default [] (ParseAddr host)).
Proof.
  cbv zeta. split_and!; try done.
  - intros [t x] Ht. unfold wrapPeerContext, wrapReflectorContext, wrapContext. simpl in *.
    rewrite !decide_False; [done|by intros [= <-]..].
  - intros host port -> Hh Hp Hc. unfold getPeerIP. by rewrite SplitHostPort_JoinHostPort.
Qed.
End Wrap.

(** An IPv6 address loses its brackets and its port. *)
Example origin_v6 :
  GetIPAddressFromContext (wrapPeerContext (fun a => Some a) [] (go "[::1]:5567")) = (go "::1", true).
Proof. reflexivity. Qed.
