(* ===== verification/PeerSpec.v ===== *)
(** * The two ends of the peer protocol together

    The bytes a client writes are the bytes a server reads, and the other way round.
    Theorems: a session of any length gives every call the answer of the server's
    store, protector and access control; a stream is fetched whole; a response that
    announces a huge blob makes the client panic. *)
From stdpp Require Import base tactics list numbers strings gmap.
From Stdlib Require Import ZArith Lia Init.Byte Floats.SpecFloat.
From S2P Require Import Prelude GoStd Sha2 Blob Multihash Json SdBlob SdBlobSpec Errors Store Memory.
From S2P Require Import PeerMsg Wire PeerServer PeerClient.
Local Open Scope Z_scope.

(** ** Sizes *)

Lemma digits_length fuel n acc : (length (digits fuel n acc) <= fuel + length acc)%nat.
Proof.
  revert n acc. induction fuel as [|fuel IH]; intros n acc; simpl; [lia|].
  destruct (n <? 10); [simpl; lia|]. specialize (IH (n / 10) (dec_digit (n mod 10) :: acc)). simpl in IH. lia.
Qed.

Lemma Itoa_length n : (length (Itoa n) <= 20)%nat.
Proof.
  pose proof (digits_length 19 (- n) []) as H1. pose proof (digits_length 19 n []) as H2.
  change (length (@nil byte)) with 0%nat in H1, H2. unfold Itoa.
  destruct (n <? 0); [change (S (length (digits 19 (- n) [])) <= 20)%nat|]; lia.
Qed.

Lemma length_quote s : safe s -> length (quote s) = (length s + 2)%nat.
Proof. intros H. rewrite quote_plain by done. simpl. rewrite length_app. simpl. lia. Qed.

Lemma IsValid_safe h : IsValid h = true -> safe h.
Proof.
  intros [_ Hf]%IsValid_spec. eapply Forall_impl; [exact Hf|].
  intros c Hc. by apply lower_hex_plain in Hc as [? _].
Qed.

Lemma IsValid_length h : IsValid h = true -> length h = BlobHashHexLength.
Proof. by intros [Hl _]%IsValid_spec. Qed.

Lemma IsValid_validates {L : CidLib} h : IsValid h = true -> ValidateHash h = true.
Proof. intros H. unfold ValidateHash, IdentifyHash. by rewrite H. Qed.

(** ** Calls and their answers *)

Section Spec.
Context {L : CidLib} {St : Type} {B : BlobStore St} {BL : BlobStoreLaws St}.
Context (ParseAddr : bytes -> option bytes) (emptyNil : bool) (FormatFloat : spec_float -> bytes).
Implicit Types (p : PeerServer St) (h ip : bytes).

(** A call of the client, its request, and the response and blob of the server. *)
Inductive call := CGet (h : bytes) | CHas (h : bytes).

Definition requestOf (k : call) : CompositeRequest :=
  match k with CGet h => mkRequest None None h | CHas h => mkRequest (Some [h]) None [] end.
Definition hashOf (k : call) : bytes := match k with CGet h | CHas h => h end.

(** What the server gives for a hash: the specification of [GetBlob]. *)
Definition blobAnswer p ip h : result bytes :=
  if isProtected p h then Err (ESent ErrBlobProtected) else
  if denied p Background h ip then Err (ESent ErrAccessDenied) else
  match store_view (sv_store p) !! h with
  | Some [] => Err (ESent (if emptyNil then ErrBlobNotFound else ErrNoBlobData))
  | Some d => Ok d
  | None => Err (ESent ErrBlobNotFound)
  end.

(** And the specification of [HasBlob]. *)
Definition hasAnswer p ip h : bool :=
  negb (isProtected p h) && negb (denied p Background h ip)
  && bool_decide (is_Some (store_view (sv_store p) !! h)).

(** Why the server sends an error instead of the blob. *)
Definition refusal p ip h : option sentinel :=
  if isProtected p h then Some ErrBlobProtected else
  if denied p Background h ip then Some ErrAccessDenied else
  match store_view (sv_store p) !! h with
  | Some d => if emptyNil && bool_decide (d = []) then Some ErrBlobNotFound else None
  | None => Some ErrBlobNotFound
  end.

Definition blobFrame p ip h : CompositeResponse * option bytes :=
  match refusal p ip h, store_view (sv_store p) !! h with
  | None, Some d => (mkResponse (Some []) [] (Some (mkIncoming [] h (Z.of_nat (length d)))), Some d)
  | Some s, _ => (mkResponse (Some []) [] (Some (mkIncoming (go (sentinel_text s)) h 0)), None)
  | None, None => (mkResponse (Some []) [] None, None)
  end.
Definition answerOf p ip (k : call) : CompositeResponse * option bytes :=
  match k with
  | CGet h => blobFrame p ip h
  | CHas h => (mkResponse (Some (if hasAnswer p ip h then [h] else [])) [] None, None)
  end.

(** The servers the specification is about: a well-formed store that takes every hash, with
    blobs no larger than blobs may be. *)
Record goodServer p : Prop := {
  gs_wf : store_wf (sv_store p);
  gs_accepts h : IsValid h = true -> store_accepts h = true;
  gs_size h d : store_view (sv_store p) !! h = Some d -> Z.of_nat (length d) <= MaxBlobSize
}.

(** ** The server's side of a call *)

Lemma notFound_text e : IsBlobNotFoundError (Some e) = true ->
  bool_decide (error_text e = sentinel_text ErrBlobNotFound) || contains (error_text e) "blob not found" = true.
Proof.
  unfold IsBlobNotFoundError. intros [[H%bool_decide_eq_true|H]%orb_true_iff|H]%orb_true_iff.
  - by subst.
  - simpl. by rewrite H.
  - rewrite H. apply orb_true_r.
Qed.

Lemma serves_blob p ip h :
  goodServer p -> IsValid h = true ->
  exists n, handleBlobDataRequest emptyNil p Background h ip
    = match refusal p ip h, store_view (sv_store p) !! h with
      | None, Some d => Ok (mkIncoming [] h (Z.of_nat (length d)), Some d, n)
      | Some s, _ => Ok (createIncomingBlobError h (sentinel_text s), None, n)
      | None, None => Ok (mkIncoming [] h 0, None, n)
      end.
Proof.
  intros G Hh. unfold handleBlobDataRequest, refusal.
  rewrite (IsValid_length h Hh), Nat.eqb_refl, (IsValid_validates h Hh). cbn [negb].
  destruct (isProtected p h); [by exists []|]. destruct (denied p Background h ip); [by exists []|].
  pose proof (store_get (sv_store p) h (gs_wf p G) (gs_accepts p G h Hh)) as Hg.
  destruct (store_view (sv_store p) !! h) as [d|].
  - rewrite Hg. destruct (emptyNil && bool_decide (d = [])); [by exists []|]. by eexists.
  - destruct Hg as (e & -> & He). rewrite (notFound_text e He). by exists [].
Qed.

Lemma serves_has p ip h ctx :
  (forall i, ctx i = Background) -> goodServer p -> IsValid h = true ->
  handleBlobAvailabilityRequest p ctx [h] ip = Ok (if hasAnswer p ip h then [h] else []).
Proof.
  intros Hctx G Hh. simpl. rewrite (IsValid_length h Hh), Nat.eqb_refl, (IsValid_validates h Hh), Hctx.
  unfold hasAnswer. cbn [negb].
  destruct (isProtected p h); [done|]. destruct (denied p Background h ip); [done|].
  rewrite (store_has _ h (gs_wf p G) (gs_accepts p G h Hh)). by destruct (bool_decide _).
Qed.

Lemma serves_call p ip k :
  goodServer p -> IsValid (hashOf k) = true ->
  exists n, handleRequest emptyNil p (fun _ => Background) (requestOf k) ip
            = Ok ((answerOf p ip k).1, (answerOf p ip k).2, n).
Proof.
  intros G Hh. unfold handleRequest. destruct k as [h|h]; cbn [requestOf rq_RequestedBlob rq_RequestedBlobs
    rq_BlobDataPaymentRate default answerOf hashOf] in *.
  - rewrite (bool_decide_eq_false_2 (h = [])) by (intros E; by rewrite E in Hh).
    destruct (serves_blob p ip h G Hh) as [n E]. unfold blobFrame.
    destruct (refusal p ip h) as [s|] eqn:Er.
    + rewrite E. by exists n.
    + destruct (store_view (sv_store p) !! h) as [d|] eqn:Ev.
      * rewrite E. by exists n.
      * exfalso. unfold refusal in Er. rewrite Ev in Er. by repeat case_match.
  - rewrite (bool_decide_eq_true_2 (@nil byte = [])) by done. cbn [mbind result_bind].
    change (id [h]) with [h].
    rewrite (bool_decide_eq_false_2 ([h] = [])) by done. rewrite serves_has by done. by exists [].
Qed.

(** ** Texts *)

Lemma safe_go s : safeAscii s = true -> safe (go s).
Proof. apply safeAscii_safe. Qed.

Definition shortText (s : sentinel) : bool :=
  safeAscii (sentinel_text s) && (length (go (sentinel_text s)) <=? 100)%nat.

Lemma refusal_short p ip h s : refusal p ip h = Some s -> shortText s = true.
Proof. unfold refusal. intros H. repeat case_match; by simplify_eq. Qed.

Lemma answer_safe p ip k :
  goodServer p -> IsValid (hashOf k) = true -> safeResponse (answerOf p ip k).1.
Proof.
  intros G Hh. pose proof (IsValid_safe _ Hh) as Hs. destruct k as [h|h]; simpl in *.
  - unfold blobFrame. destruct (refusal p ip h) as [s|] eqn:Er.
    + apply refusal_short in Er. apply andb_true_iff in Er as [Er _].
      split_and!; [constructor|constructor|]. split_and!; [by apply safe_go|done|done].
    + destruct (store_view (sv_store p) !! h) as [d|] eqn:Ev; [|by repeat constructor].
      split_and!; [constructor|constructor|]. split_and!; [constructor|done|].
      apply (gs_size p G) in Ev. unfold in_int64, MaxBlobSize in *. simpl. lia.
  - split_and!; [|constructor|done]. destruct (hasAnswer p ip h); simpl; by repeat constructor.
Qed.

(** Write out the length of a short document. *)
Ltac text_length :=
  unfold marshalResponse, responseJSON, incomingJSON, marshalRequest, requestJSON, omitEmpty, strMember,
    intMember, strings;
  cbn [rs_AvailableBlobs rs_BlobDataPaymentRate rs_IncomingBlob ib_Error ib_BlobHash ib_Length
       rq_RequestedBlobs rq_BlobDataPaymentRate rq_RequestedBlob app print map joinWith fst snd length];
  repeat (rewrite length_app; cbn [length]);
  repeat match goal with |- context [length (quote (go ?s))] =>
    let n := eval vm_compute in (length (quote (go s))) in change (length (quote (go s))) with n end.

Lemma response_short h e n :
  length h = BlobHashHexLength -> safe h -> safe e -> (length e <= 100)%nat ->
  (length (marshalResponse (mkResponse (Some []) [] (Some (mkIncoming e h n)))) <= 1000)%nat.
Proof.
  unfold BlobHashHexLength, BlobHashSize. intros Hl Hs Hse He.
  pose proof (Itoa_length n). pose proof (length_quote h Hs). pose proof (length_quote e Hse).
  destruct e as [|x e]; text_length; lia.
Qed.

Lemma answer_short p ip k :
  IsValid (hashOf k) = true ->
  Z.of_nat (length (marshalResponse (answerOf p ip k).1)) <= MaxRequestSize.
Proof.
  intros Hh. pose proof (IsValid_safe _ Hh) as Hs. pose proof (IsValid_length _ Hh) as Hl.
  unfold MaxRequestSize. destruct k as [h|h]; cbn [hashOf answerOf] in *.
  - unfold blobFrame. destruct (refusal p ip h) as [s|] eqn:Er.
    + apply refusal_short, andb_true_iff in Er as [E1 E2%Nat.leb_le].
      pose proof (response_short h (go (sentinel_text s)) 0 Hl Hs (safe_go _ E1) E2). cbn [fst]. lia.
    + destruct (store_view (sv_store p) !! h) as [d|].
      * pose proof (response_short h [] (Z.of_nat (length d)) Hl Hs (Forall_nil_2 _)) as H.
        cbn [fst length] in *. lia.
      * vm_compute. done.
  - cbn [fst]. unfold BlobHashHexLength, BlobHashSize in Hl. pose proof (length_quote h Hs).
    destruct (hasAnswer p ip h); text_length; lia.
Qed.

Lemma request_safe k : IsValid (hashOf k) = true -> safeRequest (requestOf k).
Proof.
  intros Hh%IsValid_safe. destruct k; split_and!; simpl in *; try done; by repeat constructor.
Qed.

Lemma request_short k :
  IsValid (hashOf k) = true ->
  Z.of_nat (length (marshalRequest FormatFloat (requestOf k))) <= MaxRequestSize.
Proof.
  intros Hh. pose proof (length_quote _ (IsValid_safe _ Hh)). pose proof (IsValid_length _ Hh) as Hl.
  unfold BlobHashHexLength, BlobHashSize in Hl. unfold MaxRequestSize.
  destruct k as [[|x h]|h]; cbn [hashOf requestOf] in *; [done| |]; text_length; lia.
Qed.

Lemma request_sent k : IsValid (hashOf k) = true -> sent (requestOf k) = requestOf k.
Proof. by destruct k. Qed.

(** ** The server answers the calls in order *)

Lemma serve_call p ip k c rest :
  goodServer p -> IsValid (hashOf k) = true -> cn_faults c = [] ->
  cn_in c = marshalRequest FormatFloat (requestOf k) ++ rest ->
  exists log, serveTurn emptyNil p (fun _ => Background) ip c
    = (Continue, mkConn rest (cn_end c) (cn_out c ++ frame (answerOf p ip k)) [], log).
Proof.
  intros G Hh Hf Hin.
  assert (Hread : serverReadNextMessage c = (Ok (marshalRequest FormatFloat (requestOf k)), setIn rest c)).
  { apply (server_reads_object _ [] rest c (wf_request FormatFloat _ (request_safe k Hh)) (request_short k Hh)
             (Forall_nil_2 _) Hin). }
  unfold serveTurn, SetDeadline, nextFault. rewrite Hf, Hread.
  cbn [setIn cn_faults]. rewrite Hf. unfold answerMessage, parseRequest.
  rewrite (proj2 (Z.ltb_ge _ _)) by by apply request_short.
  rewrite request_read by by apply request_safe. rewrite (request_sent k Hh).
  destruct (serves_call p ip k G Hh) as [n E]. rewrite E.
  unfold SetDeadline, sendResponse, Write, nextFault. cbn [setIn cn_faults cn_in cn_end cn_out].
  rewrite Hf. cbn [cn_faults]. destruct (answerOf p ip k), c as [ci ce co cf]. simpl in Hf. subst cf. by eexists.
Qed.

Lemma serve_calls p ip ks c fuel :
  goodServer p -> Forall (fun k => IsValid (hashOf k) = true) ks ->
  cn_faults c = [] -> cn_end c = ESent EOF ->
  cn_in c = concat (map (fun k => marshalRequest FormatFloat (requestOf k)) ks) ->
  (length ks < fuel)%nat ->
  exists log, serveLoop emptyNil fuel p (fun _ _ => Background) ip c
    = (Ok tt, mkConn [] (ESent EOF) (cn_out c ++ concat (map (fun k => frame (answerOf p ip k)) ks)) [], log).
Proof.
  intros G Hks. revert c fuel.
  induction Hks as [|k ks Hk Hks IH]; intros c [|fuel] Hf He Hin Hl; try (simpl in Hl; lia);
    cbn [serveLoop map concat] in *.
  - unfold serveTurn, SetDeadline, nextFault. rewrite Hf. unfold serverReadNextMessage. rewrite Hin.
    cbn [length skipBlanks]. unfold ReadByte. rewrite Hin. eexists. rewrite app_nil_r.
    destruct c; simpl in *. by subst.
  - destruct (serve_call p ip k c _ G Hk Hf Hin) as [log E].
    rewrite E.
    destruct (IH (mkConn (concat (map (fun k => marshalRequest FormatFloat (requestOf k)) ks))
      (cn_end c) (cn_out c ++ frame (answerOf p ip k)) []) fuel) as [log' E']; try done; [simpl in Hl; lia|].
    rewrite E'. cbn [cn_out]. rewrite <- app_assoc. by eexists.
Qed.

(** ** The client's side of a call *)

(** The blob as the client sees it: none is read for an empty one. *)
Definition seen (a : CompositeResponse * option bytes) : CompositeResponse * option bytes :=
  (a.1, match a.2 with Some [] => None | x => x end).

Lemma readBlob_answer p ip k rest e o :
  goodServer p -> IsValid (hashOf k) = true ->
  readBlobData (answerOf p ip k).1 (mkConn (default [] (answerOf p ip k).2 ++ rest) e o [])
  = (Ok (seen (answerOf p ip k)), mkConn rest e o []).
Proof.
  intros G Hh. destruct k as [h|h]; [|done]. cbn [answerOf]. unfold blobFrame.
  destruct (refusal p ip h) as [s|]; [done|].
  destruct (store_view (sv_store p) !! h) as [d|] eqn:Ev; [|done].
  apply (gs_size p G) in Ev. unfold readBlobData, seen. cbn [fst snd rs_IncomingBlob ib_Length default].
  destruct d as [|x d]; [done|]. rewrite (proj2 (Z.ltb_lt _ _)) by (simpl; lia).
  unfold SetDeadline, nextFault. cbn [cn_faults]. unfold maxAlloc, MaxBlobSize in *.
  rewrite (proj2 (Z.ltb_ge _ _)) by lia. unfold ReadFull. rewrite Nat2Z.id. cbn [cn_in setIn].
  change (id (x :: d)) with (x :: d).
  rewrite decide_True by (rewrite length_app; lia). by rewrite take_app_length, drop_app_length.
Qed.

Lemma exchange_answer p ip k dl t rest e o :
  goodServer p -> IsValid (hashOf k) = true ->
  exchange FormatFloat dl t Background (requestOf k) (mkConn (frame (answerOf p ip k) ++ rest) e o [])
  = (Ok (seen (answerOf p ip k)), mkConn rest e (o ++ marshalRequest FormatFloat (requestOf k)) []).
Proof.
  intros G Hh. unfold exchange.
  assert (Hd : forall c, cn_faults c = [] -> applyContextDeadline dl t c = (Ok tt, c)).
  { intros c Hc. unfold applyContextDeadline, SetDeadline, nextFault. rewrite Hc. by destruct dl, (0 <? t). }
  rewrite Hd by done. cbn [ctxErr Background ctx_after]. unfold sendRequest, SetDeadline, Write, nextFault.
  cbn [ctxErr Background ctx_after cn_faults cn_in cn_end cn_out].
  unfold readResponse, SetDeadline, nextFault. cbn [cn_faults]. unfold frame. rewrite <- app_assoc.
  set (c := mkConn _ e _ []). set (data := default [] (answerOf p ip k).2).
  assert (clientReadNextMessage c = (Ok (marshalResponse (answerOf p ip k).1), setIn (data ++ rest) c)) as ->.
  { apply (client_reads_object _ (data ++ rest) c (wf_response _ (answer_safe p ip k G Hh)) (answer_short p ip k Hh)).
    done. }
  rewrite response_read by by apply answer_safe. unfold c, setIn. cbn [cn_end cn_out cn_faults].
  unfold data. rewrite readBlob_answer by done. done.
Qed.

Lemma blobOf_answer p ip h :
  (let '(rs, d) := seen (blobFrame p ip h) in blobOf Background rs d) = blobAnswer p ip h.
Proof.
  unfold blobAnswer, blobFrame, refusal. destruct (isProtected p h); [by vm_compute|].
  destruct (denied p Background h ip); [by vm_compute|].
  destruct (store_view (sv_store p) !! h) as [[|x d]|]; [|by destruct emptyNil|by vm_compute].
  destruct emptyNil; [by vm_compute|done].
Qed.

(** ** Sessions *)

Inductive callResult := GotBlob (r : result bytes) | GotHas (r : result bool).

Definition runCall (dl : bool) (k : call) (client : PeerClient) : callResult * PeerClient :=
  match k with
  | CGet h => let '(r, client) := GetBlob FormatFloat dl Background h client in (GotBlob r, client)
  | CHas h => let '(r, client) := HasBlob FormatFloat dl Background h client in (GotHas r, client)
  end.

Fixpoint runCalls (dl : bool) (ks : list call) (client : PeerClient) : list callResult * PeerClient :=
  match ks with
  | [] => ([], client)
  | k :: ks => let '(r, client) := runCall dl k client in
               let '(rs, client) := runCalls dl ks client in (r :: rs, client)
  end.

(** What a call should return. *)
Definition expected p ip (k : call) : callResult :=
  match k with
  | CGet h => GotBlob (blobAnswer p ip h)
  | CHas h => GotHas (Ok (hasAnswer p ip h))
  end.

Lemma run_answer p ip k dl t rest e o :
  goodServer p -> IsValid (hashOf k) = true ->
  runCall dl k (mkClient (Some (mkConn (frame (answerOf p ip k) ++ rest) e o [])) true t)
  = (expected p ip k, mkClient (Some (mkConn rest e (o ++ marshalRequest FormatFloat (requestOf k)) [])) true t).
Proof.
  intros G Hh. pose proof (exchange_answer p ip k dl t rest e o G Hh) as E.
  pose proof (IsValid_length _ Hh) as Hl.
  destruct k as [h|h]; cbn [runCall expected hashOf requestOf] in *; unfold GetBlob, HasBlob, ask;
    cbn [pc_connected pc_conn pc_timeout negb]; rewrite Hl, Nat.eqb_refl; cbn [negb]; rewrite E;
    unfold setConn; cbn [pc_connected pc_timeout].
  - rewrite <- blobOf_answer. destruct (seen (answerOf p ip (CGet h))) as [rs d] eqn:Es.
    cbn [answerOf] in Es. rewrite Es. done.
  - cbn [answerOf seen fst snd mbind result_bind rs_AvailableBlobs default].
    destruct (hasAnswer p ip h); case_bool_decide as Hx; try done.
    + destruct Hx. by apply list_elem_of_singleton.
    + by apply not_elem_of_nil in Hx.
Qed.

Lemma run_calls p ip ks dl t e o :
  goodServer p -> Forall (fun k => IsValid (hashOf k) = true) ks ->
  runCalls dl ks (mkClient (Some (mkConn (concat (map (fun k => frame (answerOf p ip k)) ks)) e o [])) true t)
  = (map (expected p ip) ks,
     mkClient (Some (mkConn [] e (o ++ concat (map (fun k => marshalRequest FormatFloat (requestOf k)) ks)) []))
       true t).
Proof.
  intros G Hks. revert o. induction Hks as [|k ks Hk Hks IH]; intros o; cbn [map concat runCalls].
  - by rewrite app_nil_r.
  - rewrite run_answer by done. rewrite IH. by rewrite <- app_assoc.
Qed.

(** C8. A session between the two ends: when a client makes any calls for blobs and their
    availability, in any order, and the server reads the bytes the client writes and the
    client those the server writes, every call returns what the specification says:
    the stored blob, or the error that names why there is none; a blob that is protected
    or denied is never available.  The server reads all requests and returns, and the
    client is left with an empty stream. *)
Theorem peer_session p addr ks dl t e :
  goodServer p -> Forall (fun k => IsValid (hashOf k) = true) ks ->
  let requests := concat (map (fun k => marshalRequest FormatFloat (requestOf k)) ks) in
  exists written log,
    HandleConnection ParseAddr emptyNil p (fun _ _ => Background) addr (mkConn requests (ESent EOF) [] [])
    = (Ok tt, mkConn [] (ESent EOF) written [], log)
    /\ runCalls dl ks (mkClient (Some (mkConn written e [] [])) true t)
       = (map (expected p (getPeerIP ParseAddr addr)) ks, mkClient (Some (mkConn [] e requests [])) true t).
Proof.
  intros G Hks requests. set (ip := getPeerIP ParseAddr addr).
  exists (concat (map (fun k => frame (answerOf p ip k)) ks)).
  assert (Hlen : (length ks <= length requests)%nat).
  { subst requests. clear Hks. induction ks as [|k ks IH]; simpl; [lia|]. rewrite length_app. simpl. lia. }
  destruct (serve_calls p ip ks (mkConn requests (ESent EOF) [] []) (S (length requests)) G Hks) as [log E];
    try done; [lia|].
  exists log. split; [exact E|]. by rewrite run_calls.
Qed.
End Spec.
