(* ===== verification/PeerStream.v ===== *)
(** * A stream from encoder to peer and back

    The encoder's stream kept in a server's store is what a client's [GetStream] returns
    over the wire, and it decodes to the data it was made from; a response that announces
    a huge blob makes the client panic.  With concrete instances of the theorems on the
    peer protocol. *)
From stdpp Require Import base tactics list numbers strings gmap.
From Stdlib Require Import ZArith Lia Init.Byte Floats.SpecFloat.
From S2P Require Import Prelude GoStd Sha2 Aes Blob Multihash Json SdBlob SdBlobSpec Encoder EncoderSpec.
From S2P Require Import Errors Store Memory PeerMsg Wire PeerServer PeerClient PeerSpec.
Local Open Scope Z_scope.

Lemma HashHex_valid b : b <> [] -> IsValid (HashHex b) = true.
Proof.
  intros Hb. unfold HashHex. apply IsValid_spec. split; [|apply EncodeToString_lower].
  by rewrite length_EncodeToString, BlobHash_length.
Qed.

(** The hashes of the content blobs in the descriptor of a finished stream. *)
Lemma contents_hashes sd0 ens iv p :
  map (fun bi => EncodeToString (bi_BlobHash bi)) (removelast (sd_BlobInfos (SetProfile (finalSD sd0 ens iv) p)))
  = map (fun en => HashHex (en_blob en)) ens.
Proof.
  change (sd_BlobInfos (SetProfile (finalSD sd0 ens iv) p))
    with (map (withProfile p) (entryInfos ens ++ [infoOf (length ens) [] iv])).
  rewrite map_app. cbn [map]. rewrite removelast_last, map_map. cbn [withProfile bi_BlobHash].
  apply list_eq. intros i. rewrite !list_lookup_fmap. unfold entryInfos. rewrite list_lookup_imap.
  by destruct (ens !! i).
Qed.

Section Stream.
Context {L : CidLib} {St : Type} {B : BlobStore St} {BL : BlobStoreLaws St}.
Context {R : Rand} {RL : RandLaws R} {RT : RandTotal R} {OJ : OrderedJson} {OL : OrderedJsonLaws OJ}.
Context (ParseAddr : bytes -> option bytes) (emptyNil : bool) (FormatFloat : spec_float -> bytes).
Implicit Types (p : PeerServer St) (ip : bytes).

Definition quietCtx : nat -> Context * Context := fun _ => (Background, Background).

(** A blob that the server holds and gives to the peer. *)
Definition offers p ip (b : bytes) : Prop :=
  b <> [] /\ store_view (sv_store p) !! HashHex b = Some b
  /\ isProtected p (HashHex b) = false /\ denied p Background (HashHex b) ip = false.

Lemma offers_answer p ip b : offers p ip b -> blobAnswer emptyNil p ip (HashHex b) = Ok b.
Proof.
  intros (Hb & Hv & Hp & Hd). unfold blobAnswer. rewrite Hp, Hd, Hv. by destruct b.
Qed.

Abbreviation blobFrames p ip bs := (concat (map (fun b => frame (answerOf emptyNil p ip (CGet (HashHex b)))) bs)).
Abbreviation blobRequests bs := (concat (map (fun b => marshalRequest FormatFloat (requestOf (CGet (HashHex b)))) bs)).
Abbreviation connected inp e out t := (mkClient (Some (mkConn inp e out [])) true t).

Lemma requests_length bs : (length bs <= length (blobRequests bs))%nat.
Proof.
  induction bs as [|b bs IH]; cbn [map concat length]; [lia|]. rewrite length_app.
  change (length (marshalRequest FormatFloat (requestOf (CGet (HashHex b))))) with
    (S (length (tail (marshalRequest FormatFloat (requestOf (CGet (HashHex b))))))). lia.
Qed.

Lemma get_offered p ip b dl t rest e o :
  goodServer p -> offers p ip b ->
  GetBlob FormatFloat dl Background (HashHex b)
    (connected (frame (answerOf emptyNil p ip (CGet (HashHex b))) ++ rest) e o t)
  = (Ok b, connected rest e (o ++ marshalRequest FormatFloat (requestOf (CGet (HashHex b)))) t).
Proof.
  intros G Hb. pose proof (run_answer emptyNil FormatFloat p ip (CGet (HashHex b)) dl t rest e o G) as E.
  cbn [runCall expected hashOf] in E. rewrite (offers_answer p ip b Hb) in E.
  specialize (E (HashHex_valid b (proj1 Hb))).
  destruct (GetBlob _ _ _ _ _) as [r c]. by injection E as -> ->.
Qed.

Lemma get_content p ip bs dl t e o :
  goodServer p -> Forall (offers p ip) bs ->
  getContent FormatFloat dl quietCtx (map HashHex bs) (connected (blobFrames p ip bs) e o t)
  = (Ok bs, connected [] e (o ++ blobRequests bs) t).
Proof.
  intros G Hbs. revert o. induction Hbs as [|b bs Hb Hbs IH]; intros o; cbn [map concat getContent].
  - by rewrite app_nil_r.
  - cbn [quietCtx fst snd ctxErr Background ctx_after]. rewrite get_offered by done.
    change (fun i => quietCtx (S i)) with quietCtx. rewrite IH. cbn [mbind result_bind].
    by rewrite <- app_assoc.
Qed.

(** The stream of a source is fetched from any server that offers its blobs. *)
Lemma stream_fetched order src data key ivs k :
  registryOrder order -> sourceOf src data -> data <> [] ->
  length key = AES256KeySize \/ length key = AES128KeySize -> Forall (fun iv => length iv = 16%nat) ivs ->
  Z.of_nat (length data) < 2 ^ 63 - 1 ->
  exists enc sdText blobs enc',
    NewEncoderWithIVs src key ivs k = Ok enc
    /\ Encoder_Stream enc = (Ok (sdText :: blobs), enc')
    /\ Decode order (sdText :: blobs) = Ok data
    /\ forall p addr dl t e, goodServer p -> Forall (offers p (getPeerIP ParseAddr addr)) (sdText :: blobs) ->
        exists requests written log,
          HandleConnection ParseAddr emptyNil p (fun _ _ => Background) addr (mkConn requests (ESent EOF) [] [])
          = (Ok tt, mkConn [] (ESent EOF) written [], log)
          /\ GetStream FormatFloat order dl quietCtx (HashHex sdText) (connected written e [] t)
             = (Ok (sdText :: blobs), connected [] e requests t).
Proof.
  intros Ho Hs Hne Hk Hivs Hl.
  destruct (newEncoder_inv src key ivs k Hk Hivs) as [Hnew He].
  destruct (Stream_ok _ _ _ data He Hs plainType Hl) as (ens & iv & text & e' & Hrun); [done|].
  destruct Hrun as [Hst Htext _ Hg Hdata Hiv _ _ _ _]. rewrite <- Hdata in Hl.
  eexists _, text, (map en_blob ens), e'. split_and!; [exact Hnew|exact Hst| |].
  { rewrite <- Hdata. eapply Decode_ok; try done; [exact plainType|]. intros ->. by destruct Hne. }
  intros p addr dl t e G Hoff. set (ip := getPeerIP ParseAddr addr) in *.
  set (bs := text :: map en_blob ens) in *.
  exists (blobRequests bs), (blobFrames p ip bs).
  assert (Hvalid : Forall (fun c => IsValid (hashOf c) = true) (map (fun b => CGet (HashHex b)) bs)).
  { apply Forall_map. eapply Forall_impl; [exact Hoff|]. intros b [Hb _]. by apply HashHex_valid. }
  destruct (serve_calls emptyNil FormatFloat p ip _ (mkConn (blobRequests bs) (ESent EOF) [] [])
    (S (length (blobRequests bs))) G Hvalid) as [log E]; try done.
  { by rewrite map_map. }
  { rewrite length_map. pose proof (requests_length bs). lia. }
  exists log. rewrite map_map in E. split; [exact E|].
  unfold GetStream. subst bs. apply Forall_cons in Hoff as [Htxt Hens]. cbn [map concat].
  rewrite (IsValid_length _ (HashHex_valid text (proj1 Htxt))), Nat.eqb_refl. cbn [negb quietCtx snd].
  rewrite get_offered by done.
  set (sd0 := mkSDBlob [] [] StreamTypeLBRYFile key [] [] 0) in *.
  pose proof (FromBlob_ToBlob order (finalSD sd0 ens iv) Ho (done_wf sd0 ens iv plainType Hg Hl)) as Hf.
  rewrite Htext in Hf. cbn [mbind result_bind] in Hf. rewrite Hf, contents_hashes.
  change (fun i => quietCtx (S i)) with quietCtx.
  pose proof (get_content p ip (map en_blob ens) dl t e
    ([] ++ marshalRequest FormatFloat (requestOf (CGet (HashHex text)))) G Hens) as Hc.
  rewrite map_map in Hc. rewrite Hc. cbn [mbind result_bind]. by rewrite app_nil_l.
Qed.

(** From a file to a peer and back: the stream the encoder makes of a non-empty
    source, whose blobs a server holds and gives to the peer, is fetched whole with the
    hash of its descriptor: the server reads the client's requests and writes its
    responses, [GetStream] returns the descriptor and the blobs in order, and they decode
    to the data of the source. *)
Theorem publish_and_fetch order src data key ivs k p addr dl t e
    (Ho : registryOrder order) (Hs : sourceOf src data) (Hne : data <> [])
    (Hk : length key = AES256KeySize \/ length key = AES128KeySize)
    (Hivs : Forall (fun iv => length iv = 16%nat) ivs)
    (Hl : Z.of_nat (length data) < 2 ^ 63 - 1) (G : goodServer p) :
  exists enc sdText blobs enc',
    NewEncoderWithIVs src key ivs k = Ok enc
    /\ Encoder_Stream enc = (Ok (sdText :: blobs), enc')
    /\ Decode order (sdText :: blobs) = Ok data
    /\ (Forall (offers p (getPeerIP ParseAddr addr)) (sdText :: blobs) ->
        exists requests written log,
          HandleConnection ParseAddr emptyNil p (fun _ _ => Background) addr (mkConn requests (ESent EOF) [] [])
          = (Ok tt, mkConn [] (ESent EOF) written [], log)
          /\ GetStream FormatFloat order dl quietCtx (HashHex sdText) (connected written e [] t)
             = (Ok (sdText :: blobs), connected [] e requests t)).
Proof.
  destruct (stream_fetched order src data key ivs k Ho Hs Hne Hk Hivs Hl) as (enc & t0 & bs & enc' & H1 & H2 & H3 & H4).
  exists enc, t0, bs, enc'. split_and!; [exact H1|exact H2|exact H3|]. by apply H4.
Qed.
End Stream.

(** ** A peer that announces too much *)

Section Hostile.
Context (FormatFloat : spec_float -> bytes).

(** A response that announces a blob longer than the runtime can allocate makes the client
    panic, before a byte of the blob has arrived: the length is the peer's word, and it is
    not compared with the size a blob may have. *)
Theorem hostile_length_panics h n dl t e :
  IsValid h = true -> maxAlloc < n < 2 ^ 63 ->
  let announced := marshalResponse (mkResponse (Some []) [] (Some (mkIncoming [] h n))) in
  (GetBlob FormatFloat dl Background h (mkClient (Some (mkConn announced e [] [])) true t)).1
  = Panic "makeslice: len out of range".
Proof.
  intros Hh Hn. set (rs := mkResponse _ _ _). intros announced.
  pose proof (IsValid_safe h Hh) as Hs. pose proof (IsValid_length h Hh) as Hl.
  assert (safeResponse rs) as Hrs.
  { split_and!; [constructor|constructor|]. split_and!; [constructor|done|].
    unfold in_int64, maxAlloc in *. simpl. lia. }
  assert (Z.of_nat (length announced) <= MaxRequestSize) as Hlen.
  { pose proof (response_short h [] n Hl Hs (Forall_nil_2 _)) as H. unfold MaxRequestSize.
    cbn [length] in H. subst announced. fold rs in H. lia. }
  unfold GetBlob, ask. cbn [pc_connected pc_conn pc_timeout negb]. rewrite Hl, Nat.eqb_refl. cbn [negb].
  unfold exchange. assert (Hd : forall c, cn_faults c = [] -> applyContextDeadline dl t c = (Ok tt, c)).
  { intros c Hc. unfold applyContextDeadline, SetDeadline, nextFault. rewrite Hc. by destruct dl, (0 <? t). }
  rewrite Hd by done. cbn [ctxErr Background ctx_after]. unfold sendRequest, SetDeadline, Write, nextFault.
  cbn [ctxErr Background ctx_after cn_faults cn_in cn_end cn_out].
  unfold readResponse, SetDeadline, nextFault. cbn [cn_faults]. set (c := mkConn _ e _ []).
  assert (clientReadNextMessage c = (Ok announced, setIn [] c)) as ->.
  { apply (client_reads_object _ [] c (wf_response rs Hrs) Hlen). unfold c. cbn [cn_in]. by rewrite app_nil_r. }
  subst announced. rewrite response_read by done. unfold readBlobData. cbn [rs_IncomingBlob rs ib_Length].
  unfold maxAlloc in *. rewrite (proj2 (Z.ltb_lt _ _)) by lia. unfold SetDeadline, nextFault.
  cbn [setIn c cn_faults]. by rewrite (proj2 (Z.ltb_lt _ _)) by lia.
Qed.
End Hostile.

(** ** Concrete instances *)

(** A CID library under which only plain hashes are valid. *)
#[local] Instance plainCid : CidLib := {|
  cid_Raw := 85;
  NewCidV1 codec mh := mkCid 1 codec mh;
  cid_String _ := [];
  cid_Decode _ := Err (EMsg "selected encoding not supported");
  mh_Encode _ _ := Err (EMsg "unknown multihash code");
  mh_Decode _ := Err (EMsg "multihash too short")
|}.

Lemma memory_calm (p : PeerServer MemoryStore) : calmStore p.
Proof.
  assert (Hc : forall ctx k, calm (ctxErr ctx k)) by (intros ctx k w; apply ctxErr_no_panic).
  intros ctx h. split; (apply calm_bind; [apply Hc|intros _ _]); destruct (negb _); try done;
    (apply calm_bind; [apply Hc|intros _ _]).
  - by repeat case_match.
  - repeat case_match; try done; (apply calm_bind; [apply Hc|done]).
Qed.

Definition noRate (f : spec_float) : bytes := [].
Definition noAddr (b : bytes) : option bytes := None.

(** A server that holds the given blobs. *)
Definition holding (bs : list bytes) : PeerServer MemoryStore :=
  mkServer (mkMemoryStore (list_to_map (map (fun b => (HashHex b, b)) bs)) ∅) None None false DefaultTimeout.

Definition sampleBlob : bytes := go "a blob".

Lemma holding_good bs :
  Forall (fun b => Z.of_nat (length b) <= MaxBlobSize) bs -> goodServer (holding bs).
Proof.
  intros Hb. split; [done| |].
  - intros h Hh. by apply IsValid_validates.
  - intros h d Hd. simpl in Hd. rewrite memoryView_lookup in Hd. simpl in Hd.
    rewrite lookup_empty in Hd. destruct (_ !! h) as [d'|] eqn:E; [|done]. injection Hd as ->.
    apply elem_of_list_to_map_2, list_elem_of_fmap in E as (b & Eb & Hin). injection Eb as -> ->.
    rewrite Forall_forall in Hb. by apply Hb.
Qed.

Lemma server_discreet_witness :
  exists r c' log,
    HandleConnection noAddr false (holding [sampleBlob]) (fun _ _ => Background) (go "1.2.3.4:5")
      (mkConn (go "{}{") (ESent EOF) [] [None; Some (0%nat, EMsg "i/o timeout")]) = (r, c', log)
    /\ r = Ok tt.
Proof.
  destruct (HandleConnection noAddr false (holding [sampleBlob]) (fun _ _ => Background) (go "1.2.3.4:5")
      (mkConn (go "{}{") (ESent EOF) [] [None; Some (0%nat, EMsg "i/o timeout")])) as [[r c'] log] eqn:E.
  exists r, c', log. split; [done|].
  exact (proj1 (server_discreet noAddr false (holding [sampleBlob]) (fun _ _ => Background) (go "1.2.3.4:5")
    _ r c' log (memory_calm _) E)).
Defined.

Definition sampleCalls : list call :=
  [CHas (HashHex sampleBlob); CGet (HashHex sampleBlob); CGet (HashHex (go "another"))].

Lemma peer_session_witness :
  exists written log,
    HandleConnection noAddr false (holding [sampleBlob]) (fun _ _ => Background) (go "1.2.3.4:5")
      (mkConn (concat (map (fun k => marshalRequest noRate (requestOf k)) sampleCalls)) (ESent EOF) [] [])
    = (Ok tt, mkConn [] (ESent EOF) written [], log)
    /\ (runCalls noRate true sampleCalls (mkClient (Some (mkConn written (ESent EOF) [] [])) true 1)).1
       = [GotHas (Ok true); GotBlob (Ok sampleBlob); GotBlob (Err (ESent ErrBlobNotFound))].
Proof.
  destruct (peer_session noAddr false noRate (holding [sampleBlob]) (go "1.2.3.4:5") sampleCalls true 1 (ESent EOF))
    as (written & log & E1 & E2).
  - apply holding_good. by repeat constructor.
  - apply (bool_decide_eq_true_1 (Forall _ _)). vm_compute. reflexivity.
  - exists written, log. split; [exact E1|]. rewrite E2. vm_compute. reflexivity.
Defined.

(** The stream of a small file, with the instances of the encoder's examples. *)
#[local] Existing Instances exampleRand exampleRand_laws exampleRand_total exampleOrdered exampleOrdered_laws.

Definition madeStream : list bytes :=
  match NewEncoderWithIVs (bytesReader (go "hello")) sampleKey [sampleIV] 0 with
  | Ok enc => match (Encoder_Stream enc).1 with Ok s => s | _ => [] end
  | _ => []
  end.
Definition sampleStream : list bytes := Eval vm_compute in madeStream.

Lemma sampleStream_made : madeStream = sampleStream.
Proof. vm_compute. reflexivity. Qed.

Lemma holding_offers bs ip :
  NoDup (map HashHex bs) -> Forall (fun b => b <> []) bs -> Forall (offers (holding bs) ip) bs.
Proof.
  intros Hn Hb. rewrite Forall_forall in Hb |- *. intros b Hin. split_and!; [by apply Hb| |done|done].
  simpl. rewrite memoryView_lookup. simpl. erewrite elem_of_list_to_map_1; [done| |].
  - rewrite <- list_fmap_compose. exact Hn.
  - apply list_elem_of_fmap. by exists b.
Qed.

Lemma sampleStream_offered :
  Forall (offers (holding sampleStream) []) sampleStream
  /\ Forall (fun b => Z.of_nat (length b) <= MaxBlobSize) sampleStream.
Proof.
  split; [apply holding_offers|].
  - apply (bool_decide_eq_true_1 (NoDup _)). vm_compute. reflexivity.
  - by repeat constructor.
  - by repeat constructor.
Qed.

Lemma publish_and_fetch_witness :
  exists sdText requests written log,
    HandleConnection noAddr false (holding sampleStream) (fun _ _ => Background) (go "1.2.3.4:5")
      (mkConn requests (ESent EOF) [] []) = (Ok tt, mkConn [] (ESent EOF) written [], log)
    /\ (GetStream noRate [1; 0] true quietCtx (HashHex sdText)
          (mkClient (Some (mkConn written (ESent EOF) [] [])) true 1)).1 = Ok sampleStream
    /\ Decode [1; 0] sampleStream = Ok (go "hello").
Proof.
  destruct (publish_and_fetch noAddr false noRate [1; 0] (bytesReader (go "hello")) (go "hello") sampleKey [sampleIV] 0
    (holding sampleStream) (go "1.2.3.4:5") true 1 (ESent EOF) order_swap (bytesReader_source _)
    ltac:(discriminate) (or_introl eq_refl)
    (List.Forall_cons (fun iv => length iv = 16%nat) sampleIV [] eq_refl (List.Forall_nil _)) eq_refl
    (holding_good _ (proj2 sampleStream_offered))) as (enc & t & bs & enc' & H1 & H2 & H3 & H4).
  assert (E : sampleStream = t :: bs) by (rewrite <- sampleStream_made; unfold madeStream; rewrite H1, H2; reflexivity).
  destruct H4 as (rq & wr & log & H5 & H6).
  { rewrite <- E. exact (proj1 sampleStream_offered). }
  exists t, rq, wr, log. split; [exact H5|]. rewrite H6, E. split; [reflexivity|exact H3].
Defined.
