(* ===== verification/Reflector.v ===== *)
(** * protocol/reflector.go, reflector_client.go, reflector_messages.go

    The reflector protocol: a client uploads blobs to a server in lock step, each side
    waiting for the other after every message.  Connections deliver bursts, the bytes the
    other side has sent before it waits; [json.NewDecoder] takes a value off them and may
    take more of the burst with it, since every message is read with a new decoder. *)
From stdpp Require Import base tactics list numbers strings gmap.
From Stdlib Require Import ZArith Lia Init.Byte.
From S2P Require Import Prelude GoStd GoNet Blob Multihash Json SdBlob Errors Store PeerMsg PeerServer.
Local Open Scope Z_scope.

(** ** Connections *)

(** [bc_in]: the bursts that will arrive, and then reads fail with [bc_end]; [bc_out]: the
    writes; [bc_faults] as in [Wire]; [bc_extra]: how many bytes each decoder takes beyond
    its value, if the burst has so many. *)
Record BConn := mkBConn {
  bc_in : list bytes;
  bc_end : error;
  bc_out : list bytes;
  bc_faults : list (option (nat * error));
  bc_extra : list nat
}.

Definition setBursts (bs : list bytes) (extra : list nat) (c : BConn) : BConn :=
  mkBConn bs (bc_end c) (bc_out c) (bc_faults c) extra.

(** What is left of the burst in which the first [n] bytes end, and the bursts after it. *)
Fixpoint splitBursts (n : nat) (bs : list bytes) : bytes * list bytes :=
  match bs with
  | [] => ([], [])
  | b :: bs => if (n <=? length b)%nat then (drop n b, bs) else splitBursts (n - length b) bs
  end.
Definition joinBurst (r : bytes) (bs : list bytes) : list bytes :=
  match r with [] => bs | _ => r :: bs end.

(** [dec.Decode] of a new decoder, up to the value. *)
Definition DecodeValue (c : BConn) : result json * BConn :=
  let s := concat (bc_in c) in
  match parseValue (2 * length s + 2) maxNestingDepth s with
  | Some (v, r) =>
      let '(rest, bs) := splitBursts (length s - length r) (bc_in c) in
      (Ok v, setBursts (joinBurst (drop (hd 0%nat (bc_extra c)) rest) bs) (tail (bc_extra c)) c)
  | None =>
      (Err (if decide (skipSpace s = []) then bc_end c else EMsg "invalid JSON or unexpected EOF"),
       setBursts [] (tail (bc_extra c)) c)
  end.

(** [io.ReadFull] *)
Definition ReadFullBursts (n : nat) (c : BConn) : result bytes * BConn :=
  let s := concat (bc_in c) in
  if decide (n <= length s)%nat then
    let '(rest, bs) := splitBursts n (bc_in c) in
    (Ok (take n s), setBursts (joinBurst rest bs) (bc_extra c) c)
  else
    (Err (if decide (bc_end c = ESent EOF /\ s <> []) then ESent ErrUnexpectedEOF else bc_end c),
     setBursts [] (bc_extra c) c).

Definition nextFaultB (c : BConn) : option (nat * error) * BConn :=
  match bc_faults c with
  | [] => (None, c)
  | f :: fs => (f, mkBConn (bc_in c) (bc_end c) (bc_out c) fs (bc_extra c))
  end.
Definition SetDeadlineB (c : BConn) : result unit * BConn :=
  match nextFaultB c with (Some (_, e), c) => (Err e, c) | (None, c) => (Ok tt, c) end.
Definition putOut (b : bytes) (c : BConn) : BConn :=
  mkBConn (bc_in c) (bc_end c) (bc_out c ++ [b]) (bc_faults c) (bc_extra c).
Definition WriteB (b : bytes) (c : BConn) : result unit * BConn :=
  match nextFaultB c with
  | (Some (n, e), c) => (Err e, putOut (take n b) c)
  | (None, c) => (Ok tt, putOut b c)
  end.

(** ** Messages *)

Definition boolMember (name : string) (b : bool) : bytes * json := (quote (go name), JBool b).
Definition omitZero (name : string) (n : Z) : list (bytes * json) :=
  if n =? 0 then [] else [intMember name n].

Definition decodeBool (v : json) (cur : bool) : result bool :=
  match v with JNull => Ok cur | JBool b => Ok b | _ => typeError end.
(** A pointer to an integer. *)
Definition decodeIntPtr (v : json) (cur : option Z) : result (option Z) :=
  match v with JNull => Ok None | _ => n ← decodeInt v (default 0 cur); Ok (Some n) end.

Definition HandshakeRequestResponse := option Z.
Definition handshakeJSON (version : HandshakeRequestResponse) : json :=
  JObj [(quote (go "version"), match version with Some n => JNum (Itoa n) | None => JNull end)].
Definition decodeHandshake (v : json) : result HandshakeRequestResponse :=
  decodeStruct [go "version"] (fun _ v cur => decodeIntPtr v cur) v None.

Record SendBlobRequest := mkSend {
  sq_BlobHash : bytes; sq_BlobSize : Z; sq_SdBlobHash : bytes; sq_SdBlobSize : Z
}.
Definition sendBlobRequestJSON (q : SendBlobRequest) : json :=
  JObj (omitEmpty "blob_hash" (sq_BlobHash q) ++ omitZero "blob_size" (sq_BlobSize q)
        ++ omitEmpty "sd_blob_hash" (sq_SdBlobHash q) ++ omitZero "sd_blob_size" (sq_SdBlobSize q)).
Definition sendNames : list bytes :=
  [go "blob_hash"; go "blob_size"; go "sd_blob_hash"; go "sd_blob_size"].
Definition setSendField (name : bytes) (v : json) (q : SendBlobRequest) : result SendBlobRequest :=
  if decide (name = go "blob_hash") then
    s ← decodeString v (sq_BlobHash q); Ok (mkSend s (sq_BlobSize q) (sq_SdBlobHash q) (sq_SdBlobSize q))
  else if decide (name = go "blob_size") then
    n ← decodeInt v (sq_BlobSize q); Ok (mkSend (sq_BlobHash q) n (sq_SdBlobHash q) (sq_SdBlobSize q))
  else if decide (name = go "sd_blob_hash") then
    s ← decodeString v (sq_SdBlobHash q); Ok (mkSend (sq_BlobHash q) (sq_BlobSize q) s (sq_SdBlobSize q))
  else if decide (name = go "sd_blob_size") then
    n ← decodeInt v (sq_SdBlobSize q); Ok (mkSend (sq_BlobHash q) (sq_BlobSize q) (sq_SdBlobHash q) n)
  else Ok q.
Definition decodeSendBlobRequest (v : json) : result SendBlobRequest :=
  decodeStruct sendNames setSendField v (mkSend [] 0 [] 0).

(** The four answers: whether to send and whether it was received, for a blob and for a
    descriptor, with the blobs that are missing. *)
Definition sendBlobResponseJSON (b : bool) : json := JObj [boolMember "send_blob" b].
Definition sendSDBlobResponseJSON (b : bool) (needed : list bytes) : json :=
  JObj (boolMember "send_sd_blob" b
        :: match needed with [] => [] | _ => [(quote (go "needed_blobs"), strings needed)] end).
Definition transferResponseJSON (isSdBlob b : bool) : json :=
  JObj [boolMember (if isSdBlob then "received_sd_blob" else "received_blob") b].

(** Reading one boolean of an answer; the missing blobs are checked and dropped. *)
Definition decodeFlag (name : string) (v : json) : result bool :=
  decodeStruct [go name] (fun _ v cur => decodeBool v cur) v false.
Definition decodeSendSD (v : json) : result bool :=
  r ← decodeStruct [go "send_sd_blob"; go "needed_blobs"]
        (fun n v (cur : bool * option (slice bytes)) =>
           if decide (n = go "send_sd_blob") then b ← decodeBool v cur.1; Ok (b, cur.2)
           else s ← decodeStrings v cur.2; Ok (cur.1, s)) v (false, None);
  Ok r.1.

(** ** The server *)

Section Server.
Context {L : CidLib} {St : Type} {B : BlobStore St}.

(** The store may also decide what it wants ([Blocklister]) and know the blobs a stream
    still lacks ([NeededBlobChecker]). *)
Record ReflectorServer := mkReflector {
  rf_accessControl : option AccessControl;
  rf_Wants : option (bytes -> St -> result bool);
  rf_Missing : option (bytes -> St -> result (list bytes));
  rf_notifier : bool;
  rf_connectionTimeout : Z
}.

Definition Second : Z := 1000000000.
Definition DefaultReflectorTimeout : Z := 30 * Second.
Definition ReflectorServerOption := ReflectorServer -> ReflectorServer.
Definition applyReflectorOptions (server : ReflectorServer) (options : list ReflectorServerOption)
    : ReflectorServer := foldl (fun s option => option s) server options.
Definition NewReflectorServer wants missing (options : list ReflectorServerOption) : ReflectorServer :=
  applyReflectorOptions (mkReflector None wants missing false DefaultReflectorTimeout) options.
Definition WithReflectorAccessControl (a : option AccessControl) : ReflectorServerOption := fun s =>
  mkReflector a (rf_Wants s) (rf_Missing s) (rf_notifier s) (rf_connectionTimeout s).
Definition WithReflectorTimeout (t : Z) : ReflectorServerOption := fun s =>
  mkReflector (rf_accessControl s) (rf_Wants s) (rf_Missing s) (rf_notifier s) t.
Definition WithReflectorNotifier (n : bool) : ReflectorServerOption := fun s =>
  mkReflector (rf_accessControl s) (rf_Wants s) (rf_Missing s) n (rf_connectionTimeout s).

Definition ValidateBlobHash (hash : bytes) : bool :=
  if negb (length hash =? BlobHashHexLength)%nat then false else ValidateHash hash.

(** Divisions truncate; a size is at most [MaxBlobSize] where it is used. *)
Definition BaseTimeout : Z := 10 * Second.
Definition TimeoutPerMiB : Z := 5 * Second.
Definition MiB : Z := 1024 * 1024.
Definition calculateTimeout (blobSize : Z) : Z :=
  let additionalTime := (Z.quot blobSize MiB) *i TimeoutPerMiB in
  let timeout := BaseTimeout +i additionalTime in
  if 5 * 60 * Second <? timeout then 5 * 60 * Second else timeout.

(** *** Reading and writing; [errors.Join(E, err)] is kept as [E] around [err]. *)

Definition readJSON {A} (dec : json -> result A) (c : BConn) : result A * BConn :=
  match SetDeadlineB c with
  | (Ok _, c) =>
      match DecodeValue c with
      | (Ok v, c) => (wrap_err "failed to decode JSON" (dec v), c)
      | (Err e, c) => (Err (EWrap "failed to decode JSON" e), c)
      | (Panic w, c) => (Panic w, c)
      end
  | (Err e, c) => (Err (EWrap "failed to set read deadline" e), c)
  | (Panic w, c) => (Panic w, c)
  end.

Definition writeData (data : bytes) (c : BConn) : result unit * BConn :=
  match SetDeadlineB c with
  | (Ok _, c) => let '(r, c) := WriteB data c in (wrap_err "failed to write data" r, c)
  | (r, c) => (wrap_err "failed to set write deadline" r, c)
  end.
Definition writeJSON (v : json) (c : BConn) : result unit * BConn := writeData (print [] [] v) c.

Definition doHandshake (c : BConn) : result unit * BConn :=
  match readJSON decodeHandshake c with
  | (Ok None, c) => (Err (EMsg "handshake is missing protocol version"), c)
  | (Ok (Some version), c) =>
      if negb (version =? 0) && negb (version =? 1) then (Err (EMsg "protocol version not supported"), c)
      else writeJSON (handshakeJSON (Some version)) c
  | (Err e, c) => (Err e, c)
  | (Panic w, c) => (Panic w, c)
  end.

(** The size, the hash and whether it is a descriptor. *)
Definition checkBlobRequest (request : SendBlobRequest) : result (Z * bytes * bool) :=
  let isSdBlob := negb (bool_decide (sq_SdBlobHash request = [])) in
  let blobSize := if isSdBlob then sq_SdBlobSize request else sq_BlobSize request in
  let blobHash := if isSdBlob then sq_SdBlobHash request else sq_BlobHash request in
  if bool_decide (blobHash = []) then Err (EMsg "blob hash is empty") else
  if negb (ValidateBlobHash blobHash) then Err (EWrap "invalid blob request" (ESent ErrInvalidData)) else
  if MaxBlobSize <? blobSize then Err (EMsg "blob must be at most %d bytes") else
  if blobSize <=? 0 then
    if blobSize =? 0 then Err (EMsg "0-byte blob received") else Err (EMsg "negative blob size received")
  else Ok (blobSize, blobHash, isSdBlob).
Definition readBlobRequest (c : BConn) : result (Z * bytes * bool) * BConn :=
  match readJSON decodeSendBlobRequest c with
  | (Ok request, c) => (checkBlobRequest request, c)
  | (Err e, c) => (Err (EWrap "invalid blob request" e), c)
  | (Panic w, c) => (Panic w, c)
  end.

Definition shouldAcceptBlob (r : ReflectorServer) (ctx : Context) (blobHash : bytes) (isSdBlob : bool)
    (peerIP : bytes) (s : St) : result (bool * list bytes) :=
  if match rf_accessControl r with Some allow => negb (allow ctx blobHash peerIP) | None => false end
  then Ok (false, []) else
  '(wantsBlob, decidedByBlocklister) ←
    match rf_Wants r with
    | Some wants => w ← wrap_err "failed to check blob existence" (wants blobHash s); Ok (w, true)
    | None => has ← wrap_err "failed to check blob existence" (Has ctx blobHash s); Ok (negb has, false)
    end;
  if isSdBlob && negb wantsBlob then
    match rf_Missing r with
    | Some missing => needed ← wrap_err "failed to check needed blobs" (missing blobHash s); Ok (wantsBlob, needed)
    | None => Ok (if decidedByBlocklister : bool then wantsBlob else true, [])
    end
  else Ok (wantsBlob, []).

Definition sendBlobResponse (shouldSend isSdBlob : bool) (needed : list bytes) (c : BConn)
    : result unit * BConn :=
  writeData (print [] [] (if isSdBlob then sendSDBlobResponseJSON shouldSend needed
                          else sendBlobResponseJSON shouldSend)) c.
Definition sendTransferResponse (receivedBlob isSdBlob : bool) (c : BConn) : result unit * BConn :=
  writeData (print [] [] (transferResponseJSON isSdBlob receivedBlob)) c.

Definition readRawBlob (blobSize : Z) (c : BConn) : result bytes * BConn :=
  match SetDeadlineB c with
  | (Ok _, c) =>
      let '(r, c) := ReadFullBursts (Z.to_nat blobSize) c in (wrap_err "failed to read blob data" r, c)
  | (Err e, c) => (Err (EWrap "failed to set read deadline" e), c)
  | (Panic w, c) => (Panic w, c)
  end.

Definition calculateBlobHash (blobData : bytes) : bytes := Hash blobData.

(** *** A blob *)

(** What the server stores, tells the notifier and reports as errors. *)
Inductive storeOp := SPut (isSdBlob : bool) (hash data : bytes).
Record RLog := mkRLog { rl_ops : list storeOp; rl_notes : list Notification; rl_errors : list error }.
Definition noLog : RLog := mkRLog [] [] [].
Definition addRLog (l l' : RLog) : RLog :=
  mkRLog (rl_ops l ++ rl_ops l') (rl_notes l ++ rl_notes l') (rl_errors l ++ rl_errors l').

Definition storeBlob (ctx : Context) (isSdBlob : bool) (hash data : bytes) (s : St) : result unit * St :=
  if isSdBlob then PutSD ctx hash data s else Put ctx hash data s.

(** The transfer of a blob the server wants; [ctx] is the context at the store. *)
Definition acceptBlob (r : ReflectorServer) (ctx : Context) (blobSize : Z) (blobHash : bytes) (isSdBlob : bool)
    (c : BConn) (s : St) : result unit * BConn * St * RLog :=
  match readRawBlob blobSize c with
  | (Err e, c) => (Err (EWrap "error reading blob %s: %w" e), (sendTransferResponse false isSdBlob c).2, s, noLog)
  | (Panic w, c) => (Panic w, c, s, noLog)
  | (Ok blobData, c) =>
      if negb (bool_decide (blobHash = calculateBlobHash blobData))
      then (Err (EMsg "hash of received blob data does not match hash from send request"),
            (sendTransferResponse false isSdBlob c).2, s, noLog)
      else
        let ops := [SPut isSdBlob blobHash blobData] in
        match storeBlob ctx isSdBlob blobHash blobData s with
        | (Err e, s) => (Err (EWrap "failed to store blob" (EWrap "failed to store blob %s: %w" e)), c, s, mkRLog ops [] [])
        | (Panic w, s) => (Panic w, c, s, mkRLog ops [] [])
        | (Ok _, s) =>
            let notes := NotifyBlob (rf_notifier r) NOTIFY_BLOB_ADDED blobHash in
            let '(res, c) := sendTransferResponse true isSdBlob c in (res, c, s, mkRLog ops notes [])
        end
  end.

(** [ctx.1] is the context when the store is asked, [ctx.2] when it stores. *)
Definition receiveBlob (r : ReflectorServer) (ctx : Context * Context) (addr : bytes) (c : BConn) (s : St)
    : result unit * BConn * St * RLog :=
  match readBlobRequest c with
  | (Err e, c) => (Err e, c, s, noLog)
  | (Panic w, c) => (Panic w, c, s, noLog)
  | (Ok (blobSize, blobHash, isSdBlob), c) =>
      match SplitHostPort addr with
      | Err e => (Err (EWrap "failed to parse peer address" e), c, s, noLog)
      | Panic w => (Panic w, c, s, noLog)
      | Ok (peerIP, _) =>
          match shouldAcceptBlob r ctx.1 blobHash isSdBlob peerIP s with
          | Err e => (Err e, c, s, noLog)
          | Panic w => (Panic w, c, s, noLog)
          | Ok (shouldSend, neededBlobs) =>
              match sendBlobResponse shouldSend isSdBlob neededBlobs c with
              | (Ok _, c) =>
                  if negb shouldSend then (Ok tt, c, s, noLog)
                  else acceptBlob r ctx.2 blobSize blobHash isSdBlob c s
              | (res, c) => (res, c, s, noLog)
              end
          end
      end
  end.

(** *** The connection *)

(** [ctx k] are the contexts of the [k]-th blob; every blob takes a byte of the input. *)
Fixpoint receiveLoop (fuel : nat) (r : ReflectorServer) (ctx : nat -> Context * Context) (addr : bytes)
    (c : BConn) (s : St) : result unit * BConn * St * RLog :=
  match fuel with
  | O => (Panic "out of fuel", c, s, noLog)
  | S fuel =>
      match receiveBlob r (ctx O) addr c s with
      | (Ok _, c, s, log) =>
          let '(res, c, s, log') := receiveLoop fuel r (fun k => ctx (S k)) addr c s in
          (res, c, s, addRLog log log')
      | (Err e, c, s, log) =>
          if decide (e = ESent EOF) then (Ok tt, c, s, log)
          else (Ok tt, c, s, addRLog log (mkRLog [] [] [e]))
      | (Panic w, c, s, log) => (Panic w, c, s, log)
      end
  end.

Definition HandleReflector (r : ReflectorServer) (ctx : nat -> Context * Context) (addr : bytes)
    (c : BConn) (s : St) : result unit * BConn * St * RLog :=
  match doHandshake c with
  | (Ok _, c) => receiveLoop (S (length (concat (bc_in c)))) r ctx addr c s
  | (Err e, c) => (Ok tt, c, s, mkRLog [] [] [e])
  | (Panic w, c) => (Panic w, c, s, noLog)
  end.
End Server.
Arguments ReflectorServer : clear implicits.

(** ** The client *)

Record ReflectorClient := mkRClient { rc_conn : option BConn; rc_version : Z; rc_timeout : Z }.
Definition ReflectorClientOption := ReflectorClient -> ReflectorClient.
Definition NewReflectorClient (options : list ReflectorClientOption) : ReflectorClient :=
  foldl (fun client option => option client) (mkRClient None 1 (30 * Second)) options.
Definition WithReflectorClientTimeout (t : Z) : ReflectorClientOption := fun c =>
  mkRClient (rc_conn c) (rc_version c) t.
Definition WithReflectorClientVersion (v : Z) : ReflectorClientOption := fun c =>
  mkRClient (rc_conn c) v (rc_timeout c).

Definition clientWriteJSON (v : json) (c : BConn) : result unit * BConn :=
  match SetDeadlineB c with
  | (Ok _, c) => WriteB (print [] [] v) c
  | (r, c) => (r, c)
  end.
Definition clientReadJSON {A} (dec : json -> result A) (c : BConn) : result A * BConn :=
  match SetDeadlineB c with
  | (Ok _, c) =>
      match DecodeValue c with
      | (Ok v, c) => (dec v, c)
      | (Err e, c) => (Err e, c)
      | (Panic w, c) => (Panic w, c)
      end
  | (Err e, c) => (Err e, c)
  | (Panic w, c) => (Panic w, c)
  end.

Definition clientHandshake (version : Z) (c : BConn) : result unit * BConn :=
  match clientWriteJSON (handshakeJSON (Some version)) c with
  | (Ok _, c) =>
      match clientReadJSON decodeHandshake c with
      | (Ok None, c) => (Err (EMsg "invalid handshake response: missing version"), c)
      | (Ok (Some v), c) =>
          (if v =? version then Ok tt else Err (EMsg "protocol version mismatch: server=%d client=%d"), c)
      | (Err e, c) => (Err e, c)
      | (Panic w, c) => (Panic w, c)
      end
  | (r, c) => (r, c)
  end.

(** [dial] is what dialling returns. *)
Definition ConnectReflector (dial : result BConn) (client : ReflectorClient) : result unit * ReflectorClient :=
  match rc_conn client with
  | Some _ => (Err (EMsg "connection already established"), client)
  | None =>
      match dial with
      | Err e => (Err (EWrap "failed to connect: %w" e), client)
      | Panic w => (Panic w, client)
      | Ok conn =>
          let set conn := mkRClient conn (rc_version client) (rc_timeout client) in
          match clientHandshake (rc_version client) conn with
          | (Ok _, conn) => (Ok tt, set (Some conn))
          | (Err e, conn) => (Err (EWrap "handshake failed: %w" e), set None)
          | (Panic w, conn) => (Panic w, set (Some conn))
          end
      end
  end.

Definition CloseReflector (closed : result unit) (client : ReflectorClient) : result unit * ReflectorClient :=
  match rc_conn client with
  | None => (Ok tt, client)
  | Some _ => (closed, mkRClient None (rc_version client) (rc_timeout client))
  end.

Definition sendBlobRequest (hash : bytes) (size : Z) (isSdBlob : bool) (c : BConn) : result unit * BConn :=
  clientWriteJSON (sendBlobRequestJSON (if isSdBlob then mkSend [] 0 hash size else mkSend hash size [] 0)) c.

Definition readBlobResponse (isSdBlob : bool) (c : BConn) : result bool * BConn :=
  match clientReadJSON (if isSdBlob then decodeSendSD else decodeFlag "send_blob") c with
  | (Err e, c) => (Err (if error_is e EOF then ESent ErrServerValidation else e), c)
  | (r, c) => (r, c)
  end.

Definition sendBlobData (data : bytes) (c : BConn) : result unit * BConn :=
  match SetDeadlineB c with
  | (Ok _, c) => WriteB data c
  | (r, c) => (r, c)
  end.

Definition readTransferResponse (isSdBlob : bool) (c : BConn) : result bool * BConn :=
  clientReadJSON (decodeFlag (if isSdBlob then "received_sd_blob" else "received_blob")) c.

(** On a connection. *)
Definition upload (hash data : bytes) (isSdBlob : bool) (c : BConn) : result unit * BConn :=
  match sendBlobRequest hash (Z.of_nat (length data)) isSdBlob c with
  | (Ok _, c) =>
      match readBlobResponse isSdBlob c with
      | (Ok true, c) =>
          match sendBlobData data c with
          | (Ok _, c) =>
              match readTransferResponse isSdBlob c with
              | (Ok true, c) => (Ok tt, c)
              | (Ok false, c) => (Err (EMsg "server failed to receive blob"), c)
              | (Err e, c) => (Err (EWrap "failed to read transfer response: %w" e), c)
              | (Panic w, c) => (Panic w, c)
              end
          | (r, c) => (wrap_err "failed to send blob data: %w" r, c)
          end
      | (Ok false, c) => (Err (ESent ErrBlobExists), c)
      | (Err e, c) => (Err (EWrap "failed to read blob response: %w" e), c)
      | (Panic w, c) => (Panic w, c)
      end
  | (r, c) => (wrap_err "failed to send blob request: %w" r, c)
  end.

Definition sendBlob (hash data : bytes) (isSdBlob : bool) (client : ReflectorClient)
    : result unit * ReflectorClient :=
  match rc_conn client with
  | None => (Err (EMsg "not connected"), client)
  | Some c =>
      if MaxBlobSize <? Z.of_nat (length data) then (Err (EMsg "blob exceeds maximum size of %d bytes"), client)
      else let '(r, c) := upload hash data isSdBlob c in
           (r, mkRClient (Some c) (rc_version client) (rc_timeout client))
  end.
Definition SendBlob (hash data : bytes) := sendBlob hash data false.
Definition SendSDBlob (hash data : bytes) := sendBlob hash data true.
