(* ===== verification/ReflectorSpec.v ===== *)
(** * What the reflector protocol does

    Whatever a client sends, the server stores nothing but blobs under their own hash;
    uploads between the two ends return what the server's store decides, and leave every
    uploaded blob stored; a client that closes the connection is reported as an error. *)
From stdpp Require Import base tactics list numbers strings gmap.
From Stdlib Require Import ZArith Lia Init.Byte.
From S2P Require Import Prelude GoStd GoNet Sha2 Blob Multihash Json JsonFrame SdBlob SdBlobSpec Errors Store Memory.
From S2P Require Import PeerMsg PeerServer PeerSpec Reflector.
Local Open Scope Z_scope.

(** ** Every connection *)

Section Any.
Context {L : CidLib} {St : Type} {B : BlobStore St}.
Implicit Types (r : ReflectorServer St) (s : St).

Definition verified (op : storeOp) : Prop :=
  let '(SPut _ hash data) := op in
  hash = Hash data /\ 0 < Z.of_nat (length data) <= MaxBlobSize.

(** The store after a list of operations, each under its context. *)
Fixpoint applyStores (ops : list (Context * storeOp)) s : St :=
  match ops with
  | [] => s
  | (ctx, SPut isSd hash data) :: ops => applyStores ops (storeBlob ctx isSd hash data s).2
  end.

Lemma applyStores_app l l' s : applyStores (l ++ l') s = applyStores l' (applyStores l s).
Proof. revert s. induction l as [|[ctx [isSd h d]] l IH]; intros s; simpl; auto. Qed.

(** A part of a run: what it stores is verified, and is all it does to the store. *)
Definition storesOnly s (x : result unit * BConn * St * RLog) : Prop :=
  let '(_, _, s', log) := x in
  Forall verified (rl_ops log)
  /\ exists ctxs, length ctxs = length (rl_ops log) /\ s' = applyStores (zip ctxs (rl_ops log)) s.

Lemma storesNothing s res c : storesOnly s (res, c, s, noLog).
Proof. split; [constructor|]. by exists []. Qed.

Lemma storesOnly_more s res c s' log res' c' s'' log' :
  storesOnly s (res, c, s', log) -> storesOnly s' (res', c', s'', log') ->
  storesOnly s (res', c', s'', addRLog log log').
Proof.
  intros [Hv (cs & Hl & ->)] [Hv' (cs' & Hl' & ->)]. split; simpl; [by apply Forall_app|].
  exists (cs ++ cs'). cbn [addRLog rl_ops]. split; [by rewrite !length_app, Hl, Hl'|].
  rewrite zip_with_app by done. by rewrite applyStores_app.
Qed.

Lemma ReadFull_length n c d c' : ReadFullBursts n c = (Ok d, c') -> length d = n.
Proof.
  unfold ReadFullBursts. case_decide; [|done]. destruct (splitBursts _ _). intros [= <- <-].
  rewrite length_take. lia.
Qed.

Lemma acceptBlob_stores r ctx size h isSd c s :
  0 < size <= MaxBlobSize -> storesOnly s (acceptBlob r ctx size h isSd c s).
Proof.
  intros Hs. unfold acceptBlob, readRawBlob.
  destruct (SetDeadlineB c) as [[u|e|w] c1]; try apply storesNothing.
  destruct (ReadFullBursts (Z.to_nat size) c1) as [[d|e|w] c2] eqn:E; cbn [wrap_err]; try apply storesNothing.
  case_bool_decide as Hh; cbn [negb]; [|apply storesNothing].
  apply ReadFull_length in E.
  assert (Hv : Forall verified [SPut isSd h d]).
  { constructor; [|constructor]. split; [done|]. rewrite E. lia. }
  assert (Hx : forall res c' notes s',
    s' = (storeBlob ctx isSd h d s).2 -> storesOnly s (res, c', s', mkRLog [SPut isSd h d] notes [])).
  { intros res c' notes s' ->. split; [done|]. by exists [ctx]. }
  destruct (storeBlob ctx isSd h d s) as [[u'|e|w] s']; try by apply Hx.
  destruct (sendTransferResponse true isSd c2) as [res c3]. by apply Hx.
Qed.

Lemma checkBlobRequest_bounds q size h isSd :
  checkBlobRequest q = Ok (size, h, isSd) -> 0 < size <= MaxBlobSize /\ ValidateBlobHash h = true.
Proof.
  unfold checkBlobRequest. intros H. case_bool_decide; [done|].
  destruct (ValidateBlobHash _) eqn:Hv in H; [|done]. cbn [negb] in H.
  destruct (Z.ltb_spec MaxBlobSize (if negb (bool_decide (sq_SdBlobHash q = [])) then sq_SdBlobSize q else sq_BlobSize q));
    [done|].
  destruct (Z.leb_spec (if negb (bool_decide (sq_SdBlobHash q = [])) then sq_SdBlobSize q else sq_BlobSize q) 0).
  { by destruct (_ =? 0). }
  injection H as <- <- <-. auto.
Qed.

Lemma receiveBlob_stores r ctx addr c s : storesOnly s (receiveBlob r ctx addr c s).
Proof.
  unfold receiveBlob, readBlobRequest.
  destruct (readJSON decodeSendBlobRequest c) as [[q|e|w] c1]; try apply storesNothing.
  destruct (checkBlobRequest q) as [[[size h] isSd]|e|w] eqn:E; try apply storesNothing.
  apply checkBlobRequest_bounds in E as [Hs _].
  destruct (SplitHostPort addr) as [[ip p]|e|w]; try apply storesNothing.
  destruct (shouldAcceptBlob r ctx.1 h isSd ip s) as [[want needed]|e|w]; try apply storesNothing.
  destruct (sendBlobResponse want isSd needed c1) as [[u|e|w] c2]; try apply storesNothing.
  destruct (negb want); [apply storesNothing|by apply acceptBlob_stores].
Qed.

(** *** Progress *)

Definition pending (c : BConn) : nat := length (concat (bc_in c)).

Lemma splitBursts_length n bs :
  (n <= length (concat bs))%nat ->
  (length (splitBursts n bs).1 + length (concat (splitBursts n bs).2) + n = length (concat bs))%nat.
Proof.
  revert n. induction bs as [|b bs IH]; intros n; simpl; [lia|]. rewrite length_app. intros Hn.
  destruct (Nat.leb_spec n (length b)); simpl; [rewrite length_drop; lia|].
  specialize (IH (n - length b)%nat ltac:(lia)). lia.
Qed.

Lemma joinBurst_length b bs : length (concat (joinBurst b bs)) = (length b + length (concat bs))%nat.
Proof. destruct b; simpl; [done|]. by rewrite length_app. Qed.

Lemma DecodeValue_pending c :
  (pending (DecodeValue c).2 <= pending c)%nat
  /\ (forall v, (DecodeValue c).1 = Ok v -> (pending (DecodeValue c).2 < pending c)%nat)
  /\ calm (DecodeValue c).1.
Proof.
  unfold DecodeValue, pending. destruct (parseValue _ _ _) as [[v r]|] eqn:E; [|simpl; split_and!; [lia|done|done]].
  apply parse_consumes in E. destruct (splitBursts _ _) as [b bs] eqn:Eb. simpl.
  pose proof (splitBursts_length (length (concat (bc_in c)) - length r) (bc_in c) ltac:(lia)) as H.
  rewrite Eb in H. simpl in H. rewrite joinBurst_length, length_drop.
  split_and!; [lia|intros; lia|done].
Qed.

Lemma ReadFull_pending n c : (pending (ReadFullBursts n c).2 <= pending c)%nat /\ calm (ReadFullBursts n c).1.
Proof.
  unfold ReadFullBursts, pending. case_decide; [|simpl; split; [lia|done]].
  destruct (splitBursts _ _) as [b bs] eqn:Eb. simpl. split; [|done].
  pose proof (splitBursts_length n (bc_in c) ltac:(done)) as H2. rewrite Eb in H2. simpl in H2.
  rewrite joinBurst_length. lia.
Qed.

Lemma SetDeadlineB_pending c : pending (SetDeadlineB c).2 = pending c /\ calm (SetDeadlineB c).1.
Proof. unfold SetDeadlineB, nextFaultB. by destruct (bc_faults c) as [|[[??]|] ?]. Qed.

Lemma WriteB_pending b c : pending (WriteB b c).2 = pending c /\ calm (WriteB b c).1.
Proof. unfold WriteB, nextFaultB. by destruct (bc_faults c) as [|[[??]|] ?]. Qed.

Lemma calm_wrap {A} m (x : result A) : calm x -> calm (wrap_err m x).
Proof. intros H w. specialize (H w). by destruct x. Qed.

Lemma writeData_pending b c : pending (writeData b c).2 = pending c /\ calm (writeData b c).1.
Proof.
  unfold writeData. destruct (SetDeadlineB_pending c) as [E Hc].
  destruct (SetDeadlineB c) as [[u|e|w] c1]; simpl in *; [|done|by destruct (Hc w)].
  destruct (WriteB_pending b c1) as [E2 Hc2]. destruct (WriteB b c1) as [x c2]. simpl in *.
  split; [congruence|by apply calm_wrap].
Qed.

Lemma readJSON_pending {A} (dec : json -> result A) c :
  (forall v, calm (dec v)) ->
  (pending (readJSON dec c).2 <= pending c)%nat
  /\ (forall v, (readJSON dec c).1 = Ok v -> (pending (readJSON dec c).2 < pending c)%nat)
  /\ calm (readJSON dec c).1.
Proof.
  intros Hd. unfold readJSON. destruct (SetDeadlineB_pending c) as [E Hc].
  destruct (SetDeadlineB c) as [[u|e|w] c1]; simpl in *; [|split_and!; [lia|done|done]|by destruct (Hc w)].
  destruct (DecodeValue_pending c1) as (E1 & E2 & E3).
  destruct (DecodeValue c1) as [[v|e|w] c2]; simpl in *; [|split_and!; [lia|done|done]|by destruct (E3 w)].
  specialize (E2 v eq_refl). split_and!; [lia|intros; lia|by apply calm_wrap].
Qed.

Lemma calm_setSendField n v q : calm (setSendField n v q).
Proof.
  unfold setSendField. repeat case_decide; try done; (apply calm_bind; [|done]);
    apply calm_decodeString || apply calm_decodeInt.
Qed.

Lemma calm_decodeSend v : calm (decodeSendBlobRequest v).
Proof. apply calm_decodeStruct, calm_setSendField. Qed.

Lemma calm_decodeHandshake v : calm (decodeHandshake v).
Proof.
  apply calm_decodeStruct. intros _ v' cur. destruct v'; try done; apply calm_bind; done || apply calm_decodeInt.
Qed.

(** A store whose operations return, and so do the tests it offers. *)
Record calmReflector r : Prop := {
  cr_has ctx h s : calm (Has (S := St) ctx h s);
  cr_put ctx h d s : calm (Put (S := St) ctx h d s).1;
  cr_putSD ctx h d s : calm (PutSD (S := St) ctx h d s).1;
  cr_wants f h s : rf_Wants r = Some f -> calm (f h s);
  cr_missing f h s : rf_Missing r = Some f -> calm (f h s)
}.

Lemma calm_shouldAccept r ctx h isSd ip s : calmReflector r -> calm (shouldAcceptBlob r ctx h isSd ip s).
Proof.
  intros Hr. unfold shouldAcceptBlob. case_match; [done|].
  apply calm_bind; [|intros [want dec] _].
  - destruct (rf_Wants r) as [f|] eqn:E; (apply calm_bind; [|done]); apply calm_wrap.
    + by eapply cr_wants.
    + apply (cr_has r Hr).
  - destruct (isSd && negb want); [|done]. destruct (rf_Missing r) as [f|] eqn:E; [|done].
    apply calm_bind; [|done]. apply calm_wrap. by eapply cr_missing.
Qed.

Lemma calm_SplitHostPort b : calm (SplitHostPort b).
Proof. unfold SplitHostPort. repeat case_match; done. Qed.

Lemma doHandshake_calm c : calm (doHandshake c).1.
Proof.
  unfold doHandshake. destruct (readJSON_pending decodeHandshake c calm_decodeHandshake) as (_ & _ & Hc).
  destruct (readJSON decodeHandshake c) as [[[v|]|e|w] c1]; simpl in Hc; [|done|done|by destruct (Hc w)].
  destruct (_ && _); [done|]. apply writeData_pending.
Qed.

Lemma checkBlobRequest_calm q : calm (checkBlobRequest q).
Proof. unfold checkBlobRequest. repeat case_match; done. Qed.

Lemma acceptBlob_pending r ctx size h isSd c s :
  calmReflector r ->
  (pending (acceptBlob r ctx size h isSd c s).1.1.2 <= pending c)%nat
  /\ calm (acceptBlob r ctx size h isSd c s).1.1.1.
Proof.
  intros Hr. unfold acceptBlob, readRawBlob.
  destruct (SetDeadlineB_pending c) as [E Hc].
  assert (Hs : forall b c', pending (sendTransferResponse b isSd c').2 = pending c'
    /\ calm (sendTransferResponse b isSd c').1) by (intros; apply writeData_pending).
  destruct (SetDeadlineB c) as [[u|e|w] c1]; cbn [fst snd] in *; [| |by destruct (Hc w)].
  2: { split; [|done]. destruct (Hs false c1) as [-> _]. lia. }
  destruct (ReadFull_pending (Z.to_nat size) c1) as [E2 Hc2].
  destruct (ReadFullBursts (Z.to_nat size) c1) as [[d|e|w] c2]; cbn [fst snd wrap_err] in *;
    [| |by destruct (Hc2 w)].
  2: { split; [|done]. destruct (Hs false c2) as [-> _]. lia. }
  destruct (negb _); cbn [fst snd]; [split; [|done]; destruct (Hs false c2) as [-> _]; lia|].
  assert (Hst : calm (storeBlob ctx isSd h d s).1)
    by (unfold storeBlob; destruct isSd; [apply (cr_putSD r Hr)|apply (cr_put r Hr)]).
  destruct (storeBlob ctx isSd h d s) as [[u'|e|w] s']; cbn [fst snd] in *; [|split; [lia|done]|by destruct (Hst w)].
  destruct (Hs true c2) as [E3 Hc3]. destruct (sendTransferResponse true isSd c2) as [res c3]. simpl in *.
  split; [lia|done].
Qed.

Lemma receiveBlob_pending r ctx addr c s :
  calmReflector r ->
  calm (receiveBlob r ctx addr c s).1.1.1
  /\ (forall u, (receiveBlob r ctx addr c s).1.1.1 = Ok u ->
       (pending (receiveBlob r ctx addr c s).1.1.2 < pending c)%nat).
Proof.
  intros Hr. unfold receiveBlob, readBlobRequest.
  destruct (readJSON_pending decodeSendBlobRequest c calm_decodeSend) as (_ & E2 & E3).
  destruct (readJSON decodeSendBlobRequest c) as [[q|e|w] c1]; simpl in E2, E3; [|done|by destruct (E3 w)].
  specialize (E2 q eq_refl). pose proof (checkBlobRequest_calm q) as Hq.
  destruct (checkBlobRequest q) as [[[size h] isSd]|e|w]; [|done|by destruct (Hq w)].
  pose proof (calm_SplitHostPort addr) as Ha.
  destruct (SplitHostPort addr) as [[ip p]|e|w]; [|done|by destruct (Ha w)].
  pose proof (calm_shouldAccept r ctx.1 h isSd ip s Hr) as Hw.
  destruct (shouldAcceptBlob r ctx.1 h isSd ip s) as [[want needed]|e|w]; [|done|by destruct (Hw w)].
  unfold sendBlobResponse. set (b := print _ _ _). destruct (writeData_pending b c1) as [E4 Hc4].
  destruct (writeData b c1) as [[u|e|w] c2]; simpl in E4, Hc4; [|done|by destruct (Hc4 w)].
  destruct (negb want); [simpl; split; [done|intros; lia]|].
  destruct (acceptBlob_pending r ctx.2 size h isSd c2 s Hr) as [E5 Hc5]. split; [done|]. intros; lia.
Qed.

Lemma receiveLoop_stores fuel r ctx addr c s : storesOnly s (receiveLoop fuel r ctx addr c s).
Proof.
  revert ctx c s. induction fuel as [|fuel IH]; intros ctx c s; [apply storesNothing|]. cbn [receiveLoop].
  pose proof (receiveBlob_stores r (ctx 0%nat) addr c s) as Hs.
  destruct (receiveBlob r (ctx 0%nat) addr c s) as [[[[u|e|w] c1] s1] log1]; [|case_decide; [done|]|done].
  - specialize (IH (fun k => ctx (S k)) c1 s1).
    destruct (receiveLoop fuel r (fun k => ctx (S k)) addr c1 s1) as [[[res c2] s2] log2].
    exact (storesOnly_more _ _ _ _ _ _ _ _ _ Hs IH).
  - destruct Hs as [Hv Hx]. split; cbn [addRLog rl_ops]; by rewrite app_nil_r.
Qed.

Lemma receiveLoop_returns fuel r ctx addr c s :
  calmReflector r -> (pending c < fuel)%nat -> (receiveLoop fuel r ctx addr c s).1.1.1 = Ok tt.
Proof.
  intros Hr. revert ctx c s. induction fuel as [|fuel IH]; intros ctx c s Hf; [lia|]. cbn [receiveLoop].
  destruct (receiveBlob_pending r (ctx 0%nat) addr c s Hr) as [Hc Hp].
  destruct (receiveBlob r (ctx 0%nat) addr c s) as [[[[u|e|w] c1] s1] log1]; simpl in Hc, Hp.
  - specialize (IH (fun k => ctx (S k)) c1 s1). specialize (Hp u eq_refl).
    destruct (receiveLoop fuel r (fun k => ctx (S k)) addr c1 s1) as [[[res c2] s2] log2]. apply IH. lia.
  - by case_decide.
  - by destruct (Hc w).
Qed.

(** C10. Whatever the bursts, the faults and the contexts of a connection, and whatever a
    client sends on it: every blob the reflector server puts into its store is non-empty,
    at most [MaxBlobSize] long and stored under the hash of its data; the store afterwards
    is the store before with just those operations; and the handler returns, if the calls
    into the store do. *)
Theorem reflector_stores_only_verified r ctx addr c s :
  let '(res, _, s', log) := HandleReflector r ctx addr c s in
  Forall verified (rl_ops log)
  /\ (exists ctxs, length ctxs = length (rl_ops log) /\ s' = applyStores (zip ctxs (rl_ops log)) s)
  /\ (calmReflector r -> res = Ok tt).
Proof.
  assert (Hs : storesOnly s (HandleReflector r ctx addr c s)).
  { unfold HandleReflector. destruct (doHandshake c) as [[u|e|w] c1]; [apply receiveLoop_stores| |apply storesNothing].
    split; [constructor|]. by exists []. }
  assert (Hr : calmReflector r -> (HandleReflector r ctx addr c s).1.1.1 = Ok tt).
  { intros Hr. unfold HandleReflector. pose proof (doHandshake_calm c) as Hc.
    destruct (doHandshake c) as [[u|e|w] c1]; [|done|by destruct (Hc w)].
    apply receiveLoop_returns; [done|]. unfold pending. lia. }
  destruct (HandleReflector r ctx addr c s) as [[[res c'] s'] log]. destruct Hs. auto.
Qed.

(** ** The end of a connection *)

(** No step ends with [io.EOF] itself: the errors of the connection are joined to others. *)
Definition notEOF {A} (x : result A) : Prop := x <> Err (ESent EOF).

Lemma notEOF_wrap {A} m (x : result A) : notEOF (wrap_err m x).
Proof. by destruct x. Qed.

Lemma notEOF_writeData b c : notEOF (writeData b c).1.
Proof.
  unfold writeData. destruct (SetDeadlineB c) as [[u|e|w] c1]; [|done..].
  destruct (WriteB b c1) as [x c2]. apply notEOF_wrap.
Qed.

Lemma notEOF_bind {A C} (x : result A) (f : A -> result C) :
  notEOF x -> (forall a, notEOF (f a)) -> notEOF (x ≫= f).
Proof. intros Hx Hf. destruct x as [a|e|w]; [apply Hf|by intros [= ->]|done]. Qed.

Lemma notEOF_shouldAccept r ctx h isSd ip s : notEOF (shouldAcceptBlob r ctx h isSd ip s).
Proof.
  unfold shouldAcceptBlob. case_match; [done|]. apply notEOF_bind.
  - destruct (rf_Wants r); (apply notEOF_bind; [apply notEOF_wrap|done]).
  - intros [want dec]. destruct (isSd && negb want); [|done]. destruct (rf_Missing r); [|done].
    apply notEOF_bind; [apply notEOF_wrap|done].
Qed.

Lemma receiveBlob_notEOF r ctx addr c s : notEOF (receiveBlob r ctx addr c s).1.1.1.
Proof.
  unfold receiveBlob, readBlobRequest.
  destruct (readJSON decodeSendBlobRequest c) as [[q|e|w] c1]; [|done..].
  assert (Hq : notEOF (checkBlobRequest q)) by (unfold checkBlobRequest; by repeat case_match).
  destruct (checkBlobRequest q) as [[[size h] isSd]|e|w]; [|intros [= ->]; by apply Hq|done].
  destruct (SplitHostPort addr) as [[ip p]|e|w]; [|done..].
  pose proof (notEOF_shouldAccept r ctx.1 h isSd ip s) as Hw.
  destruct (shouldAcceptBlob r ctx.1 h isSd ip s) as [[want needed]|e|w]; [|intros [= ->]; by apply Hw|done].
  unfold sendBlobResponse. set (b := print _ _ _). pose proof (notEOF_writeData b c1) as Hb.
  destruct (writeData b c1) as [[u|e|w] c2]; [|intros [= ->]; by apply Hb|done].
  destruct (negb want); [done|]. unfold acceptBlob.
  destruct (readRawBlob size c2) as [[d|e|w] c3]; [|done..]. destruct (negb _); [done|].
  destruct (storeBlob ctx.2 isSd h d s) as [[u'|e|w] s']; [|done..].
  unfold sendTransferResponse. set (b' := print _ _ _). pose proof (notEOF_writeData b' c3) as Hb'.
  by destruct (writeData b' c3).
Qed.

Lemma doHandshake_notEOF c : notEOF (doHandshake c).1.
Proof.
  unfold doHandshake, readJSON. destruct (SetDeadlineB c) as [[u|e|w] c1]; [|done..].
  destruct (DecodeValue c1) as [[v|e|w] c2]; [|done..].
  destruct (decodeHandshake v) as [[n|]|e|w]; cbn [wrap_err]; [|done..].
  destruct (_ && _); [done|]. apply notEOF_writeData.
Qed.

Lemma receiveBlob_quiet r ctx addr c s : rl_errors (receiveBlob r ctx addr c s).2 = [].
Proof.
  unfold receiveBlob, readBlobRequest, acceptBlob, sendTransferResponse.
  repeat first [case_match; try done | progress cbn [fst snd]].
Qed.

Lemma receiveLoop_reports fuel r ctx addr c s :
  let '(res, _, _, log) := receiveLoop fuel r ctx addr c s in
  res = Ok tt -> exists e, rl_errors log = [e] /\ e <> ESent EOF.
Proof.
  revert ctx c s. induction fuel as [|fuel IH]; intros ctx c s; [done|]. cbn [receiveLoop].
  pose proof (receiveBlob_notEOF r (ctx 0%nat) addr c s) as Hn.
  pose proof (receiveBlob_quiet r (ctx 0%nat) addr c s) as Hq.
  destruct (receiveBlob r (ctx 0%nat) addr c s) as [[[[u|e|w] c1] s1] log1]; simpl in Hn, Hq; [|case_decide as He|done].
  - specialize (IH (fun k => ctx (S k)) c1 s1).
    destruct (receiveLoop fuel r (fun k => ctx (S k)) addr c1 s1) as [[[res c2] s2] log2].
    cbn [addRLog rl_errors]. by rewrite Hq.
  - subst e. by destruct (Hn eq_refl).
  - intros _. exists e. cbn [addRLog rl_errors]. by rewrite Hq.
Qed.

(** A connection is never closed normally: whenever the handler returns it has
    reported exactly one error, and that error is not [io.EOF], whose test in the loop is
    meant to tell that the client has closed the connection. *)
Theorem reflector_always_reports r ctx addr c s res c' s' log :
  HandleReflector r ctx addr c s = (res, c', s', log) -> res = Ok tt -> exists e, rl_errors log = [e] /\ e <> ESent EOF.
Proof.
  unfold HandleReflector. intros H ->. destruct (doHandshake c) as [[u|e|w] c1] eqn:Eh; [| |done].
  - pose proof (receiveLoop_reports (S (length (concat (bc_in c1)))) r ctx addr c1 s) as Hr. rewrite H in Hr. auto.
  - injection H as <- <- <-. exists e. split; [done|]. intros ->.
    apply (doHandshake_notEOF c). by rewrite Eh.
Qed.
End Any.
