(* ===== verification/ReflectorUpload.v ===== *)
(** * Uploads between the two ends of the reflector protocol

    A client that uploads blobs and descriptors to a server, each side reading what the
    other one writes: the answers are those of an abstract server that keeps a map, and
    every uploaded blob ends up stored. *)
From stdpp Require Import base tactics list numbers strings gmap.
From Stdlib Require Import ZArith Lia Init.Byte.
From S2P Require Import Prelude GoStd GoNet Sha2 Blob Multihash Json JsonFrame SdBlob SdBlobSpec Errors Store Memory.
From S2P Require Import PeerMsg PeerServer PeerSpec Reflector ReflectorSpec.
Local Open Scope Z_scope.

(** ** Messages *)

Lemma DecodeValue_burst v bs e o fs xs :
  isNumber v = false -> wfJson maxNestingDepth v ->
  DecodeValue (mkBConn (print [] [] v :: bs) e o fs xs) = (Ok v, mkBConn bs e o fs (tail xs)).
Proof.
  intros Hn Hw. unfold DecodeValue. cbn [bc_in concat bc_extra]. set (p := print [] [] v).
  assert (E : parseValue (2 * length (p ++ concat bs) + 2) maxNestingDepth p = Some (v, [])).
  { pose proof (print_parses [] [] (Forall_nil_2 _) (Forall_nil_2 _) v maxNestingDepth
      (2 * length (p ++ concat bs) + 2)%nat [] [] Hw (Forall_nil_2 _) I) as E.
    cbn [app] in E. rewrite app_nil_r in E. apply E. subst p. rewrite length_app. lia. }
  rewrite (proj1 (parse_more _) _ _ _ _ (concat bs) E (or_intror Hn)). cbn [app].
  rewrite length_app, Nat.add_sub. cbn [splitBursts]. rewrite Nat.leb_refl, drop_all, drop_nil. done.
Qed.

Lemma ReadFull_burst d bs e o fs xs :
  ReadFullBursts (length d) (mkBConn (d :: bs) e o fs xs) = (Ok d, mkBConn bs e o fs xs).
Proof.
  unfold ReadFullBursts. cbn [bc_in concat bc_extra]. rewrite decide_True by (rewrite length_app; lia).
  cbn [splitBursts]. rewrite Nat.leb_refl, drop_all. by rewrite take_app_length.
Qed.

Lemma wf_member d name v : safeAscii name = true -> wfJson d v -> wfStr (quote (go name)) /\ wfJson d v.
Proof. intros Hn Hv. split; [by apply wfStr_quote, safeAscii_safe|done]. Qed.

Lemma wf_object ms : Forall (fun m => wfStr m.1 /\ wfJson (maxNestingDepth - 1) m.2) ms -> wfJson maxNestingDepth (JObj ms).
Proof. by constructor. Qed.

Lemma wf_int d n : in_int64 n -> wfJson d (JNum (Itoa n)).
Proof. intros. constructor. by apply wfNum_Itoa. Qed.

Lemma wf_omitZero d name n :
  safeAscii name = true -> in_int64 n -> Forall (fun m => wfStr m.1 /\ wfJson d m.2) (omitZero name n).
Proof.
  intros Hn Hi. unfold omitZero. destruct (n =? 0); constructor; [|constructor].
  by apply wf_member, wf_int.
Qed.

Definition safeSend (q : SendBlobRequest) : Prop :=
  safe (sq_BlobHash q) /\ safe (sq_SdBlobHash q) /\ in_int64 (sq_BlobSize q) /\ in_int64 (sq_SdBlobSize q).

Lemma wf_send q : safeSend q -> wfJson maxNestingDepth (sendBlobRequestJSON q).
Proof.
  intros (Ha & Hb & Hc & Hd). apply wf_object.
  repeat (apply Forall_app; split); by apply wf_omitEmpty || by apply wf_omitZero.
Qed.

(** The member of an [omitempty] number whose field is still zero. *)
Lemma decode_omitZero {R} names (set : bytes -> json -> R -> result R) name n ms r r' :
  plainName name = true -> bool_decide (go name ∈ names) = true -> 
  (n = 0 -> r' = r) -> set (go name) (JNum (Itoa n)) r = Ok r' ->
  decodeMembers names set (omitZero name n ++ ms) r = decodeMembers names set ms r'.
Proof.
  intros Hp Hn H0 H. unfold omitZero. destruct (Z.eqb_spec n 0); [by rewrite H0|].
  cbn [app]. by apply decode_known.
Qed.

Lemma decode_send q : safeSend q -> decodeSendBlobRequest (sendBlobRequestJSON q) = Ok q.
Proof.
  destruct q as [h n sh sn]. intros (Ha & Hb & Hc & Hd). simpl in *.
  unfold decodeSendBlobRequest, sendBlobRequestJSON, decodeStruct. cbn [sq_BlobHash sq_BlobSize sq_SdBlobHash sq_SdBlobSize].
  rewrite (decode_omitEmpty _ _ "blob_hash" h _ _ (mkSend h 0 [] 0)); [|done|done|done|by intros ->|].
  2: { unfold setSendField. rewrite decide_True by done. by rewrite decodeString_safe. }
  rewrite (decode_omitZero _ _ "blob_size" n _ _ (mkSend h n [] 0)); [|done|done|by intros ->|].
  2: { unfold setSendField. rewrite decide_False, decide_True by done. by rewrite decodeInt_Itoa. }
  rewrite (decode_omitEmpty _ _ "sd_blob_hash" sh _ _ (mkSend h n sh 0)); [|done|done|done|by intros ->|].
  2: { unfold setSendField. rewrite !decide_False, decide_True by done. by rewrite decodeString_safe. }
  rewrite <- (app_nil_r (omitZero _ _)).
  rewrite (decode_omitZero _ _ "sd_blob_size" sn _ _ (mkSend h n sh sn)); [done|done|done|by intros ->|].
  unfold setSendField. rewrite !decide_False, decide_True by done. by rewrite decodeInt_Itoa.
Qed.

Lemma wf_handshake n : in_int64 n -> wfJson maxNestingDepth (handshakeJSON (Some n)).
Proof. intros. apply wf_object. constructor; [|constructor]. by apply wf_member, wf_int. Qed.

Lemma decode_handshake n : in_int64 n -> decodeHandshake (handshakeJSON (Some n)) = Ok (Some n).
Proof.
  intros. unfold decodeHandshake, handshakeJSON, decodeStruct.
  rewrite (decode_known _ _ "version" _ _ _ (Some n)); [done|done|done|].
  unfold decodeIntPtr. by rewrite decodeInt_Itoa.
Qed.

(** An answer with one boolean. *)
Lemma wf_flag name b : safeAscii name = true -> wfJson maxNestingDepth (JObj [boolMember name b]).
Proof. intros. apply wf_object. constructor; [|constructor]. apply wf_member; [done|constructor]. Qed.

Lemma decode_flag name b : plainName name = true -> decodeFlag name (JObj [boolMember name b]) = Ok b.
Proof.
  intros Hp. unfold decodeFlag, decodeStruct, boolMember. rewrite (decode_known _ _ name _ _ _ b); [done|done| |done].
  apply bool_decide_eq_true_2. set_solver.
Qed.

Lemma decode_sendSD b : decodeSendSD (sendSDBlobResponseJSON b []) = Ok b.
Proof.
  unfold decodeSendSD, sendSDBlobResponseJSON, decodeStruct, boolMember.
  rewrite (decode_known _ _ "send_sd_blob" _ _ _ (b, None)); done.
Qed.

(** ** Bursts on a connection without faults *)

Lemma SetDeadline_quiet bs e o xs : SetDeadlineB (mkBConn bs e o [] xs) = (Ok tt, mkBConn bs e o [] xs).
Proof. done. Qed.

Lemma readJSON_burst {A} (dec : json -> result A) v a bs e o xs :
  isNumber v = false -> wfJson maxNestingDepth v -> dec v = Ok a ->
  readJSON dec (mkBConn (print [] [] v :: bs) e o [] xs) = (Ok a, mkBConn bs e o [] (tail xs)).
Proof. intros Hn Hw E. unfold readJSON. rewrite SetDeadline_quiet, DecodeValue_burst by done. by rewrite E. Qed.

Lemma clientReadJSON_burst {A} (dec : json -> result A) v a bs e o xs :
  isNumber v = false -> wfJson maxNestingDepth v -> dec v = Ok a ->
  clientReadJSON dec (mkBConn (print [] [] v :: bs) e o [] xs) = (Ok a, mkBConn bs e o [] (tail xs)).
Proof. intros Hn Hw E. unfold clientReadJSON. rewrite SetDeadline_quiet, DecodeValue_burst by done. by rewrite E. Qed.

Lemma writeData_quiet b bs e o xs :
  writeData b (mkBConn bs e o [] xs) = (Ok tt, mkBConn bs e (o ++ [b]) [] xs).
Proof. done. Qed.

(** ** The server *)

Section Uploads.
Context {L : CidLib} {St : Type} {B : BlobStore St} {BL : BlobStoreLaws St}.
Implicit Types (r : ReflectorServer St) (s : St).

(** An upload: whether it is a descriptor, and its data. *)
Abbreviation Upload := (bool * bytes)%type.

(** The abstract server: a descriptor is always taken, a blob if there is none. *)
Definition wanted s (u : Upload) : bool := u.1 || negb (bool_decide (is_Some (store_view s !! Hash u.2))).
Definition taken s (u : Upload) : St :=
  if wanted s u then (storeBlob Background u.1 (Hash u.2) u.2 s).2 else s.
Definition outcome s (u : Upload) : result unit := if wanted s u then Ok tt else Err (ESent ErrBlobExists).
Fixpoint uploads s (us : list Upload) : list (result unit) * St :=
  match us with [] => ([], s) | u :: us => let '(rs, s') := uploads (taken s u) us in (outcome s u :: rs, s') end.

(** What each side sends for an upload. *)
Definition requestFor (u : Upload) : SendBlobRequest :=
  let n := Z.of_nat (length u.2) in if u.1 then mkSend [] 0 (Hash u.2) n else mkSend (Hash u.2) n [] 0.
Definition answerFor s (u : Upload) : json :=
  if u.1 then sendSDBlobResponseJSON (wanted s u) [] else sendBlobResponseJSON (wanted s u).
Definition clientSends s (u : Upload) : list bytes :=
  print [] [] (sendBlobRequestJSON (requestFor u)) :: (if wanted s u then [u.2] else []).
Definition serverSends s (u : Upload) : list bytes :=
  print [] [] (answerFor s u)
  :: (if wanted s u then [print [] [] (transferResponseJSON u.1 true)] else []).
Fixpoint sendAll (f : St -> Upload -> list bytes) s (us : list Upload) : list bytes :=
  match us with [] => [] | u :: us => f s u ++ sendAll f (taken s u) us end.

Definition uploadable (u : Upload) : Prop :=
  0 < Z.of_nat (length u.2) <= MaxBlobSize /\ store_admits u.2 = true.

(** A server that decides by what its store holds, for a client it allows. *)
Record plainReflector r (ip : bytes) : Prop := {
  pr_wants : rf_Wants r = None;
  pr_missing : rf_Missing r = None;
  pr_allowed allow h : rf_accessControl r = Some allow -> allow Background h ip = true;
  pr_accepts h : IsValid h = true -> store_accepts h = true
}.

Lemma ValidateBlobHash_Hash d : ValidateBlobHash (Hash d) = true.
Proof.
  unfold ValidateBlobHash. rewrite (IsValid_length _ (Hash_valid d)). cbn [negb Nat.eqb].
  by rewrite Nat.eqb_refl; apply IsValid_validates, Hash_valid.
Qed.

Lemma safe_request u : uploadable u -> safeSend (requestFor u).
Proof.
  intros [Hn _]. pose proof (IsValid_safe _ (Hash_valid u.2)) as Hs.
  assert (in_int64 (Z.of_nat (length u.2))) by (unfold MaxBlobSize, in_int64 in *; lia).
  unfold requestFor, safeSend. destruct u.1; simpl; split_and!; done || apply Forall_nil_2.
Qed.

Lemma check_request u :
  uploadable u -> checkBlobRequest (requestFor u) = Ok (Z.of_nat (length u.2), Hash u.2, u.1).
Proof.
  intros [Hn _]. unfold checkBlobRequest, requestFor.
  assert (Hne : Hash u.2 <> []).
  { intros E. pose proof (IsValid_length _ (Hash_valid u.2)) as Hl. by rewrite E in Hl. }
  destruct u.1; simpl; rewrite !(bool_decide_eq_false_2 (Hash u.2 = [])) by done; cbn [negb];
    rewrite ValidateBlobHash_Hash; cbn [negb];
    rewrite (proj2 (Z.ltb_ge _ _)), (proj2 (Z.leb_gt _ _)) by lia; done.
Qed.

(** The store takes what the abstract server wants. *)
Lemma store_taken r ip s u :
  plainReflector r ip -> store_wf s -> uploadable u ->
  (storeBlob Background u.1 (Hash u.2) u.2 s).1 = Ok tt
  /\ store_wf (taken s u)
  /\ is_Some (store_view (taken s u) !! Hash u.2)
  /\ (forall h, is_Some (store_view s !! h) -> is_Some (store_view (taken s u) !! h)).
Proof.
  intros P Hw [_ Ha]. pose proof (pr_accepts _ _ P _ (Hash_valid u.2)) as Hh.
  unfold taken, wanted, storeBlob. destruct u as [[] d]; simpl in *.
  - pose proof (store_putSD_ok s _ d Hw Hh Ha) as E. pose proof (store_putSD s _ d Background Hw Hh) as H.
    destruct (PutSD Background (Hash d) d s) as [res s']. simpl in E. subst res.
    rewrite decide_True in H by done. destruct H as (Hw' & Hne & Hd & _). split_and!; [done..|].
    intros h Hx. destruct (decide (h = Hash d)) as [->|Hn]; [done|]. by rewrite Hne.
  - pose proof (store_put_ok s _ d Hw Hh Ha) as E. pose proof (store_put s _ d Background Hw Hh) as H.
    destruct (Put Background (Hash d) d s) as [res s']. simpl in E. subst res.
    rewrite decide_True in H by done. destruct H as (Hw' & Hv). split; [done|].
    case_bool_decide as Hx; simpl; [done|]. split_and!; [done|rewrite Hv, lookup_insert_eq; by eexists|].
    intros h Hy. rewrite Hv. destruct (decide (h = Hash d)) as [->|Hn]; [by rewrite lookup_insert_eq|].
    by rewrite lookup_insert_ne.
Qed.

Lemma accept_wanted r ip s u :
  plainReflector r ip -> store_wf s ->
  shouldAcceptBlob r Background (Hash u.2) u.1 ip s = Ok (wanted s u, []).
Proof.
  intros P Hw. unfold shouldAcceptBlob, wanted. rewrite (pr_wants _ _ P), (pr_missing _ _ P).
  assert (match rf_accessControl r with Some allow => negb (allow Background (Hash u.2) ip) | None => false end = false) as ->.
  { destruct (rf_accessControl r) as [allow|] eqn:E; [|done]. by rewrite (pr_allowed _ _ P allow _ E). }
  rewrite store_has; [|done|apply (pr_accepts _ _ P), Hash_valid]. cbn [wrap_err mbind result_bind].
  destruct u.1; cbn [orb andb]; [|done]. by case_bool_decide.
Qed.

Definition uploadLog r s (u : Upload) : RLog :=
  if wanted s u
  then mkRLog [SPut u.1 (Hash u.2) u.2] (NotifyBlob (rf_notifier r) NOTIFY_BLOB_ADDED (Hash u.2)) []
  else noLog.

Lemma receive_upload r ip port addr s u bs e o xs :
  plainReflector r ip -> SplitHostPort addr = Ok (ip, port) -> store_wf s -> uploadable u ->
  receiveBlob r (Background, Background) addr (mkBConn (clientSends s u ++ bs) e o [] xs) s
  = (Ok tt, mkBConn bs e (o ++ serverSends s u) [] (tail xs), taken s u, uploadLog r s u).
Proof.
  intros P Ha Hw Hu. unfold receiveBlob, readBlobRequest, clientSends. cbn [app].
  rewrite (readJSON_burst _ _ (requestFor u));
    [|done|by apply wf_send, safe_request|by apply decode_send, safe_request].
  rewrite check_request, Ha by done. cbn [fst]. rewrite (accept_wanted r ip) by done.
  unfold sendBlobResponse. rewrite writeData_quiet.
  change (print [] [] (if u.1 then _ else _)) with (print [] [] (answerFor s u)).
  destruct (store_taken r ip s u) as (Hst & _); [done..|].
  unfold serverSends, taken, uploadLog. destruct (wanted s u); cbn [negb snd]; [|done].
  unfold acceptBlob, readRawBlob. cbn [app]. rewrite SetDeadline_quiet, Nat2Z.id, ReadFull_burst. cbn [wrap_err].
  rewrite (bool_decide_eq_true_2 (Hash u.2 = calculateBlobHash u.2)) by done. cbn [negb].
  destruct (storeBlob Background u.1 (Hash u.2) u.2 s) as [res s']. simpl in Hst. subst res.
  unfold sendTransferResponse. rewrite writeData_quiet, <- app_assoc. done.
Qed.

(** The error of a connection the client closes: not the [io.EOF] the handler tests for. *)
Definition closedError : error := EWrap "invalid blob request" (EWrap "failed to decode JSON" (ESent EOF)).

Fixpoint uploadLogs r s (us : list Upload) : RLog :=
  match us with
  | [] => mkRLog [] [] [closedError]
  | u :: us => addRLog (uploadLog r s u) (uploadLogs r (taken s u) us)
  end.

Lemma receive_uploads r ip port addr us fuel s o xs :
  plainReflector r ip -> SplitHostPort addr = Ok (ip, port) -> store_wf s -> Forall uploadable us ->
  (length us < fuel)%nat ->
  exists xs',
    receiveLoop fuel r (fun _ => (Background, Background)) addr
      (mkBConn (sendAll clientSends s us) (ESent EOF) o [] xs) s
    = (Ok tt, mkBConn [] (ESent EOF) (o ++ sendAll serverSends s us) [] xs', (uploads s us).2, uploadLogs r s us).
Proof.
  intros P Ha Hw Hus. revert fuel s o xs Hw. induction Hus as [|u us Hu Hus IH]; intros [|fuel] s o xs Hw Hf;
    [simpl in Hf; lia| |simpl in Hf; lia|]; cbn [receiveLoop sendAll].
  - exists (tail xs). cbn. by rewrite app_nil_r.
  - rewrite (receive_upload r ip port) by done.
    destruct (store_taken r ip s u P Hw Hu) as (_ & Hw' & _).
    destruct (IH fuel (taken s u) (o ++ serverSends s u) (tail xs) Hw') as [xs' E]; [simpl in Hf; lia|].
    exists xs'. cbn beta. rewrite E, <- app_assoc. cbn [uploads uploadLogs]. by destruct (uploads (taken s u) us).
Qed.

(** ** The client *)

Definition runUpload (u : Upload) : ReflectorClient -> result unit * ReflectorClient :=
  (if u.1 then SendSDBlob else SendBlob) (Hash u.2) u.2.
Fixpoint runUploads (us : list Upload) (client : ReflectorClient) : list (result unit) * ReflectorClient :=
  match us with
  | [] => ([], client)
  | u :: us =>
      let '(res, client) := runUpload u client in
      let '(rs, client) := runUploads us client in (res :: rs, client)
  end.

Lemma read_answer s u bs e o xs :
  readBlobResponse u.1 (mkBConn (print [] [] (answerFor s u) :: bs) e o [] xs)
  = (Ok (wanted s u), mkBConn bs e o [] (tail xs)).
Proof.
  unfold readBlobResponse, answerFor. destruct u.1.
  - by rewrite (clientReadJSON_burst _ _ (wanted s u)); [|done|by apply (wf_flag "send_sd_blob")|apply decode_sendSD].
  - by rewrite (clientReadJSON_burst _ _ (wanted s u)); [|done|by apply wf_flag|by apply decode_flag].
Qed.

Lemma read_transfer isSd b bs e o xs :
  readTransferResponse isSd (mkBConn (print [] [] (transferResponseJSON isSd b) :: bs) e o [] xs)
  = (Ok b, mkBConn bs e o [] (tail xs)).
Proof. apply clientReadJSON_burst; destruct isSd; done || by apply wf_flag || by apply decode_flag. Qed.

Lemma run_upload s u bs e o xs ver t :
  uploadable u ->
  exists xs',
    runUpload u (mkRClient (Some (mkBConn (serverSends s u ++ bs) e o [] xs)) ver t)
    = (outcome s u, mkRClient (Some (mkBConn bs e (o ++ clientSends s u) [] xs')) ver t).
Proof.
  intros [Hn _].
  assert (E : exists xs', upload (Hash u.2) u.2 u.1 (mkBConn (serverSends s u ++ bs) e o [] xs)
    = (outcome s u, mkBConn bs e (o ++ clientSends s u) [] xs')).
  { unfold upload, sendBlobRequest, clientWriteJSON, serverSends, clientSends, outcome.
    rewrite SetDeadline_quiet. unfold WriteB, nextFaultB, putOut. cbn [bc_in bc_end bc_out bc_faults bc_extra app].
    rewrite read_answer. destruct (wanted s u); [|by eexists].
    unfold sendBlobData. rewrite SetDeadline_quiet. unfold WriteB, nextFaultB, putOut.
    cbn [bc_in bc_end bc_out bc_faults bc_extra app]. rewrite read_transfer.
    eexists. rewrite <- app_assoc. done. }
  destruct E as [xs' E]. exists xs'. unfold runUpload, SendSDBlob, SendBlob.
  replace ((if u.1 then _ else _) (Hash u.2) u.2) with (sendBlob (Hash u.2) u.2 u.1) by by destruct u.1.
  unfold sendBlob. cbn [rc_conn rc_version rc_timeout]. rewrite (proj2 (Z.ltb_ge _ _)) by lia. by rewrite E.
Qed.

Lemma run_uploads us s e o xs ver t :
  Forall uploadable us ->
  exists xs',
    runUploads us (mkRClient (Some (mkBConn (sendAll serverSends s us) e o [] xs)) ver t)
    = ((uploads s us).1, mkRClient (Some (mkBConn [] e (o ++ sendAll clientSends s us) [] xs')) ver t).
Proof.
  intros Hus. revert s o xs. induction Hus as [|u us Hu _ IH]; intros s o xs; cbn [runUploads sendAll uploads].
  { exists xs. by rewrite app_nil_r. }
  destruct (run_upload s u (sendAll serverSends (taken s u) us) e o xs ver t Hu) as [xs1 ->].
  destruct (IH (taken s u) (o ++ clientSends s u) xs1) as [xs2 ->]. exists xs2.
  rewrite <- app_assoc. by destruct (uploads (taken s u) us).
Qed.

(** ** The session *)

Lemma sends_length s us : (length us <= length (concat (sendAll clientSends s us)))%nat.
Proof.
  revert s. induction us as [|u us IH]; intros s; [simpl; lia|].
  cbn [sendAll]. rewrite concat_app, length_app. specialize (IH (taken s u)). simpl. lia.
Qed.

Lemma handshake_ok ver bs o xs :
  ver = 0 \/ ver = 1 ->
  doHandshake (mkBConn (print [] [] (handshakeJSON (Some ver)) :: bs) (ESent EOF) o [] xs)
  = (Ok tt, mkBConn bs (ESent EOF) (o ++ [print [] [] (handshakeJSON (Some ver))]) [] (tail xs)).
Proof.
  intros Hv. assert (in_int64 ver) by (unfold in_int64; lia). unfold doHandshake.
  rewrite (readJSON_burst _ _ (Some ver)); [|done|by apply wf_handshake|by apply decode_handshake].
  by destruct Hv as [->| ->].
Qed.

Lemma connect_ok ver t bs e xs :
  in_int64 ver ->
  ConnectReflector (Ok (mkBConn (print [] [] (handshakeJSON (Some ver)) :: bs) e [] [] xs)) (mkRClient None ver t)
  = (Ok tt, mkRClient (Some (mkBConn bs e [print [] [] (handshakeJSON (Some ver))] [] (tail xs))) ver t).
Proof.
  intros Hv. unfold ConnectReflector, clientHandshake, clientWriteJSON. cbn [rc_conn rc_version rc_timeout].
  rewrite SetDeadline_quiet. unfold WriteB, nextFaultB, putOut. cbn [bc_in bc_end bc_out bc_faults bc_extra app].
  rewrite (clientReadJSON_burst _ _ (Some ver)); [|done|by apply wf_handshake|by apply decode_handshake].
  by rewrite Z.eqb_refl.
Qed.

Lemma uploads_stored r ip s us :
  plainReflector r ip -> store_wf s -> Forall uploadable us ->
  Forall (fun u : Upload => is_Some (store_view (uploads s us).2 !! Hash u.2)) us
  /\ (forall h, is_Some (store_view s !! h) -> is_Some (store_view (uploads s us).2 !! h)).
Proof.
  intros P Hw Hus. revert s Hw. induction Hus as [|u us Hu _ IH]; intros s Hw; [done|]. cbn [uploads].
  destruct (store_taken r ip s u P Hw Hu) as (_ & Hw' & Hs & Hm).
  destruct (IH (taken s u) Hw') as [H1 H2]. destruct (uploads (taken s u) us) as [rs s']. simpl in *.
  split; [constructor; auto|auto].
Qed.

(** C11. Uploads between the two ends: a client connects and uploads any sequence of blobs
    and descriptors, and the server reads what the client writes, and the client what the
    server writes, however far either decoder reads ahead in a burst.  Every call returns
    what the abstract server decides, success for a descriptor and for a blob that is not
    there, [ErrBlobExists] for one that is; both sides read all the other one wrote; and
    every uploaded blob is then in the store, with all that was there before. *)
Theorem upload_session r ip port addr us s ver t e xs ys :
  plainReflector r ip -> SplitHostPort addr = Ok (ip, port) -> store_wf s -> Forall uploadable us ->
  ver = 0 \/ ver = 1 ->
  exists requests answers xs' ys' client s' log,
    HandleReflector r (fun _ => (Background, Background)) addr (mkBConn requests (ESent EOF) [] [] xs) s
    = (Ok tt, mkBConn [] (ESent EOF) answers [] xs', s', log)
    /\ ConnectReflector (Ok (mkBConn answers e [] [] ys)) (mkRClient None ver t) = (Ok tt, client)
    /\ runUploads us client = ((uploads s us).1, mkRClient (Some (mkBConn [] e requests [] ys')) ver t)
    /\ s' = (uploads s us).2
    /\ Forall (fun u : Upload => is_Some (store_view s' !! Hash u.2)) us
    /\ (forall h, is_Some (store_view s !! h) -> is_Some (store_view s' !! h)).
Proof.
  intros P Ha Hw Hus Hv. set (hs := print [] [] (handshakeJSON (Some ver))).
  destruct (receive_uploads r ip port addr us (S (length (concat (sendAll clientSends s us)))) s [hs] (tail xs))
    as [xs' E]; [done..|pose proof (sends_length s us); lia|].
  destruct (run_uploads us s e [hs] (tail ys) ver t Hus) as [ys' E'].
  destruct (uploads_stored r ip s us P Hw Hus) as [H1 H2].
  exists (hs :: sendAll clientSends s us), (hs :: sendAll serverSends s us), xs', ys'.
  eexists _, _, _. split_and!; [| |exact E'|done|exact H1|exact H2].
  - unfold HandleReflector. subst hs. rewrite handshake_ok by done. exact E.
  - subst hs. apply connect_ok. unfold in_int64. lia.
Qed.
End Uploads.

(** ** Examples: the in-memory store *)

#[local] Instance plainCid : CidLib := {|
  cid_Raw := 85;
  NewCidV1 codec mh := mkCid 1 codec mh;
  cid_String _ := [];
  cid_Decode _ := Err (EMsg "selected encoding not supported");
  mh_Encode _ _ := Err (EMsg "unknown multihash code");
  mh_Decode _ := Err (EMsg "multihash too short")
|}.

Definition sampleReflector : ReflectorServer MemoryStore := NewReflectorServer None None [WithReflectorNotifier true].
Definition sampleAddr : bytes := go "1.2.3.4:5".
Definition emptyMemory : MemoryStore := mkMemoryStore ∅ ∅.

Lemma sampleReflector_plain ip : plainReflector sampleReflector ip.
Proof.
  split; try done. intros h Hh. by apply IsValid_validates.
Qed.

Lemma memory_calmReflector : calmReflector sampleReflector.
Proof.
  assert (Hc : forall ctx k, calm (ctxErr ctx k)) by (intros ctx k w; apply ctxErr_no_panic).
  assert (Hv : forall h d k, calm (validate h d k)).
  { intros h d k. unfold validate, ValidForSend. repeat case_match; done. }
  assert (Hw : forall ctx h d k,
    calm (ctxErr ctx 0 ;; validate h d k ;; acquireWriteLock ctx 1 ;; copyWithContext ctx 2 d)).
  { intros. repeat (apply calm_bind; [apply Hc || apply Hv|intros _ _]). done. }
  split; try done; intros ctx h; simpl.
  - intros m. apply calm_bind; [apply Hc|intros _ _]. destruct (negb _); [done|].
    apply calm_bind; [apply Hc|]. by repeat case_match.
  - intros d m w. pose proof (Hw ctx h d [] w) as H. unfold Memory_Put. destruct (_ ;; _) as [x|e|w']; [done..|].
    simpl. congruence.
  - intros d m w. pose proof (Hw ctx h d (go "SD") w) as H. unfold Memory_PutSD.
    destruct (_ ;; _) as [x|e|w']; [done..|]. simpl. congruence.
Qed.

Lemma reflector_stores_only_verified_witness :
  let '(res, _, _, log) := HandleReflector sampleReflector (fun _ => (Background, Background)) sampleAddr
    (mkBConn [go "{} x"; go "y"] (EMsg "i/o timeout") [] [None; Some (3%nat, EMsg "reset")] [2%nat]) emptyMemory in
  Forall verified (rl_ops log) /\ res = Ok tt.
Proof.
  pose proof (reflector_stores_only_verified sampleReflector (fun _ => (Background, Background)) sampleAddr
    (mkBConn [go "{} x"; go "y"] (EMsg "i/o timeout") [] [None; Some (3%nat, EMsg "reset")] [2%nat]) emptyMemory) as H.
  destruct (HandleReflector _ _ _ _ _) as [[[res c'] s'] log]. destruct H as (Hv & _ & Hr).
  split; [exact Hv|exact (Hr memory_calmReflector)].
Defined.

(** A client that says hello and closes. *)
Lemma reflector_always_reports_witness :
  exists c' s' log e,
    HandleReflector sampleReflector (fun _ => (Background, Background)) sampleAddr
      (mkBConn [print [] [] (handshakeJSON (Some 1))] (ESent EOF) [] [] []) emptyMemory = (Ok tt, c', s', log)
    /\ rl_errors log = [e] /\ e <> ESent EOF.
Proof.
  eexists _, _, _, _. split; [vm_compute; reflexivity|].
  destruct (reflector_always_reports sampleReflector (fun _ => (Background, Background)) sampleAddr
      (mkBConn [print [] [] (handshakeJSON (Some 1))] (ESent EOF) [] [] []) emptyMemory (Ok tt) _ _ _
      ltac:(vm_compute; reflexivity) eq_refl) as (e & He & Hn).
  injection He as <-. by split.
Defined.

Definition sampleUploads : list (bool * bytes) := [(false, go "a blob"); (true, go "{}"); (false, go "a blob"); (true, go "{}")].

Lemma upload_session_witness :
  exists requests answers xs' ys' client s' log,
    HandleReflector sampleReflector (fun _ => (Background, Background)) sampleAddr
      (mkBConn requests (ESent EOF) [] [] [7%nat]) emptyMemory
    = (Ok tt, mkBConn [] (ESent EOF) answers [] xs', s', log)
    /\ ConnectReflector (Ok (mkBConn answers (ESent EOF) [] [] [])) (mkRClient None 1 1) = (Ok tt, client)
    /\ runUploads sampleUploads client
       = ((uploads emptyMemory sampleUploads).1, mkRClient (Some (mkBConn [] (ESent EOF) requests [] ys')) 1 1)
    /\ is_Some (store_view s' !! Hash (go "a blob")).
Proof.
  destruct (upload_session sampleReflector (go "1.2.3.4") (go "5") sampleAddr sampleUploads emptyMemory 1 1 (ESent EOF) [7%nat] [])
    as (requests & answers & xs' & ys' & client & s' & log & E1 & E2 & E3 & _ & H & _).
  - apply sampleReflector_plain.
  - vm_compute. reflexivity.
  - done.
  - repeat constructor; done.
  - by right.
  - exists requests, answers, xs', ys', client, s', log. split_and!; [done..|]. by inversion_clear H.
Defined.
