(* ===== verification/Claim.v ===== *)
(** * claim/claim.go: claims, their values and signatures

    A claim is a protocol-buffer message; the value a claim script carries is a version
    byte, for a signed claim the channel's identifier and a compact signature, and the
    message.  The generated message types are an interface of which this package's
    constructors use a few fields. *)
From stdpp Require Import base tactics list numbers strings countable.
From Stdlib Require Import ZArith Lia Init.Byte.
From S2P Require Import Prelude GoStd Sha2 ClaimId Script HdKey.
Local Open Scope Z_scope.

(** ** The messages of pb/v2

    [other]: the fields this package never sets, unknown fields included. *)

Section messages.
Context {Other : Type}.

Record Source := mkSource { so_SdHash : bytes; so_MediaType : bytes; so_other : Other }.
Record Stream := mkStream { st_Source : option Source; st_other : Other }.
Record Channel := mkChannel { ch_PublicKey : bytes; ch_other : Other }.
Record ClaimReference := mkReference { cr_ClaimHash : bytes; cr_other : Other }.
Record ClaimList := mkClaimList {
  li_ListType : Z; li_ClaimReferences : list ClaimReference; li_other : Other
}.
(** The wrappers of the oneof hold a pointer. *)
Inductive Claim_Type :=
  | Claim_Stream (s : option Stream)
  | Claim_Channel (c : option Channel)
  | Claim_Collection (l : option ClaimList)
  | Claim_Repost (r : option ClaimReference).
Record Claim := mkClaim {
  cm_Type : option Claim_Type; cm_Title : bytes; cm_Description : bytes; cm_other : Other
}.

(** The getters accept a nil claim. *)
Definition GetStream (c : option Claim) : option Stream :=
  match c ≫= cm_Type with Some (Claim_Stream s) => s | _ => None end.
Definition GetChannel (c : option Claim) : option Channel :=
  match c ≫= cm_Type with Some (Claim_Channel s) => s | _ => None end.
Definition GetCollection (c : option Claim) : option ClaimList :=
  match c ≫= cm_Type with Some (Claim_Collection s) => s | _ => None end.
Definition GetRepost (c : option Claim) : option ClaimReference :=
  match c ≫= cm_Type with Some (Claim_Repost s) => s | _ => None end.
End messages.
Arguments Claim : clear implicits.
Arguments Claim_Type : clear implicits.
Arguments Stream : clear implicits.
Arguments Channel : clear implicits.
Arguments ClaimList : clear implicits.
Arguments ClaimReference : clear implicits.
Arguments Source : clear implicits.

(** The generated code: serialisation and the zero value of the other fields. *)
Class Proto := {
  Other : Type;
  noOther : Other;
  MarshalVT : Claim Other -> result bytes;
  UnmarshalVT : bytes -> result (Claim Other);
  Support_MarshalVT : bytes -> result bytes
}.

(** Signatures of btcec: the pair (R, S). *)
Class BtcecSign (B : Btcec) := {
  Sign : PrivateKey -> bytes -> result (Z * Z);
  Verify : Z * Z -> bytes -> PublicKey -> bool
}.

(** ** [math/big] *)

(** [x.Bytes()]: the absolute value, big-endian, without leading zeros. *)
Definition big_Bytes (x : Z) : bytes :=
  be_bytes (if Z.abs x =? 0 then 0 else Z.to_nat (Z.log2 (Z.abs x) / 8 + 1)) (Z.abs x).
Definition big_SetBytes (b : bytes) : Z := be_Z b.

(** [copy(buf[hi-len(src):hi], src)] *)
Definition copyEnding (buf : bytes) (hi : nat) (src : bytes) : result bytes :=
  if decide (length src <= hi)%nat
  then Ok (take (hi - length src) buf ++ src ++ drop hi buf)
  else Panic "slice bounds out of range".

(** ** Helpers *)

Section claim.
Context {P : Proto} {B : Btcec} {G : BtcecSign B}.
Context (NewHashFromStr : bytes -> result bytes).

Definition NoSig : byte := x00.
Definition WithSig : byte := x01.

(** The claim type is the empty text when it is not known. *)
Definition TypeStream : bytes := go "stream".
Definition TypeChannel : bytes := go "channel".
Definition TypeRepost : bytes := go "repost".
Definition TypeCollection : bytes := go "collection".

Record Helper := mkHelper {
  hp_Claim : option (Claim Other);
  hp_ClaimType : bytes;
  hp_ClaimID : bytes;
  hp_Version : byte;
  hp_Signature : bytes
}.

Definition NewChannel (title publicKey : bytes) : result Helper :=
  if negb (length publicKey =? 33)%nat then Err (EMsg "publicKey must be 33 bytes (compressed secp256k1), got %d") else
  Ok (mkHelper (Some (mkClaim (Some (Claim_Channel (Some (mkChannel publicKey noOther)))) title [] noOther))
        TypeChannel [] NoSig []).

Definition NewStream (title description sdHash mediaType channelClaimID : bytes) : result Helper :=
  sdHashBytes ← wrap_err "decode sdhash: %w" (DecodeString sdHash);
  if negb (length sdHashBytes =? 48)%nat then Err (EMsg "sdhash must be 48 bytes (SHA-384), got %d") else
  Ok (mkHelper
        (Some (mkClaim (Some (Claim_Stream (Some (mkStream (Some (mkSource sdHashBytes mediaType noOther)) noOther))))
                 title description noOther))
        TypeStream channelClaimID NoSig []).

Definition TrimPrefix (s prefix : bytes) : bytes :=
  if decide (take (length prefix) s = prefix) then drop (length prefix) s else s.

Definition normalizeClaimID (id : bytes) : result bytes :=
  let s := TrimPrefix id (go "0x") in
  if negb (length s =? 40)%nat then Err (EMsg "claim ID must be 40 hex characters, got %d") else
  b ← wrap_err "decode claim ID: %w" (DecodeString s);
  if negb (length b =? 20)%nat then Err (EMsg "claim ID must be 20 bytes, got %d") else Ok b.

Fixpoint claimRefs (ids : list bytes) : result (list (ClaimReference Other)) :=
  match ids with
  | [] => Ok []
  | id :: ids =>
      claimID ← wrap_err "claim %d: %w" (normalizeClaimID id);
      refs ← claimRefs ids; Ok (mkReference claimID noOther :: refs)
  end.

Definition ClaimList_COLLECTION : Z := 0.
Definition NewCollection (title : bytes) (claimIDHexes : list bytes) : result Helper :=
  refs ← claimRefs claimIDHexes;
  Ok (mkHelper
        (Some (mkClaim (Some (Claim_Collection (Some (mkClaimList ClaimList_COLLECTION refs noOther)))) title [] noOther))
        TypeCollection [] NoSig []).

Definition NewRepost (title claimIDHex : bytes) : result Helper :=
  claimID ← normalizeClaimID claimIDHex;
  Ok (mkHelper (Some (mkClaim (Some (Claim_Repost (Some (mkReference claimID noOther)))) title [] noOther))
        TypeRepost [] NoSig []).

(** A support is its emoji. *)
Definition NewSupport (emoji : bytes) : bytes := emoji.
Definition SupportValue (s : bytes) : result bytes := Support_MarshalVT s.

(** ** Values *)

Definition serialize (h : Helper) : result bytes :=
  match hp_Claim h with
  | None => Err (EMsg "claim not initialized")
  | Some c =>
      match GetStream (Some c), GetChannel (Some c), GetRepost (Some c), GetCollection (Some c) with
      | None, None, None, None => Err (EMsg "claim type not set")
      | _, _, _, _ => MarshalVT c
      end
  end.

Definition CompileValue (h : Helper) : result bytes :=
  payload ← serialize h;
  (if decide (hp_Version h = WithSig) then
     if decide (hp_ClaimID h = []) then Err (EMsg "signed claim value requires claimID") else
     if decide (hp_Signature h = []) then Err (EMsg "signed claim value requires signature") else Ok tt
   else Ok tt) ;;
  let value := [hp_Version h] in
  let value := if decide (hp_Version h = WithSig) then value ++ hp_ClaimID h ++ hp_Signature h else value in
  Ok (value ++ payload).

Definition ParseClaimValue (data : bytes) : result Helper :=
  match data with
  | [] => Err (EMsg "claim value too short")
  | version :: rest =>
      if decide (version = NoSig) then
        claim ← wrap_err "unmarshal unsigned claim: %w" (UnmarshalVT rest);
        Ok (mkHelper (Some claim) [] [] NoSig [])
      else if decide (version = WithSig) then
        if (length data <? 1 + 20 + 64)%nat then Err (EMsg "signed claim value too short: need at least 85 bytes, got %d") else
        let claimID := take 20 rest in
        let signature := take 64 (drop 20 rest) in
        claim ← wrap_err "unmarshal signed claim: %w" (UnmarshalVT (drop 84 rest));
        Ok (mkHelper (Some claim) [] claimID WithSig signature)
      else Err (EMsg "unsupported claim version: %d")
  end.

(** ** Signatures *)

Definition CompactSignature (sig : Z * Z) : result bytes :=
  let halfOrder := Z.shiftr S256_N 1 in
  let sigS := if halfOrder <? sig.2 then S256_N - sig.2 else sig.2 in
  sigBytes ← copyEnding (replicate 64 x00) 32 (big_Bytes sig.1);
  copyEnding sigBytes 64 (big_Bytes sigS).

Definition ParseCompactSignature (compact : bytes) : result (Z * Z) :=
  if negb (length compact =? 64)%nat then Err (EMsg "compact signature must be 64 bytes, got %d") else
  Ok (big_SetBytes (take 32 compact), big_SetBytes (drop 32 compact)).

(** What is signed: the transaction, the channel and the message. *)
Definition claimDigest (txidBytes channelClaimID metadataBytes : bytes) : bytes :=
  sha256_Sum256 (txidBytes ++ channelClaimID ++ metadataBytes).

(** The signature bytes, or the first failure. *)
Definition streamSignature (h : Helper) (privKey : PrivateKey) (firstInputTxID channelClaimID : bytes) : result bytes :=
  match GetStream (hp_Claim h) with
  | None => Err (EMsg "helper does not contain a stream claim")
  | Some _ =>
      if negb (length channelClaimID =? 20)%nat then Err (EMsg "channel claim ID must be 20 bytes, got %d") else
      if negb (length firstInputTxID =? 64)%nat then Err (EMsg "first input txid must be 64 hex characters, got %d") else
      txidBytes ← wrap_err "parse txid: %w" (NewHashFromStr firstInputTxID);
      if negb (length txidBytes =? 32)%nat then Err (EMsg "first input txid must be 32 bytes, got %d") else
      metadataBytes ← wrap_err "serialize claim: %w" (serialize h);
      sig ← wrap_err "sign claim: %w" (Sign privKey (claimDigest txidBytes channelClaimID metadataBytes));
      sigBytes ← CompactSignature sig;
      if negb (bool_decide (hp_ClaimID h = [])) && negb (bool_decide (hp_ClaimID h = channelClaimID))
      then Err (EMsg "channel claim ID mismatch: helper has %x, signing with %x")
      else Ok sigBytes
  end.

Definition SignStream (h : Helper) (privKey : PrivateKey) (firstInputTxID channelClaimID : bytes)
    : result unit * Helper :=
  match streamSignature h privKey firstInputTxID channelClaimID with
  | Ok sigBytes => (Ok tt, mkHelper (hp_Claim h) (hp_ClaimType h) channelClaimID WithSig sigBytes)
  | Err e => (Err e, h)
  | Panic w => (Panic w, h)
  end.
End claim.

(** ** What the generated code and btcec promise *)

(** No wrapper with a nil pointer. *)
Definition complete {O} (c : Claim O) : bool :=
  match cm_Type c with
  | Some (Claim_Stream None) | Some (Claim_Channel None) | Some (Claim_Collection None) | Some (Claim_Repost None) => false
  | _ => true
  end.

Class ProtoLaws (P : Proto) : Prop := {
  Marshal_total c : exists b, MarshalVT c = Ok b;
  Unmarshal_Marshal c b : complete c = true -> MarshalVT c = Ok b -> UnmarshalVT b = Ok c
}.

(** Signatures verify, and so does the one with the other sign of the point. *)
Class BtcecSignLaws {B : Btcec} (G : BtcecSign B) : Prop := {
  Sign_valid k d sig :
    Sign k d = Ok sig -> 0 < sig.1 < S256_N /\ 0 < sig.2 < S256_N /\ Verify sig d (PubKey k) = true;
  Verify_negate r s d p :
    0 < s < S256_N -> Verify (r, s) d p = true -> Verify (r, S256_N - s) d p = true
}.

(** ** Big-endian numbers *)

Lemma be_bytes_zero n : be_bytes n 0 = replicate n x00.
Proof. induction n as [|n IH]; [done|]. simpl be_bytes. rewrite Z.div_0_l, IH by done. by rewrite <- replicate_S_end. Qed.

Lemma be_bytes_pad k m z : 0 <= z < 256 ^ Z.of_nat k -> be_bytes (m + k) z = replicate m x00 ++ be_bytes k z.
Proof.
  revert z. induction k as [|k IH]; intros z Hz.
  { simpl in Hz. assert (z = 0) as -> by lia. rewrite Nat.add_0_r, be_bytes_zero. simpl. by rewrite app_nil_r. }
  rewrite Nat.add_succ_r. cbn [be_bytes]. rewrite IH, app_assoc; [done|].
  rewrite Nat2Z.inj_succ, Z.pow_succ_r in Hz by lia. split; [apply Z.div_pos; lia|apply Z.div_lt_upper_bound; lia].
Qed.

Lemma big_Bytes_pad n x :
  0 <= x < 256 ^ Z.of_nat n ->
  (length (big_Bytes x) <= n)%nat /\ replicate (n - length (big_Bytes x)) x00 ++ big_Bytes x = be_bytes n x.
Proof.
  intros Hx. unfold big_Bytes. rewrite Z.abs_eq, length_be_bytes by lia.
  set (k := if x =? 0 then 0%nat else Z.to_nat (Z.log2 x / 8 + 1)).
  assert (Hk : (k <= n)%nat /\ x < 256 ^ Z.of_nat k).
  { subst k. destruct (Z.eqb_spec x 0) as [->|Hne]; [split; [lia|done]|].
    assert (Hl : 0 <= Z.log2 x) by apply Z.log2_nonneg.
    assert (Hd : 0 <= Z.log2 x / 8) by (apply Z.div_pos; lia).
    destruct (Z.log2_spec x) as [H1 H2]; [lia|]. rewrite Z2Nat.id by lia. change 256 with (2 ^ 8) in *.
    rewrite <- !Z.pow_mul_r in * by lia. split.
    - apply Nat2Z.inj_le. rewrite Z2Nat.id by lia.
      assert (Z.log2 x < 8 * Z.of_nat n) by (apply Z.log2_lt_pow2; lia).
      pose proof (Z.div_lt_upper_bound (Z.log2 x) 8 (Z.of_nat n)). lia.
    - eapply Z.lt_le_trans; [exact H2|]. apply Z.pow_le_mono_r; [lia|].
      pose proof (Z.mul_succ_div_gt (Z.log2 x) 8). lia. }
  destruct Hk as [Hn Hlt]. split; [done|]. rewrite <- be_bytes_pad by lia. f_equal. lia.
Qed.

Section properties.
Local Opaque be_bytes.
Context {P : Proto} {PL : ProtoLaws P} {B : Btcec} {BL : BtcecLaws B} {G : BtcecSign B} {GL : BtcecSignLaws G}.
Context (NewHashFromStr : bytes -> result bytes).
Implicit Types (h : Helper).

(** *** Values *)

Lemma serialize_complete h payload :
  serialize h = Ok payload -> exists c, hp_Claim h = Some c /\ complete c = true /\ MarshalVT c = Ok payload.
Proof.
  unfold serialize. destruct (hp_Claim h) as [c|]; [|done]. intros H. exists c. split; [done|].
  unfold complete, GetStream, GetChannel, GetRepost, GetCollection in *. cbn [mbind option_bind] in H.
  destruct (cm_Type c) as [[[x|]|[x|]|[x|]|[x|]]|]; done.
Qed.

Lemma serialize_claim h h' : hp_Claim h = hp_Claim h' -> serialize h = serialize h'.
Proof. unfold serialize. by intros ->. Qed.

(** The shapes [CompileValue] and [ParseClaimValue] agree on. *)
Definition wfVersion h : Prop :=
  hp_Version h = NoSig
  \/ hp_Version h = WithSig /\ length (hp_ClaimID h) = 20%nat /\ length (hp_Signature h) = 64%nat.

Definition signedPart h : bytes := if decide (hp_Version h = WithSig) then hp_ClaimID h ++ hp_Signature h else [].

Lemma CompileValue_ok h :
  wfVersion h -> CompileValue h = (payload ← serialize h; Ok (hp_Version h :: signedPart h ++ payload)).
Proof.
  intros Hv. unfold CompileValue, signedPart. destruct (serialize h) as [payload| |]; [|done..]. cbn [mbind result_bind].
  destruct Hv as [E|(E & Hi & Hs)]; rewrite E.
  - by rewrite !decide_False by done.
  - rewrite !(decide_True (P := WithSig = WithSig)) by done. rewrite !decide_False by (intros E'; by rewrite E' in *).
    cbn [mbind result_bind app]. by rewrite <- app_assoc.
Qed.

(** What [ParseClaimValue] returns for a compiled value. *)
Definition parsed h : Helper :=
  if decide (hp_Version h = WithSig) then mkHelper (hp_Claim h) [] (hp_ClaimID h) WithSig (hp_Signature h)
  else mkHelper (hp_Claim h) [] [] NoSig [].

Lemma parse_compiled h value : wfVersion h -> CompileValue h = Ok value -> ParseClaimValue value = Ok (parsed h).
Proof.
  intros Hv Hc. rewrite CompileValue_ok in Hc by done. apply bind_Ok in Hc as (payload & Hs & [= <-]).
  apply serialize_complete in Hs as (c & Ec & Hcc & Hm). pose proof (Unmarshal_Marshal c payload Hcc Hm) as Hu.
  unfold ParseClaimValue, signedPart, parsed. destruct Hv as [E|(E & Hi & Hs)]; rewrite E.
  - rewrite (decide_True (P := NoSig = NoSig)) by done. rewrite !(decide_False (P := NoSig = WithSig)) by done.
    cbn [app]. by rewrite Hu, Ec.
  - rewrite (decide_False (P := WithSig = NoSig)) by done. rewrite !(decide_True (P := WithSig = WithSig)) by done.
    rewrite (proj2 (Nat.ltb_ge _ _)) by (cbn [length]; rewrite !length_app; lia).
    rewrite <- app_assoc, drop_app_length', take_app_length', (take_app_length' _ _ 64) by done.
    rewrite app_assoc, (drop_app_length' _ _ 84) by (rewrite length_app; lia). by rewrite Hu, Ec.
Qed.

(** The helpers the package makes. *)
Inductive made : Helper -> Prop :=
  | made_channel title key h : NewChannel title key = Ok h -> made h
  | made_stream title description sd media channel h : NewStream title description sd media channel = Ok h -> made h
  | made_collection title ids h : NewCollection title ids = Ok h -> made h
  | made_repost title id h : NewRepost title id = Ok h -> made h
  | made_signed h key txid channel : made h -> made (SignStream NewHashFromStr h key txid channel).2.

(** *** Signatures *)

Definition lowS (sig : Z * Z) : Z * Z := (sig.1, Z.min sig.2 (S256_N - sig.2)).

Lemma half_order s : (if Z.shiftr S256_N 1 <? s then S256_N - s else s) = Z.min s (S256_N - s).
Proof.
  rewrite Z.shiftr_div_pow2 by done. change (2 ^ 1) with 2.
  pose proof (Z.div_mod S256_N 2 ltac:(lia)). pose proof (Z.mod_pos_bound S256_N 2 ltac:(lia)).
  destruct (Z.ltb_spec (S256_N / 2) s); lia.
Qed.

(** Filling a half of the signature. *)
Lemma copyEnding_fill a b x :
  0 <= x < 256 ^ Z.of_nat 32 ->
  copyEnding (a ++ replicate 32 x00 ++ b) (length a + 32) (big_Bytes x) = Ok (a ++ be_bytes 32 x ++ b).
Proof.
  intros Hx. destruct (big_Bytes_pad 32 x Hx) as [Hl <-]. unfold copyEnding. rewrite decide_True by lia.
  rewrite take_app_ge by lia. rewrite drop_app_ge by lia.
  replace (length a + 32 - length a)%nat with 32%nat by lia.
  replace (length a + 32 - length (big_Bytes x) - length a)%nat with (32 - length (big_Bytes x))%nat by lia.
  rewrite drop_app_length' by done. rewrite take_app_le by (rewrite length_replicate; lia).
  rewrite take_replicate, Nat.min_l by lia. by rewrite <- !app_assoc.
Qed.

Lemma compact_ok sig :
  0 <= sig.1 < S256_N -> 0 <= sig.2 < S256_N ->
  CompactSignature sig = Ok (be_bytes 32 sig.1 ++ be_bytes 32 (lowS sig).2).
Proof.
  intros Hr Hs. pose proof S256_N_range as HN. unfold CompactSignature. rewrite half_order.
  change (Z.min sig.2 (S256_N - sig.2)) with (lowS sig).2.
  assert (Hpow : 256 ^ Z.of_nat 32 = 2 ^ 256) by done.
  pose proof (copyEnding_fill [] (replicate 32 x00) sig.1 ltac:(lia)) as E1.
  pose proof (copyEnding_fill (be_bytes 32 sig.1) [] (lowS sig).2 ltac:(unfold lowS; simpl; lia)) as E2.
  rewrite length_be_bytes, !app_nil_r in E2. cbn [app length Nat.add] in E1, E2.
  change (replicate 64 x00) with (replicate 32 x00 ++ replicate 32 x00). rewrite E1. exact E2.
Qed.

Lemma parse_compact sig :
  0 <= sig.1 < S256_N -> 0 <= sig.2 < S256_N ->
  ParseCompactSignature (be_bytes 32 sig.1 ++ be_bytes 32 sig.2) = Ok sig.
Proof.
  intros Hr Hs. unfold ParseCompactSignature. rewrite length_app, !length_be_bytes. cbn [Nat.eqb negb Nat.add].
  rewrite take_app_length', drop_app_length' by (by rewrite length_be_bytes). unfold big_SetBytes.
  rewrite !scalar_roundtrip by done. by destruct sig.
Qed.

(** A signature in compact form takes 64 bytes, and what is read back from it is the
    signature with the smaller of the two values of S. *)
Theorem compact_signature_roundtrip sig compact :
  0 < sig.1 < S256_N -> 0 < sig.2 < S256_N -> CompactSignature sig = Ok compact ->
  length compact = 64%nat /\ ParseCompactSignature compact = Ok (lowS sig)
  /\ 0 < (lowS sig).2 <= S256_N / 2.
Proof.
  intros Hr Hs. rewrite compact_ok by lia. intros [= <-]. split_and!.
  - by rewrite length_app, !length_be_bytes.
  - change sig.1 with (lowS sig).1. apply parse_compact; unfold lowS; simpl; lia.
  - unfold lowS. simpl. lia.
  - unfold lowS. simpl. apply Z.div_le_lower_bound; lia.
Qed.

Lemma streamSignature_ok h key txid channel sigBytes :
  streamSignature NewHashFromStr h key txid channel = Ok sigBytes ->
  exists hash payload sig,
    NewHashFromStr txid = Ok hash /\ serialize h = Ok payload
    /\ Sign key (claimDigest hash channel payload) = Ok sig
    /\ sigBytes = be_bytes 32 sig.1 ++ be_bytes 32 (lowS sig).2
    /\ length channel = 20%nat /\ (hp_ClaimID h = [] \/ hp_ClaimID h = channel).
Proof.
  unfold streamSignature. destruct (GetStream (hp_Claim h)); [|done].
  destruct (Nat.eqb_spec (length channel) 20) as [Hc|]; [|done].
  destruct (Nat.eqb_spec (length txid) 64); [|done]. cbn [negb].
  destruct (NewHashFromStr txid) as [hash| |]; [|done..]. cbn [wrap_err mbind result_bind].
  destruct (length hash =? 32)%nat; [|done]. cbn [negb].
  destruct (serialize h) as [payload| |]; [|done..]. cbn [wrap_err mbind result_bind].
  destruct (Sign key _) as [sig| |] eqn:Es; [|done..]. cbn [wrap_err mbind result_bind].
  destruct (Sign_valid _ _ _ Es) as (Hr & Hs & _). rewrite compact_ok by lia. cbn [mbind result_bind].
  destruct (_ && _) eqn:Ei; [done|]. intros [= <-]. exists hash, payload, sig. split_and!; try done.
  apply andb_false_iff in Ei as [Ei|Ei]; apply negb_false_iff, bool_decide_eq_true in Ei; auto.
Qed.

Lemma lowS_verifies k d sig : Sign k d = Ok sig -> Verify (lowS sig) d (PubKey k) = true.
Proof.
  intros (Hr & Hs & Hv)%Sign_valid. unfold lowS. destruct sig as [r s]. simpl in *.
  destruct (Z.min_spec s (S256_N - s)) as [[_ ->]|[_ ->]]; [done|]. by apply Verify_negate.
Qed.

Lemma made_wf h : made h -> wfVersion h /\ is_ok (serialize h) = true.
Proof.
  assert (Hm : forall c, is_ok (MarshalVT c) = true) by (intros c; by destruct (Marshal_total c) as [b ->]).
  induction 1 as [title key h E|title desc sd media channel h E|title ids h E|title id h E|h key txid channel _ [IHv IHs]].
  - unfold NewChannel in E. destruct (_ =? 33)%nat; [|done]. injection E as <-. split; [by left|]. apply Hm.
  - apply bind_Ok in E as (b & _ & E). destruct (_ =? 48)%nat; [|done]. injection E as <-. split; [by left|]. apply Hm.
  - apply bind_Ok in E as (refs & _ & E). injection E as <-. split; [by left|]. apply Hm.
  - apply bind_Ok in E as (b & _ & E). injection E as <-. split; [by left|]. apply Hm.
  - unfold SignStream. destruct (streamSignature _ h key txid channel) as [sigBytes| |] eqn:E; [|done..].
    apply streamSignature_ok in E as (hash & payload & sig & _ & _ & _ & -> & Hc & _). split.
    + right. cbn [snd hp_Version hp_ClaimID hp_Signature]. by rewrite length_app, !length_be_bytes.
    + by erewrite serialize_claim.
Qed.

(** Every helper the constructors make, signed or not, compiles to a value; the value
    parses back to the claim, version, channel and signature of the helper (a channel
    that has not signed is not part of the value), and compiles to the same value again. *)
Theorem claim_value_roundtrip h :
  made h ->
  exists value, CompileValue h = Ok value /\ ParseClaimValue value = Ok (parsed h)
    /\ CompileValue (parsed h) = Ok value.
Proof.
  intros [Hv Hs]%made_wf. destruct (serialize h) as [payload| |] eqn:E; [|done..].
  exists (hp_Version h :: signedPart h ++ payload). 
  assert (Ec : CompileValue h = Ok (hp_Version h :: signedPart h ++ payload)) by (by rewrite CompileValue_ok, E).
  split_and!; [done|by apply parse_compiled|].
  assert (Hp : wfVersion (parsed h) /\ hp_Version (parsed h) = hp_Version h /\ signedPart (parsed h) = signedPart h
               /\ hp_Claim (parsed h) = hp_Claim h).
  { unfold parsed, signedPart. destruct Hv as [Ev|(Ev & Hi & Hg)]; rewrite Ev.
    - rewrite !(decide_False (P := NoSig = WithSig)) by done. simpl. split_and!; try done. by left.
    - rewrite !(decide_True (P := WithSig = WithSig)) by done. simpl. split_and!; try done. by right. }
  destruct Hp as (Hw & E1 & E2 & E3). rewrite CompileValue_ok, (serialize_claim _ h), E by done.
  cbn [mbind result_bind]. by rewrite E1, E2.
Qed.

(** C20. A signed stream on the chain: the helper of a stream that a channel has signed
    compiles, and from the claim script built around its value anybody reads back the
    same claim and channel, and a signature that verifies with the channel's public key
    against the digest of the transaction, the channel and the serialised claim. *)
Theorem signed_claim_verifies {T : Txscript} {TL : TxscriptLaws T} h h' key txid channel :
  SignStream NewHashFromStr h key txid channel = (Ok tt, h') ->
  exists value,
    CompileValue h' = Ok value
    /\ forall name address params script,
         name <> [x00] -> BuildClaimNameScript name value address params = Ok script ->
         exists read sig hash payload,
           (ExtractClaimValue script ≫= ParseClaimValue) = Ok read
           /\ hp_Claim read = hp_Claim h /\ hp_ClaimID read = channel
           /\ serialize read = Ok payload
           /\ NewHashFromStr txid = Ok hash
           /\ ParseCompactSignature (hp_Signature read) = Ok sig
           /\ Verify sig (claimDigest hash (hp_ClaimID read) payload) (PubKey key) = true.
Proof.
  intros E. unfold SignStream in E.
  destruct (streamSignature _ h key txid channel) as [sigBytes| |] eqn:Es; [|done..]. injection E as <-.
  apply streamSignature_ok in Es as (hash & payload & sig & Hh & Hp & Hsig & -> & Hc & _).
  set (h' := mkHelper _ _ _ _ _).
  assert (Hw : wfVersion h').
  { right. subst h'. simpl. by rewrite length_app, !length_be_bytes. }
  assert (Hp' : serialize h' = Ok payload) by (by rewrite (serialize_claim _ h)).
  exists (WithSig :: signedPart h' ++ payload). rewrite CompileValue_ok, Hp' by done. split; [done|].
  intros name address params script Hn Hb.
  destruct (fun Hv => claim_name_extracts _ _ _ _ _ Hn Hv Hb) as [-> _]; [done|]. cbn [mbind result_bind].
  destruct (Sign_valid _ _ _ Hsig) as (Hr & Hs & _).
  exists (parsed h'), (lowS sig), hash, payload.
  rewrite (parse_compiled h') by (done || by rewrite CompileValue_ok, Hp').
  split_and!; try done; [|by apply lowS_verifies].
  apply (parse_compact (lowS sig)); unfold lowS; simpl; lia.
Qed.

(** A failed signing leaves the helper as it was. *)
Lemma sign_failure_keeps h key txid channel r h' :
  SignStream NewHashFromStr h key txid channel = (r, h') -> r <> Ok tt -> h' = h.
Proof. unfold SignStream. destruct (streamSignature _ _ _ _ _); intros [= <- <-]; done. Qed.
End properties.

(** ** Instances and examples

    Messages without other fields, serialised by their number in an enumeration. *)

#[local] Instance source_eq : EqDecision (Source unit).
Proof. solve_decision. Defined.
#[local] Instance stream_eq : EqDecision (Stream unit).
Proof. solve_decision. Defined.
#[local] Instance channel_eq : EqDecision (Channel unit).
Proof. solve_decision. Defined.
#[local] Instance reference_eq : EqDecision (ClaimReference unit).
Proof. solve_decision. Defined.
#[local] Instance list_eq : EqDecision (ClaimList unit).
Proof. solve_decision. Defined.
#[local] Instance type_eq : EqDecision (Claim_Type unit).
Proof. solve_decision. Defined.
#[local] Instance claim_eq : EqDecision (Claim unit).
Proof. solve_decision. Defined.

#[local] Instance source_countable : Countable (Source unit) :=
  inj_countable' (fun s => (so_SdHash s, so_MediaType s)) (fun x => mkSource x.1 x.2 tt) ltac:(by intros [? ? []]).
#[local] Instance stream_countable : Countable (Stream unit) :=
  inj_countable' st_Source (fun s => mkStream s tt) ltac:(by intros [? []]).
#[local] Instance channel_countable : Countable (Channel unit) :=
  inj_countable' ch_PublicKey (fun k => mkChannel k tt) ltac:(by intros [? []]).
#[local] Instance reference_countable : Countable (ClaimReference unit) :=
  inj_countable' cr_ClaimHash (fun h => mkReference h tt) ltac:(by intros [? []]).
#[local] Instance list_countable : Countable (ClaimList unit) :=
  inj_countable' (fun l => (li_ListType l, li_ClaimReferences l)) (fun x => mkClaimList x.1 x.2 tt) ltac:(by intros [? ? []]).
#[local] Instance type_countable : Countable (Claim_Type unit) :=
  inj_countable'
    (fun t => match t with
              | Claim_Stream s => inl (inl s) | Claim_Channel c => inl (inr c)
              | Claim_Collection l => inr (inl l) | Claim_Repost r => inr (inr r)
              end)
    (fun x => match x with
              | inl (inl s) => Claim_Stream s | inl (inr c) => Claim_Channel c
              | inr (inl l) => Claim_Collection l | inr (inr r) => Claim_Repost r
              end) ltac:(by intros []).
#[local] Instance claim_countable : Countable (Claim unit) :=
  inj_countable' (fun c => (cm_Type c, cm_Title c, cm_Description c))
    (fun x => mkClaim x.1.1 x.1.2 x.2 tt) ltac:(by intros [? ? ? []]).

(** The binary digits of a number, one a byte. *)
Fixpoint posBytes (p : positive) : bytes :=
  match p with xH => [] | xO p => x00 :: posBytes p | xI p => x01 :: posBytes p end.
Fixpoint bytesPos (b : bytes) : positive :=
  match b with [] => xH | c :: b => if decide (c = x00) then xO (bytesPos b) else xI (bytesPos b) end.
Lemma bytesPos_posBytes p : bytesPos (posBytes p) = p.
Proof. induction p as [p IH|p IH|]; simpl; by rewrite ?IH. Qed.

#[local] Instance exampleProto : Proto := {|
  Other := unit;
  noOther := tt;
  MarshalVT c := Ok (posBytes (encode c));
  UnmarshalVT b := match decode (bytesPos b) with Some c => Ok c | None => Err (EMsg "proto: illegal tag") end;
  Support_MarshalVT e := Ok e
|}.
#[local] Instance exampleProto_laws : ProtoLaws exampleProto.
Proof. split; [by eexists|]. intros c b _ [= <-]. simpl. by rewrite bytesPos_posBytes, decode_encode. Qed.

(** A toy signature over the group of [HdKey]: S is twice the key, and is what is checked. *)
#[local] Existing Instances exampleBtcec exampleBtcec_laws exampleTxscript exampleTxscript_laws.

Definition toyScalar (z : Z) : Z := 1 + z mod (secp256k1_N - 1).
#[local] Instance exampleSign : BtcecSign exampleBtcec := {|
  Sign k d := Ok (toyScalar (be_Z d), toyScalar k);
  Verify sig d p := sig.1 =? toyScalar (be_Z d)
|}.
#[local] Instance exampleSign_laws : BtcecSignLaws exampleSign.
Proof.
  assert (H : forall z, 0 < toyScalar z < secp256k1_N).
  { intros z. unfold toyScalar. pose proof (Z.mod_pos_bound z (secp256k1_N - 1) ltac:(unfold secp256k1_N; lia)). lia. }
  split; simpl; [|done]. intros k d sig [= <-]. simpl. split_and!; try apply H. by apply Z.eqb_eq.
Qed.

Definition exampleHash (s : bytes) : result bytes := b ← DecodeString s; Ok (copyArray 32 (rev b)).
Definition exampleChannel : bytes := replicate 20 x07.
Definition exampleTxid : bytes := concat (replicate 32 (go "ab")).
Definition exampleStream : result Helper :=
  NewStream (go "title") (go "about") (concat (replicate 48 (go "0f"))) (go "video/mp4") exampleChannel.

Lemma compact_signature_roundtrip_witness :
  exists compact, CompactSignature (5, secp256k1_N - 3) = Ok compact /\ ParseCompactSignature compact = Ok (5, 3).
Proof.
  eexists. split; [vm_compute; reflexivity|].
  refine (proj1 (proj2 (compact_signature_roundtrip (5, secp256k1_N - 3) _ _ _ _)));
    [simpl; unfold secp256k1_N; lia..|vm_compute; reflexivity].
Defined.

Lemma claim_value_roundtrip_witness :
  exists h value, exampleStream = Ok h /\ CompileValue h = Ok value
    /\ (read ← ParseClaimValue value; Ok (hp_Claim read)) = Ok (hp_Claim h).
Proof.
  destruct exampleStream as [h| |] eqn:E; [|discriminate E..].
  destruct (claim_value_roundtrip exampleHash h (made_stream _ _ _ _ _ _ _ E)) as (value & Hc & Hp & _).
  exists h, value. split_and!; [done..|]. rewrite Hp. simpl. unfold parsed. by case_decide.
Defined.

Definition exampleParams : Params (Txscript := exampleTxscript) := tt.
Definition exampleKey : PrivateKey (Btcec := exampleBtcec) := 42.

Definition exampleScript : result bytes :=
  h ← exampleStream;
  value ← CompileValue (SignStream exampleHash h exampleKey exampleTxid exampleChannel).2;
  BuildClaimNameScript (go "name") value (go "address") exampleParams.
Lemma exampleScript_ok : is_ok exampleScript = true.
Proof. vm_compute. reflexivity. Qed.
Definition exampleSigned : bool :=
  match exampleStream with
  | Ok h => is_ok (SignStream exampleHash h exampleKey exampleTxid exampleChannel).1
  | _ => false
  end.
Lemma exampleSigned_ok : exampleSigned = true.
Proof. vm_compute. reflexivity. Qed.

Lemma signed_claim_verifies_witness :
  exists h h' value script read sig hash payload,
    exampleStream = Ok h /\ SignStream exampleHash h exampleKey exampleTxid exampleChannel = (Ok tt, h')
    /\ CompileValue h' = Ok value
    /\ BuildClaimNameScript (go "name") value (go "address") exampleParams = Ok script
    /\ (ExtractClaimValue script ≫= ParseClaimValue) = Ok read
    /\ ParseCompactSignature (hp_Signature read) = Ok sig
    /\ Verify sig (claimDigest hash (hp_ClaimID read) payload) (PubKey exampleKey) = true.
Proof.
  pose proof exampleScript_ok as Hs. pose proof exampleSigned_ok as Hg. unfold exampleScript, exampleSigned in *.
  destruct exampleStream as [h| |]; [|discriminate Hg..]. cbn [mbind result_bind] in Hs.
  destruct (SignStream exampleHash h exampleKey exampleTxid exampleChannel) as [[[]| |] h'] eqn:Es; [|discriminate Hg..].
  cbn [snd] in Hs.
  destruct (signed_claim_verifies exampleHash h h' exampleKey exampleTxid exampleChannel Es) as (value & Hc & Hv).
  rewrite Hc in Hs. cbn [mbind result_bind] in Hs.
  destruct (BuildClaimNameScript (go "name") value (go "address") exampleParams) as [script| |] eqn:Eb; [|discriminate Hs..].
  destruct (Hv (go "name") (go "address") exampleParams script ltac:(done) Eb)
    as (read & sig & hash & payload & H1 & _ & _ & _ & _ & H2 & H3).
  exists h, h', value, script, read, sig, hash, payload. done.
Defined.
