(* ===== verification/StreamReader.v ===== *)
(** * client/errors.go, client/stream_acquirer.go: the stream reader

    The reader fetches the blobs of a stream when they are read, from a store or from the
    network, decrypts them and keeps a few; a goroutine fetches the next one ahead.  The
    world around it is a record of functions of a counter of the calls made so far, so
    that stores and peers may answer differently every time. *)
From stdpp Require Import base tactics list numbers strings gmap.
From Stdlib Require Import ZArith Lia Init.Byte.
From S2P Require Import Prelude GoStd Aes Blob SdBlob.
Local Open Scope Z_scope.

(** ** client/errors.go *)

(** A [StreamError] is kept by the cause it unwraps to. *)
Definition NewStreamError (operation : string) (err : error) : error := EWrap operation err.

(** The cause below all wrapping decides: a sentinel is never wrapped around an error. *)
Definition isRetryableError (err : error) : bool :=
  negb (error_is err Client_ErrContextCancelled || error_is err ErrInvalidSDBlob
        || error_is err Client_ErrNotSDBlob || error_is err Client_ErrStreamCorrupted
        || error_is err Client_ErrInvalidHash || error_is err Client_ErrDecryptionFailed
        || error_is err Client_ErrStreamNotFound).

(** The options the code passes to retry-go: how often to try, at least once (retry-go
    takes 0 for no limit), and on which errors. *)
Record RetryOptions := mkRetry { ro_Attempts : nat; ro_RetryIf : error -> bool }.
Definition DefaultRetryOptions : RetryOptions := mkRetry 3 isRetryableError.

(** ** The configuration *)

(** The callbacks are left out: the progress callback is only told numbers, and the
    chunk handler is never called. *)
Record ReaderConfig := mkReaderConfig {
  rc_Recursive : bool;
  rc_CacheSize : Z;
  rc_PrefetchEnabled : bool;
  rc_VerificationEnabled : bool
}.
Definition DefaultStreamConfig : ReaderConfig := mkReaderConfig false 3 true true.
Definition ReaderOption := ReaderConfig -> ReaderConfig.
Definition WithStreamRecursive (recursive : bool) : ReaderOption := fun c =>
  mkReaderConfig recursive (rc_CacheSize c) (rc_PrefetchEnabled c) (rc_VerificationEnabled c).
Definition WithStreamCacheSize (size : Z) : ReaderOption := fun c =>
  mkReaderConfig (rc_Recursive c) size (rc_PrefetchEnabled c) (rc_VerificationEnabled c).
Definition WithStreamPrefetch (enabled : bool) : ReaderOption := fun c =>
  mkReaderConfig (rc_Recursive c) (rc_CacheSize c) enabled (rc_VerificationEnabled c).
Definition WithStreamVerification (enabled : bool) : ReaderOption := fun c =>
  mkReaderConfig (rc_Recursive c) (rc_CacheSize c) (rc_PrefetchEnabled c) enabled.

(** ** The world and the state *)

(** The store, if there is one, the acquirer, the context's error and the clock, at the
    time of a call. *)
Record World := mkWorld {
  wo_store : bool;
  wo_Has : nat -> bytes -> result bool;
  wo_Get : nat -> bytes -> result bytes;
  wo_Acquire : nat -> bytes -> result bytes;
  wo_Done : nat -> option error;
  wo_Now : nat -> Z
}.

Record Reader := mkReader {
  rd_currentPos : Z;
  rd_currentBlob : nat;
  rd_blobOffset : Z;
  rd_currentData : option bytes;
  rd_blobCache : gmap nat (bytes * Z);
  rd_prefetchChan : option nat;
  rd_closed : bool;
  rd_calls : nat;
  rd_puts : list (bytes * bytes)
}.

(** Computations on the state of the reader. *)
Definition M (A : Type) : Type := Reader -> result A * Reader.
Definition ret {A} (r : result A) : M A := fun s => (r, s).
Definition andThen {A C} (m : M A) (f : A -> M C) : M C := fun s =>
  match m s with
  | (Ok a, s) => f a s
  | (Err e, s) => (Err e, s)
  | (Panic w, s) => (Panic w, s)
  end.
Notation "'let*' x ':=' m 'in' k" := (andThen m (fun x => k)) (at level 10, x binder, m at level 100, k at level 200).

(** A call into the world. *)
Definition ask {A} (f : nat -> A) : M A := fun s =>
  (Ok (f (rd_calls s)),
   mkReader (rd_currentPos s) (rd_currentBlob s) (rd_blobOffset s) (rd_currentData s) (rd_blobCache s)
     (rd_prefetchChan s) (rd_closed s) (S (rd_calls s)) (rd_puts s)).
Definition call {A} (f : nat -> result A) : M A := let* r := ask f in ret r.

Definition setCurrent (blob : nat) (offset : Z) (data : option bytes) : M unit := fun s =>
  (Ok tt, mkReader (rd_currentPos s) blob offset data (rd_blobCache s) (rd_prefetchChan s) (rd_closed s)
            (rd_calls s) (rd_puts s)).
Definition setPos (pos : Z) : M unit := fun s =>
  (Ok tt, mkReader pos (rd_currentBlob s) (rd_blobOffset s) (rd_currentData s) (rd_blobCache s) (rd_prefetchChan s)
            (rd_closed s) (rd_calls s) (rd_puts s)).
Definition setCache (cache : gmap nat (bytes * Z)) : M unit := fun s =>
  (Ok tt, mkReader (rd_currentPos s) (rd_currentBlob s) (rd_blobOffset s) (rd_currentData s) cache (rd_prefetchChan s)
            (rd_closed s) (rd_calls s) (rd_puts s)).
Definition setChan (chan : option nat) : M unit := fun s =>
  (Ok tt, mkReader (rd_currentPos s) (rd_currentBlob s) (rd_blobOffset s) (rd_currentData s) (rd_blobCache s) chan
            (rd_closed s) (rd_calls s) (rd_puts s)).
(** The write into the store that a goroutine makes on its own. *)
Definition putLater (hash data : bytes) : M unit := fun s =>
  (Ok tt, mkReader (rd_currentPos s) (rd_currentBlob s) (rd_blobOffset s) (rd_currentData s) (rd_blobCache s)
            (rd_prefetchChan s) (rd_closed s) (rd_calls s) (rd_puts s ++ [(hash, data)])).
Definition get : M Reader := fun s => (Ok s, s).

(** ** retry-go

    [retry.Do] gives up when the context is done, before the first attempt and between
    attempts, when the error is not to be retried, and after the last attempt. *)
Section Retry.
Context (world : World) {A : Type}.

Fixpoint attempts (n : nat) (retryIf : error -> bool) (op : M A) : M A := fun s =>
  match op s with
  | (Err e, s) =>
      match n with
      | S (S _ as n') =>
          if negb (retryIf e) then (Err e, s) else
          (let* done := ask (wo_Done world) in
           match done with Some ce => ret (Err ce) | None => attempts n' retryIf op end) s
      | _ => (Err e, s)
      end
  | r => r
  end.

Definition WithRetry (options : RetryOptions) (op : M A) : M A :=
  let* done := ask (wo_Done world) in
  match done with
  | Some ce => ret (Err ce)
  | None => attempts (ro_Attempts options) (ro_RetryIf options) op
  end.
End Retry.

(** ** The reader of a stream *)

(** The encrypted sizes of the blobs but the terminating one. *)
Definition totalSizeOf (infos : list BlobInfo) : Z :=
  foldl (fun total '(i, bi) =>
           if (i =? length infos - 1)%nat && (bi_Length bi =? 0) then total else total +i bi_Length bi)
    0 (imap pair infos).

(** [newStreamReader], after some calls into the world. *)
Definition readerAt (calls : nat) : Reader := mkReader 0 0 0 None ∅ None false calls [].
Definition newReader : Reader := readerAt 0.
Definition readerConfig (opts : list ReaderOption) : ReaderConfig :=
  foldl (fun c opt => opt c) DefaultStreamConfig opts.

Section Reader.
Context (world : World) (sdBlob : SDBlob) (config : ReaderConfig).

Abbreviation infos := (sd_BlobInfos sdBlob).
Definition totalSize : Z := totalSizeOf infos.

(** The entry with the earliest access. *)
Definition oldest (cache : gmap nat (bytes * Z)) : option nat :=
  fst <$> foldl (fun (best : option (nat * Z)) '(i, (_, t)) =>
                   match best with
                   | Some (_, t') => if t <? t' then Some (i, t) else best
                   | None => Some (i, t)
                   end) None (map_to_list cache).

Definition evict (cache : gmap nat (bytes * Z)) : gmap nat (bytes * Z) :=
  if rc_CacheSize config <? Z.of_nat (size cache) then
    match oldest cache with Some i => delete i cache | None => cache end
  else cache.

Definition setBlobData (blobIndex : nat) (data : bytes) : M unit :=
  let* blobInfo := ret (index infos blobIndex) in
  let* decryptedData := ret (match Plaintext data (sd_Key sdBlob) (bi_IV blobInfo) with
                             | Err e => Err (NewStreamError "decrypt_blob" e)
                             | r => r
                             end) in
  let* now := ask (wo_Now world) in
  let* s := get in
  let* _ := setCache (evict (<[blobIndex := (decryptedData, now)]> (rd_blobCache s))) in
  if (blobIndex =? rd_currentBlob s)%nat
  then setCurrent (rd_currentBlob s) (rd_blobOffset s) (Some decryptedData) else ret (Ok tt).

Definition verify (data hash : bytes) : result unit :=
  if rc_VerificationEnabled config then VerifyBlobHash data hash else Ok tt.

(** One attempt to load a blob from the store. *)
Definition fromStore (blobIndex : nat) (blobHash : bytes) : M unit :=
  let* has := ask (fun t => wo_Has world t blobHash) in
  match has with
  | Err e => ret (Err (NewStreamError "storage_has_check" e))
  | Panic w => ret (Panic w)
  | Ok false => ret (Err (ESent Client_ErrStreamNotFound))
  | Ok true =>
      let* got := ask (fun t => wo_Get world t blobHash) in
      match got with
      | Err e => ret (Err (NewStreamError "storage_get" e))
      | Panic w => ret (Panic w)
      | Ok data =>
          let* _ := ret (wrap_err "stored blob hash verification failed for %s: %w" (verify data blobHash)) in
          setBlobData blobIndex data
      end
  end.

Definition acquireOnce (operation : string) (blobHash : bytes) : M bytes :=
  let* got := ask (fun t => wo_Acquire world t blobHash) in
  ret (match got with Err e => Err (NewStreamError operation e) | r => r end).

(** The network, after the store. *)
Definition fromNetwork (blobIndex : nat) (blobHash : bytes) : M unit := fun s =>
  match WithRetry world DefaultRetryOptions (acquireOnce "network_acquire" blobHash) s with
  | (Err e, s) => (Err (EWrap "failed to acquire blob %s: %w" e), s)
  | (Panic w, s) => (Panic w, s)
  | (Ok data, s) =>
      (if bool_decide (data = []) then ret (Err (NewStreamError "validation" (ESent Client_ErrBlobAcquisition))) else
       let* _ := ret (wrap_err "blob hash verification failed for %s: %w" (verify data blobHash)) in
       let* _ := if wo_store world then putLater blobHash data else ret (Ok tt) in
       setBlobData blobIndex data) s
  end.

Definition loadBlob (blobIndex : nat) (blobHash : bytes) : M unit := fun s =>
  if wo_store world then
    match WithRetry world DefaultRetryOptions (fromStore blobIndex blobHash) s with
    | (Err e, s) =>
        if negb (isRetryableError e) then fromNetwork blobIndex blobHash s
        else (Err (EWrap "storage operation failed: %w" e), s)
    | r => r
    end
  else fromNetwork blobIndex blobHash s.

(** A hash is empty when its text is. *)
Definition ensureCurrentBlob : M unit :=
  let* s := get in
  match rd_currentData s with
  | Some _ => ret (Ok tt)
  | None =>
      if (length infos <=? rd_currentBlob s)%nat then ret (Err (ESent EOF)) else
      match rd_blobCache s !! rd_currentBlob s with
      | Some (data, _) => setCurrent (rd_currentBlob s) (rd_blobOffset s) (Some data)
      | None =>
          let* blobInfo := ret (index infos (rd_currentBlob s)) in
          let blobHash := EncodeToString (bi_BlobHash blobInfo) in
          if bool_decide (blobHash = []) then setCurrent (rd_currentBlob s) (rd_blobOffset s) (Some [])
          else loadBlob (rd_currentBlob s) blobHash
      end
  end.

(** *** Reading, in the pieces between which the prefetcher may run *)

Definition readStart : M unit :=
  let* s := get in
  if rd_closed s then ret (Err (ESent ErrClosedPipe)) else
  if totalSize <=? rd_currentPos s then ret (Err (ESent EOF)) else ret (Ok tt).

(** The bytes copied for a buffer of [n] bytes, and whether the blob is exhausted. *)
Definition readCopy (n : Z) : M (bytes * bool) :=
  let* s := get in
  let currentData := default [] (rd_currentData s) in
  let remainingInBlob := Z.of_nat (length currentData) -i rd_blobOffset s in
  let remainingInStream := totalSize -i rd_currentPos s in
  let toRead := if remainingInBlob <? n then remainingInBlob else n in
  let toRead := if remainingInStream <? toRead then remainingInStream else toRead in
  if toRead <? 0 then ret (Panic "slice bounds out of range") else
  let* _ := setCurrent (rd_currentBlob s) (rd_blobOffset s +i toRead) (rd_currentData s) in
  let* _ := setPos (rd_currentPos s +i toRead) in
  ret (Ok (take (Z.to_nat toRead) (drop (Z.to_nat (rd_blobOffset s)) currentData),
           Z.of_nat (length currentData) <=? rd_blobOffset s +i toRead)).

(** Moving on when the blob is exhausted; a full channel drops the request. *)
Definition readAdvance (needNextBlob : bool) : M unit :=
  let* s := get in
  if negb needNextBlob then ret (Ok tt) else
  if negb (Z.of_nat (length (default [] (rd_currentData s))) <=? rd_blobOffset s) then ret (Ok tt) else
  let* _ := setCurrent (S (rd_currentBlob s)) 0 None in
  if rc_PrefetchEnabled config && (S (rd_currentBlob s) <? length infos)%nat then
    match rd_prefetchChan s with
    | None => setChan (Some (S (rd_currentBlob s)))
    | Some _ => ret (Ok tt)
    end
  else ret (Ok tt).

Definition Reader_Read (n : Z) : M bytes :=
  let* _ := readStart in
  let* _ := ensureCurrentBlob in
  let* copied := readCopy n in
  let* _ := readAdvance copied.2 in ret (Ok copied.1).

(** *** Seeking *)

Definition SeekStart : Z := 0.
Definition SeekCurrent : Z := 1.
Definition SeekEnd : Z := 2.

(** The blob in which a position lies, and the offset in it. *)
Fixpoint findBlob (i : nat) (cumulativeSize : Z) (bis : list BlobInfo) (newPos : Z) : option (nat * Z) :=
  match bis with
  | [] => None
  | bi :: bis =>
      if newPos <? cumulativeSize +i bi_Length bi then Some (i, newPos -i cumulativeSize)
      else findBlob (S i) (cumulativeSize +i bi_Length bi) bis newPos
  end.

Definition Reader_Seek (offset whence : Z) : M Z :=
  let* s := get in
  if rd_closed s then ret (Err (ESent ErrClosedPipe)) else
  let* newPos := ret (if whence =? SeekStart then Ok offset
                      else if whence =? SeekCurrent then Ok (rd_currentPos s +i offset)
                      else if whence =? SeekEnd then Ok (totalSize +i offset)
                      else Err (EMsg "invalid whence value")) in
  if (newPos <? 0) || (totalSize <? newPos) then ret (Err (EMsg "seek position %d out of bounds [0, %d]")) else
  match findBlob 0 0 infos newPos with
  | None =>
      let* _ := setPos totalSize in
      let* _ := setCurrent (length infos) 0 None in ret (Ok totalSize)
  | Some (targetBlob, targetOffset) =>
      let* _ := setPos newPos in
      let* _ := setCurrent targetBlob targetOffset None in ret (Ok newPos)
  end.

Definition Reader_Size : Z := totalSize.

(** *** Closing *)

Definition Reader_Close : M unit := fun s =>
  if rd_closed s then (Ok tt, s)
  else (Ok tt, mkReader (rd_currentPos s) (rd_currentBlob s) (rd_blobOffset s) (rd_currentData s) ∅
                 (rd_prefetchChan s) true (rd_calls s) (rd_puts s)).

(** *** The prefetcher *)

(** A blob from the network, for the prefetcher. *)
Definition prefetchNetwork (blobIndex : nat) (blobHash : bytes) : M unit :=
  let* data := WithRetry world DefaultRetryOptions (acquireOnce "prefetch_acquire" blobHash) in
  let* _ := ret (verify data blobHash) in
  let* _ := if wo_store world then putLater blobHash data else ret (Ok tt) in
  setBlobData blobIndex data.

(** A request; whatever fails, the prefetcher goes on with the next one. *)
Definition prefetchBlob (blobIndex : nat) : M unit :=
  let* s := get in
  match infos !! blobIndex, rd_blobCache s !! blobIndex with
  | Some blobInfo, None =>
      let blobHash := EncodeToString (bi_BlobHash blobInfo) in
      if bool_decide (blobHash = []) then ret (Ok tt) else
      if wo_store world then
        let* has := ask (fun t => wo_Has world t blobHash) in
        match has with
        | Ok true =>
            let* got := ask (fun t => wo_Get world t blobHash) in
            match got with
            | Ok data => let* _ := ret (verify data blobHash) in setBlobData blobIndex data
            | Err _ => prefetchNetwork blobIndex blobHash
            | Panic w => ret (Panic w)
            end
        | Ok false | Err _ => prefetchNetwork blobIndex blobHash
        | Panic w => ret (Panic w)
        end
      else prefetchNetwork blobIndex blobHash
  | _, _ => ret (Ok tt)
  end.

Definition prefetchTurn : M unit := fun s =>
  match rd_prefetchChan s with
  | None => (Ok tt, s)
  | Some blobIndex =>
      match (let* _ := setChan None in prefetchBlob blobIndex) s with
      | (Panic w, s) => (Panic w, s)
      | (_, s) => (Ok tt, s)
      end
  end.

(** The access time of a cached blob, set by a goroutine after it was used. *)
Definition touch (blobIndex : nat) : M unit :=
  let* now := ask (wo_Now world) in
  let* s := get in
  match rd_blobCache s !! blobIndex with
  | Some (data, _) => setCache (<[blobIndex := (data, now)]> (rd_blobCache s))
  | None => ret (Ok tt)
  end.
End Reader.
