(* ===== verification/ClientError.v ===== *)
(** * client/errors.go: stream errors

    A [StreamError] with its fields, as it is found in a chain of wrapped errors, and the
    test for errors that are retried.  StreamReader.v keeps a stream error by its operation
    and its cause; the theorem shows that nothing the client decides is lost by that. *)
From stdpp Require Import base tactics list numbers strings.
From Stdlib Require Import ZArith Lia.
From S2P Require Import Prelude Errors StreamReader.
Local Open Scope Z_scope.

(** The operations of the package. *)
Definition OperationStorageHasCheck : string := "storage_has_check".
Definition OperationStorageGet : string := "storage_get".
Definition OperationNetworkAcquire : string := "network_acquire".
Definition OperationPrefetchAcquire : string := "prefetch_acquire".
Definition OperationValidation : string := "validation".
Definition OperationAcquireSDBlob : string := "acquire_sd_blob".
Definition OperationParseSDBlob : string := "parse_sd_blob".
Definition OperationValidateSDBlob : string := "validate_sd_blob".
Definition OperationDecryptBlob : string := "decrypt_blob".

(** An error of the client: one without a stream error below it, an error wrapped with
    [%w], or a pointer to a [StreamError] by its fields. *)
Inductive cerr :=
  | CErr (e : error)
  | CWrap (fmt : string) (cause : cerr)
  | CStream (operation sdBlob blobHash : string) (attempt timestamp : Z) (cause : cerr).

Record StreamError := mkStreamError {
  se_Err : cerr;
  se_Operation : string;
  se_SDBlob : string;
  se_BlobHash : string;
  se_Attempt : Z;
  se_Timestamp : Z
}.
(** A stream error as an error. *)
Definition streamErr (e : StreamError) : cerr :=
  CStream (se_Operation e) (se_SDBlob e) (se_BlobHash e) (se_Attempt e) (se_Timestamp e) (se_Err e).

(** At the time [now]. *)
Definition newStreamError (now : Z) (operation sdBlob blobHash : string) (err : cerr) (attempt : Z) : StreamError :=
  mkStreamError err operation sdBlob blobHash attempt now.
Definition StreamError_Unwrap (e : StreamError) : cerr := se_Err e.
Definition GetTimestamp (e : StreamError) : Z := se_Timestamp e.

(** [Error()] of a chain. *)
Fixpoint cerrText (e : cerr) : string :=
  match e with
  | CErr e => error_text e
  | CWrap fmt c => (fmt +:+ ": " +:+ cerrText c)%string
  | CStream operation sdBlob blobHash _ _ c =>
      if decide (blobHash <> EmptyString) then
        ("stream error during " +:+ operation +:+ " for blob " +:+ blobHash +:+ " in stream " +:+ sdBlob
         +:+ ": " +:+ cerrText c)%string
      else
        ("stream error during " +:+ operation +:+ " for stream " +:+ sdBlob +:+ ": " +:+ cerrText c)%string
  end.
Definition StreamError_Error (e : StreamError) : string := cerrText (streamErr e).

(** [errors.As] for a pointer to a [StreamError]: the first one of the chain. *)
Fixpoint asStreamError (e : cerr) : option StreamError :=
  match e with
  | CErr _ => None
  | CWrap _ c => asStreamError c
  | CStream operation sdBlob blobHash attempt timestamp c =>
      Some (mkStreamError c operation sdBlob blobHash attempt timestamp)
  end.
Definition IsStreamError (err : cerr) : bool := bool_decide (is_Some (asStreamError err)).
Definition GetStreamError (err : cerr) : option StreamError * bool :=
  match asStreamError err with
  | Some e => (Some e, true)
  | None => (None, false)
  end.

(** [errors.Is] with a package-level variable. *)
Fixpoint cerrIs (e : cerr) (s : sentinel) : bool :=
  match e with
  | CErr e => error_is e s
  | CWrap _ c | CStream _ _ _ _ _ c => cerrIs c s
  end.

Fixpoint cerrDepth (e : cerr) : nat :=
  match e with CErr _ => O | CWrap _ c | CStream _ _ _ _ _ c => S (cerrDepth c) end.

(** [isRetryableError], which calls itself with the cause of a stream error. *)
Fixpoint retryableLoop (fuel : nat) (err : cerr) : result bool :=
  match fuel with
  | O => Panic "out of fuel"
  | S fuel =>
      match asStreamError err with
      | Some streamErr => retryableLoop fuel (StreamError_Unwrap streamErr)
      | None =>
          Ok (if cerrIs err Client_ErrContextCancelled then false
              else if cerrIs err ErrInvalidSDBlob || cerrIs err Client_ErrNotSDBlob
                      || cerrIs err Client_ErrStreamCorrupted || cerrIs err Client_ErrInvalidHash
                      || cerrIs err Client_ErrDecryptionFailed || cerrIs err Client_ErrStreamNotFound
              then false else true)
      end
  end.
Definition isRetryable (err : option cerr) : result bool :=
  match err with
  | None => Ok false
  | Some e => retryableLoop (S (cerrDepth e)) e
  end.

(** ** Theorems *)

(** The error of StreamReader.v. *)
Fixpoint forgetStream (e : cerr) : error :=
  match e with
  | CErr e => e
  | CWrap fmt c => EWrap fmt (forgetStream c)
  | CStream operation _ _ _ _ c => NewStreamError operation (forgetStream c)
  end.

Lemma cerrIs_forget e s : cerrIs e s = error_is (forgetStream e) s.
Proof. induction e; simpl; done. Qed.

(** What [As] finds is below the error, and matches what the error matches. *)
Lemma asStreamError_below e x :
  asStreamError e = Some x -> (cerrDepth (se_Err x) < cerrDepth e)%nat /\ forall s, cerrIs (se_Err x) s = cerrIs e s.
Proof.
  induction e as [e|f c IH|o sd b a t c IH]; simpl; [done| |].
  - intros H. destruct (IH H) as [Hd Hs]. split; [lia|done].
  - intros [= <-]. simpl. split; [lia|done].
Qed.

Lemma retryableLoop_spec fuel e :
  (cerrDepth e < fuel)%nat -> retryableLoop fuel e = Ok (isRetryableError (forgetStream e)).
Proof.
  revert e. induction fuel as [|fuel IH]; intros e Hd; [lia|]. simpl.
  destruct (asStreamError e) as [x|] eqn:E.
  - destruct (asStreamError_below e x E) as [Hx Hs]. rewrite IH by (unfold StreamError_Unwrap; lia).
    unfold isRetryableError, StreamError_Unwrap. by rewrite <- !cerrIs_forget, !Hs.
  - unfold isRetryableError. rewrite <- !cerrIs_forget. f_equal.
    destruct (cerrIs e Client_ErrContextCancelled); [done|]. simpl.
    rewrite <- !orb_assoc. by destruct (_ || _).
Qed.

(** Stream errors keep what they were made with, however often they are wrapped, the
    outermost one being the one that is found; whether an error is retried depends only on
    the causes, through any number of stream errors, and is what StreamReader.v says of
    the error without its fields. *)
Theorem stream_error_found now operation sdBlob blobHash err attempt fmts :
  let e := newStreamError now operation sdBlob blobHash err attempt in
  let wrapped := foldr CWrap (streamErr e) fmts in
  GetStreamError wrapped = (Some e, true) /\ IsStreamError wrapped = true
  /\ StreamError_Unwrap e = err /\ GetTimestamp e = now
  /\ (forall s, cerrIs wrapped s = cerrIs err s)
  /\ isRetryable (Some wrapped) = isRetryable (Some err)
  /\ isRetryable (Some err) = Ok (isRetryableError (forgetStream err)).
Proof.
  intros e wrapped.
  assert (Ha : asStreamError wrapped = Some e) by (unfold wrapped; clear; induction fmts as [|f l IH]; [done|exact IH]).
  assert (Hs : forall s, cerrIs wrapped s = cerrIs err s) by (unfold wrapped; clear; induction fmts as [|f l IH]; [done|exact IH]).
  unfold GetStreamError, IsStreamError. rewrite Ha. split_and!; try done.
  all: unfold isRetryable; rewrite !retryableLoop_spec by lia; try done.
  unfold isRetryableError. by rewrite <- !cerrIs_forget, !Hs.
Qed.
