(* ===== verification/StreamReaderSpec.v ===== *)
(** * What the stream reader delivers

    Against any store and any peers, as long as no two different blobs with one hash turn
    up: what a reader has delivered is the beginning of the stream, whatever the prefetcher
    does in between, and the end of the stream is reported only at its end; from a world
    that has the blobs the whole stream is read.  Seeking works in the sizes of the
    encrypted blobs, and can make a read panic. *)
From stdpp Require Import base tactics list numbers strings gmap.
From Stdlib Require Import ZArith Lia Init.Byte.
From S2P Require Import Prelude GoStd Aes Blob SdBlob StreamReader.
Local Open Scope Z_scope.

(** ** Decryption shortens *)

Lemma length_cbcDecryptBlocks {C : BlockCipher} key n prev src :
  (length prev <= bc_size)%nat -> (length (cbcDecryptBlocks key n prev src) <= n * bc_size)%nat.
Proof.
  revert prev src. induction n as [|n IH]; intros prev src Hp; simpl; [lia|]. rewrite length_app.
  assert (Hx : (length (xorBytes (bc_decrypt key (take bc_size src)) prev) <= bc_size)%nat).
  { unfold xorBytes. rewrite length_zip_with. lia. }
  specialize (IH (take bc_size src) (drop bc_size src) ltac:(rewrite length_take; lia)). lia.
Qed.

Lemma Plaintext_shorter {C : BlockCipher} d key iv p : Plaintext d key iv = Ok p -> (length p < length d)%nat.
Proof.
  unfold Plaintext, decryptData. destruct (negb _); [done|].
  destruct (newCipher key); [|done..]. cbn [mbind result_bind].
  case_decide as Hiv; [done|]. case_decide as Hd; [done|].
  assert (Hl : (length (CBCDecrypt key iv d) <= length d)%nat).
  { unfold CBCDecrypt. pose proof (length_cbcDecryptBlocks key (length d / bc_size) iv d ltac:(lia)).
    pose proof (Nat.div_mod_eq (length d) bc_size). lia. }
  unfold pkcs7Unpad. case_decide; [done|]. case_decide; [done|].
  intros (b & _ & Hu)%bind_Ok. repeat (case_decide; [done|]). destruct (forallb _ _); [|done].
  injection Hu as <-. rewrite length_take. lia.
Qed.

(** ** The stream *)

Section Spec.
Context (world : World) (sdBlob : SDBlob) (config : ReaderConfig) (blobs chunks : list bytes).
Abbreviation infos := (sd_BlobInfos sdBlob).
Implicit Types (s : Reader) (D : bytes).

(** The descriptor lists the blobs, which decrypt to the chunks, and a terminating blob. *)
Record streamOf : Prop := {
  so_infos : exists contents terminator, infos = contents ++ [terminator]
    /\ length contents = length blobs /\ bi_BlobHash terminator = [] /\ bi_Length terminator = 0;
  so_blob i bi b : infos !! i = Some bi -> blobs !! i = Some b ->
    bi_Length bi = Z.of_nat (length b) /\ bi_BlobHash bi <> []
    /\ exists c, chunks !! i = Some c /\ Plaintext b (sd_Key sdBlob) (bi_IV bi) = Ok c;
  so_length : length chunks = length blobs;
  so_range : Z.of_nat (length (concat blobs)) < 2 ^ 63
}.

Definition hashAt (bi : BlobInfo) : bytes := EncodeToString (bi_BlobHash bi).

(** Calls return, and no data that is accepted under the hash of a blob is another blob. *)
Record honest : Prop := {
  ho_has t h w : wo_Has world t h <> Panic w;
  ho_get t h w : wo_Get world t h <> Panic w;
  ho_acquire t h w : wo_Acquire world t h <> Panic w;
  ho_same i bi b t d : infos !! i = Some bi -> blobs !! i = Some b ->
    wo_Get world t (hashAt bi) = Ok d \/ wo_Acquire world t (hashAt bi) = Ok d ->
    verify config d (hashAt bi) = Ok tt -> d = b
}.

Context (SO : streamOf) (HO : honest).

Lemma infos_length : length infos = S (length chunks).
Proof.
  destruct (so_infos SO) as (contents & last & -> & Hl & _). rewrite length_app, (so_length SO), Hl. simpl. lia.
Qed.

Lemma info_of_blob i b : blobs !! i = Some b -> exists bi, infos !! i = Some bi.
Proof.
  intros Hb. apply lookup_lt_is_Some. rewrite infos_length, (so_length SO). apply lookup_lt_Some in Hb. lia.
Qed.

Lemma terminator_at bi : infos !! length chunks = Some bi -> bi_BlobHash bi = [] /\ bi_Length bi = 0.
Proof.
  destruct (so_infos SO) as (contents & last & -> & Hl & Hh & H0).
  rewrite (so_length SO), <- Hl, list_lookup_middle by done. by intros [= <-].
Qed.

Lemma chunk_le_blob i c b : chunks !! i = Some c -> blobs !! i = Some b -> (length c < length b)%nat.
Proof.
  intros Hc Hb. destruct (info_of_blob i b Hb) as [bi Hi].
  destruct (so_blob SO i bi b Hi Hb) as (_ & _ & c' & Hc' & Hp). rewrite Hc in Hc'. injection Hc' as <-.
  by apply Plaintext_shorter in Hp.
Qed.

(** Fewer bytes in the chunks than in the blobs, blob by blob. *)
Lemma concat_le (l l' : list bytes) :
  Forall2 (fun c b => (length c <= length b)%nat) l l' -> (length (concat l) <= length (concat l'))%nat.
Proof. induction 1; simpl; [lia|]. rewrite !length_app. lia. Qed.

Lemma chunks_shorter : Forall2 (fun c b => (length c <= length b)%nat) chunks blobs.
Proof.
  apply Forall2_lookup. intros i. destruct (chunks !! i) as [c|] eqn:Hc, (blobs !! i) as [b|] eqn:Hb.
  - constructor. pose proof (chunk_le_blob i c b Hc Hb). lia.
  - apply lookup_lt_Some in Hc. apply lookup_ge_None in Hb. rewrite (so_length SO) in Hc. lia.
  - apply lookup_lt_Some in Hb. apply lookup_ge_None in Hc. rewrite (so_length SO) in Hc. lia.
  - constructor.
Qed.

(** *** The total size *)

Definition sumLengths (l : list BlobInfo) : Z := foldr (fun bi n => bi_Length bi + n) 0 l.

Lemma totalSize_fold (l : list BlobInfo) n k acc :
  Forall (fun bi => 0 <= bi_Length bi) l -> 0 <= acc -> acc + sumLengths l < 2 ^ 63 ->
  foldl (fun total '(i, bi) => if (i =? n)%nat && (bi_Length bi =? 0) then total else total +i bi_Length bi)
    acc (imap (fun i bi => (k + i, bi)%nat) l)
  = acc + sumLengths l.
Proof.
  intros Hl. revert k acc. induction Hl as [|bi l Hbi Hl IH]; intros k acc Ha Hr; [simpl; lia|].
  assert (Hs : 0 <= sumLengths l) by (clear -Hl; induction Hl; simpl; lia).
  cbn [imap foldl sumLengths foldr] in *. fold (sumLengths l) in *.
  assert (E : (if (k + 0 =? n)%nat && (bi_Length bi =? 0) then acc else acc +i bi_Length bi) = acc + bi_Length bi).
  { destruct (_ && _) eqn:E; [apply andb_true_iff in E as [_ E%Z.eqb_eq]; lia|]. apply int64_id. unfold in_int64. lia. }
  rewrite E. rewrite (imap_ext _ (fun i bi => (S k + i, bi)%nat)) by (intros; simpl; f_equal; lia).
  rewrite IH by lia. lia.
Qed.

Lemma infos_nonneg : Forall (fun bi => 0 <= bi_Length bi) infos.
Proof.
  apply Forall_lookup. intros i bi Hi. destruct (blobs !! i) as [b|] eqn:Hb.
  - destruct (so_blob SO i bi b Hi Hb) as (-> & _). lia.
  - apply lookup_ge_None in Hb. pose proof (lookup_lt_Some _ _ _ Hi) as Hlt. rewrite infos_length in Hlt.
    rewrite <- (so_length SO) in Hb. assert (i = length chunks) as -> by lia.
    apply terminator_at in Hi as [_ ->]. lia.
Qed.

Lemma sumLengths_blobs (l : list BlobInfo) (l' : list bytes) :
  Forall2 (fun bi b => bi_Length bi = Z.of_nat (length b)) l l' -> sumLengths l = Z.of_nat (length (concat l')).
Proof. induction 1 as [|bi b l l' E _ IH]; [done|]. simpl. rewrite length_app. fold (sumLengths l). lia. Qed.

Lemma sumLengths_infos : sumLengths infos = Z.of_nat (length (concat blobs)).
Proof.
  pose proof (so_blob SO) as Hb. destruct (so_infos SO) as (contents & last & E & Hl & _ & H0). rewrite E in *.
  assert (Happ : forall l l', sumLengths (l ++ l') = sumLengths l + sumLengths l').
  { intros l l'. induction l as [|bi l IH]; simpl; [lia|]. fold (sumLengths (l ++ l')) (sumLengths l). lia. }
  rewrite Happ. simpl. rewrite H0, (sumLengths_blobs contents blobs); [lia|].
  apply Forall2_same_length_lookup_2; [done|]. intros i bi b Hi Hb'.
  apply (Hb i bi b); [|done]. rewrite lookup_app_l; [done|]. by apply lookup_lt_Some in Hi.
Qed.

Lemma totalSize_blobs : totalSize sdBlob = Z.of_nat (length (concat blobs)).
Proof.
  unfold totalSize, totalSizeOf. pose proof (so_range SO) as Hr.
  rewrite (imap_ext pair (fun i bi => (0 + i, bi)%nat)) by done.
  rewrite totalSize_fold; [rewrite sumLengths_infos; lia|apply infos_nonneg|lia|rewrite sumLengths_infos; lia].
Qed.

Lemma chunks_le_total : Z.of_nat (length (concat chunks)) <= totalSize sdBlob.
Proof. rewrite totalSize_blobs. pose proof (concat_le _ _ chunks_shorter). lia. Qed.

Lemma concat_take_le (l : list bytes) n : (length (concat (take n l)) <= length (concat l))%nat.
Proof. rewrite <- (take_drop n l) at 2. rewrite concat_app, length_app. lia. Qed.

(** ** The invariant *)

(** The chunk of a blob; the terminating blob and what is beyond it are empty. *)
Definition chunkAt (i : nat) : bytes := default [] (chunks !! i).

(** What has been delivered, [D], is the chunks before the current one and the current one
    up to the offset; whatever is cached is the chunk of its blob. *)
Record good D s : Prop := {
  g_cache i d t : rd_blobCache s !! i = Some (d, t) -> chunks !! i = Some d;
  g_data d : rd_currentData s = Some d ->
    d = chunkAt (rd_currentBlob s) /\ (rd_currentBlob s <= length chunks)%nat;
  g_offset : 0 <= rd_blobOffset s <= Z.of_nat (length (chunkAt (rd_currentBlob s)));
  g_blob : (rd_currentBlob s <= S (length chunks))%nat;
  g_pos : rd_currentPos s = Z.of_nat (length D);
  g_delivered : D = concat (take (rd_currentBlob s) chunks)
    ++ take (Z.to_nat (rd_blobOffset s)) (chunkAt (rd_currentBlob s))
}.

(** Where the reader is does not change. *)
Definition sameSpot s s' : Prop :=
  rd_currentPos s' = rd_currentPos s /\ rd_currentBlob s' = rd_currentBlob s
  /\ rd_blobOffset s' = rd_blobOffset s /\ rd_closed s' = rd_closed s
  /\ (is_Some (rd_currentData s) -> is_Some (rd_currentData s')).

Lemma sameSpot_refl s : sameSpot s s.
Proof. by repeat split. Qed.
Lemma sameSpot_trans s s' s'' : sameSpot s s' -> sameSpot s' s'' -> sameSpot s s''.
Proof. intros (? & ? & ? & ? & ?) (? & ? & ? & ? & ?). split_and!; try congruence. auto. Qed.

(** The invariant is kept, errors satisfy [E] and values [Q], and nothing panics. *)
Definition outcome {A} D s (E : error -> Prop) (Q : A -> Reader -> Prop) (x : result A * Reader) : Prop :=
  good D x.2 /\ sameSpot s x.2 /\ match x.1 with Ok a => Q a x.2 | Err e => E e | Panic _ => False end.

Definition anyError : error -> Prop := fun _ => True.

Lemma outcome_bind {A C} D s E (Q : A -> Reader -> Prop) (Q' : C -> Reader -> Prop) (m : M A) (f : A -> M C) s0 :
  outcome D s E Q (m s0) ->
  (forall a s', good D s' -> sameSpot s s' -> Q a s' -> outcome D s E Q' (f a s')) ->
  outcome D s E Q' (andThen m f s0).
Proof.
  intros (Hg & Hs & Hq) Hf. unfold andThen. destruct (m s0) as [[a|e|w] s']; simpl in *; [by apply Hf|done|done].
Qed.

Lemma outcome_ret {A} D s E Q (r : result A) s' :
  good D s' -> sameSpot s s' -> match r with Ok a => Q a s' | Err e => E e | Panic _ => False end ->
  outcome D s E Q (ret r s').
Proof. intros. split; [done|by split]. Qed.

Lemma outcome_weaken {A} D s (E E' : error -> Prop) (Q Q' : A -> Reader -> Prop) x :
  outcome D s E Q x -> (forall e, E e -> E' e) -> (forall a s', Q a s' -> Q' a s') -> outcome D s E' Q' x.
Proof. intros (Hg & Hs & Hq) HE HQ. split_and!; [done..|]. destruct x as [[a|e|w] s']; simpl in *; auto. Qed.

Lemma ask_outcome {A} D s E (f : nat -> A) s' :
  good D s' -> sameSpot s s' -> outcome D s E (fun a _ => exists t, a = f t) (ask f s').
Proof.
  intros Hg Hs. split; [destruct Hg; by split|]. split; [done|by eexists].
Qed.

Lemma get_outcome D s E s' :
  good D s' -> sameSpot s s' -> outcome D s E (fun a s'' => a = s' /\ s'' = s') (get s').
Proof. intros. split; [done|by split]. Qed.

Lemma putLater_outcome D s E h d s' :
  good D s' -> sameSpot s s' -> outcome D s E (fun _ _ => True) (putLater h d s').
Proof. intros Hg Hs. split; [destruct Hg; by split|by split]. Qed.

(** *** Loading *)

Lemma evict_sub cache i x : evict config cache !! i = Some x -> cache !! i = Some x.
Proof.
  unfold evict. case_match; [|done]. destruct (oldest cache); [|done]. by intros [_ ?]%lookup_delete_Some.
Qed.

(** The current blob has its data. *)
Definition loadedAt (i : nat) s : Prop := rd_currentBlob s = i -> is_Some (rd_currentData s).

Lemma setBlobData_outcome D s E i b s' :
  blobs !! i = Some b -> good D s' -> sameSpot s s' ->
  outcome D s E (fun _ s'' => loadedAt i s'') (setBlobData world sdBlob config i b s').
Proof.
  intros Hb Hg Hs. destruct (info_of_blob i b Hb) as [bi Hi].
  destruct (so_blob SO i bi b Hi Hb) as (_ & _ & c & Hc & Hp).
  unfold setBlobData, index. rewrite Hi. unfold ret, andThen. rewrite Hp.
  unfold ask, get, setCache. cbn [rd_currentPos rd_currentBlob rd_blobOffset rd_currentData rd_blobCache
    rd_prefetchChan rd_closed rd_calls rd_puts].
  destruct Hg as [G1 G2 G3 G4 G5 G6]. pose proof (lookup_lt_Some _ _ _ Hc) as Hlt.
  assert (Hcache : forall j d t, evict config (<[i := (c, wo_Now world (rd_calls s'))]> (rd_blobCache s')) !! j = Some (d, t) ->
    chunks !! j = Some d).
  { intros j d t Hj%evict_sub. destruct (decide (j = i)) as [->|Hne].
    - rewrite lookup_insert_eq in Hj. by injection Hj as <- _.
    - rewrite lookup_insert_ne in Hj by done. by eapply G1. }
  destruct (Nat.eqb_spec i (rd_currentBlob s')) as [->|Hne]; unfold outcome, setCurrent; simpl.
  - split_and!; [split; simpl; try done|by destruct Hs as (? & ? & ? & ? & ?)|].
    + intros d [= <-]. unfold chunkAt. rewrite Hc. split; [done|lia].
    + by intros _.
  - split; [by split|]. split; [done|]. unfold loadedAt. simpl. intros Hx. by destruct Hne.
Qed.

Lemma verify_calm d h w : verify config d h <> Panic w.
Proof.
  unfold verify, VerifyBlobHash. destruct (rc_VerificationEnabled config); [|done]. case_decide; [done|].
  destruct (ComputeBlobHashBytes d) as [x|e|w'] eqn:E; cbn [wrap_err mbind result_bind];
    [|done|].
  2: { unfold ComputeBlobHashBytes in E. pose proof (DecodeString_no_panic (Hash d)) as Hn.
       destruct (DecodeString (Hash d)) as [x|e|w'']; try done. by destruct (Hn w''). }
  destruct (DecodeString h) as [y|e|w'] eqn:E'; cbn [wrap_err mbind result_bind]; [by case_decide|done|].
  by destruct (DecodeString_no_panic h w').
Qed.

(** Accepting data under the hash of a blob. *)
Lemma accepted_outcome D s E fmt i bi b d s' :
  infos !! i = Some bi -> blobs !! i = Some b ->
  (exists t, wo_Get world t (hashAt bi) = Ok d \/ wo_Acquire world t (hashAt bi) = Ok d) ->
  good D s' -> sameSpot s s' -> (forall e, E (EWrap fmt e)) ->
  outcome D s E (fun _ _ => d = b) (ret (wrap_err fmt (verify config d (hashAt bi))) s').
Proof.
  intros Hi Hb [t Ht] Hg Hs He. apply outcome_ret; [done..|].
  pose proof (verify_calm d (hashAt bi)) as Hc.
  destruct (verify config d (hashAt bi)) as [[]|e|w] eqn:Ev; simpl; [|done|by destruct (Hc w)].
  by eapply (ho_same HO).
Qed.

(** *** Retrying *)

Lemma attempts_outcome {A} D s (Q : A -> Reader -> Prop) n retryIf (op : M A) s' :
  (forall s'', good D s'' -> sameSpot s s'' -> outcome D s anyError Q (op s'')) ->
  good D s' -> sameSpot s s' -> outcome D s anyError Q (attempts world n retryIf op s').
Proof.
  intros Hop. revert s'. induction n as [|n IH]; intros s' Hg Hs; cbn [attempts].
  - pose proof (Hop s' Hg Hs) as H. by destruct (op s') as [[a|e|w] s1].
  - pose proof (Hop s' Hg Hs) as H. destruct (op s') as [[a|e|w] s1]; [done| |done].
    destruct H as (Hg1 & Hs1 & _). destruct n as [|n]; [by split|].
    destruct (negb (retryIf e)); [by split|].
    apply outcome_bind with (Q := fun _ _ => True).
    { eapply outcome_weaken; [apply (ask_outcome D s anyError (wo_Done world))|..]; done. }
    intros [ce|] s2 Hg2 Hs2 _; [by apply outcome_ret|by apply IH].
Qed.

Lemma WithRetry_outcome {A} D s (Q : A -> Reader -> Prop) options (op : M A) s' :
  (forall s'', good D s'' -> sameSpot s s'' -> outcome D s anyError Q (op s'')) ->
  good D s' -> sameSpot s s' -> outcome D s anyError Q (WithRetry world options op s').
Proof.
  intros Hop Hg Hs. apply outcome_bind with (Q := fun _ _ => True).
  { eapply outcome_weaken; [apply (ask_outcome D s anyError (wo_Done world))|..]; done. }
  intros [ce|] s2 Hg2 Hs2 _; [by apply outcome_ret|by apply attempts_outcome].
Qed.

(** *** The two sources *)

Lemma fromStore_outcome D s i bi b s' :
  infos !! i = Some bi -> blobs !! i = Some b -> good D s' -> sameSpot s s' ->
  outcome D s anyError (fun _ s'' => loadedAt i s'') (fromStore world sdBlob config i (hashAt bi) s').
Proof.
  intros Hi Hb Hg Hs. unfold fromStore. eapply outcome_bind; [by apply ask_outcome|].
  intros has s1 Hg1 Hs1 [t ->]. pose proof (ho_has HO t (hashAt bi)) as Hc.
  destruct (wo_Has world t (hashAt bi)) as [[]|e|w]; [|by apply outcome_ret..|by destruct (Hc w)].
  eapply outcome_bind; [by apply ask_outcome|].
  intros got s2 Hg2 Hs2 [t' E]. pose proof (ho_get HO t' (hashAt bi)) as Hc'.
  rewrite E. destruct (wo_Get world t' (hashAt bi)) as [d|e|w] eqn:Eg; [|by apply outcome_ret|by destruct (Hc' w)].
  eapply outcome_bind; [eapply (accepted_outcome D s anyError); eauto; done|].
  intros [] s3 Hg3 Hs3 ->. by apply setBlobData_outcome.
Qed.

(** What the acquirer returned. *)
Lemma acquireOnce_outcome D s op h s' :
  good D s' -> sameSpot s s' ->
  outcome D s anyError (fun d _ => exists t, wo_Acquire world t h = Ok d) (acquireOnce world op h s').
Proof.
  intros Hg Hs. unfold acquireOnce. eapply outcome_bind; [by apply ask_outcome|].
  intros got s1 Hg1 Hs1 [t ->]. pose proof (ho_acquire HO t h) as Hc. apply outcome_ret; [done..|].
  destruct (wo_Acquire world t h) as [d|e|w] eqn:E; [by exists t|done|by destruct (Hc w)].
Qed.

Definition notEnd : error -> Prop := fun e => e <> ESent EOF.

Lemma putIfStore_outcome D s E h d s' :
  good D s' -> sameSpot s s' ->
  outcome D s E (fun _ _ => True) ((if wo_store world then putLater h d else ret (Ok tt)) s').
Proof. intros. destruct (wo_store world); [by apply putLater_outcome|by apply outcome_ret]. Qed.

Lemma fromNetwork_outcome D s i bi b s' :
  infos !! i = Some bi -> blobs !! i = Some b -> good D s' -> sameSpot s s' ->
  outcome D s notEnd (fun _ s'' => loadedAt i s'') (fromNetwork world sdBlob config i (hashAt bi) s').
Proof.
  intros Hi Hb Hg Hs. unfold fromNetwork.
  pose proof (WithRetry_outcome D s (fun d _ => exists t, wo_Acquire world t (hashAt bi) = Ok d) DefaultRetryOptions
    (acquireOnce world "network_acquire" (hashAt bi)) s' (fun s'' => acquireOnce_outcome D s _ _ s'') Hg Hs) as H.
  destruct (WithRetry _ _ _ s') as [[d|e|w] s1]; destruct H as (Hg1 & Hs1 & Hd); simpl in *; [|by split|done].
  destruct Hd as [t Ht].
  case_bool_decide; [by apply outcome_ret|]. eapply outcome_bind; [eapply (accepted_outcome D s notEnd); eauto; done|].
  intros [] s2 Hg2 Hs2 ->. eapply outcome_bind; [by apply putIfStore_outcome|].
  intros _ s3 Hg3 Hs3 _. by apply setBlobData_outcome.
Qed.

Lemma loadBlob_outcome D s i bi b s' :
  infos !! i = Some bi -> blobs !! i = Some b -> good D s' -> sameSpot s s' ->
  outcome D s notEnd (fun _ s'' => loadedAt i s'') (loadBlob world sdBlob config i (hashAt bi) s').
Proof.
  intros Hi Hb Hg Hs. unfold loadBlob. destruct (wo_store world); [|by eapply fromNetwork_outcome].
  pose proof (WithRetry_outcome D s (fun _ s'' => loadedAt i s'') DefaultRetryOptions
    (fromStore world sdBlob config i (hashAt bi)) s' (fun s'' => fromStore_outcome D s i bi b s'' Hi Hb) Hg Hs) as H.
  destruct (WithRetry _ _ _ s') as [[[]|e|w] s1]; [done| |by destruct H as (_ & _ & [])].
  destruct H as (Hg1 & Hs1 & _). simpl in *. destruct (negb _); [by eapply fromNetwork_outcome|by split].
Qed.

(** *** The pieces of a read *)

Lemma setCurrent_data D s E d s' :
  good D s' -> sameSpot s s' -> d = chunkAt (rd_currentBlob s') -> (rd_currentBlob s' <= length chunks)%nat ->
  outcome D s E (fun _ s'' => is_Some (rd_currentData s''))
    (setCurrent (rd_currentBlob s') (rd_blobOffset s') (Some d) s').
Proof.
  intros [G1 G2 G3 G4 G5 G6] Hs Hd Hl. split; [split; simpl; try done; by intros d' [= <-]|].
  split; [|by eexists]. destruct Hs as (? & ? & ? & ? & ?). by split_and!.
Qed.

(** The end of the stream, or the current blob is there. *)
Lemma ensure_outcome D s :
  good D s ->
  outcome D s (fun e => e = ESent EOF -> D = concat chunks) (fun _ s'' => is_Some (rd_currentData s''))
    (ensureCurrentBlob world sdBlob config s).
Proof.
  intros Hg. unfold ensureCurrentBlob. eapply outcome_bind; [apply get_outcome; [done|apply sameSpot_refl]|].
  intros s0 s1 _ Hs [-> ->]. destruct (rd_currentData s) as [d|] eqn:Ed; [by apply outcome_ret; eauto|].
  destruct (Nat.leb_spec (length infos) (rd_currentBlob s)) as [Hl|Hl]; rewrite infos_length in Hl.
  { apply outcome_ret; [done..|]. intros _. destruct Hg as [G1 G2 G3 G4 G5 G6].
    rewrite G6. unfold chunkAt. rewrite (lookup_ge_None_2 chunks) by lia. simpl. rewrite take_nil, app_nil_r.
    by rewrite take_ge by lia. }
  destruct (rd_blobCache s !! rd_currentBlob s) as [[d t]|] eqn:Ec.
  { eapply outcome_weaken; [apply (setCurrent_data D s notEnd); [done|done| |lia]|by intros e He ->|done].
    unfold chunkAt. by rewrite (g_cache _ _ Hg _ _ _ Ec). }
  destruct (infos !! rd_currentBlob s) as [bi|] eqn:Ei.
  2: { apply lookup_ge_None in Ei. rewrite infos_length in Ei. lia. }
  unfold index. rewrite Ei. eapply outcome_bind; [apply (outcome_ret D s _ (fun x s' => x = bi /\ s' = s)); done|].
  intros x s' _ _ [-> ->]. fold (hashAt bi). case_bool_decide as Eh.
  - eapply outcome_weaken; [apply (setCurrent_data D s notEnd); [done|done| |lia]|by intros e He ->|done].
    unfold chunkAt. destruct (chunks !! rd_currentBlob s) as [c|] eqn:Hc; [|done]. exfalso.
    pose proof (lookup_lt_Some _ _ _ Hc) as Hlt. rewrite (so_length SO) in Hlt.
    destruct (lookup_lt_is_Some_2 blobs _ Hlt) as [b Hb].
    destruct (so_blob SO _ _ _ Ei Hb) as (_ & Hne & _). apply Hne. unfold hashAt in Eh.
    apply length_zero_iff_nil. pose proof (length_EncodeToString (bi_BlobHash bi)) as HL. rewrite Eh in HL. simpl in HL. lia.
  - assert (Hlt : (rd_currentBlob s < length blobs)%nat).
    { rewrite <- (so_length SO). destruct (decide (rd_currentBlob s = length chunks)) as [E|]; [|lia].
      rewrite E in Ei. apply terminator_at in Ei as [Ez _]. unfold hashAt in Eh. rewrite Ez in Eh. by destruct Eh. }
    destruct (lookup_lt_is_Some_2 blobs _ Hlt) as [b Hb].
    pose proof (loadBlob_outcome D s (rd_currentBlob s) bi b s Ei Hb Hg (sameSpot_refl s)) as (H1 & H2 & H3).
    split; [done|]. split; [done|]. destruct (loadBlob _ _ _ _ _ _) as [[[]|e|w] s']; simpl in *; [|by intros ->|done].
    apply H3. by destruct H2 as (_ & E & _).
Qed.

Lemma g_prefix D s : good D s -> exists rest, concat chunks = D ++ rest.
Proof.
  intros [G1 G2 G3 G4 G5 G6]. unfold chunkAt in G6. destruct (chunks !! rd_currentBlob s) as [c|] eqn:Hc.
  - exists (drop (Z.to_nat (rd_blobOffset s)) c ++ concat (drop (S (rd_currentBlob s)) chunks)).
    rewrite G6. simpl. change (id c) with c. rewrite <- app_assoc, (app_assoc (take _ c)), take_drop.
    rewrite <- (take_drop_middle _ _ _ Hc) at 1. by rewrite concat_app.
  - exists []. rewrite G6. simpl. rewrite take_nil, !app_nil_r. apply lookup_ge_None in Hc.
    by rewrite take_ge.
Qed.

Lemma start_outcome D s :
  good D s ->
  outcome D s (fun e => e = ESent EOF -> D = concat chunks) (fun _ _ => True) (readStart sdBlob s).
Proof.
  intros Hg. unfold readStart, get, andThen. destruct (rd_closed s); [by apply outcome_ret|].
  destruct (Z.leb_spec (totalSize sdBlob) (rd_currentPos s)) as [Hl|Hl]; [|by apply outcome_ret].
  apply outcome_ret; [done..|]. intros _. destruct (g_prefix D s Hg) as [rest E]. rewrite (g_pos _ _ Hg) in Hl.
  pose proof chunks_le_total as Ht. rewrite E, length_app in Ht. destruct rest; [by rewrite E, app_nil_r|simpl in Ht; lia].
Qed.

(** A piece of the current chunk is delivered. *)
Lemma copy_good D s n :
  good D s -> is_Some (rd_currentData s) -> 0 <= n ->
  exists bs need s',
    readCopy sdBlob n s = (Ok (bs, need), s') /\ good (D ++ bs) s'
    /\ is_Some (rd_currentData s') /\ rd_currentBlob s' = rd_currentBlob s /\ rd_closed s' = rd_closed s
    /\ need = (Z.of_nat (length (chunkAt (rd_currentBlob s'))) <=? rd_blobOffset s')
    /\ (0 < n -> (0 < length bs)%nat \/ need = true).
Proof.
  intros Hg [d Hd] Hn. pose proof (g_prefix D s Hg) as [rest Er]. destruct Hg as [G1 G2 G3 G4 G5 G6].
  destruct (G2 d Hd) as [-> Hb]. set (b := rd_currentBlob s) in *. set (c := chunkAt b) in *.
  pose proof chunks_le_total as Ht. pose proof totalSize_blobs as Htb. pose proof (so_range SO) as Hr.
  (* what is left of the chunk is left of the stream *)
  assert (Hrest : Z.of_nat (length c) - rd_blobOffset s <= totalSize sdBlob - Z.of_nat (length D)).
  { enough ((length c - Z.to_nat (rd_blobOffset s) + length D <= length (concat chunks))%nat) by lia.
    rewrite G6, length_app, length_take. destruct (chunks !! b) as [c'|] eqn:Hc.
    - rewrite <- (take_drop_middle _ _ _ Hc) at 2. rewrite concat_app, length_app. simpl. rewrite length_app.
      subst c. unfold chunkAt. rewrite Hc. simpl. change (id c') with c'. lia.
    - assert (c = []) as -> by (subst c; unfold chunkAt; by rewrite Hc). simpl.
      pose proof (concat_take_le chunks b). lia. }
  assert (HoD : rd_blobOffset s <= Z.of_nat (length D)) by (rewrite G6, length_app, length_take; lia).
  assert (HcR : Z.of_nat (length c) < 2 ^ 63) by lia.
  unfold readCopy, get, andThen, ret, setCurrent, setPos. rewrite Hd. cbn [default from_option]. change (id c) with c.
  rewrite G5. fold b.
  rewrite (int64_id (Z.of_nat (length c) - rd_blobOffset s)) by (unfold in_int64; lia).
  rewrite (int64_id (totalSize sdBlob - Z.of_nat (length D))) by (unfold in_int64; lia).
  set (m := Z.min n (Z.of_nat (length c) - rd_blobOffset s)).
  assert (Em : (if Z.of_nat (length c) - rd_blobOffset s <? n then Z.of_nat (length c) - rd_blobOffset s else n) = m).
  { subst m. destruct (Z.ltb_spec (Z.of_nat (length c) - rd_blobOffset s) n); lia. }
  rewrite Em. rewrite (proj2 (Z.ltb_ge _ m)) by lia. rewrite (proj2 (Z.ltb_ge m 0)) by lia.
  rewrite !int64_id by (unfold in_int64; lia). do 3 eexists. split; [reflexivity|]. cbn.
  assert (Hlen : length (take (Z.to_nat m) (drop (Z.to_nat (rd_blobOffset s)) c)) = Z.to_nat m).
  { rewrite length_take, length_drop. lia. }
  split_and!; [|by eexists|done|done|done|].
  - split; cbn; fold b c; [done| |lia|done|rewrite length_app, Hlen; lia|].
    + intros d [= <-]. done.
    + rewrite G6, <- app_assoc. f_equal. rewrite Z2Nat.inj_add by lia.
      by rewrite take_take_drop.
  - intros Hn'. rewrite Hlen. fold b c. destruct (Z.leb_spec (Z.of_nat (length c)) (rd_blobOffset s + m)); [by right|left; lia].
Qed.

(** Moving on changes nothing that was delivered. *)
Lemma advance_good D s need :
  good D s -> is_Some (rd_currentData s) ->
  need = (Z.of_nat (length (chunkAt (rd_currentBlob s))) <=? rd_blobOffset s) ->
  exists s', readAdvance sdBlob config need s = (Ok tt, s') /\ good D s'
    /\ rd_currentBlob s' = (if need then S (rd_currentBlob s) else rd_currentBlob s) /\ rd_closed s' = rd_closed s.
Proof.
  intros Hg [d Hd] Hneed. destruct (g_data _ _ Hg d Hd) as [-> Hb].
  unfold readAdvance, get, andThen, ret, setCurrent, setChan. rewrite Hd. cbn [default from_option].
  change (id (chunkAt (rd_currentBlob s))) with (chunkAt (rd_currentBlob s)). rewrite <- Hneed.
  destruct need; cbn [negb]; [|by exists s].
  symmetry in Hneed. apply Z.leb_le in Hneed. destruct Hg as [G1 G2 G3 G4 G5 G6].
  assert (Hnext : forall chan, good D (mkReader (rd_currentPos s) (S (rd_currentBlob s)) 0 None (rd_blobCache s) chan
    (rd_closed s) (rd_calls s) (rd_puts s))).
  { intros chan. split; cbn; [done|done|lia|lia|done|].
    rewrite app_nil_r. rewrite G6, (take_ge (chunkAt _)) by lia. unfold chunkAt.
    destruct (chunks !! rd_currentBlob s) as [c|] eqn:Hc.
    - rewrite (take_S_r _ _ _ Hc), concat_app. simpl. change (id c) with c. by rewrite app_nil_r.
    - apply lookup_ge_None in Hc. simpl. rewrite app_nil_r. by rewrite !take_ge by lia. }
  destruct (_ && _); [destruct (rd_prefetchChan s)|]; eexists; (split; [reflexivity|]); cbn; split_and!; try done; apply Hnext.
Qed.

(** *** The goroutines *)

Lemma prefetchNetwork_outcome D s i bi b s' :
  infos !! i = Some bi -> blobs !! i = Some b -> good D s' -> sameSpot s s' ->
  outcome D s anyError (fun _ _ => True) (prefetchNetwork world sdBlob config i (hashAt bi) s').
Proof.
  intros Hi Hb Hg Hs. unfold prefetchNetwork.
  eapply outcome_bind; [apply WithRetry_outcome; [intros; by apply acquireOnce_outcome|done|done]|].
  intros d s1 Hg1 Hs1 [t Ht]. apply outcome_bind with (Q := fun _ _ => d = b).
  { pose proof (verify_calm d (hashAt bi)) as Hc. apply outcome_ret; [done..|].
    destruct (verify config d (hashAt bi)) as [[]|e|w] eqn:Ev; [exact (ho_same HO i bi b t d Hi Hb (or_intror Ht) Ev)|done|by destruct (Hc w)]. }
  intros _ s2 Hg2 Hs2 ->. eapply outcome_bind; [by apply putIfStore_outcome|].
  intros _ s3 Hg3 Hs3 _. eapply outcome_weaken; [by apply (setBlobData_outcome D s anyError)|done|done].
Qed.

Lemma prefetchBlob_outcome D s i s' :
  good D s' -> sameSpot s s' -> outcome D s anyError (fun _ _ => True) (prefetchBlob world sdBlob config i s').
Proof.
  intros Hg Hs. unfold prefetchBlob. eapply outcome_bind; [by apply get_outcome|].
  intros s0 s1 _ _ [-> ->]. destruct (infos !! i) as [bi|] eqn:Hi; [|by apply outcome_ret].
  destruct (rd_blobCache s' !! i); [by apply outcome_ret|]. fold (hashAt bi).
  case_bool_decide as Eh; [by apply outcome_ret|].
  assert (exists b, blobs !! i = Some b) as [b Hb].
  { apply lookup_lt_is_Some. pose proof (lookup_lt_Some _ _ _ Hi) as Hl. rewrite infos_length in Hl.
    rewrite <- (so_length SO). destruct (decide (i = length chunks)) as [->|]; [|lia].
    apply terminator_at in Hi as [E _]. unfold hashAt in Eh. rewrite E in Eh. by destruct Eh. }
  destruct (wo_store world); [|by eapply prefetchNetwork_outcome].
  eapply outcome_bind; [by apply ask_outcome|]. intros has s1 Hg1 Hs1 [t ->].
  pose proof (ho_has HO t (hashAt bi)) as Hc.
  destruct (wo_Has world t (hashAt bi)) as [[]|e|w]; [|by eapply prefetchNetwork_outcome..|by destruct (Hc w)].
  eapply outcome_bind; [by apply ask_outcome|]. intros got s2 Hg2 Hs2 [t' ->].
  pose proof (ho_get HO t' (hashAt bi)) as Hc'.
  destruct (wo_Get world t' (hashAt bi)) as [d|e|w] eqn:Eg; [|by eapply prefetchNetwork_outcome|by destruct (Hc' w)].
  apply outcome_bind with (Q := fun _ _ => d = b).
  { pose proof (verify_calm d (hashAt bi)) as Hv. apply outcome_ret; [done..|].
    destruct (verify config d (hashAt bi)) as [[]|e|w] eqn:Ev; [exact (ho_same HO i bi b t' d Hi Hb (or_introl Eg) Ev)|done|by destruct (Hv w)]. }
  intros _ s3 Hg3 Hs3 ->. eapply outcome_weaken; [by apply (setBlobData_outcome D s anyError)|done|done].
Qed.

Lemma prefetch_good D s :
  good D s -> exists s', prefetchTurn world sdBlob config s = (Ok tt, s') /\ good D s' /\ sameSpot s s'.
Proof.
  intros Hg. unfold prefetchTurn. destruct (rd_prefetchChan s) as [i|]; [|exists s; split; [done|]; split; [done|apply sameSpot_refl]].
  assert (H : outcome D s anyError (fun _ _ => True) ((let* _ := setChan None in prefetchBlob world sdBlob config i) s)).
  { unfold andThen, setChan. apply prefetchBlob_outcome; [destruct Hg; by split|done]. }
  destruct ((let* _ := setChan None in prefetchBlob world sdBlob config i) s) as [[[]|e|w] s']; destruct H as (H1 & H2 & H3); [eauto..|done].
Qed.

Lemma touch_good D s i : good D s -> exists s', touch world i s = (Ok tt, s') /\ good D s' /\ sameSpot s s'.
Proof.
  intros Hg. unfold touch, ask, get, andThen, ret, setCache. cbn. destruct (rd_blobCache s !! i) as [[d t]|] eqn:E.
  - eexists. split; [reflexivity|]. split; [|done]. destruct Hg as [G1 G2 G3 G4 G5 G6]. split; cbn; try done.
    intros j d' t' Hj. destruct (decide (j = i)) as [->|Hne].
    + rewrite lookup_insert_eq in Hj. injection Hj as <- <-. by eapply G1.
    + rewrite lookup_insert_ne in Hj by done. by eapply G1.
  - eexists. split; [reflexivity|]. split; [|done]. destruct Hg. by split.
Qed.

(** *** From the beginning *)

Lemma findBlob_zero : findBlob 0 0 infos 0 = Some (0%nat, 0) \/ chunks = [].
Proof.
  destruct chunks as [|c cs] eqn:Ec; [by right|left].
  destruct (lookup_lt_is_Some_2 blobs 0) as [b Hb]; [rewrite <- (so_length SO), Ec; simpl; lia|].
  destruct (info_of_blob 0 b Hb) as [bi Hi]. destruct (so_blob SO _ _ _ Hi Hb) as (Hl & _ & c' & Hc' & Hp).
  apply Plaintext_shorter in Hp. pose proof (so_range SO) as Hr.
  assert (Z.of_nat (length b) < 2 ^ 63).
  { destruct blobs as [|b' bs]; [done|]. injection Hb as ->. simpl in Hr. rewrite length_app in Hr. lia. }
  destruct infos as [|bi' bis]; [done|]. injection Hi as ->. cbn [findBlob].
  rewrite Hl, int64_id by (unfold in_int64; lia). rewrite (proj2 (Z.ltb_lt _ _)) by lia. done.
Qed.

Lemma rewind_good D s :
  good D s -> rd_closed s = false ->
  exists pos s', Reader_Seek sdBlob 0 SeekStart s = (Ok pos, s') /\ good [] s' /\ rd_closed s' = false.
Proof.
  intros Hg Hc. unfold Reader_Seek, get, andThen, ret, setPos, setCurrent. rewrite Hc. cbn [Z.eqb SeekStart].
  pose proof totalSize_blobs as Ht. rewrite (proj2 (Z.ltb_ge _ _)) by lia. rewrite (proj2 (Z.ltb_ge _ _)) by lia. cbn [orb].
  destruct Hg as [G1 G2 G3 G4 G5 G6].
  destruct findBlob_zero as [->|E].
  - do 2 eexists. split; [reflexivity|]. split; [|done]. split; cbn; try done; lia.
  - assert (blobs = []) as Eb by (apply nil_length_inv; by rewrite <- (so_length SO), E).
    assert (totalSize sdBlob = 0) as E0 by (rewrite Ht, Eb; done).
    destruct (findBlob 0 0 infos 0) as [[i o]|] eqn:Ef.
    + exfalso. pose proof infos_length as Hl. pose proof (terminator_at) as Hterm. rewrite E in Hl, Hterm.
      destruct infos as [|bi [|? ?]]; [done| |done]. destruct (Hterm bi eq_refl) as [_ Hz].
      cbn [findBlob] in Ef. by rewrite Hz in Ef.
    + do 2 eexists. split; [reflexivity|]. split; [|done]. rewrite E0.
      split; cbn; try done; unfold chunkAt; rewrite infos_length, E; simpl; try lia; done.
Qed.

Lemma new_good calls : good [] (readerAt calls).
Proof. split; cbn; try done; lia. Qed.

(** ** Sessions

    One goroutine reads; the prefetcher and the goroutines that note accesses run between
    the pieces of a read. *)

Inductive phase := Idle | Ensuring (n : Z) | Copying (n : Z) | Advancing (bs : bytes) (need : bool).
Inductive event := ERead (n : Z) | EStep | EPrefetch | ETouch (i : nat) | EClose | ERewind.

(** [ss_out]: what the reads have returned since the last rewind. *)
Record session := mkSession { ss_reader : Reader; ss_phase : phase; ss_out : list (result bytes) }.

Definition goOn {A} (x : result A * Reader) (next : A -> phase) (out : list (result bytes)) : session :=
  match x with
  | (Ok a, s) => mkSession s (next a) out
  | (Err e, s) => mkSession s Idle (out ++ [Err e])
  | (Panic w, s) => mkSession s Idle (out ++ [Panic w])
  end.

Definition onEvent (ev : event) (S : session) : session :=
  let '(mkSession s ph out) := S in
  match ev, ph with
  | ERead n, Idle => goOn (readStart sdBlob s) (fun _ => Ensuring n) out
  | EStep, Ensuring n => goOn (ensureCurrentBlob world sdBlob config s) (fun _ => Copying n) out
  | EStep, Copying n => goOn (readCopy sdBlob n s) (fun x => Advancing x.1 x.2) out
  | EStep, Advancing bs need => goOn (readAdvance sdBlob config need s) (fun _ => Idle) (out ++ [Ok bs])
  | EPrefetch, _ => if rd_closed s then S else mkSession (prefetchTurn world sdBlob config s).2 ph out
  | ETouch i, _ => mkSession (touch world i s).2 ph out
  | EClose, Idle => mkSession (Reader_Close s).2 Idle out
  | ERewind, Idle =>
      match Reader_Seek sdBlob 0 SeekStart s with (Ok _, s) => mkSession s Idle [] | (_, s) => mkSession s Idle out end
  | _, _ => S
  end.

Definition delivered (out : list (result bytes)) : bytes :=
  concat (map (fun r => match r with Ok bs => bs | _ => [] end) out).

Definition validEvent (ev : event) : Prop := match ev with ERead n => 0 <= n | _ => True end.

(** The results so far: no panic, and the end only when all was delivered. *)
Definition goodOut (out : list (result bytes)) : Prop :=
  Forall (fun r => match r with Ok _ => True | Err e => e = ESent EOF -> delivered out = concat chunks | Panic _ => False end) out.

Definition goodSession (S : session) : Prop :=
  let '(mkSession s ph out) := S in
  goodOut out /\
  match ph with
  | Idle => good (delivered out) s
  | Ensuring n => good (delivered out) s /\ 0 <= n
  | Copying n => good (delivered out) s /\ 0 <= n /\ is_Some (rd_currentData s)
  | Advancing bs need =>
      good (delivered out ++ bs) s /\ is_Some (rd_currentData s)
      /\ need = (Z.of_nat (length (chunkAt (rd_currentBlob s))) <=? rd_blobOffset s)
  end.

Lemma delivered_app out out' : delivered (out ++ out') = delivered out ++ delivered out'.
Proof. unfold delivered. by rewrite map_app, concat_app. Qed.

Lemma goodOut_Err out e :
  goodOut out -> (e = ESent EOF -> delivered out = concat chunks) -> goodOut (out ++ [Err e]).
Proof.
  intros Ho He. unfold goodOut in *. rewrite delivered_app. cbn. rewrite app_nil_r. apply Forall_app. by repeat constructor.
Qed.

Lemma goodOut_Ok out bs s : goodOut out -> good (delivered out ++ bs) s -> goodOut (out ++ [Ok bs]).
Proof.
  intros Ho Hg. destruct (g_prefix _ _ Hg) as [rest E]. unfold goodOut in *. rewrite delivered_app.
  cbn. rewrite app_nil_r. apply Forall_app. split; [|by repeat constructor]. eapply Forall_impl; [exact Ho|].
  intros [bs'|e|w]; try done. intros He ->. specialize (He eq_refl). rewrite He in *.
  rewrite <- app_assoc in E. rewrite <- (app_nil_r (concat chunks)) in E at 1. apply app_inv_head in E.
  symmetry in E. apply app_eq_nil in E as [-> _]. by rewrite app_nil_r.
Qed.

(** Only a spot matters to a phase. *)
Lemma goodSession_moved s s' ph out :
  (forall D, good D s -> good D s') -> sameSpot s s' ->
  goodSession (mkSession s ph out) -> goodSession (mkSession s' ph out).
Proof.
  intros Hg (_ & Hb & Ho & _ & Hd) [Hout Hph]. split; [done|]. destruct ph as [|n|n|bs need].
  - auto.
  - destruct Hph. auto.
  - destruct Hph as (? & ? & ?). auto.
  - destruct Hph as (? & ? & ?). rewrite Hb, Ho. auto.
Qed.

Lemma onEvent_good ev S : validEvent ev -> goodSession S -> goodSession (onEvent ev S).
Proof.
  intros Hv HS. destruct S as [s ph out]. destruct ev as [n| | |i| |]; cbn [onEvent].
  - destruct ph; try done. destruct HS as [Ho Hg]. pose proof (start_outcome _ _ Hg) as (Hg' & _ & Hr).
    destruct (readStart sdBlob s) as [[[]|e|w] s']; simpl in *; [done|split; [by apply goodOut_Err|]|done].
    by rewrite delivered_app, app_nil_r.
  - destruct ph as [|n|n|bs need]; [done|..].
    + destruct HS as (Ho & Hg & Hn). pose proof (ensure_outcome _ _ Hg) as (Hg' & _ & Hr).
      destruct (ensureCurrentBlob world sdBlob config s) as [[[]|e|w] s']; simpl in *; [done|split; [by apply goodOut_Err|]|done].
      by rewrite delivered_app, app_nil_r.
    + destruct HS as (Ho & Hg & Hn & Hd). destruct (copy_good _ _ n Hg Hd Hn) as (bs & need & s' & -> & H1 & H2 & H3 & _ & H4 & _).
      simpl. by rewrite H4.
    + destruct HS as (Ho & Hg & Hd & Hn). destruct (advance_good _ _ need Hg Hd Hn) as (s' & -> & H1 & _).
      simpl. split; [by eapply goodOut_Ok|]. rewrite delivered_app. cbn. by rewrite app_nil_r.
  - destruct (rd_closed s); [done|].
    assert (Hx : exists D, good D s) by (destruct ph, HS as [_ HS]; [|destruct HS..]; eauto).
    destruct Hx as [D HD]. destruct (prefetch_good D s HD) as (s' & E & _ & Hs).
    apply (goodSession_moved s); [|by rewrite E|done]. intros D' HD'.
    destruct (prefetch_good D' s HD') as (s'' & E' & Hg' & _). by rewrite E'.
  - assert (Hx : exists D, good D s) by (destruct ph, HS as [_ HS]; [|destruct HS..]; eauto).
    destruct Hx as [D HD]. destruct (touch_good D s i HD) as (s' & E & _ & Hs).
    apply (goodSession_moved s); [|by rewrite E|done]. intros D' HD'.
    destruct (touch_good D' s i HD') as (s'' & E' & Hg' & _). by rewrite E'.
  - destruct ph; try done. destruct HS as [Ho Hg]. split; [done|]. unfold Reader_Close.
    destruct (rd_closed s); [done|]. destruct Hg. by split.
  - destruct ph; try done. destruct HS as [Ho Hg]. destruct (rd_closed s) eqn:Hc.
    { unfold Reader_Seek, get, andThen, ret. rewrite Hc. by split. }
    destruct (rewind_good _ _ Hg Hc) as (pos & s' & -> & Hg' & _). split; [constructor|done].
Qed.

Definition runEvents (evs : list event) : session :=
  foldl (fun S ev => onEvent ev S) (mkSession newReader Idle []) evs.

Lemma runEvents_good evs : Forall validEvent evs -> goodSession (runEvents evs).
Proof.
  intros Hv. unfold runEvents.
  assert (H0 : goodSession (mkSession newReader Idle [])) by (split; [constructor|apply new_good]).
  revert H0. generalize (mkSession newReader Idle []). induction Hv as [|ev evs He _ IH]; intros S HS; [done|].
  simpl. apply IH. by apply onEvent_good.
Qed.

(** C4. Whatever the store and the peers answer and whenever they fail, and however the
    prefetcher and the other goroutines run in between, as long as no two different blobs
    are accepted under one hash: the reads of a reader return, without a panic, pieces
    that together are the beginning of the stream's plaintext since the last rewind, and
    [io.EOF] only when all of it has been returned. *)
Theorem reader_delivers_stream evs :
  Forall validEvent evs ->
  let out := ss_out (runEvents evs) in
  (forall w, Panic w ∉ out)
  /\ (exists rest, concat chunks = delivered out ++ rest)
  /\ (Err (ESent EOF) ∈ out -> delivered out = concat chunks).
Proof.
  intros Hv out.
  pose proof (runEvents_good evs Hv) as HS.
  destruct (runEvents evs) as [s ph o]. subst out. simpl. destruct HS as [Ho Hph]. unfold goodOut in Ho.
  rewrite Forall_forall in Ho. split_and!.
  - intros w Hw. exact (Ho _ Hw).
  - destruct ph as [|n|n|bs need]; [|destruct Hph as [Hph _]..]; [by eapply g_prefix..|].
    apply g_prefix in Hph as [rest E]. exists (bs ++ rest). by rewrite app_assoc.
  - intros He. exact (Ho _ He eq_refl).
Qed.
End Spec.
