(* ===== verification/StreamReaderLive.v ===== *)
(** * Reading a stream to its end

    In a world that has the blobs, reading until [io.EOF] ends and gives the whole stream,
    with buffers of any size.  What seeking does to a reader: positions count encrypted
    bytes, reads deliver decrypted ones. *)
From stdpp Require Import base tactics list numbers strings gmap.
From Stdlib Require Import ZArith Lia Init.Byte.
From S2P Require Import Prelude GoStd Aes Blob SdBlob StreamReader StreamReaderSpec.
Local Open Scope Z_scope.

Section Live.
Context (world : World) (sdBlob : SDBlob) (config : ReaderConfig) (blobs chunks : list bytes).
Abbreviation infos := (sd_BlobInfos sdBlob).
Context (SO : streamOf sdBlob blobs chunks) (HO : honest world sdBlob config blobs).
Implicit Types (s : Reader) (D : bytes).

(** The acquirer has the blobs, a store has them or says that it has not, and nobody
    cancels. *)
Record helpful : Prop := {
  he_done t : wo_Done world t = None;
  he_acquire i bi b t : infos !! i = Some bi -> blobs !! i = Some b -> wo_Acquire world t (hashAt bi) = Ok b;
  he_store i bi b t t' : infos !! i = Some bi -> blobs !! i = Some b ->
    wo_Has world t (hashAt bi) = Ok false \/ wo_Has world t (hashAt bi) = Ok true /\ wo_Get world t' (hashAt bi) = Ok b;
  he_verify i bi b : infos !! i = Some bi -> blobs !! i = Some b -> verify config b (hashAt bi) = Ok tt
}.
Context (HE : helpful).

Lemma blob_nonempty i b : blobs !! i = Some b -> b <> [].
Proof.
  intros Hb ->. destruct (info_of_blob _ _ _ SO i [] Hb) as [bi Hi].
  destruct (so_blob _ _ _ SO i bi [] Hi Hb) as (_ & _ & c & _ & Hp). apply Plaintext_shorter in Hp. simpl in Hp. lia.
Qed.

(** The chunk of the blob was put where it belongs, and nothing else changed. *)
Definition fetched i s s' : Prop :=
  rd_currentPos s' = rd_currentPos s /\ rd_currentBlob s' = rd_currentBlob s /\ rd_blobOffset s' = rd_blobOffset s
  /\ (rd_currentBlob s = i -> rd_currentData s' = Some (chunkAt chunks i)).

Lemma setBlobData_ok i b s :
  blobs !! i = Some b -> exists s', setBlobData world sdBlob config i b s = (Ok tt, s') /\ fetched i s s'.
Proof.
  intros Hb. destruct (info_of_blob _ _ _ SO i b Hb) as [bi Hi].
  destruct (so_blob _ _ _ SO i bi b Hi Hb) as (_ & _ & c & Hc & Hp).
  unfold setBlobData, index, ret, andThen. rewrite Hi, Hp. unfold ask, get, setCache, setCurrent. cbn.
  destruct (Nat.eqb_spec i (rd_currentBlob s)) as [->|Hne]; eexists; (split; [reflexivity|]); split_and!; try done.
  intros _. unfold chunkAt. by rewrite Hc.
Qed.

Definition tick s : Reader :=
  mkReader (rd_currentPos s) (rd_currentBlob s) (rd_blobOffset s) (rd_currentData s) (rd_blobCache s)
    (rd_prefetchChan s) (rd_closed s) (S (rd_calls s)) (rd_puts s).

Lemma bind_ask {A C} (f : nat -> A) (k : A -> M C) s : (let* x := ask f in k x) s = k (f (rd_calls s)) (tick s).
Proof. done. Qed.

(** A first attempt that settles it. *)
Lemma WithRetry_settled {A} (op : M A) s r s' :
  op (tick s) = (r, s') -> match r with Err e => isRetryableError e = false | _ => True end ->
  WithRetry world DefaultRetryOptions op s = (r, s').
Proof.
  intros E Hr. unfold WithRetry, andThen, ask. rewrite (he_done HE). cbn [attempts DefaultRetryOptions ro_Attempts].
  fold (tick s). rewrite E. destruct r as [a|e|w]; [done| |done].
  change (ro_RetryIf DefaultRetryOptions e) with (isRetryableError e). by rewrite Hr.
Qed.

Lemma fromNetwork_ok i bi b s :
  infos !! i = Some bi -> blobs !! i = Some b -> exists s', fromNetwork world sdBlob config i (hashAt bi) s = (Ok tt, s') /\ fetched i s s'.
Proof.
  intros Hi Hb. unfold fromNetwork.
  rewrite (WithRetry_settled _ s (Ok b) (tick (tick s)));
    [|unfold acquireOnce, andThen, ask, ret; by rewrite (he_acquire HE i bi b)|done].
  rewrite bool_decide_eq_false_2 by by eapply blob_nonempty. rewrite (he_verify HE i bi b) by done.
  unfold andThen, ret. cbn [wrap_err]. destruct (wo_store world); [apply (setBlobData_ok i b (mkReader _ _ _ _ _ _ _ _ _) Hb)|apply (setBlobData_ok i b (tick (tick s)) Hb)].
Qed.

Lemma loadBlob_ok i bi b s :
  infos !! i = Some bi -> blobs !! i = Some b -> exists s', loadBlob world sdBlob config i (hashAt bi) s = (Ok tt, s') /\ fetched i s s'.
Proof.
  intros Hi Hb. unfold loadBlob. destruct (wo_store world) eqn:Est; [|by eapply fromNetwork_ok].
  destruct (he_store HE i bi b (rd_calls (tick s)) (rd_calls (tick (tick s))) Hi Hb) as [E|[E E']].
  - rewrite (WithRetry_settled _ s (Err (ESent Client_ErrStreamNotFound)) (tick (tick s)));
      [|unfold fromStore, andThen, ask, ret; by rewrite E|done]. by apply (fromNetwork_ok i bi b (tick (tick s))).
  - destruct (setBlobData_ok i b (tick (tick (tick s))) Hb) as (s' & Es & Hf). exists s'.
    rewrite (WithRetry_settled _ s (Ok tt) s'); [by split| |done].
    unfold fromStore. rewrite bind_ask, E, bind_ask, E', (he_verify HE i bi b) by done. exact Es.
Qed.

Lemma ensure_ok D s :
  good chunks D s -> (rd_currentBlob s <= length chunks)%nat ->
  exists s', ensureCurrentBlob world sdBlob config s = (Ok tt, s') /\ good chunks D s' /\ sameSpot s s'
    /\ is_Some (rd_currentData s').
Proof.
  intros Hg Hl. pose proof (ensure_outcome _ _ _ _ _ SO HO D s Hg) as (H1 & H2 & H3).
  assert (exists s', ensureCurrentBlob world sdBlob config s = (Ok tt, s')) as [s' E].
  { unfold ensureCurrentBlob, get, andThen, ret, setCurrent. destruct (rd_currentData s); [by eexists|].
    rewrite (proj2 (Nat.leb_gt _ _)) by (rewrite (infos_length _ _ _ SO); lia).
    destruct (rd_blobCache s !! rd_currentBlob s) as [[? ?]|]; [by eexists|].
    unfold index. destruct (infos !! rd_currentBlob s) as [bi|] eqn:Ei.
    2: { apply lookup_ge_None in Ei. rewrite (infos_length _ _ _ SO) in Ei. lia. }
    fold (hashAt bi). case_bool_decide as Eh; [by eexists|].
    destruct (blobs !! rd_currentBlob s) as [b|] eqn:Hb.
    { destruct (loadBlob_ok _ bi b s Ei Hb) as (s' & -> & _). by eexists. }
    exfalso.
    apply lookup_ge_None in Hb. rewrite <- (so_length _ _ _ SO) in Hb.
    replace (rd_currentBlob s) with (length chunks) in Ei by lia.
    apply (terminator_at _ _ _ SO) in Ei as [Ez _]. unfold hashAt in Eh. by rewrite Ez in Eh. }
  rewrite E in *. exists s'. split; [done|]. by split.
Qed.

(** A read moves on: by bytes, or by a blob. *)
Lemma read_moves D s n :
  good chunks D s -> rd_closed s = false -> 0 < n ->
  (Reader_Read world sdBlob config n s = (Err (ESent EOF), s) /\ D = concat chunks)
  \/ exists bs s', Reader_Read world sdBlob config n s = (Ok bs, s') /\ good chunks (D ++ bs) s' /\ rd_closed s' = false
       /\ ((0 < length bs)%nat \/ (rd_currentBlob s < rd_currentBlob s')%nat)
       /\ (rd_currentBlob s <= rd_currentBlob s')%nat.
Proof.
  intros Hg Hc Hn. unfold Reader_Read. pose proof (start_outcome _ _ _ SO D s Hg) as (_ & _ & Hst).
  unfold readStart, get, andThen, ret in *. rewrite Hc in *.
  destruct (Z.leb_spec (totalSize sdBlob) (rd_currentPos s)) as [Ht|Ht]; [left; split; [done|by apply Hst]|].
  destruct (decide (rd_currentBlob s <= length chunks)%nat) as [Hl|Hl].
  - right. destruct (ensure_ok D s Hg Hl) as (s1 & -> & Hg1 & (_ & Hb1 & _ & Hc1 & _) & Hd1).
    destruct (copy_good _ _ _ SO D s1 n Hg1 Hd1 ltac:(lia)) as (bs & need & s2 & -> & Hg2 & Hd2 & Hb2 & Hc2 & Hneed & Hp).
    destruct (advance_good sdBlob config _ (D ++ bs) s2 need Hg2 Hd2 Hneed) as (s3 & E3 & Hg3 & Hb3 & Hc3).
    cbn [fst snd]. rewrite E3. exists bs, s3. split_and!; [done|done|congruence| |].
    + destruct (Hp Hn) as [Hbs| ->]; [by left|right]. rewrite Hb3. lia.
    + rewrite Hb3. destruct need; lia.
  - left. pose proof (ensure_outcome _ _ _ _ _ SO HO D s Hg) as (_ & _ & He).
    assert (E : ensureCurrentBlob world sdBlob config s = (Err (ESent EOF), s)).
    { unfold ensureCurrentBlob, get, andThen, ret. destruct (rd_currentData s) as [d|] eqn:Ed.
      - destruct (g_data _ _ _ Hg d Ed). lia.
      - rewrite (proj2 (Nat.leb_le _ _)); [done|]. rewrite (infos_length _ _ _ SO). lia. }
    rewrite E in *. split; [done|]. by apply He.
Qed.

(** Reading until the end, as [io.ReadAll] does. *)
Fixpoint readAll (fuel : nat) (n : Z) (acc : bytes) : M bytes := fun s =>
  match fuel with
  | O => (Panic "out of fuel", s)
  | S fuel =>
      match Reader_Read world sdBlob config n s with
      | (Ok bs, s) => readAll fuel n (acc ++ bs) s
      | (Err e, s) => (if decide (e = ESent EOF) then Ok acc else Err e, s)
      | (Panic w, s) => (Panic w, s)
      end
  end.

Lemma readAll_good fuel n D s :
  good chunks D s -> rd_closed s = false -> 0 < n ->
  (length (concat chunks) - length D + (S (length chunks) - rd_currentBlob s) < fuel)%nat ->
  exists s', readAll fuel n D s = (Ok (concat chunks), s').
Proof.
  revert D s. induction fuel as [|fuel IH]; intros D s Hg Hc Hn Hf; [lia|]. cbn [readAll].
  destruct (read_moves D s n Hg Hc Hn) as [[-> ->]|(bs & s' & -> & Hg' & Hc' & Hm & Hle)].
  - rewrite decide_True by done. by eexists.
  - apply IH; [done..|]. destruct (g_prefix _ _ _ Hg') as [rest E]. pose proof (g_blob _ _ _ Hg') as Hb'.
    assert (length (concat chunks) = length D + length bs + length rest)%nat as El by (rewrite E, !length_app; lia).
    rewrite length_app. destruct Hm; lia.
Qed.

(** A bound on the reads: a byte or a blob each. *)
Definition readFuel : nat := S (length (concat chunks) + length infos).

Lemma new_reader_reads_all calls n :
  0 < n -> exists s', readAll readFuel n [] (readerAt calls) = (Ok (concat chunks), s').
Proof.
  intros Hn. apply readAll_good; [apply new_good|done|done|]. unfold readFuel. rewrite (infos_length _ _ _ SO). simpl. lia.
Qed.

(** ** Seeking *)

(** C6. Seeking to a position in the padding of a blob, which [Seek] accepts because
    positions count the bytes of the encrypted blobs, makes the next read panic with a
    slice out of bounds (here for the first blob). *)
Theorem seek_into_padding_panics b c k n :
  blobs !! 0%nat = Some b -> chunks !! 0%nat = Some c ->
  Z.of_nat (length c) < k < Z.of_nat (length b) -> 0 <= n ->
  exists s1 s2,
    Reader_Seek sdBlob k SeekStart newReader = (Ok k, s1)
    /\ Reader_Read world sdBlob config n s1 = (Panic "slice bounds out of range", s2).
Proof.
  intros Hb Hc Hk Hn. destruct (info_of_blob _ _ _ SO 0 b Hb) as [bi Hi].
  destruct (so_blob _ _ _ SO 0 bi b Hi Hb) as (Hl & Hh & _).
  pose proof (so_range _ _ _ SO) as Hr. pose proof (totalSize_blobs _ _ _ SO) as Ht.
  assert (Hbt : Z.of_nat (length b) <= totalSize sdBlob).
  { rewrite Ht. destruct blobs as [|b' bs]; [done|]. injection Hb as ->. simpl. rewrite length_app. lia. }
  assert (Hseek : Reader_Seek sdBlob k SeekStart newReader
    = (Ok k, mkReader k 0 k None ∅ None false 0 [])).
  { unfold Reader_Seek, get, andThen, ret, setPos, setCurrent. cbn [rd_closed newReader readerAt Z.eqb SeekStart].
    rewrite (proj2 (Z.ltb_ge k 0)), (proj2 (Z.ltb_ge (totalSize sdBlob) k)) by lia. cbn [orb].
    destruct infos as [|bi' bis]; [done|]. injection Hi as ->. cbn [findBlob].
    rewrite Hl, int64_id by (unfold in_int64; lia). rewrite (proj2 (Z.ltb_lt _ _)) by lia.
    rewrite int64_id by (unfold in_int64; lia). by rewrite Z.sub_0_r. }
  eexists _. rewrite Hseek.
  destruct (loadBlob_ok 0 bi b (mkReader k 0 k None ∅ None false 0 []) Hi Hb) as (s2 & El & Ep & Eb & Eo & Ed).
  specialize (Ed eq_refl). cbn in Ep, Eb, Eo. unfold chunkAt in Ed. rewrite Hc in Ed. simpl in Ed. change (id c) with c in Ed.
  exists s2. split; [reflexivity|].
  unfold Reader_Read, readStart, ensureCurrentBlob, get, andThen, ret.
  cbn [rd_closed rd_currentPos rd_currentData rd_currentBlob rd_blobCache]. rewrite (proj2 (Z.leb_gt _ _)) by lia.
  rewrite (infos_length _ _ _ SO). cbn [Nat.leb rd_currentData rd_currentBlob rd_blobCache]. rewrite lookup_empty.
  unfold index. rewrite Hi. fold (hashAt bi).
  rewrite bool_decide_eq_false_2.
  2: { intros E. apply Hh, length_zero_iff_nil. unfold hashAt in E. pose proof (length_EncodeToString (bi_BlobHash bi)) as HL.
       rewrite E in HL. simpl in HL. lia. }
  rewrite El. unfold readCopy, get, andThen, ret. rewrite Ed, Ep, Eo. cbn [default from_option]. change (id c) with c.
  rewrite !int64_id by (unfold in_int64; lia).
  rewrite (proj2 (Z.ltb_lt (Z.of_nat (length c) - k) n)) by lia.
  rewrite (proj2 (Z.ltb_ge (totalSize sdBlob - k) (Z.of_nat (length c) - k))) by lia.
  by rewrite (proj2 (Z.ltb_lt (Z.of_nat (length c) - k) 0)) by lia.
Qed.

(** Asking for the current position moves it: after the first two chunks have been read,
    [Seek(0, io.SeekCurrent)] goes back by the padding of the first. *)
Theorem seek_current_moves s b0 b1 c0 c1 :
  blobs !! 0%nat = Some b0 -> blobs !! 1%nat = Some b1 -> chunks !! 0%nat = Some c0 -> chunks !! 1%nat = Some c1 ->
  (length b0 < length c0 + length c1)%nat ->
  rd_closed s = false -> rd_currentPos s = Z.of_nat (length (c0 ++ c1)) ->
  exists s', Reader_Seek sdBlob 0 SeekCurrent s = (Ok (rd_currentPos s), s')
    /\ rd_currentBlob s' = 1%nat
    /\ rd_blobOffset s' = Z.of_nat (length c1) - (Z.of_nat (length b0) - Z.of_nat (length c0))
    /\ rd_blobOffset s' < Z.of_nat (length c1).
Proof.
  intros Hb0 Hb1 Hc0 Hc1 Hlt Hc Hp. pose proof (so_range _ _ _ SO) as Hr. pose proof (totalSize_blobs _ _ _ SO) as Ht.
  pose proof (chunk_le_blob _ _ _ SO 0 c0 b0 Hc0 Hb0). pose proof (chunk_le_blob _ _ _ SO 1 c1 b1 Hc1 Hb1).
  destruct (info_of_blob _ _ _ SO 0 b0 Hb0) as [i0 Hi0]. destruct (info_of_blob _ _ _ SO 1 b1 Hb1) as [i1 Hi1].
  destruct (so_blob _ _ _ SO 0 i0 b0 Hi0 Hb0) as (Hl0 & _). destruct (so_blob _ _ _ SO 1 i1 b1 Hi1 Hb1) as (Hl1 & _).
  rewrite length_app in Hp.
  assert (Hbt : Z.of_nat (length b0) + Z.of_nat (length b1) <= totalSize sdBlob).
  { rewrite Ht. destruct blobs as [|b0' [|b1' bs]]; [done..|]. injection Hb0 as ->. injection Hb1 as ->.
    simpl. rewrite !length_app. lia. }
  unfold Reader_Seek, get, andThen, ret, setPos, setCurrent. rewrite Hc.
  change (SeekCurrent =? SeekStart) with false. change (SeekCurrent =? SeekCurrent) with true. cbv iota beta.
  rewrite Z.add_0_r, int64_id by (unfold in_int64; lia).
  rewrite (proj2 (Z.ltb_ge _ 0)), (proj2 (Z.ltb_ge (totalSize sdBlob) _)) by lia. cbn [orb].
  destruct infos as [|i0' [|i1' bis]]; [done..|]. injection Hi0 as ->. injection Hi1 as ->. cbn [findBlob].
  rewrite Hl0, Hl1. rewrite (int64_id (0 + _)) by (unfold in_int64; lia).
  rewrite (proj2 (Z.ltb_ge _ _)) by lia. rewrite (int64_id (_ + _)) by (unfold in_int64; lia).
  rewrite (proj2 (Z.ltb_lt _ _)) by lia. rewrite int64_id by (unfold in_int64; lia).
  eexists. split; [reflexivity|]. cbn. split_and!; [done|lia|lia].
Qed.
End Live.
