(* ===== verification/StreamAcquirer.v ===== *)
(** * client/stream_acquirer.go: the stream acquirer

    [GetStream], [GetStreamResult] and [GetSDBlob] of [DefaultStreamAcquirer], their options
    and the builder.  They run in the reader's monad: [GetStream] leaves the state from
    which its reader starts. *)
From stdpp Require Import base tactics list numbers strings gmap.
From Stdlib Require Import ZArith Lia Init.Byte.
From S2P Require Import Prelude GoStd Aes Blob Multihash Json SdBlob Encoder Reflector StreamReader.
Local Open Scope Z_scope.

(** ** Configuration *)

Record AcquireConfig := mkAcquire {
  ac_Recursive : bool;
  ac_RetryOptions : RetryOptions;
  ac_StreamOptions : list ReaderOption;
  ac_VerificationEnabled : bool
}.
Definition AcquireOption := AcquireConfig -> AcquireConfig.
Definition WithAcquireRecursive (recursive : bool) : AcquireOption := fun c =>
  mkAcquire recursive (ac_RetryOptions c) (ac_StreamOptions c) (ac_VerificationEnabled c).
(** [WithRetry] takes nil options for the default ones. *)
Definition WithAcquireRetry (retryOptions : option RetryOptions) : AcquireOption := fun c =>
  mkAcquire (ac_Recursive c) (default DefaultRetryOptions retryOptions) (ac_StreamOptions c) (ac_VerificationEnabled c).
Definition WithAcquireStreamOptions (streamOpts : list ReaderOption) : AcquireOption := fun c =>
  mkAcquire (ac_Recursive c) (ac_RetryOptions c) (ac_StreamOptions c ++ streamOpts) (ac_VerificationEnabled c).
Definition WithAcquireVerification (enabled : bool) : AcquireOption := fun c =>
  mkAcquire (ac_Recursive c) (ac_RetryOptions c) (ac_StreamOptions c) enabled.

(** The configuration literal of [GetStream] and [GetStreamResult], with the options. *)
Definition defaultAcquire : AcquireConfig := mkAcquire false DefaultRetryOptions [] false.
Definition acquireConfig (opts : list AcquireOption) : AcquireConfig :=
  foldl (fun c opt => opt c) defaultAcquire opts.
(** The reader's options: the progress callback is left out, verification comes last. *)
Definition streamOptions (config : AcquireConfig) : list ReaderOption :=
  ac_StreamOptions config ++ [WithStreamVerification (ac_VerificationEnabled config)].

(** ** Building *)

Section Builder.
Context {Acquirer Store : Type}.

(** The interfaces may be nil. *)
Record DefaultStreamAcquirer := mkAcquirer { sa_blobAcquirer : option Acquirer; sa_store : option Store }.
Definition NewStreamAcquirer (blobAcquirer : option Acquirer) (store : option Store) : DefaultStreamAcquirer :=
  mkAcquirer blobAcquirer store.

Definition StreamAcquirerFactory := option Acquirer -> option Store -> DefaultStreamAcquirer.
Definition NewStreamAcquirerFactory : StreamAcquirerFactory := NewStreamAcquirer.

Record StreamAcquirerBuilder := mkBuilder {
  sb_acquirer : option Acquirer;
  sb_store : option Store;
  sb_factory : StreamAcquirerFactory
}.
Definition NewStreamAcquirerBuilder : StreamAcquirerBuilder := mkBuilder None None NewStreamAcquirerFactory.
Definition WithAcquirer (acquirer : option Acquirer) (b : StreamAcquirerBuilder) : StreamAcquirerBuilder :=
  mkBuilder acquirer (sb_store b) (sb_factory b).
Definition WithStore (store : option Store) (b : StreamAcquirerBuilder) : StreamAcquirerBuilder :=
  mkBuilder (sb_acquirer b) store (sb_factory b).
Definition WithFactory (factory : StreamAcquirerFactory) (b : StreamAcquirerBuilder) : StreamAcquirerBuilder :=
  mkBuilder (sb_acquirer b) (sb_store b) factory.
Definition Build (b : StreamAcquirerBuilder) : result DefaultStreamAcquirer :=
  match sb_acquirer b with
  | None => Err (EMsg "acquirer is required for StreamAcquirer")
  | Some _ => Ok (sb_factory b (sb_acquirer b) (sb_store b))
  end.
End Builder.

(** ** Acquiring *)

Section Acquirer.
Context {L : CidLib} {OJ : OrderedJson}.
(** Go ranges over the profile registry in any order: once to validate a descriptor, once
    to parse it. *)
Context (world : World) (orderV orderP : list Z).

(** client/errors.go *)
Definition clientValidateBlobHash (hash : bytes) : result unit :=
  if ValidateBlobHash hash then Ok tt else Err (ESent Client_ErrInvalidHash).

Definition verifyAndValidateSDBlob (data expectedHash : bytes) (verificationEnabled : bool) : result unit :=
  if bool_decide (data = []) then Err (NewStreamError "validation" (ESent Client_ErrBlobAcquisition)) else
  (if verificationEnabled
   then wrap_err "SD blob hash verification failed for %s: %w" (VerifyBlobHash data expectedHash) else Ok tt) ;;
  if negb (Valid data) then Err (NewStreamError "validate_sd_blob" (ESent Client_ErrNotSDBlob)) else
  wrap_err "invalid SD blob %s: %w" (ValidateSDBlobBytes orderV data).

(** The descriptor's data, as the three operations fetch it. *)
Definition acquireSD (options : RetryOptions) (sdHash : bytes) : M bytes := fun s =>
  match WithRetry world options (acquireOnce world "acquire_sd_blob" sdHash) s with
  | (Err e, s) => (Err (EWrap "failed to acquire SD blob %s: %w" e), s)
  | r => r
  end.

(** Binary data under a descriptor's hash gets an error of its own, which wraps nothing. *)
Definition explainNotSD (r : result unit) : result unit :=
  match r with
  | Err e => if error_is e Client_ErrNotSDBlob
             then Err (EMsg "hash %s appears to be content blob data, not an SD blob manifest") else Err e
  | r => r
  end.

Definition GetStream (sdHash : bytes) (opts : list AcquireOption) : M (SDBlob * ReaderConfig) :=
  let config := acquireConfig opts in
  let streamOpts := streamOptions config in
  let* _ := ret (wrap_err "invalid SD hash: %w" (clientValidateBlobHash sdHash)) in
  let* sdBlobData := acquireSD (ac_RetryOptions config) sdHash in
  let* _ := ret (explainNotSD (verifyAndValidateSDBlob sdBlobData sdHash (ac_VerificationEnabled config))) in
  let* sdBlob := ret (match FromBlob orderP sdBlobData with
                      | Err e => Err (NewStreamError "parse_sd_blob" e)
                      | r => r
                      end) in
  if bool_decide (length (sd_BlobInfos sdBlob) = 0%nat)
  then ret (Err (NewStreamError "validate_sd_blob" (ESent ErrInvalidSDBlob)))
  else ret (Ok (sdBlob, readerConfig streamOpts)).

(** A content blob from the network; the store's error is only logged. *)
Definition acquireContent (verification : bool) (blobHash : bytes) : M bytes :=
  let* got := ask (fun t => wo_Acquire world t blobHash) in
  let* blobData := ret (wrap_err "failed to acquire content blob %s (index %d): %w" got) in
  let* _ := ret (if verification
                 then wrap_err "content blob hash verification failed for %s (index %d): %w"
                        (VerifyBlobHash blobData blobHash)
                 else Ok tt) in
  let* _ := if wo_store world then putLater blobHash blobData else ret (Ok tt) in
  ret (Ok blobData).

Definition acquireBlobWithFallback (config : AcquireConfig) (blobHash : bytes) : M bytes :=
  let verification := ac_VerificationEnabled config in
  if wo_store world then
    let* has := ask (fun t => wo_Has world t blobHash) in
    match has with
    | Ok true =>
        let* got := ask (fun t => wo_Get world t blobHash) in
        match got with
        | Ok blobData =>
            if verification then
              match VerifyBlobHash blobData blobHash with
              | Ok _ => ret (Ok blobData)
              | Err _ => acquireContent verification blobHash
              | Panic w => ret (Panic w)
              end
            else ret (Ok blobData)
        | Err _ => acquireContent verification blobHash
        | Panic w => ret (Panic w)
        end
    | Ok false | Err _ => acquireContent verification blobHash
    | Panic w => ret (Panic w)
    end
  else acquireContent verification blobHash.

(** The loop over the descriptor's blobs: contents, hashes and encrypted sizes. *)
Fixpoint fetchContents (config : AcquireConfig) (infos : list BlobInfo)
    (contents hashes : list bytes) (sizes : list Z) : M (list bytes * list bytes * list Z) :=
  match infos with
  | [] => ret (Ok (contents, hashes, sizes))
  | blobInfo :: infos =>
      if bi_Length blobInfo =? 0 then fetchContents config infos contents hashes sizes else
      let blobHash := EncodeToString (bi_BlobHash blobInfo) in
      let* blobData := acquireBlobWithFallback config blobHash in
      fetchContents config infos (contents ++ [blobData]) (hashes ++ [blobHash]) (sizes ++ [bi_Length blobInfo])
  end.

(** The hash is not checked for its form here, and the configured retries are not used. *)
Definition GetStreamResult (sdHash : bytes) (opts : list AcquireOption) : M StreamResult :=
  let config := acquireConfig opts in
  let* sdBlobData := acquireSD DefaultRetryOptions sdHash in
  let* _ := ret (verifyAndValidateSDBlob sdBlobData sdHash (ac_VerificationEnabled config)) in
  let* sdBlob := ret (wrap_err "failed to parse SD blob %s: %w" (FromBlob orderP sdBlobData)) in
  if bool_decide (length (sd_BlobInfos sdBlob) = 0%nat)
  then ret (Err (EMsg "invalid SD blob %s: no blob infos found")) else
  let streamHash := EncodeToString (sd_StreamHash sdBlob) in
  if negb (ac_Recursive config)
  then ret (Ok (mkStreamResult sdBlob sdBlobData sdHash streamHash 0 [] [] 0 [])) else
  let* '(contentBlobs, contentHashes, chunkSizes) := fetchContents config (sd_BlobInfos sdBlob) [] [] [] in
  ret (Ok (mkStreamResult sdBlob sdBlobData sdHash streamHash 0 contentBlobs contentHashes
             (Z.of_nat (length contentBlobs)) chunkSizes)).

Definition GetSDBlob (sdHash : bytes) : M (SDBlob * bytes) :=
  let* _ := ret (wrap_err "invalid SD hash: %w" (clientValidateBlobHash sdHash)) in
  let* sdBlobData := acquireSD DefaultRetryOptions sdHash in
  let* _ := ret (explainNotSD (verifyAndValidateSDBlob sdBlobData sdHash true)) in
  let* sdBlob := ret (wrap_err "failed to parse SD blob %s: %w" (FromBlob orderP sdBlobData)) in
  if bool_decide (length (sd_BlobInfos sdBlob) = 0%nat)
  then ret (Err (EMsg "invalid SD blob %s: no blob infos found"))
  else ret (Ok (sdBlob, sdBlobData)).
End Acquirer.
