(* ===== verification/StreamAcquirerSpec.v ===== *)
(** * What the stream acquirer returns

    In a world that serves the encoder's blobs, [GetStream] gives a reader that delivers
    the data, and [GetStreamResult] the stream itself; in any world, what
    [GetStreamResult] returns with verification on is what the descriptor's hashes say.
    What a damaged store does to the two. *)
From stdpp Require Import base tactics list numbers strings gmap.
From Stdlib Require Import ZArith Lia Init.Byte.
From S2P Require Import Prelude GoStd Sha2 Aes Blob Multihash Json SdBlob SdBlobSpec Encoder EncoderSpec Creator.
From S2P Require Import Errors Reflector PeerSpec PeerStream StreamReader StreamReaderSpec StreamReaderLive StreamAcquirer.
Local Open Scope Z_scope.

(** ** The descriptors of the encoder *)

Lemma HashHex_Hash b : b <> [] -> HashHex b = Hash b.
Proof. intros Hb. unfold HashHex, BlobHash. by rewrite decide_False. Qed.

Lemma Verify_HashHex b : b <> [] -> VerifyBlobHash b (HashHex b) = Ok tt.
Proof. intros Hb. apply verify_blob_hash; [by apply HashHex_valid|]. by rewrite HashHex_Hash. Qed.

Lemma Verify_calm d h w : VerifyBlobHash d h <> Panic w.
Proof. exact (verify_calm (mkReaderConfig false 0 false true) d h w). Qed.

Lemma validSD_profile {L : CidLib} sd p : validSD sd -> validSD (SetProfile sd p).
Proof.
  intros [Ht Hb Hk Hi Hz Hh]. split; [done| |done| | |].
  - simpl. intros E. apply Hb. by destruct (sd_BlobInfos sd).
  - intros i bi. simpl. intros (bi' & -> & H)%list_lookup_fmap_Some_1. exact (Hi i bi' H).
  - intros i bi. simpl. rewrite length_map. intros (bi' & -> & H)%list_lookup_fmap_Some_1 Hl. exact (Hz i bi' H Hl).
  - by rewrite computeStreamHash_profile.
Qed.

(** The data the entries of a run were made from and the blobs they became. *)
Lemma blobs_bound ens key :
  Forall (goodEntry key) ens -> (length (concat (map en_blob ens)) <= 17 * length (entryData ens))%nat.
Proof.
  induction 1 as [|en ens Hen _ IH]; [done|]. unfold entryData in *. simpl. rewrite !length_app.
  destruct (goodEntry_blob _ _ Hen) as (Hd & _). destruct Hen as [Hb _]. apply NewBlob_AES_length in Hb.
  pose proof (Nat.Div0.mul_div_le (length (en_data en)) 16). destruct (en_data en) as [|x d]; [done|].
  cbn [length] in *. lia.
Qed.

Lemma info_cases sd0 ens iv p i bi :
  sd_BlobInfos (SetProfile (finalSD sd0 ens iv) p) !! i = Some bi ->
  (exists en, ens !! i = Some en /\ bi = withProfile p (infoOf i (en_blob en) (en_iv en)))
  \/ i = length ens /\ bi = withProfile p (infoOf (length ens) [] iv).
Proof.
  change (sd_BlobInfos (SetProfile (finalSD sd0 ens iv) p))
    with (map (withProfile p) (entryInfos ens ++ [infoOf (length ens) [] iv])).
  intros (bi' & -> & H)%list_lookup_fmap_Some_1.
  apply lookup_app_Some in H as [H|[Hle H]].
  - left. unfold entryInfos in H. rewrite list_lookup_imap in H.
    destruct (ens !! i) as [en|]; [|done]. simpl in H. injection H as <-. by exists en.
  - rewrite length_entryInfos in *. right. apply list_lookup_singleton_Some in H as [? <-]. split; [lia|done].
Qed.

Lemma encoder_streamOf sd0 ens iv p :
  Forall (goodEntry (sd_Key sd0)) ens -> Z.of_nat (length (entryData ens)) < 2 ^ 58 ->
  streamOf (SetProfile (finalSD sd0 ens iv) p) (map en_blob ens) (map en_data ens).
Proof.
  intros Hg Hl. split.
  - exists (map (withProfile p) (entryInfos ens)), (withProfile p (infoOf (length ens) [] iv)).
    split_and!; [|by rewrite !length_map, length_entryInfos|done..].
    change (sd_BlobInfos (SetProfile (finalSD sd0 ens iv) p))
      with (map (withProfile p) (entryInfos ens ++ [infoOf (length ens) [] iv])). by rewrite map_app.
  - intros i bi b Hi (en & -> & Hen)%list_lookup_fmap_Some_1.
    apply info_cases in Hi as [(en' & Hen' & ->)|[-> ->]]; [|apply lookup_lt_Some in Hen; lia].
    rewrite Hen in Hen'. injection Hen' as <-.
    pose proof (Forall_lookup_1 _ _ _ _ Hg Hen) as He. destruct (goodEntry_blob _ _ He) as (_ & Hb & _ & Hp).
    split; [done|]. split.
    + simpl. intros E. apply (f_equal length) in E. rewrite BlobHash_length in E; [done|].
      intros E'. rewrite E' in Hb. simpl in Hb. lia.
    + exists (en_data en). split; [by rewrite list_lookup_fmap, Hen|exact Hp].
  - by rewrite !length_map.
  - pose proof (blobs_bound _ _ Hg). lia.
Qed.

(** ** A world that serves the blobs of a stream *)

(** Nobody cancels, the acquirer has the blobs, and a store, should there be one, has them
    or says that it has not. *)
Record serves (world : World) (bs : list bytes) : Prop := {
  sv_done t : wo_Done world t = None;
  sv_acquire b t : b ∈ bs -> wo_Acquire world t (HashHex b) = Ok b;
  sv_get b d t : b ∈ bs -> wo_Get world t (HashHex b) = Ok d -> d = b;
  sv_has b t t' : b ∈ bs ->
    wo_Has world t (HashHex b) = Ok false \/ wo_Has world t (HashHex b) = Ok true /\ wo_Get world t' (HashHex b) = Ok b;
  sv_calm t h w : wo_Has world t h <> Panic w /\ wo_Get world t h <> Panic w /\ wo_Acquire world t h <> Panic w
}.

Section Served.
Context {L : CidLib} {OJ : OrderedJson} {OL : OrderedJsonLaws OJ}.
Context (world : World) (orderV orderP : list Z) (HV : registryOrder orderV) (HP : registryOrder orderP).
Context (sd0 : SDBlob) (ens : list entry) (iv text : bytes) (Htext : ToBlob (finalSD sd0 ens iv) = Ok text).
Context (Hty : sd_StreamType sd0 <> []) (Hpl : Forall plainChar (sd_StreamType sd0)).
Context (Hk : length (sd_Key sd0) = AES256KeySize \/ length (sd_Key sd0) = AES128KeySize).
Context (Hg : Forall (goodEntry (sd_Key sd0)) ens) (Hiv : length iv = 16%nat).
Context (Hl : Z.of_nat (length (entryData ens)) < 2 ^ 58).
Context (SV : serves world (text :: map en_blob ens)).

Definition servedSD : SDBlob := SetProfile (finalSD sd0 ens iv) (writtenProfile (finalSD sd0 ens iv)).

Lemma served_parses order : registryOrder order -> FromBlob order text = Ok servedSD.
Proof.
  intros Ho. pose proof (FromBlob_ToBlob order (finalSD sd0 ens iv) Ho (done_wf sd0 ens iv Hpl Hg ltac:(lia))) as Hf.
  by rewrite Htext in Hf.
Qed.

Lemma text_nonempty : text <> [].
Proof. intros E. pose proof (served_parses _ HP) as Hp. rewrite E in Hp. discriminate. Qed.

Lemma served_validates verification :
  verifyAndValidateSDBlob orderV text (HashHex text) verification = Ok tt.
Proof.
  pose proof text_nonempty as Hne. unfold verifyAndValidateSDBlob. rewrite bool_decide_eq_false_2 by done.
  assert (Hv : Valid text = true).
  { pose proof (served_parses _ HP) as Hp. unfold FromBlob in Hp. unfold Valid. by destruct (parse text). }
  assert ((if verification then wrap_err "SD blob hash verification failed for %s: %w"
             (VerifyBlobHash text (HashHex text)) else Ok tt) = Ok tt) as ->
    by (destruct verification; [by rewrite Verify_HashHex|done]).
  cbn [mbind result_bind]. rewrite Hv. cbn [negb]. unfold ValidateSDBlobBytes.
  rewrite decide_False by (intros E; by apply length_zero_iff_nil in E). rewrite Hv, (served_parses _ HV). cbn [negb].
  rewrite validateSDBlob_complete; [done|]. by apply validSD_profile, finalSD_valid.
Qed.

Lemma ask_once options s : acquireSD world options (HashHex text) s = (Ok text, tick (tick s)).
Proof.
  unfold acquireSD, WithRetry. rewrite bind_ask, (sv_done _ _ SV).
  assert (E : acquireOnce world "acquire_sd_blob" (HashHex text) (tick s) = (Ok text, tick (tick s))).
  { unfold acquireOnce. rewrite bind_ask, (sv_acquire _ _ SV) by left. done. }
  destruct (ro_Attempts options) as [|[|n]]; cbn [attempts]; by rewrite E.
Qed.

Lemma hash_form : clientValidateBlobHash (HashHex text) = Ok tt.
Proof.
  pose proof (HashHex_valid text text_nonempty) as Hh. unfold clientValidateBlobHash, ValidateBlobHash.
  by rewrite (IsValid_length _ Hh), Nat.eqb_refl, (IsValid_validates _ Hh).
Qed.

Lemma served_infos : length (sd_BlobInfos servedSD) <> 0%nat.
Proof. simpl. rewrite length_map, length_app. simpl. lia. Qed.

Lemma get_stream_ok opts calls :
  GetStream world orderV orderP (HashHex text) opts (readerAt calls)
  = (Ok (servedSD, readerConfig (streamOptions (acquireConfig opts))), readerAt (S (S calls))).
Proof.
  unfold GetStream, andThen, ret. rewrite hash_form. cbn [wrap_err]. rewrite ask_once, served_validates.
  cbn [explainNotSD]. rewrite (served_parses _ HP). by rewrite bool_decide_eq_false_2 by apply served_infos.
Qed.

Lemma hash_at i bi b :
  sd_BlobInfos servedSD !! i = Some bi -> map en_blob ens !! i = Some b ->
  hashAt bi = HashHex b /\ b ∈ map en_blob ens /\ b <> [].
Proof.
  clear Hk Hiv Hl.
  intros Hi Hb. assert (b ∈ map en_blob ens) by (by eapply list_elem_of_lookup_2).
  apply list_lookup_fmap_Some_1 in Hb as (en & -> & Hen).
  apply info_cases in Hi as [(en' & Hen' & ->)|[-> ->]]; [|apply lookup_lt_Some in Hen; lia].
  rewrite Hen in Hen'. injection Hen' as <-. split_and!; [done|done|].
  pose proof (Forall_lookup_1 _ _ _ _ Hg Hen) as He. destruct (goodEntry_blob _ _ He) as (_ & Hb & _ & _).
  intros E. rewrite E in Hb. simpl in Hb. lia.
Qed.

Lemma served_honest config : honest world servedSD config (map en_blob ens).
Proof.
  split; [intros t h w; apply (sv_calm _ _ SV t h w)..|].
  intros i bi b t d Hi Hb Hd _. destruct (hash_at i bi b Hi Hb) as (E & Hin & _). rewrite E in Hd.
  destruct Hd as [Hd|Hd]; [by eapply (sv_get _ _ SV); [right|]|].
  rewrite (sv_acquire _ _ SV) in Hd by (by right). by injection Hd.
Qed.

Lemma served_helpful config : helpful world servedSD config (map en_blob ens).
Proof.
  split; [apply (sv_done _ _ SV)|intros i bi b..].
  - intros t Hi Hb. destruct (hash_at i bi b Hi Hb) as (-> & Hin & _). apply (sv_acquire _ _ SV). by right.
  - intros t t' Hi Hb. destruct (hash_at i bi b Hi Hb) as (-> & Hin & _). apply (sv_has _ _ SV). by right.
  - intros Hi Hb. destruct (hash_at i bi b Hi Hb) as (-> & _ & Hne). unfold verify.
    destruct (rc_VerificationEnabled config); [by apply Verify_HashHex|done].
Qed.

Lemma served_reads config calls n :
  0 < n -> exists s', readAll world servedSD config (S (length (entryData ens) + length (sd_BlobInfos servedSD))) n []
                        (readerAt calls) = (Ok (entryData ens), s').
Proof.
  intros Hn. exact (new_reader_reads_all _ _ _ _ _ (encoder_streamOf sd0 ens iv _ Hg Hl) (served_honest config)
    (served_helpful config) calls n Hn).
Qed.

(** *** Fetching the contents *)

Lemma fallback_ok config b s :
  b ∈ map en_blob ens -> b <> [] ->
  exists s', acquireBlobWithFallback world config (HashHex b) s = (Ok b, s').
Proof.
  intros Hin Hne. assert (Hi : b ∈ text :: map en_blob ens) by (by right).
  assert (Hc : forall s, exists s', acquireContent world (ac_VerificationEnabled config) (HashHex b) s = (Ok b, s')).
  { intros s0. unfold acquireContent. rewrite bind_ask, (sv_acquire _ _ SV) by done.
    unfold andThen, ret, putLater. cbn [wrap_err].
    assert ((if ac_VerificationEnabled config then wrap_err "content blob hash verification failed for %s (index %d): %w"
             (VerifyBlobHash b (HashHex b)) else Ok tt) = Ok tt) as ->
      by (destruct (ac_VerificationEnabled config); [by rewrite Verify_HashHex|done]).
    destruct (wo_store world); by eexists. }
  unfold acquireBlobWithFallback. destruct (wo_store world); [|apply Hc]. rewrite bind_ask.
  destruct (sv_has _ _ SV b (rd_calls s) (rd_calls (tick s)) Hi) as [->|[-> E]]; [apply Hc|].
  rewrite bind_ask, E, Verify_HashHex by done. destruct (ac_VerificationEnabled config); by eexists.
Qed.

(** The infos of some blobs, followed by the terminating one. *)
Lemma fetch_ok config l bs term contents hashes sizes s :
  Forall2 (fun bi b => b ∈ map en_blob ens /\ b <> [] /\ hashAt bi = HashHex b /\ bi_Length bi = Z.of_nat (length b)) l bs ->
  bi_Length term = 0 ->
  exists s', fetchContents world config (l ++ [term]) contents hashes sizes s
    = (Ok (contents ++ bs, hashes ++ map HashHex bs, sizes ++ map (fun b => Z.of_nat (length b)) bs), s').
Proof.
  intros HF Ht. revert contents hashes sizes s.
  induction HF as [|bi b l bs (Hin & Hne & Hh & Hb) _ IH]; intros contents hashes sizes s; cbn [fetchContents app].
  - rewrite Ht. simpl. rewrite !app_nil_r. by eexists.
  - rewrite Hb, (proj2 (Z.eqb_neq _ _)) by (destruct b; simpl; [done|lia]).
    unfold andThen. fold (hashAt bi). rewrite Hh. destruct (fallback_ok config b s Hin Hne) as [s1 ->].
    destruct (IH (contents ++ [b]) (hashes ++ [HashHex b]) (sizes ++ [Z.of_nat (length b)]) s1) as [s' ->].
    exists s'. by rewrite <- !app_assoc.
Qed.

(** The stream as the encoder's own result lists it. *)
Definition servedResult : StreamResult :=
  let blobs := map en_blob ens in
  mkStreamResult servedSD text (HashHex text) (EncodeToString (sd_StreamHash servedSD)) 0 blobs (map HashHex blobs)
    (Z.of_nat (length blobs)) (map (fun b => Z.of_nat (length b)) blobs).

Lemma get_result_ok opts s :
  ac_Recursive (acquireConfig opts) = true ->
  exists s', GetStreamResult world orderV orderP (HashHex text) opts s = (Ok servedResult, s').
Proof.
  intros Hr. unfold GetStreamResult, andThen, ret. rewrite ask_once, served_validates, (served_parses _ HP).
  cbn [wrap_err]. rewrite bool_decide_eq_false_2 by apply served_infos. rewrite Hr. cbn [negb].
  destruct (so_infos _ _ _ (encoder_streamOf sd0 ens iv (writtenProfile (finalSD sd0 ens iv)) Hg Hl))
    as (l & term & E & Hlen & _ & Hz). fold servedSD in E. rewrite E.
  destruct (fetch_ok (acquireConfig opts) l (map en_blob ens) term [] [] [] (tick (tick s))) as [s' ->];
    [|done|by eexists].
  apply Forall2_same_length_lookup_2; [done|]. intros i bi b Hi Hb.
  assert (Hi' : sd_BlobInfos servedSD !! i = Some bi) by (rewrite E; by apply lookup_app_l_Some).
  destruct (hash_at i bi b Hi' Hb) as (Hh & Hin & Hne). split_and!; try done.
  eapply (so_blob _ _ _ (encoder_streamOf sd0 ens iv (writtenProfile (finalSD sd0 ens iv)) Hg Hl)); [exact Hi'|done].
Qed.
End Served.

(** ** From the encoder to the reader *)

Section Composition.
Context {L : CidLib} {R : Rand} {RL : RandLaws R} {RT : RandTotal R} {OJ : OrderedJson} {OL : OrderedJsonLaws OJ}.

(** C3. From a source to a reader and back: for the stream the encoder makes of a source and
    any world that serves its blobs, with a store or without, with any options,
    [GetStream] of the descriptor's hash gives a reader from which reads of any buffer
    size, up to [io.EOF], return the data of the source; and a recursive
    [GetStreamResult] returns the descriptor's text and the blobs, with their hashes and
    sizes, which decode to the data. *)
Theorem client_reads_back order orderV orderP src data key ivs k
    (Ho : registryOrder order) (HV : registryOrder orderV) (HP : registryOrder orderP)
    (Hs : sourceOf src data) (Hne : data <> [])
    (Hk : length key = AES256KeySize \/ length key = AES128KeySize)
    (Hivs : Forall (fun iv => length iv = 16%nat) ivs) (Hl : Z.of_nat (length data) < 2 ^ 58) :
  exists enc sdText blobs enc',
    NewEncoderWithIVs src key ivs k = Ok enc
    /\ Encoder_Stream enc = (Ok (sdText :: blobs), enc')
    /\ forall world opts, serves world (sdText :: blobs) ->
       (exists sd config s1,
          GetStream world orderV orderP (HashHex sdText) opts newReader = (Ok (sd, config), s1)
          /\ rc_VerificationEnabled config = ac_VerificationEnabled (acquireConfig opts)
          /\ forall n, 0 < n -> exists s2,
                readAll world sd config (S (length data + length (sd_BlobInfos sd))) n [] s1 = (Ok data, s2))
       /\ (ac_Recursive (acquireConfig opts) = true ->
           exists r s1, GetStreamResult world orderV orderP (HashHex sdText) opts newReader = (Ok r, s1)
             /\ sr_SDBlobData r = sdText /\ sr_ContentBlobs r = blobs /\ sr_ContentHashes r = map HashHex blobs
             /\ sr_ChunkSizes r = map (fun b => Z.of_nat (length b)) blobs
             /\ sr_TotalChunks r = Z.of_nat (length blobs)
             /\ Decode order (sr_SDBlobData r :: sr_ContentBlobs r) = Ok data).
Proof.
  destruct (newEncoder_inv src key ivs k Hk Hivs) as [Hnew He].
  destruct (Stream_ok _ _ _ data He Hs plainType ltac:(lia)) as (ens & iv & text & e' & Hrun); [done|].
  destruct Hrun as [Hst Htext _ Hg Hdata Hiv _ _ _ _]. rewrite <- Hdata in Hl.
  set (sd0 := mkSDBlob [] [] StreamTypeLBRYFile key [] [] 0) in *.
  eexists _, text, (map en_blob ens), e'. split_and!; [exact Hnew|exact Hst|].
  intros world opts SV. split.
  - eexists _, _, _. split; [by apply (get_stream_ok world orderV orderP HV HP sd0 ens iv text Htext ltac:(done)
      plainType Hk Hg Hiv Hl SV opts 0)|]. split.
    + unfold readerConfig, streamOptions. by rewrite foldl_app.
    + intros n Hn. rewrite <- Hdata. by eapply served_reads.
  - intros Hr. destruct (get_result_ok world orderV orderP HV HP sd0 ens iv text Htext ltac:(done)
      plainType Hk Hg Hiv Hl SV opts newReader Hr) as [s1 E].
    eexists _, _. split; [exact E|]. split_and!; try done. rewrite <- Hdata.
    apply (Decode_ok order sd0 ens iv); try done; [exact plainType| |lia]. intros ->. by destruct Hne.
Qed.
End Composition.

(** ** What verification promises in any world *)

Section Verified.
Context {L : CidLib} {OJ : OrderedJson} (world : World) (orderV orderP : list Z).
Implicit Types (s : Reader).

Definition verified (d h : bytes) : Prop := VerifyBlobHash d h = Ok tt.

(** The computation returns only values of [Q], and hands only verified blobs to the store. *)
Definition careful {A} (m : M A) (Q : A -> Prop) : Prop := forall s,
  exists puts, rd_puts (m s).2 = rd_puts s ++ puts /\ Forall (fun p => verified p.2 p.1) puts
  /\ match (m s).1 with Ok a => Q a | _ => True end.

Lemma careful_ret {A} (r : result A) (Q : A -> Prop) :
  match r with Ok a => Q a | _ => True end -> careful (ret r) Q.
Proof. intros Hr s. exists []. rewrite app_nil_r. split_and!; [done|constructor|done]. Qed.

Lemma careful_ask {A} (f : nat -> A) (Q : A -> Prop) : (forall t, Q (f t)) -> careful (ask f) Q.
Proof. intros Hf s. exists []. rewrite app_nil_r. split_and!; [done|constructor|apply Hf]. Qed.

Lemma careful_put h d : verified d h -> careful (putLater h d) (fun _ => True).
Proof. intros Hv s. exists [(h, d)]. split_and!; [done| |done]. constructor; [exact Hv|constructor]. Qed.

Lemma careful_bind {A C} (m : M A) (f : A -> M C) (Q : A -> Prop) (Q' : C -> Prop) :
  careful m Q -> (forall a, Q a -> careful (f a) Q') -> careful (let* a := m in f a) Q'.
Proof.
  intros Hm Hf s. unfold andThen. destruct (Hm s) as (p1 & E1 & F1 & H1). destruct (m s) as [[a|e|w] s1]; [|by exists p1..].
  destruct (Hf a H1 s1) as (p2 & E2 & F2 & H2). exists (p1 ++ p2). cbn [fst snd] in *.
  rewrite E2, E1, app_assoc. split_and!; [done|by apply Forall_app|done].
Qed.

Lemma careful_weaken {A} (m : M A) (Q Q' : A -> Prop) : careful m Q -> (forall a, Q a -> Q' a) -> careful m Q'.
Proof.
  intros Hm Hi s. destruct (Hm s) as (p & E & F & H). exists p. split_and!; [done..|].
  destruct (m s).1; [by apply Hi|done|done].
Qed.

Lemma careful_attempts {A} n retryIf (op : M A) (Q : A -> Prop) : careful op Q -> careful (attempts world n retryIf op) Q.
Proof.
  intros Hop. induction n as [|n IH]; intros s; cbn [attempts]; destruct (Hop s) as (p & E & F & H);
    destruct (op s) as [[a|e|w] s1]; cbn [fst snd] in *; try by exists p.
  destruct n as [|n]; [by exists p|]. destruct (negb (retryIf e)); [by exists p|].
  assert (Hk : careful (let* done := ask (wo_Done world) in
     match done with Some ce => ret (Err ce) | None => attempts world (S n) retryIf op end) Q).
  { eapply careful_bind; [by apply (careful_ask _ (fun _ => True))|]. intros [ce|] _; [by apply careful_ret|done]. }
  destruct (Hk s1) as (p2 & E2 & F2 & H2). exists (p ++ p2). rewrite E2, E, app_assoc.
  split_and!; [done|by apply Forall_app|done].
Qed.

Lemma careful_acquireSD options h : careful (acquireSD world options h) (fun _ => True).
Proof.
  assert (Hw : careful (WithRetry world options (acquireOnce world "acquire_sd_blob" h)) (fun _ => True)).
  { unfold WithRetry. eapply careful_bind; [by apply (careful_ask _ (fun _ => True))|]. intros [ce|] _; [by apply careful_ret|].
    apply careful_attempts. eapply careful_bind; [by apply (careful_ask _ (fun _ => True))|].
    intros [d|e|w] _; by apply careful_ret. }
  intros s. unfold acquireSD. destruct (Hw s) as (p & E & F & H). destruct (WithRetry _ _ _ s) as [[a|e|w] s1]; by exists p.
Qed.

Lemma careful_content h : careful (acquireContent world true h) (fun d => verified d h).
Proof.
  unfold acquireContent. eapply careful_bind; [by apply (careful_ask _ (fun _ => True))|]. intros got _.
  eapply (careful_bind _ _ (fun _ => True)); [apply careful_ret; by destruct got|]. intros d _.
  eapply (careful_bind _ _ (fun _ => verified d h)).
  { apply careful_ret. destruct (VerifyBlobHash d h) as [[]|e|w] eqn:E; done. }
  intros _ Hv. eapply (careful_bind _ _ (fun _ => True)); [|intros _ _; by apply careful_ret].
  destruct (wo_store world); [by apply careful_put|by apply careful_ret].
Qed.

Lemma careful_fallback config h :
  ac_VerificationEnabled config = true -> careful (acquireBlobWithFallback world config h) (fun d => verified d h).
Proof.
  intros Hv. unfold acquireBlobWithFallback. rewrite Hv. destruct (wo_store world); [|apply careful_content].
  eapply careful_bind; [by apply (careful_ask _ (fun _ => True))|].
  intros [[|]|e|w] _; [|apply careful_content..|by apply careful_ret].
  eapply careful_bind; [by apply (careful_ask _ (fun _ => True))|].
  intros [d|e|w] _; [|apply careful_content|by apply careful_ret].
  destruct (VerifyBlobHash d h) as [[]|e|w] eqn:E; [by apply careful_ret|apply careful_content|by apply careful_ret].
Qed.

(** The blobs a descriptor lists but for the empty ones. *)
Definition contentInfos (sd : SDBlob) : list BlobInfo := filter (fun bi => bi_Length bi <> 0) (sd_BlobInfos sd).

Lemma careful_fetch config l contents hashes sizes :
  ac_VerificationEnabled config = true ->
  let infos := filter (fun bi => bi_Length bi <> 0) l in
  careful (fetchContents world config l contents hashes sizes) (fun '(c, h, z) =>
    exists bs, c = contents ++ bs /\ h = hashes ++ map hashAt infos /\ z = sizes ++ map bi_Length infos
      /\ Forall2 (fun d bi => verified d (hashAt bi)) bs infos).
Proof.
  intros Hv. revert contents hashes sizes. induction l as [|bi l IH]; intros contents hashes sizes; cbn [fetchContents].
  - apply careful_ret. exists []. simpl. rewrite !app_nil_r. split_and!; [done..|constructor].
  - cbv zeta in *. rewrite filter_cons. destruct (Z.eqb_spec (bi_Length bi) 0) as [Hz|Hz].
    { rewrite decide_False by tauto. apply IH. }
    rewrite decide_True by done. eapply careful_bind; [by apply careful_fallback|]. intros d Hd.
    eapply careful_weaken; [apply IH|]. intros [[c h] z] (bs & -> & -> & -> & HF). exists (d :: bs).
    rewrite <- !app_assoc. split_and!; [done..|]. by constructor.
Qed.

Lemma validated_hash data h : verifyAndValidateSDBlob orderV data h true = Ok tt ->
  verified data h /\ exists sd, FromBlob orderV data = Ok sd /\ validSD sd.
Proof.
  unfold verifyAndValidateSDBlob, verified. case_match; [done|].
  destruct (VerifyBlobHash data h) as [[]|e|w]; [|done..]. cbn [wrap_err mbind result_bind].
  destruct (Valid data) eqn:Ev; [|done]. cbn [negb]. unfold ValidateSDBlobBytes. case_decide; [done|]. rewrite Ev. cbn [negb].
  destruct (FromBlob orderV data) as [sd|e|w]; [|done..].
  destruct (validateSDBlob sd) as [[]|e|w] eqn:E; [|done..]. intros _. split; [done|]. exists sd.
  split; [done|by apply validateSDBlob_sound].
Qed.

(** What the descriptor, fetched with its hash, says of the rest of a result. *)
Record resultVerified (recursive : bool) (sdHash : bytes) (r : StreamResult) : Prop := {
  rv_text : verified (sr_SDBlobData r) sdHash;
  rv_parsed : FromBlob orderP (sr_SDBlobData r) = Ok (sr_SDBlob r);
  rv_valid : exists sd, FromBlob orderV (sr_SDBlobData r) = Ok sd /\ validSD sd;
  rv_contents :
    if recursive
    then sr_ContentHashes r = map hashAt (contentInfos (sr_SDBlob r))
         /\ sr_ChunkSizes r = map bi_Length (contentInfos (sr_SDBlob r))
         /\ Forall2 (fun d bi => verified d (hashAt bi)) (sr_ContentBlobs r) (contentInfos (sr_SDBlob r))
    else sr_ContentBlobs r = []
}.

Lemma result_careful sdHash opts :
  ac_VerificationEnabled (acquireConfig opts) = true ->
  careful (GetStreamResult world orderV orderP sdHash opts) (resultVerified (ac_Recursive (acquireConfig opts)) sdHash).
Proof.
  intros Hv. unfold GetStreamResult. eapply careful_bind; [apply careful_acquireSD|]. intros data _. rewrite Hv.
  eapply (careful_bind _ _ (fun _ => verifyAndValidateSDBlob orderV data sdHash true = Ok tt));
    [apply careful_ret; by destruct (verifyAndValidateSDBlob _ _ _ _) as [[]| |]|].
  intros _ [Hd Hsd]%validated_hash. eapply (careful_bind _ _ (fun sd => FromBlob orderP data = Ok sd));
    [apply careful_ret; by destruct (FromBlob orderP data)|].
  intros sd Hp. case_match; [by apply careful_ret|]. destruct (ac_Recursive (acquireConfig opts)); cbn [negb].
  - eapply careful_bind; [by apply careful_fetch|]. intros [[c h] z] (bs & -> & -> & -> & HF). by apply careful_ret.
  - by apply careful_ret.
Qed.

(** C5. With verification on, in a world in which stores and peers answer anything:
    whatever [GetStreamResult] returns, the descriptor's text matches the requested hash
    and is a valid descriptor; when the contents were asked for, they are, in the order of
    the descriptor, one blob for every listed blob that is not empty, each matching its
    hash; and nothing that does not match its hash is handed to the store. *)
Theorem stream_result_verified sdHash opts s r s'
    (Hv : ac_VerificationEnabled (acquireConfig opts) = true)
    (Hr : GetStreamResult world orderV orderP sdHash opts s = (Ok r, s')) :
  resultVerified (ac_Recursive (acquireConfig opts)) sdHash r
  /\ exists puts, rd_puts s' = rd_puts s ++ puts /\ Forall (fun p => verified p.2 p.1) puts.
Proof.
  destruct (result_careful sdHash opts Hv s) as (puts & E & F & H). rewrite Hr in E, H. split; [done|]. by exists puts.
Qed.
End Verified.

(** Whatever the stream options say, the reader of [GetStream] verifies only when the
    acquisition option was given: by default it does not. *)
Theorem verification_off_by_default streamOpts :
  rc_VerificationEnabled (readerConfig []) = true
  /\ rc_VerificationEnabled (readerConfig (streamOptions (acquireConfig [WithAcquireStreamOptions streamOpts]))) = false.
Proof. split; [done|]. unfold readerConfig, streamOptions. by rewrite foldl_app. Qed.

(** ** A damaged store *)

Section Damaged.
Context (world : World) (sdBlob : SDBlob) (config : ReaderConfig) (bi : BlobInfo) (d b : bytes) (e : error).

(** The store's copy of the first blob of a stream does not match its hash, the network
    has the blob. *)
Record damaged : Prop := {
  da_store : wo_store world = true;
  da_verify : rc_VerificationEnabled config = true;
  da_first : sd_BlobInfos sdBlob !! 0%nat = Some bi;
  da_hash : bi_BlobHash bi <> [];
  da_size : 0 < totalSize sdBlob;
  da_has t : wo_Has world t (hashAt bi) = Ok true;
  da_get t : wo_Get world t (hashAt bi) = Ok d;
  da_bad : VerifyBlobHash d (hashAt bi) = Err e;
  da_acquire t : wo_Acquire world t (hashAt bi) = Ok b;
  da_good : VerifyBlobHash b (hashAt bi) = Ok tt;
  da_done t : wo_Done world t = None
}.
Context (DA : damaged).

Lemma mismatch_retryable d' e' : VerifyBlobHash d' (hashAt bi) = Err e' -> isRetryableError e' = true.
Proof.
  unfold VerifyBlobHash, ComputeBlobHashBytes, Hash, encodeHash, hashAt. case_decide; [by intros [= <-]|].
  rewrite !DecodeString_EncodeToString. cbn [wrap_err mbind result_bind]. case_decide; [done|by intros [= <-]].
Qed.

Lemma damaged_attempt s : exists s',
  fromStore world sdBlob config 0 (hashAt bi) s = (Err (EWrap "stored blob hash verification failed for %s: %w" e), s').
Proof.
  unfold fromStore. rewrite bind_ask, (da_has DA), bind_ask, (da_get DA). unfold verify. rewrite (da_verify DA), (da_bad DA).
  unfold andThen, ret. cbn [wrap_err]. by eexists.
Qed.

Lemma damaged_attempts n s : exists s',
  attempts world n isRetryableError (fromStore world sdBlob config 0 (hashAt bi)) s
  = (Err (EWrap "stored blob hash verification failed for %s: %w" e), s').
Proof.
  revert s. induction n as [|n IH]; intros s; cbn [attempts]; destruct (damaged_attempt s) as [s1 ->]; [by eexists|].
  destruct n as [|n]; [by eexists|]. change (isRetryableError (EWrap _ e)) with (isRetryableError e).
  rewrite (mismatch_retryable _ _ (da_bad DA)). cbn [negb]. rewrite bind_ask, (da_done DA). apply IH.
Qed.

(** A damaged copy in the store keeps the reader from reading the stream, however often it
    tries, although the network has the blob: the failed verification counts as an error
    to retry, not as one after which the network is asked.  [acquireBlobWithFallback] asks
    the network in the same case. *)
Theorem damaged_store_blocks_reader n acConfig
    (Hn : ac_VerificationEnabled acConfig = true) :
  (exists s', Reader_Read world sdBlob config n newReader
     = (Err (EWrap "storage operation failed: %w" (EWrap "stored blob hash verification failed for %s: %w" e)), s'))
  /\ exists s', acquireBlobWithFallback world acConfig (hashAt bi) newReader = (Ok b, s').
Proof.
  split.
  - unfold Reader_Read, readStart, ensureCurrentBlob, get, andThen, ret.
    cbn [newReader readerAt rd_closed rd_currentPos rd_currentData rd_currentBlob rd_blobCache].
    pose proof (da_size DA). rewrite (proj2 (Z.leb_gt _ _)) by lia.
    pose proof (lookup_lt_Some _ _ _ (da_first DA)) as Hlt.
    cbn [newReader readerAt rd_currentData rd_currentBlob rd_blobCache]. rewrite (proj2 (Nat.leb_gt _ _)) by lia.
    rewrite lookup_empty. unfold index. rewrite (da_first DA). fold (hashAt bi).
    rewrite bool_decide_eq_false_2.
    2: { intros E. apply (da_hash DA), length_zero_iff_nil. pose proof (length_EncodeToString (bi_BlobHash bi)) as HL.
         unfold hashAt in E. rewrite E in HL. simpl in HL. lia. }
    unfold loadBlob, WithRetry. rewrite (da_store DA), bind_ask, (da_done DA).
    edestruct damaged_attempts as [s1 E]. cbn [ro_Attempts ro_RetryIf DefaultRetryOptions]. rewrite E.
    change (isRetryableError (EWrap _ e)) with (isRetryableError e). rewrite (mismatch_retryable _ _ (da_bad DA)). by eexists.
  - unfold acquireBlobWithFallback. rewrite (da_store DA), Hn, bind_ask, (da_has DA), bind_ask, (da_get DA), (da_bad DA).
    unfold acquireContent. rewrite bind_ask, (da_acquire DA). unfold andThen, ret. cbn [wrap_err].
    rewrite (da_good DA), (da_store DA). by eexists.
Qed.
End Damaged.

(** ** Concrete instances *)

(** A world with a store and peers that have the given blobs. *)
Definition having (bs : list bytes) (h : bytes) : option bytes := head (filter (fun b => HashHex b = h) bs).
Definition serving (bs : list bytes) : World :=
  let fetch (_ : nat) h := match having bs h with Some b => Ok b | None => Err (ESent ErrBlobNotFound) end in
  mkWorld true (fun _ h => Ok (bool_decide (is_Some (having bs h)))) fetch fetch (fun _ => None) (fun t => Z.of_nat t).

Lemma having_self bs b : NoDup (map HashHex bs) -> b ∈ bs -> having bs (HashHex b) = Some b.
Proof.
  intros Hn Hb. unfold having. induction bs as [|b' bs IH]; [by apply not_elem_of_nil in Hb|].
  apply NoDup_cons in Hn as [Hn1 Hn2]. rewrite filter_cons. case_decide as E.
  - apply elem_of_cons in Hb as [->|Hb]; [done|]. exfalso. apply Hn1. rewrite E. by apply list_elem_of_fmap_2.
  - apply elem_of_cons in Hb as [->|Hb]; [done|]. by apply IH.
Qed.

Lemma serving_serves bs : NoDup (map HashHex bs) -> serves (serving bs) bs.
Proof.
  intros Hn. split; [done|intros b..|].
  - intros t Hb. simpl. by rewrite having_self.
  - intros d t Hb. simpl. rewrite having_self by done. by intros [= <-].
  - intros t t' Hb. right. simpl. rewrite having_self by done. done.
  - intros t h w. simpl. by destruct (having bs h).
Qed.

Definition demoBlob : bytes := Eval vm_compute in
  match NewBlob (go "hello") sampleKey sampleIV with Ok b => b | _ => [] end.
Definition demoEntry : entry := mkEntry (go "hello") sampleIV demoBlob.
Definition demoSD0 : SDBlob := mkSDBlob [] [] StreamTypeLBRYFile sampleKey [] [] 0.
Definition demoSD : SDBlob := servedSD demoSD0 [demoEntry] sampleIV.

Lemma demo_good : Forall (goodEntry sampleKey) [demoEntry].
Proof. constructor; [|constructor]. split; vm_compute; reflexivity. Qed.

Lemma demo_streamOf : streamOf demoSD [demoBlob] [go "hello"].
Proof. exact (encoder_streamOf demoSD0 [demoEntry] sampleIV _ demo_good eq_refl). Qed.

Definition demoWorld : World := serving [go "x"; demoBlob].
Lemma demo_serves : serves demoWorld [go "x"; demoBlob].
Proof. apply serving_serves. apply (bool_decide_eq_true_1 (NoDup _)). vm_compute. reflexivity. Qed.

Lemma demo_honest config : honest demoWorld demoSD config [demoBlob].
Proof. exact (served_honest demoWorld demoSD0 [demoEntry] sampleIV (go "x") demo_good demo_serves config). Qed.

Lemma demo_helpful config : helpful demoWorld demoSD config [demoBlob].
Proof. exact (served_helpful demoWorld demoSD0 [demoEntry] sampleIV (go "x") demo_good demo_serves config). Qed.

Definition demoEvents : list event := [ERead 2; EStep; EPrefetch; EStep; EStep; ETouch 0; ERead 9; EStep; EStep; EStep].

Lemma reader_delivers_stream_witness :
  let out := ss_out (runEvents demoWorld demoSD DefaultStreamConfig demoEvents) in
  (forall w, Panic w ∉ out)
  /\ (exists rest, concat [go "hello"] = delivered out ++ rest)
  /\ (Err (ESent EOF) ∈ out -> delivered out = concat [go "hello"]).
Proof.
  apply (reader_delivers_stream demoWorld demoSD DefaultStreamConfig [demoBlob] [go "hello"] demo_streamOf
    (demo_honest DefaultStreamConfig) demoEvents).
  repeat constructor; simpl; lia.
Defined.

Lemma seek_into_padding_panics_witness :
  exists s1 s2,
    Reader_Seek demoSD 10 SeekStart newReader = (Ok 10, s1)
    /\ Reader_Read demoWorld demoSD DefaultStreamConfig 4 s1 = (Panic "slice bounds out of range", s2).
Proof.
  apply (seek_into_padding_panics demoWorld demoSD DefaultStreamConfig [demoBlob] [go "hello"] demo_streamOf
    (demo_honest DefaultStreamConfig) (demo_helpful DefaultStreamConfig) demoBlob (go "hello") 10 4); [reflexivity..| |lia].
  vm_compute. split; reflexivity.
Defined.

#[local] Existing Instances exampleRand exampleRand_laws exampleRand_total exampleOrdered exampleOrdered_laws plainCid.

Lemma client_reads_back_witness :
  exists sd config s1 s2,
    GetStream (serving sampleStream) [1; 0] [0; 1] (HashHex (hd [] sampleStream)) [WithAcquireVerification true] newReader
      = (Ok (sd, config), s1)
    /\ readAll (serving sampleStream) sd config (S (5 + length (sd_BlobInfos sd))) 3 [] s1 = (Ok (go "hello"), s2).
Proof.
  destruct (client_reads_back [1; 0] [1; 0] [0; 1] (bytesReader (go "hello")) (go "hello") sampleKey [sampleIV] 0
    order_swap order_swap (Permutation_refl [0; 1]) (bytesReader_source _) ltac:(discriminate) (or_introl eq_refl)
    (List.Forall_cons (fun iv => length iv = 16%nat) sampleIV [] eq_refl (List.Forall_nil _)) eq_refl)
    as (enc & t & bs & enc' & H1 & H2 & H3).
  assert (E : sampleStream = t :: bs) by (rewrite <- sampleStream_made; unfold madeStream; rewrite H1, H2; reflexivity).
  assert (S : serves (serving sampleStream) (t :: bs)).
  { rewrite <- E. apply serving_serves. apply (bool_decide_eq_true_1 (NoDup _)). vm_compute. reflexivity. }
  destruct (H3 (serving sampleStream) [WithAcquireVerification true] S) as [(sd & config & s1 & G1 & _ & G2) _].
  destruct (G2 3 ltac:(lia)) as [s2 G3]. exists sd, config, s1, s2. rewrite E at 2. split; [exact G1|exact G3].
Defined.

Definition demoText : bytes := Eval vm_compute in
  match ToBlob (finalSD demoSD0 [demoEntry] sampleIV) with Ok t => t | _ => [] end.
Lemma demoText_made : ToBlob (finalSD demoSD0 [demoEntry] sampleIV) = Ok demoText.
Proof. vm_compute. reflexivity. Qed.

Definition demoOpts : list AcquireOption := [WithAcquireVerification true; WithAcquireRecursive true].

Lemma stream_result_verified_witness :
  exists r s', GetStreamResult (serving [demoText; demoBlob]) [1; 0] [0; 1] (HashHex demoText) demoOpts newReader = (Ok r, s')
    /\ sr_ContentBlobs r = [demoBlob]
    /\ resultVerified [1; 0] [0; 1] true (HashHex demoText) r.
Proof.
  assert (SV : serves (serving [demoText; demoBlob]) [demoText; demoBlob]).
  { apply serving_serves. apply (bool_decide_eq_true_1 (NoDup _)). vm_compute. reflexivity. }
  destruct (get_result_ok (serving [demoText; demoBlob]) [1; 0] [0; 1] order_swap (Permutation_refl [0; 1]) demoSD0
    [demoEntry] sampleIV demoText demoText_made ltac:(done) plainType (or_introl eq_refl) demo_good eq_refl eq_refl SV
    demoOpts newReader eq_refl) as [s' E].
  eexists _, s'. split; [exact E|]. split; [reflexivity|].
  exact (proj1 (stream_result_verified (serving [demoText; demoBlob]) [1; 0] [0; 1] (HashHex demoText) demoOpts newReader
    _ s' eq_refl E)).
Defined.
