(* ===== verification/ReaderInfo.v ===== *)
(** * client/stream_acquirer.go: what a reader tells about itself

    The size of the decrypted content, worked out from the blobs in the cache, the progress
    and the value the progress callback is given, in float64 arithmetic, for a reader in
    any state that reads, the prefetcher and the other goroutines can bring it to. *)
From stdpp Require Import base tactics list numbers strings gmap.
From Stdlib Require Import ZArith Lia Init.Byte Floats.SpecFloat.
From S2P Require Import Prelude GoStd Blob Json SdBlob Errors Store StreamReader StreamReaderSpec StreamAcquirerSpec GoFloat.
Local Open Scope Z_scope.

Section Info.
Context (sdBlob : SDBlob).
Abbreviation infos := (sd_BlobInfos sdBlob).

(** One turn of the loop of [DecryptedSize]: the bytes and the number of the cached blobs. *)
Definition knownStep (cache : gmap nat (bytes * Z)) (acc : Z * Z) (i : nat) : Z * Z :=
  match cache !! i with
  | Some (data, _) => (acc.1 +i Z.of_nat (length data), acc.2 +i 1)
  | None => acc
  end.
Definition knownSizes (cache : gmap nat (bytes * Z)) : Z * Z :=
  foldl (knownStep cache) (0, 0) (seq 0 (length infos - 1)).

Definition DecryptedSize (s : Reader) : Z :=
  let '(totalDecryptedSize, knownBlobs) := knownSizes (rd_blobCache s) in
  let totalContentBlobs := Z.of_nat (length infos) -i 1 in
  if knownBlobs =? totalContentBlobs then totalDecryptedSize else
  if 0 <? knownBlobs then
    let avgDecryptedSize := fdiv (float64 totalDecryptedSize) (float64 knownBlobs) in
    let remainingBlobs := totalContentBlobs -i knownBlobs in
    let estimatedRemaining := truncate (fmul avgDecryptedSize (float64 remainingBlobs)) in
    totalDecryptedSize +i estimatedRemaining
  else -1.

Definition Reader_Hash : bytes := EncodeToString (sd_StreamHash sdBlob).
Definition Reader_SDBlob : SDBlob := sdBlob.

Definition Progress (s : Reader) : spec_float :=
  if (length infos =? 0)%nat then float64 1
  else fdiv (float64 (Z.of_nat (rd_currentBlob s))) (float64 (Z.of_nat (length infos))).

(** What [Read] passes to the callback after it has moved the position. *)
Definition progressReport (s : Reader) : spec_float :=
  fdiv (float64 (rd_currentPos s)) (float64 (totalSize sdBlob)).
End Info.

(** ** The cached blobs *)

Section Known.
Context (cache : gmap nat (bytes * Z)).

Definition cachedIn (l : list nat) : nat := length (List.filter (fun i => bool_decide (is_Some (cache !! i))) l).

Lemma cachedIn_le l : (cachedIn l <= length l)%nat.
Proof. apply List.filter_length_le. Qed.

Lemma cachedIn_cons i l :
  cachedIn (i :: l) = ((if bool_decide (is_Some (cache !! i)) then 1 else 0) + cachedIn l)%nat.
Proof. unfold cachedIn. simpl. by case_bool_decide. Qed.

(** Blobs of one size: their number times the size. *)
Lemma known_uniform F l k :
  0 < F -> 0 <= k -> F * (k + Z.of_nat (length l)) < 2 ^ 63 ->
  (forall i d t, i ∈ l -> cache !! i = Some (d, t) -> Z.of_nat (length d) = F) ->
  foldl (knownStep cache) (F * k, k) l
  = (F * (k + Z.of_nat (cachedIn l)), k + Z.of_nat (cachedIn l)).
Proof.
  intros HF. revert k. induction l as [|i l IH]; intros k Hk Hb Hs; simpl.
  { f_equal; unfold cachedIn; simpl; lia. }
  assert (Hs' : forall i d t, i ∈ l -> cache !! i = Some (d, t) -> Z.of_nat (length d) = F).
  { intros j d t Hj. apply Hs. by right. }
  simpl in Hb. rewrite cachedIn_cons. unfold knownStep at 2. destruct (cache !! i) as [[d t]|] eqn:E.
  - rewrite bool_decide_true by eauto. simpl. rewrite (Hs i d t) by (done || left).
    rewrite (int64_id (F * k + F)), (int64_id (k + 1)) by (unfold in_int64; nia).
    replace (F * k + F) with (F * (k + 1)) by lia.
    rewrite IH; [f_equal; lia|lia|nia|done].
  - rewrite bool_decide_false by (by intros []). simpl. apply IH; [done|nia|done].
Qed.

(** All blobs: the bytes of the chunks. *)
Lemma known_all (chunks : list bytes) j a k :
  0 <= a -> 0 <= k -> a + Z.of_nat (length (concat chunks)) < 2 ^ 63 -> k + Z.of_nat (length chunks) < 2 ^ 63 ->
  (forall i c, chunks !! i = Some c -> exists t, cache !! (j + i)%nat = Some (c, t)) ->
  foldl (knownStep cache) (a, k) (seq j (length chunks))
  = (a + Z.of_nat (length (concat chunks)), k + Z.of_nat (length chunks)).
Proof.
  revert j a k. induction chunks as [|c chunks IH]; intros j a k Ha Hk Hb Hb' Hc; simpl.
  { f_equal; lia. }
  simpl in Hb, Hb'. rewrite length_app in Hb. destruct (Hc 0%nat c eq_refl) as [t Ht]. rewrite Nat.add_0_r in Ht.
  unfold knownStep at 2. rewrite Ht. simpl.
  rewrite (int64_id (a + _)), (int64_id (k + 1)) by (unfold in_int64; lia).
  rewrite IH; [rewrite length_app; f_equal; lia|lia..|].
  intros i c' Hi. destruct (Hc (S i) c' Hi) as [t' Ht']. exists t'. by rewrite <- Ht'; f_equal; lia.
Qed.

Lemma known_none l acc :
  (forall i, i ∈ l -> cache !! i = None) -> foldl (knownStep cache) acc l = acc.
Proof.
  revert acc. induction l as [|i l IH]; intros acc Hn; simpl; [done|].
  unfold knownStep at 2. rewrite Hn by left. apply IH. intros j Hj. apply Hn. by right.
Qed.

Lemma cachedIn_some l i x : i ∈ l -> cache !! i = Some x -> (0 < cachedIn l)%nat.
Proof.
  induction 1 as [j l|j k l Hi IH]; intros E; rewrite cachedIn_cons.
  - rewrite bool_decide_true by eauto. lia.
  - specialize (IH E). lia.
Qed.

Lemma cachedIn_missing l i : i ∈ l -> cache !! i = None -> (cachedIn l < length l)%nat.
Proof.
  induction 1 as [j l|j k l Hi IH]; intros E; rewrite cachedIn_cons; simpl.
  - rewrite bool_decide_false by (rewrite E; by intros []). pose proof (cachedIn_le l). lia.
  - specialize (IH E). case_bool_decide; lia.
Qed.
End Known.

(** ** Any session of a reader *)

Section Sessions.
Context (world : World) (sdBlob : SDBlob) (config : ReaderConfig) (blobs chunks : list bytes).
Context (SO : streamOf sdBlob blobs chunks) (HO : honest world sdBlob config blobs).

Definition stateAfter (evs : list event) : Reader := ss_reader (runEvents world sdBlob config evs).

Lemma stateAfter_good evs : Forall validEvent evs -> exists D, good chunks D (stateAfter evs).
Proof.
  intros Hv. pose proof (runEvents_good world sdBlob config blobs chunks SO HO evs Hv) as HS.
  unfold stateAfter. destruct (runEvents world sdBlob config evs) as [s ph o]. destruct HS as [_ HS].
  destruct ph; [|destruct HS as [HS _]..]; eauto.
Qed.

(** The chunks of an encoder: all of the size [F] but the last, which is not longer. *)
Definition chunked (F : Z) : Prop :=
  0 < F /\ forall i c, chunks !! i = Some c ->
    (S i < length chunks)%nat /\ Z.of_nat (length c) = F
    \/ S i = length chunks /\ 0 < Z.of_nat (length c) <= F.

Lemma chunked_total F :
  chunked F -> chunks <> [] ->
  Z.of_nat (length (concat chunks)) <= F * Z.of_nat (length chunks) < Z.of_nat (length (concat chunks)) + F.
Proof.
  intros [HF Hc] Hne.
  destruct (exists_last Hne) as (l & c & E).
  assert (Hl : Z.of_nat (length (concat l)) = F * Z.of_nat (length l)).
  { assert (Hl : Forall (fun x => Z.of_nat (length x) = F) l).
    { apply Forall_lookup. intros i x Hx. destruct (Hc i x) as [[_ ?]|[Hi _]]; [|done|].
      - rewrite E. by apply lookup_app_l_Some.
      - apply lookup_lt_Some in Hx. rewrite E, length_app in Hi. simpl in Hi. lia. }
    clear -Hl. induction Hl as [|x l Hx _ IH]; simpl; [lia|]. rewrite length_app. lia. }
  destruct (Hc (length l) c) as [[Hi _]|[_ Hlast]].
  - rewrite E. apply lookup_snoc_Some. by right.
  - rewrite E, length_app in Hi. simpl in Hi. lia.
  - rewrite E, concat_app, !length_app. simpl. rewrite app_nil_r. lia.
Qed.

(** C7. The size a reader reports, in whatever state its calls and the other goroutines have
    brought it to, for a stream cut into chunks of one size and a last one that may be
    shorter: the size of the content when every content blob is in the cache; while some
    are and the last is not, the number of blobs times the chunk size, exactly, in spite
    of the division in floating point, which exceeds the size by less than a chunk; and
    -1 while none is. *)
Theorem decrypted_size_reported F evs :
  Forall validEvent evs -> chunked F -> F * Z.of_nat (length chunks) < 2 ^ 53 -> chunks <> [] ->
  let s := stateAfter evs in
  let cached i := is_Some (rd_blobCache s !! i) in
  let n := Z.of_nat (length (concat chunks)) in
  ((forall i, (i < length chunks)%nat -> cached i) -> DecryptedSize sdBlob s = n)
  /\ ((exists i, cached i) -> ~ cached (pred (length chunks)) ->
       DecryptedSize sdBlob s = F * Z.of_nat (length chunks) /\ n <= DecryptedSize sdBlob s < n + F)
  /\ ((forall i, ~ cached i) -> DecryptedSize sdBlob s = -1).
Proof.
  intros Hv Hch Hb Hne s cached n. destruct (stateAfter_good evs Hv) as [D HG]. fold s in HG.
  pose proof (chunked_total F Hch Hne) as Ht. fold n in Ht. destruct Hch as [HF Hc].
  pose proof (infos_length sdBlob blobs chunks SO) as Hi.
  assert (Hlen : (0 < length chunks)%nat) by (destruct chunks; [done|simpl; lia]).
  assert (Hcount : Z.of_nat (length (sd_BlobInfos sdBlob)) -i 1 = Z.of_nat (length chunks)).
  { rewrite Hi, int64_id; [lia|unfold in_int64; nia]. }
  assert (Hseq : (length (sd_BlobInfos sdBlob) - 1 = length chunks)%nat) by lia.
  unfold DecryptedSize, knownSizes. rewrite Hcount, Hseq. split_and!.
  - intros Hall. rewrite known_all; [| lia | lia | unfold n in Ht; nia | nia |].
    + simpl. by rewrite Z.eqb_refl.
    + intros i c Hic. destruct (Hall i) as [[d t] E]; [by eapply lookup_lt_Some|].
      exists t. simpl. pose proof (g_cache _ _ _ HG _ _ _ E) as Hd. congruence.
  - intros [i [[d t] Ei]] Hlast.
    assert (Hlast' : rd_blobCache s !! pred (length chunks) = None).
    { destruct (rd_blobCache s !! pred (length chunks)) eqn:E; [|done]. destruct Hlast. by exists p. }
    assert (Hs : forall i d t, i ∈ seq 0 (length chunks) -> rd_blobCache s !! i = Some (d, t) ->
      Z.of_nat (length d) = F).
    { intros j d' t' _ Ej. destruct (Hc j d' (g_cache _ _ _ HG _ _ _ Ej)) as [[_ ?]|[Hj _]]; [done|].
      replace (pred (length chunks)) with j in Hlast' by lia. congruence. }
    assert (Hin : i ∈ seq 0 (length chunks)).
    { apply elem_of_seq. pose proof (lookup_lt_Some _ _ _ (g_cache _ _ _ HG _ _ _ Ei)). lia. }
    pose proof (cachedIn_some _ _ _ _ Hin Ei) as Hpos.
    pose proof (cachedIn_missing (rd_blobCache s) (seq 0 (length chunks)) (pred (length chunks))
      ltac:(apply elem_of_seq; lia) Hlast') as Hmiss.
    rewrite length_seq in Hmiss.
    pose proof (known_uniform (rd_blobCache s) F (seq 0 (length chunks)) 0 HF ltac:(lia)) as Hk.
    rewrite length_seq, Z.mul_0_r, !Z.add_0_l in Hk. rewrite Hk; [|nia|done]. clear Hk.
    set (k := Z.of_nat (cachedIn _ _)). set (N := Z.of_nat (length chunks)) in *.
    assert (Hkn : 0 < k < N) by lia.
    destruct (Z.eqb_spec k N); [lia|]. destruct (Z.ltb_spec 0 k); [|lia].
    rewrite (int64_id (N - k)) by (unfold in_int64; nia).
    rewrite fdiv_exact, fmul_exact, truncate_float64 by nia.
    replace (F * k + F * (N - k)) with (F * N) by lia.
    rewrite int64_id by (unfold in_int64; nia). lia.
  - intros Hno. rewrite known_none.
    + cbv beta iota. destruct (Z.eqb_spec 0 (Z.of_nat (length chunks))); [lia|done].
    + intros i _. destruct (rd_blobCache s !! i) eqn:E; [|done]. destruct (Hno i). by exists p.
Qed.

Lemma chunks_below : blobs <> [] -> (length (concat chunks) < length (concat blobs))%nat.
Proof.
  intros Hne. pose proof (so_length _ _ _ SO) as Hl. pose proof (chunk_le_blob sdBlob blobs chunks SO) as Hcb.
  clear -Hne Hl Hcb. revert blobs Hne Hl Hcb. induction chunks as [|c l IH]; intros [|b bs] Hne Hl Hcb; try done.
  simpl in *. rewrite !length_app. pose proof (Hcb 0%nat c b eq_refl eq_refl).
  destruct bs as [|b' bs]; [destruct l; simpl in *; lia|].
  specialize (IH (b' :: bs) ltac:(done) ltac:(simpl in *; lia)).
  assert (length (concat l) < length (concat (b' :: bs)))%nat; [|lia].
  apply IH. intros i. apply (Hcb (S i)).
Qed.

(** The progress of a reader is a number from 0 to 1, and is 1 exactly when the reader is
    past the last blob, when it has delivered everything.  The number the callback is
    given stays below 1, whatever was read: it compares the position in the decrypted
    content with the size of the encrypted blobs. *)
Theorem progress_reported evs :
  Forall validEvent evs -> blobs <> [] -> Z.of_nat (length (concat blobs)) < 2 ^ 53 ->
  Z.of_nat (length blobs) < 2 ^ 52 ->
  let s := stateAfter evs in
  fle (float64 0) (Progress sdBlob s) = true /\ fle (Progress sdBlob s) (float64 1) = true
  /\ (Progress sdBlob s = float64 1 <-> rd_currentBlob s = length (sd_BlobInfos sdBlob))
  /\ (rd_currentBlob s = length (sd_BlobInfos sdBlob) ->
        rd_currentPos s = Z.of_nat (length (concat chunks)))
  /\ flt (progressReport sdBlob s) (float64 1) = true.
Proof.
  intros Hv Hne Hb Hlen s. destruct (stateAfter_good evs Hv) as [D HG]. fold s in HG.
  pose proof (infos_length sdBlob blobs chunks SO) as Hi. pose proof (so_length _ _ _ SO) as Hl.
  pose proof (totalSize_blobs sdBlob blobs chunks SO) as Hts.
  assert (Hpos : rd_currentPos s <= Z.of_nat (length (concat chunks)) < totalSize sdBlob).
  { destruct (g_prefix chunks D s HG) as [rest Hrest]. rewrite (g_pos _ _ _ HG), Hts.
    pose proof (chunks_below Hne). rewrite Hrest, length_app in *. lia. }
  pose proof (g_blob _ _ _ HG) as Hblob. pose proof (g_pos _ _ _ HG) as Hp.
  unfold Progress. rewrite Hi. cbn [Nat.eqb].
  destruct (fdiv_range (Z.of_nat (rd_currentBlob s)) (Z.of_nat (S (length chunks)))) as [H0 H1]; [lia..|].
  split_and!; [done|done| | |].
  - split; [|intros ->; apply fdiv_self; lia]. intros E.
    destruct (Nat.eq_dec (rd_currentBlob s) (S (length chunks))) as [|Hneq]; [done|exfalso].
    destruct (Nat.eq_dec (rd_currentBlob s) 0) as [Ez|Hnz].
    { rewrite Ez, fdiv_zero in E by lia. by rewrite float64_one in E. }
    destruct (fdiv_fraction (Z.of_nat (rd_currentBlob s)) (Z.of_nat (S (length chunks)))) as [_ Hlt]; [lia..|].
    by rewrite E, float64_one in Hlt.
  - intros E. rewrite Hp, (g_delivered _ _ _ HG), E. unfold chunkAt.
    rewrite lookup_ge_None_2 by lia. simpl. by rewrite take_nil, app_nil_r, take_ge by lia.
  - unfold progressReport. destruct (Z.eq_dec (rd_currentPos s) 0) as [->|].
    { rewrite fdiv_zero by lia. by rewrite float64_one. }
    apply fdiv_fraction; lia.
Qed.
End Sessions.

Lemma decrypted_size_reported_witness :
  let s := stateAfter demoWorld demoSD DefaultStreamConfig demoEvents in
  let cached i := is_Some (rd_blobCache s !! i) in
  ((forall i, (i < 1)%nat -> cached i) -> DecryptedSize demoSD s = 5)
  /\ ((exists i, cached i) -> ~ cached 0%nat ->
       DecryptedSize demoSD s = 5 * 1 /\ 5 <= DecryptedSize demoSD s < 5 + 5)
  /\ ((forall i, ~ cached i) -> DecryptedSize demoSD s = -1).
Proof.
  apply (decrypted_size_reported demoWorld demoSD DefaultStreamConfig [demoBlob] [go "hello"]
    demo_streamOf (demo_honest _) 5 demoEvents).
  - repeat (apply Forall_cons; split; [simpl; lia|]). apply Forall_nil_2.
  - split; [lia|]. intros [|i] c Hc; [|by destruct i]. injection Hc as <-. right. split; [done|]. change (length (go "hello")) with 5%nat. lia.
  - vm_compute. reflexivity.
  - discriminate.
Defined.

Lemma progress_reported_witness :
  let s := stateAfter demoWorld demoSD DefaultStreamConfig demoEvents in
  fle (float64 0) (Progress demoSD s) = true /\ fle (Progress demoSD s) (float64 1) = true
  /\ (Progress demoSD s = float64 1 <-> rd_currentBlob s = length (sd_BlobInfos demoSD))
  /\ (rd_currentBlob s = length (sd_BlobInfos demoSD) -> rd_currentPos s = Z.of_nat (length (concat [go "hello"])))
  /\ flt (progressReport demoSD s) (float64 1) = true.
Proof.
  apply (progress_reported demoWorld demoSD DefaultStreamConfig [demoBlob] [go "hello"]
    demo_streamOf (demo_honest _) demoEvents).
  - repeat (apply Forall_cons; split; [simpl; lia|]). apply Forall_nil_2.
  - discriminate.
  - vm_compute. reflexivity.
  - vm_compute. reflexivity.
Defined.

(** Four content blobs of which two are cached: the estimate takes the others for as long. *)
Example estimate_of_four :
  let info h := mkBlobInfo 16 0 h [] 0 in
  let sd := mkSDBlob [] (map info [[x01]; [x02]; [x03]; [x04]; []]) [] [] [] [] 0 in
  let s := mkReader 0 0 0 None {[ 0%nat := (repeat x00 10, 1); 2%nat := (repeat x00 10, 2) ]} None false 0 [] in
  DecryptedSize sd s = 40.
Proof. vm_compute. reflexivity. Qed.
