(* ===== verification/Watchdog.v ===== *)
(** * protocol/watchdog/dht_watchdog.go

    The watchdog keeps which contacts of the DHT could be reached, and which could not, for
    some time.  Every access to its maps holds the lock and is one step; between the steps
    of a validation anything may happen.  Times are nanoseconds; the network is a function
    of the attempt and the address. *)
From stdpp Require Import base tactics list numbers strings gmap.
From Stdlib Require Import ZArith Lia Init.Byte.
From S2P Require Import Prelude GoStd GoNet Store Discovery Reflector.
Local Open Scope Z_scope.

Definition Minute : Z := 60 * Second.
Definition Hour : Z := 60 * Minute.

(** [Time.Sub] saturates. *)
Definition minDuration : Z := - 2 ^ 63.
Definition maxDuration : Z := 2 ^ 63 - 1.
Definition Sub (t u : Z) : Z := Z.max minDuration (Z.min maxDuration (t - u)).

(** ** Configuration *)

Record WatchdogConfig := mkWatchdogConfig {
  wc_TestPorts : list Z;
  wc_CacheTimeout : Z;
  wc_BlacklistTimeout : Z;
  wc_CleanupInterval : Z;
  wc_TestTimeout : Z
}.
Definition WatchdogOption := WatchdogConfig -> WatchdogConfig.
Definition DefaultConfig : WatchdogConfig :=
  mkWatchdogConfig [3333; 4444; 5567] (30 * Minute) (24 * Hour) (10 * Minute) (5 * Second).

Definition WithTestPorts (ports : list Z) : WatchdogOption := fun c =>
  mkWatchdogConfig ports (wc_CacheTimeout c) (wc_BlacklistTimeout c) (wc_CleanupInterval c) (wc_TestTimeout c).
Definition WithCacheTimeout (timeout : Z) : WatchdogOption := fun c =>
  mkWatchdogConfig (wc_TestPorts c) timeout (wc_BlacklistTimeout c) (wc_CleanupInterval c) (wc_TestTimeout c).
Definition WithBlacklistTimeout (timeout : Z) : WatchdogOption := fun c =>
  mkWatchdogConfig (wc_TestPorts c) (wc_CacheTimeout c) timeout (wc_CleanupInterval c) (wc_TestTimeout c).
Definition WithCleanupInterval (interval : Z) : WatchdogOption := fun c =>
  mkWatchdogConfig (wc_TestPorts c) (wc_CacheTimeout c) (wc_BlacklistTimeout c) interval (wc_TestTimeout c).
Definition WithTestTimeout (timeout : Z) : WatchdogOption := fun c =>
  mkWatchdogConfig (wc_TestPorts c) (wc_CacheTimeout c) (wc_BlacklistTimeout c) (wc_CleanupInterval c) timeout.

(** Nil options are skipped. *)
Definition ApplyOptions (options : list (option WatchdogOption)) (c : WatchdogConfig) : WatchdogConfig :=
  foldl (fun c option => match option with Some f => f c | None => c end) c options.

(** ** State *)

(** [wd_stopped]: the context of the watchdog was cancelled. *)
Record Watchdog := mkWatchdog {
  wd_config : WatchdogConfig;
  wd_cache : gmap bytes (Contact * Z);
  wd_blacklist : gmap bytes Z;
  wd_lastCleanup : Z;
  wd_stopped : bool
}.

Definition New (now : Z) (options : list (option WatchdogOption)) : Watchdog :=
  mkWatchdog (ApplyOptions options DefaultConfig) ∅ ∅ now false.

Definition setCaches (cache : gmap bytes (Contact * Z)) (blacklist : gmap bytes Z) (w : Watchdog) : Watchdog :=
  mkWatchdog (wd_config w) cache blacklist (wd_lastCleanup w) (wd_stopped w).

Definition IsCached (now : Z) (contactID : bytes) (w : Watchdog) : bool :=
  match wd_cache w !! contactID with
  | None => false
  | Some (_, timestamp) => negb (wc_CacheTimeout (wd_config w) <? Sub now timestamp)
  end.

Definition IsBlacklisted (now : Z) (contactID : bytes) (w : Watchdog) : bool :=
  match wd_blacklist w !! contactID with
  | None => false
  | Some timestamp => negb (wc_BlacklistTimeout (wd_config w) <? Sub now timestamp)
  end.

Definition RemoveFromCache (contactID : bytes) (w : Watchdog) : Watchdog :=
  setCaches (delete contactID (wd_cache w)) (wd_blacklist w) w.
Definition RemoveFromBlacklist (contactID : bytes) (w : Watchdog) : Watchdog :=
  setCaches (wd_cache w) (delete contactID (wd_blacklist w)) w.
Definition AddToCache (contact : option Contact) (timestamp : Z) (w : Watchdog) : Watchdog :=
  match contact with
  | None => w
  | Some contact => setCaches (<[c_ID contact := (contact, timestamp)]> (wd_cache w)) (wd_blacklist w) w
  end.
Definition AddToBlacklist (contactID : bytes) (timestamp : Z) (w : Watchdog) : Watchdog :=
  setCaches (wd_cache w) (<[contactID := timestamp]> (wd_blacklist w)) w.

Definition CleanupExpired (now : Z) (w : Watchdog) : Watchdog :=
  mkWatchdog (wd_config w)
    (filter (fun '(_, (_, timestamp)) => ~ wc_CacheTimeout (wd_config w) < Sub now timestamp) (wd_cache w))
    (filter (fun '(_, timestamp) => ~ wc_BlacklistTimeout (wd_config w) < Sub now timestamp) (wd_blacklist w))
    now (wd_stopped w).

Record WatchdogStats := mkStats { CachedContacts : nat; BlacklistedContacts : nat; LastCleanupTime : Z }.
Definition GetStats (w : Watchdog) : WatchdogStats :=
  mkStats (size (wd_cache w)) (size (wd_blacklist w)) (wd_lastCleanup w).
Definition StopWatchdog (w : Watchdog) : Watchdog :=
  mkWatchdog (wd_config w) (wd_cache w) (wd_blacklist w) (wd_lastCleanup w) true.

(** ** Validation *)

Section Validation.
Context `{D : DiscoveryLib}.
(** Whether the attempt with this number connects to the address. *)
Context (dial : nat -> bytes -> bool).

(** A dial with a context that is done fails. *)
Definition testPort (ctxDone : bool) (attempt : nat) (ip : bytes) (port : Z) : bool :=
  negb ctxDone && dial attempt (JoinHostPort ip (Itoa port)).

Fixpoint tryPorts (ctxDone : bool) (attempt : nat) (ip : bytes) (ports : list Z) : option Z :=
  match ports with
  | [] => None
  | port :: ports =>
      if testPort ctxDone attempt ip port then Some port else tryPorts ctxDone (S attempt) ip ports
  end.

(** The port that answered, if one did. *)
Definition testContactPorts (w : Watchdog) (ctxDone : bool) (contact : Contact) : option Z :=
  let ip := ipString (c_IP contact) in
  if (0 <? c_PeerPort contact) && testPort ctxDone 0 ip (c_PeerPort contact) then Some (c_PeerPort contact)
  else tryPorts ctxDone (if 0 <? c_PeerPort contact then 1 else 0) ip (wc_TestPorts (wd_config w)).

Definition setPeerPort (port : Z) (c : Contact) : Contact := mkContact (c_ID c) (c_IP c) (c_Port c) port.

(** The end of a validation, under the lock: the contact, which the caller shares, is
    updated after a copy of it was cached. *)
Definition commit (now : Z) (contact : Contact) (port : option Z) (w : Watchdog) : option Contact * bool * Contact * Watchdog :=
  match port with
  | Some successfulPort =>
      let w := setCaches (<[c_ID contact := (contact, now)]> (wd_cache w)) (wd_blacklist w) w in
      if (0 <? successfulPort) && (c_PeerPort contact =? 0)
      then let contact := setPeerPort successfulPort contact in (Some contact, true, contact, w)
      else (None, true, contact, w)
  | None => (None, false, contact, setCaches (wd_cache w) (<[c_ID contact := now]> (wd_blacklist w)) w)
  end.

(** The answer, and the contact as the caller then sees it; [t1] to [t3]: the clock when
    it is read. *)
Definition ValidateAndUpdateContact (t1 t2 t3 : Z) (ctxDone : bool) (contact : option Contact) (w : Watchdog)
    : option Contact * bool * option Contact * Watchdog :=
  match contact with
  | None => (None, false, None, w)
  | Some contact =>
      if IsCached t1 (c_ID contact) w then (None, true, Some contact, w) else
      if IsBlacklisted t2 (c_ID contact) w then (None, false, Some contact, w) else
      let '(updated, valid, contact, w) := commit t3 contact (testContactPorts w ctxDone contact) w in
      (updated, valid, Some contact, w)
  end.

Definition ValidateContactForHash (t1 t2 t3 : Z) (hash : bytes) (contact : option Contact) (w : Watchdog)
    : option Contact * bool * option Contact * Watchdog :=
  ValidateAndUpdateContact t1 t2 t3 (wd_stopped w) contact w.
End Validation.

(** ** The history a watchdog stands for *)

(** What happens to the maps, one step at a time. *)
Inductive step :=
  | SCommit (contact : Contact) (port : option Z)
  | SAddCache (contact : option Contact) (timestamp : Z)
  | SAddBlacklist (contactID : bytes) (timestamp : Z)
  | SRemoveCache (contactID : bytes)
  | SRemoveBlacklist (contactID : bytes)
  | SCleanup
  | SStop.

Definition runStep (w : Watchdog) (st : Z * step) : Watchdog :=
  match st.2 with
  | SCommit contact port => (commit st.1 contact port w).2
  | SAddCache contact timestamp => AddToCache contact timestamp w
  | SAddBlacklist contactID timestamp => AddToBlacklist contactID timestamp w
  | SRemoveCache contactID => RemoveFromCache contactID w
  | SRemoveBlacklist contactID => RemoveFromBlacklist contactID w
  | SCleanup => CleanupExpired st.1 w
  | SStop => StopWatchdog w
  end.
Definition runSteps (w : Watchdog) (hs : list (Z * step)) : Watchdog := foldl runStep w hs.

(** The specification knows no maps and no cleanup: the last success of a contact that was
    not taken back, and the last failure. *)
Definition cachedAfter (id : bytes) (since : option Z) (st : Z * step) : option Z :=
  match st.2 with
  | SCommit contact (Some _) => if decide (c_ID contact = id) then Some st.1 else since
  | SAddCache (Some contact) timestamp => if decide (c_ID contact = id) then Some timestamp else since
  | SRemoveCache contactID => if decide (contactID = id) then None else since
  | _ => since
  end.
Definition cachedSince (id : bytes) (hs : list (Z * step)) : option Z := foldl (cachedAfter id) None hs.

Definition blacklistedAfter (id : bytes) (since : option Z) (st : Z * step) : option Z :=
  match st.2 with
  | SCommit contact None => if decide (c_ID contact = id) then Some st.1 else since
  | SAddBlacklist contactID timestamp => if decide (contactID = id) then Some timestamp else since
  | SRemoveBlacklist contactID => if decide (contactID = id) then None else since
  | _ => since
  end.
Definition blacklistedSince (id : bytes) (hs : list (Z * step)) : option Z := foldl (blacklistedAfter id) None hs.

Definition within (timeout now : Z) (since : option Z) : bool :=
  match since with Some timestamp => Sub now timestamp <=? timeout | None => false end.

(** An entry is as the history says, or gone because it has expired. *)
Definition agrees (timeout now : Z) (kept since : option Z) : Prop :=
  kept = since \/ kept = None /\ exists timestamp, since = Some timestamp /\ timeout < Sub now timestamp.

Lemma Sub_mono t t' u : t <= t' -> Sub t u <= Sub t' u.
Proof. unfold Sub. lia. Qed.

Lemma agrees_later timeout now now' kept since :
  now <= now' -> agrees timeout now kept since -> agrees timeout now' kept since.
Proof.
  intros Hn [->|(-> & ts & -> & Hlt)]; [by left|right]. split; [done|]. exists ts. split; [done|].
  pose proof (Sub_mono now now' ts Hn). lia.
Qed.

Lemma agrees_within timeout now kept since :
  agrees timeout now kept since -> within timeout now kept = within timeout now since.
Proof.
  intros [->|(-> & ts & -> & Hlt)]; [done|]. simpl. symmetry. apply Z.leb_gt. lia.
Qed.

Definition cacheStamp (id : bytes) (w : Watchdog) : option Z := snd <$> wd_cache w !! id.

Lemma IsCached_within now id w : IsCached now id w = within (wc_CacheTimeout (wd_config w)) now (cacheStamp id w).
Proof.
  unfold IsCached, cacheStamp. destruct (wd_cache w !! id) as [[c ts]|]; [|done]. simpl. by rewrite Z.leb_antisym.
Qed.
Lemma IsBlacklisted_within now id w :
  IsBlacklisted now id w = within (wc_BlacklistTimeout (wd_config w)) now (wd_blacklist w !! id).
Proof. unfold IsBlacklisted. destruct (wd_blacklist w !! id) as [ts|]; [|done]. simpl. by rewrite Z.leb_antisym. Qed.

Lemma config_step w st : wd_config (runStep w st) = wd_config w.
Proof.
  destruct st as [t [c [p|]|[c|] ts|id ts|id|id| |]]; try done. unfold runStep, commit. cbn [snd].
  by destruct ((0 <? p) && (c_PeerPort c =? 0)).
Qed.

Lemma cache_step w t st id since :
  agrees (wc_CacheTimeout (wd_config w)) t (cacheStamp id w) since ->
  agrees (wc_CacheTimeout (wd_config w)) t (cacheStamp id (runStep w (t, st))) (cachedAfter id since (t, st)).
Proof.
  assert (Hins : forall c ts, agrees (wc_CacheTimeout (wd_config w)) t (cacheStamp id w) since ->
    agrees (wc_CacheTimeout (wd_config w)) t (snd <$> <[c_ID c := (c, ts)]> (wd_cache w) !! id)
      (if decide (c_ID c = id) then Some ts else since)).
  { intros c ts Ha. case_decide as E; [left; by rewrite E, lookup_insert_eq|by rewrite lookup_insert_ne]. }
  intros Ha. destruct st as [c [p|]|[c|] ts|id' ts|id'|id'| |]; unfold cachedAfter; cbn [snd fst]; try exact Ha.
  - replace (cacheStamp id (runStep w (t, SCommit c (Some p)))) with (snd <$> <[c_ID c := (c, t)]> (wd_cache w) !! id);
      [by apply Hins|]. unfold runStep, commit. cbn [snd fst]. by destruct ((0 <? p) && (c_PeerPort c =? 0)).
  - by apply Hins.
  - unfold cacheStamp. simpl. case_decide as E; [left; by rewrite E, lookup_delete_eq|by rewrite lookup_delete_ne].
  - unfold cacheStamp in *. simpl. destruct (wd_cache w !! id) as [[c ts]|] eqn:E.
    + destruct Ha as [<-|[? _]]; [|done]. destruct (decide (wc_CacheTimeout (wd_config w) < Sub t ts)) as [Hlt|Hge].
      * right. rewrite map_lookup_filter, E. simpl. split; [by rewrite option_guard_False by tauto|]. by exists ts.
      * left. rewrite map_lookup_filter, E. simpl. by rewrite option_guard_True.
    + by rewrite map_lookup_filter, E.
Qed.

Lemma blacklist_step w t st id since :
  agrees (wc_BlacklistTimeout (wd_config w)) t (wd_blacklist w !! id) since ->
  agrees (wc_BlacklistTimeout (wd_config w)) t (wd_blacklist (runStep w (t, st)) !! id) (blacklistedAfter id since (t, st)).
Proof.
  intros Ha. destruct st as [c [p|]|[c|] ts|id' ts|id'|id'| |]; unfold blacklistedAfter; cbn [snd fst]; try exact Ha.
  - unfold runStep, commit. cbn [snd fst]. by destruct ((0 <? p) && (c_PeerPort c =? 0)).
  - simpl. case_decide as E; [left; by rewrite E, lookup_insert_eq|by rewrite lookup_insert_ne].
  - simpl. case_decide as E; [left; by rewrite E, lookup_insert_eq|by rewrite lookup_insert_ne].
  - simpl. case_decide as E; [left; by rewrite E, lookup_delete_eq|by rewrite lookup_delete_ne].
  - simpl. rewrite map_lookup_filter. destruct (wd_blacklist w !! id) as [ts|] eqn:E; [|exact Ha].
    destruct Ha as [<-|[? _]]; [|done]. simpl.
    destruct (decide (wc_BlacklistTimeout (wd_config w) < Sub t ts)) as [Hlt|Hge].
    + right. split; [by rewrite option_guard_False by tauto|]. by exists ts.
    + left. by rewrite option_guard_True.
Qed.

(** Times do not go back. *)
Fixpoint chronological (start : Z) (hs : list (Z * step)) : Prop :=
  match hs with [] => True | (t, _) :: hs => start <= t /\ chronological t hs end.
Definition endTime (start : Z) (hs : list (Z * step)) : Z := foldl (fun _ st => st.1) start hs.

Lemma run_agrees hs : forall w start idc idb sc sb,
  chronological start hs ->
  agrees (wc_CacheTimeout (wd_config w)) start (cacheStamp idc w) sc ->
  agrees (wc_BlacklistTimeout (wd_config w)) start (wd_blacklist w !! idb) sb ->
  wd_config (runSteps w hs) = wd_config w
  /\ agrees (wc_CacheTimeout (wd_config w)) (endTime start hs) (cacheStamp idc (runSteps w hs)) (foldl (cachedAfter idc) sc hs)
  /\ agrees (wc_BlacklistTimeout (wd_config w)) (endTime start hs) (wd_blacklist (runSteps w hs) !! idb)
       (foldl (blacklistedAfter idb) sb hs).
Proof.
  induction hs as [|[t st] hs IH]; intros w start idc idb sc sb Hc Ha Hb; [done|]. destruct Hc as [Hle Hc].
  cbn [runSteps foldl endTime fst]. pose proof (config_step w (t, st)) as Ec.
  destruct (IH (runStep w (t, st)) t idc idb (cachedAfter idc sc (t, st)) (blacklistedAfter idb sb (t, st)) Hc) as (E1 & E2 & E3);
    rewrite ?Ec in *.
  - apply cache_step. by eapply agrees_later.
  - apply blacklist_step. by eapply agrees_later.
  - done.
Qed.

Lemma remembers start options hs now id :
  chronological start hs -> endTime start hs <= now ->
  let w := runSteps (New start options) hs in
  let config := ApplyOptions options DefaultConfig in
  IsCached now id w = within (wc_CacheTimeout config) now (cachedSince id hs)
  /\ IsBlacklisted now id w = within (wc_BlacklistTimeout config) now (blacklistedSince id hs).
Proof.
  intros Hc Hn. destruct (run_agrees hs (New start options) start id id None None Hc) as (E1 & E2 & E3); [by left..|].
  intros w config. fold w in E1, E2, E3. split.
  - rewrite IsCached_within, E1. apply agrees_within. by eapply agrees_later.
  - rewrite IsBlacklisted_within, E1. apply agrees_within. by eapply agrees_later.
Qed.

(** C16. A watchdog answers from its history: after any steps, in the order of the clock, of
    validations that run at the same time, manual additions and removals, cleanups and a
    stop, a contact counts as cached exactly when its last success that was not taken back
    lies within the cache timeout, and as blacklisted exactly when its last failure lies
    within the blacklist timeout; when cleanups run makes no difference. *)
Theorem watchdog_remembers start options hs now id
    (Hc : chronological start hs) (Hn : endTime start hs <= now) :
  let w := runSteps (New start options) hs in
  let config := ApplyOptions options DefaultConfig in
  IsCached now id w = within (wc_CacheTimeout config) now (cachedSince id hs)
  /\ IsBlacklisted now id w = within (wc_BlacklistTimeout config) now (blacklistedSince id hs).
Proof. by apply remembers. Qed.

(** ** Validations *)

(** A step that says nothing of the contact. *)
Definition untouched (id : bytes) (st : Z * step) : Prop :=
  forall since, cachedAfter id since st = since /\ blacklistedAfter id since st = since.

Lemma foldl_untouched {f : bytes -> option Z -> Z * step -> option Z} id hs since :
  Forall (fun st => forall since, f id since st = since) hs -> foldl (f id) since hs = since.
Proof. induction 1 as [|st hs Hst _ IH]; [done|]. simpl. by rewrite Hst. Qed.

Lemma chronological_app start hs hs' :
  chronological start (hs ++ hs') <-> chronological start hs /\ chronological (endTime start hs) hs'.
Proof.
  revert start. induction hs as [|[t st] hs IH]; intros start; simpl; [tauto|]. rewrite IH. unfold endTime. simpl. tauto.
Qed.

Lemma endTime_app start hs hs' : endTime start (hs ++ hs') = endTime (endTime start hs) hs'.
Proof. unfold endTime. by rewrite foldl_app. Qed.

Lemma endTime_le start hs : chronological start hs -> start <= endTime start hs.
Proof.
  revert start. induction hs as [|[t st] hs IH]; intros start; [done|]. intros [Hle Hc]. specialize (IH t Hc).
  unfold endTime in *. simpl. lia.
Qed.

Section Rest.
Context `{D : DiscoveryLib}.

(** A contact that answered on none of its ports is left alone: until the blacklist
    timeout has passed, unless somebody adds or removes an entry for it, every validation
    of it fails without dialling, whatever the network would answer by then and whatever
    happens to other contacts. *)
Theorem failed_contact_rests dial start options hs t1 t2 t3 ctxDone contact hs' dial' u1 u2 u3 ctxDone' contact'
    (Hc : chronological start hs) (H1 : endTime start hs <= t1 <= t2) (H3 : t2 <= t3)
    (Hb : in_int64 (wc_BlacklistTimeout (ApplyOptions options DefaultConfig)))
    (Hcached : IsCached t1 (c_ID contact) (runSteps (New start options) hs) = false)
    (Hblack : IsBlacklisted t2 (c_ID contact) (runSteps (New start options) hs) = false)
    (Hports : testContactPorts dial (runSteps (New start options) hs) ctxDone contact = None)
    (Hc' : chronological t3 hs') (Hid : c_ID contact' = c_ID contact)
    (Hu : Forall (untouched (c_ID contact)) hs')
    (Hu1 : endTime t3 hs' <= u1 <= u2) (Hu2 : u2 <= t3 + wc_BlacklistTimeout (ApplyOptions options DefaultConfig)) :
  let '(updated, valid, c, w) :=
    ValidateAndUpdateContact dial t1 t2 t3 ctxDone (Some contact) (runSteps (New start options) hs) in
  (updated, valid, c) = (None, false, Some contact)
  /\ ValidateAndUpdateContact dial' u1 u2 u3 ctxDone' (Some contact') (runSteps w hs')
     = (None, false, Some contact', runSteps w hs').
Proof.
  set (w := runSteps (New start options) hs) in *. unfold ValidateAndUpdateContact at 1. rewrite Hcached, Hblack, Hports.
  cbn [commit]. split; [done|]. set (id := c_ID contact) in *.
  change (setCaches (wd_cache w) (<[id := t3]> (wd_blacklist w)) w) with (runStep w (t3, SCommit contact None)).
  assert (Er : runSteps (runStep w (t3, SCommit contact None)) hs'
    = runSteps (New start options) (hs ++ (t3, SCommit contact None) :: hs')).
  { unfold w, runSteps. by rewrite foldl_app. }
  rewrite Er. unfold ValidateAndUpdateContact. rewrite Hid. fold id.
  assert (Hch : chronological start (hs ++ (t3, SCommit contact None) :: hs')).
  { apply chronological_app. split; [done|]. simpl. split; [lia|done]. }
  assert (Hend : endTime start (hs ++ (t3, SCommit contact None) :: hs') = endTime t3 hs') by (by rewrite endTime_app).
  pose proof (endTime_le t3 hs' Hc') as Hle.
  destruct (remembers start options _ u1 id Hch) as [E1 _]; [lia|].
  destruct (remembers start options _ u2 id Hch) as [_ E2]; [lia|].
  destruct (remembers start options hs t1 id Hc) as [E0 _]; [lia|]. fold w in E0. rewrite Hcached in E0.
  assert (Ec : cachedSince id (hs ++ (t3, SCommit contact None) :: hs') = cachedSince id hs).
  { unfold cachedSince. rewrite foldl_app. simpl. apply (foldl_untouched (f := cachedAfter)).
    eapply Forall_impl; [exact Hu|]. intros st Hst since. apply Hst. }
  assert (Eb : blacklistedSince id (hs ++ (t3, SCommit contact None) :: hs') = Some t3).
  { unfold blacklistedSince. rewrite foldl_app. simpl. unfold blacklistedAfter at 2. simpl. rewrite decide_True by done.
    apply (foldl_untouched (f := blacklistedAfter)). eapply Forall_impl; [exact Hu|]. intros st Hst since. apply Hst. }
  rewrite E1, E2, Ec, Eb. simpl.
  assert (within (wc_CacheTimeout (ApplyOptions options DefaultConfig)) u1 (cachedSince id hs) = false) as ->.
  { destruct (cachedSince id hs) as [ts|]; [|done]. simpl in *. symmetry in E0. apply Z.leb_gt in E0. apply Z.leb_gt.
    pose proof (Sub_mono t1 u1 ts). lia. }
  assert ((Sub u2 t3 <=? wc_BlacklistTimeout (ApplyOptions options DefaultConfig)) = true) as ->; [|done].
  apply Z.leb_le. unfold Sub, minDuration, maxDuration, in_int64 in *. lia.
Qed.

(** A contact whose own port is dead but which answers on a test port counts as valid and
    keeps the dead port: the port that answered is not reported. *)
Theorem dead_port_kept dial t1 t2 t3 ctxDone contact port w :
  IsCached t1 (c_ID contact) w = false -> IsBlacklisted t2 (c_ID contact) w = false ->
  c_PeerPort contact <> 0 -> testContactPorts dial w ctxDone contact = Some port -> port <> c_PeerPort contact ->
  exists w', ValidateAndUpdateContact dial t1 t2 t3 ctxDone (Some contact) w = (None, true, Some contact, w').
Proof.
  intros Hc Hb Hp Ht Hne. unfold ValidateAndUpdateContact. rewrite Hc, Hb, Ht. cbn [commit].
  rewrite (proj2 (Z.eqb_neq _ _) Hp), andb_false_r. by eexists.
Qed.
End Rest.

(** ** Concrete instances *)

#[local] Instance dottedLib : DiscoveryLib := {|
  contactEquals _ _ _ := true; ParseIP _ := None; LookupIPAddr _ := Ok []; services _ := Err (EMsg "unknown port");
  ipString ip := ip; contactAddr _ := []
|}.

Definition someContact : Contact := mkContact (go "id") (go "10.0.0.1") 4444 0.
Definition otherContact : Contact := mkContact (go "other") (go "10.0.0.2") 4444 0.
Definition someHistory : list (Z * step) :=
  [(5, SCommit someContact (Some 3333)); (6, SCleanup); (7, SCommit otherContact None); (8 * Hour, SCleanup)].

Lemma watchdog_remembers_witness :
  let w := runSteps (New 0 []) someHistory in
  IsCached (9 * Hour) (go "id") w = false /\ IsBlacklisted (9 * Hour) (go "other") w = true.
Proof.
  intros w. split.
  - exact (proj1 (watchdog_remembers 0 [] someHistory (9 * Hour) (go "id")
      ltac:(vm_compute; repeat split; discriminate) ltac:(vm_compute; discriminate))).
  - exact (proj2 (watchdog_remembers 0 [] someHistory (9 * Hour) (go "other")
      ltac:(vm_compute; repeat split; discriminate) ltac:(vm_compute; discriminate))).
Defined.

(** The network is down and comes back; the contact is left alone for a day. *)
Lemma failed_contact_rests_witness :
  let '(_, _, _, w) := ValidateAndUpdateContact (fun _ _ => false) 1 2 3 false (Some someContact) (New 0 []) in
  ValidateAndUpdateContact (fun _ _ => true) Hour Hour Hour false (Some someContact) w
  = (None, false, Some someContact, w).
Proof.
  exact (proj2 (failed_contact_rests (fun _ _ => false) 0 [] [] 1 2 3 false someContact [] (fun _ _ => true)
    Hour Hour Hour false someContact I ltac:(split; vm_compute; discriminate) ltac:(vm_compute; discriminate)
    ltac:(vm_compute; split; first [discriminate|reflexivity]) eq_refl eq_refl eq_refl I eq_refl (List.Forall_nil _)
    ltac:(split; vm_compute; discriminate) ltac:(vm_compute; discriminate))).
Defined.
