(* ===== verification/DhtNode.v ===== *)
(** * protocol/dht.go, dht_node.go, network_crawler.go: the managed DHT node

    The configuration with its options, and the node that wraps the DHT library: the
    library's own operations are parameters, and what is asked of it is kept as a log.
    The locks make every operation one step, except where the code gives the lock up: the
    goroutines that wait for the join, the parts of a shutdown and the callers that wait are
    steps of their own, around a sync.WaitGroup with its counter and its waiters.  What
    holds over the histories of a node is in DhtNodeSpec.v. *)
From stdpp Require Import base tactics list numbers strings gmap.
From Stdlib Require Import ZArith Lia Init.Byte.
From S2P Require Import Prelude GoStd GoNet Store Discovery Reflector Watchdog.
Local Open Scope Z_scope.

(** ** protocol/dht.go *)

Definition IsValidPortRange (port : Z) : bool := (0 <=? port) && (port <=? 65535).
Definition IsValidNonZeroPortRange (port : Z) : bool := (1 <=? port) && (port <=? 65535).

Definition DefaultDHTAddress : bytes := go "127.0.0.1:4444".
Definition DefaultSeedNodes : list bytes :=
  [go "s1.lbry.network:4444"; go "dht.lbry.pigg.es:4444"; go "lbrynet2.lbry.com:4444";
   go "lbrynet3.lbry.com:4444"; go "lbrynet4.lbry.com:4444"].
Definition DefaultDistributedPeerPortLegacy : Z := 3333.

(** The loggers are left out. *)
Record DHTConfig := mkDHTConfig {
  dc_Address : bytes;
  dc_SeedNodes : list bytes;
  dc_NodeID : bytes;
  dc_PeerProtocolPort : Z;
  dc_RPCPort : Z;
  dc_ReannounceTime : Z;
  dc_AnnounceRate : Z;
  dc_Watchdog : option Watchdog;
  dc_NetworkScanEnabled : bool
}.

Definition validateDHTConfig (c : DHTConfig) : result unit :=
  if bool_decide (dc_Address c = []) then Err (EMsg "DHT address cannot be empty") else
  if negb (IsValidNonZeroPortRange (dc_PeerProtocolPort c))
  then Err (EMsg "peer protocol port must be between 1 and 65535") else
  if negb (IsValidPortRange (dc_RPCPort c)) then Err (EMsg "RPC port must be between 0 and 65535 (0 to disable)") else
  if dc_ReannounceTime c <=? 0 then Err (EMsg "reannounce time must be positive") else
  if dc_AnnounceRate c <=? 0 then Err (EMsg "announce rate must be positive") else Ok tt.

(** Options panic on a bad configuration. *)
Definition validateDHTConfigIfNeeded (c : DHTConfig) : result unit :=
  if negb (IsValidNonZeroPortRange (dc_PeerProtocolPort c))
  then Panic "peer protocol port must be between 1 and 65535, got %d" else
  if negb (IsValidPortRange (dc_RPCPort c)) then Panic "RPC port must be between 0 and 65535 (0 to disable), got %d" else
  if dc_ReannounceTime c <? 0 then Panic "reannounce time must be non-negative, got %v" else
  if dc_AnnounceRate c <? 0 then Panic "announce rate must be non-negative, got %d" else
  let hasBasicConfig :=
    negb (bool_decide (dc_Address c = []))
    && (negb (dc_PeerProtocolPort c =? 0) || negb (dc_ReannounceTime c =? 0) || negb (dc_AnnounceRate c =? 0)) in
  if hasBasicConfig then match validateDHTConfig c with Ok _ => Ok tt | _ => Panic "invalid DHT configuration" end
  else Ok tt.

Definition NewDHTConfig : result DHTConfig :=
  let cfg := mkDHTConfig DefaultDHTAddress DefaultSeedNodes [] DefaultDistributedPeerPortLegacy 0 (50 * Minute) 10 None false in
  match validateDHTConfig cfg with Ok _ => Ok cfg | Err e => Err e | Panic w => Panic w end.

Definition DHTOption := DHTConfig -> result DHTConfig.
Definition checked (c : DHTConfig) : result DHTConfig := validateDHTConfigIfNeeded c ;; Ok c.

Definition WithDHTAddress (addr : bytes) : DHTOption := fun c =>
  checked (mkDHTConfig addr (dc_SeedNodes c) (dc_NodeID c) (dc_PeerProtocolPort c) (dc_RPCPort c) (dc_ReannounceTime c)
    (dc_AnnounceRate c) (dc_Watchdog c) (dc_NetworkScanEnabled c)).
Definition WithDHTSeedNodes (nodes : list bytes) : DHTOption := fun c =>
  Ok (mkDHTConfig (dc_Address c) nodes (dc_NodeID c) (dc_PeerProtocolPort c) (dc_RPCPort c) (dc_ReannounceTime c)
    (dc_AnnounceRate c) (dc_Watchdog c) (dc_NetworkScanEnabled c)).
Definition WithDHTNodeID (id : bytes) : DHTOption := fun c =>
  Ok (mkDHTConfig (dc_Address c) (dc_SeedNodes c) id (dc_PeerProtocolPort c) (dc_RPCPort c) (dc_ReannounceTime c)
    (dc_AnnounceRate c) (dc_Watchdog c) (dc_NetworkScanEnabled c)).
Definition WithDHTPeerProtocolPort (port : Z) : DHTOption := fun c =>
  checked (mkDHTConfig (dc_Address c) (dc_SeedNodes c) (dc_NodeID c) port (dc_RPCPort c) (dc_ReannounceTime c)
    (dc_AnnounceRate c) (dc_Watchdog c) (dc_NetworkScanEnabled c)).
Definition WithDHTRPCPort (port : Z) : DHTOption := fun c =>
  checked (mkDHTConfig (dc_Address c) (dc_SeedNodes c) (dc_NodeID c) (dc_PeerProtocolPort c) port (dc_ReannounceTime c)
    (dc_AnnounceRate c) (dc_Watchdog c) (dc_NetworkScanEnabled c)).
Definition WithDHTReannounceTime (interval : Z) : DHTOption := fun c =>
  checked (mkDHTConfig (dc_Address c) (dc_SeedNodes c) (dc_NodeID c) (dc_PeerProtocolPort c) (dc_RPCPort c) interval
    (dc_AnnounceRate c) (dc_Watchdog c) (dc_NetworkScanEnabled c)).
Definition WithDHTAnnounceRate (rate : Z) : DHTOption := fun c =>
  checked (mkDHTConfig (dc_Address c) (dc_SeedNodes c) (dc_NodeID c) (dc_PeerProtocolPort c) (dc_RPCPort c)
    (dc_ReannounceTime c) rate (dc_Watchdog c) (dc_NetworkScanEnabled c)).
Definition WithDHTWatchdog (wd : option Watchdog) : DHTOption := fun c =>
  Ok (mkDHTConfig (dc_Address c) (dc_SeedNodes c) (dc_NodeID c) (dc_PeerProtocolPort c) (dc_RPCPort c)
    (dc_ReannounceTime c) (dc_AnnounceRate c) wd (dc_NetworkScanEnabled c)).
Definition WithDHTNetworkScan (enabled : bool) : DHTOption := fun c =>
  Ok (mkDHTConfig (dc_Address c) (dc_SeedNodes c) (dc_NodeID c) (dc_PeerProtocolPort c) (dc_RPCPort c)
    (dc_ReannounceTime c) (dc_AnnounceRate c) (dc_Watchdog c) enabled).

Definition applyDHTOptions (options : list (option DHTOption)) (c : DHTConfig) : result DHTConfig :=
  foldl (fun r option => c ← r; match option with Some f => f c | None => Ok c end) (Ok c) options.

(** ** protocol/dht_node.go *)

(** What is asked of the DHT library. *)
Inductive dhtCall := CallAdd (hash : bytes) | CallRemove (hash : bytes) | CallUpdate (contact : Contact)
  | CallForget (hash : bytes) (contact : Contact).

(** A sync.WaitGroup: its counter, and the callers of [Wait] that are registered.  Callers
    register only while the counter is not zero, and zero clears them, so that [Add] never
    finds callers registered on a zero counter, its one panic. *)
Record WaitGroup := mkWaitGroup { wg_count : nat; wg_waiters : nat }.

(** Where the goroutine of [startJoinGoroutine] is: it looks at the context, waits for the
    library to join, and is done with the wait group in the end. *)
Inductive joinPc := JCheck | JLibrary | JDone.

(** Where a call of [Wait] of a wait group is. *)
Inductive waitPc := WEnter | WParked | WWoken.

(** A call of [Shutdown] after it has given up the lock, with the context whose cancel
    function it took along; or ([shutdown] false) a call of the node's [Wait]. *)
Inductive callPc :=
  | CCancel (ctx : nat)
  | CStopParts
  | CWait (shutdown : bool) (pc : waitPc)
  | CClear.

#[export] Instance waitPc_eq_dec : EqDecision waitPc.
Proof. solve_decision. Defined.
#[export] Instance callPc_eq_dec : EqDecision callPc.
Proof. solve_decision. Defined.

(** [mn_epoch] tells the context and the join channel of one start from those after a
    restart; [mn_closed]: the join channels that were closed; [mn_cancelled]: the contexts
    that were cancelled; [mn_joinOnce]: the once of this epoch's channel was used;
    [mn_joining]: the goroutines that wait for the join, with the channel each took along;
    [mn_stopping]: the calls of [Shutdown] and [Wait] under way;
    [mn_waiters]: the callers of [WaitUntilJoined], with the channel and, once they have
    read it, the context they wait for. *)
Record Node := mkNode {
  mn_config : DHTConfig;
  mn_watchdog : Watchdog;
  mn_ownsWatchdog : bool;
  mn_joined : bool;
  mn_stopped : bool;
  mn_epoch : nat;
  mn_joinOnce : bool;
  mn_closed : gset nat;
  mn_cancelled : gset nat;
  mn_wg : WaitGroup;
  mn_joining : list (nat * joinPc);
  mn_stopping : list callPc;
  mn_waiters : list (nat * option nat);
  mn_calls : list dhtCall
}.

(** [now]: the clock at the time of the call. *)
Definition NewDHTNode (now : Z) (options : list (option DHTOption)) : result Node :=
  config ← NewDHTConfig;
  config ← applyDHTOptions options config;
  let '(wd, owns) := match dc_Watchdog config with Some wd => (wd, false) | None => (New now [], true) end in
  Ok (mkNode config wd owns false false 0 false ∅ ∅ (mkWaitGroup 0 0) [] [] [] []).

Definition isActive (w : Node) : bool := negb (mn_stopped w).

Definition setRun (joined stopped : bool) (w : Node) : Node :=
  mkNode (mn_config w) (mn_watchdog w) (mn_ownsWatchdog w) joined stopped (mn_epoch w) (mn_joinOnce w) (mn_closed w)
    (mn_cancelled w) (mn_wg w) (mn_joining w) (mn_stopping w) (mn_waiters w) (mn_calls w).
Definition setChans (once : bool) (closed cancelled : gset nat) (w : Node) : Node :=
  mkNode (mn_config w) (mn_watchdog w) (mn_ownsWatchdog w) (mn_joined w) (mn_stopped w) (mn_epoch w) once closed
    cancelled (mn_wg w) (mn_joining w) (mn_stopping w) (mn_waiters w) (mn_calls w).
Definition setGroup (wg : WaitGroup) (joining : list (nat * joinPc)) (stopping : list callPc) (w : Node) : Node :=
  mkNode (mn_config w) (mn_watchdog w) (mn_ownsWatchdog w) (mn_joined w) (mn_stopped w) (mn_epoch w) (mn_joinOnce w)
    (mn_closed w) (mn_cancelled w) wg joining stopping (mn_waiters w) (mn_calls w).
Definition setWaiters (waiters : list (nat * option nat)) (w : Node) : Node :=
  mkNode (mn_config w) (mn_watchdog w) (mn_ownsWatchdog w) (mn_joined w) (mn_stopped w) (mn_epoch w) (mn_joinOnce w)
    (mn_closed w) (mn_cancelled w) (mn_wg w) (mn_joining w) (mn_stopping w) waiters (mn_calls w).
Definition setDog (wd : Watchdog) (w : Node) : Node :=
  mkNode (mn_config w) wd (mn_ownsWatchdog w) (mn_joined w) (mn_stopped w) (mn_epoch w) (mn_joinOnce w)
    (mn_closed w) (mn_cancelled w) (mn_wg w) (mn_joining w) (mn_stopping w) (mn_waiters w) (mn_calls w).
Definition log (c : dhtCall) (w : Node) : Node :=
  mkNode (mn_config w) (mn_watchdog w) (mn_ownsWatchdog w) (mn_joined w) (mn_stopped w) (mn_epoch w) (mn_joinOnce w)
    (mn_closed w) (mn_cancelled w) (mn_wg w) (mn_joining w) (mn_stopping w) (mn_waiters w) (mn_calls w ++ [c]).

(** [wg.Add(1)] and the goroutine. *)
Definition startJoinGoroutine (w : Node) : Node :=
  setGroup (mkWaitGroup (S (wg_count (mn_wg w))) (wg_waiters (mn_wg w))) (mn_joining w ++ [(mn_epoch w, JCheck)])
    (mn_stopping w) w.

(** *** Operations of the library

    They are refused on a stopped node; [answer] is what the library would say. *)

Definition whenActive {A} (text : string) (answer : result A) (w : Node) : result A :=
  if isActive w then answer else Err (EMsg text).

Definition Node_ID (id : bytes) (w : Node) : bytes := if isActive w then id else replicate 48 x00.
Definition Node_Address (w : Node) : bytes := dc_Address (mn_config w).
Definition Node_Ping (answer : result unit) (w : Node) : result unit := whenActive "DHT peer is stopped" answer w.
Definition Node_Get (answer : result (list Contact)) (w : Node) : result (list Contact) :=
  whenActive "DHT peer is stopped" answer w.
Definition Node_Add (hash : bytes) (w : Node) : Node := if isActive w then log (CallAdd hash) w else w.
Definition Node_Remove (hash : bytes) (w : Node) : Node := if isActive w then log (CallRemove hash) w else w.
Definition IsJoined (w : Node) : bool := mn_joined w.
Definition GetRoutingTableContacts (contacts : list Contact) (w : Node) : result (list Contact) :=
  whenActive "DHT node is stopped" (Ok contacts) w.
Definition FindContacts (answer : result (list Contact * bool)) (w : Node) : result (list Contact * bool) :=
  whenActive "DHT node is stopped" answer w.
Definition ExploreKeyspace (answer : result (list Contact)) (w : Node) : result (list Contact) :=
  whenActive "DHT node is stopped" answer w.
Definition exploreNetwork (answer : result (list Contact)) (w : Node) : result unit :=
  if mn_stopped w then Err (EMsg "DHT node is stopped") else
  contacts ← wrap_err "failed to explore keyspace: %w" answer; Ok tt.
Definition AddContact (contact : Contact) (w : Node) : result unit * Node :=
  if isActive w then (Ok tt, log (CallUpdate contact) w) else (Err (EMsg "DHT node is stopped"), w).
Definition RemoveBadPeerFromHash (hash : bytes) (contact : Contact) (w : Node) : Node :=
  if isActive w then log (CallForget hash contact) w else w.

(** Without a library of the caller's own. *)
Definition NewDHTNodeWithDefaults (now : Z) (options : list (option DHTOption)) : result Node :=
  NewDHTNode now options.
Definition Node_Watchdog (w : Node) : Watchdog := mn_watchdog w.
Definition GetRoutingTable {T} (table : T) (w : Node) : option T := if isActive w then Some table else None.
(** [idHex] is the short text of the library's ID. *)
Definition GetRoutingTableInfo (idHex : bytes) (w : Node) : bytes :=
  if negb (isActive w) then go "DHT Node stopped at " ++ dc_Address (mn_config w)
  else go "DHT Node " ++ idHex ++ go " at " ++ dc_Address (mn_config w) ++ go " - Joined: "
         ++ (if mn_joined w then go "true" else go "false").

(** The answers of the library to the hashes in order; [errors] counts the failures. *)
Fixpoint probeLoop (find : nat -> bytes -> result (list Contact * bool)) (i : nat) (hashes : list bytes)
    (results : gmap bytes (list Contact)) (errors successCount : nat) : result (gmap bytes (list Contact) * nat * nat) :=
  match hashes with
  | [] => Ok (results, errors, successCount)
  | hash :: hashes =>
      match find i hash with
      | Err _ => probeLoop find (S i) hashes results (S errors) successCount
      | Panic w => Panic w
      | Ok (contacts, true) => probeLoop find (S i) hashes (<[hash := contacts]> results) errors (S successCount)
      | Ok (_, false) => probeLoop find (S i) hashes results errors successCount
      end
  end.
Definition probeErrors (n : nat) : error :=
  EMsg (if (n =? 0)%nat then "no probe errors" else if (n =? 1)%nat then "probe failed: %v"
        else "all %d probes failed, first error: %v").
Definition ProbeHashes (find : nat -> bytes -> result (list Contact * bool)) (hashes : list bytes) (w : Node)
    : result (gmap bytes (list Contact)) :=
  if negb (isActive w) then Err (EMsg "DHT node is stopped") else
  '(results, errors, successCount) ← probeLoop find 0 hashes ∅ 0 0;
  if (0 <? length hashes)%nat && (successCount =? 0)%nat && (0 <? errors)%nat
  then Err (probeErrors errors) else Ok results.

(** *** protocol/network_crawler.go

    The context is polled before the work and before every contact. *)
Fixpoint crawlContacts (ctx : Context) (k : nat) (contacts : list Contact) (w : Node) : result unit * Node :=
  match contacts with
  | [] => (Ok tt, w)
  | contact :: contacts =>
      match ctxErr ctx k with
      | Ok _ => crawlContacts ctx (S k) contacts (AddContact contact w).2
      | Err e => (Err e, w)
      | Panic p => (Panic p, w)
      end
  end.
Definition Crawler_Run (ctx : Context) (explored : result (list Contact)) (w : Node) : result unit * Node :=
  match ctxErr ctx 0 with
  | Ok _ =>
      match ExploreKeyspace explored w with
      | Ok contacts => crawlContacts ctx 1 contacts w
      | Err e => (Err e, w)
      | Panic p => (Panic p, w)
      end
  | Err e => (Err e, w)
  | Panic p => (Panic p, w)
  end.
Definition startCrawler (ctx : Context) (explored : result (list Contact)) (w : Node) : result unit * Node :=
  if negb (dc_NetworkScanEnabled (mn_config w)) then (Ok tt, w) else Crawler_Run ctx explored w.

(** *** Starting and stopping *)

(** [started]: what the library's [Start] returns; the crawler's error is only logged. *)
Definition StartNode (started : option error) (ctx : Context) (explored : result (list Contact)) (w : Node)
    : result unit * Node :=
  if mn_stopped w then (Err (EMsg "DHT node is stopped"), w) else
  match started with
  | Some e => (Err (EWrap "failed to start DHT node: %w" e), w)
  | None => (Ok tt, (startCrawler ctx explored (startJoinGoroutine w)).2)
  end.

(** [Shutdown] up to where it gives up the lock: the node is marked as stopped, and the
    call goes on with the cancel function it has read. *)
Definition beginShutdown (w : Node) : Node :=
  if negb (isActive w) then w else
  let w := setRun (mn_joined w) true w in
  setGroup (mn_wg w) (mn_joining w) (mn_stopping w ++ [CCancel (mn_epoch w)]) w.

(** [Wait] of the node. *)
Definition beginWait (w : Node) : Node :=
  setGroup (mn_wg w) (mn_joining w) (mn_stopping w ++ [CWait false WEnter]) w.

(** A call returns from the wait group: [Shutdown] has yet to clear [joined]. *)
Definition afterWait (i : nat) (shutdown : bool) (w : Node) : Node :=
  setGroup (mn_wg w) (mn_joining w)
    (if shutdown then <[i := CClear]> (mn_stopping w) else delete i (mn_stopping w)) w.

(** The next step of the [i]-th call under way.  After the cancel function, the library and
    the watchdog the node owns are stopped; a call that has to wait for the group is parked
    behind the others; one that was woken finds the group at zero or panics. *)
Definition callStep (i : nat) (w : Node) : result unit * Node :=
  match mn_stopping w !! i with
  | None => (Ok tt, w)
  | Some (CCancel ctx) =>
      let w := setChans (mn_joinOnce w) (mn_closed w) ({[ctx]} ∪ mn_cancelled w) w in
      (Ok tt, setGroup (mn_wg w) (mn_joining w) (<[i := CStopParts]> (mn_stopping w)) w)
  | Some CStopParts =>
      let w := if mn_ownsWatchdog w then setDog (StopWatchdog (mn_watchdog w)) w else w in
      (Ok tt, setGroup (mn_wg w) (mn_joining w) (<[i := CWait true WEnter]> (mn_stopping w)) w)
  | Some (CWait shutdown WEnter) =>
      if (wg_count (mn_wg w) =? 0)%nat then (Ok tt, afterWait i shutdown w)
      else (Ok tt, setGroup (mkWaitGroup (wg_count (mn_wg w)) (S (wg_waiters (mn_wg w)))) (mn_joining w)
                     (delete i (mn_stopping w) ++ [CWait shutdown WParked]) w)
  | Some (CWait _ WParked) => (Ok tt, w)
  | Some (CWait shutdown WWoken) =>
      if (wg_count (mn_wg w) =? 0)%nat && (wg_waiters (mn_wg w) =? 0)%nat then (Ok tt, afterWait i shutdown w)
      else (Panic "sync: WaitGroup is reused before previous Wait has returned", w)
  | Some CClear =>
      (Ok tt, setGroup (mn_wg w) (mn_joining w) (delete i (mn_stopping w)) (setRun false (mn_stopped w) w))
  end.

(** A new context, join channel, once and wait group. *)
Definition Restart (started : option error) (w : Node) : result unit * Node :=
  if negb (mn_stopped w) then (Err (EMsg "DHT node must be stopped before restarting"), w) else
  let w := mkNode (mn_config w) (mn_watchdog w) (mn_ownsWatchdog w) false false (S (mn_epoch w)) false (mn_closed w)
             (mn_cancelled w) (mkWaitGroup 0 0) (mn_joining w) (mn_stopping w) (mn_waiters w) (mn_calls w) in
  match started with
  | Some e => (Err (EWrap "failed to restart DHT node: %w" e), w)
  | None => (Ok tt, startJoinGoroutine w)
  end.

(** [joinOnce.Do(close(joinDone))] *)
Definition closeJoin (w : Node) : result unit * Node :=
  if mn_joinOnce w then (Ok tt, w) else
  if bool_decide (mn_epoch w ∈ mn_closed w) then (Panic "close of closed channel", w) else
  (Ok tt, setChans true ({[mn_epoch w]} ∪ mn_closed w) (mn_cancelled w) w).

(** The runtime wakes the calls that were parked first. *)
Fixpoint wake (n : nat) (calls : list callPc) : list callPc :=
  match calls with
  | [] => []
  | c :: calls =>
      match n, c with
      | S n, CWait shutdown WParked => CWait shutdown WWoken :: wake n calls
      | _, _ => c :: wake n calls
      end
  end.

(** [wg.Done()] of the [i]-th goroutine: at zero the registered callers are woken. *)
Definition groupDone (i : nat) (w : Node) : result unit * Node :=
  match wg_count (mn_wg w) with
  | O => (Panic "sync: negative WaitGroup counter", w)
  | S O => (Ok tt, setGroup (mkWaitGroup 0 0) (delete i (mn_joining w)) (wake (wg_waiters (mn_wg w)) (mn_stopping w)) w)
  | S n => (Ok tt, setGroup (mkWaitGroup n (wg_waiters (mn_wg w))) (delete i (mn_joining w)) (mn_stopping w) w)
  end.

(** The next step of the [i]-th goroutine that waits for the join: the context it looks at
    is the one the node has by then; the library's wait returns at any time; the channel is
    closed if it is still the node's; and the group is told, in the deferred call. *)
Definition joinerStep (i : nat) (w : Node) : result unit * Node :=
  let goto channel pc w := setGroup (mn_wg w) (<[i := (channel, pc)]> (mn_joining w)) (mn_stopping w) w in
  match mn_joining w !! i with
  | None => (Ok tt, w)
  | Some (channel, JCheck) =>
      (Ok tt, goto channel (if bool_decide (mn_epoch w ∈ mn_cancelled w) then JDone else JLibrary) w)
  | Some (channel, JLibrary) =>
      let w := goto channel JDone w in
      if negb (mn_stopped w) && (channel =? mn_epoch w)%nat then closeJoin (setRun true (mn_stopped w) w)
      else (Ok tt, w)
  | Some (_, JDone) => groupDone i w
  end.

(** [WaitUntilJoined]: the channel it waits for, if it has to, read under the lock; then the
    context, read without it; a waiter is let go when its channel is closed or its context
    is cancelled. *)
Definition waitFor (w : Node) : option nat :=
  if negb (isActive w) || mn_joined w then None else Some (mn_epoch w).
Definition beginWaitJoined (w : Node) : Node :=
  match waitFor w with Some channel => setWaiters (mn_waiters w ++ [(channel, None)]) w | None => w end.
Definition readContext (i : nat) (w : Node) : Node :=
  match mn_waiters w !! i with
  | Some (channel, None) => setWaiters (<[i := (channel, Some (mn_epoch w))]> (mn_waiters w)) w
  | _ => w
  end.
Definition letGo (waiter : nat * option nat) (w : Node) : bool :=
  match waiter with
  | (channel, Some ctx) => bool_decide (channel ∈ mn_closed w) || bool_decide (ctx ∈ mn_cancelled w)
  | (_, None) => false
  end.
Definition waiterReturns (i : nat) (w : Node) : Node :=
  match mn_waiters w !! i with
  | Some waiter => if letGo waiter w then setWaiters (delete i (mn_waiters w)) w else w
  | None => w
  end.

(** ** Histories of a node *)

Inductive nstep :=
  | NStart (started : option error) (ctx : Context) (explored : result (list Contact))
  | NShutdown
  | NWait
  | NCall (i : nat)
  | NRestart (started : option error)
  | NJoiner (i : nat)
  | NWaitJoined
  | NReadContext (i : nat)
  | NWaiter (i : nat)
  | NAdd (hash : bytes)
  | NRemove (hash : bytes)
  | NContact (contact : Contact)
  | NForget (hash : bytes) (contact : Contact).

Definition runNode (st : nstep) (w : Node) : result unit * Node :=
  match st with
  | NStart started ctx explored => StartNode started ctx explored w
  | NShutdown => (Ok tt, beginShutdown w)
  | NWait => (Ok tt, beginWait w)
  | NCall i => callStep i w
  | NRestart started => Restart started w
  | NJoiner i => joinerStep i w
  | NWaitJoined => (Ok tt, beginWaitJoined w)
  | NReadContext i => (Ok tt, readContext i w)
  | NWaiter i => (Ok tt, waiterReturns i w)
  | NAdd hash => (Ok tt, Node_Add hash w)
  | NRemove hash => (Ok tt, Node_Remove hash w)
  | NContact contact => AddContact contact w
  | NForget hash contact => (Ok tt, RemoveBadPeerFromHash hash contact w)
  end.
Definition runNodes (w : Node) (steps : list nstep) : Node := foldl (fun w st => (runNode st w).2) w steps.

(** [Shutdown] from its call to its return when nobody else uses the node: the goroutines it
    waits for run to their end before it does. *)
Definition Shutdown (w : Node) : Node :=
  if negb (isActive w) then w else
  let call := NCall (length (mn_stopping w)) in
  runNodes w ([NShutdown; call; call] ++ concat (replicate (length (mn_joining w)) (replicate 3 (NJoiner 0))) ++ [call; call]).

(** ** A stopped node *)

(** A stopped node leaves the library alone and says so: lookups, explorations, probes and
    new contacts are errors, additions and removals do nothing, and there is no ID and no
    routing table to see. *)
Theorem stopped_node_refuses w (T : Type) (table : T) id hash contact answer found explored find hashes :
  mn_stopped w = true ->
  Node_Get answer w = Err (EMsg "DHT peer is stopped")
  /\ FindContacts found w = Err (EMsg "DHT node is stopped")
  /\ ExploreKeyspace explored w = Err (EMsg "DHT node is stopped")
  /\ ProbeHashes find hashes w = Err (EMsg "DHT node is stopped")
  /\ AddContact contact w = (Err (EMsg "DHT node is stopped"), w)
  /\ Node_Add hash w = w /\ Node_Remove hash w = w /\ RemoveBadPeerFromHash hash contact w = w
  /\ Node_ID id w = replicate 48 x00 /\ GetRoutingTable table w = None
  /\ GetRoutingTableInfo id w = go "DHT Node stopped at " ++ Node_Address w.
Proof.
  intros Hs. assert (Ha : isActive w = false) by (unfold isActive; by rewrite Hs).
  unfold Node_Get, FindContacts, ExploreKeyspace, ProbeHashes, AddContact, Node_Add, Node_Remove,
    RemoveBadPeerFromHash, Node_ID, GetRoutingTable, GetRoutingTableInfo, whenActive.
  by rewrite Ha.
Qed.

(** ** Configuration *)

(** The options of the package. *)
Inductive packageOption : DHTOption -> Prop :=
  | PO_addr a : packageOption (WithDHTAddress a)
  | PO_seeds ns : packageOption (WithDHTSeedNodes ns)
  | PO_id i : packageOption (WithDHTNodeID i)
  | PO_peer p : packageOption (WithDHTPeerProtocolPort p)
  | PO_rpc p : packageOption (WithDHTRPCPort p)
  | PO_time t : packageOption (WithDHTReannounceTime t)
  | PO_rate r : packageOption (WithDHTAnnounceRate r)
  | PO_dog wd : packageOption (WithDHTWatchdog wd)
  | PO_scan b : packageOption (WithDHTNetworkScan b).

(** What the checks of the options leave: with an address, a valid configuration. *)
Definition soundConfig (c : DHTConfig) : Prop :=
  1 <= dc_PeerProtocolPort c <= 65535 /\ 0 <= dc_RPCPort c <= 65535 /\ 0 <= dc_ReannounceTime c /\ 0 <= dc_AnnounceRate c
  /\ (dc_Address c <> [] -> validateDHTConfig c = Ok tt).

Lemma checked_sound c c' : checked c = Ok c' -> soundConfig c'.
Proof.
  unfold checked, validateDHTConfigIfNeeded, soundConfig, IsValidNonZeroPortRange, IsValidPortRange.
  destruct (_ && _) eqn:E1; [|done]. simpl. apply andb_true_iff in E1 as [E1%Z.leb_le E2%Z.leb_le].
  destruct ((0 <=? dc_RPCPort c) && (dc_RPCPort c <=? 65535)) eqn:E3; [|done].
  apply andb_true_iff in E3 as [E3%Z.leb_le E4%Z.leb_le]. simpl.
  destruct (Z.ltb_spec (dc_ReannounceTime c) 0) as [|E5]; [done|]. destruct (Z.ltb_spec (dc_AnnounceRate c) 0) as [|E6]; [done|].
  rewrite (proj2 (Z.eqb_neq (dc_PeerProtocolPort c) 0)) by lia. simpl. rewrite andb_true_r.
  case_bool_decide as Ea; simpl.
  - intros [= <-]. split_and!; [lia..|]. done.
  - destruct (validateDHTConfig c) as [[]|e|p] eqn:Ev; [|done..]. intros [= <-]. split_and!; [lia..|done].
Qed.

Lemma option_sound f c c' : packageOption f -> soundConfig c -> f c = Ok c' -> soundConfig c'.
Proof. intros Hf Hc. destruct Hf; try apply checked_sound; intros [= <-]; exact Hc. Qed.

Lemma foldl_failed (r : result DHTConfig) options :
  is_ok r = false ->
  foldl (fun r (option : option DHTOption) => c ← r; match option with Some f => f c | None => Ok c end) r options = r.
Proof. intros Hr. induction options as [|o options IH]; [done|]. simpl. by destruct r. Qed.

Lemma applyDHTOptions_cons o options c :
  applyDHTOptions (o :: options) c = (match o with Some f => f c | None => Ok c end ≫= applyDHTOptions options).
Proof.
  unfold applyDHTOptions. simpl. destruct o as [f|]; [|done]. destruct (f c); [done|by apply foldl_failed..].
Qed.

(** The options of the package fail fast: a node that is created has ports in their
    ranges and, with an address, a configuration that validation accepts. *)
Theorem node_config_sound now options w
    (Ho : Forall (fun o => match o with Some f => packageOption f | None => True end) options)
    (Hw : NewDHTNode now options = Ok w) :
  soundConfig (mn_config w).
Proof.
  assert (H0 : forall c c', soundConfig c -> applyDHTOptions options c = Ok c' -> soundConfig c').
  { clear Hw. induction options as [|o options IH]; intros c c' Hc; [by intros [= <-]|].
    apply Forall_cons in Ho as [Hf Ho]. rewrite applyDHTOptions_cons. destruct o as [f|]; [|by apply IH].
    destruct (f c) as [c1|e|p] eqn:E; [|done..]. apply (IH Ho c1). by eapply option_sound. }
  unfold NewDHTNode in Hw. destruct NewDHTConfig as [c|e|p] eqn:Ec; [|done..]. cbn [mbind result_bind] in Hw.
  destruct (applyDHTOptions options c) as [c'|e|p] eqn:E; [|done..]. cbn [mbind result_bind] in Hw.
  assert (Hc : soundConfig c).
  { injection Ec as <-. unfold soundConfig. cbn. unfold DefaultDistributedPeerPortLegacy, Minute, Second.
    split_and!; [lia..|done]. }
  specialize (H0 c c' Hc E). destruct (dc_Watchdog c'); by injection Hw as <-.
Qed.

(** A node with the default configuration. *)
Definition plainNode : Node :=
  mkNode (mkDHTConfig DefaultDHTAddress DefaultSeedNodes [] DefaultDistributedPeerPortLegacy 0 (50 * Minute) 10 None false)
    (New 0 []) true false false 0 false ∅ ∅ (mkWaitGroup 0 0) [] [] [] [].
