(* ===== verification/DhtNodeSpec.v ===== *)
(** * The lifecycle of a DHT node

    What holds over the histories of the node of DhtNode.v: starts, restarts, shutdowns and
    waits at the same time, with the goroutines and the calls under way taking their steps
    in any order.  One invariant holds over all histories; a second one, about the wait
    group, over those in which a restart waits for the calls that are under way; and the
    wait group panics in some of the others. *)
From stdpp Require Import base tactics list numbers strings gmap.
From Stdlib Require Import ZArith Lia Init.Byte.
From S2P Require Import Prelude GoStd GoNet Store Discovery Reflector Watchdog DhtNode.
Local Open Scope nat_scope.

(** ** Lists of calls *)




Definition isWoken (c : callPc) : bool := match c with CWait _ WWoken => true | _ => false end.




Lemma wake_other f n l :
  (forall b, f (CWait b WParked) = f (CWait b WWoken)) -> existsb f (wake n l) = existsb f l.
Proof.
  intros Hf. revert n. induction l as [|c l IH]; intros n; [done|]. simpl.
  destruct n as [|n]; [simpl; by rewrite IH|]. destruct c as [| |b []|]; simpl; by rewrite IH, ?Hf.
Qed.



(** ** Every history *)























(** ** Orderly histories *)

(** A restart waits for the calls of [Shutdown] and [Wait] under way to return, and a start
    does not come between the end of the goroutines and the return of a [Wait]. *)
Definition orderlyStep (st : nstep) (w : Node) : bool :=
  match st with
  | NRestart _ => negb (mn_stopped w) || bool_decide (mn_stopping w = [])
  | NStart _ _ _ => mn_stopped w || negb (existsb isWoken (mn_stopping w))
  | _ => true
  end.
Fixpoint orderly (w : Node) (steps : list nstep) : bool :=
  match steps with
  | [] => true
  | st :: steps => orderlyStep st w && orderly (runNode st w).2 steps
  end.














(** ** Theorems *)


(** A restart that does not wait for a shutdown under way makes the process panic: it
    replaces the wait group the goroutine of the first start has yet to be done with, and
    with two goroutines the new group counts one. *)
Theorem early_restart_panics now w :
  NewDHTNode now [] = Ok w ->
  let w' := runNodes w ([NStart None Background (Ok []); NShutdown; NCall 0; NRestart None] ++ replicate 5 (NJoiner 0)) in
  mn_joining w' <> [] /\ (runNode (NJoiner 0) w').1 = Panic "sync: negative WaitGroup counter".
Proof. intros [= <-]. vm_compute. done. Qed.

(** A shutdown that is still under way when the node is restarted clears [joined] later: a
    node that runs and has joined says that it has not. *)
Theorem late_shutdown_forgets_join now w :
  NewDHTNode now [] = Ok w ->
  let w' := runNodes w [NStart None Background (Ok []); NShutdown; NCall 0; NCall 0; NJoiner 0; NJoiner 0; NCall 0;
                        NRestart None; NJoiner 0; NJoiner 0; NCall 0] in
  isActive w' = true /\ mn_epoch w' ∈ mn_closed w' /\ IsJoined w' = false.
Proof. intros [= <-]. vm_compute. done. Qed.

(** A caller of [WaitUntilJoined] reads the context without the lock: if the node is shut
    down and restarted between its reading of the channel and of the context, in an orderly
    way, it waits for a channel that nobody closes and goes on waiting when the node has
    joined again. *)
Theorem stale_waiter_misses_join now w :
  NewDHTNode now [] = Ok w ->
  let steps := [NStart None Background (Ok []); NWaitJoined; NShutdown; NCall 0; NCall 0; NJoiner 0; NJoiner 0; NCall 0; NCall 0;
                NRestart None; NReadContext 0; NJoiner 0; NJoiner 0; NWaiter 0] in
  let w' := runNodes w steps in
  orderly w steps = true /\ IsJoined w' = true /\ mn_waiters w' = [(0, Some 1)] /\ letGo (0, Some 1) w' = false.
Proof. intros [= <-]. vm_compute. done. Qed.

(** ** A restart *)

Lemma runNodes_app w steps steps' : runNodes w (steps ++ steps') = runNodes (runNodes w steps) steps'.
Proof. apply foldl_app. Qed.

(** The goroutines and the calls under way leave the node stopped and its watchdog as it is,
    unless they stop it. *)
Definition background (st : nstep) : bool := match st with NCall _ | NJoiner _ => true | _ => false end.

Lemma background_same st w :
  background st = true ->
  mn_stopped (runNode st w).2 = mn_stopped w /\ mn_ownsWatchdog (runNode st w).2 = mn_ownsWatchdog w
  /\ (mn_watchdog (runNode st w).2 = mn_watchdog w \/ mn_watchdog (runNode st w).2 = StopWatchdog (mn_watchdog w)).
Proof.
  destruct st; try done; intros _; simpl.
  - unfold callStep, afterWait. repeat case_match; simpl; auto.
  - unfold joinerStep, groupDone, closeJoin. repeat case_match; simpl; auto.
Qed.

Lemma backgrounds_same steps w wd :
  forallb background steps = true -> mn_watchdog w = StopWatchdog wd ->
  mn_stopped (runNodes w steps) = mn_stopped w /\ mn_watchdog (runNodes w steps) = StopWatchdog wd.
Proof.
  revert w. induction steps as [|st steps IH]; intros w Hb Hw; simpl in *; [done|].
  apply andb_true_iff in Hb as [Hb Hbs]. destruct (background_same st w Hb) as (Es & _ & Hd).
  rewrite <- Es. apply IH; [done|]. destruct Hd as [->| ->]; by rewrite Hw.
Qed.

Lemma backgrounds_stopped steps w : forallb background steps = true -> mn_stopped (runNodes w steps) = mn_stopped w.
Proof.
  revert w. induction steps as [|st steps IH]; intros w Hb; simpl in *; [done|].
  apply andb_true_iff in Hb as [Hb Hbs]. destruct (background_same st w Hb) as (Es & _). by rewrite IH, Es.
Qed.

Lemma ending_background (n i : nat) :
  forallb background (concat (replicate n (replicate 3 (NJoiner 0))) ++ [NCall i; NCall i]) = true.
Proof. induction n as [|n IH]; [done|]. simpl. exact IH. Qed.

Lemma shutdown_stopped w : mn_stopped (Shutdown w) = true.
Proof.
  unfold Shutdown, isActive. destruct (mn_stopped w) eqn:Es; cbn [negb]; [done|]. rewrite runNodes_app.
  rewrite backgrounds_stopped by apply ending_background. set (call := NCall _).
  change (runNodes w [NShutdown; call; call]) with (runNodes (beginShutdown w) [call; call]).
  rewrite backgrounds_stopped by done. unfold beginShutdown, isActive. by rewrite Es.
Qed.

Lemma shutdown_stops_watchdog w :
  mn_stopped w = false -> mn_ownsWatchdog w = true -> mn_watchdog (Shutdown w) = StopWatchdog (mn_watchdog w).
Proof.
  intros Es Ho. unfold Shutdown, isActive. rewrite Es. cbn [negb]. rewrite runNodes_app.
  apply backgrounds_same; [apply ending_background|]. unfold runNodes. simpl. unfold beginShutdown, isActive. rewrite Es. simpl.
  unfold callStep at 2. simpl. rewrite list_lookup_middle by done. simpl.
  unfold callStep. simpl. rewrite list_lookup_insert_eq by (rewrite length_app; simpl; lia). simpl. by rewrite Ho.
Qed.

Section Restarting.
Context `{D : DiscoveryLib}.

(** A node that was shut down and restarted validates no contact any more: the
    shutdown stops the watchdog the node owns, nothing starts it again, and a validation
    with the watchdog's cancelled context fails whatever the network answers, which
    blacklists the contact. *)
Theorem restart_keeps_dead_watchdog w dial t1 t2 t3 hash contact
    (Hs : mn_stopped w = false) (Ho : mn_ownsWatchdog w = true)
    (Hc : IsCached t1 (c_ID contact) (mn_watchdog w) = false)
    (Hb : IsBlacklisted t2 (c_ID contact) (mn_watchdog w) = false) :
  exists w' wd',
    Restart None (Shutdown w) = (Ok tt, w') /\ mn_stopped w' = false
    /\ ValidateContactForHash dial t1 t2 t3 hash (Some contact) (mn_watchdog w') = (None, false, Some contact, wd')
    /\ wd_blacklist wd' !! c_ID contact = Some t3.
Proof.
  unfold Restart. rewrite shutdown_stopped. eexists _, _. split; [reflexivity|]. split; [done|]. cbn [startJoinGoroutine setGroup mn_watchdog].
  rewrite (shutdown_stops_watchdog w Hs Ho). unfold ValidateContactForHash, ValidateAndUpdateContact.
  change (IsCached t1 (c_ID contact) (StopWatchdog (mn_watchdog w))) with (IsCached t1 (c_ID contact) (mn_watchdog w)).
  change (IsBlacklisted t2 (c_ID contact) (StopWatchdog (mn_watchdog w))) with (IsBlacklisted t2 (c_ID contact) (mn_watchdog w)).
  rewrite Hc, Hb. change (wd_stopped (StopWatchdog (mn_watchdog w))) with true.
  assert (Hp : forall wd, testContactPorts dial wd true contact = None).
  { intros wd. unfold testContactPorts. unfold testPort at 1. rewrite andb_false_r.
    generalize (if (0 <? c_PeerPort contact)%Z then 1 else 0). induction (wc_TestPorts (wd_config wd)) as [|p ps IH]; intros n; [done|].
    simpl. apply IH. }
  rewrite Hp. split; [reflexivity|]. simpl. by rewrite lookup_insert_eq.
Qed.
End Restarting.

(** ** Concrete instances *)



#[local] Instance plainLib : DiscoveryLib := {|
  contactEquals _ _ _ := true; ParseIP _ := None; LookupIPAddr _ := Ok []; services _ := Err (EMsg "unknown port");
  ipString ip := ip; contactAddr _ := []
|}.

Lemma restart_keeps_dead_watchdog_witness :
  exists w' wd',
    Restart None (Shutdown plainNode) = (Ok tt, w') /\ mn_stopped w' = false
    /\ ValidateContactForHash (fun _ _ => true) 1 2 3 [] (Some someContact) (mn_watchdog w')
       = (None, false, Some someContact, wd')
    /\ wd_blacklist wd' !! c_ID someContact = Some 3%Z.
Proof. apply (restart_keeps_dead_watchdog plainNode (fun _ _ => true) 1 2 3 [] someContact); vm_compute; reflexivity. Defined.
