(* ===== verification/Manager.v ===== *)
(** * acquirer.go, protocol/dht_announcer.go, dht_notifier.go, logging_notifier.go and the
    blob manager of server/server.go

    Blobs are fetched through transfers and kept in a store, stored and removed by the
    server's users, and announced to the DHT: at the start by listing the store, later by
    notifications. *)
From stdpp Require Import base tactics list numbers strings gmap.
From Stdlib Require Import ZArith Lia Init.Byte.
From S2P Require Import Prelude GoStd Aes Blob Multihash Json SdBlob Encoder Errors Store GoNet Discovery Transfer PeerServer.
From S2P Require Import Reflector StreamReader StreamAcquirer DhtNode.
Local Open Scope Z_scope.

(** ** acquirer.go *)

Section Acquirer.
Context {St : Type} {B : BlobStore St}.

(** What a transfer method says of a hash. *)
Definition TransferMethod := bytes -> result bytes.
Record DefaultBlobAcquirer := mkBlobAcquirer { ba_transfers : list (option TransferMethod); ba_store : option St }.

Definition NewBlobAcquirer (transfers : list (option TransferMethod)) (store : option St) : result DefaultBlobAcquirer :=
  match store with
  | None => Err (EMsg "store cannot be nil")
  | Some _ => Ok (mkBlobAcquirer transfers store)
  end.

(** Nil methods are skipped; the first that has the blob ends the search. *)
Fixpoint tryTransfers (ctx : Context) (hash : bytes) (transfers : list (option TransferMethod)) (s : St)
    : result bytes * St :=
  match transfers with
  | [] => (Err (ESent ErrAcquisitionFailed), s)
  | None :: transfers => tryTransfers ctx hash transfers s
  | Some transferMethod :: transfers =>
      match transferMethod hash with
      | Ok data =>
          match Put ctx hash data s with
          | (Ok _, s) => (Ok data, s)
          | (Err e, s) => (Err e, s)
          | (Panic w, s) => (Panic w, s)
          end
      | Err _ => tryTransfers ctx hash transfers s
      | Panic w => (Panic w, s)
      end
  end.

Definition acquireFrom (ctx : Context) (hash : bytes) (transfers : list (option TransferMethod)) (s : St)
    : result bytes * St :=
  match Has ctx hash s with
  | Err e => (Err e, s)
  | Panic w => (Panic w, s)
  | Ok true => (Get ctx hash s, s)
  | Ok false => tryTransfers ctx hash transfers s
  end.
Definition Acquire (ctx : Context) (hash : bytes) (ba : DefaultBlobAcquirer) : result bytes * DefaultBlobAcquirer :=
  match ba_store ba with
  | None => (Err (ESent ErrAcquisitionFailed), ba)
  | Some s =>
      let '(r, s) := acquireFrom ctx hash (ba_transfers ba) s in (r, mkBlobAcquirer (ba_transfers ba) (Some s))
  end.
End Acquirer.
Arguments DefaultBlobAcquirer : clear implicits.

(** ** The DHT announcer and the notifiers *)

Section Manager.
Context {L : CidLib} {OJ : OrderedJson} {St : Type} {B : BlobStore St}.
(** [bits.FromShortHex] of the DHT library. *)
Context (FromShortHex : bytes -> result bytes).

Definition AnnounceBlob (hash : bytes) (node : Node) : result unit * Node :=
  if bool_decide (hash = []) then (Err (ESent ErrInvalidHash), node) else
  match ParseHashFromString FromShortHex hash with
  | Ok hashBitmap => (Ok tt, Node_Add hashBitmap node)
  | Err e => (Err e, node)
  | Panic w => (Panic w, node)
  end.

Definition RemoveAnnounced (hash : bytes) (node : Node) : result unit * Node :=
  if bool_decide (hash = []) then (Err (ESent ErrInvalidHash), node) else
  match ParseHashFromString FromShortHex hash with
  | Ok hashBitmap => (Ok tt, Node_Remove hashBitmap node)
  | Err e => (Err e, node)
  | Panic w => (Panic w, node)
  end.

(** The common part of [handleBlobAdded] and [handleBlobRemoved]. *)
Definition handleBlob (failed : string) (tell : bytes -> Node -> result unit * Node) (multihash : bytes) (node : Node)
    : result unit * Node :=
  if bool_decide (multihash = []) then (Ok tt, node) else
  match FromMultihash multihash with
  | Err e => (Err (EWrap "failed to convert multihash to LBRY hash: %w" e), node)
  | Panic w => (Panic w, node)
  | Ok lbryHash =>
      if bool_decide (lbryHash = []) then (Err (EMsg "empty LBRY hash after conversion from multihash"), node) else
      let '(r, node) := tell lbryHash node in (wrap_err failed r, node)
  end.
Definition handleBlobAdded : bytes -> Node -> result unit * Node :=
  handleBlob "failed to announce blob to DHT: %w" AnnounceBlob.
Definition handleBlobRemoved : bytes -> Node -> result unit * Node :=
  handleBlob "failed to remove blob from DHT: %w" RemoveAnnounced.

(** [DHTNotifier.Notify] *)
Definition dhtNotify (n : Notification) (node : Node) : result unit * Node :=
  if bool_decide (n.1 = NOTIFY_BLOB_ADDED) then handleBlobAdded n.2 node
  else if bool_decide (n.1 = NOTIFY_BLOB_REMOVED) then handleBlobRemoved n.2 node
  else (Ok tt, node).

(** The notifiers of a server: the logging one only logs. *)
Inductive Notifier := LoggingNotifier | DHTNotifier.

(** [GroupNotifier.Notify] on the state of the node: every notifier is told, and the
    error, which [NotifyBlob] logs, is dropped. *)
Definition notifyGroup (notifiers : list Notifier) (n : Notification) (node : Node) : Node :=
  foldl (fun node notifier =>
           match notifier with LoggingNotifier => node | DHTNotifier => (dhtNotify n node).2 end) node notifiers.

(** ** The blob manager *)

(** An acquirer, as [World] has it. *)
Definition BlobAcquirer := nat -> bytes -> result bytes.

(** [sm_notifiers] is nil before the first start. *)
Record Manager := mkManager {
  sm_storage : St;
  sm_node : Node;
  sm_notifiers : option (list Notifier);
  sm_started : bool;
  sm_acquirer : option BlobAcquirer;
  sm_acquirerFactory : option (Node -> result BlobAcquirer)
}.

Definition setStorage (s : St) (m : Manager) : Manager :=
  mkManager s (sm_node m) (sm_notifiers m) (sm_started m) (sm_acquirer m) (sm_acquirerFactory m).
Definition setNode (node : Node) (m : Manager) : Manager :=
  mkManager (sm_storage m) node (sm_notifiers m) (sm_started m) (sm_acquirer m) (sm_acquirerFactory m).
Definition setAcquirer (a : BlobAcquirer) (m : Manager) : Manager :=
  mkManager (sm_storage m) (sm_node m) (sm_notifiers m) (sm_started m) (Some a) (sm_acquirerFactory m).

Definition validateHash (hash : bytes) : result unit :=
  if bool_decide (hash = []) then Err (EMsg "hash cannot be empty") else Ok tt.
Definition validateBlobInput (hash data : bytes) : result unit :=
  validateHash hash ;;
  if bool_decide (data = []) then Err (EMsg "blob data cannot be empty") else Ok tt.

(** What [NotifyBlob] does to the node. *)
Definition notify (kind hash : bytes) (m : Manager) : Manager :=
  setNode (foldl (fun node n => notifyGroup (default [] (sm_notifiers m)) n node) (sm_node m)
             (NotifyBlob (bool_decide (is_Some (sm_notifiers m))) kind hash)) m.

(** The common part of [AddBlob], [AddSDBlob] and [RemoveBlob]: change the store, then
    notify. *)
Definition changeStore (failed : string) (op : St -> result unit * St) (kind hash : bytes) (m : Manager)
    : result unit * Manager :=
  match op (sm_storage m) with
  | (Ok _, s) => (Ok tt, notify kind hash (setStorage s m))
  | (Err e, s) => (Err (EWrap failed e), setStorage s m)
  | (Panic w, s) => (Panic w, setStorage s m)
  end.

Definition AddBlob (ctx : Context) (hash data : bytes) (m : Manager) : result unit * Manager :=
  match validateBlobInput hash data with
  | Ok _ => changeStore "failed to store blob %s: %w" (Put ctx hash data) NOTIFY_BLOB_ADDED hash m
  | r => (r, m)
  end.
Definition AddSDBlob (ctx : Context) (hash data : bytes) (m : Manager) : result unit * Manager :=
  match validateBlobInput hash data with
  | Ok _ => changeStore "failed to store SD blob %s: %w" (PutSD ctx hash data) NOTIFY_BLOB_ADDED hash m
  | r => (r, m)
  end.
Definition RemoveBlob (ctx : Context) (hash : bytes) (m : Manager) : result unit * Manager :=
  match validateHash hash with
  | Ok _ => changeStore "failed to delete blob %s: %w" (Delete ctx hash) NOTIFY_BLOB_REMOVED hash m
  | r => (r, m)
  end.

Definition Manager_GetBlob (ctx : Context) (hash : bytes) (m : Manager) : result bytes :=
  validateHash hash ;; Get ctx hash (sm_storage m).
Definition Manager_GetSDBlob (ctx : Context) (hash : bytes) (m : Manager) : result bytes :=
  validateHash hash ;; Get ctx hash (sm_storage m).

(** *** Acquisition *)

(** The factory runs without the lock: [meanwhile] is the acquirer another goroutine has
    set by then. *)
Definition ensureAcquirer (meanwhile : option BlobAcquirer) (m : Manager) : result unit * Manager :=
  match sm_acquirer m with
  | Some _ => (Ok tt, m)
  | None =>
      match sm_acquirerFactory m with
      | None => (Err (EMsg "no acquirer configured"), m)
      | Some factory =>
          match meanwhile, factory (sm_node m) with
          | _, Panic w => (Panic w, m)
          | Some a, _ => (Ok tt, setAcquirer a m)
          | None, Err e => (Err (EWrap "failed to create acquirer: %w" e), m)
          | None, Ok a => (Ok tt, setAcquirer a m)
          end
      end
  end.

Definition requireStarted (m : Manager) : result unit :=
  if sm_started m then Ok tt else Err (EMsg "server must be started before calling acquisition methods").

(** The acquirer, after the checks. *)
Definition readyAcquirer (meanwhile : option BlobAcquirer) (hash : bytes) (m : Manager) : result BlobAcquirer * Manager :=
  match validateHash hash ;; requireStarted m with
  | Err e => (Err e, m)
  | Panic w => (Panic w, m)
  | Ok _ =>
      match ensureAcquirer meanwhile m with
      | (Err e, m) => (Err e, m)
      | (Panic w, m) => (Panic w, m)
      | (Ok _, m) =>
          match sm_acquirer m with
          | Some a => (Ok a, m)
          | None => (Panic "invalid memory address or nil pointer dereference", m)
          end
      end
  end.

Definition AcquireBlob (meanwhile : option BlobAcquirer) (t : nat) (hash : bytes) (m : Manager) : result bytes * Manager :=
  let '(r, m) := readyAcquirer meanwhile hash m in (r ≫= fun a => a t hash, m).

Record AcquireSDConfig := mkAcquireSD {
  as_Recursive : bool;
  as_RetryOptions : option RetryOptions;
  as_VerificationEnabled : bool
}.
Definition AcquireSDOption := AcquireSDConfig -> AcquireSDConfig.
Definition WithSDRecursive (recursive : bool) : AcquireSDOption := fun c =>
  mkAcquireSD recursive (as_RetryOptions c) (as_VerificationEnabled c).
Definition WithSDRetry (retryOptions : option RetryOptions) : AcquireSDOption := fun c =>
  mkAcquireSD (as_Recursive c) retryOptions (as_VerificationEnabled c).
Definition WithSDVerification (enabled : bool) : AcquireSDOption := fun c =>
  mkAcquireSD (as_Recursive c) (as_RetryOptions c) enabled.

Definition sdConfig (opts : list AcquireSDOption) : AcquireSDConfig :=
  foldl (fun c opt => opt c) (mkAcquireSD true (Some DefaultRetryOptions) true) opts.
(** The options for the stream acquirer; nil retry options are not passed on. *)
Definition sdAcquireOptions (config : AcquireSDConfig) : list AcquireOption :=
  [WithAcquireRecursive (as_Recursive config)]
  ++ match as_RetryOptions config with Some r => [WithAcquireRetry (Some r)] | None => [] end
  ++ [WithAcquireVerification (as_VerificationEnabled config)].

(** [world]: the store, the context and the clock during the call. *)
Definition withAcquirer (a : BlobAcquirer) (world : World) : World :=
  mkWorld (wo_store world) (wo_Has world) (wo_Get world) a (wo_Done world) (wo_Now world).
Definition AcquireSDBlob (meanwhile : option BlobAcquirer) (world : World) (orderV orderP : list Z) (hash : bytes)
    (opts : list AcquireSDOption) (calls : nat) (m : Manager) : result (StreamResult * list (bytes * bytes)) * Manager :=
  let '(r, m) := readyAcquirer meanwhile hash m in
  (a ← r;
   let '(r, s) := GetStreamResult (withAcquirer a world) orderV orderP hash (sdAcquireOptions (sdConfig opts)) (readerAt calls) in
   res ← r; Ok (res, rd_puts s), m).

(** *** Announcing the store *)

(** The hashes the loop submits, page by page; an error other than the end of the list
    ends it early. *)
Fixpoint announceLoop (fuel : nat) (ctx : Context) (offset batchSize : Z) (s : St) : result (list bytes) :=
  match fuel with
  | O => Panic "out of fuel"
  | S fuel =>
      match List_ ctx offset batchSize s with
      | Panic w => Panic w
      | Err _ => Ok []
      | Ok [] => Ok []
      | Ok blobHashes => rest ← announceLoop fuel ctx (offset +i batchSize) batchSize s; Ok (blobHashes ++ rest)
      end
  end.

(** The worker pool runs every submitted task, in an order of its own. *)
Definition announceAll (hashes : list bytes) (node : Node) : Node :=
  foldl (fun node hash => (AnnounceBlob hash node).2) node hashes.
Definition announceBlobsToDHT (fuel : nat) (pool : list bytes -> list bytes) (ctx : Context) (batchSize : Z) (m : Manager)
    : result unit * Manager :=
  match announceLoop fuel ctx 0 batchSize (sm_storage m) with
  | Ok hashes => (Ok tt, setNode (announceAll (pool hashes) (sm_node m)) m)
  | Err e => (Err e, m)
  | Panic w => (Panic w, m)
  end.
End Manager.
Arguments Manager : clear implicits.
