(* ===== verification/ManagerSpec.v ===== *)
(** * The blob manager: what is acquired, and what is announced

    Acquisition through transfers against a store that obeys the laws; the DHT announces
    what the store holds; descriptors acquired through a server are verified. *)
From stdpp Require Import base tactics list numbers strings gmap.
From Stdlib Require Import ZArith Lia Init.Byte.
From S2P Require Import Prelude GoStd Sha2 Aes Blob Multihash Json SdBlob SdBlobSpec Encoder Errors Store Memory GoNet.
From S2P Require Import Discovery Transfer PeerServer Reflector PeerSpec PeerStream StreamReader StreamReaderSpec StreamAcquirer.
From S2P Require Import StreamAcquirerSpec Watchdog DhtNode Manager.
Local Open Scope Z_scope.

(** ** Acquisition *)

Section Acquisition.
Context {St : Type} {B : BlobStore St} {BL : BlobStoreLaws St}.

(** The first transfer that has the blob. *)
Fixpoint firstTransfer (hash : bytes) (transfers : list (option TransferMethod)) : option bytes :=
  match transfers with
  | [] => None
  | Some t :: transfers => match t hash with Ok d => Some d | _ => firstTransfer hash transfers end
  | None :: transfers => firstTransfer hash transfers
  end.

Definition calmTransfers (hash : bytes) (transfers : list (option TransferMethod)) : Prop :=
  Forall (fun t => match t with Some t => forall w, t hash <> Panic w | None => True end) transfers.

Lemma tryTransfers_spec ctx hash transfers s :
  calmTransfers hash transfers ->
  tryTransfers ctx hash transfers s
  = match firstTransfer hash transfers with
    | Some d => match Put ctx hash d s with
                | (Ok _, s) => (Ok d, s) | (Err e, s) => (Err e, s) | (Panic w, s) => (Panic w, s)
                end
    | None => (Err (ESent ErrAcquisitionFailed), s)
    end.
Proof.
  induction 1 as [|[t|] transfers Ht _ IH]; simpl; [done| |done].
  destruct (t hash) as [d|e|w] eqn:E; [done|done|by destruct (Ht w)].
Qed.

(** C15. Acquiring a blob from a store that obeys the laws: a stored blob is returned as it
    is and no transfer is asked; otherwise the first transfer that has the blob provides
    it, it is stored under the hash, nothing else changes, and acquiring it again returns
    it from the store; without such a transfer the store is left alone. *)
Theorem acquire_stores_first transfers hash s
    (Hw : store_wf s) (Ha : store_accepts hash = true) (Hc : calmTransfers hash transfers)
    (Hd : forall d, firstTransfer hash transfers = Some d -> store_admits d = true) :
  let ba := mkBlobAcquirer transfers (Some s) in
  match store_view s !! hash, firstTransfer hash transfers with
  | Some d, _ => Acquire Background hash ba = (Ok d, ba)
  | None, Some d =>
      exists s', Acquire Background hash ba = (Ok d, mkBlobAcquirer transfers (Some s'))
        /\ store_wf s' /\ store_view s' = <[hash := d]> (store_view s)
        /\ forall transfers', Acquire Background hash (mkBlobAcquirer transfers' (Some s'))
             = (Ok d, mkBlobAcquirer transfers' (Some s'))
  | None, None => Acquire Background hash ba = (Err (ESent ErrAcquisitionFailed), ba)
  end.
Proof.
  assert (Hstored : forall s d transfers', store_wf s -> store_view s !! hash = Some d ->
    Acquire Background hash (mkBlobAcquirer transfers' (Some s)) = (Ok d, mkBlobAcquirer transfers' (Some s))).
  { intros s0 d tr Hw0 E. unfold Acquire, acquireFrom. simpl. rewrite store_has by done.
    rewrite bool_decide_eq_true_2 by (rewrite E; by eexists). pose proof (store_get s0 hash Hw0 Ha) as Hg. rewrite E in Hg.
    by rewrite Hg. }
  intros ba. destruct (store_view s !! hash) as [d|] eqn:E; [by apply Hstored|].
  unfold Acquire, acquireFrom. cbn [ba_store ba_transfers ba]. rewrite store_has by done.
  rewrite bool_decide_eq_false_2 by (rewrite E; by intros [? ?]). rewrite tryTransfers_spec by done.
  destruct (firstTransfer hash transfers) as [d|]; [|done].
  pose proof (store_put_ok s hash d Hw Ha (Hd d eq_refl)) as Hok. pose proof (store_put s hash d Background Hw Ha) as Hp.
  destruct (Put Background hash d s) as [r s']. simpl in Hok. subst r. destruct Hp as [Hw' Hv].
  rewrite decide_True in Hv by done. exists s'. split_and!; [done..|]. intros tr. apply Hstored; [done|].
  by rewrite Hv, lookup_insert_eq.
Qed.
End Acquisition.

(** ** What the DHT announces *)

(** The hashes the library was asked to announce and not to forget. *)
Definition announcedAfter (A : gset bytes) (c : dhtCall) : gset bytes :=
  match c with CallAdd b => {[b]} ∪ A | CallRemove b => A ∖ {[b]} | _ => A end.
Definition announced (node : Node) : gset bytes := foldl announcedAfter ∅ (mn_calls node).

Lemma announced_log c node : announced (log c node) = announcedAfter (announced node) c.
Proof. unfold announced, log. simpl. by rewrite foldl_app. Qed.

Section Announced.
Context {L : CidLib} {CL : CidLaws L} {St : Type} {B : BlobStore St} {BL : BlobStoreLaws St}.
Context (FromShortHex : bytes -> result bytes).
(** A hash of full length is its digits. *)
Context (FSH : forall h, IsValid h = true -> FromShortHex h = DecodeString h).
(** The text of a CID starts with its base. *)
Context (CST : forall c, cid_String c <> []).
Implicit Types (m : Manager St).

Definition bitmapOf (h : bytes) : bytes := match DecodeString h with Ok b => b | _ => [] end.

Lemma bitmapOf_inj h h' : IsValid h = true -> IsValid h' = true -> bitmapOf h = bitmapOf h' -> h = h'.
Proof.
  intros (b & Hb & _ & Eb)%IsValid_digest (b' & Hb' & _ & Eb')%IsValid_digest. unfold bitmapOf. rewrite Hb, Hb'. congruence.
Qed.

Lemma parse_valid h : IsValid h = true -> h <> [] /\ ParseHashFromString FromShortHex h = Ok (bitmapOf h).
Proof.
  intros Hv. pose proof (IsValid_digest h Hv) as (b & Hb & _ & Eb). pose proof (FSH h Hv) as Hf.
  assert (Hp : wrap_err "invalid hash format: %w" (FromShortHex h) = Ok (bitmapOf h)).
  { rewrite Hf. unfold bitmapOf. by rewrite Hb. }
  apply IsValid_spec in Hv as [Hl Hx]. destruct h as [|c0 [|c1 h]]; [done|done|]. split; [done|].
  apply Forall_cons in Hx as [_ Hx]. apply Forall_cons in Hx as [Hx _].
  unfold ParseHashFromString. destruct c0; try exact Hp. destruct c1; try exact Hp; discriminate Hx.
Qed.

Lemma announce_valid h node :
  IsValid h = true -> isActive node = true ->
  AnnounceBlob FromShortHex h node = (Ok tt, log (CallAdd (bitmapOf h)) node).
Proof.
  intros Hv Ha. destruct (parse_valid h Hv) as [Hne Hp]. unfold AnnounceBlob, Node_Add.
  by rewrite bool_decide_eq_false_2, Hp, Ha by done.
Qed.

(** A manager whose node runs and is told of every change, over a store with the keys of
    LBRY. *)
Record goodManager m : Prop := {
  gm_active : isActive (sm_node m) = true;
  gm_notifiers : sm_notifiers m = Some [LoggingNotifier; DHTNotifier];
  gm_wf : store_wf (sm_storage m);
  gm_keys h : is_Some (store_view (sm_storage m) !! h) -> IsValid h = true
}.

Lemma ToMultihash_nonempty h mh : ToMultihash h = Ok mh -> mh <> [].
Proof.
  unfold ToMultihash. destruct (negb _); [done|]. destruct (DecodeString h) as [d|e|w]; simpl; [|done..].
  destruct (mh_Encode d SHA384MultihashCode) as [x|e|w]; simpl; [|done..]. intros [= <-]. apply CST.
Qed.

(** A notification about a hash reaches the announcer as that hash. *)
Lemma notify_valid kind failed (tell : bytes -> Node -> result unit * Node) h m :
  goodManager m -> IsValid h = true ->
  (forall mh node, dhtNotify FromShortHex (kind, mh) node = handleBlob failed tell mh node) ->
  notify FromShortHex kind h m = setNode (tell h (sm_node m)).2 m.
Proof.
  intros G Hv Hk. unfold notify. rewrite (gm_notifiers m G). rewrite bool_decide_eq_true_2 by (by eexists).
  unfold NotifyBlob. cbn [negb]. pose proof (multihash_roundtrip h) as Hm. rewrite Hv in Hm.
  destruct Hm as (mh & E & Hf & _). rewrite E. cbn [foldl default from_option id notifyGroup]. rewrite Hk. unfold handleBlob.
  rewrite bool_decide_eq_false_2 by (by eapply ToMultihash_nonempty). rewrite Hf.
  destruct (parse_valid h Hv) as [Hne _]. rewrite bool_decide_eq_false_2 by done. by destruct (tell h (sm_node m)).
Qed.

Lemma notify_added h m :
  goodManager m -> IsValid h = true ->
  notify FromShortHex NOTIFY_BLOB_ADDED h m = setNode (log (CallAdd (bitmapOf h)) (sm_node m)) m.
Proof.
  intros G Hv. rewrite (notify_valid _ "failed to announce blob to DHT: %w" (AnnounceBlob FromShortHex)) by done.
  by rewrite announce_valid by (done || apply G).
Qed.

Lemma notify_removed h m :
  goodManager m -> IsValid h = true ->
  notify FromShortHex NOTIFY_BLOB_REMOVED h m = setNode (log (CallRemove (bitmapOf h)) (sm_node m)) m.
Proof.
  intros G Hv. rewrite (notify_valid _ "failed to remove blob from DHT: %w" (RemoveAnnounced FromShortHex)) by done.
  destruct (parse_valid h Hv) as [Hne Hp]. unfold RemoveAnnounced, Node_Remove.
  by rewrite bool_decide_eq_false_2, Hp, (gm_active m G) by done.
Qed.

(** *** Operations *)

Inductive mop := MAdd (ctx : Context) (hash data : bytes) | MAddSD (ctx : Context) (hash data : bytes)
  | MRemove (ctx : Context) (hash : bytes).
Definition opHash (op : mop) : bytes := match op with MAdd _ h _ | MAddSD _ h _ | MRemove _ h => h end.
Definition runMop (op : mop) m : result unit * Manager St :=
  match op with
  | MAdd ctx h d => AddBlob FromShortHex ctx h d m
  | MAddSD ctx h d => AddSDBlob FromShortHex ctx h d m
  | MRemove ctx h => RemoveBlob FromShortHex ctx h m
  end.
Definition removalFailed (op : mop) (r : result unit) : Prop :=
  match op with MRemove _ _ => r <> Ok tt | _ => False end.

(** Every stored blob is announced; and nothing else is. *)
Definition covered m : Prop :=
  forall h, is_Some (store_view (sm_storage m) !! h) -> bitmapOf h ∈ announced (sm_node m).
Definition exact m : Prop :=
  forall b, b ∈ announced (sm_node m) -> exists h, is_Some (store_view (sm_storage m) !! h) /\ b = bitmapOf h.

(** What an operation on the hash did to the store. *)
Definition changedAt h m m' : Prop :=
  store_wf (sm_storage m')
  /\ forall h', h' <> h -> store_view (sm_storage m') !! h' = store_view (sm_storage m) !! h'.

Lemma added_ok h m m1 :
  goodManager m -> IsValid h = true -> sm_node m1 = sm_node m -> sm_notifiers m1 = sm_notifiers m -> changedAt h m m1 ->
  is_Some (store_view (sm_storage m1) !! h) ->
  goodManager (notify FromShortHex NOTIFY_BLOB_ADDED h m1)
  /\ (covered m -> covered (notify FromShortHex NOTIFY_BLOB_ADDED h m1))
  /\ (exact m -> exact (notify FromShortHex NOTIFY_BLOB_ADDED h m1)).
Proof.
  intros G Hv En Eg [Hw Ho] Hh. assert (G1 : goodManager m1).
  { destruct G as [Ga Gn Gw Gk]. split; [by rewrite En|by rewrite Eg|done|].
    intros h' Hs. destruct (decide (h' = h)) as [->|Hne]; [done|]. apply Gk. by rewrite <- Ho. }
  rewrite notify_added by done. split; [by destruct G1|]. unfold covered, exact. cbn [setNode sm_storage sm_node].
  rewrite announced_log, En. cbn [announcedAfter]. split.
  - intros Hc h' Hs. destruct (decide (h' = h)) as [->|Hne]; [set_solver|]. apply elem_of_union_r, Hc. by rewrite <- Ho.
  - intros He b [->%elem_of_singleton|Hb]%elem_of_union; [by exists h|]. destruct (He b Hb) as (h' & Hs & ->).
    destruct (decide (h' = h)) as [->|Hne]; [by exists h|]. exists h'. by rewrite Ho.
Qed.

Lemma removed_ok h m m1 :
  goodManager m -> IsValid h = true -> sm_node m1 = sm_node m -> sm_notifiers m1 = sm_notifiers m -> changedAt h m m1 ->
  store_view (sm_storage m1) !! h = None ->
  goodManager (notify FromShortHex NOTIFY_BLOB_REMOVED h m1)
  /\ (covered m -> covered (notify FromShortHex NOTIFY_BLOB_REMOVED h m1))
  /\ (exact m -> exact (notify FromShortHex NOTIFY_BLOB_REMOVED h m1)).
Proof.
  intros G Hv En Eg [Hw Ho] Hh. pose proof (gm_keys m G) as Gk. assert (G1 : goodManager m1).
  { destruct G as [Ga Gn Gw _]. split; [by rewrite En|by rewrite Eg|done|].
    intros h' Hs. destruct (decide (h' = h)) as [->|Hne]; [done|]. apply Gk. by rewrite <- Ho. }
  rewrite notify_removed by done. split; [by destruct G1|]. unfold covered, exact. cbn [setNode sm_storage sm_node].
  rewrite announced_log, En. cbn [announcedAfter]. split.
  - intros Hc h' Hs. destruct (decide (h' = h)) as [->|Hne]; [rewrite Hh in Hs; by destruct Hs|].
    rewrite Ho in Hs by done. apply elem_of_difference. split; [by apply Hc|]. intros E%elem_of_singleton.
    apply Hne, bitmapOf_inj; [by apply Gk|done|done].
  - intros He b [Hb Hnb]%elem_of_difference. destruct (He b Hb) as (h' & Hs & ->).
    exists h'. split; [|done]. rewrite Ho; [done|]. intros ->. by apply Hnb, elem_of_singleton.
Qed.
(** The store knows the hashes of LBRY. *)
Context (ACC : forall h, IsValid h = true -> store_accepts h = true).

Lemma failed_ok h m m1 :
  goodManager m -> sm_node m1 = sm_node m -> sm_notifiers m1 = sm_notifiers m -> changedAt h m m1 ->
  (is_Some (store_view (sm_storage m1) !! h) -> is_Some (store_view (sm_storage m) !! h)) ->
  goodManager m1 /\ (covered m -> covered m1).
Proof.
  intros [Ga Gn Gw Gk] En Eg [Hw Ho] Hh. split.
  - split; [by rewrite En|by rewrite Eg|done|]. intros h' Hs. apply Gk. destruct (decide (h' = h)) as [->|]; [by apply Hh|].
    by rewrite <- Ho.
  - intros Hc h' Hs. rewrite En. apply Hc. destruct (decide (h' = h)) as [->|]; [by apply Hh|]. by rewrite <- Ho.
Qed.

Lemma exact_same m m1 :
  sm_node m1 = sm_node m -> store_view (sm_storage m1) = store_view (sm_storage m) -> exact m -> exact m1.
Proof. intros En Ev He b. rewrite En, Ev. apply He. Qed.

Lemma runMop_ok op m :
  goodManager m -> IsValid (opHash op) = true ->
  let '(r, m') := runMop op m in
  goodManager m' /\ (covered m -> covered m') /\ (~ removalFailed op r -> exact m -> exact m').
Proof.
  intros G Hv. pose proof (gm_wf m G) as Hw. pose proof (ACC _ Hv) as Ha.
  assert (Hput : forall fmt (put : St -> result unit * St) h, IsValid h = true ->
    (let '(r, s') := put (sm_storage m) in
     store_wf s' /\ (forall h', h' <> h -> store_view s' !! h' = store_view (sm_storage m) !! h')
     /\ (if decide (r = Ok tt) then is_Some (store_view s' !! h) else store_view s' = store_view (sm_storage m))) ->
    let '(_, m') := changeStore FromShortHex fmt put NOTIFY_BLOB_ADDED h m in
    goodManager m' /\ (covered m -> covered m') /\ (exact m -> exact m')).
  { intros fmt put h Hh Hp. unfold changeStore. destruct (put (sm_storage m)) as [[[]|e|w] s'].
    - destruct Hp as (Hw' & Ho & Hs). rewrite decide_True in Hs by done. by apply (added_ok h m).
    - destruct Hp as (Hw' & Ho & Hs). rewrite decide_False in Hs by done. cbn [setStorage].
      destruct (failed_ok h m (setStorage s' m)) as [G' Hc]; try done; [by simpl; rewrite Hs|].
      split_and!; [done..|]. by apply exact_same.
    - destruct Hp as (Hw' & Ho & Hs). rewrite decide_False in Hs by done.
      destruct (failed_ok h m (setStorage s' m)) as [G' Hc]; try done; [by simpl; rewrite Hs|].
      split_and!; [done..|]. by apply exact_same. }
  destruct op as [ctx h d|ctx h d|ctx h]; simpl in *.
  - unfold AddBlob. destruct (validateBlobInput h d); [|done..].
    specialize (Hput "failed to store blob %s: %w" (Put ctx h d) h Hv).
    pose proof (store_put (sm_storage m) h d ctx Hw Ha) as Hp. destruct (Put ctx h d (sm_storage m)) as [r s'] eqn:E.
    destruct (changeStore _ _ _ _ _ _) as [r' m']. destruct Hput as (G' & Hc & He); [|split_and!; [done|done|by intros _]].
    destruct Hp as [Hw' Hview]. split; [done|]. rewrite Hview. case_decide; [|done].
    split; [|rewrite lookup_insert_eq; by eexists]. intros h' Hne. by rewrite lookup_insert_ne.
  - unfold AddSDBlob. destruct (validateBlobInput h d); [|done..].
    specialize (Hput "failed to store SD blob %s: %w" (PutSD ctx h d) h Hv).
    pose proof (store_putSD (sm_storage m) h d ctx Hw Ha) as Hp. destruct (PutSD ctx h d (sm_storage m)) as [r s'] eqn:E.
    destruct (changeStore _ _ _ _ _ _) as [r' m']. destruct Hput as (G' & Hc & He); [by destruct Hp as (? & ? & ? & _)|split_and!; [done|done|by intros _]].
  - unfold RemoveBlob. destruct (validateHash h); [|done..]. unfold changeStore.
    pose proof (store_delete (sm_storage m) h ctx Hw Ha) as Hp. destruct (Delete ctx h (sm_storage m)) as [[[]|e|w] s'].
    + destruct Hp as (Hw' & Ho & Hn & _). pose proof (removed_ok h m (setStorage s' m) G Hv eq_refl eq_refl (conj Hw' Ho)
        (Hn eq_refl)) as (G' & Hc & He). split_and!; [done..|by intros _].
    + destruct Hp as (Hw' & Ho & _ & Hs). destruct (failed_ok h m (setStorage s' m)) as [G' Hc]; try done.
      split_and!; [done..|]. intros Hf. by destruct Hf.
    + destruct Hp as (Hw' & Ho & _ & Hs). destruct (failed_ok h m (setStorage s' m)) as [G' Hc]; try done.
      split_and!; [done..|]. intros Hf. by destruct Hf.
Qed.
(** *** The start *)

Lemma announceLoop_drop fuel offset batch s0 :
  store_wf s0 -> 0 <= offset -> 0 < batch < 2 ^ 31 -> Z.of_nat (size (dom (store_view s0))) < 2 ^ 31 ->
  offset <= Z.of_nat (size (dom (store_view s0))) + batch ->
  (size (dom (store_view s0)) - Z.to_nat offset < fuel)%nat ->
  announceLoop fuel Background offset batch s0
  = Ok (drop (Z.to_nat offset) (sortStrings (elements (dom (store_view s0))))).
Proof.
  intros Hw Ho Hb Hs. revert offset Ho. set (hs := sortStrings (elements (dom (store_view s0)))).
  assert (length hs = size (dom (store_view s0))) as Hlen by (unfold hs; by rewrite sortStrings_perm).
  induction fuel as [|fuel IH]; intros offset Ho Hle Hf; cbn [announceLoop].
  { lia. }
  rewrite store_list by (done || lia). fold hs. destruct (Z.ltb_spec (Z.of_nat (length hs)) offset) as [Hlt|Hge].
  { unfold paginate. rewrite (proj2 (Z.ltb_lt _ _)) by lia. by rewrite drop_ge by lia. }
  rewrite paginate_page by lia. destruct (take (Z.to_nat batch) (drop (Z.to_nat offset) hs)) as [|x page] eqn:E.
  { apply (f_equal length) in E. rewrite length_take, length_drop in E. simpl in E. by rewrite drop_ge by lia. }
  rewrite int64_id by (unfold in_int64; lia). rewrite IH by (try lia; apply (f_equal length) in E; rewrite length_take, length_drop in E; simpl in E; lia). cbn [mbind result_bind]. f_equal. rewrite <- E.
  rewrite <- (take_drop (Z.to_nat batch) (drop (Z.to_nat offset) hs)) at 2. f_equal. rewrite drop_drop. f_equal. lia.
Qed.

Lemma announceAll_valid hashes node :
  isActive node = true -> Forall (fun h => IsValid h = true) hashes ->
  let node' := announceAll FromShortHex hashes node in
  isActive node' = true /\ announced node' = list_to_set (map bitmapOf hashes) ∪ announced node.
Proof.
  intros Ha Hh. unfold announceAll. revert node Ha. induction Hh as [|h hashes Hv _ IH]; intros node Ha; cbn [foldl].
  - split; [done|]. simpl. set_solver.
  - rewrite announce_valid by done. cbn [snd]. destruct (IH (log (CallAdd (bitmapOf h)) node) Ha) as [Ha' E].
    split; [done|]. rewrite E, announced_log. cbn [announcedAfter map]. rewrite list_to_set_cons. set_solver.
Qed.

(** The operations, one after the other, and what they returned. *)
Fixpoint runMops (ops : list mop) m : list (result unit) * Manager St :=
  match ops with
  | [] => ([], m)
  | op :: ops => let '(r, m) := runMop op m in let '(rs, m) := runMops ops m in (r :: rs, m)
  end.

Lemma runMops_ok ops m :
  goodManager m -> Forall (fun op => IsValid (opHash op) = true) ops ->
  let '(rs, m') := runMops ops m in
  goodManager m' /\ (covered m -> covered m')
  /\ (Forall2 (fun op r => ~ removalFailed op r) ops rs -> exact m -> exact m').
Proof.
  intros G Hv. revert m G. induction Hv as [|op ops Hop _ IH]; intros m G; [done|]. cbn [runMops].
  pose proof (runMop_ok op m G Hop) as H1. destruct (runMop op m) as [r m1]. destruct H1 as (G1 & C1 & E1).
  pose proof (IH m1 G1) as H2. destruct (runMops ops m1) as [rs m2]. destruct H2 as (G2 & C2 & E2).
  split_and!; [done|auto|]. intros HF. apply Forall2_cons in HF as [Hr Hrs]. auto.
Qed.

Lemma start_announced fuel pool batch m :
  goodManager m -> announced (sm_node m) = ∅ -> (forall l, pool l ≡ₚ l) -> 0 < batch < 2 ^ 31 ->
  Z.of_nat (size (dom (store_view (sm_storage m)))) < 2 ^ 31 ->
  (size (dom (store_view (sm_storage m))) < fuel)%nat ->
  exists m1, announceBlobsToDHT FromShortHex fuel pool Background batch m = (Ok tt, m1)
    /\ goodManager m1 /\ sm_storage m1 = sm_storage m /\ covered m1 /\ exact m1.
Proof.
  intros G H0 Hpool Hb Hs Hf. unfold announceBlobsToDHT.
  rewrite announceLoop_drop by (apply (gm_wf m G) || lia). change (Z.to_nat 0) with 0%nat. rewrite drop_0.
  set (hs := sortStrings (elements (dom (store_view (sm_storage m))))). eexists. split; [reflexivity|].
  assert (Hin : forall h, h ∈ pool hs <-> is_Some (store_view (sm_storage m) !! h)).
  { intros h. rewrite Hpool. unfold hs. by rewrite sortStrings_perm, elem_of_elements, elem_of_dom. }
  assert (Hv : Forall (fun h => IsValid h = true) (pool hs)).
  { rewrite Forall_forall. intros h Hh%Hin. by apply (gm_keys m G). }
  destruct (announceAll_valid (pool hs) (sm_node m) (gm_active m G) Hv) as [Ha E].
  split; [by destruct G|]. split; [done|]. unfold covered, exact. cbn [setNode sm_storage sm_node]. rewrite E, H0, union_empty_r_L.
  split.
  - intros h Hh. apply elem_of_list_to_set, list_elem_of_fmap. exists h. split; [done|by apply Hin].
  - intros b (h & -> & Hh)%elem_of_list_to_set%list_elem_of_fmap. exists h. split; [by apply Hin|done].
Qed.

(** C14. A server's node announces what the store holds: after the announcement at the
    start, which pages through the store in batches of any size and hands the hashes to a
    pool of workers, and after any additions and removals, some of which may fail, every
    stored blob is announced; and when no removal has failed, nothing else is. *)
Theorem dht_announces_store fuel pool batch m ops
    (G : goodManager m) (H0 : announced (sm_node m) = ∅) (Hpool : forall l, pool l ≡ₚ l) (Hb : 0 < batch < 2 ^ 31)
    (Hs : Z.of_nat (size (dom (store_view (sm_storage m)))) < 2 ^ 31)
    (Hf : (size (dom (store_view (sm_storage m))) < fuel)%nat)
    (Hops : Forall (fun op => IsValid (opHash op) = true) ops) :
  let '(r, m1) := announceBlobsToDHT FromShortHex fuel pool Background batch m in
  let '(rs, m2) := runMops ops m1 in
  r = Ok tt
  /\ (forall h, is_Some (store_view (sm_storage m2) !! h) -> bitmapOf h ∈ announced (sm_node m2))
  /\ (Forall2 (fun op r => ~ removalFailed op r) ops rs ->
      forall b, b ∈ announced (sm_node m2) -> exists h, is_Some (store_view (sm_storage m2) !! h) /\ b = bitmapOf h).
Proof.
  destruct (start_announced fuel pool batch m G H0 Hpool Hb Hs Hf) as (m1 & -> & G1 & _ & C1 & E1).
  pose proof (runMops_ok ops m1 G1 Hops) as H. destruct (runMops ops m1) as [rs m2]. destruct H as (_ & C2 & E2).
  split_and!; [done|by apply C2|]. intros HF. by apply E2.
Qed.
End Announced.

(** ** Descriptors acquired through a server *)

Section Verified.
Context {L : CidLib} {OJ : OrderedJson} {St : Type} {B : BlobStore St}.

(** Unless verification was switched off, what [AcquireSDBlob] returns matches its hashes,
    whatever the store and the acquirer answer, and only such blobs are stored. *)
Theorem acquired_descriptor_verified meanwhile world orderV orderP hash opts calls (m m' : Manager St) r puts
    (Hv : as_VerificationEnabled (sdConfig opts) = true)
    (Hr : AcquireSDBlob meanwhile world orderV orderP hash opts calls m = (Ok (r, puts), m')) :
  sm_started m = true /\ is_Some (sm_acquirer m')
  /\ resultVerified orderV orderP (as_Recursive (sdConfig opts)) hash r
  /\ Forall (fun p => verified p.2 p.1) puts.
Proof.
  unfold AcquireSDBlob, readyAcquirer in Hr. destruct (validateHash hash) as [[]|e|w]; [|done..]. cbn [mbind result_bind] in Hr.
  unfold requireStarted in Hr. destruct (sm_started m); [|done]. split; [done|].
  destruct (ensureAcquirer meanwhile m) as [[[]|e|w] m1]; [|done..]. destruct (sm_acquirer m1) as [a|] eqn:Ea; [|done].
  cbn [mbind result_bind] in Hr. set (o := sdAcquireOptions (sdConfig opts)) in Hr.
  assert (Eo : ac_VerificationEnabled (acquireConfig o) = true /\ ac_Recursive (acquireConfig o) = as_Recursive (sdConfig opts)).
  { unfold o, sdAcquireOptions, acquireConfig. rewrite !foldl_app. simpl. split; [done|]. by destruct (as_RetryOptions _). }
  destruct Eo as [Eo1 Eo2].
  destruct (result_careful (withAcquirer a world) orderV orderP hash o Eo1 (readerAt calls)) as (ps & Ep & HF & HQ).
  destruct (GetStreamResult _ _ _ _ _ _) as [[res|e|w] s1]; cbn [mbind result_bind] in Hr; [|done..].
  injection Hr as -> <- <-. cbn [fst snd] in Ep, HQ. rewrite Eo2 in HQ. rewrite Ep. split; [by eexists|]. by split.
Qed.
End Verified.

(** ** Concrete instances *)

#[local] Existing Instances exampleCid exampleCid_laws.

Definition noBlobs : MemoryStore := mkMemoryStore ∅ ∅.
Definition sampleHash : bytes := Hash (go "a blob").

Lemma acquire_stores_first_witness :
  exists s', Acquire Background sampleHash
      (mkBlobAcquirer [None; Some (fun _ => Err (ESent ErrBlobNotFound)); Some (fun _ => Ok (go "a blob"))] (Some noBlobs))
    = (Ok (go "a blob"), s').
Proof.
  set (transfers := [None; Some (fun _ : bytes => Err (ESent ErrBlobNotFound)); Some (fun _ => Ok (go "a blob"))]).
  pose proof (acquire_stores_first (BL := MemoryBlobStoreLaws) transfers sampleHash noBlobs I
    ltac:(apply IsValid_validates, Hash_valid) ltac:(repeat constructor; done) ltac:(intros d [= <-]; reflexivity)) as H.
  destruct H as (s' & H & _). by exists (mkBlobAcquirer transfers (Some s')).
Defined.

Definition sampleManager : Manager MemoryStore :=
  mkManager noBlobs plainNode (Some [LoggingNotifier; DHTNotifier]) true None None.

Lemma sampleManager_good : goodManager (BL := MemoryBlobStoreLaws) sampleManager.
Proof.
  split; [done..|]. intros h. simpl. rewrite memoryView_lookup. simpl. rewrite !lookup_empty. by intros [? ?].
Qed.

Lemma dht_announces_store_witness :
  let '(_, m1) := announceBlobsToDHT DecodeString 9 (@rev bytes) Background 3 sampleManager in
  let '(rs, m2) := runMops (B := MemoryBlobStore) DecodeString
    [MAdd Background sampleHash (go "a blob"); MRemove Background (Hash (go "another"))] m1 in
  rs = [Ok tt; Ok tt]
  /\ (forall h, is_Some (memoryView (sm_storage m2) !! h) -> bitmapOf h ∈ announced (sm_node m2)).
Proof.
  pose proof (dht_announces_store (BL := MemoryBlobStoreLaws) DecodeString ltac:(done) ltac:(done)
    (fun h => IsValid_validates h) 9 (@rev bytes) 3 sampleManager
    [MAdd Background sampleHash (go "a blob"); MRemove Background (Hash (go "another"))] sampleManager_good eq_refl
    (fun l => symmetry (Permutation_rev l)) ltac:(lia) ltac:(vm_compute; reflexivity) ltac:(vm_compute; lia)
    ltac:(repeat constructor; apply Hash_valid)) as H.
  destruct (announceBlobsToDHT _ _ _ _ _ _) as [r m1] eqn:E1. destruct (runMops _ _ m1) as [rs m2] eqn:E2.
  split; [|exact (proj1 (proj2 H))].
  assert (Em : m1 = sampleManager).
  { transitivity (announceBlobsToDHT (B := MemoryBlobStore) DecodeString 9 (@rev bytes) Background 3 sampleManager).2; [by rewrite E1|].
    vm_compute. reflexivity. }
  subst m1. transitivity ((runMops (B := MemoryBlobStore) DecodeString
    [MAdd Background sampleHash (go "a blob"); MRemove Background (Hash (go "another"))] sampleManager).1); [by rewrite E2|].
  vm_compute. reflexivity.
Defined.
