(* ===== verification/Server.v ===== *)
(** * server/server.go: starting and stopping

    A server listens for its protocols, starts or adopts a DHT node and tells the
    notifiers.  Listeners are sockets with numbers; [listen] is the operating system's
    answer to the call with that number.  The goroutines that accept connections end when
    their socket is closed; the clock and the loggers are left out. *)
From stdpp Require Import base tactics list numbers strings gmap.
From Stdlib Require Import ZArith Lia Init.Byte.
From S2P Require Import Prelude GoStd Aes Blob Multihash Json SdBlob Encoder Errors Store GoNet Discovery PeerServer.
From S2P Require Import StreamReader StreamAcquirer Watchdog DhtNode Manager.
Local Open Scope Z_scope.

Definition DefaultPeerPort : Z := 5567.
Definition DefaultReflectorPort : Z := 5566.
Definition ProtocolPeer : bytes := go "peer".
Definition ProtocolReflector : bytes := go "reflector".
Definition ProtocolDHT : bytes := go "dht".
Definition fixedProtocolName : bytes := ProtocolPeer ++ go "_fixed".

(** ** Configuration *)

Record PeerConfig := mkPeerConfig { pr_Port : Z; pr_FixedPort : Z }.
(** Whether the reflector has a store of its own. *)
Record ReflectorConfig := mkReflectorConfig { rr_Port : Z; rr_Store : bool }.
Record DHTServerConfig := mkDHTServerConfig { dr_Port : Z; dr_Address : bytes; dr_SeedNodes : list bytes }.

(** The values of the configuration map: [CExisting] is the node of [WithExistingDHT], and
    [COther] anything else. *)
Inductive ServiceConfig :=
  | CPeer (c : PeerConfig) | CReflector (c : ReflectorConfig) | CDHT (c : DHTServerConfig) | CExisting | COther.

(** ** State *)

(** [li_dht]: which node the servers map holds, the existing or the created one;
    [li_accepting]: the sockets of the goroutines that accept connections. *)
Inductive whichNode := Existing | Created.
Record Live := mkLive {
  li_listeners : gmap bytes nat;
  li_sockets : gmap nat Z;
  li_accepting : list nat;
  li_next : nat;
  li_dht : option whichNode;
  li_existing : Node;
  li_created : Node;
  li_notifiers : option (list Notifier);
  li_announcer : bool;
  li_started : bool
}.

Definition setDht (dht : option whichNode) (existing created : Node) (s : Live) : Live :=
  mkLive (li_listeners s) (li_sockets s) (li_accepting s) (li_next s) dht existing created (li_notifiers s)
    (li_announcer s) (li_started s).
Definition setNotify (notifiers : option (list Notifier)) (announcer : bool) (s : Live) : Live :=
  mkLive (li_listeners s) (li_sockets s) (li_accepting s) (li_next s) (li_dht s) (li_existing s) (li_created s) notifiers
    announcer (li_started s).
Definition setStarted (b : bool) (s : Live) : Live :=
  mkLive (li_listeners s) (li_sockets s) (li_accepting s) (li_next s) (li_dht s) (li_existing s) (li_created s)
    (li_notifiers s) (li_announcer s) b.

Definition extractDHTHost (address : bytes) : bytes :=
  match SplitHostPort address with Ok (host, _) => host | _ => [] end.

(** The port that is announced for the peer protocol. *)
Definition announcePeerPort (peer : option PeerConfig) (dhtPort : Z) : Z :=
  let peerProtocolPort := match peer with Some c => pr_Port c | None => 0 end in
  let fixedPeerPort := match peer with Some c => pr_FixedPort c | None => 0 end in
  if 0 <? fixedPeerPort then fixedPeerPort
  else if 0 <? peerProtocolPort then peerProtocolPort
  else if 0 <? dhtPort then dhtPort
  else DefaultPeerPort.

Section Server.
Context (listen : nat -> Z -> option error).
(** The options of [WithDHTOptions], what the library says to a start of a node, the
    context of the crawler and what it explores, and the clock. *)
Context (dhtOptions : list (option DHTOption)) (nodeStarts : option error) (ctx : Context)
  (explored : result (list Contact)) (now : Z).

(** *** Protocols *)

Definition startTCPProtocol (protocolName : bytes) (port : Z) (s : Live) : result unit * Live :=
  match listen (li_next s) port with
  | Some e => (Err (EWrap "failed to listen on %s: %w" e),
               mkLive (li_listeners s) (li_sockets s) (li_accepting s) (S (li_next s)) (li_dht s) (li_existing s) (li_created s)
                 (li_notifiers s) (li_announcer s) (li_started s))
  | None =>
      let i := li_next s in
      (Ok tt, mkLive (<[protocolName := i]> (li_listeners s)) (<[i := port]> (li_sockets s)) (li_accepting s ++ [i]) (S i)
                (li_dht s) (li_existing s) (li_created s) (li_notifiers s) (li_announcer s) (li_started s))
  end.

Definition startPeer (config : PeerConfig) (s : Live) : result unit * Live :=
  match startTCPProtocol ProtocolPeer (pr_Port config) s with
  | (Ok _, s) =>
      if (0 <? pr_FixedPort config) && negb (pr_FixedPort config =? pr_Port config) then
        let '(r, s) := startTCPProtocol fixedProtocolName (pr_FixedPort config) s in
        (wrap_err "failed to start fixed peer server on port %d: %w" r, s)
      else (Ok tt, s)
  | r => r
  end.

Definition startReflector (config : ReflectorConfig) (s : Live) : result unit * Live :=
  startTCPProtocol ProtocolReflector (rr_Port config) s.

(** [setupDHTAnnouncerAndNotifier]: the group of notifiers gets another one. *)
Definition setupDHTAnnouncerAndNotifier (s : Live) : Live :=
  setNotify ((fun g => g ++ [DHTNotifier]) <$> li_notifiers s) true s.

Definition nodeAt (which : whichNode) (s : Live) : Node :=
  match which with Existing => li_existing s | Created => li_created s end.
Definition setNodeAt (which : whichNode) (node : Node) (s : Live) : Live :=
  match which with
  | Existing => setDht (Some Existing) node (li_created s) s
  | Created => setDht (Some Created) (li_existing s) node s
  end.
Definition setupExistingDHTNode (which : whichNode) (s : Live) : result unit * Live :=
  match StartNode nodeStarts ctx explored (nodeAt which s) with
  | (Ok _, node) => (Ok tt, setupDHTAnnouncerAndNotifier (setNodeAt which node s))
  | (Err e, node) => (Err (EWrap "failed to start existing DHT node: %w" e), setNodeAt which node s)
  | (Panic w, node) => (Panic w, setNodeAt which node s)
  end.

Definition dhtNodeOptions (config : DHTServerConfig) (port : Z) : list (option DHTOption) :=
  let address := match dr_Address config with
                 | [] => extractDHTHost DefaultDHTAddress ++ go ":" ++ Itoa (dr_Port config)
                 | a => a
                 end in
  [Some (WithDHTAddress address); Some (WithDHTPeerProtocolPort port)]
  ++ match dr_SeedNodes config with [] => [] | ns => [Some (WithDHTSeedNodes ns)] end
  ++ dhtOptions.

Definition createDHTNode (config : DHTServerConfig) (port : Z) : result Node :=
  node ← wrap_err "failed to create DHT node: %w" (NewDHTNode now (dhtNodeOptions config port));
  match StartNode nodeStarts ctx explored node with
  | (Ok _, node) => Ok node
  | (Err e, _) => Err (EWrap "failed to start DHT node: %w" e)
  | (Panic w, _) => Panic w
  end.

Definition setupDHTNode (config : DHTServerConfig) (port : Z) (s : Live) : result unit * Live :=
  match createDHTNode config port with
  | Ok node => (Ok tt, setupDHTAnnouncerAndNotifier (setNodeAt Created node s))
  | Err e => (Err e, s)
  | Panic w => (Panic w, s)
  end.

Definition startDHT (peer : option PeerConfig) (config : DHTServerConfig) (s : Live) : result unit * Live :=
  match li_dht s with
  | Some which => setupExistingDHTNode which s
  | None =>
      setupDHTNode config (announcePeerPort peer (dr_Port config)) s
  end.

(** *** Stopping *)

(** Closing the listeners of this start; a socket that is closed already is only logged. *)
Definition closeListeners (s : Live) : Live :=
  mkLive (li_listeners s) (foldr delete (li_sockets s) (map snd (map_to_list (li_listeners s)))) (li_accepting s) (li_next s)
    (li_dht s) (li_existing s) (li_created s) (li_notifiers s) (li_announcer s) (li_started s).
Definition shutdownDHT (s : Live) : Live :=
  match li_dht s with
  | Some which => setNodeAt which (Shutdown (nodeAt which s)) s
  | None => s
  end.
(** The goroutines whose socket is closed end. *)
Definition acceptorsEnd (s : Live) : Live :=
  mkLive (li_listeners s) (li_sockets s) (filter (fun i => is_Some (li_sockets s !! i)) (li_accepting s)) (li_next s)
    (li_dht s) (li_existing s) (li_created s) (li_notifiers s) (li_announcer s) (li_started s).

(** [handlersEnd]: whether the handlers of connections end before the context does. The
    context of the stop after an unknown protocol never ends: where the result here is an
    error, that stop goes on waiting. *)
Definition StopServer (stopErr : error) (handlersEnd : bool) (s : Live) : result unit * Live :=
  let s := acceptorsEnd (setStarted false (shutdownDHT (closeListeners s))) in
  (if handlersEnd && bool_decide (li_accepting s = []) then Ok tt else Err stopErr, s).

(** *** Starting *)

Definition knownProtocol (name : bytes) : bool :=
  bool_decide (name = ProtocolPeer) || bool_decide (name = ProtocolReflector) || bool_decide (name = ProtocolDHT).
Definition startService (peer : option PeerConfig) (name : bytes) (config : ServiceConfig) (s : Live) : result unit * Live :=
  if bool_decide (name = ProtocolPeer) then
    match config with CPeer c => startPeer c s | _ => (Panic "interface conversion", s) end
  else if bool_decide (name = ProtocolReflector) then
    match config with CReflector c => startReflector c s | _ => (Panic "interface conversion", s) end
  else
    match config with
    | CExisting => setupExistingDHTNode Existing s
    | CDHT c => startDHT peer c s
    | _ => (Panic "interface conversion", s)
    end.

(** The loop over the map, in the order in which it is ranged over; a failure stops what
    was started. *)
Fixpoint startServices (peer : option PeerConfig) (stopErr : error) (handlersEnd : bool)
    (config : list (bytes * ServiceConfig)) (s : Live) : result unit * Live :=
  match config with
  | [] => (Ok tt, s)
  | (name, c) :: config =>
      if negb (knownProtocol name) then (Err (EMsg "unknown protocol: %s"), (StopServer stopErr handlersEnd s).2) else
      match startService peer name c s with
      | (Ok _, s) => startServices peer stopErr handlersEnd config s
      | (Err e, s) => (Err (EWrap "failed to start %s protocol: %w" e), (StopServer stopErr handlersEnd s).2)
      | (Panic w, s) => (Panic w, s)
      end
  end.

Definition peerConfigOf (config : list (bytes * ServiceConfig)) : option PeerConfig :=
  match list_find (fun p => p.1 = ProtocolPeer) config with Some (_, (_, CPeer c)) => Some c | _ => None end.

(** A group with the logging notifier. *)
Definition createNotifier (s : Live) : Live := setNotify (Some [LoggingNotifier]) (li_announcer s) s.

(** Whether the blobs are announced at the end is [li_announcer]. *)
Definition StartServer (stopErr : error) (handlersEnd : bool) (config : list (bytes * ServiceConfig)) (s : Live)
    : result unit * Live :=
  let s := createNotifier (mkLive ∅ (li_sockets s) (li_accepting s) (li_next s) None (li_existing s) (li_created s)
             (li_notifiers s) (li_announcer s) (li_started s)) in
  match startServices (peerConfigOf config) stopErr handlersEnd config s with
  | (Ok _, s) => (Ok tt, setStarted true s)
  | r => r
  end.
End Server.
