(* ===== verification/ServerSpec.v ===== *)
(** * The life of a server

    A start opens the sockets of all its protocols or none, or panics at one whose
    configuration is refused; a stop closes them; what a second start
    without a stop, and a restart with an existing DHT node, do instead. *)
From stdpp Require Import base tactics list numbers strings gmap.
From Stdlib Require Import ZArith Lia Init.Byte.
From S2P Require Import Prelude GoStd Errors Store GoNet Discovery Watchdog DhtNode DhtNodeSpec Manager Server.
Local Open Scope Z_scope.

(** The ports of the open sockets. *)
Definition openPorts (s : Live) : list Z := map snd (map_to_list (li_sockets s)).

Definition portsOf (c : ServiceConfig) : list Z :=
  match c with
  | CPeer c => pr_Port c :: if (0 <? pr_FixedPort c) && negb (pr_FixedPort c =? pr_Port c) then [pr_FixedPort c] else []
  | CReflector c => [rr_Port c]
  | _ => []
  end.

(** Nothing is open, and nobody accepts. *)
Definition quiet (s : Live) : Prop := li_sockets s = ∅ /\ li_accepting s = [].

(** Every open socket but the old ones is in the hands of a listener; numbers are fresh;
    those who waited on an old socket still do. *)
Record running (old : gmap nat Z) (waiting : list nat) (s : Live) : Prop := {
  rn_old : old ⊆ li_sockets s;
  rn_kept name i : li_listeners s !! name = Some i -> old !! i = None;
  rn_owned i p : li_sockets s !! i = Some p -> old !! i = None -> exists name, li_listeners s !! name = Some i;
  rn_fresh i : (li_next s <= i)%nat -> li_sockets s !! i = None;
  rn_accept : Forall (fun i => (i < li_next s)%nat) (li_accepting s);
  rn_waiting i : i ∈ waiting -> is_Some (old !! i) -> i ∈ li_accepting s
}.

(** What the state of the nodes and the notifiers do not matter for. *)
Definition sameSockets (s s' : Live) : Prop :=
  li_listeners s' = li_listeners s /\ li_sockets s' = li_sockets s /\ li_accepting s' = li_accepting s /\ li_next s' = li_next s.

Lemma running_same old wt s s' : sameSockets s s' -> running old wt s -> running old wt s'.
Proof. intros (E1 & E2 & E3 & E4) [H1 H2 H3 H4 H5 H6]. split; rewrite ?E1, ?E2, ?E3, ?E4; done. Qed.

Section Life.
Context (listen : nat -> Z -> option error) (dhtOptions : list (option DHTOption)) (nodeStarts : option error)
  (ctx : Context) (explored : result (list Contact)) (now : Z) (stopErr : error).

Lemma startTCP_ok old wt name port s :
  running old wt s -> li_listeners s !! name = None ->
  let '(r, s') := startTCPProtocol listen name port s in
  running old wt s'
  /\ match r with
     | Ok _ => openPorts s' ≡ₚ port :: openPorts s /\ exists i, li_listeners s' = <[name := i]> (li_listeners s)
     | Err _ => openPorts s' = openPorts s /\ li_listeners s' = li_listeners s
     | Panic _ => False
     end.
Proof.
  intros [H1 H2 H3 H4 H5 H6] Hn. unfold startTCPProtocol. destruct (listen (li_next s) port) as [e|].
  - split; [|done]. split; try done; cbn.
    + intros i Hi. apply H4. lia.
    + eapply Forall_impl; [exact H5|]. simpl. lia.
  - assert (Hf : li_sockets s !! li_next s = None) by (apply H4; lia).
    assert (Hof : old !! li_next s = None) by (eapply lookup_weaken_None; [exact Hf|exact H1]).
    split; [split; cbn|split].
    + etrans; [exact H1|]. by apply insert_subseteq.
    + intros n i. destruct (decide (n = name)) as [->|Hne].
      * rewrite lookup_insert_eq. by intros [= <-].
      * rewrite lookup_insert_ne by done. apply H2.
    + intros i p Hi Ho. destruct (decide (i = li_next s)) as [->|Hne].
      * exists name. by rewrite lookup_insert_eq.
      * rewrite lookup_insert_ne in Hi by done. destruct (H3 i p Hi Ho) as [n Hn']. exists n.
        rewrite lookup_insert_ne; [done|]. congruence.
    + intros i Hi. rewrite lookup_insert_ne by lia. apply H4. lia.
    + apply Forall_app. split; [eapply Forall_impl; [exact H5|]; simpl; lia|]. constructor; [lia|constructor].
    + intros i Hi Hs. apply elem_of_app. left. by apply H6.
    + unfold openPorts. cbn. by rewrite (map_to_list_insert _ _ _ Hf).
    + by eexists.
Qed.

(** The listeners a protocol registers. *)
Definition namesOf (name : bytes) : list bytes := if decide (name = ProtocolPeer) then [name; fixedProtocolName] else [name].

Lemma setNodeAt_same which node s : sameSockets s (setNodeAt which node s).
Proof. by destruct which. Qed.

Lemma setup_same which s : sameSockets s (setupExistingDHTNode nodeStarts ctx explored which s).2.
Proof.
  unfold setupExistingDHTNode. destruct (StartNode _ _ _ _) as [[[]|e|w] node]; cbn [snd]; [|apply setNodeAt_same..].
  by destruct which.
Qed.

Lemma startDHT_same peer config s : sameSockets s (startDHT dhtOptions nodeStarts ctx explored now peer config s).2.
Proof.
  unfold startDHT, setupDHTNode. destruct (li_dht s) as [which|]; [apply setup_same|]. by destruct (createDHTNode _ _ _ _ _ _ _).
Qed.

Abbreviation service := (startService listen dhtOptions nodeStarts ctx explored now).

Lemma service_ok old wt peer name c s :
  running old wt s -> (forall n, n ∈ namesOf name -> li_listeners s !! n = None) -> knownProtocol name = true ->
  let '(r, s') := service peer name c s in
  running old wt s'
  /\ match r with
     | Ok _ => openPorts s' ≡ₚ portsOf c ++ openPorts s
               /\ forall n, n ∉ namesOf name -> li_listeners s' !! n = li_listeners s !! n
     | _ => True
     end.
Proof.
  intros R Hn Hk. assert (Hsame : forall x, sameSockets s x.2 -> portsOf c = [] ->
    let '(r, s') := (x : result unit * Live) in
    running old wt s' /\ match r with
     | Ok _ => openPorts s' ≡ₚ portsOf c ++ openPorts s
               /\ forall n, n ∉ namesOf name -> li_listeners s' !! n = li_listeners s !! n
     | _ => True end).
  { intros [r s'] Hs Hp. cbn [snd] in Hs. split; [by eapply running_same|]. destruct Hs as (E1 & E2 & _ & _).
    rewrite Hp. unfold openPorts. rewrite E2. destruct r; [|done..]. split; [done|]. intros n _. by rewrite E1. }
  unfold startService, knownProtocol, namesOf in *. case_bool_decide as E1.
  { subst name. destruct c as [cp|cr|cd| |]; try (split; [done|done]). rewrite decide_True in Hn |- * by done.
    unfold startPeer. pose proof (startTCP_ok old wt ProtocolPeer (pr_Port cp) s R (Hn ProtocolPeer ltac:(left))) as H1.
    destruct (startTCPProtocol _ _ _ _) as [[[]|e|w] s1]; [|by destruct H1..]. destruct H1 as (R1 & P1 & i & L1).
    unfold portsOf. destruct ((0 <? pr_FixedPort cp) && negb (pr_FixedPort cp =? pr_Port cp)).
    - assert (Hf : li_listeners s1 !! fixedProtocolName = None).
      { rewrite L1, lookup_insert_ne by done. apply Hn. right. left. }
      pose proof (startTCP_ok old wt fixedProtocolName (pr_FixedPort cp) s1 R1 Hf) as H2.
      destruct (startTCPProtocol _ _ _ s1) as [[[]|e|w] s2]; cbn [wrap_err]; [|by destruct H2..].
      destruct H2 as (R2 & P2 & j & L2). split; [done|]. split.
      + rewrite P2, P1. simpl. apply perm_swap.
      + intros n Hnn. rewrite L2, L1, !lookup_insert_ne; [done|..]; intros <-; apply Hnn; [left|right; left].
    - split; [done|]. split; [done|]. intros n Hnn. rewrite L1, lookup_insert_ne; [done|]. intros <-. apply Hnn. left. }
  case_bool_decide as E2.
  { rewrite decide_False in Hn |- * by done. subst name. destruct c as [cp|cr|cd| |]; try (split; [done|done]). unfold startReflector.
    pose proof (startTCP_ok old wt ProtocolReflector (rr_Port cr) s R (Hn _ ltac:(left))) as H1.
    destruct (startTCPProtocol _ _ _ _) as [[[]|e|w] s1]; [|by destruct H1..]. destruct H1 as (R1 & P1 & i & L1).
    split; [done|]. split; [done|]. intros n Hnn. rewrite L1, lookup_insert_ne; [done|]. intros <-. apply Hnn. left. }
  destruct c as [cp|cr|cd| |]; try (split; [done|done]); apply Hsame; try done; [apply startDHT_same|apply setup_same].
Qed.

(** Stopping closes the sockets of this start and no others. *)
Lemma foldr_delete_lookup (l : list nat) (m : gmap nat Z) i :
  foldr delete m l !! i = if decide (i ∈ l) then None else m !! i.
Proof.
  induction l as [|j l IH]; cbn [foldr]; [by rewrite decide_False by apply not_elem_of_nil|].
  destruct (decide (i = j)) as [->|Hne]; [rewrite lookup_delete_eq, decide_True by left; done|].
  rewrite lookup_delete_ne, IH by done. destruct (decide (i ∈ l)) as [Hl|Hl]; [by rewrite decide_True by (by right)|].
  rewrite decide_False; [done|]. by intros [->|?]%elem_of_cons.
Qed.

Lemma stop_sockets handlersEnd old wt s :
  running old wt s -> li_sockets (StopServer stopErr handlersEnd s).2 = old.
Proof.
  intros [H1 H2 H3 H4 H5 H6]. assert (E : li_sockets (StopServer stopErr handlersEnd s).2
    = foldr delete (li_sockets s) (map snd (map_to_list (li_listeners s)))).
  { cbn. unfold shutdownDHT. cbn. by destruct (li_dht s) as [[]|]. }
  rewrite E. apply map_eq. intros i. rewrite foldr_delete_lookup.
  assert (Hin : i ∈ map snd (map_to_list (li_listeners s)) <-> exists name, li_listeners s !! name = Some i).
  { rewrite list_elem_of_fmap. split.
    - intros ([n j] & -> & Hn%elem_of_map_to_list). by exists n.
    - intros [n Hn]. exists (n, i). split; [done|by apply elem_of_map_to_list]. }
  case_decide as Hi.
  - apply Hin in Hi as [n Hn]. symmetry. by eapply H2.
  - destruct (old !! i) as [p|] eqn:Eo; [by apply (lookup_weaken _ _ _ _ Eo)|].
    destruct (li_sockets s !! i) as [p|] eqn:Es; [|done]. destruct Hi. apply Hin. by eapply H3.
Qed.

Lemma stop_acceptors handlersEnd s :
  li_accepting (StopServer stopErr handlersEnd s).2
  = filter (fun i => is_Some (li_sockets (StopServer stopErr handlersEnd s).2 !! i)) (li_accepting s).
Proof. cbn. unfold shutdownDHT. cbn. by destruct (li_dht s) as [[]|]. Qed.

Lemma stop_running handlersEnd old wt s :
  running old wt s -> let s' := (StopServer stopErr handlersEnd s).2 in
  running old wt s' /\ li_sockets s' = old /\ Forall (fun i => is_Some (old !! i)) (li_accepting s') /\ li_started s' = false.
Proof.
  intros R s'. pose proof (stop_sockets handlersEnd old wt s R) as E. pose proof (stop_acceptors handlersEnd s) as Ea.
  fold s' in E, Ea. rewrite E in Ea.
  assert (El : li_listeners s' = li_listeners s /\ li_next s' = li_next s /\ li_started s' = false).
  { unfold s'. cbn. unfold shutdownDHT. by destruct (li_dht _) as [[]|]. }
  destruct El as (El & Enx & Est). destruct R as [H1 H2 H3 H4 H5 H6]. split; [|split; [done|split; [|done]]].
  - split; rewrite ?E, ?El, ?Enx, ?Ea; try done.
    + intros i p Hi Ho. congruence.
    + intros i Hi. eapply lookup_weaken_None; [by apply H4|done].
    + rewrite Forall_forall in *. intros i [_ Hi]%list_elem_of_filter. by apply H5.
    + intros i Hi Hs. apply list_elem_of_filter. split; [done|]. by apply H6.
  - rewrite Ea. apply Forall_forall. intros i [Hi _]%list_elem_of_filter. done.
Qed.

Abbreviation services := (startServices listen dhtOptions nodeStarts ctx explored now).
Abbreviation start := (StartServer listen dhtOptions nodeStarts ctx explored now).

Lemma names_disjoint n name name' :
  n ∈ namesOf name -> n ∈ namesOf name' -> knownProtocol name = true -> knownProtocol name' = true -> name = name'.
Proof.
  intros Hn Hn' Hk Hk'. assert (Hcases : forall x, knownProtocol x = true -> x = ProtocolPeer \/ x = ProtocolReflector \/ x = ProtocolDHT).
  { intros x. unfold knownProtocol. rewrite !orb_true_iff, !bool_decide_eq_true. tauto. }
  destruct (Hcases _ Hk) as [->|[->| ->]]; destruct (Hcases _ Hk') as [->|[->| ->]]; try done; exfalso;
    revert Hn Hn'; vm_compute; intros Hn Hn';
    repeat (first [apply elem_of_nil in Hn as []|apply elem_of_cons in Hn as [->|Hn]]);
    repeat (first [apply elem_of_nil in Hn' as []|apply elem_of_cons in Hn' as [?|Hn']]); done.
Qed.

Lemma services_ok old wt peer handlersEnd config s :
  running old wt s -> NoDup config.*1 ->
  (forall name n, name ∈ config.*1 -> knownProtocol name = true -> n ∈ namesOf name -> li_listeners s !! n = None) ->
  let '(r, s') := services peer stopErr handlersEnd config s in
  match r with
  | Ok _ => running old wt s' /\ openPorts s' ≡ₚ concat (map (fun p => portsOf p.2) config) ++ openPorts s
  | Err _ => running old wt s' /\ li_sockets s' = old /\ Forall (fun i => is_Some (old !! i)) (li_accepting s')
             /\ li_started s' = false
  | Panic _ => True
  end.
Proof.
  intros R Hd Hf. revert s R Hf. induction config as [|[name c] config IH]; intros s R Hf; [done|]. cbn [startServices].
  assert (Hstop := fun s => stop_running handlersEnd old wt s).
  destruct (knownProtocol name) eqn:Hk; cbn [negb]; [|by apply Hstop].
  cbn in Hd. apply NoDup_cons in Hd as [Hnot Hd].
  pose proof (service_ok old wt peer name c s R (fun n => Hf name n ltac:(left) Hk) Hk) as H1.
  destruct (service peer name c s) as [[[]|e|w] s1]; [|destruct H1 as [R1 _]; by apply Hstop|done].
  destruct H1 as (R1 & P1 & L1). specialize (IH Hd s1 R1).
  destruct (services peer stopErr handlersEnd config s1) as [[[]|e|w] s2]; [|apply IH|done].
  - destruct IH as [R2 P2].
    { intros n' n Hn' Hk' Hn. rewrite L1; [by apply (Hf n'); [right|..]|]. intros Hin.
      apply Hnot. by rewrite (names_disjoint n name n' Hin Hn Hk Hk'). }
    split; [done|]. rewrite P2, P1. cbn. by rewrite !app_assoc, (Permutation_app_comm (portsOf c)).
  - intros n' n Hn' Hk' Hn. rewrite L1; [by apply (Hf n'); [right|..]|]. intros Hin.
    apply Hnot. by rewrite (names_disjoint n name n' Hin Hn Hk Hk').
Qed.

(** A state in which numbers are fresh. *)
Definition numbered (s : Live) : Prop :=
  (forall i, (li_next s <= i)%nat -> li_sockets s !! i = None) /\ Forall (fun i => (i < li_next s)%nat) (li_accepting s).

Lemma start_running s :
  numbered s -> running (li_sockets s) (li_accepting s) (mkLive ∅ (li_sockets s) (li_accepting s) (li_next s) None (li_existing s) (li_created s)
    (Some [LoggingNotifier]) (li_announcer s) (li_started s)).
Proof.
  intros [Hf Ha]. split; cbn; try done. intros i p Hi Ho. congruence.
Qed.

Lemma start_ok handlersEnd config s :
  numbered s -> NoDup config.*1 ->
  let '(r, s') := start stopErr handlersEnd config s in
  match r with
  | Ok _ => running (li_sockets s) (li_accepting s) s' /\ openPorts s' ≡ₚ concat (map (fun p => portsOf p.2) config) ++ openPorts s
            /\ li_started s' = true
  | Err _ => running (li_sockets s) (li_accepting s) s' /\ li_sockets s' = li_sockets s /\ Forall (fun i => is_Some (li_sockets s !! i)) (li_accepting s')
             /\ li_started s' = false
  | Panic _ => True
  end.
Proof.
  intros Hs Hd. unfold StartServer.
  pose proof (services_ok (li_sockets s) (li_accepting s) (peerConfigOf config) handlersEnd config _ (start_running s Hs) Hd) as H.
  cbn [li_listeners] in H. specialize (H (fun _ n _ _ _ => lookup_empty n)).
  destruct (services _ _ _ _ _) as [[[]|e|w] s1]; [|done..]. destruct H as [R P]. cbn [setStarted li_started]. split; [|done].
  eapply running_same; [|exact R]. done.
Qed.

(** *** Panics *)

(** What makes the start of a protocol panic: a configuration of another type, or settings of
    the DHT that its options refuse. *)
Definition panics (peer : option PeerConfig) (p : bytes * ServiceConfig) : bool :=
  let '(name, c) := p in
  if bool_decide (name = ProtocolPeer) then match c with CPeer _ => false | _ => true end
  else if bool_decide (name = ProtocolReflector) then match c with CReflector _ => false | _ => true end
  else match c with
       | CExisting => false
       | CDHT d => match NewDHTNode now (dhtNodeOptions dhtOptions d (announcePeerPort peer (dr_Port d))) with
                   | Panic _ => true | _ => false end
       | _ => true
       end.

Lemma StartNode_panic n w : (StartNode nodeStarts ctx explored n).1 <> Panic w.
Proof. unfold StartNode. destruct (mn_stopped n); [done|]. by destruct nodeStarts. Qed.

Lemma startTCP_panic name port s w : (startTCPProtocol listen name port s).1 <> Panic w.
Proof. unfold startTCPProtocol. by destruct (listen _ _). Qed.

Lemma service_panic peer name c s w s' :
  service peer name c s = (Panic w, s') -> s' = s /\ panics peer (name, c) = true.
Proof.
  unfold startService, panics. case_bool_decide.
  { destruct c as [cp|cr|cd| |]; try (by intros [= <- <-]). unfold startPeer. intros E. exfalso.
    pose proof (startTCP_panic ProtocolPeer (pr_Port cp) s w) as H1. revert E H1.
    destruct (startTCPProtocol _ ProtocolPeer _ _) as [[[]|e|w1] s1]; [|done|by intros [= -> ->] H1].
    destruct (_ && _); [|done]. pose proof (fun w => startTCP_panic fixedProtocolName (pr_FixedPort cp) s1 w) as H2.
    destruct (startTCPProtocol _ fixedProtocolName _ _) as [[[]|e|w2] s2]; [done..|]. by destruct (H2 w2). }
  case_bool_decide.
  { destruct c as [cp|cr|cd| |]; try (by intros [= <- <-]). unfold startReflector. intros E. exfalso.
    pose proof (startTCP_panic ProtocolReflector (rr_Port cr) s w) as H1. by rewrite E in H1. }
  assert (Hold : forall which, setupExistingDHTNode nodeStarts ctx explored which s <> (Panic w, s')).
  { intros which. unfold setupExistingDHTNode. pose proof (StartNode_panic (nodeAt which s)) as H1.
    destruct (StartNode _ _ _ _) as [[[]|e|w1] node]; [done..|]. by destruct (H1 w1). }
  destruct c as [cp|cr|cd| |]; try (by intros [= <- <-]); [|by intros E%Hold].
  unfold startDHT. destruct (li_dht s) as [which|]; [by intros E%Hold|]. unfold setupDHTNode, createDHTNode.
  destruct (NewDHTNode _ _) as [node|e|w1]; cbn [mbind result_bind wrap_err]; [|done|by intros [= <- <-]].
  pose proof (StartNode_panic node) as H1. destruct (StartNode _ _ _ _) as [[[]|e|w1] node']; [done..|]. by destruct (H1 w1).
Qed.

Lemma service_started peer name c s : li_started (service peer name c s).2 = li_started s.
Proof.
  assert (Ht : forall n p s, li_started (startTCPProtocol listen n p s).2 = li_started s)
    by (intros; unfold startTCPProtocol; by destruct (listen _ _)).
  assert (Hx : forall which, li_started (setupExistingDHTNode nodeStarts ctx explored which s).2 = li_started s).
  { intros which. unfold setupExistingDHTNode. by destruct (StartNode _ _ _ _) as [[[]|e|w] node], which. }
  unfold startService. case_bool_decide; [|case_bool_decide]; destruct c as [cp|cr|cd| |]; try done; try apply Ht; try apply Hx.
  - unfold startPeer. pose proof (Ht ProtocolPeer (pr_Port cp) s) as H1.
    destruct (startTCPProtocol _ ProtocolPeer _ _) as [[[]|e|w] s1]; [|done..]. destruct (_ && _); [|done].
    pose proof (Ht fixedProtocolName (pr_FixedPort cp) s1) as H2. destruct (startTCPProtocol _ fixedProtocolName _ _). simpl in *. congruence.
  - unfold startDHT. destruct (li_dht s); [apply Hx|]. unfold setupDHTNode. by destruct (createDHTNode _ _ _ _ _ _ _).
Qed.

(** A panic leaves open what was opened before it. *)
Lemma services_panic old wt peer handlersEnd config s w s' :
  running old wt s -> NoDup config.*1 ->
  (forall name n, name ∈ config.*1 -> knownProtocol name = true -> n ∈ namesOf name -> li_listeners s !! n = None) ->
  services peer stopErr handlersEnd config s = (Panic w, s') ->
  exists before p after, config = before ++ p :: after /\ panics peer p = true
    /\ openPorts s' ≡ₚ concat (map (fun p => portsOf p.2) before) ++ openPorts s /\ li_started s' = li_started s.
Proof.
  intros R Hd Hf. revert s R Hf. induction config as [|[name c] config IH]; intros s R Hf; [done|]. cbn [startServices].
  destruct (knownProtocol name) eqn:Hk; cbn [negb]; [|done].
  cbn in Hd. apply NoDup_cons in Hd as [Hnot Hd].
  pose proof (service_ok old wt peer name c s R (fun n => Hf name n ltac:(left) Hk) Hk) as H1.
  pose proof (service_started peer name c s) as H2.
  destruct (service peer name c s) as [[[]|e|w1] s1] eqn:E; [|done|].
  - destruct H1 as (R1 & P1 & L1). intros E1. destruct (IH Hd s1 R1) as (before & p & after & -> & Hp & Ho & Hs); [|done|].
    + intros n' n Hn' Hk' Hn. rewrite L1; [by apply (Hf n'); [right|..]|]. intros Hin.
      apply Hnot. by rewrite (names_disjoint n name n' Hin Hn Hk Hk').
    + exists ((name, c) :: before), p, after. split_and!; [done..| |by rewrite Hs].
      rewrite Ho, P1. cbn. by rewrite !app_assoc, (Permutation_app_comm (portsOf c)).
  - intros [= -> ->]. apply service_panic in E as [-> Hp]. by exists [], (name, c), config.
Qed.

(** C12. Starting a server that is stopped, with any answers of the operating system and of
    the DHT, and in whatever order the protocols are started, has three outcomes.  A start
    that succeeds has opened exactly the configured ports and marks the server as started,
    and a stop then closes all of them; a start that fails leaves nothing open, nobody
    accepting and the server not started.  A start panics only at a protocol whose
    configuration has another type or, for the DHT, settings that the options of a node
    refuse; then nothing is cleaned up: the ports of the protocols before it are open, and
    the server is not marked as started.  So without such a protocol a start is all or
    nothing. *)
Theorem start_all_or_nothing handlersEnd config s
    (Hq : quiet s) (Hd : NoDup config.*1) :
  match start stopErr handlersEnd config s with
  | (Ok _, s') =>
      openPorts s' ≡ₚ concat (map (fun p => portsOf p.2) config) /\ li_started s' = true
      /\ exists s'', StopServer stopErr true s' = (Ok tt, s'') /\ quiet s'' /\ li_started s'' = false
  | (Err _, s') => quiet s' /\ li_started s' = false
  | (Panic _, s') =>
      exists before p after, config = before ++ p :: after /\ panics (peerConfigOf config) p = true
        /\ openPorts s' ≡ₚ concat (map (fun p => portsOf p.2) before) /\ li_started s' = li_started s
  end.
Proof.
  destruct Hq as [Hq Ha]. assert (Hn : numbered s).
  { split; [by rewrite Hq|by rewrite Ha]. }
  pose proof (start_ok handlersEnd config s Hn Hd) as H. destruct (start _ _ _ _) as [[[]|e|w] s1] eqn:Est.
  - destruct H as (R & P & St). rewrite Hq in R. unfold openPorts at 2 in P. rewrite Hq, map_to_list_empty, app_nil_r in P.
    split_and!; [done..|]. pose proof (stop_sockets true ∅ _ s1 R) as Es. pose proof (stop_acceptors true s1) as Ea.
    exists (StopServer stopErr true s1).2. rewrite Es in Ea.
    assert (En : li_accepting (StopServer stopErr true s1).2 = []).
    { rewrite Ea. destruct (filter _ _) as [|i l] eqn:Ef; [done|]. assert (Hi : i ∈ i :: l) by left.
      rewrite <- Ef in Hi. by apply list_elem_of_filter in Hi as [[p Hp] _]. }
    split_and!; [|split; done|].
    + unfold StopServer in En |- *. cbn [snd] in En |- *. rewrite bool_decide_eq_true_2 by exact En. done.
    + by destruct (stop_running true _ _ _ R) as (_ & _ & _ & ?).
  - destruct H as (_ & Es & Hacc & St). split; [|done]. split; [by rewrite Es|].
    destruct (li_accepting s1) as [|i l]; [done|]. apply Forall_cons in Hacc as [[p Hp] _]. by rewrite Hq in Hp.
  - unfold StartServer in Est.
    destruct (services (peerConfigOf config) stopErr handlersEnd config _) as [[[]|e|w1] s2] eqn:E; [done..|].
    injection Est as -> ->.
    apply (services_panic (li_sockets s) (li_accepting s)) in E; [|by apply start_running|done|intros; apply lookup_empty].
    destruct E as (before & p & after & -> & Hp & Ho & Hs). exists before, p, after. split_and!; [done..| |exact Hs].
    rewrite Ho. unfold openPorts. cbn. by rewrite Hq, map_to_list_empty, app_nil_r.
Qed.

(** A second start without a stop loses the sockets of the first: whatever it returns,
    no stop after it closes them, and a stop reports a failure, since the goroutines that
    accept on them never end. *)
Theorem second_start_orphans handlersEnd handlersEnd' config s i
    (Hn : numbered s) (Hd : NoDup config.*1) (Hi : i ∈ li_accepting s) (Ho : is_Some (li_sockets s !! i)) :
  match start stopErr handlersEnd config s with
  | (Panic _, _) => True
  | (_, s') => let '(r, s'') := StopServer stopErr handlersEnd' s' in
               r = Err stopErr /\ li_sockets s'' = li_sockets s
  end.
Proof.
  pose proof (start_ok handlersEnd config s Hn Hd) as H.
  assert (Hfin : forall s', running (li_sockets s) (li_accepting s) s' ->
    let '(r, s'') := StopServer stopErr handlersEnd' s' in r = Err stopErr /\ li_sockets s'' = li_sockets s).
  { intros s' R. destruct (stop_running handlersEnd' _ _ s' R) as ([_ _ _ _ _ Hw] & E & _). specialize (Hw i Hi Ho).
    unfold StopServer in *. cbn [snd] in *. split; [|done]. rewrite bool_decide_eq_false_2; [by rewrite andb_false_r|].
    intros En. rewrite En in Hw. by apply elem_of_nil in Hw. }
  destruct (start _ _ _ _) as [[[]|e|w] s1]; [apply Hfin, H..|done].
Qed.

Lemma startTCP_nodes name port s : li_existing (startTCPProtocol listen name port s).2 = li_existing s.
Proof. unfold startTCPProtocol. by destruct (listen _ _). Qed.

Lemma service_keeps_stopped peer name c s s' :
  mn_stopped (li_existing s) = true -> service peer name c s = (Ok tt, s') -> mn_stopped (li_existing s') = true.
Proof.
  intros Hx. assert (Hset : forall which, setupExistingDHTNode nodeStarts ctx explored which s = (Ok tt, s') -> mn_stopped (li_existing s') = true).
  { intros []; unfold setupExistingDHTNode, StartNode; cbn [nodeAt]; [by rewrite Hx|].
    destruct (mn_stopped (li_created s)); [done|]. destruct nodeStarts; [done|]. by intros [= <-]. }
  unfold startService. case_bool_decide; [|case_bool_decide].
  - destruct c as [cp| | | |]; try done. unfold startPeer. pose proof (startTCP_nodes ProtocolPeer (pr_Port cp) s) as E1.
    destruct (startTCPProtocol _ _ _ s) as [[[]|e|w] s1]; [|done..]. cbn [snd] in E1.
    destruct (_ && _); [|by intros [= <-]; rewrite E1]. pose proof (startTCP_nodes fixedProtocolName (pr_FixedPort cp) s1) as E2.
    destruct (startTCPProtocol _ _ _ s1) as [[[]|e|w] s2]; [|done..]. cbn [snd] in E2. intros [= <-]. by rewrite E2, E1.
  - destruct c as [|cr| | |]; try done. unfold startReflector. intros E. pose proof (startTCP_nodes ProtocolReflector (rr_Port cr) s) as E1.
    rewrite E in E1. cbn [snd] in E1. by rewrite E1.
  - destruct c as [| |cd| |]; try done; [|apply Hset]. unfold startDHT, setupDHTNode. destruct (li_dht s) as [which|]; [apply Hset|].
    destruct (createDHTNode _ _ _ _ _ _ _); [|done..]. by intros [= <-].
Qed.

(** A stop shuts the node of [WithExistingDHT] down, so the server cannot be started with
    it again, although nothing else of it is gone. *)
Theorem existing_node_no_restart handlersEnd handlersEnd' config s
    (Hs : li_dht s = Some Existing) (Hc : (ProtocolDHT, CExisting) ∈ config) :
  let s' := (StopServer stopErr handlersEnd s).2 in
  mn_stopped (li_existing s') = true /\
  forall s'', start stopErr handlersEnd' config s' <> (Ok tt, s'').
Proof.
  intros s'. assert (Hx : mn_stopped (li_existing s') = true).
  { unfold s'. cbn. unfold shutdownDHT. cbn [closeListeners li_dht]. rewrite Hs. cbn. apply shutdown_stopped. }
  split; [done|]. unfold StartServer. set (s0 := createNotifier _).
  assert (Hx0 : mn_stopped (li_existing s0) = true) by exact Hx. clearbody s0. revert s0 Hx0.
  generalize (peerConfigOf config) as peer. intros peer.
  induction config as [|[name c] config IH]; [by apply elem_of_nil in Hc|]. intros s0 Hx0 s''. cbn [startServices].
  destruct (knownProtocol name); cbn [negb]; [|done].
  destruct (service peer name c s0) as [[[]|e|w] s1] eqn:E; [|done..].
  apply elem_of_cons in Hc as [[= <- <-]|Hc].
  - unfold startService in E. vm_compute bool_decide in E. unfold setupExistingDHTNode, StartNode in E. cbn [nodeAt] in E.
    by rewrite Hx0 in E.
  - apply IH; [done|]. by eapply service_keeps_stopped.
Qed.
End Life.

(** ** Witnesses *)

Definition freshServer : Live := mkLive ∅ ∅ [] 0 None plainNode plainNode None false false.
Definition bothProtocols : list (bytes * ServiceConfig) :=
  [(ProtocolPeer, CPeer (mkPeerConfig 5567 3333)); (ProtocolReflector, CReflector (mkReflectorConfig 5566 false))].
Definition allowed (i : nat) (port : Z) : option error := None.
(** The third port is taken. *)
Definition thirdTaken (i : nat) (port : Z) : option error := if Nat.eqb i 2 then Some (EMsg "address already in use") else None.
Definition deadline : error := EMsg "context deadline exceeded".
Abbreviation startWith l := (StartServer l [] None Background (Ok []) 0 deadline true).

(** A reflector and a DHT whose port is none. *)
Definition badDHT : list (bytes * ServiceConfig) :=
  [(ProtocolReflector, CReflector (mkReflectorConfig 5566 false)); (ProtocolDHT, CDHT (mkDHTServerConfig 70000 [] []))].

Lemma bothProtocols_NoDup : NoDup bothProtocols.*1.
Proof. by apply (bool_decide_unpack _). Qed.
Lemma badDHT_NoDup : NoDup badDHT.*1.
Proof. by apply (bool_decide_unpack _). Qed.

Lemma start_all_or_nothing_witness :
  quiet freshServer /\ NoDup bothProtocols.*1
  /\ (exists s, startWith allowed bothProtocols freshServer = (Ok tt, s)
        /\ openPorts s ≡ₚ [5567; 3333; 5566])
  /\ (exists e s, startWith thirdTaken bothProtocols freshServer = (Err e, s) /\ quiet s)
  /\ (exists w s, startWith allowed badDHT freshServer = (Panic w, s) /\ openPorts s ≡ₚ [5566]).
Proof.
  split; [done|]. split; [apply bothProtocols_NoDup|]. split_and!.
  - pose proof (start_all_or_nothing allowed [] None Background (Ok []) 0 deadline true bothProtocols freshServer
      (conj eq_refl eq_refl) bothProtocols_NoDup) as H.
    assert (E : (startWith allowed bothProtocols freshServer).1 = Ok tt) by (vm_compute; reflexivity).
    destruct (startWith allowed bothProtocols freshServer) as [[[]|e|w] s]; [|discriminate E..].
    exists s. split; [done|]. apply H.
  - pose proof (start_all_or_nothing thirdTaken [] None Background (Ok []) 0 deadline true bothProtocols freshServer
      (conj eq_refl eq_refl) bothProtocols_NoDup) as H.
    assert (E : match (startWith thirdTaken bothProtocols freshServer).1 with Err _ => True | _ => False end) by (vm_compute; exact I).
    destruct (startWith thirdTaken bothProtocols freshServer) as [[[]|e|w] s]; [destruct E| |destruct E].
    exists e, s. split; [done|]. apply H.
  - pose proof (start_all_or_nothing allowed [] None Background (Ok []) 0 deadline true badDHT freshServer
      (conj eq_refl eq_refl) badDHT_NoDup) as H.
    assert (E : match (startWith allowed badDHT freshServer).1 with Panic _ => True | _ => False end) by (vm_compute; exact I).
    destruct (startWith allowed badDHT freshServer) as [[[]|e|w] s]; [destruct E..|]. exists w, s. split; [done|].
    destruct H as ([|x [|y [|z before]]] & p & after & Hc & Hp & Ho & _).
    + injection Hc as <- <-. vm_compute in Hp. discriminate Hp.
    + injection Hc as <- <- <-. exact Ho.
    + discriminate Hc.
    + discriminate Hc.
Defined.

(** A server that listens on 5567 already. *)
Definition startedServer : Live := mkLive {[ ProtocolPeer := 0%nat ]} {[ 0%nat := 5567 ]} [0%nat] 1 None plainNode plainNode None false true.

Lemma startedServer_numbered : numbered startedServer.
Proof.
  split; [|by constructor; [cbn; lia|constructor]]. intros i Hi. cbn in Hi. cbn. apply lookup_singleton_ne. lia.
Qed.

Lemma second_start_orphans_witness :
  let s := (startWith allowed bothProtocols startedServer).2 in
  (StopServer deadline true s).1 = Err deadline /\ li_sockets (StopServer deadline true s).2 = {[ 0%nat := 5567 ]}.
Proof.
  pose proof (second_start_orphans allowed [] None Background (Ok []) 0 deadline true true bothProtocols startedServer 0
    startedServer_numbered bothProtocols_NoDup ltac:(left) ltac:(by eexists)) as H.
  assert (E : (startWith allowed bothProtocols startedServer).1 = Ok tt) by (vm_compute; reflexivity).
  destruct (startWith allowed bothProtocols startedServer) as [[[]|e|w] s]; [exact H|discriminate E..].
Defined.
