(* ===== verification/DhtBuilder.v ===== *)
(** * server/dht_builder.go: the configuration of a DHT node

    The builder's settings with the checks of each setter, the validation of addresses, and
    the node or configuration that is built.  Loggers are left out; a seed list that is nil
    and an empty one behave alike after [WithSeedNodes]. *)
From stdpp Require Import base tactics list numbers strings gmap.
From Stdlib Require Import ZArith Lia Init.Byte.
From S2P Require Import Prelude GoStd GoNet Discovery Watchdog DhtNode Manager Server.
Local Open Scope Z_scope.

(** ** Addresses *)

(** [strings.Split] at a one-byte separator. *)
Fixpoint splitAt_ (sep : byte) (s : bytes) : list bytes :=
  match s with
  | [] => [[]]
  | c :: s =>
      if decide (c = sep) then [] :: splitAt_ sep s
      else match splitAt_ sep s with l :: ls => (c :: l) :: ls | [] => [[c]] end
  end.

Definition isAlphaNumeric (r : Z) : bool :=
  ((97 <=? r) && (r <=? 122)) || ((65 <=? r) && (r <=? 90)) || ((48 <=? r) && (r <=? 57)).

(** A byte from 128 on belongs to a rune from 128 on, which is not alphanumeric: looking
    at the bytes of a label is looking at its runes. *)
Definition validLabel (label : bytes) : bool :=
  match label with
  | [] => false
  | first :: _ =>
      negb (63 <? length label)%nat
      && isAlphaNumeric (Z_of_byte first) && isAlphaNumeric (Z_of_byte (List.last label first))
      && forallb (fun c => isAlphaNumeric (Z_of_byte c) || bool_decide (c = "-"%byte)) label
  end.
Definition isValidHostname (host : bytes) : bool :=
  negb (length host =? 0)%nat && negb (253 <? length host)%nat && forallb validLabel (splitAt_ "."%byte host).

Definition localhost : bytes := go "localhost".

Section Builder.
Context `{D : DiscoveryLib}.

Definition validateAddress (address : bytes) : result unit :=
  '(host, port) ← wrap_err "must be in host:port format: %w" (SplitHostPort address);
  portNum ← wrap_err "port must be numeric: %w" (ParseInt port);
  if negb (IsValidNonZeroPortRange portNum) then Err (EMsg "port must be between 1 and 65535, got %d") else
  match ParseIP host with
  | Some _ => Ok tt
  | None =>
      if negb (bool_decide (host = localhost)) && negb (isValidHostname host)
      then Err (EMsg "host '%s' appears invalid (not IP, localhost, or valid hostname)") else Ok tt
  end.

(** ** The builder *)

Record dhtBuilderConfig := mkBuilderConfig {
  bc_port : Z;
  bc_address : bytes;
  bc_seedNodes : list bytes;
  bc_nodeID : bytes;
  bc_peerProtocolPort : Z;
  bc_rpcPort : Z;
  bc_reannounceTime : Z;
  bc_announceRate : Z;
  bc_watchdog : option Watchdog;
  bc_validationEnabled : bool;
  bc_userConfigured : bool
}.
Record DHTBuilder := mkDHTBuilder { db_config : dhtBuilderConfig; db_options : list DHTOption }.

Definition NewDHTBuilder : result DHTBuilder :=
  defaultDHTConfig ← NewDHTConfig;
  Ok (mkDHTBuilder (mkBuilderConfig DefaultDHTPort [] (dc_SeedNodes defaultDHTConfig) [] DefaultPeerPort 0
        (dc_ReannounceTime defaultDHTConfig) (dc_AnnounceRate defaultDHTConfig) None true false) []).

Definition onConfig (f : dhtBuilderConfig -> dhtBuilderConfig) (b : DHTBuilder) : DHTBuilder :=
  mkDHTBuilder (f (db_config b)) (db_options b).

Definition WithPort (port : Z) (b : DHTBuilder) : DHTBuilder :=
  if negb (IsValidPortRange port) then b else
  onConfig (fun c => mkBuilderConfig port (bc_address c) (bc_seedNodes c) (bc_nodeID c) (bc_peerProtocolPort c) (bc_rpcPort c)
    (bc_reannounceTime c) (bc_announceRate c) (bc_watchdog c) (bc_validationEnabled c) true) b.
Definition WithAddress (address : bytes) (b : DHTBuilder) : DHTBuilder :=
  if bool_decide (address = []) then b else
  match validateAddress address with
  | Ok _ =>
      onConfig (fun c => mkBuilderConfig (bc_port c) address (bc_seedNodes c) (bc_nodeID c) (bc_peerProtocolPort c) (bc_rpcPort c)
        (bc_reannounceTime c) (bc_announceRate c) (bc_watchdog c) (bc_validationEnabled c) true) b
  | _ => b
  end.
Definition validNode (node : bytes) : bool := negb (bool_decide (node = [])) && is_ok (validateAddress node).
Definition WithSeedNodes (nodes : option (list bytes)) (b : DHTBuilder) : DHTBuilder :=
  onConfig (fun c => mkBuilderConfig (bc_port c) (bc_address c) (List.filter validNode (default [] nodes)) (bc_nodeID c)
    (bc_peerProtocolPort c) (bc_rpcPort c) (bc_reannounceTime c) (bc_announceRate c) (bc_watchdog c) (bc_validationEnabled c) true) b.
Definition WithNodeID (id : bytes) (b : DHTBuilder) : DHTBuilder :=
  onConfig (fun c => mkBuilderConfig (bc_port c) (bc_address c) (bc_seedNodes c) id (bc_peerProtocolPort c) (bc_rpcPort c)
    (bc_reannounceTime c) (bc_announceRate c) (bc_watchdog c) (bc_validationEnabled c) true) b.
Definition WithPeerProtocolPort (port : Z) (b : DHTBuilder) : DHTBuilder :=
  if negb (IsValidNonZeroPortRange port) then b else
  onConfig (fun c => mkBuilderConfig (bc_port c) (bc_address c) (bc_seedNodes c) (bc_nodeID c) port (bc_rpcPort c)
    (bc_reannounceTime c) (bc_announceRate c) (bc_watchdog c) (bc_validationEnabled c) true) b.
Definition WithRPCPort (port : Z) (b : DHTBuilder) : DHTBuilder :=
  if negb (IsValidPortRange port) then b else
  onConfig (fun c => mkBuilderConfig (bc_port c) (bc_address c) (bc_seedNodes c) (bc_nodeID c) (bc_peerProtocolPort c) port
    (bc_reannounceTime c) (bc_announceRate c) (bc_watchdog c) (bc_validationEnabled c) true) b.
Definition WithReannounceTime (interval : Z) (b : DHTBuilder) : DHTBuilder :=
  if interval <=? 0 then b else
  onConfig (fun c => mkBuilderConfig (bc_port c) (bc_address c) (bc_seedNodes c) (bc_nodeID c) (bc_peerProtocolPort c) (bc_rpcPort c)
    interval (bc_announceRate c) (bc_watchdog c) (bc_validationEnabled c) true) b.
Definition WithAnnounceRate (rate : Z) (b : DHTBuilder) : DHTBuilder :=
  if rate <=? 0 then b else
  onConfig (fun c => mkBuilderConfig (bc_port c) (bc_address c) (bc_seedNodes c) (bc_nodeID c) (bc_peerProtocolPort c) (bc_rpcPort c)
    (bc_reannounceTime c) rate (bc_watchdog c) (bc_validationEnabled c) true) b.
Definition WithWatchdog (watchdog : option Watchdog) (b : DHTBuilder) : DHTBuilder :=
  onConfig (fun c => mkBuilderConfig (bc_port c) (bc_address c) (bc_seedNodes c) (bc_nodeID c) (bc_peerProtocolPort c) (bc_rpcPort c)
    (bc_reannounceTime c) (bc_announceRate c) watchdog (bc_validationEnabled c) true) b.
Definition WithValidation (enabled : bool) (b : DHTBuilder) : DHTBuilder :=
  onConfig (fun c => mkBuilderConfig (bc_port c) (bc_address c) (bc_seedNodes c) (bc_nodeID c) (bc_peerProtocolPort c) (bc_rpcPort c)
    (bc_reannounceTime c) (bc_announceRate c) (bc_watchdog c) enabled (bc_userConfigured c)) b.
(** Nil options are dropped. *)
Definition WithOptions (options : list (option DHTOption)) (b : DHTBuilder) : DHTBuilder :=
  onConfig (fun c => mkBuilderConfig (bc_port c) (bc_address c) (bc_seedNodes c) (bc_nodeID c) (bc_peerProtocolPort c) (bc_rpcPort c)
    (bc_reannounceTime c) (bc_announceRate c) (bc_watchdog c) (bc_validationEnabled c) true)
    (mkDHTBuilder (db_config b) (db_options b ++ omap id options)).

Definition IsConfigured (b : DHTBuilder) : bool := bc_userConfigured (db_config b).
(** The copy shares nothing that either builder writes to. *)
Definition Copy (b : DHTBuilder) : DHTBuilder := mkDHTBuilder (db_config b) (db_options b).

(** ** Validation *)

Fixpoint validateSeeds (nodes : list bytes) : result unit :=
  match nodes with
  | [] => Ok tt
  | node :: nodes =>
      if bool_decide (node = []) then Err (EMsg "seed node at index %d is empty") else
      wrap_err "invalid seed node at index %d '%s': %w" (validateAddress node) ;;
      validateSeeds nodes
  end.
Definition validateConfig (b : DHTBuilder) : result unit :=
  let c := db_config b in
  if negb (bc_validationEnabled c) then Ok tt else
  if negb (IsValidPortRange (bc_port c)) then Err (EMsg "DHT port must be between 0 and 65535, got %d") else
  if negb (IsValidNonZeroPortRange (bc_peerProtocolPort c))
  then Err (EMsg "peer protocol port must be between 1 and 65535, got %d") else
  if negb (IsValidPortRange (bc_rpcPort c)) then Err (EMsg "RPC port must be between 0 and 65535, got %d") else
  if bc_reannounceTime c <=? 0 then Err (EMsg "reannounce time must be positive, got %v") else
  if bc_announceRate c <=? 0 then Err (EMsg "announce rate must be positive, got %d") else
  (if bool_decide (bc_address c = []) then Ok tt
   else wrap_err "invalid DHT address: %w" (validateAddress (bc_address c))) ;;
  validateSeeds (bc_seedNodes c).

(** ** Building *)

Definition getEffectiveAddress (b : DHTBuilder) : bytes :=
  match bc_address (db_config b) with
  | [] => JoinHostPort (extractDHTHost DefaultDHTAddress) (Itoa (bc_port (db_config b)))
  | address => address
  end.

Definition buildProtocolOptions (b : DHTBuilder) : list DHTOption :=
  let c := db_config b in
  match getEffectiveAddress b with [] => [] | address => [WithDHTAddress address] end
  ++ match bc_seedNodes c with [] => [] | nodes => [WithDHTSeedNodes nodes] end
  ++ match bc_nodeID c with [] => [] | id => [WithDHTNodeID id] end
  ++ [WithDHTPeerProtocolPort (bc_peerProtocolPort c); WithDHTRPCPort (bc_rpcPort c);
      WithDHTReannounceTime (bc_reannounceTime c); WithDHTAnnounceRate (bc_announceRate c)]
  ++ match bc_watchdog c with Some w => [WithDHTWatchdog (Some w)] | None => [] end.

Definition allOptions (b : DHTBuilder) : list (option DHTOption) := map Some (buildProtocolOptions b ++ db_options b).

Definition BuildNode (now : Z) (b : DHTBuilder) : result Node :=
  wrap_err "DHT configuration validation failed: %w" (validateConfig b) ;;
  NewDHTNode now (allOptions b).

Definition BuildConfig (b : DHTBuilder) : result DHTConfig :=
  wrap_err "DHT configuration validation failed: %w" (validateConfig b) ;;
  let c := db_config b in
  applyDHTOptions (allOptions b)
    (mkDHTConfig (getEffectiveAddress b) (bc_seedNodes c) (bc_nodeID c) (bc_peerProtocolPort c) (bc_rpcPort c)
       (bc_reannounceTime c) (bc_announceRate c) (bc_watchdog c) false).
End Builder.

(** ** Every sequence of calls builds what it says *)

Section Calls.
Context `{D : DiscoveryLib}.

Inductive builderCall :=
  | CallPort (port : Z) | CallAddress (address : bytes) | CallSeedNodes (nodes : option (list bytes)) | CallNodeID (id : bytes)
  | CallPeerPort (port : Z) | CallRPCPort (port : Z) | CallReannounce (interval : Z) | CallRate (rate : Z)
  | CallWatchdog (watchdog : option Watchdog) | CallValidation (enabled : bool) | CallOptions (options : list (option DHTOption))
  | CallCopy.

Definition runCall (b : DHTBuilder) (call : builderCall) : DHTBuilder :=
  match call with
  | CallPort port => WithPort port b
  | CallAddress address => WithAddress address b
  | CallSeedNodes nodes => WithSeedNodes nodes b
  | CallNodeID id => WithNodeID id b
  | CallPeerPort port => WithPeerProtocolPort port b
  | CallRPCPort port => WithRPCPort port b
  | CallReannounce interval => WithReannounceTime interval b
  | CallRate rate => WithAnnounceRate rate b
  | CallWatchdog watchdog => WithWatchdog watchdog b
  | CallValidation enabled => WithValidation enabled b
  | CallOptions options => WithOptions options b
  | CallCopy => Copy b
  end.
Definition runCalls : DHTBuilder -> list builderCall -> DHTBuilder := foldl runCall.

Record goodSettings (c : dhtBuilderConfig) : Prop := {
  gs_port : IsValidPortRange (bc_port c) = true;
  gs_peer : IsValidNonZeroPortRange (bc_peerProtocolPort c) = true;
  gs_rpc : IsValidPortRange (bc_rpcPort c) = true;
  gs_time : 0 < bc_reannounceTime c;
  gs_rate : 0 < bc_announceRate c;
  gs_address : bc_address c = [] \/ validateAddress (bc_address c) = Ok tt;
  gs_seeds : Forall (fun node => validNode node = true) (bc_seedNodes c)
}.

Lemma is_ok_unit (r : result unit) : is_ok r = true -> r = Ok tt.
Proof. by destruct r as [[]| |]. Qed.

Lemma default_seeds_valid : Forall (fun node => validNode node = true) DefaultSeedNodes.
Proof.
  repeat constructor; unfold validNode, validateAddress;
    match goal with |- context [SplitHostPort ?a] => let r := eval vm_compute in (SplitHostPort a) in change (SplitHostPort a) with r end;
    cbn [mbind result_bind wrap_err fst snd];
    match goal with |- context [ParseInt ?a] => let r := eval vm_compute in (ParseInt a) in change (ParseInt a) with r end;
    cbn [mbind result_bind wrap_err];
    match goal with |- context [ParseIP ?h] => destruct (ParseIP h); [by vm_compute|] end; by vm_compute.
Qed.

Lemma NewDHTBuilder_ok : exists b, NewDHTBuilder = Ok b /\ goodSettings (db_config b) /\ db_options b = [].
Proof.
  eexists. split; [reflexivity|]. split; [|done]. split; cbn [db_config bc_seedNodes]; first [done|by left|apply default_seeds_valid].
Qed.

Lemma runCall_good call b : goodSettings (db_config b) -> goodSettings (db_config (runCall b call)).
Proof.
  intros [H1 H2 H3 H4 H5 H6 H7]. destruct call; cbn [runCall].
  - unfold WithPort. destruct (IsValidPortRange port) eqn:E; by split.
  - unfold WithAddress. case_bool_decide; [by split|]. destruct (validateAddress address) as [[]| |] eqn:E; split; try done. by right.
  - split; try done. cbn. apply Forall_forall. intros x Hx. apply list_elem_of_In, filter_In in Hx. apply Hx.
  - by split.
  - unfold WithPeerProtocolPort. destruct (IsValidNonZeroPortRange port) eqn:E; by split.
  - unfold WithRPCPort. destruct (IsValidPortRange port) eqn:E; by split.
  - unfold WithReannounceTime. destruct (Z.leb_spec interval 0); by split.
  - unfold WithAnnounceRate. destruct (Z.leb_spec rate 0); by split.
  - by split.
  - by split.
  - by split.
  - by split.
Qed.

Lemma runCalls_good calls b : goodSettings (db_config b) -> goodSettings (db_config (runCalls b calls)).
Proof. revert b. induction calls as [|c calls IH]; intros b G; [done|]. apply IH. by apply runCall_good. Qed.

Lemma validateSeeds_good nodes : Forall (fun node => validNode node = true) nodes -> validateSeeds nodes = Ok tt.
Proof.
  induction 1 as [|node nodes Hn _ IH]; [done|]. cbn [validateSeeds]. unfold validNode in Hn.
  apply andb_true_iff in Hn as [Hne Hok]. apply negb_true_iff in Hne. rewrite Hne, (is_ok_unit _ Hok). exact IH.
Qed.

Lemma validateConfig_good b : goodSettings (db_config b) -> validateConfig b = Ok tt.
Proof.
  intros [H1 H2 H3 H4 H5 H6 H7]. unfold validateConfig. destruct (bc_validationEnabled _); [|done]. cbn [negb].
  rewrite H1, H2, H3. cbn [negb]. rewrite (proj2 (Z.leb_gt _ _) H4), (proj2 (Z.leb_gt _ _) H5).
  assert (E : (if bool_decide (bc_address (db_config b) = []) then Ok tt
     else wrap_err "invalid DHT address: %w" (validateAddress (bc_address (db_config b)))) = Ok tt).
  { case_bool_decide as Ea; [done|]. destruct H6 as [?| ->]; done. }
  rewrite E. by apply validateSeeds_good.
Qed.

(** *** Applying the options *)

Definition validRest (c : DHTConfig) : Prop :=
  IsValidNonZeroPortRange (dc_PeerProtocolPort c) = true /\ IsValidPortRange (dc_RPCPort c) = true
  /\ 0 < dc_ReannounceTime c /\ 0 < dc_AnnounceRate c.

Lemma checked_ok c : validRest c -> checked c = Ok c.
Proof.
  intros (H1 & H2 & H3 & H4). unfold checked, validateDHTConfigIfNeeded, validateDHTConfig. rewrite H1, H2. cbn [negb].
  rewrite (proj2 (Z.ltb_ge _ _)) by lia. rewrite (proj2 (Z.ltb_ge _ _)) by lia.
  case_bool_decide; cbn [negb andb]; [done|]. rewrite (proj2 (Z.leb_gt _ _) H3), (proj2 (Z.leb_gt _ _) H4).
  by destruct (_ || _).
Qed.

(** The configuration with the settings of a builder. *)
Definition settings (seeds : list bytes) (scan : bool) (b : DHTBuilder) : DHTConfig :=
  let c := db_config b in
  mkDHTConfig (getEffectiveAddress b) seeds (bc_nodeID c) (bc_peerProtocolPort c) (bc_rpcPort c) (bc_reannounceTime c)
    (bc_announceRate c) (bc_watchdog c) scan.
Definition seedsOr (seeds : list bytes) (b : DHTBuilder) : list bytes :=
  match bc_seedNodes (db_config b) with [] => seeds | nodes => nodes end.

Lemma getEffectiveAddress_cons b : exists c a, getEffectiveAddress b = c :: a.
Proof. unfold getEffectiveAddress. destruct (bc_address (db_config b)); by eexists _, _. Qed.

Lemma applyDHTOptions_nil c : applyDHTOptions [] c = Ok c.
Proof. done. Qed.

Lemma applyDHTOptions_app l1 l2 c : applyDHTOptions (l1 ++ l2) c = (applyDHTOptions l1 c ≫= applyDHTOptions l2).
Proof.
  revert c. induction l1 as [|o l1 IH]; intros c; [done|]. cbn [app]. rewrite !applyDHTOptions_cons.
  destruct (match o with Some f => f c | None => Ok c end); [apply IH|done..].
Qed.

(** The options of a builder put its settings in the place of any valid ones that name no
    node and no watchdog, or the same. *)
Lemma options_settings b c :
  goodSettings (db_config b) -> validRest c ->
  (dc_NodeID c = [] \/ dc_NodeID c = bc_nodeID (db_config b)) ->
  (dc_Watchdog c = None \/ dc_Watchdog c = bc_watchdog (db_config b)) ->
  applyDHTOptions (map Some (buildProtocolOptions b)) c
  = Ok (settings (seedsOr (dc_SeedNodes c) b) (dc_NetworkScanEnabled c) b).
Proof.
  intros [_ G2 G3 G4 G5 _ _] (H1 & H2 & H3 & H4) Hid Hwd. unfold buildProtocolOptions, settings, seedsOr.
  destruct (getEffectiveAddress_cons b) as (x & a & ->).
  rewrite !map_app, !applyDHTOptions_app. cbn [map]. rewrite applyDHTOptions_cons.
  unfold WithDHTAddress. rewrite checked_ok by (by split_and!). cbn [mbind result_bind].
  rewrite applyDHTOptions_nil. cbn [mbind result_bind].
  assert (E1 : forall c, applyDHTOptions (map Some match bc_seedNodes (db_config b) with [] => [] | nodes => [WithDHTSeedNodes nodes] end) c
    = Ok (mkDHTConfig (dc_Address c) match bc_seedNodes (db_config b) with [] => dc_SeedNodes c | nodes => nodes end (dc_NodeID c)
            (dc_PeerProtocolPort c) (dc_RPCPort c) (dc_ReannounceTime c) (dc_AnnounceRate c) (dc_Watchdog c) (dc_NetworkScanEnabled c))).
  { intros c0. destruct (bc_seedNodes (db_config b)); by destruct c0. }
  rewrite applyDHTOptions_app, E1. cbn [mbind result_bind].
  assert (E2 : forall c, dc_NodeID c = [] \/ dc_NodeID c = bc_nodeID (db_config b) ->
    applyDHTOptions (map Some match bc_nodeID (db_config b) with [] => [] | id => [WithDHTNodeID id] end) c
    = Ok (mkDHTConfig (dc_Address c) (dc_SeedNodes c) (bc_nodeID (db_config b)) (dc_PeerProtocolPort c) (dc_RPCPort c)
            (dc_ReannounceTime c) (dc_AnnounceRate c) (dc_Watchdog c) (dc_NetworkScanEnabled c))).
  { intros c0 Hc0. destruct (bc_nodeID (db_config b)); [|done]. destruct c0. cbn in *. by destruct Hc0 as [-> | ->]. }
  rewrite applyDHTOptions_app, E2 by done. cbn [mbind result_bind dc_Address dc_SeedNodes dc_PeerProtocolPort dc_RPCPort dc_ReannounceTime dc_AnnounceRate
    dc_Watchdog dc_NetworkScanEnabled].
  rewrite applyDHTOptions_app, !applyDHTOptions_cons.
  unfold WithDHTPeerProtocolPort, WithDHTRPCPort, WithDHTReannounceTime, WithDHTAnnounceRate.
  do 4 (rewrite checked_ok by (by split_and!); cbn [mbind result_bind]; rewrite ?applyDHTOptions_cons).
  rewrite applyDHTOptions_nil. cbn [mbind result_bind dc_Address dc_SeedNodes dc_NodeID dc_PeerProtocolPort dc_RPCPort dc_ReannounceTime
    dc_AnnounceRate dc_Watchdog dc_NetworkScanEnabled].
  destruct (bc_watchdog (db_config b)); [done|]. cbn. by destruct Hwd as [-> | ->].
Qed.

Lemma build_config_settings b :
  goodSettings (db_config b) ->
  BuildConfig b = applyDHTOptions (map Some (db_options b)) (settings (bc_seedNodes (db_config b)) false b).
Proof.
  intros G. unfold BuildConfig, allOptions. rewrite validateConfig_good by done. cbn [mbind result_bind wrap_err].
  rewrite map_app, applyDHTOptions_app, options_settings; [|done| |by right..].
  - cbn [mbind result_bind dc_SeedNodes dc_NetworkScanEnabled]. unfold seedsOr. by destruct (bc_seedNodes (db_config b)).
  - destruct G. by split_and!.
Qed.

Lemma new_node_settings now b :
  goodSettings (db_config b) ->
  (node ← NewDHTNode now (allOptions b); Ok (mn_config node))
  = applyDHTOptions (map Some (db_options b)) (settings (seedsOr DefaultSeedNodes b) false b).
Proof.
  intros G. unfold NewDHTNode, allOptions. rewrite map_app. change NewDHTConfig with (Ok (mkDHTConfig DefaultDHTAddress DefaultSeedNodes []
    DefaultDistributedPeerPortLegacy 0 (50 * Minute) 10 None false)). cbn [mbind result_bind].
  rewrite applyDHTOptions_app, options_settings; [|done|by split_and!|by left..]. cbn [mbind result_bind dc_SeedNodes dc_NetworkScanEnabled].
  destruct (applyDHTOptions _ _) as [c| |]; [|done..]. cbn [mbind result_bind]. by destruct (dc_Watchdog c).
Qed.

(** C17. A builder cannot be talked into a bad configuration: after any calls, with arguments
    of any kind, the settings pass the validation, whether it is switched on or off, and
    a node and a configuration are built with exactly these settings, changed by the
    advanced options alone; except that a node without seed nodes gets the default ones. *)
Theorem dht_builder_sound now calls :
  exists b0, NewDHTBuilder = Ok b0 /\
  let b := runCalls b0 calls in
  validateConfig (WithValidation true b) = Ok tt
  /\ BuildConfig b = applyDHTOptions (map Some (db_options b)) (settings (bc_seedNodes (db_config b)) false b)
  /\ (node ← BuildNode now b; Ok (mn_config node))
     = applyDHTOptions (map Some (db_options b)) (settings (seedsOr DefaultSeedNodes b) false b).
Proof.
  destruct NewDHTBuilder_ok as (b0 & E & G0 & _). exists b0. split; [done|]. cbv zeta. apply (runCalls_good calls) in G0.
  split_and!; [|by apply build_config_settings|].
  - apply validateConfig_good. by apply (runCall_good (CallValidation true)).
  - unfold BuildNode. rewrite validateConfig_good by done. by apply new_node_settings.
Qed.

(** A builder that was told to use no seed nodes builds a configuration without seed nodes
    but a node that joins through the default ones. *)
Theorem seedless_node_joins now :
  exists b0, NewDHTBuilder = Ok b0 /\
  let b := WithSeedNodes None b0 in
  exists c node, BuildConfig b = Ok c /\ dc_SeedNodes c = []
    /\ BuildNode now b = Ok node /\ dc_SeedNodes (mn_config node) = DefaultSeedNodes.
Proof.
  destruct NewDHTBuilder_ok as (b0 & E & G0 & Ho). exists b0. split; [done|]. cbv zeta.
  apply (runCall_good (CallSeedNodes None)) in G0. cbn [runCall] in G0. set (b := WithSeedNodes None b0) in *.
  pose proof (build_config_settings b G0) as E1. pose proof (new_node_settings now b G0) as E2.
  assert (Hb : db_options b = []) by done. rewrite Hb in E1, E2. cbn [map] in E1, E2. rewrite applyDHTOptions_nil in E1, E2.
  unfold BuildNode. rewrite validateConfig_good by done. cbn [wrap_err].
  destruct (NewDHTNode now (allOptions b)) as [node| |]; [|done..]. cbn [mbind result_bind] in E2. injection E2 as E2.
  eexists _, node. split_and!; [exact E1|done|done|by rewrite E2].
Qed.
End Calls.
