(* ===== verification/ServerBuilder.v ===== *)
(** * server/builder.go: the configuration of a server

    The fluent calls as functions on the builder, and [Build], which checks the builder and
    hands its parts to a server.  The map of configurations is shared with the servers that
    were built: a server starts with the entries it has at that time.  Loggers are left
    out; an option that is nil, also inside an interface, is [None]. *)
From stdpp Require Import base tactics list numbers strings gmap.
From Stdlib Require Import ZArith Lia Init.Byte.
From S2P Require Import Prelude GoStd Aes Blob Multihash Json SdBlob Encoder Errors Store GoNet Request Discovery Connection Transfer PeerServer.
From S2P Require Import StreamReader StreamAcquirer Watchdog DhtNode Manager Server DhtBuilder.
Local Open Scope Z_scope.

Definition DefaultDHTAnnouncerWorkers : Z := 10.
Definition DefaultDHTAnnouncementBatchSize : Z := 1000.

Section Builder.
Context `{D : DiscoveryLib} {St : Type}.

(** The factory of [WithAcquirerFactory], or the one of [WithDefaultAcquirer] with the
    options of its transfers. *)
Definition AcquirerFactory := option Node -> St -> result BlobAcquirer.
Inductive factory := GivenFactory (f : AcquirerFactory) | DefaultFactory (transferOptions : list TransferOption).

Record ServerBuilder := mkServerBuilder {
  sb_storage : option St;
  sb_acquirer : option BlobAcquirer;
  sb_acquirerFactory : option AcquirerFactory;
  sb_useDefaultAcquirer : bool;
  sb_accessControl : option AccessControl;
  sb_config : gmap bytes ServiceConfig;
  sb_dhtWorkers : Z;
  sb_dhtBatchSize : Z;
  sb_transferOptions : list TransferOption;
  sb_dhtBuilder : option DHTBuilder
}.

Definition NewServerBuilder : ServerBuilder :=
  mkServerBuilder None None None false None ∅ DefaultDHTAnnouncerWorkers DefaultDHTAnnouncementBatchSize [] None.

Definition setConfig (config : gmap bytes ServiceConfig) (b : ServerBuilder) : ServerBuilder :=
  mkServerBuilder (sb_storage b) (sb_acquirer b) (sb_acquirerFactory b) (sb_useDefaultAcquirer b) (sb_accessControl b) config
    (sb_dhtWorkers b) (sb_dhtBatchSize b) (sb_transferOptions b) (sb_dhtBuilder b).
Definition setDHTBuilder (d : DHTBuilder) (b : ServerBuilder) : ServerBuilder :=
  mkServerBuilder (sb_storage b) (sb_acquirer b) (sb_acquirerFactory b) (sb_useDefaultAcquirer b) (sb_accessControl b) (sb_config b)
    (sb_dhtWorkers b) (sb_dhtBatchSize b) (sb_transferOptions b) (Some d).

(** ** Setters *)

Definition WithStorage (store : option St) (b : ServerBuilder) : ServerBuilder :=
  mkServerBuilder store (sb_acquirer b) (sb_acquirerFactory b) (sb_useDefaultAcquirer b) (sb_accessControl b) (sb_config b)
    (sb_dhtWorkers b) (sb_dhtBatchSize b) (sb_transferOptions b) (sb_dhtBuilder b).
Definition WithAcquirer (acquirer : option BlobAcquirer) (b : ServerBuilder) : ServerBuilder :=
  mkServerBuilder (sb_storage b) acquirer (sb_acquirerFactory b) (sb_useDefaultAcquirer b) (sb_accessControl b) (sb_config b)
    (sb_dhtWorkers b) (sb_dhtBatchSize b) (sb_transferOptions b) (sb_dhtBuilder b).
Definition WithAcquirerFactory (f : option AcquirerFactory) (b : ServerBuilder) : ServerBuilder :=
  mkServerBuilder (sb_storage b) (sb_acquirer b) f (sb_useDefaultAcquirer b) (sb_accessControl b) (sb_config b)
    (sb_dhtWorkers b) (sb_dhtBatchSize b) (sb_transferOptions b) (sb_dhtBuilder b).
Definition WithDefaultAcquirer (b : ServerBuilder) : ServerBuilder :=
  mkServerBuilder (sb_storage b) (sb_acquirer b) (sb_acquirerFactory b) true (sb_accessControl b) (sb_config b)
    (sb_dhtWorkers b) (sb_dhtBatchSize b) (sb_transferOptions b) (sb_dhtBuilder b).
Definition WithAccessControl (ac : option AccessControl) (b : ServerBuilder) : ServerBuilder :=
  mkServerBuilder (sb_storage b) (sb_acquirer b) (sb_acquirerFactory b) (sb_useDefaultAcquirer b) ac (sb_config b)
    (sb_dhtWorkers b) (sb_dhtBatchSize b) (sb_transferOptions b) (sb_dhtBuilder b).
(** [addOptionsWithNilCheck] *)
Definition WithTransferOptions (options : list (option TransferOption)) (b : ServerBuilder) : ServerBuilder :=
  mkServerBuilder (sb_storage b) (sb_acquirer b) (sb_acquirerFactory b) (sb_useDefaultAcquirer b) (sb_accessControl b) (sb_config b)
    (sb_dhtWorkers b) (sb_dhtBatchSize b) (sb_transferOptions b ++ omap id options) (sb_dhtBuilder b).
Definition WithDHTWorkers (workers : Z) (b : ServerBuilder) : ServerBuilder :=
  mkServerBuilder (sb_storage b) (sb_acquirer b) (sb_acquirerFactory b) (sb_useDefaultAcquirer b) (sb_accessControl b) (sb_config b)
    (if workers <=? 0 then DefaultDHTAnnouncerWorkers else workers) (sb_dhtBatchSize b) (sb_transferOptions b) (sb_dhtBuilder b).
Definition WithDHTBatchSize (batchSize : Z) (b : ServerBuilder) : ServerBuilder :=
  mkServerBuilder (sb_storage b) (sb_acquirer b) (sb_acquirerFactory b) (sb_useDefaultAcquirer b) (sb_accessControl b) (sb_config b)
    (sb_dhtWorkers b) (if batchSize <=? 0 then DefaultDHTAnnouncementBatchSize else batchSize) (sb_transferOptions b) (sb_dhtBuilder b).

(** ** Protocols *)

Definition withProtocolConfig (protocolName : bytes) (defaultPort : Z) (port : list Z) (configFactory : Z -> ServiceConfig)
    (b : ServerBuilder) : ServerBuilder :=
  let p := match port with p :: _ => p | [] => defaultPort end in
  setConfig (<[protocolName := configFactory p]> (sb_config b)) b.

Definition WithPeer (port : list Z) (b : ServerBuilder) : ServerBuilder :=
  withProtocolConfig ProtocolPeer DefaultPeerPort port (fun p => CPeer (mkPeerConfig p 0)) b.

Definition WithReflector (port : list Z) (b : ServerBuilder) : ServerBuilder :=
  let existingStore := match sb_config b !! ProtocolReflector with Some (CReflector c) => rr_Store c | _ => false end in
  withProtocolConfig ProtocolReflector DefaultReflectorPort port (fun p => CReflector (mkReflectorConfig p existingStore)) b.
Definition WithReflectorStore (store : bool) (b : ServerBuilder) : ServerBuilder :=
  let port := match sb_config b !! ProtocolReflector with Some (CReflector c) => rr_Port c | _ => DefaultReflectorPort end in
  setConfig (<[ProtocolReflector := CReflector (mkReflectorConfig port store)]> (sb_config b)) b.

Definition getOrCreatePeerConfig (b : ServerBuilder) : PeerConfig :=
  match sb_config b !! ProtocolPeer with Some (CPeer c) => c | _ => mkPeerConfig DefaultPeerPort 0 end.
Definition WithFixedPeerPort (port : Z) (b : ServerBuilder) : ServerBuilder :=
  setConfig (<[ProtocolPeer := CPeer (mkPeerConfig (pr_Port (getOrCreatePeerConfig b)) port)]> (sb_config b)) b.

(** ** DHT *)

Definition getOrCreateDHTBuilder (b : ServerBuilder) : result DHTBuilder :=
  match sb_dhtBuilder b with
  | Some d => Ok d
  | None => wrap_err "failed to create DHTBuilder: %w" NewDHTBuilder
  end.
(** Whether [WithExistingDHT] was used. *)
Definition hasExistingDHT (b : ServerBuilder) : bool :=
  match sb_config b !! ProtocolDHT with Some CExisting => true | _ => false end.
(** A change of the DHT builder; a builder that cannot be created is only logged. *)
Definition onDHTBuilder (f : DHTBuilder -> DHTBuilder) (b : ServerBuilder) : ServerBuilder :=
  match getOrCreateDHTBuilder b with Ok d => setDHTBuilder (f d) b | _ => b end.

Definition WithDHT (port : list Z) (b : ServerBuilder) : ServerBuilder :=
  if hasExistingDHT b then b else
  let p := match port with p :: _ => p | [] => DefaultDHTPort end in
  match getOrCreateDHTBuilder b with
  | Ok d =>
      let d := WithPort p d in
      setConfig (<[ProtocolDHT := CDHT (mkDHTServerConfig p [] (bc_seedNodes (db_config d)))]> (sb_config b)) (setDHTBuilder d b)
  | _ => b
  end.
Definition WithServerDHTAddress (address : bytes) (b : ServerBuilder) : ServerBuilder :=
  if hasExistingDHT b then b else
  match getOrCreateDHTBuilder b with
  | Ok d =>
      let b := setDHTBuilder (WithAddress address d) b in
      match sb_config b !! ProtocolDHT with
      | Some (CDHT c) =>
          setConfig (<[ProtocolDHT := CDHT (mkDHTServerConfig (dr_Port c) address (dr_SeedNodes c))]> (sb_config b)) b
      | _ => b
      end
  | _ => b
  end.
Definition WithDHTOptions (options : list (option DHTOption)) (b : ServerBuilder) : ServerBuilder :=
  if hasExistingDHT b then b else onDHTBuilder (WithOptions options) b.
(** A nil node is a value of no known type. *)
Definition WithExistingDHT (dhtNode : bool) (b : ServerBuilder) : ServerBuilder :=
  setConfig (<[ProtocolDHT := if dhtNode then CExisting else COther]> (sb_config b)) b.

(** ** Transfers *)

(** A failing option is only logged. *)
Definition applyTransferOptions (transferOptions : list TransferOption) (pt : PeerTransfer) : PeerTransfer :=
  foldl (fun pt option => match Apply option (APeerTransfer pt) with Ok (APeerTransfer pt') => pt' | _ => pt end) pt transferOptions.
Definition createDefaultTransfers (dhtNode : bool) (transferOptions : list TransferOption) : result (list PeerTransfer) :=
  if negb dhtNode then Ok [] else
  peerTransfer ← wrap_err "failed to create peer transfer: %w" (NewPeerTransfer dhtNode (Some tt) []);
  Ok [StartTransfer (applyTransferOptions transferOptions peerTransfer)].

(** ** Build *)

(** [DefaultServer], as far as it is set here. *)
Record Built := mkBuilt {
  bt_storage : St;
  bt_acquirer : option BlobAcquirer;
  bt_accessControl : AccessControl;
  bt_config : gmap bytes ServiceConfig;
  bt_dhtWorkers : Z;
  bt_dhtBatchSize : Z;
  bt_dhtOptions : list (option DHTOption);
  bt_acquirerFactory : option factory
}.

Definition processDHTBuilder (d : DHTBuilder) (b : ServerBuilder) : result (list (option DHTOption) * ServerBuilder) :=
  if negb (IsConfigured d) then Ok ([], b) else
  match BuildConfig d with
  | Err _ => Ok ([], b)
  | Panic w => Panic w
  | Ok _ =>
      let c := db_config d in
      Ok (map Some (buildProtocolOptions d ++ db_options d),
          setConfig (<[ProtocolDHT := CDHT (mkDHTServerConfig (bc_port c) (bc_address c) (bc_seedNodes c))]> (sb_config b)) b)
  end.

Definition checkProtocols (b : ServerBuilder) : result St :=
  match sb_storage b with
  | None => Err (EMsg "storage is required")
  | Some store =>
      if bool_decide (sb_config b = ∅) then Err (EMsg "at least one protocol must be configured") else Ok store
  end.
Definition checkAcquirer (b : ServerBuilder) : result unit :=
  match sb_acquirer b, sb_acquirerFactory b, sb_useDefaultAcquirer b with
  | Some _, Some _, _ => Err (EMsg "cannot specify both acquirer and acquirer factory")
  | Some _, None, true => Err (EMsg "cannot specify both acquirer and default acquirer")
  | None, Some _, true => Err (EMsg "cannot specify both acquirer factory and default acquirer")
  | _, _, _ => Ok tt
  end.
Definition dhtOptionsOf (b : ServerBuilder) : result (list (option DHTOption) * ServerBuilder) :=
  match sb_dhtBuilder b with
  | None => Ok ([], b)
  | Some d => if hasExistingDHT b then Ok ([], b) else processDHTBuilder d b
  end.

Definition Build (b : ServerBuilder) : result Built * ServerBuilder :=
  match checkProtocols b with
  | Err e => (Err e, b)
  | Panic w => (Panic w, b)
  | Ok store =>
      let accessControl := default AllowAllAccess (sb_accessControl b) in
      let b := WithAccessControl (Some accessControl) b in
      match checkAcquirer b ;; dhtOptionsOf b with
      | Err e => (Err e, b)
      | Panic w => (Panic w, b)
      | Ok (dhtOptions, b) =>
          (Ok (mkBuilt store (sb_acquirer b) accessControl (sb_config b) (sb_dhtWorkers b) (sb_dhtBatchSize b) dhtOptions
                 (if sb_useDefaultAcquirer b then Some (DefaultFactory (sb_transferOptions b))
                  else GivenFactory <$> sb_acquirerFactory b)), b)
      end
  end.

(** ** Presets *)

Definition baseMemoryBuilder (newMemoryStore : St) : ServerBuilder :=
  WithAccessControl (Some AllowAllAccess) (WithStorage (Some newMemoryStore) NewServerBuilder).
Definition DevelopmentBuilder (newMemoryStore : St) : ServerBuilder := WithPeer [] (baseMemoryBuilder newMemoryStore).
Definition PeerOnlyBuilder (newMemoryStore : St) (port : list Z) : ServerBuilder := WithPeer port (baseMemoryBuilder newMemoryStore).
Definition ReflectorOnlyBuilder (newMemoryStore : St) (port : list Z) : ServerBuilder :=
  WithReflector port (baseMemoryBuilder newMemoryStore).
Definition AllProtocolsBuilder (newMemoryStore : St) (peerPort reflectorPort dhtPort : Z) : ServerBuilder :=
  WithDHT [dhtPort] (WithReflector [reflectorPort] (WithPeer [peerPort] (baseMemoryBuilder newMemoryStore))).
(** [createStore]: what the factory of disk stores returns for the path. *)
Definition ProductionBuilderWithAccess (createStore : result St) (accessControl : option AccessControl) : result ServerBuilder :=
  store ← createStore;
  Ok (WithReflector [] (WithPeer [] (WithAccessControl accessControl (WithStorage (Some store) NewServerBuilder)))).
Definition ProductionBuilder (createStore : result St) : result ServerBuilder :=
  ProductionBuilderWithAccess createStore (Some AllowAllAccess).
End Builder.
