(* ===== verification/ServerBuilderSpec.v ===== *)
(** * Servers that come out of the builder

    Whatever calls are made on a builder, what it builds is well formed and starts, unless
    the DHT is to announce a port above 65535; which
    settings reach the DHT node, and which do not. *)
From stdpp Require Import base tactics list numbers strings gmap.
From Stdlib Require Import ZArith Lia Init.Byte.
From S2P Require Import Prelude GoStd Aes Blob Multihash Json SdBlob Encoder Errors Store GoNet Request Discovery Connection Transfer PeerServer.
From S2P Require Import StreamReader StreamAcquirer Watchdog DhtNode Manager Server ServerSpec DhtBuilder ServerBuilder.
Local Open Scope Z_scope.

Section Built.
Context `{D : DiscoveryLib} {St : Type}.

(** The calls on a builder; an existing node is one that is not nil, and [SDHTBuilder] are
    calls on what [DHTBuilder] returns. *)
Inductive serverCall :=
  | SStorage (store : option St) | SAcquirer (a : option BlobAcquirer) | SFactory (f : option (@AcquirerFactory St)) | SDefaultAcquirer
  | SAccessControl (ac : option AccessControl) | STransferOptions (options : list (option TransferOption)) | SWorkers (n : Z)
  | SBatchSize (n : Z) | SPeer (port : list Z) | SReflector (port : list Z) | SReflectorStore (store : bool) | SFixedPeerPort (port : Z)
  | SDHT (port : list Z) | SDHTAddress (address : bytes) | SDHTOptions (options : list (option DHTOption)) | SExistingDHT
  | SDHTBuilder (calls : list builderCall).

Definition runServerCall (b : @ServerBuilder St) (call : serverCall) : @ServerBuilder St :=
  match call with
  | SStorage store => WithStorage store b
  | SAcquirer a => WithAcquirer a b
  | SFactory f => WithAcquirerFactory f b
  | SDefaultAcquirer => WithDefaultAcquirer b
  | SAccessControl ac => WithAccessControl ac b
  | STransferOptions options => WithTransferOptions options b
  | SWorkers n => WithDHTWorkers n b
  | SBatchSize n => WithDHTBatchSize n b
  | SPeer port => WithPeer port b
  | SReflector port => WithReflector port b
  | SReflectorStore store => WithReflectorStore store b
  | SFixedPeerPort port => WithFixedPeerPort port b
  | SDHT port => WithDHT port b
  | SDHTAddress address => WithServerDHTAddress address b
  | SDHTOptions options => WithDHTOptions options b
  | SExistingDHT => WithExistingDHT true b
  | SDHTBuilder calls => onDHTBuilder (fun d => runCalls d calls) b
  end.
Definition runServerCalls : list serverCall -> @ServerBuilder St := foldl runServerCall NewServerBuilder.

(** Every entry is of the type the server expects under its name. *)
Definition typedEntry (name : bytes) (c : ServiceConfig) : Prop :=
  match c with
  | CPeer _ => name = ProtocolPeer
  | CReflector _ => name = ProtocolReflector
  | CDHT _ | CExisting => name = ProtocolDHT
  | COther => False
  end.

Record goodBuilder (b : @ServerBuilder St) : Prop := {
  gb_typed : map_Forall typedEntry (sb_config b);
  gb_dht d : sb_dhtBuilder b = Some d -> goodSettings (db_config d);
  gb_workers : 0 < sb_dhtWorkers b;
  gb_batch : 0 < sb_dhtBatchSize b
}.

Lemma getOrCreate_good b : goodBuilder b -> exists d, getOrCreateDHTBuilder b = Ok d /\ goodSettings (db_config d).
Proof.
  intros G. unfold getOrCreateDHTBuilder. destruct (sb_dhtBuilder b) as [d|] eqn:E; [exists d; split; [done|by apply (gb_dht b G)]|].
  destruct NewDHTBuilder_ok as (d & -> & Gd & _). by exists d.
Qed.

Lemma good_entry b name c : goodBuilder b -> typedEntry name c -> goodBuilder (setConfig (<[name := c]> (sb_config b)) b).
Proof. intros [H1 H2 H3 H4] Ht. split; try done. cbn. by apply map_Forall_insert_2. Qed.

Lemma good_dht b d : goodBuilder b -> goodSettings (db_config d) -> goodBuilder (setDHTBuilder d b).
Proof. intros [H1 H2 H3 H4] Hd. split; try done. cbn. by intros ? [= <-]. Qed.

Lemma runServerCall_good call b : goodBuilder b -> goodBuilder (runServerCall b call).
Proof.
  intros G. destruct (getOrCreate_good b G) as (d & Ed & Gd). destruct call; cbn [runServerCall]; try (by destruct G).
  - destruct G. split; try done. cbn. unfold DefaultDHTAnnouncerWorkers. destruct (Z.leb_spec n 0); lia.
  - destruct G. split; try done. cbn. unfold DefaultDHTAnnouncementBatchSize. destruct (Z.leb_spec n 0); lia.
  - by apply good_entry.
  - by apply good_entry.
  - by apply good_entry.
  - by apply good_entry.
  - unfold WithDHT. destruct (hasExistingDHT b); [done|]. rewrite Ed. apply (good_entry (setDHTBuilder _ b)); [|done]. apply good_dht; [done|].
    by apply (runCall_good (CallPort _)).
  - unfold WithServerDHTAddress. destruct (hasExistingDHT b); [done|]. rewrite Ed. cbv zeta.
    assert (Gb : goodBuilder (setDHTBuilder (WithAddress address d) b)) by (apply good_dht; [done|by apply (runCall_good (CallAddress _))]).
    destruct (_ !! ProtocolDHT) as [[]|]; try done. by apply good_entry.
  - unfold WithDHTOptions. destruct (hasExistingDHT b); [done|]. unfold onDHTBuilder. rewrite Ed. apply good_dht; [done|].
    by apply (runCall_good (CallOptions _)).
  - by apply good_entry.
  - unfold onDHTBuilder. rewrite Ed. apply good_dht; [done|]. by apply runCalls_good.
Qed.

Lemma runServerCalls_good calls : goodBuilder (runServerCalls calls).
Proof.
  unfold runServerCalls. assert (G : goodBuilder (@NewServerBuilder St)) by (split; cbn; [apply map_Forall_empty|done..]). revert G.
  generalize (@NewServerBuilder St). induction calls as [|c calls IH]; intros b G; [done|]. apply IH. by apply runServerCall_good.
Qed.

(** *** What a build makes of a good builder *)

(** No advanced options, which are arbitrary functions. *)
Definition plainDHT (b : @ServerBuilder St) : Prop := forall d, sb_dhtBuilder b = Some d -> db_options d = [].

(** The options a server gets put the builder's settings in their place, or are empty. *)
Definition optionsOf (b : @ServerBuilder St) (options : list (option DHTOption)) : Prop :=
  options = [] \/ exists d, sb_dhtBuilder b = Some d /\ options = map Some (buildProtocolOptions d).

Lemma dhtOptionsOf_good b :
  goodBuilder b -> plainDHT b ->
  exists options b', dhtOptionsOf b = Ok (options, b') /\ goodBuilder b' /\ optionsOf b options.
Proof.
  intros G Hp. unfold dhtOptionsOf. destruct (sb_dhtBuilder b) as [d|] eqn:E; [|by eexists _, _; split_and!; [done..|left]].
  destruct (hasExistingDHT b); [by eexists _, _; split_and!; [done..|left]|]. unfold processDHTBuilder.
  destruct (IsConfigured d); [|by eexists _, _; split_and!; [done..|left]]. cbn [negb].
  rewrite build_config_settings by (by apply (gb_dht b G)). rewrite (Hp d E). cbn [map]. rewrite applyDHTOptions_nil.
  eexists _, _. split; [reflexivity|]. split; [by apply good_entry|]. right. exists d. by rewrite app_nil_r.
Qed.

(** When a builder builds, and what. *)
Lemma build_good b :
  goodBuilder b -> plainDHT b ->
  match Build b with
  | (Ok srv, b') =>
      sb_storage b = Some (bt_storage srv) /\ sb_config b <> ∅ /\ map_Forall typedEntry (bt_config srv) /\ bt_config srv = sb_config b'
      /\ optionsOf b (bt_dhtOptions srv) /\ 0 < bt_dhtWorkers srv /\ 0 < bt_dhtBatchSize srv
  | (Err _, _) => sb_storage b = None \/ sb_config b = ∅ \/ checkAcquirer b <> Ok tt
  | (Panic _, _) => False
  end.
Proof.
  intros G Hp. unfold Build, checkProtocols. destruct (sb_storage b) as [store|] eqn:Es; [|by left].
  case_bool_decide as Ec; [by right; left|]. set (b1 := WithAccessControl _ b).
  assert (G1 : goodBuilder b1) by (destruct G; by split).
  change (checkAcquirer b1) with (checkAcquirer b). destruct (checkAcquirer b) as [[]|e|w] eqn:Ea; [|by right; right|].
  - destruct (dhtOptionsOf_good b1 G1 Hp) as (options & b' & E & G' & Ho). cbn [mbind result_bind]. rewrite E.
    destruct G' as [T _ W B]. by split_and!.
  - unfold checkAcquirer in Ea. by destruct (sb_acquirer b), (sb_acquirerFactory b), (sb_useDefaultAcquirer b).
Qed.

(** *** Creating the node *)

Section Starts.
Context (ctx : Context) (explored : result (list Contact)) (now : Z).

Lemma crawl_config contacts k w : mn_config (crawlContacts ctx k contacts w).2 = mn_config w.
Proof.
  revert k w. induction contacts as [|c contacts IH]; intros k w; [done|]. cbn [crawlContacts].
  destruct (ctxErr ctx k); [|done..]. rewrite IH. unfold AddContact. by destruct (isActive w).
Qed.

Lemma start_node_ok w :
  mn_stopped w = false -> exists w', StartNode None ctx explored w = (Ok tt, w') /\ mn_config w' = mn_config w.
Proof.
  intros Hs. unfold StartNode. rewrite Hs. eexists. split; [reflexivity|]. unfold startCrawler.
  destruct (negb _); [done|]. unfold Crawler_Run. destruct (ctxErr ctx 0); [|done..].
  destruct (ExploreKeyspace _ _); [|done..]. by rewrite crawl_config.
Qed.

(** The options of the server, before those of the builder. *)
Lemma server_options_ok config port c :
  IsValidNonZeroPortRange port = true -> validRest c ->
  exists c', applyDHTOptions (dhtNodeOptions [] config port) c = Ok c' /\ validRest c'
    /\ dc_NodeID c' = dc_NodeID c /\ dc_Watchdog c' = dc_Watchdog c /\ dc_PeerProtocolPort c' = port.
Proof.
  intros Hp (H1 & H2 & H3 & H4). unfold dhtNodeOptions. cbn [app]. rewrite !applyDHTOptions_cons.
  unfold WithDHTAddress, WithDHTPeerProtocolPort. rewrite checked_ok by (by split_and!). cbn [mbind result_bind].
  rewrite applyDHTOptions_cons, checked_ok by (by split_and!). cbn [mbind result_bind].
  destruct (dr_SeedNodes config); eexists; (split; [reflexivity|]); by split_and!.
Qed.

Lemma create_node_ok b options config port :
  goodBuilder b -> optionsOf b options -> IsValidNonZeroPortRange port = true ->
  exists node, createDHTNode options None ctx explored now config port = Ok node
    /\ dc_PeerProtocolPort (mn_config node)
       = match sb_dhtBuilder b, options with Some d, _ :: _ => bc_peerProtocolPort (db_config d) | _, _ => port end.
Proof.
  intros G Ho Hp. unfold createDHTNode, NewDHTNode.
  change NewDHTConfig with (Ok (mkDHTConfig DefaultDHTAddress DefaultSeedNodes []
    DefaultDistributedPeerPortLegacy 0 (50 * Minute) 10 None false)). cbn [mbind result_bind].
  destruct (server_options_ok config port (mkDHTConfig DefaultDHTAddress DefaultSeedNodes [] DefaultDistributedPeerPortLegacy 0 (50 * Minute) 10
    None false) Hp ltac:(by split_and!)) as (c & Ec & Hv & Hid & Hwd & Hpp).
  assert (Happ : dhtNodeOptions options config port = dhtNodeOptions [] config port ++ options).
  { unfold dhtNodeOptions. by rewrite app_nil_r, <- !app_assoc. }
  rewrite Happ, applyDHTOptions_app, Ec. cbn [mbind result_bind].
  assert (Hopt : exists c', applyDHTOptions options c = Ok c' /\ dc_PeerProtocolPort c'
    = match sb_dhtBuilder b, options with Some d, _ :: _ => bc_peerProtocolPort (db_config d) | _, _ => port end).
  { destruct Ho as [->|(d & Ed & ->)]; [exists c; by destruct (sb_dhtBuilder b)|]. rewrite Ed.
    eexists. split; [apply options_settings; [by apply (gb_dht b G)|done|by left|by left]|].
    unfold buildProtocolOptions. by destruct (getEffectiveAddress_cons d) as (x & a & ->). }
  destruct Hopt as (c' & -> & Hpp'). cbn [mbind result_bind].
  destruct (dc_Watchdog c'); cbn [mbind result_bind wrap_err];
    match goal with |- context [StartNode None ctx explored ?n] => destruct (start_node_ok n eq_refl) as (w' & -> & Ew) end;
    exists w'; rewrite Ew; done.
Qed.

(** A port that is none makes the options of the node panic. *)
Definition badPeerPort : string := "peer protocol port must be between 1 and 65535, got %d".

Lemma create_node_panics options nodeStarts config port :
  65535 < port -> createDHTNode options nodeStarts ctx explored now config port = Panic badPeerPort.
Proof.
  intros Hp. assert (Hnz : IsValidNonZeroPortRange port = false)
    by (unfold IsValidNonZeroPortRange; rewrite (proj2 (Z.leb_gt port 65535)) by lia; apply andb_false_r).
  unfold createDHTNode, NewDHTNode. change NewDHTConfig with (Ok (mkDHTConfig DefaultDHTAddress DefaultSeedNodes []
    DefaultDistributedPeerPortLegacy 0 (50 * Minute) 10 None false)). cbn [mbind result_bind].
  unfold dhtNodeOptions. cbn [app]. rewrite applyDHTOptions_cons. unfold WithDHTAddress. rewrite checked_ok by (by split_and!).
  cbn [mbind result_bind]. rewrite applyDHTOptions_cons. unfold WithDHTPeerProtocolPort, checked, validateDHTConfigIfNeeded.
  cbn [dc_PeerProtocolPort]. by rewrite Hnz.
Qed.

(** *** Starting the services *)

Context (listen : nat -> Z -> option error) (listens : forall i port, listen i port = None).

Definition sameNodes (s s' : Live) : Prop := li_dht s' = li_dht s /\ li_existing s' = li_existing s.

Lemma tcp_starts name port s : exists s', startTCPProtocol listen name port s = (Ok tt, s') /\ sameNodes s s'.
Proof. unfold startTCPProtocol. rewrite listens. by eexists. Qed.

Lemma tcp_services options peer name c s :
  typedEntry name c -> name <> ProtocolDHT ->
  exists s', startService listen options None ctx explored now peer name c s = (Ok tt, s') /\ sameNodes s s'.
Proof.
  intros Ht Hn. unfold startService. destruct c as [c|c|c| |]; cbn [typedEntry] in Ht; try done; subst name.
  - rewrite bool_decide_eq_true_2 by done. unfold startPeer. destruct (tcp_starts ProtocolPeer (pr_Port c) s) as (s1 & -> & E1).
    destruct (_ && _); [|by exists s1]. destruct (tcp_starts fixedProtocolName (pr_FixedPort c) s1) as (s2 & -> & E2).
    exists s2. split; [done|]. destruct E1, E2. split; congruence.
  - rewrite bool_decide_eq_false_2, bool_decide_eq_true_2 by done. unfold startReflector. apply tcp_starts.
Qed.

Lemma announced_positive peer port : 1 <= announcePeerPort peer port.
Proof.
  unfold announcePeerPort, DefaultPeerPort. destruct peer as [c|].
  - destruct (Z.ltb_spec 0 (pr_FixedPort c)); [lia|]. destruct (Z.ltb_spec 0 (pr_Port c)); [lia|].
    destruct (Z.ltb_spec 0 port); lia.
  - cbn. destruct (Z.ltb_spec 0 port); lia.
Qed.

Lemma dht_starts b options peer c s :
  goodBuilder b -> optionsOf b options -> typedEntry ProtocolDHT c -> li_dht s = None ->
  (c = CExisting -> mn_stopped (li_existing s) = false) ->
  (forall d, c = CDHT d -> announcePeerPort peer (dr_Port d) <= 65535) ->
  exists s', startService listen options None ctx explored now peer ProtocolDHT c s = (Ok tt, s').
Proof.
  intros G Ho Ht Hd Hs Hp. unfold startService. rewrite !bool_decide_eq_false_2 by done.
  destruct c as [c|c|c| |]; cbn [typedEntry] in Ht; try done.
  - unfold startDHT, setupDHTNode. rewrite Hd. destruct (create_node_ok b options c (announcePeerPort peer (dr_Port c)) G Ho) as (node & -> & _); [|by eexists].
    specialize (Hp c eq_refl). unfold IsValidNonZeroPortRange. apply andb_true_iff. rewrite !Z.leb_le. split; [|done].
    apply announced_positive.
  - unfold setupExistingDHTNode. cbn [nodeAt]. destruct (start_node_ok (li_existing s) (Hs eq_refl)) as (w' & -> & _). by eexists.
Qed.

Lemma services_start b options peer stopErr handlersEnd order s :
  goodBuilder b -> optionsOf b options -> Forall (fun p => typedEntry p.1 p.2) order -> NoDup order.*1 ->
  (li_dht s = None \/ ProtocolDHT ∉ order.*1) -> ((ProtocolDHT, CExisting) ∈ order -> mn_stopped (li_existing s) = false) ->
  (forall d, (ProtocolDHT, CDHT d) ∈ order -> announcePeerPort peer (dr_Port d) <= 65535) ->
  exists s', startServices listen options None ctx explored now peer stopErr handlersEnd order s = (Ok tt, s').
Proof.
  intros G Ho. revert s. induction order as [|[name c] order IH]; intros s Ht Hd Hdht Hex Hp; [by eexists|]. cbn [startServices].
  apply Forall_cons in Ht as [Ht Hts]. cbn [fst snd] in Ht. cbn in Hd, Hdht. apply NoDup_cons in Hd as [Hnot Hd].
  assert (Hk : knownProtocol name = true) by (destruct c; cbn in Ht; (done || by subst name)). rewrite Hk. cbn [negb].
  destruct (decide (name = ProtocolDHT)) as [->|Hne].
  - destruct Hdht as [Hdht|[]%not_elem_of_cons]; [|done].
    destruct (dht_starts b options peer c s G Ho Ht Hdht) as (s1 & ->).
    + intros ->. apply Hex. left.
    + intros d ->. apply Hp. left.
    + apply IH; [done..|by right| |].
      * intros Hin. exfalso. apply Hnot, list_elem_of_fmap. by exists (ProtocolDHT, CExisting).
      * intros d Hd'. apply Hp. by right.
  - destruct (tcp_services options peer name c s Ht Hne) as (s1 & -> & E1 & E2). apply IH; try done.
    + rewrite E1. destruct Hdht as [?|?]; [by left|right; set_solver].
    + rewrite E2. intros Hin. apply Hex. by right.
    + intros d Hd'. apply Hp. by right.
Qed.

(** With a port to announce that is none, the start gets to the DHT and panics. *)
Lemma services_bad_port options peer stopErr handlersEnd order s d :
  Forall (fun p => typedEntry p.1 p.2) order -> NoDup order.*1 -> li_dht s = None ->
  (ProtocolDHT, CDHT d) ∈ order -> 65535 < announcePeerPort peer (dr_Port d) ->
  (startServices listen options None ctx explored now peer stopErr handlersEnd order s).1 = Panic badPeerPort.
Proof.
  revert s. induction order as [|[name c] order IH]; intros s Ht Hd Hn Hin Hp; [by apply elem_of_nil in Hin|]. cbn [startServices].
  apply Forall_cons in Ht as [Ht Hts]. cbn [fst snd] in Ht. cbn in Hd. apply NoDup_cons in Hd as [Hnot Hd].
  assert (Hk : knownProtocol name = true) by (destruct c; cbn in Ht; (done || by subst name)). rewrite Hk. cbn [negb].
  destruct (decide (name = ProtocolDHT)) as [->|Hne].
  - apply elem_of_cons in Hin as [[= <-]|Hin].
    + unfold startService. rewrite !bool_decide_eq_false_2 by done. unfold startDHT, setupDHTNode. by rewrite Hn, create_node_panics.
    + exfalso. apply Hnot, list_elem_of_fmap. by exists (ProtocolDHT, CDHT d).
  - destruct (tcp_services options peer name c s Ht Hne) as (s1 & -> & E1 & _). apply elem_of_cons in Hin as [[= ? ?]|Hin]; [done|].
    apply IH; [done..|by rewrite E1|done|done].
Qed.

(** C13. What comes out of the builder: whatever calls were made, in any order and with any
    arguments, advanced DHT options apart, building reports a missing storage, a missing
    protocol or two acquirers, or gives a server.  On a system that grants its ports, with a
    DHT library that starts and a node of the caller's own, if there is one, that is not
    stopped, such a server starts in any order of its protocols and listens on exactly the
    configured ports; unless the DHT is to announce a port above 65535, which the builder
    does not refuse: then the start panics. *)
Theorem built_server_starts calls order s stopErr handlersEnd
    (Hplain : plainDHT (runServerCalls calls)) (Hquiet : quiet s) :
  let b := runServerCalls calls in
  match Build b with
  | (Ok srv, _) =>
      order ≡ₚ map_to_list (bt_config srv) ->
      let r := StartServer listen (bt_dhtOptions srv) None ctx explored now stopErr handlersEnd order s in
      let starts := exists s', r = (Ok tt, s') /\ openPorts s' ≡ₚ concat (map (fun p => portsOf p.2) order) in
      match bt_config srv !! ProtocolDHT with
      | Some (CDHT d) =>
          if announcePeerPort (peerConfigOf order) (dr_Port d) <=? 65535 then starts else r.1 = Panic badPeerPort
      | Some _ => mn_stopped (li_existing s) = false -> starts
      | None => starts
      end
  | (Err _, _) => sb_storage b = None \/ sb_config b = ∅ \/ checkAcquirer b <> Ok tt
  | (Panic _, _) => False
  end.
Proof.
  intros b. pose proof (runServerCalls_good calls) as G. fold b in G. pose proof (build_good b G Hplain) as H.
  destruct (Build b) as [[srv|e|w] b']; [|done..]. destruct H as (_ & _ & Ht & _ & Ho & _). intros Horder r starts.
  assert (Hd : NoDup order.*1) by (rewrite Horder; apply NoDup_fst_map_to_list).
  assert (Hin : forall p, p ∈ order <-> bt_config srv !! p.1 = Some p.2).
  { intros [n c]. rewrite Horder. apply elem_of_map_to_list. }
  assert (Hts : Forall (fun p => typedEntry p.1 p.2) order).
  { apply Forall_forall. intros p Hpo. eapply Ht. by apply Hin. }
  set (s0 := mkLive ∅ (li_sockets s) (li_accepting s) (li_next s) None (li_existing s) (li_created s) (Some [LoggingNotifier])
       (li_announcer s) (li_started s)).
  assert (Hstarts : (exists s1, startServices listen (bt_dhtOptions srv) None ctx explored now (peerConfigOf order) stopErr handlersEnd order s0
                       = (Ok tt, s1)) -> starts).
  { intros (s1 & E). assert (Hn : numbered s) by (destruct Hquiet as [E1 E2]; split; [by rewrite E1|by rewrite E2]).
    pose proof (start_ok listen (bt_dhtOptions srv) None ctx explored now stopErr handlersEnd order s Hn Hd) as Hstart.
    unfold starts, r. unfold StartServer, createNotifier, setNotify in *.
    cbn [li_listeners li_sockets li_accepting li_next li_dht li_existing li_created li_notifiers li_announcer li_started] in *.
    fold s0 in Hstart |- *. rewrite E in Hstart |- *. eexists. split; [reflexivity|]. destruct Hstart as (_ & Hports & _). rewrite Hports.
    unfold openPorts. destruct Hquiet as [-> _]. by rewrite map_to_list_empty, app_nil_r. }
  destruct (bt_config srv !! ProtocolDHT) as [c|] eqn:Edht.
  - assert (Hc : typedEntry ProtocolDHT c) by (by eapply Ht). destruct c as [c|c|d| |]; cbn [typedEntry] in Hc; try done.
    + destruct (Z.leb_spec (announcePeerPort (peerConfigOf order) (dr_Port d)) 65535) as [Hle|Hgt].
      * apply Hstarts, (services_start b); try done; [by left|..].
        -- intros Hx%Hin. simpl in Hx. congruence.
        -- intros d' Hd'%Hin. simpl in Hd'. congruence.
      * unfold r, StartServer, createNotifier, setNotify.
        cbn [li_listeners li_sockets li_accepting li_next li_dht li_existing li_created li_notifiers li_announcer li_started].
        fold s0. pose proof (services_bad_port (bt_dhtOptions srv) (peerConfigOf order) stopErr handlersEnd order s0 d Hts Hd eq_refl
          (proj2 (Hin (ProtocolDHT, CDHT d)) Edht) Hgt) as Hp.
        destruct (startServices _ _ _ _ _ _ _ _ _ _ _) as [[[]|e|w] s1]; done.
    + intros Hs. apply Hstarts, (services_start b); try done; [by left|].
      intros d' Hd'%Hin. simpl in Hd'. congruence.
  - assert (Hno : ProtocolDHT ∉ order.*1).
    { intros ([n c] & E & Hnc)%list_elem_of_fmap. simpl in E. subst n. apply Hin in Hnc. simpl in Hnc. congruence. }
    apply Hstarts, (services_start b); try done; [by right|..].
    + intros Hx%Hin. simpl in Hx. congruence.
    + intros d' Hd'%Hin. simpl in Hd'. congruence.
Qed.
End Starts.

(** ** Settings that are lost *)

Lemma with_port_config port d :
  IsValidPortRange port = true -> bc_userConfigured (db_config (WithPort port d)) = true
  /\ bc_peerProtocolPort (db_config (WithPort port d)) = bc_peerProtocolPort (db_config d) /\ db_options (WithPort port d) = db_options d.
Proof. intros E. unfold WithPort. by rewrite E. Qed.

(** The DHT entry that the settings of a DHT builder make. *)
Definition entryOf (d : DHTBuilder) : DHTServerConfig :=
  mkDHTServerConfig (bc_port (db_config d)) (bc_address (db_config d)) (bc_seedNodes (db_config d)).

Lemma build_configured b d store :
  goodBuilder b -> sb_dhtBuilder b = Some d -> db_options d = [] -> IsConfigured d = true -> hasExistingDHT b = false ->
  sb_storage b = Some store -> sb_config b <> ∅ -> checkAcquirer b = Ok tt ->
  exists srv b', Build b = (Ok srv, b') /\ bt_config srv = <[ProtocolDHT := CDHT (entryOf d)]> (sb_config b)
    /\ bt_dhtOptions srv = map Some (buildProtocolOptions d).
Proof.
  intros G Hd Ho Hc Hx Hs Hne Ha. unfold Build, checkProtocols. rewrite Hs, bool_decide_eq_false_2 by exact Hne.
  change (checkAcquirer (WithAccessControl _ b)) with (checkAcquirer b). rewrite Ha. cbn [mbind result_bind].
  unfold dhtOptionsOf. change (sb_dhtBuilder (WithAccessControl _ b)) with (sb_dhtBuilder b). rewrite Hd.
  change (hasExistingDHT (WithAccessControl _ b)) with (hasExistingDHT b). rewrite Hx.
  unfold processDHTBuilder. rewrite Hc. cbn [negb]. rewrite build_config_settings by (by apply (gb_dht b G)).
  rewrite Ho. cbn [map]. rewrite applyDHTOptions_nil, app_nil_r. eexists _, _. split; [reflexivity|]. done.
Qed.

Lemma dht_call_config port (b : @ServerBuilder St) :
  sb_dhtBuilder b = None -> hasExistingDHT b = false -> IsValidPortRange port = true ->
  exists d, sb_dhtBuilder (WithDHT [port] b) = Some d /\ db_options d = [] /\ IsConfigured d = true
    /\ bc_peerProtocolPort (db_config d) = DefaultPeerPort
    /\ exists seeds, sb_config (WithDHT [port] b) = <[ProtocolDHT := CDHT (mkDHTServerConfig port [] seeds)]> (sb_config b).
Proof.
  intros Hn Hx Hp. unfold WithDHT, getOrCreateDHTBuilder. rewrite Hx, Hn. destruct NewDHTBuilder_ok as (d0 & E0 & _ & Ho).
  destruct (with_port_config port d0 Hp) as (C1 & C2 & C3). rewrite E0. cbn [wrap_err]. exists (WithPort port d0).
  split_and!; [done|by rewrite C3|done|rewrite C2; by injection E0 as <-|by eexists].
Qed.

(** The port of the peer protocol is not what the DHT announces: whatever port a server
    is given for it, and whatever port the start works out for the announcement, the node
    announces the default port, which the options of the DHT builder put back. *)
Theorem announced_port_ignored ctx explored now (store : St) peer dht
    (Hd : IsValidPortRange dht = true) :
  exists srv b' config,
    Build (WithDHT [dht] (WithPeer [peer] (WithStorage (Some store) NewServerBuilder))) = (Ok srv, b')
    /\ bt_config srv !! ProtocolPeer = Some (CPeer (mkPeerConfig peer 0))
    /\ bt_config srv !! ProtocolDHT = Some (CDHT config)
    /\ forall port, IsValidNonZeroPortRange port = true ->
       exists node, createDHTNode (bt_dhtOptions srv) None ctx explored now config port = Ok node
         /\ dc_PeerProtocolPort (mn_config node) = DefaultPeerPort.
Proof.
  pose proof (runServerCalls_good [SStorage (Some store); SPeer [peer]; SDHT [dht]]) as G.
  unfold runServerCalls in G. cbn [foldl runServerCall] in G.
  set (b0 := WithPeer [peer] (WithStorage (Some store) NewServerBuilder)) in *.
  destruct (dht_call_config dht b0 eq_refl eq_refl Hd) as (d & Hsome & Ho & Hc & Hpeer & seeds & Ecfg).
  assert (Hst : sb_storage (WithDHT [dht] b0) = Some store /\ checkAcquirer (WithDHT [dht] b0) = Ok tt) by done.
  set (b := WithDHT [dht] b0) in *. clearbody b. destruct Hst as [Hs Ha].
  destruct (build_configured b d store) as (srv & b' & E & Esrv & Eopt); try done.
  - unfold hasExistingDHT. by rewrite Ecfg, lookup_insert_eq.
  - rewrite Ecfg. apply insert_non_empty.
  - exists srv, b', (entryOf d). split; [exact E|]. rewrite Esrv, Ecfg, Eopt. split_and!.
    + rewrite !lookup_insert_ne by done. unfold b0. cbn. by rewrite lookup_insert_eq.
    + by rewrite lookup_insert_eq.
    + intros port Hp. destruct (create_node_ok ctx explored now b (map Some (buildProtocolOptions d)) (entryOf d) port G) as (node & En & Epp);
        [right; exists d; by split|exact Hp|]. exists node. split; [exact En|]. rewrite Epp, Hsome, Hpeer.
      unfold buildProtocolOptions. by destruct (getEffectiveAddress_cons d) as (x & a & ->).
Qed.

(** A port for the DHT that is no port is refused by the DHT builder, which goes on with
    the default one, but stays in the configuration of the server: with no peer protocol,
    the start panics. *)
Theorem bad_dht_port_panics listen ctx explored now stopErr handlersEnd (store : St) port s
    (Hp : 65535 < port) :
  exists srv b', Build (WithDHT [port] (WithStorage (Some store) NewServerBuilder)) = (Ok srv, b')
    /\ forall order, order ≡ₚ map_to_list (bt_config srv) ->
       (StartServer listen (bt_dhtOptions srv) None ctx explored now stopErr handlersEnd order s).1
       = Panic badPeerPort.
Proof.
  assert (Hv : IsValidPortRange port = false) by (unfold IsValidPortRange; rewrite (proj2 (Z.leb_gt port 65535)) by lia; apply andb_false_r).
  assert (Ea : announcePeerPort None port = port) by (unfold announcePeerPort; cbn; destruct (Z.ltb_spec 0 port); [done|lia]).
  unfold WithDHT, getOrCreateDHTBuilder. change (hasExistingDHT _) with false.
  cbn [sb_dhtBuilder WithStorage NewServerBuilder]. destruct NewDHTBuilder_ok as (d & Ed & _ & _). rewrite Ed. cbn [wrap_err].
  unfold WithPort. rewrite Hv. cbn [negb].
  assert (Hc : IsConfigured d = false) by (by injection Ed as <-).
  unfold Build, checkProtocols. cbn [setConfig setDHTBuilder sb_storage sb_config WithStorage NewServerBuilder].
  rewrite bool_decide_eq_false_2 by apply insert_non_empty. cbn [mbind result_bind].
  change (checkAcquirer _) with (Ok tt : result unit). cbn [mbind result_bind]. unfold dhtOptionsOf, processDHTBuilder.
  cbn [WithAccessControl setConfig setDHTBuilder sb_dhtBuilder]. rewrite Hc. cbn [negb].
  replace (hasExistingDHT _) with false by (unfold hasExistingDHT; cbn; by rewrite lookup_insert_eq).
  eexists _, _. split; [reflexivity|]. cbn [bt_config bt_dhtOptions]. intros order Ho.
  change (order ≡ₚ map_to_list (<[ProtocolDHT := CDHT (mkDHTServerConfig port [] (bc_seedNodes (db_config d)))]> (∅ : gmap bytes ServiceConfig)))
    in Ho. rewrite insert_empty, map_to_list_singleton in Ho. apply Permutation_singleton_r in Ho as ->.
  unfold StartServer, createNotifier, setNotify.
  cbn [startServices li_listeners li_sockets li_accepting li_next li_dht li_existing li_created li_notifiers
    li_announcer li_started]. change (knownProtocol ProtocolDHT) with true. cbn [negb].
  unfold startService. rewrite !bool_decide_eq_false_2 by done. unfold startDHT, setupDHTNode. cbn [li_dht].
  change (peerConfigOf _) with (@None PeerConfig). cbn [dr_Port]. rewrite Ea, create_node_panics by lia. done.
Qed.

(** A fixed port for peers does not survive a later call for the regular one, while the
    store of a reflector does. *)
Theorem fixed_port_lost port ports store (b : @ServerBuilder St) :
  pr_FixedPort (getOrCreatePeerConfig (WithPeer ports (WithFixedPeerPort port b))) = 0
  /\ pr_FixedPort (getOrCreatePeerConfig (WithFixedPeerPort port (WithPeer ports b))) = port
  /\ exists p, sb_config (WithReflector ports (WithReflectorStore store b)) !! ProtocolReflector
              = Some (CReflector (mkReflectorConfig p store)).
Proof.
  unfold getOrCreatePeerConfig. cbn. rewrite !lookup_insert_eq. split_and!; [done..|]. by eexists.
Qed.
End Built.

(** ** Witnesses *)

#[local] Instance builderLib : DiscoveryLib := Discovery.exampleLib.

Definition someCalls : list (@serverCall unit) :=
  [SFixedPeerPort 3333; SDHT [4444]; SStorage (Some tt); SReflector []; SDHTBuilder [CallRPCPort 70000; CallSeedNodes None]; SFixedPeerPort 3334].

(** The same with a DHT port that is none, and no peer protocol. *)
Definition badCalls : list (@serverCall unit) := [SReflector []; SDHT [70000]; SStorage (Some tt)].

Lemma plain_calls (calls : list (@serverCall unit)) :
  (db_options <$> sb_dhtBuilder (runServerCalls calls)) = Some [] -> plainDHT (runServerCalls calls).
Proof. intros E d Hd. rewrite Hd in E. by injection E. Qed.

Lemma built_server_starts_witness :
  (exists srv b' s', Build (runServerCalls someCalls) = (Ok srv, b')
    /\ StartServer allowed (bt_dhtOptions srv) None Background (Ok []) 0 deadline true (map_to_list (bt_config srv)) freshServer = (Ok tt, s')
    /\ openPorts s' ≡ₚ concat (map (fun p => portsOf p.2) (map_to_list (bt_config srv))))
  /\ exists srv b', Build (runServerCalls badCalls) = (Ok srv, b')
    /\ (StartServer allowed (bt_dhtOptions srv) None Background (Ok []) 0 deadline true (map_to_list (bt_config srv)) freshServer).1
       = Panic badPeerPort.
Proof.
  assert (Hc : forall (calls : list (@serverCall unit)) (good : bool), match (Build (runServerCalls calls)).1 with
    | Ok srv => match bt_config srv !! ProtocolDHT with
                | Some (CDHT d) => bool_decide ((announcePeerPort (peerConfigOf (map_to_list (bt_config srv))) (dr_Port d) <=? 65535) = good)
                | _ => false end
    | _ => false end = true -> db_options <$> sb_dhtBuilder (runServerCalls calls) = Some [] ->
    exists srv b', Build (runServerCalls calls) = (Ok srv, b') /\
      let r := StartServer allowed (bt_dhtOptions srv) None Background (Ok []) 0 deadline true (map_to_list (bt_config srv)) freshServer in
      if good then exists s', r = (Ok tt, s') /\ openPorts s' ≡ₚ concat (map (fun p => portsOf p.2) (map_to_list (bt_config srv)))
      else r.1 = Panic badPeerPort).
  { intros calls good Hc Hp. pose proof (fun order => built_server_starts Background (Ok []) 0 allowed (fun _ _ => eq_refl) calls order
      freshServer deadline true (plain_calls calls Hp) (conj eq_refl eq_refl)) as H. cbv zeta in H.
    destruct (Build (runServerCalls calls)) as [[srv|e|w] b']; cbn [fst] in Hc; [|discriminate Hc..].
    exists srv, b'. split; [reflexivity|]. specialize (H (map_to_list (bt_config srv)) ltac:(reflexivity)).
    destruct (bt_config srv !! ProtocolDHT) as [[c|c|d| |]|]; try discriminate Hc. apply bool_decide_eq_true in Hc.
    rewrite Hc in H. exact H. }
  split.
  - destruct (Hc someCalls true) as (srv & b' & E & s' & H); [vm_compute; reflexivity|vm_compute; reflexivity|].
    exists srv, b', s'. exact (conj E H).
  - apply (Hc badCalls false); vm_compute; reflexivity.
Defined.

Lemma announced_port_ignored_witness :
  exists srv b' config node,
    Build (WithDHT [4444] (WithPeer [9000] (WithStorage (Some tt) NewServerBuilder))) = (Ok srv, b')
    /\ createDHTNode (bt_dhtOptions srv) None Background (Ok []) 0 config 9000 = Ok node
    /\ dc_PeerProtocolPort (mn_config node) = 5567.
Proof.
  destruct (announced_port_ignored Background (Ok []) 0 tt 9000 4444 eq_refl) as (srv & b' & config & E & _ & _ & H).
  destruct (H 9000 eq_refl) as (node & En & Hn). exists srv, b', config, node.
  exact (conj E (conj En Hn)).
Defined.
