(* ===== verification/Electrum.v ===== *)
(** * electrum/: the Electrum protocol

    Requests and their JSON, responses and what is decoded from them, the typed calls over
    a transport that the caller implements, and script hashes.  A raw message is kept as a
    parsed value: its literals are its text, the white space between them is lost.  The
    partial value that Go leaves behind next to an error is not modelled. *)
From stdpp Require Import base tactics list numbers strings.
From Stdlib Require Import ZArith Lia Init.Byte.
From S2P Require Import Prelude GoStd Sha2 Json SdBlob PeerMsg Reflector.
Local Open Scope Z_scope.

(** ** electrum/methods.go *)

Definition MethodGetVersion : bytes := go "server.version".
Definition MethodPing : bytes := go "server.ping".
Definition MethodBroadcast : bytes := go "blockchain.transaction.broadcast".
Definition MethodGetTx : bytes := go "blockchain.transaction.get".
Definition MethodGetTxVerbose : bytes := go "blockchain.transaction.get".
Definition MethodSubscribe : bytes := go "blockchain.scripthash.subscribe".
Definition MethodListUnspent : bytes := go "blockchain.scripthash.listunspent".
Definition MethodGetHistory : bytes := go "blockchain.scripthash.get_history".
Definition MethodGetBalance : bytes := go "blockchain.scripthash.get_balance".
Definition MethodGetClaimByID : bytes := go "blockchain.claimtrie.getclaimbyid".
Definition MethodResolve : bytes := go "blockchain.claimtrie.resolve".
Definition ProtocolVersion : bytes := go "1.4.1".

(** ** electrum/scripthash.go *)

Fixpoint swapLoop (fuel i j : nat) (h : bytes) : result bytes :=
  if (i <? j)%nat then
    match fuel with
    | O => Panic "out of fuel"
    | S fuel =>
        match h !! i, h !! j with
        | Some x, Some y => swapLoop fuel (S i) (j - 1) (<[i := y]> (<[j := x]> h))
        | _, _ => Panic "index out of range"
        end
    end
  else Ok h.
Definition Scripthash (scriptPubKey : bytes) : result bytes :=
  let h := sha256_Sum256 scriptPubKey in
  h ← swapLoop (length h) 0 (length h - 1) h;
  Ok (EncodeToString h).

(** ** electrum/types.go *)

(** The parameters the package passes. *)
Inductive Param := PString (s : bytes) | PBool (b : bool).
Definition paramJSON (p : Param) : json := match p with PString s => JStr (quote s) | PBool b => JBool b end.

(** [None]: no parameters, a nil slice. *)
Record Request := mkRPC { rp_JSONRPC : bytes; rp_ID : Z; rp_Method : bytes; rp_Params : option (list Param) }.
Definition NewRequest (id : Z) (method : bytes) (params : option (list Param)) : Request :=
  mkRPC (go "2.0") id method params.

(** [json:"params"] of a nil slice would be null. *)
Definition rpcJSON (r : Request) : json :=
  JObj [strMember "jsonrpc" (rp_JSONRPC r); intMember "id" (rp_ID r); strMember "method" (rp_Method r);
        (quote (go "params"), match rp_Params r with Some ps => JArr (map paramJSON ps) | None => JNull end)].
Definition Marshal (r : Request) : bytes :=
  let r := mkRPC (rp_JSONRPC r) (rp_ID r) (rp_Method r) (Some (default [] (rp_Params r))) in
  print [] [] (rpcJSON r).

Record RPCError := mkRPCError { re_Code : Z; re_Message : bytes }.
Definition RPCError_Error (e : RPCError) : bytes := go "electrum error " ++ Itoa (re_Code e) ++ go ": " ++ re_Message e.
Definition ErrResponse_Error (e : option RPCError) : bytes :=
  match e with None => go "electrum: response error" | Some e => RPCError_Error e end.

(** [rs_Result]: absent, or the raw message, null included. *)
Record Response := mkRPCResponse { rs_JSONRPC : bytes; rs_ID : Z; rs_Result : option json; rs_Error : option RPCError }.

Record UTXO := mkElectrumUTXO { eu_TxHash : bytes; eu_TxPos : Z; eu_Value : Z; eu_Height : Z }.
Record HistoryEntry := mkHistoryEntry { he_TxHash : bytes; he_Height : Z }.
Record Balance := mkBalance { bl_Confirmed : Z; bl_Unconfirmed : Z }.

(** *** Decoding *)

Definition setErrorField (name : bytes) (v : json) (e : RPCError) : result RPCError :=
  if decide (name = go "code") then c ← decodeInt v (re_Code e); Ok (mkRPCError c (re_Message e))
  else m ← decodeString v (re_Message e); Ok (mkRPCError (re_Code e) m).
Definition errorNames : list bytes := [go "code"; go "message"].

(** A pointer to a struct: null clears it. *)
Definition decodeErrorPtr (v : json) (cur : option RPCError) : result (option RPCError) :=
  match v with
  | JNull => Ok None
  | _ => e ← decodeStruct errorNames setErrorField v (default (mkRPCError 0 []) cur); Ok (Some e)
  end.

Definition rpcNames : list bytes := [go "jsonrpc"; go "id"; go "result"; go "error"].
Definition setRPCField (name : bytes) (v : json) (r : Response) : result Response :=
  if decide (name = go "jsonrpc") then
    s ← decodeString v (rs_JSONRPC r); Ok (mkRPCResponse s (rs_ID r) (rs_Result r) (rs_Error r))
  else if decide (name = go "id") then
    n ← decodeInt v (rs_ID r); Ok (mkRPCResponse (rs_JSONRPC r) n (rs_Result r) (rs_Error r))
  else if decide (name = go "result") then Ok (mkRPCResponse (rs_JSONRPC r) (rs_ID r) (Some v) (rs_Error r))
  else e ← decodeErrorPtr v (rs_Error r); Ok (mkRPCResponse (rs_JSONRPC r) (rs_ID r) (rs_Result r) e).
Definition unmarshalRPC (raw : bytes) : result Response :=
  v ← parse raw; decodeStruct rpcNames setRPCField v (mkRPCResponse [] 0 None None).

(** [strconv.ParseUint] takes no sign. *)
Definition decodeUint32 (v : json) (cur : Z) : result Z :=
  match v with
  | JNull => Ok cur
  | JNum l =>
      match l with
      | x2d :: _ => typeError
      | _ => match ParseInt l with Ok n => if n <? 2 ^ 32 then Ok n else typeError | _ => typeError end
      end
  | _ => typeError
  end.

Definition utxoNames : list bytes := [go "tx_hash"; go "tx_pos"; go "value"; go "height"].
Definition setUTXOField (name : bytes) (v : json) (u : UTXO) : result UTXO :=
  if decide (name = go "tx_hash") then
    s ← decodeString v (eu_TxHash u); Ok (mkElectrumUTXO s (eu_TxPos u) (eu_Value u) (eu_Height u))
  else if decide (name = go "tx_pos") then
    n ← decodeUint32 v (eu_TxPos u); Ok (mkElectrumUTXO (eu_TxHash u) n (eu_Value u) (eu_Height u))
  else if decide (name = go "value") then
    n ← decodeInt v (eu_Value u); Ok (mkElectrumUTXO (eu_TxHash u) (eu_TxPos u) n (eu_Height u))
  else n ← decodeInt v (eu_Height u); Ok (mkElectrumUTXO (eu_TxHash u) (eu_TxPos u) (eu_Value u) n).
Definition decodeUTXO (v : json) (u : UTXO) : result UTXO := decodeStruct utxoNames setUTXOField v u.

Definition setHistoryField (name : bytes) (v : json) (h : HistoryEntry) : result HistoryEntry :=
  if decide (name = go "tx_hash") then s ← decodeString v (he_TxHash h); Ok (mkHistoryEntry s (he_Height h))
  else n ← decodeInt v (he_Height h); Ok (mkHistoryEntry (he_TxHash h) n).
Definition decodeHistory (v : json) (h : HistoryEntry) : result HistoryEntry :=
  decodeStruct [go "tx_hash"; go "height"] setHistoryField v h.

Definition setBalanceField (name : bytes) (v : json) (b : Balance) : result Balance :=
  if decide (name = go "confirmed") then n ← decodeInt v (bl_Confirmed b); Ok (mkBalance n (bl_Unconfirmed b))
  else n ← decodeInt v (bl_Unconfirmed b); Ok (mkBalance (bl_Confirmed b) n).
Definition decodeBalance (v : json) : result Balance :=
  decodeStruct [go "confirmed"; go "unconfirmed"] setBalanceField v (mkBalance 0 0).

Definition decodeList {A} (zero : A) (dec : json -> A -> result A) (v : json) : result (list A) :=
  s ← decodeSlice zero dec v nilSlice; Ok (sliceElems s).

(** Into an array of two strings: further elements are skipped, missing ones are empty. *)
Definition decodePair (v : json) : result (bytes * bytes) :=
  match v with
  | JNull => Ok ([], [])
  | JArr es =>
      xs ← decodeElems [] decodeString (take 2 es) [];
      Ok (nth 0 xs [], nth 1 xs [])
  | _ => typeError
  end.

(** Into an interface: a number must be the text of a float in range. *)
Fixpoint anyOk (v : json) : bool :=
  match v with
  | JNum l => bool_decide (is_Some (ParseFloat l))
  | JArr es => forallb anyOk es
  | JObj ms => forallb (fun m => anyOk m.2) ms
  | _ => true
  end.
Definition decodeAny (v : json) : result json := if anyOk v then Ok v else typeError.

(** ** electrum/client.go *)

Section Client.
(** The transport: one request, and the raw response or an error. *)
Context (Call : bytes -> list Param -> bytes + error).

(** A value, or the error the server sent: [inr e] is [&ErrResponse{Err: e}]. *)
Definition CallTyped {A} (out : json -> result A) (method : bytes) (params : list Param) : result (A + RPCError) :=
  match Call method params with
  | inr e => Err e
  | inl raw =>
      resp ← wrap_err "decode response: %w (raw: %s)" (unmarshalRPC raw);
      match rs_Error resp with
      | Some e => Ok (inr e)
      | None =>
          match rs_Result resp with
          | None => Err (EMsg "unexpected end of JSON input")
          | Some v => a ← out v; Ok (inl a)
          end
      end
  end.

Definition decodeText (v : json) : result bytes := decodeString v [].
Definition Subscribe (scripthash : bytes) := CallTyped decodeText MethodSubscribe [PString scripthash].
Definition ListUnspent (scripthash : bytes) :=
  CallTyped (decodeList (mkElectrumUTXO [] 0 0 0) decodeUTXO) MethodListUnspent [PString scripthash].
Definition GetHistory (scripthash : bytes) :=
  CallTyped (decodeList (mkHistoryEntry [] 0) decodeHistory) MethodGetHistory [PString scripthash].
Definition GetBalance (scripthash : bytes) := CallTyped decodeBalance MethodGetBalance [PString scripthash].
Definition Broadcast (txHex : bytes) := CallTyped decodeText MethodBroadcast [PString txHex].
Definition GetTxHex (txid : bytes) := CallTyped decodeText MethodGetTx [PString txid; PBool false].
Definition GetTxVerbose (txid : bytes) := CallTyped Ok MethodGetTxVerbose [PString txid; PBool true].
Definition Electrum_Ping := CallTyped decodeAny MethodPing [].
Definition Electrum_Version := CallTyped decodePair MethodGetVersion [PString (go "liblbry"); PString ProtocolVersion].
Definition ResolveClaim (name : bytes) := CallTyped decodeText MethodResolve [PString name].
Definition GetClaimByID (claimIDHex : bytes) := CallTyped decodeText MethodGetClaimByID [PString claimIDHex].
End Client.
