(* ===== verification/ElectrumSpec.v ===== *)
(** * What the Electrum client sees of a server

    A script hash is the reversed hash in hexadecimal; a request is well-formed JSON; and
    over any transport that carries the answers of a hub, however it spaces its JSON, the
    typed calls return the hub's data or its error. *)
From stdpp Require Import base tactics list numbers strings.
From Stdlib Require Import ZArith Lia Init.Byte.
From S2P Require Import Prelude GoStd Sha2 Json SdBlob SdBlobSpec PeerMsg Reflector ReflectorUpload Electrum.
Local Open Scope Z_scope.

#[local] Opaque sha256_Sum256.

(** ** Script hashes *)

Lemma swapLoop_spec fuel pre mid post :
  (length mid <= fuel)%nat ->
  swapLoop fuel (length pre) (length pre + length mid - 1) (pre ++ mid ++ post) = Ok (pre ++ reverse mid ++ post).
Proof.
  revert pre mid post. induction fuel as [|fuel IH]; intros pre mid post Hf.
  { destruct mid; [|simpl in Hf; lia]. cbn [swapLoop length]. rewrite (proj2 (Nat.ltb_ge _ _)) by lia. done. }
  destruct mid as [|x mid]; [cbn [swapLoop length]; rewrite (proj2 (Nat.ltb_ge _ _)) by lia; done|].
  destruct mid as [|y mid _] using rev_ind; [cbn [swapLoop length]; rewrite (proj2 (Nat.ltb_ge _ _)) by lia; done|].
  cbn [swapLoop]. cbn [length] in *. rewrite length_app in *. cbn [length] in *.
  rewrite (proj2 (Nat.ltb_lt _ _)) by lia.
  assert (Ei : (pre ++ (x :: mid ++ [y]) ++ post) !! length pre = Some x) by (cbn [app]; by apply list_lookup_middle).
  assert (Ej : (pre ++ (x :: mid ++ [y]) ++ post) !! (length pre + S (length mid + 1) - 1)%nat = Some y).
  { replace (pre ++ (x :: mid ++ [y]) ++ post) with ((pre ++ x :: mid) ++ y :: post) by (by rewrite <- !app_assoc; cbn; rewrite <- app_assoc).
    apply list_lookup_middle. rewrite length_app. cbn. lia. }
  rewrite Ei, Ej.
  assert (Es : <[length pre := y]> (<[(length pre + S (length mid + 1) - 1)%nat := x]> (pre ++ (x :: mid ++ [y]) ++ post))
    = (pre ++ [y]) ++ mid ++ x :: post).
  { replace (pre ++ (x :: mid ++ [y]) ++ post) with ((pre ++ x :: mid) ++ y :: post) by (by rewrite <- !app_assoc; cbn; rewrite <- app_assoc).
    replace (length pre + S (length mid + 1) - 1)%nat with (length (pre ++ x :: mid) + 0)%nat by (rewrite length_app; cbn; lia).
    rewrite insert_app_r. cbn [insert list_insert]. rewrite <- app_assoc. cbn [app].
    replace (length pre) with (length pre + 0)%nat at 1 by lia. rewrite insert_app_r. cbn. by rewrite <- app_assoc. }
  rewrite Es. pose proof (IH (pre ++ [y]) mid (x :: post) ltac:(lia)) as E. rewrite length_app in E. cbn [length] in E.
  replace (S (length pre)) with (length pre + 1)%nat by lia.
  replace (length pre + S (length mid + 1) - 1 - 1)%nat with (length pre + 1 + length mid - 1)%nat by lia.
  rewrite E, reverse_cons, reverse_snoc. f_equal. rewrite <- !app_assoc. cbn [app]. by rewrite <- ?app_assoc.
Qed.

(** A script hash is the SHA-256 hash of the script with its bytes in reverse order, in
    64 lower-case hexadecimal digits, and two scripts share it exactly when they share the
    hash. *)
Theorem scripthash_spec script script' :
  Scripthash script = Ok (EncodeToString (reverse (sha256_Sum256 script)))
  /\ length (EncodeToString (reverse (sha256_Sum256 script))) = 64%nat
  /\ (Scripthash script = Scripthash script' <-> sha256_Sum256 script = sha256_Sum256 script').
Proof.
  assert (E : forall s, Scripthash s = Ok (EncodeToString (reverse (sha256_Sum256 s)))).
  { intros s. unfold Scripthash. pose proof (swapLoop_spec (length (sha256_Sum256 s)) [] (sha256_Sum256 s) [] (le_n _)) as E.
    rewrite !app_nil_r in E. cbn [app length Nat.add] in E. by rewrite E. }
  split_and!; [done| |].
  - by rewrite length_EncodeToString, length_reverse, length_Sum256.
  - rewrite !E. generalize (sha256_Sum256 script) (sha256_Sum256 script'). intros h h'. split; [|by intros ->].
    intros [= H]. apply (f_equal DecodeString) in H.
    rewrite !DecodeString_EncodeToString in H. injection H as H. by apply (inj reverse) in H.
Qed.

(** ** A hub *)

(** What a hub has to say to the calls of the client, or the error it answers with. *)
Record Hub := mkHub {
  hub_status : bytes -> bytes + RPCError;
  hub_unspent : bytes -> list UTXO + RPCError;
  hub_history : bytes -> list HistoryEntry + RPCError;
  hub_balance : bytes -> Balance + RPCError;
  hub_broadcast : bytes -> bytes + RPCError;
  hub_txHex : bytes -> bytes + RPCError;
  hub_txVerbose : bytes -> json + RPCError;
  hub_resolve : bytes -> bytes + RPCError;
  hub_claim : bytes -> bytes + RPCError;
  hub_version : (bytes * bytes) + RPCError
}.

Definition textJSON (s : bytes) : json := JStr (quote s).
Definition utxoJSON (u : UTXO) : json :=
  JObj [strMember "tx_hash" (eu_TxHash u); intMember "tx_pos" (eu_TxPos u); intMember "height" (eu_Height u); intMember "value" (eu_Value u)].
Definition historyJSON (h : HistoryEntry) : json := JObj [strMember "tx_hash" (he_TxHash h); intMember "height" (he_Height h)].
Definition balanceJSON (b : Balance) : json := JObj [intMember "confirmed" (bl_Confirmed b); intMember "unconfirmed" (bl_Unconfirmed b)].
Definition listJSON {A} (enc : A -> json) (l : list A) : json := JArr (map enc l).
Definition pairJSON (p : bytes * bytes) : json := JArr [textJSON p.1; textJSON p.2].
Definition encodeWith {A} (enc : A -> json) (x : A + RPCError) : json + RPCError :=
  match x with inl a => inl (enc a) | inr e => inr e end.

Definition hubAnswer (hub : Hub) (method : bytes) (params : list Param) : json + RPCError :=
  let unknown := inr (mkRPCError (-32601) (go "unknown method")) in
  match params with
  | [PString s] =>
      if decide (method = MethodSubscribe) then encodeWith textJSON (hub_status hub s)
      else if decide (method = MethodListUnspent) then encodeWith (listJSON utxoJSON) (hub_unspent hub s)
      else if decide (method = MethodGetHistory) then encodeWith (listJSON historyJSON) (hub_history hub s)
      else if decide (method = MethodGetBalance) then encodeWith balanceJSON (hub_balance hub s)
      else if decide (method = MethodBroadcast) then encodeWith textJSON (hub_broadcast hub s)
      else if decide (method = MethodResolve) then encodeWith textJSON (hub_resolve hub s)
      else if decide (method = MethodGetClaimByID) then encodeWith textJSON (hub_claim hub s)
      else unknown
  | [PString s; PBool verbose] =>
      if decide (method = MethodGetTx) then
        if verbose then encodeWith id (hub_txVerbose hub s) else encodeWith textJSON (hub_txHex hub s)
      else unknown
  | [PString client; PString protocol] =>
      if decide (method = MethodGetVersion) then encodeWith pairJSON (hub_version hub) else unknown
  | [] => if decide (method = MethodPing) then inl JNull else unknown
  | _ => unknown
  end.

Definition errorJSON (e : RPCError) : json := JObj [intMember "code" (re_Code e); strMember "message" (re_Message e)].
Definition responseOf (id : Z) (x : json + RPCError) : json :=
  JObj [strMember "jsonrpc" (go "2.0"); intMember "id" id;
        match x with inl v => (quote (go "result"), v) | inr e => (quote (go "error"), errorJSON e) end].

(** What JSON carries unchanged. *)
Definition okError (e : RPCError) : Prop := in_int64 (re_Code e) /\ safe (re_Message e).
Definition okUTXO (u : UTXO) : Prop :=
  safe (eu_TxHash u) /\ 0 <= eu_TxPos u < 2 ^ 32 /\ in_int64 (eu_Value u) /\ in_int64 (eu_Height u).
Definition okHistory (h : HistoryEntry) : Prop := safe (he_TxHash h) /\ in_int64 (he_Height h).
Definition okBalance (b : Balance) : Prop := in_int64 (bl_Confirmed b) /\ in_int64 (bl_Unconfirmed b).
Definition okAnswer {A} (ok : A -> Prop) (x : A + RPCError) : Prop := match x with inl a => ok a | inr e => okError e end.
Record okHub (hub : Hub) : Prop := {
  oh_status s : okAnswer safe (hub_status hub s);
  oh_unspent s : okAnswer (Forall okUTXO) (hub_unspent hub s);
  oh_history s : okAnswer (Forall okHistory) (hub_history hub s);
  oh_balance s : okAnswer okBalance (hub_balance hub s);
  oh_broadcast s : okAnswer safe (hub_broadcast hub s);
  oh_txHex s : okAnswer safe (hub_txHex hub s);
  oh_txVerbose s : okAnswer (wfJson (maxNestingDepth - 1)) (hub_txVerbose hub s);
  oh_resolve s : okAnswer safe (hub_resolve hub s);
  oh_claim s : okAnswer safe (hub_claim hub s);
  oh_version : okAnswer (fun p => safe p.1 /\ safe p.2) (hub_version hub)
}.

(** *** Decoding what was encoded *)

Lemma wf_obj_pos d ms : 0 < d -> Forall (fun m => wfStr m.1 /\ wfJson (d - 1) m.2) ms -> wfJson d (JObj ms).
Proof. by constructor. Qed.

Lemma wf_text d s : safe s -> wfJson d (textJSON s).
Proof. intros. constructor. by apply wfStr_quote. Qed.

Lemma wf_str_member d name s : safeAscii name = true -> safe s -> wfStr (strMember name s).1 /\ wfJson d (strMember name s).2.
Proof. apply wf_strMember. Qed.

Lemma wf_int_member d name n : safeAscii name = true -> in_int64 n -> wfStr (intMember name n).1 /\ wfJson d (intMember name n).2.
Proof. intros. apply wf_member; [done|by apply wf_int]. Qed.

Ltac wf_members :=
  repeat (apply List.Forall_cons; [first [apply wf_str_member; done|apply wf_int_member; done]|]); apply List.Forall_nil.

Lemma wf_utxo d u : 0 < d -> okUTXO u -> wfJson d (utxoJSON u).
Proof.
  intros Hd (H1 & H2 & H3 & H4). assert (in_int64 (eu_TxPos u)) by (unfold in_int64; lia).
  apply wf_obj_pos; [done|]. wf_members.
Qed.

Lemma wf_history d h : 0 < d -> okHistory h -> wfJson d (historyJSON h).
Proof. intros Hd [H1 H2]. apply wf_obj_pos; [done|]. wf_members. Qed.

Lemma wf_balance d b : 0 < d -> okBalance b -> wfJson d (balanceJSON b).
Proof. intros Hd [H1 H2]. apply wf_obj_pos; [done|]. wf_members. Qed.

Lemma wf_list {A} d (enc : A -> json) (ok : A -> Prop) l :
  1 < d -> (forall d a, 0 < d -> ok a -> wfJson d (enc a)) -> Forall ok l -> wfJson d (listJSON enc l).
Proof.
  intros Hd He Hl. constructor; [lia|]. apply Forall_map. eapply Forall_impl; [exact Hl|]. intros a Ha. apply He; [lia|done].
Qed.

Lemma wf_error d e : 0 < d -> okError e -> wfJson d (errorJSON e).
Proof. intros Hd [H1 H2]. apply wf_obj_pos; [done|]. wf_members. Qed.

Lemma decode_text s : safe s -> decodeText (textJSON s) = Ok s.
Proof. apply decodeString_safe. Qed.

Lemma decodeUint32_Itoa n cur : 0 <= n < 2 ^ 32 -> decodeUint32 (JNum (Itoa n)) cur = Ok n.
Proof.
  intros Hn. unfold decodeUint32. destruct (Itoa_shape n) as (c & ds & E & Hd & _); [unfold in_int64; lia|].
  rewrite (proj2 (Z.ltb_ge n 0)) in E by lia. cbn [app] in E.
  assert (Hc : c <> x2d) by (intros ->; done).
  pose proof (ParseInt_Itoa n ltac:(unfold in_int64; lia)) as Hp. rewrite E in *. rewrite Hp, (proj2 (Z.ltb_lt _ _)) by lia.
  by destruct c.
Qed.

(** The next member of an object, by its name. *)
Ltac next_member name r :=
  rewrite (decode_known _ _ name _ _ _ r); [|done|done|];
  [|repeat first [rewrite decide_True by done|rewrite decide_False by done];
    rewrite ?decodeString_safe, ?decodeInt_Itoa, ?decodeUint32_Itoa by done; reflexivity].

Lemma decode_utxo u v : okUTXO u -> decodeUTXO (utxoJSON u) v = Ok u.
Proof.
  intros (H1 & H2 & H3 & H4). destruct u as [h p val ht]. unfold decodeUTXO, utxoJSON, decodeStruct, strMember, intMember.
  cbn [eu_TxHash eu_TxPos eu_Value eu_Height] in *. unfold setUTXOField.
  next_member "tx_hash" (mkElectrumUTXO h (eu_TxPos v) (eu_Value v) (eu_Height v)).
  next_member "tx_pos" (mkElectrumUTXO h p (eu_Value v) (eu_Height v)).
  next_member "height" (mkElectrumUTXO h p (eu_Value v) ht).
  by next_member "value" (mkElectrumUTXO h p val ht).
Qed.

Lemma decode_history h v : okHistory h -> decodeHistory (historyJSON h) v = Ok h.
Proof.
  intros (H1 & H2). destruct h as [t ht]. unfold decodeHistory, historyJSON, decodeStruct, strMember, intMember.
  cbn [he_TxHash he_Height] in *. unfold setHistoryField.
  next_member "tx_hash" (mkHistoryEntry t (he_Height v)). by next_member "height" (mkHistoryEntry t ht).
Qed.

Lemma decode_balance b : okBalance b -> decodeBalance (balanceJSON b) = Ok b.
Proof.
  intros (H1 & H2). destruct b as [c u]. unfold decodeBalance, balanceJSON, decodeStruct, intMember.
  cbn [bl_Confirmed bl_Unconfirmed] in *. unfold setBalanceField.
  next_member "confirmed" (mkBalance c 0). by next_member "unconfirmed" (mkBalance c u).
Qed.

Lemma decode_list {A} zero (dec : json -> A -> result A) (enc : A -> json) (ok : A -> Prop) l :
  (forall a cur, ok a -> dec (enc a) cur = Ok a) -> Forall ok l -> decodeList zero dec (listJSON enc l) = Ok l.
Proof.
  intros Hdec Hl. assert (E : forall old, decodeElems zero dec (map enc l) old = Ok l).
  { induction Hl as [|a l Ha _ IH]; intros old; [done|]. cbn [map decodeElems]. rewrite Hdec by done. cbn [mbind result_bind].
    by rewrite IH. }
  unfold decodeList, listJSON, decodeSlice. destruct l as [|a l]; [done|]. specialize (E []). cbn [map] in E |- *.
  cbn [sl_backing nilSlice]. rewrite E. cbn [mbind result_bind]. unfold sliceElems. cbn [sl_len sl_backing].
  rewrite drop_nil, app_nil_r. by rewrite take_ge.
Qed.

Lemma decode_error e : okError e -> decodeErrorPtr (errorJSON e) None = Ok (Some e).
Proof.
  intros (H1 & H2). destruct e as [c m]. unfold decodeErrorPtr, errorJSON, decodeStruct, strMember, intMember.
  cbn [re_Code re_Message default] in *. unfold setErrorField.
  next_member "code" (mkRPCError c []). by next_member "message" (mkRPCError c m).
Qed.

(** *** Responses *)

Section Transport.
Context (sc sk : bytes).
Hypothesis sc_space : Forall (fun c => is_space c = true) sc.
Hypothesis sk_space : Forall (fun c => is_space c = true) sk.

Lemma unmarshal_response id x :
  in_int64 id -> okAnswer (wfJson (maxNestingDepth - 1)) x ->
  unmarshalRPC (print sc sk (responseOf id x))
  = Ok (mkRPCResponse (go "2.0") id (match x with inl v => Some v | inr _ => None end) (match x with inl _ => None | inr e => Some e end)).
Proof.
  intros Hid Hx. unfold unmarshalRPC. rewrite parse_print; [|done|done|].
  2: { apply wf_object. constructor; [apply wf_str_member; [done|by apply safeAscii_safe]|]. constructor; [by apply wf_int_member|].
       constructor; [|constructor]. destruct x as [v|e]; cbn [okAnswer] in Hx; (split; [by apply wfStr_quote, safeAscii_safe|]); [done|].
       by apply wf_error. }
  cbn [mbind result_bind]. unfold decodeStruct, responseOf, strMember, intMember, setRPCField.
  rewrite (decode_known _ _ "jsonrpc" _ _ _ (mkRPCResponse (go "2.0") 0 None None)); [|done|done|done].
  next_member "id" (mkRPCResponse (go "2.0") id None None). destruct x as [v|e].
  - by rewrite (decode_known _ _ "result" _ _ _ (mkRPCResponse (go "2.0") id (Some v) None)).
  - rewrite (decode_known _ _ "error" _ _ _ (mkRPCResponse (go "2.0") id None (Some e))); [done|done|done|].
    repeat first [rewrite decide_True by done|rewrite decide_False by done]. cbn [rs_Error]. by rewrite decode_error.
Qed.

(** The transport of a hub; every response has an ID of its own. *)
Context (hub : Hub) (ids : bytes -> list Param -> Z) (ids_ok : forall m ps, in_int64 (ids m ps)).
Definition hubCall (method : bytes) (params : list Param) : bytes + error :=
  inl (print sc sk (responseOf (ids method params) (hubAnswer hub method params))).

Lemma call_served {A} (out : json -> result A) (enc : A -> json) (ok : A -> Prop) x m ps :
  hubAnswer hub m ps = encodeWith enc x -> okAnswer ok x ->
  (forall a, ok a -> wfJson (maxNestingDepth - 1) (enc a) /\ out (enc a) = Ok a) ->
  CallTyped hubCall out m ps = Ok x.
Proof.
  intros E Hx Ha. unfold CallTyped, hubCall. rewrite E, unmarshal_response; [|done|].
  - cbn [wrap_err mbind result_bind]. destruct x as [a|e]; [|done]. cbn [encodeWith rs_Error rs_Result].
    destruct (Ha a Hx) as [_ ->]. done.
  - destruct x as [a|e]; cbn in *; [by apply Ha|done].
Qed.

(** C18. The typed calls see what the hub has: over a transport that carries the answers of a
    hub as JSON, with any white space and any IDs, every call returns exactly the hub's
    value, or its error with code and message. *)
Theorem client_sees_hub (Hok : okHub hub) s :
  Subscribe hubCall s = Ok (hub_status hub s)
  /\ ListUnspent hubCall s = Ok (hub_unspent hub s)
  /\ GetHistory hubCall s = Ok (hub_history hub s)
  /\ GetBalance hubCall s = Ok (hub_balance hub s)
  /\ Broadcast hubCall s = Ok (hub_broadcast hub s)
  /\ GetTxHex hubCall s = Ok (hub_txHex hub s)
  /\ GetTxVerbose hubCall s = Ok (hub_txVerbose hub s)
  /\ ResolveClaim hubCall s = Ok (hub_resolve hub s)
  /\ GetClaimByID hubCall s = Ok (hub_claim hub s)
  /\ Electrum_Version hubCall = Ok (hub_version hub)
  /\ Electrum_Ping hubCall = Ok (inl JNull).
Proof.
  destruct Hok.
  assert (Htext : forall a, safe a -> wfJson (maxNestingDepth - 1) (textJSON a) /\ decodeText (textJSON a) = Ok a)
    by (intros a Ha; split; [by apply wf_text|by apply decode_text]).
  split_and!.
  - by eapply (call_served decodeText textJSON safe).
  - eapply (call_served _ (listJSON utxoJSON) (Forall okUTXO)); [done|done|]. intros l Hl. split.
    + by apply (wf_list _ _ okUTXO); [done|apply wf_utxo|].
    + apply (decode_list _ _ _ okUTXO); [|done]. intros a cur. apply decode_utxo.
  - eapply (call_served _ (listJSON historyJSON) (Forall okHistory)); [done|done|]. intros l Hl. split.
    + by apply (wf_list _ _ okHistory); [done|apply wf_history|].
    + apply (decode_list _ _ _ okHistory); [|done]. intros a cur. apply decode_history.
  - eapply (call_served _ balanceJSON okBalance); [done|done|]. intros b Hb. split; [by apply wf_balance|by apply decode_balance].
  - by eapply (call_served decodeText textJSON safe).
  - by eapply (call_served decodeText textJSON safe).
  - by eapply (call_served Ok id (wfJson (maxNestingDepth - 1))).
  - by eapply (call_served decodeText textJSON safe).
  - by eapply (call_served decodeText textJSON safe).
  - eapply (call_served decodePair pairJSON (fun p => safe p.1 /\ safe p.2)); [done|done|]. intros [a b] [Ha Hb]. cbn [fst snd] in *. split.
    + apply (wf_list _ textJSON safe [a; b]); [done| |by constructor; [|constructor]]. intros d x _ Hx. by apply wf_text.
    + pose proof (decodeElems_strings [a; b] ltac:(by repeat constructor)) as E. unfold decodePair, pairJSON.
      change (take 2 _) with (map (fun s => JStr (quote s)) [a; b]). by rewrite E.
  - eapply (call_served decodeAny id (eq JNull)); [done|done|]. intros ? <-. split; [constructor|done].
Qed.
End Transport.

(** ** Requests *)

Definition okParam (p : Param) : Prop := match p with PString s => safe s | PBool _ => True end.

(** A request is the JSON object of its fields; no parameters are an empty array and not
    null, also where none were given. *)
Theorem request_parses id method params
    (Hid : in_int64 id) (Hm : safe method) (Hp : Forall okParam (default [] params)) :
  parse (Marshal (NewRequest id method params))
  = Ok (JObj [strMember "jsonrpc" (go "2.0"); intMember "id" id; strMember "method" method;
              (quote (go "params"), JArr (map paramJSON (default [] params)))]).
Proof.
  unfold Marshal, NewRequest. cbn [rp_JSONRPC rp_ID rp_Method rp_Params]. rewrite parse_print; [done|constructor|constructor|].
  apply wf_object. constructor; [apply wf_str_member; [done|by apply safeAscii_safe]|]. constructor; [by apply wf_int_member|].
  constructor; [by apply wf_str_member|]. constructor; [|constructor]. apply wf_member; [done|]. cbn [rp_Params].
  constructor; [done|]. apply Forall_map. eapply Forall_impl; [exact Hp|].
  intros [s|b] Hs; [by apply wf_text|constructor].
Qed.

(** ** Witnesses *)

Definition someHub : Hub :=
  mkHub (fun _ => inl (go "ab12")) (fun s => if decide (s = go "ff") then inr (mkRPCError 1 (go "history too large"))
                                            else inl [mkElectrumUTXO (go "c0de") 1 100000 0; mkElectrumUTXO (go "beef") 4294967295 (-1) (-1)])
    (fun _ => inl []) (fun _ => inl (mkBalance 5 (-3))) (fun _ => inr (mkRPCError (-26) (go "rejected"))) (fun _ => inl (go "00"))
    (fun _ => inl (JObj [])) (fun _ => inl (go "CAE=")) (fun _ => inl []) (inl (go "hub 0.1", go "1.4.1")).

Lemma okHub_someHub : okHub someHub.
Proof.
  assert (Hu : forall (s : string) p v h, safeAscii s = true -> 0 <= p < 2 ^ 32 -> in_int64 v -> in_int64 h -> okUTXO (mkElectrumUTXO (go s) p v h))
    by (intros; split_and!; [by apply safeAscii_safe|cbn; lia..|done|done]).
  split; cbn [someHub hub_status hub_unspent hub_history hub_balance hub_broadcast hub_txHex hub_txVerbose hub_resolve hub_claim hub_version];
    intros; cbn [okAnswer]; try (by apply safeAscii_safe).
  - case_decide; [split; [done|by apply safeAscii_safe]|]. apply List.Forall_cons; [by apply Hu|].
    apply List.Forall_cons; [by apply Hu|constructor].
  - constructor.
  - done.
  - split; [done|by apply safeAscii_safe].
  - constructor; [done|constructor].
  - constructor.
  - split; by apply safeAscii_safe.
Qed.

Lemma client_sees_hub_witness :
  ListUnspent (hubCall [x20] [] someHub (fun _ _ => 7)) (go "00") =
    Ok (inl [mkElectrumUTXO (go "c0de") 1 100000 0; mkElectrumUTXO (go "beef") 4294967295 (-1) (-1)])
  /\ ListUnspent (hubCall [x20] [] someHub (fun _ _ => 7)) (go "ff") = Ok (inr (mkRPCError 1 (go "history too large"))).
Proof.
  assert (Hs : Forall (fun c => is_space c = true) [x20]) by (constructor; [reflexivity|constructor]).
  assert (Hi : forall (m : bytes) (ps : list Param), in_int64 7) by (unfold in_int64; lia).
  split.
  - destruct (client_sees_hub [x20] [] Hs (List.Forall_nil _) someHub (fun _ _ => 7) Hi okHub_someHub (go "00")) as (_ & H & _). exact H.
  - destruct (client_sees_hub [x20] [] Hs (List.Forall_nil _) someHub (fun _ _ => 7) Hi okHub_someHub (go "ff")) as (_ & H & _). exact H.
Defined.
