(* ===== verification/Hosting.v ===== *)
(** * A stream hosted by a server

    The components together: a stream that the encoder has made is added to a running
    server through its blob manager, is announced to the DHT, and is fetched over the wire
    by a client of the peer protocol. *)
From stdpp Require Import base tactics list numbers strings gmap.
From Stdlib Require Import ZArith Lia Init.Byte Floats.SpecFloat.
From S2P Require Import Prelude GoStd Sha2 Aes Blob Multihash Json SdBlob SdBlobSpec Encoder EncoderSpec Errors Store Memory GoNet.
From S2P Require Import PeerMsg Wire PeerServer PeerClient PeerSpec PeerStream.
From S2P Require Import Discovery Transfer Reflector Watchdog DhtNode Manager ManagerSpec.
Local Open Scope Z_scope.

Section Hosting.
Context {L : CidLib} {CL : CidLaws L} {St : Type} {B : BlobStore St} {BL : BlobStoreLaws St}.
Context {R : Rand} {RL : RandLaws R} {RT : RandTotal R} {OJ : OrderedJson} {OL : OrderedJsonLaws OJ}.
Context (ParseAddr : bytes -> option bytes) (emptyNil : bool) (FormatFloat : spec_float -> bytes).
Context (FromShortHex : bytes -> result bytes) (FSH : forall h, IsValid h = true -> FromShortHex h = DecodeString h).
Context (CST : forall c, cid_String c <> []).
Context (ACC : forall h, IsValid h = true -> store_accepts h = true).
Implicit Types (m : Manager St).

(** The calls that add a stream: its descriptor, and its blobs. *)
Definition addBlobs (blobs : list bytes) : list mop := map (fun b => MAdd Background (HashHex b) b) blobs.
Definition addStream (sdText : bytes) (blobs : list bytes) : list mop :=
  MAddSD Background (HashHex sdText) sdText :: addBlobs blobs.

(** What can be stored and sent. *)
Definition hostable (b : bytes) : Prop := b <> [] /\ store_admits b = true /\ Z.of_nat (length b) <= MaxBlobSize.
(** No two different blobs of the stream have the same hash. *)
Definition collisionFree (bs : list bytes) : Prop := forall b b', b ∈ bs -> b' ∈ bs -> HashHex b = HashHex b' -> b = b'.

Lemma valid_input b : b <> [] -> validateBlobInput (HashHex b) b = Ok tt.
Proof.
  intros Hb. unfold validateBlobInput, validateHash. pose proof (HashHex_valid b Hb) as Hv. apply IsValid_length in Hv.
  destruct (HashHex b) as [|c h]; [done|]. rewrite bool_decide_eq_false_2 by done. cbn [mbind result_bind].
  by rewrite bool_decide_eq_false_2.
Qed.

Lemma add_blob m b :
  goodManager m -> hostable b ->
  let '(r, m') := runMop FromShortHex (MAdd Background (HashHex b) b) m in
  r = Ok tt /\ store_view (sm_storage m') = <[HashHex b := b]> (store_view (sm_storage m)).
Proof.
  intros G (Hb & Ha & _). pose proof (ACC _ (HashHex_valid b Hb)) as Hacc. pose proof (gm_wf m G) as Hw.
  cbn [runMop]. unfold AddBlob, changeStore. rewrite valid_input by done.
  pose proof (store_put_ok _ _ b Hw Hacc Ha) as Hok. pose proof (store_put _ _ b Background Hw Hacc) as Hp.
  destruct (Put Background (HashHex b) b (sm_storage m)) as [r s']. cbn [fst] in Hok. subst r. destruct Hp as [_ Hv].
  by rewrite decide_True in Hv by done.
Qed.

Lemma add_descriptor m b :
  goodManager m -> hostable b -> store_view (sm_storage m) !! HashHex b = None ->
  let '(r, m') := runMop FromShortHex (MAddSD Background (HashHex b) b) m in
  r = Ok tt /\ store_view (sm_storage m') = <[HashHex b := b]> (store_view (sm_storage m)).
Proof.
  intros G (Hb & Ha & _) Hn. pose proof (ACC _ (HashHex_valid b Hb)) as Hacc. pose proof (gm_wf m G) as Hw.
  cbn [runMop]. unfold AddSDBlob, changeStore. rewrite valid_input by done.
  pose proof (store_putSD_ok _ _ b Hw Hacc Ha) as Hok. pose proof (store_putSD _ _ b Background Hw Hacc) as Hp.
  destruct (PutSD Background (HashHex b) b (sm_storage m)) as [r s']. cbn [fst] in Hok. subst r.
  destruct Hp as (_ & Ho & _ & Hd). split; [done|]. cbn. apply map_eq. intros h.
  destruct (decide (h = HashHex b)) as [->|Hne]; [rewrite lookup_insert_eq; by apply Hd|].
  rewrite lookup_insert_ne by done. by apply Ho.
Qed.

Lemma hosted_valid b : hostable b -> IsValid (HashHex b) = true.
Proof. intros [Hb _]. by apply HashHex_valid. Qed.

(** Adding blobs one after the other is inserting them into the map. *)
Lemma add_blobs blobs m :
  goodManager m -> Forall hostable blobs ->
  let '(rs, m') := runMops FromShortHex (addBlobs blobs) m in
  Forall (fun r => r = Ok tt) rs
  /\ store_view (sm_storage m') = foldl (fun view b => <[HashHex b := b]> view) (store_view (sm_storage m)) blobs.
Proof.
  intros G Hbs. revert m G. induction Hbs as [|b bs Hb Hbs IH]; intros m G; [by split|]. cbn [addBlobs map runMops].
  pose proof (add_blob m b G Hb) as H1. pose proof (runMop_ok FromShortHex FSH CST ACC (MAdd Background (HashHex b) b) m G (hosted_valid b Hb)) as H2.
  destruct (runMop FromShortHex _ m) as [r m1]. destruct H1 as [-> Hv]. destruct H2 as (G1 & _).
  specialize (IH m1 G1). unfold addBlobs in IH. destruct (runMops _ _ m1) as [rs m2]. destruct IH as [Hrs IH]. split; [by constructor|].
  rewrite IH, Hv. done.
Qed.

Lemma inserted_lookup (bs : list bytes) (view : gmap bytes bytes) h :
  (forall b, b ∈ bs -> HashHex b = h -> view !! h = Some b) ->
  (forall b b', b ∈ bs -> b' ∈ bs -> HashHex b = HashHex b' -> b = b') ->
  foldl (fun view b => <[HashHex b := b]> view) view bs !! h = view !! h.
Proof.
  revert view. induction bs as [|b bs IH]; intros view Hin Hc; [done|]. cbn [foldl]. rewrite IH.
  - destruct (decide (HashHex b = h)) as [<-|Hne]; [rewrite lookup_insert_eq; symmetry; apply Hin; [left|done]|by rewrite lookup_insert_ne].
  - intros c Hcin Hch. destruct (decide (HashHex b = h)) as [E|Hne].
    + rewrite E, lookup_insert_eq. f_equal. apply Hc; [left|by right|congruence].
    + rewrite lookup_insert_ne by done. apply Hin; [by right|done].
  - intros c c' ? ?. apply Hc; by right.
Qed.

Lemma inserted (bs : list bytes) (view : gmap bytes bytes) b :
  collisionFree bs -> b ∈ bs -> foldl (fun view b => <[HashHex b := b]> view) view bs !! HashHex b = Some b.
Proof.
  revert view. induction bs as [|c bs IH]; intros view Hc Hb; [by apply elem_of_nil in Hb|]. cbn [foldl].
  assert (Hc' : collisionFree bs) by (intros x y ? ?; apply Hc; by right).
  destruct (decide (b ∈ bs)) as [Hin|Hout]; [by apply IH|]. apply elem_of_cons in Hb as [->|Hb]; [|done].
  rewrite inserted_lookup; [by rewrite lookup_insert_eq| |done].
  intros x Hx Eh. rewrite lookup_insert_eq. f_equal. symmetry. apply Hc; [by right|left|done].
Qed.

Lemma inserted_values (bs : list bytes) (view : gmap bytes bytes) h d :
  foldl (fun view b => <[HashHex b := b]> view) view bs !! h = Some d -> view !! h = Some d \/ d ∈ bs.
Proof.
  revert view. induction bs as [|b bs IH]; intros view; [by left|]. cbn [foldl]. intros H. apply IH in H as [H|H]; [|right; by right].
  destruct (decide (HashHex b = h)) as [<-|Hne]; [rewrite lookup_insert_eq in H; injection H as ->; right; left|].
  rewrite lookup_insert_ne in H by done. by left.
Qed.

(** Adding a stream that is not there yet. *)
Lemma add_stream m sdText blobs :
  goodManager m -> covered m -> Forall hostable (sdText :: blobs) -> collisionFree (sdText :: blobs) ->
  store_view (sm_storage m) !! HashHex sdText = None ->
  let '(rs, m') := runMops FromShortHex (addStream sdText blobs) m in
  Forall (fun r => r = Ok tt) rs /\ goodManager m' /\ covered m'
  /\ (forall b, b ∈ sdText :: blobs -> store_view (sm_storage m') !! HashHex b = Some b)
  /\ (forall h d, store_view (sm_storage m') !! h = Some d -> store_view (sm_storage m) !! h = Some d \/ d ∈ sdText :: blobs).
Proof.
  intros G C Hh Hc Hn. apply Forall_cons in Hh as [Hsd Hbs].
  assert (Hv : Forall (fun op => IsValid (opHash op) = true) (addStream sdText blobs)).
  { constructor; [by apply hosted_valid|]. apply Forall_map. eapply Forall_impl; [exact Hbs|]. apply hosted_valid. }
  pose proof (runMops_ok FromShortHex FSH CST ACC (addStream sdText blobs) m G Hv) as Hok.
  pose proof (add_descriptor m sdText G Hsd Hn) as H1.
  pose proof (runMop_ok FromShortHex FSH CST ACC (MAddSD Background (HashHex sdText) sdText) m G (hosted_valid _ Hsd)) as H2.
  unfold addStream in *. cbn [runMops] in *. destruct (runMop FromShortHex _ m) as [r m1]. destruct H1 as [-> Hv1]. destruct H2 as (G1 & _).
  pose proof (add_blobs blobs m1 G1 Hbs) as H3. destruct (runMops FromShortHex (addBlobs blobs) m1) as [rs m2].
  destruct H3 as [Hrs Hv2]. destruct Hok as (G2 & C2 & _). rewrite Hv1 in Hv2.
  change (store_view (sm_storage m2) = foldl (fun view b => <[HashHex b := b]> view) (store_view (sm_storage m)) (sdText :: blobs)) in Hv2.
  split_and!; [by constructor|done|by apply C2| |]; rewrite Hv2; [intros b Hb; by apply inserted|apply inserted_values].
Qed.

(** A server that serves what a manager stores, to a peer it allows. *)
Definition serves (p : PeerServer St) (ip : bytes) m (bs : list bytes) : Prop :=
  sv_store p = sm_storage m
  /\ Forall (fun b => isProtected p (HashHex b) = false /\ denied p Background (HashHex b) ip = false) bs.

(** C2. From a file to the network: for a source whose stream can be stored and sent, a
    running server to which the descriptor and the blobs of its stream are added accepts
    them all, announces each of them to the DHT, and a client of the peer protocol fetches
    the stream from it by the hash of the descriptor alone and decodes it to the source. *)
Theorem hosted_stream_fetched order src data key ivs k m
    (Ho : registryOrder order) (Hs : sourceOf src data) (Hne : data <> [])
    (Hk : length key = AES256KeySize \/ length key = AES128KeySize)
    (Hivs : Forall (fun iv => length iv = 16%nat) ivs) (Hl : Z.of_nat (length data) < 2 ^ 63 - 1)
    (G : goodManager m) (C : covered m)
    (Hsize : forall h d, store_view (sm_storage m) !! h = Some d -> Z.of_nat (length d) <= MaxBlobSize) :
  exists enc sdText blobs enc',
    NewEncoderWithIVs src key ivs k = Ok enc
    /\ Encoder_Stream enc = (Ok (sdText :: blobs), enc')
    /\ (Forall hostable (sdText :: blobs) -> collisionFree (sdText :: blobs) ->
        store_view (sm_storage m) !! HashHex sdText = None ->
        let '(rs, m') := runMops FromShortHex (addStream sdText blobs) m in
        Forall (fun r => r = Ok tt) rs
        /\ Forall (fun b => bitmapOf (HashHex b) ∈ announced (sm_node m')) (sdText :: blobs)
        /\ forall p addr dl t e, serves p (getPeerIP ParseAddr addr) m' (sdText :: blobs) ->
           exists requests written log stream client,
             HandleConnection ParseAddr emptyNil p (fun _ _ => Background) addr (mkConn requests (ESent EOF) [] [])
             = (Ok tt, mkConn [] (ESent EOF) written [], log)
             /\ PeerClient.GetStream FormatFloat order dl quietCtx (HashHex sdText) (mkClient (Some (mkConn written e [] [])) true t)
                = (Ok stream, client)
             /\ Decode order stream = Ok data).
Proof.
  destruct (stream_fetched ParseAddr emptyNil FormatFloat order src data key ivs k Ho Hs Hne Hk Hivs Hl)
    as (enc & sdText & blobs & enc' & H1 & H2 & H3 & H4).
  exists enc, sdText, blobs, enc'. split; [exact H1|]. split; [exact H2|]. intros Hh Hc Hn.
  pose proof (add_stream m sdText blobs G C Hh Hc Hn) as Hadd. destruct (runMops FromShortHex (addStream sdText blobs) m) as [rs m'].
  destruct Hadd as (Hrs & G' & C' & Hstored & Hvals). split; [exact Hrs|]. split.
  { apply Forall_forall. intros b Hb. apply C'. rewrite Hstored by done. by eexists. }
  intros p addr dl t e [Ep Hserve]. rewrite Forall_forall in Hh, Hserve.
  destruct (H4 p addr dl t e) as (requests & written & log & E1 & E2).
  - split; rewrite ?Ep; [apply (gm_wf m' G')|exact ACC|]. intros h d [Hd|Hd]%Hvals; [by eapply Hsize|by apply Hh].
  - apply Forall_forall. intros b Hb. destruct (Hserve b Hb) as [Hp Hd]. split_and!; [by apply Hh|rewrite Ep; by apply Hstored|done|done].
  - eexists _, _, _, _, _. split; [exact E1|]. split; [exact E2|exact H3].
Qed.
End Hosting.

(** ** Witness *)

#[local] Existing Instances exampleCid exampleCid_laws exampleRand exampleRand_laws exampleRand_total exampleOrdered exampleOrdered_laws.

Lemma sampleStream_distinct : collisionFree sampleStream.
Proof.
  assert (Hn : NoDup (map HashHex sampleStream)) by (apply (bool_decide_eq_true_1 (NoDup _)); vm_compute; reflexivity).
  intros b b' Hb Hb' E. apply list_elem_of_lookup in Hb as [i Hi]. apply list_elem_of_lookup in Hb' as [j Hj].
  assert (Ei : map HashHex sampleStream !! i = Some (HashHex b)) by (rewrite list_lookup_fmap, Hi; done).
  assert (Ej : map HashHex sampleStream !! j = Some (HashHex b)) by (rewrite list_lookup_fmap, Hj, E; done).
  pose proof (NoDup_lookup _ _ _ _ Hn Ei Ej) as ->. congruence.
Qed.

Lemma sampleStream_hostable : Forall (hostable (BL := MemoryBlobStoreLaws)) sampleStream.
Proof. repeat (apply List.Forall_cons; [split_and!; [discriminate|reflexivity|vm_compute; discriminate]|]). apply List.Forall_nil. Qed.

Lemma noBlobs_view h : memoryView noBlobs !! h = None.
Proof. rewrite memoryView_lookup. simpl. by rewrite !lookup_empty. Qed.

Lemma sampleManager_covered : covered (BL := MemoryBlobStoreLaws) sampleManager.
Proof. intros h [d Hd]. cbn in Hd. by rewrite noBlobs_view in Hd. Qed.

Lemma hosted_stream_fetched_witness :
  exists sdText blobs, sampleStream = sdText :: blobs
  /\ let '(rs, m') := runMops (B := MemoryBlobStore) DecodeString (addStream sdText blobs) sampleManager in
     Forall (fun r => r = Ok tt) rs
     /\ Forall (fun b => bitmapOf (HashHex b) ∈ announced (sm_node m')) sampleStream
     /\ exists requests written log stream client,
        HandleConnection noAddr false (NewPeerServer (sm_storage m') []) (fun _ _ => Background) (go "1.2.3.4:5")
          (mkConn requests (ESent EOF) [] []) = (Ok tt, mkConn [] (ESent EOF) written [], log)
        /\ PeerClient.GetStream noRate [1; 0] true quietCtx (HashHex sdText) (mkClient (Some (mkConn written (ESent EOF) [] [])) true 1)
           = (Ok stream, client)
        /\ Decode [1; 0] stream = Ok (go "hello").
Proof.
  destruct (hosted_stream_fetched (BL := MemoryBlobStoreLaws) noAddr false noRate DecodeString ltac:(reflexivity) ltac:(discriminate)
    (fun h => IsValid_validates h) [1; 0] (bytesReader (go "hello")) (go "hello") sampleKey [sampleIV] 0 sampleManager
    order_swap (bytesReader_source _) ltac:(discriminate) (or_introl eq_refl)
    (List.Forall_cons (fun iv => length iv = 16%nat) sampleIV [] eq_refl (List.Forall_nil _)) eq_refl sampleManager_good sampleManager_covered)
    as (enc & t & bs & enc' & H1 & H2 & H3).
  { intros h d Hd. cbn in Hd. by rewrite noBlobs_view in Hd. }
  assert (E : sampleStream = t :: bs) by (rewrite <- sampleStream_made; unfold madeStream; rewrite H1, H2; reflexivity).
  exists t, bs. split; [exact E|]. pose proof sampleStream_hostable as Hh. pose proof sampleStream_distinct as Hc. rewrite E in Hh, Hc |- *.
  specialize (H3 Hh Hc (noBlobs_view _)). destruct (runMops DecodeString (addStream t bs) sampleManager) as [rs m'].
  destruct H3 as (Hrs & Ha & Hf). split; [exact Hrs|]. split; [exact Ha|]. apply Hf. split; [reflexivity|].
  apply Forall_forall. intros b _. split; reflexivity.
Defined.
